(* ===== verification/_CoqProject ===== *)
-Q . S2P
Prelude.v
Bitmap.v
RawBitmap.v
RleBitmap.v
IdAllocator.v
Digest.v
MerkleTree.v
MerkleCreate.v
MerkleVerify.v
Format.v
Superblock.v
Reservers.v
Allocator.v
AllocatorBlocks.v
AllocatorNodes.v
Iterators.v
Streaming.v
Populate.v
Operations.v
RingBuffer.v
RingReservations.v
RingCopy.v
WriteTxn.v
Writeback.v
Journal.v
JournalReplay.v
JournalEntry.v
JournalRecovery.v
Crc32.v
Crc16.v
Adler32.v
JournalChecksum.v
JournalProcessor.v
JournalProtocol.v
Blobfs.v
Blob.v
BlobWrite.v
BlobMeta.v
BlobCommit.v
NodeWords.v
BlobSync.v
BlobData.v
BlobFinish.v
BlobRead.v
BlobRoundTrip.v
BlobRecord.v
BlobLife.v
BlobExample.v
BlobSpace.v
BlobTheorems.v
BlobStates.v
BlobCache.v
CacheProtocol.v
CacheReset.v
Vnodes.v
VnodeLife.v
Mount.v
MountList.v
MountExact.v
MountReload.v
MountTheorems.v
