(* ===== verification/Prelude.v ===== *)
(** * The Zircon storage stack, modelled and verified

    This library models the storage code of zircon/system/ulib: bitmaps, id allocation, digests
    and Merkle trees, and blobfs, the file system for immutable blobs, from its on-disk format
    up to the journal. Paths below are relative to src/zircon/system/ulib.

    ** The parts and how they interact

    A blob is stored in extents of blocks, listed in an inode and a chain of containers; the
    allocator finds free blocks in a bitmap and free nodes in an id allocator, and keeps what is
    taken and not yet written in reservers. Reading and writing go through iterators over extents.
    Data is checked against a Merkle tree. Metadata is written in transactions, which are copied to
    the journal and, through the write-back queue, to their place on the device. When a volume is mounted,
    the superblock is checked and the journal replayed.

    ** Files

    - [Prelude]: status codes, machine integers, the monad of calls, arrays, tactics and hints.
    - [Bitmap] (bitmap/include/bitmap/bitmap.h): the interface of bitmaps, the abstract bitmap and the laws.
      [RawBitmap] (raw-bitmap.cpp, raw-bitmap.h, storage.h) and [RleBitmap] (rle-bitmap.cpp, rle-bitmap.h):
      the two implementations, as instances.
    - [IdAllocator] (id_allocator/id_allocator.cpp): a 64-ary tree of raw bitmaps.
    - [Digest], [MerkleTree] (digest/digest.cpp, merkle-tree.cpp): the code; [MerkleCreate] and
      [MerkleVerify]: its theorems.
    - [Format] (blobfs/include/blobfs/format.h): the layout, extents and nodes as words and fields.
      [Superblock] (blobfs/common.cpp): CheckSuperblock and Mkfs.
    - [Reservers] (extent-reserver.cpp, node-reserver.cpp) and [Allocator] (allocator.cpp): the code of the
      allocator; [AllocatorBlocks] and [AllocatorNodes]: its theorems, over any [SpaceManager].
    - [Iterators] (iterator/): the interface [ExtentIterator], its two instances, BlockIterator, StreamBlocks and
      NodePopulator. [Streaming]: theorems against the interface; [Populate]: what is stored is read back.
    - [Operations] (unbuffered-operations-builder.cpp, operation.h) and [RingBuffer] (ring-buffer.cpp): block
      operations and the ring buffer; [RingReservations] and [RingCopy]: theorems about reservations and copying.
    - [WriteTxn] (write-txn.cpp, writeback-work.cpp, buffer.cpp, writeback-queue.cpp): transactions, works,
      the buffer, and the queue with its thread; [Writeback]: what reaches the device.
    - [Journal] (journal.cpp): loading and replaying; [JournalReplay]: termination, and what a replay writes.
      [JournalEntry] (journal-entry.cpp and the writing half of journal.cpp): how an entry is made, written and
      cleared; [JournalRecovery]: from a transaction through a crash to the device. [JournalProcessor] (the same
      files): the queues of entries and the journal thread, as a transition system with the clients and the
      write-back thread; [JournalProtocol]: its invariant, for all interleavings.
    - [Crc32], [Crc16], [Adler32] (../../third_party/ulib/cksum): the checksums. [JournalChecksum]: the journal with
      the checksum that it is compiled with.

    ** How the code is modelled

    A class is a record with its fields and a method a function that returns the new state; the names are those of
    the source where they do not clash. Unsigned integers are [Z] with the wrap-around written out ([u64], [u32],
    [u16], and the operators of [storage_scope] for 64 bits). A call returns an [outcome]: [Returns] a value, [Aborts] when
    an assertion (debug ones included) fails or memory outside of an array is used, [Diverges] when
    the fuel of a loop is used up. Errors are values of [zx_status]. Structures of the on-disk format are lists of 64-bit
    words, read and written through fields, so that two views of the same bytes are the same words.

    What is not in the repository's storage code is a parameter: the hash function, the system calls of
    VMOs and the volume manager, allocation failures ([alloc], or the failing calls of a storage), the block device with
    its errors, and the clock. The journal is modelled over any checksum, which [JournalChecksum] instantiates. Mutexes make the methods that hold them atomic. The write-back thread is a step relation
    in [Writeback], where it runs at any time, and a schedule in [Journal], which says how
    many works it completes between any two calls of the journal. In [JournalProcessor] the journal thread, the write-back
    thread and the clients take turns in an order given by a list of actions; entries live in a heap, and a
    callback to an entry that was destroyed aborts.

    ** What the theorems show

    - Bitmaps: both implementations refine the abstract bitmap on every sequence of operations, and the searches
      find the first run. The id allocator refines a set of busy ids and never fails an assertion.
    - Merkle trees: streaming creation computes the recursive definition, its length is exact, a created tree
      verifies, and an accepted range agrees with the data unless the hash collides.
    - Volume: Mkfs makes volumes that CheckSuperblock accepts, and accepted superblocks have their regions in order.
    - Allocator: reservations hold only free blocks, as many as asked for, or leave nothing behind; nodes
      are handed out in order; commit and free restore each other.
    - Blobs: what NodePopulator stores, the iterator reads back; StreamBlocks visits exactly the blocks.
    - Write-back: reservations of the ring buffer are disjoint in every history; copying writes the same
      data to the same blocks; the write-back queue writes each transaction as it was when it was queued, in order.
    - Journal: replay terminates on any contents, writes every valid entry to its place, and a transaction whose entry is on
      the device survives a crash. While the device works, every interleaving of the threads writes data only after its
      entry, keeps the entry until the data is written, and fails no assertion.
    - Checksums: the unrolled and table-driven code computes the polynomial remainders, the combination of two
      checksums is that of the joined data, and a journal entry with a burst of up to 32 changed bits is not replayed.
    - The theorems of kind error state, for inputs given in them, behaviour that is not intended:
      among others a gap in what Merkle verification covers, node ids that leak, a ring buffer that stays blocked, a
      race and stale entries in the journal's replay, and an entry that is destroyed before its callback.

    ** Bounds and fuel

    Loops that are not structural take fuel, and each is proved to return with the fuel that its caller gives: one more
    than the number of words, bits, elements, levels or nodes that the loop goes over. [Replay] takes one more than the
    blocks of the journal, since each entry must be newer than the one before; [replay_blocks] two more
    than the targets of a header; [enqueue_wait] one more than the works in the queue. [log64_int8_ceil] does
    diverge for some inputs, which is a theorem. Offsets in operations are below 2^40 blocks and
    capacities below 2^32 or 2^38, so that byte offsets do not overflow, which is more than a device has.

    ** What is not modelled

    Metrics, tracing and messages; creation and joining of threads; the order in which waiting producers are woken; vnodes,
    the cache and the mount sequence of blobfs; compression, which is third-party code; unmounting; and the rest of the repository, which does not belong to
    this stack. *)

From stdpp Require Export prelude numbers list.
From Stdlib Require Export ZArith Lia Bool Btauto.

#[export] Set Default Goal Selector "!".

Declare Scope storage_scope.
Delimit Scope storage_scope with storage.
Open Scope Z_scope.
Open Scope storage_scope.

(** ** Status codes of [zircon/errors.h] used by the modelled code *)

Inductive zx_status :=
| ZX_OK
| ZX_ERR_INTERNAL
| ZX_ERR_NOT_SUPPORTED
| ZX_ERR_NO_RESOURCES
| ZX_ERR_NO_MEMORY
| ZX_ERR_INVALID_ARGS
| ZX_ERR_OUT_OF_RANGE
| ZX_ERR_BUFFER_TOO_SMALL
| ZX_ERR_BAD_STATE
| ZX_ERR_NO_SPACE
| ZX_ERR_IO
| ZX_ERR_IO_DATA_INTEGRITY
| ZX_ERR_ACCESS_DENIED
| ZX_ERR_NOT_FOUND
| ZX_ERR_ALREADY_EXISTS
| ZX_ERR_NOT_FILE
| ZX_ERR_NOT_DIR.

#[export] Instance zx_status_eq_dec : EqDecision zx_status.
Proof. solve_decision. Defined.

(** ** Outcomes

    A call of a modelled function returns a value, stops the program, or runs
    out of the fuel of one of its loops. [Aborts] is the failure of a
    [ZX_ASSERT] or [ZX_DEBUG_ASSERT], and every access the C++ leaves
    undefined (an array index out of range, a null pointer, ...). *)

Inductive outcome (A : Type) :=
| Returns (a : A)
| Aborts
| Diverges.
Arguments Returns {A} a.
Arguments Aborts {A}.
Arguments Diverges {A}.

#[export] Instance outcome_ret : MRet outcome := @Returns.
#[export] Instance outcome_bind : MBind outcome := λ A B f m,
  match m with
  | Returns a => f a
  | Aborts => Aborts
  | Diverges => Diverges
  end.

Definition ZX_ASSERT (b : bool) : outcome unit :=
  if b then Returns tt else Aborts.

Definition ZX_DEBUG_ASSERT (b : bool) : outcome unit :=
  if b then Returns tt else Aborts.

Lemma bind_returns {A B} (m : outcome A) (f : A → outcome B) b :
  m ≫= f = Returns b ↔ ∃ a, m = Returns a ∧ f a = Returns b.
Proof.
  destruct m; cbn; split; try (intros (? & ? & ?)); try (intros ?); simplify_eq; eauto.
Qed.

(** A call that returned, taken apart. *)
Ltac ran H :=
  repeat match type of H with
    | mbind _ _ = Returns _ => let x := fresh "x" in let E := fresh "E" in apply bind_returns in H as (x & E & H)
    | Returns _ = Returns _ => injection H; clear H; intros; subst
    | Aborts = Returns _ => discriminate H
    | (if ?c then _ else _) = Returns _ => let E := fresh "C" in destruct c eqn:E
    | (match ?x with _ => _ end) = Returns _ => let E := fresh "M" in destruct x eqn:E
    end.

Lemma returns_bind {A B} (a : A) (f : A → outcome B) : Returns a ≫= f = f a.
Proof. reflexivity. Qed.

Lemma assert_returns {B} (b : bool) (f : unit → outcome B) :
  b = true → ZX_ASSERT b ≫= f = f tt.
Proof. by intros ->. Qed.

Lemma debug_assert_returns {B} (b : bool) (f : unit → outcome B) :
  b = true → ZX_DEBUG_ASSERT b ≫= f = f tt.
Proof. by intros ->. Qed.

(** ** Machine integers

    [size_t] and [uint64_t] values are integers of [0, 2^64); the operators
    below are C++'s unsigned arithmetic on them. *)

Definition u64 (x : Z) : Z := x mod 2 ^ 64.
Definition u32 (x : Z) : Z := x mod 2 ^ 32.
Definition u16 (x : Z) : Z := x mod 2 ^ 16.
Definition u8 (x : Z) : Z := x mod 2 ^ 8.
Definition SIZE_MAX : Z := 2 ^ 64 - 1.

Notation "x ⊞ y" := (u64 (x + y)) (at level 50, left associativity) : storage_scope.
Notation "x ⊟ y" := (u64 (x - y)) (at level 50, left associativity) : storage_scope.
Notation "x ⊠ y" := (u64 (x * y)) (at level 40, left associativity) : storage_scope.

Arguments u64 : simpl never.
Arguments u32 : simpl never.
Arguments u16 : simpl never.
Arguments u8 : simpl never.

Lemma u64_small x : 0 ≤ x < 2 ^ 64 → u64 x = x.
Proof. apply Z.mod_small. Qed.

Lemma u64_range x : 0 ≤ u64 x < 2 ^ 64.
Proof. apply Z.mod_pos_bound. lia. Qed.

Lemma u32_small x : 0 ≤ x < 2 ^ 32 → u32 x = x.
Proof. apply Z.mod_small. Qed.

Lemma u32_range x : 0 ≤ u32 x < 2 ^ 32.
Proof. apply Z.mod_pos_bound. lia. Qed.

Lemma u16_small x : 0 ≤ x < 2 ^ 16 → u16 x = x.
Proof. apply Z.mod_small. Qed.

Lemma u16_range x : 0 ≤ u16 x < 2 ^ 16.
Proof. apply Z.mod_pos_bound. lia. Qed.

(** C++'s [~x] on an unsigned word. *)
Definition not64 (x : Z) : Z := u64 (Z.lnot x).

(** Rewrites every unsigned operation whose result provably does not wrap. *)
Ltac unwrap :=
  repeat match goal with
  | |- context [u64 ?x] => rewrite (u64_small x) by lia
  | |- context [u32 ?x] => rewrite (u32_small x) by lia
  | |- context [u16 ?x] => rewrite (u16_small x) by lia
  end.

Tactic Notation "unwrap" "in" hyp(H) :=
  repeat match type of H with
  | context [u64 ?x] => rewrite (u64_small x) in H by lia
  | context [u32 ?x] => rewrite (u32_small x) in H by lia
  | context [u16 ?x] => rewrite (u16_small x) in H by lia
  end.

(** [lia] with quotients and remainders replaced by their defining equations. *)
Ltac zlia := Z.to_euclidean_division_equations; lia.

(** Equations between sums of wrapped values. *)
Ltac u64_solve := unfold u64; zlia.

(** Case analysis on the integer comparisons of the goal. *)
Ltac zcase :=
  match goal with
  | |- context [?a <=? ?b] => destruct (Z.leb_spec a b)
  | |- context [?a <? ?b] => destruct (Z.ltb_spec a b)
  | |- context [?a =? ?b] => destruct (Z.eqb_spec a b)
  end.

Ltac zcases := repeat (zcase; try lia).

(** Decides the boolean tests that the context settles. *)
Ltac ztest :=
  repeat match goal with
  | |- context [?a <=? ?b] => first
      [ rewrite (proj2 (Z.leb_le a b)) by lia | rewrite (proj2 (Z.leb_gt a b)) by lia ]
  | |- context [?a <? ?b] => first
      [ rewrite (proj2 (Z.ltb_lt a b)) by lia | rewrite (proj2 (Z.ltb_ge a b)) by lia ]
  | |- context [?a =? ?b] => first
      [ rewrite (proj2 (Z.eqb_eq a b)) by lia | rewrite (proj2 (Z.eqb_neq a b)) by lia ]
  end.

(** ** Arrays indexed by [size_t]

    Reading or writing outside the array aborts. *)

Definition array_get {A} (l : list A) (i : Z) : outcome A :=
  if i <? 0 then Aborts else
  match l !! Z.to_nat i with
  | Some x => Returns x
  | None => Aborts
  end.

Definition array_set {A} (l : list A) (i : Z) (x : A) : outcome (list A) :=
  if (0 <=? i) && (i <? Z.of_nat (length l)) then Returns (<[Z.to_nat i := x]> l)
  else Aborts.

Lemma array_get_total {A} `{Inhabited A} (l : list A) i :
  0 ≤ i < Z.of_nat (length l) → array_get l i = Returns (l !!! Z.to_nat i).
Proof.
  intros Hi. unfold array_get. ztest.
  by rewrite (list_lookup_lookup_total_lt l) by lia.
Qed.

Lemma array_get_returns {A} (l : list A) i x :
  array_get l i = Returns x ↔ 0 ≤ i ∧ l !! Z.to_nat i = Some x.
Proof.
  unfold array_get. zcases; [naive_solver lia|].
  destruct (l !! Z.to_nat i); naive_solver.
Qed.

Lemma array_set_in {A} (l : list A) i x :
  0 ≤ i < Z.of_nat (length l) → array_set l i x = Returns (<[Z.to_nat i := x]> l).
Proof. intros Hi. unfold array_set. by ztest. Qed.

(** ** Counted loops

    [for_range lo hi body s] is [for (size_t i = lo; i < hi; ++i) s = body(i, s)]. *)

Fixpoint for_up {S} (n : nat) (i : Z) (body : Z → S → outcome S) (s : S) : outcome S :=
  match n with
  | O => Returns s
  | Datatypes.S n => s' ← body i s; for_up n (i + 1) body s'
  end.

Definition for_range {S} (lo hi : Z) (body : Z → S → outcome S) (s : S) : outcome S :=
  for_up (Z.to_nat (hi - lo)) lo body s.

(** The loop rule: an invariant kept by the body holds at the end, and the
    loop returns. *)
Lemma for_range_inv {S} (P : Z → S → Prop) (lo hi : Z) body (s : S) :
  lo ≤ hi →
  P lo s →
  (∀ i s, lo ≤ i < hi → P i s → ∃ s', body i s = Returns s' ∧ P (i + 1) s') →
  ∃ s', for_range lo hi body s = Returns s' ∧ P hi s'.
Proof.
  intros Hle H0 Hstep. unfold for_range.
  assert (Hgen : ∀ n i s, i + Z.of_nat n = hi → lo ≤ i → P i s →
    ∃ s', for_up n i body s = Returns s' ∧ P hi s').
  { clear s H0. induction n as [|n IH]; intros i s Hi Hlo HP; cbn.
    - exists s. replace hi with i by lia. done.
    - destruct (Hstep i s) as (s' & -> & HP'); [lia|done|]. cbn.
      apply IH; [lia..|done]. }
  apply Hgen; [lia..|done].
Qed.

(** ** Bits *)

Lemma testbit_u64 x i : 0 ≤ i → Z.testbit (u64 x) i = (i <? 64) && Z.testbit x i.
Proof.
  intros Hi. unfold u64. destruct (Z.ltb_spec i 64).
  - rewrite Z.mod_pow2_bits_low by lia. done.
  - rewrite Z.mod_pow2_bits_high by lia. done.
Qed.

Lemma testbit_high w x i : 0 ≤ x < 2 ^ w → 0 ≤ w ≤ i → Z.testbit x i = false.
Proof.
  intros Hx Hi. rewrite <- (Z.mod_small x (2 ^ w)) by lia.
  apply Z.mod_pow2_bits_high. lia.
Qed.

Lemma testbit_SIZE_MAX i : 0 ≤ i → Z.testbit SIZE_MAX i = (i <? 64).
Proof.
  intros. change SIZE_MAX with (Z.ones 64). destruct (Z.ltb_spec i 64).
  - apply Z.ones_spec_low. lia.
  - apply Z.ones_spec_high. lia.
Qed.

Lemma testbit_not64 x i : 0 ≤ i < 64 → Z.testbit (not64 x) i = negb (Z.testbit x i).
Proof. intros. unfold not64. rewrite testbit_u64, Z.lnot_spec by lia. by zcases. Qed.

Lemma not64_range x : 0 ≤ not64 x < 2 ^ 64.
Proof. apply u64_range. Qed.

(** A bitwise combination of words is a word. *)
Lemma bits_bound w x :
  0 ≤ w → 0 ≤ x → (∀ i, w ≤ i → Z.testbit x i = false) → x < 2 ^ w.
Proof.
  intros Hw Hx Hb. destruct (Z.lt_ge_cases x (2 ^ w)) as [|Hge]; [done|exfalso].
  pose proof (Z.pow_pos_nonneg 2 w).
  assert (w ≤ Z.log2 x) by (apply Z.log2_le_pow2; lia).
  specialize (Hb (Z.log2 x)). rewrite Z.bit_log2 in Hb by lia. naive_solver lia.
Qed.

Lemma land_range w x y : 0 ≤ w → 0 ≤ x < 2 ^ w → 0 ≤ y → 0 ≤ Z.land x y < 2 ^ w.
Proof.
  intros Hw Hx Hy. split; [apply Z.land_nonneg; lia|].
  apply bits_bound; [done|apply Z.land_nonneg; lia|].
  intros i Hi. rewrite Z.land_spec, (testbit_high w) by lia. done.
Qed.

Lemma lor_range w x y : 0 ≤ w → 0 ≤ x < 2 ^ w → 0 ≤ y < 2 ^ w → 0 ≤ Z.lor x y < 2 ^ w.
Proof.
  intros Hw Hx Hy. split; [apply Z.lor_nonneg; lia|].
  apply bits_bound; [done|apply Z.lor_nonneg; lia|].
  intros i Hi. rewrite Z.lor_spec, !(testbit_high w) by lia. done.
Qed.

(** Two words that agree on their bits are equal. *)
Lemma word_ext w x y :
  0 ≤ w → 0 ≤ x < 2 ^ w → 0 ≤ y < 2 ^ w →
  (∀ i, 0 ≤ i < w → Z.testbit x i = Z.testbit y i) → x = y.
Proof.
  intros Hw Hx Hy Hb. apply Z.bits_inj'. intros i Hi.
  destruct (Z.lt_ge_cases i w); [apply Hb; lia|].
  by rewrite !(testbit_high w) by lia.
Qed.

(** ** [fbl/algorithm.h] *)

Definition is_pow2 (val : Z) : bool :=
  negb (val =? 0) && (Z.land val (val ⊟ 1) =? 0).

(** [round_up] at 64 bits: the sum wraps as the C++ sum does. *)
Definition round_up (val multiple : Z) : Z :=
  if val =? 0 then 0
  else if is_pow2 multiple then Z.land (val ⊞ (multiple ⊟ 1)) (not64 (multiple ⊟ 1))
  else ((val ⊞ (multiple ⊟ 1)) / multiple) ⊠ multiple.

Lemma round_up_nonneg val m : 0 ≤ round_up val m.
Proof.
  unfold round_up. destruct (val =? 0); [done|]. destruct (is_pow2 m); [|apply u64_range].
  apply Z.land_nonneg. left. apply u64_range.
Qed.

Lemma is_pow2_spec m : 0 < m < 2 ^ 64 → is_pow2 m = true → m = 2 ^ Z.log2 m.
Proof.
  unfold is_pow2. intros Hm. unwrap. rewrite andb_true_iff, Z.eqb_eq. intros [_ Hl].
  pose proof (Z.log2_spec m ltac:(lia)) as Hs. pose proof (Z.log2_nonneg m).
  pose proof (Z.pow_pos_nonneg 2 (Z.log2 m)). destruct (Z.eq_dec m (2 ^ Z.log2 m)); [done|exfalso].
  apply (f_equal (λ x, Z.testbit x (Z.log2 m))) in Hl.
  rewrite Z.land_spec, Z.bits_0, Z.bit_log2 in Hl by lia.
  replace (Z.log2 m) with (Z.log2 (m - 1)) in Hl at 1.
  - rewrite Z.bit_log2 in Hl by lia. done.
  - apply Z.log2_unique; [apply Z.log2_nonneg|]. lia.
Qed.

Lemma land_not_mask x k : 0 ≤ x < 2 ^ 64 → 0 ≤ k < 64 →
  Z.land x (not64 (2 ^ k - 1)) = (x / 2 ^ k) * 2 ^ k.
Proof.
  intros Hx Hk. rewrite <- Z.shiftl_mul_pow2, <- Z.shiftr_div_pow2 by lia.
  apply Z.bits_inj'. intros i Hi.
  rewrite Z.land_spec. destruct (Z.lt_ge_cases i 64).
  - replace (2 ^ k - 1) with (Z.ones k) by (rewrite Z.ones_equiv; lia).
    rewrite testbit_not64 by lia. destruct (Z.lt_ge_cases i k).
    + rewrite Z.ones_spec_low, Z.shiftl_spec_low by lia. apply andb_false_r.
    + rewrite Z.ones_spec_high, Z.shiftl_spec, Z.shiftr_spec by lia.
      rewrite andb_true_r. f_equal. lia.
  - rewrite (testbit_high 64 x) by lia. cbn.
    rewrite Z.shiftl_spec, Z.shiftr_spec by lia. symmetry. apply (testbit_high 64); lia.
Qed.

(** Where the sum does not wrap, [round_up] is the least multiple at or above. *)
Lemma round_up_small val m :
  0 ≤ val → 0 < m → val + m - 1 < 2 ^ 64 →
  round_up val m = ((val + m - 1) / m) * m.
Proof.
  intros Hv Hm Hb. unfold round_up. unwrap.
  destruct (Z.eqb_spec val 0) as [->|].
  { rewrite Z.div_small by lia. done. }
  replace (val + (m - 1)) with (val + m - 1) by lia.
  destruct (is_pow2 m) eqn:Hp.
  - apply is_pow2_spec in Hp; [|lia]. pose proof (Z.log2_nonneg m).
    assert (Z.log2 m < 64) by (apply Z.log2_lt_pow2; lia).
    rewrite Hp at 2. rewrite land_not_mask, <- Hp by lia. done.
  - pose proof (Z.mul_div_le (val + m - 1) m). rewrite u64_small; [done|].
    split; [|lia]. apply Z.mul_nonneg_nonneg; [apply Z.div_pos|]; lia.
Qed.

Lemma round_up_spec val m :
  0 ≤ val → 0 < m → val + m - 1 < 2 ^ 64 →
  (m | round_up val m) ∧ val ≤ round_up val m < val + m.
Proof.
  intros. rewrite round_up_small by lia. split; [by exists ((val + m - 1) / m)|].
  pose proof (Z.div_mod (val + m - 1) m). pose proof (Z.mod_pos_bound (val + m - 1) m). lia.
Qed.

(** ** Counting

    The number of indices of [lo, hi) at which a predicate holds. *)

Fixpoint tally_up (f : Z → bool) (lo : Z) (n : nat) : Z :=
  match n with
  | O => 0
  | S n => (if f lo then 1 else 0) + tally_up f (lo + 1) n
  end.

Definition tally (f : Z → bool) (lo hi : Z) : Z := tally_up f lo (Z.to_nat (hi - lo)).

Lemma tally_up_add f lo n m : tally_up f lo (n + m) = tally_up f lo n + tally_up f (lo + Z.of_nat n) m.
Proof.
  revert lo. induction n as [|n IH]; intros lo; cbn [tally_up Nat.add].
  - by rewrite Z.add_0_r.
  - rewrite IH. replace (lo + 1 + Z.of_nat n) with (lo + Z.of_nat (S n)) by lia. lia.
Qed.

Lemma tally_up_ext f g lo n : (∀ k, lo ≤ k < lo + Z.of_nat n → f k = g k) → tally_up f lo n = tally_up g lo n.
Proof.
  revert lo. induction n as [|n IH]; intros lo H; [done|]. cbn. rewrite (H lo) by lia.
  by rewrite IH by (intros; apply H; lia).
Qed.

Lemma tally_up_range f lo n : 0 ≤ tally_up f lo n ≤ Z.of_nat n.
Proof. revert lo. induction n as [|n IH]; intros lo; [done|]. cbn [tally_up]. specialize (IH (lo + 1)). destruct (f lo); lia. Qed.

Lemma tally_split f lo mid hi : lo ≤ mid ≤ hi → tally f lo hi = tally f lo mid + tally f mid hi.
Proof.
  intros. unfold tally. replace (Z.to_nat (hi - lo)) with (Z.to_nat (mid - lo) + Z.to_nat (hi - mid))%nat by lia.
  rewrite tally_up_add. do 2 f_equal; lia.
Qed.

Lemma tally_ext f g lo hi : (∀ k, lo ≤ k < hi → f k = g k) → tally f lo hi = tally g lo hi.
Proof. intros H. apply tally_up_ext. intros. apply H. lia. Qed.

Lemma tally_range f lo hi : 0 ≤ tally f lo hi ≤ Z.max 0 (hi - lo).
Proof. pose proof (tally_up_range f lo (Z.to_nat (hi - lo))). unfold tally. lia. Qed.

Lemma tally_const f lo hi (v : bool) : lo ≤ hi → (∀ k, lo ≤ k < hi → f k = v) →
  tally f lo hi = if v then hi - lo else 0.
Proof.
  intros Hle H. rewrite (tally_ext f (λ _, v)) by done. unfold tally.
  assert (E : ∀ n l, tally_up (λ _, v) l n = if v then Z.of_nat n else 0).
  { induction n as [|n IH]; intros l; cbn [tally_up]; [by destruct v|]. rewrite IH. destruct v; lia. }
  rewrite E. destruct v; lia.
Qed.

Lemma tally_empty f lo hi : hi ≤ lo → tally f lo hi = 0.
Proof. intros. unfold tally. by replace (Z.to_nat (hi - lo)) with O by lia. Qed.

(** Indices at which one of two predicates holds, when they never hold both. *)
Lemma tally_disjoint f g lo hi : (∀ k, lo ≤ k < hi → f k && g k = false) →
  tally (λ k, f k || g k) lo hi = tally f lo hi + tally g lo hi.
Proof.
  unfold tally. intros H. assert (∀ k, lo ≤ k < lo + Z.of_nat (Z.to_nat (hi - lo)) → f k && g k = false) as H'.
  { intros. apply H. lia. }
  clear H. revert H'. generalize (Z.to_nat (hi - lo)). intros n. revert lo.
  induction n as [|n IH]; intros lo H; [done|]. cbn [tally_up]. rewrite IH by (intros; apply H; lia).
  specialize (H lo ltac:(lia)). destruct (f lo), (g lo); cbn in *; lia || done.
Qed.

Lemma tally_zero f lo hi k : tally f lo hi = 0 → lo ≤ k < hi → f k = false.
Proof.
  intros H Hk. rewrite (tally_split f lo k hi), (tally_split f k (k + 1) hi) in H by lia.
  pose proof (tally_range f lo k). pose proof (tally_range f (k + 1) hi).
  unfold tally in H at 2. replace (Z.to_nat (k + 1 - k)) with 1%nat in H by lia. cbn in H. destruct (f k); [lia|done].
Qed.
