(* ===== verification/Bitmap.v ===== *)
(** * The interface [bitmap::Bitmap] (ulib/bitmap/include/bitmap/bitmap.h)

    The operations of the abstract class and its one-bit members, which have
    default bodies, and [BitmapLaws]: what an implementation promises on the
    range of bits it holds.  [RawBitmap] and [RleBitmap] are the instances. *)

From S2P Require Import Prelude.

(** The pure virtual members.  [Find]'s [out] is a pointer, [None] when null;
    [Get] also returns the value left in [*first_unset]. *)
Class Bitmap (B : Type) := {
  Find : B → bool → Z → Z → Z → option Z → outcome (zx_status * option Z);
  Get : B → Z → Z → outcome (bool * Z);
  Set_ : B → Z → Z → outcome (zx_status * B);
  Clear : B → Z → Z → outcome (zx_status * B);
  ClearAll : B → outcome B;
}.

Definition GetOne `{Bitmap B} (b : B) (bitoff : Z) : outcome bool :=
  r ← Get b bitoff (bitoff ⊞ 1); Returns (fst r).

Definition SetOne `{Bitmap B} (b : B) (bitoff : Z) : outcome (zx_status * B) :=
  Set_ b bitoff (bitoff ⊞ 1).

Definition ClearOne `{Bitmap B} (b : B) (bitoff : Z) : outcome (zx_status * B) :=
  Clear b bitoff (bitoff ⊞ 1).

(** The bits of [lo, hi) all have the value [v]. *)
Definition all_bits (mem : Z → bool) (lo hi : Z) (v : bool) : Prop :=
  ∀ k, lo ≤ k < hi → mem k = v.

(** The run of [len] bits of value [v] at [s] lies in [lo, hi). *)
Definition is_run (mem : Z → bool) (v : bool) (lo hi len s : Z) : Prop :=
  lo ≤ s ∧ s + len ≤ hi ∧ all_bits mem s (s + len) v.

(** [mem b k] is the bit [k] of [b], [limit b] the end of the bits [b] holds,
    and [can_fail] whether an update can run out of memory. *)
Class BitmapLaws (B : Type) `{Bitmap B} := {
  ok : B → Prop;
  mem : B → Z → bool;
  limit : B → Z;
  can_fail : Prop;
  limit_range : ∀ b, ok b → 0 ≤ limit b < 2 ^ 64;
  get_law : ∀ b lo hi, ok b → 0 ≤ lo ≤ hi → hi ≤ limit b →
    ∃ r x, Get b lo hi = Returns (r, x) ∧
      (r = true ↔ all_bits (mem b) lo hi true) ∧
      (r = true → x = hi) ∧
      (r = false → lo ≤ x < hi ∧ mem b x = false ∧ all_bits (mem b) lo x true);
  set_law : ∀ b lo hi, ok b → 0 ≤ lo ≤ hi → hi ≤ limit b →
    ∃ st b', Set_ b lo hi = Returns (st, b') ∧ ok b' ∧ limit b' = limit b ∧
      (st = ZX_OK → ∀ k, 0 ≤ k → mem b' k = ((lo <=? k) && (k <? hi)) || mem b k) ∧
      (st ≠ ZX_OK → can_fail ∧ ∀ k, 0 ≤ k → mem b' k = mem b k);
  clear_law : ∀ b lo hi, ok b → 0 ≤ lo ≤ hi → hi ≤ limit b →
    ∃ st b', Clear b lo hi = Returns (st, b') ∧ ok b' ∧ limit b' = limit b ∧
      (st = ZX_OK → ∀ k, 0 ≤ k → mem b' k = negb ((lo <=? k) && (k <? hi)) && mem b k) ∧
      (st ≠ ZX_OK → can_fail ∧ ∀ k, 0 ≤ k → mem b' k = mem b k);
  clear_all_law : ∀ b, ok b →
    ∃ b', ClearAll b = Returns b' ∧ ok b' ∧ limit b' = limit b ∧
      all_bits (mem b') 0 (limit b) false;
  find_law : ∀ b v lo hi len o, ok b → 0 ≤ lo < hi → hi ≤ limit b → 0 < len < 2 ^ 64 →
    ∃ st out, Find b v lo hi len (Some o) = Returns (st, out) ∧
      ((st = ZX_OK ∧ ∃ s, out = Some s ∧ is_run (mem b) v lo hi len s ∧
          ∀ s', is_run (mem b) v lo hi len s' → s ≤ s') ∨
       (st = ZX_ERR_NO_RESOURCES ∧ ∀ s, ¬ is_run (mem b) v lo hi len s));
}.

Section one_bit.
Context `{BitmapLaws B}.

Lemma get_one b i :
  ok b → 0 ≤ i < limit b → GetOne b i = Returns (mem b i).
Proof.
  intros Hok Hi. pose proof (limit_range b Hok). unfold GetOne. unwrap.
  destruct (get_law b i (i + 1)) as (r & x & -> & Hr & _ & Hf); [done|lia..|]. cbn. f_equal.
  destruct r, (mem b i) eqn:E; try done.
  - rewrite <- E. symmetry. apply Hr; [done|lia].
  - destruct Hf as ((?&?) & Hx & _); [done|]. replace x with i in Hx by lia. congruence.
Qed.

(** A bit that was set without an error reads as set, and the others as before. *)
Lemma set_one_get_one b i b' k :
  ok b → 0 ≤ i < limit b → 0 ≤ k < limit b → SetOne b i = Returns (ZX_OK, b') →
  GetOne b' k = Returns ((k =? i) || mem b k).
Proof.
  intros Hok Hi Hk. pose proof (limit_range b Hok). unfold SetOne. unwrap.
  destruct (set_law b i (i + 1)) as (st & b2 & -> & Hok' & Hl & Hs & _); [done|lia..|].
  intros [= -> <-]. rewrite get_one by (done || lia). rewrite Hs by (done || lia).
  do 2 f_equal. zcases.
Qed.

Lemma clear_one_get_one b i b' k :
  ok b → 0 ≤ i < limit b → 0 ≤ k < limit b → ClearOne b i = Returns (ZX_OK, b') →
  GetOne b' k = Returns (negb (k =? i) && mem b k).
Proof.
  intros Hok Hi Hk. pose proof (limit_range b Hok). unfold ClearOne. unwrap.
  destruct (clear_law b i (i + 1)) as (st & b2 & -> & Hok' & Hl & Hs & _); [done|lia..|].
  intros [= -> <-]. rewrite get_one by (done || lia). rewrite Hs by (done || lia).
  do 2 f_equal. zcases.
Qed.

End one_bit.

(** ** Sequences of operations

    A bitmap refines the function from indices to booleans: every sequence of
    operations on the bits it holds returns, with the results of that function. *)

Inductive op :=
| OpSet (lo hi : Z)
| OpClear (lo hi : Z)
| OpClearAll
| OpGet (lo hi : Z).

Inductive result :=
| RStatus (st : zx_status)
| RGet (all_set : bool) (first_unset : Z)
| RUnit.

Definition run_op `{Bitmap B} (b : B) (o : op) : outcome (result * B) :=
  match o with
  | OpSet lo hi => r ← Set_ b lo hi; Returns (RStatus (fst r), snd r)
  | OpClear lo hi => r ← Clear b lo hi; Returns (RStatus (fst r), snd r)
  | OpClearAll => b' ← ClearAll b; Returns (RUnit, b')
  | OpGet lo hi => r ← Get b lo hi; Returns (RGet (fst r) (snd r), b)
  end.

Fixpoint run_ops `{Bitmap B} (b : B) (os : list op) : outcome (list result * B) :=
  match os with
  | [] => Returns ([], b)
  | o :: os => r ← run_op b o; rs ← run_ops (snd r) os; Returns (fst r :: fst rs, snd rs)
  end.

Definition op_in (lim : Z) (o : op) : Prop :=
  match o with
  | OpSet lo hi | OpClear lo hi | OpGet lo hi => 0 ≤ lo ≤ hi ∧ hi ≤ lim
  | OpClearAll => True
  end.

Definition same_bits (lim : Z) (m m' : Z → bool) : Prop := ∀ k, 0 ≤ k < lim → m k = m' k.

(** The specification: what an operation may do to the bits below [lim].
    [fails] says whether updates may fail. *)
Inductive spec_step (lim : Z) (fails : Prop) (m : Z → bool) : op → result → (Z → bool) → Prop :=
| spec_set lo hi m' :
    same_bits lim m' (λ k, ((lo <=? k) && (k <? hi)) || m k) →
    spec_step lim fails m (OpSet lo hi) (RStatus ZX_OK) m'
| spec_set_fails lo hi st m' :
    fails → st ≠ ZX_OK → same_bits lim m' m →
    spec_step lim fails m (OpSet lo hi) (RStatus st) m'
| spec_clear lo hi m' :
    same_bits lim m' (λ k, negb ((lo <=? k) && (k <? hi)) && m k) →
    spec_step lim fails m (OpClear lo hi) (RStatus ZX_OK) m'
| spec_clear_fails lo hi st m' :
    fails → st ≠ ZX_OK → same_bits lim m' m →
    spec_step lim fails m (OpClear lo hi) (RStatus st) m'
| spec_clear_all m' :
    same_bits lim m' (λ _, false) →
    spec_step lim fails m OpClearAll RUnit m'
| spec_get_all lo hi :
    all_bits m lo hi true →
    spec_step lim fails m (OpGet lo hi) (RGet true hi) m
| spec_get_some lo hi x :
    lo ≤ x < hi → m x = false → all_bits m lo x true →
    spec_step lim fails m (OpGet lo hi) (RGet false x) m.

Inductive spec_run (lim : Z) (fails : Prop) :
    (Z → bool) → list op → list result → (Z → bool) → Prop :=
| spec_nil m : spec_run lim fails m [] [] m
| spec_cons m o r m' os rs m'' :
    spec_step lim fails m o r m' → spec_run lim fails m' os rs m'' →
    spec_run lim fails m (o :: os) (r :: rs) m''.

Section refinement.
Context `{BitmapLaws B}.

Lemma run_op_refines b o :
  ok b → op_in (limit b) o →
  ∃ r b', run_op b o = Returns (r, b') ∧ ok b' ∧ limit b' = limit b ∧
    spec_step (limit b) can_fail (mem b) o r (mem b').
Proof.
  intros Hok Ho. destruct o as [lo hi|lo hi| |lo hi]; cbn in Ho |- *.
  - destruct (set_law b lo hi) as (st & b' & -> & ? & Hl & Hs & Hf); [done|lia..|].
    do 2 eexists. split_and!; [done..|]. cbn. destruct (decide (st = ZX_OK)) as [->|Hne].
    + constructor. intros k Hk. apply Hs; [done|lia].
    + destruct (Hf Hne). constructor; [done..|]. intros k Hk. auto with lia.
  - destruct (clear_law b lo hi) as (st & b' & -> & ? & Hl & Hs & Hf); [done|lia..|].
    do 2 eexists. split_and!; [done..|]. cbn. destruct (decide (st = ZX_OK)) as [->|Hne].
    + constructor. intros k Hk. apply Hs; [done|lia].
    + destruct (Hf Hne). constructor; [done..|]. intros k Hk. auto with lia.
  - destruct (clear_all_law b Hok) as (b' & -> & ? & ? & Ha).
    do 2 eexists. split_and!; [done..|]. by constructor.
  - destruct (get_law b lo hi) as (r & x & -> & Hr & Ht & Hf); [done|lia..|].
    do 2 eexists. split_and!; [done..|]. cbn. destruct r.
    + rewrite Ht by done. constructor. by apply Hr.
    + destruct Hf as (? & ? & ?); [done|]. by constructor.
Qed.

Lemma run_ops_refines os b :
  ok b → Forall (op_in (limit b)) os →
  ∃ rs b', run_ops b os = Returns (rs, b') ∧ ok b' ∧ limit b' = limit b ∧
    spec_run (limit b) can_fail (mem b) os rs (mem b').
Proof.
  revert b. induction os as [|o os IH]; intros b Hok Hos; cbn.
  { do 2 eexists. split_and!; [done..|constructor]. }
  apply Forall_cons in Hos as [Ho Hos].
  destruct (run_op_refines b o Hok Ho) as (r & b' & -> & Hok' & Hl & Hstep). cbn.
  rewrite <- Hl in Hos. destruct (IH b' Hok' Hos) as (rs & b'' & -> & Hok'' & Hl' & Hrun).
  cbn. do 2 eexists. split_and!; [done|done|congruence|].
  econstructor; [done|]. by rewrite <- Hl.
Qed.

End refinement.
