(* ===== verification/RawBitmap.v ===== *)
(** * [bitmap::RawBitmap] (ulib/bitmap/raw-bitmap.cpp, raw-bitmap.h, storage.h)

    A bitmap over an array of 64-bit words: the word masks, the scans and the
    searches in both directions, setting and clearing ranges, and resizing over
    the storage classes.  [bit] is the abstraction, [raw_ok] the invariant. *)

From S2P Require Import Prelude Bitmap.

(** ** Data *)

Definition kBits : Z := 64.

(** [data_] is the memory the cached pointer reaches: it is also the contents
    of [bits_], and is empty for a null pointer. *)
Record RawBitmapBase := { size_ : Z; data_ : list Z }.

(** A storage class: [Allocate] and, where it has one, [Grow] take the contents
    and a size in bytes, and give the status and the contents afterwards. *)
Record Storage := {
  Allocate : list Z → Z → zx_status * list Z;
  GrowStorage : option (list Z → Z → zx_status * list Z);
}.

(** ** Word masks *)

Definition FirstIdx (bitoff : Z) : Z := bitoff / kBits.

Definition LastIdx (bitmax : Z) : Z := (bitmax ⊟ 1) / kBits.

Definition GetMask (first last : bool) (off max : Z) : Z :=
  let ones := not64 0 in
  let mask := ones in
  let mask := if first then Z.land mask (u64 (Z.shiftl ones (off mod kBits))) else mask in
  if last then Z.land mask (Z.shiftr ones ((kBits - max mod kBits) mod kBits)) else mask.

Definition MaskBits (data idx bitoff bitmax : Z) (is_set : bool) : Z :=
  let mask := GetMask (idx =? FirstIdx bitoff) (idx =? LastIdx bitmax) bitoff bitmax in
  if is_set then not64 (Z.lor (not64 mask) data) else Z.land mask data.

(** [__builtin_ctzl] and [__builtin_clzl] of a non-zero word. *)
Fixpoint ctz_pos (p : positive) : Z :=
  match p with
  | xO p => 1 + ctz_pos p
  | _ => 0
  end.

Definition CTZ (x : Z) : Z :=
  match x with
  | Zpos p => ctz_pos p
  | _ => kBits
  end.

Definition CLZ (x : Z) : Z := if x =? 0 then kBits else 63 - Z.log2 x.

(** ** Scans

    [None] is the C++ [true] (and [*out] untouched), [Some x] is [false] with
    [*out = x]. *)

Fixpoint scan_loop (fuel : nat) (data : list Z) (i bitoff bitmax : Z) (is_set : bool)
    : outcome (option Z) :=
  match fuel with
  | O => Diverges
  | S fuel =>
    w ← array_get data i;
    let masked := MaskBits w i bitoff bitmax is_set in
    if negb (masked =? 0) then Returns (Some (i ⊠ kBits ⊞ CTZ masked))
    else if i =? LastIdx bitmax then Returns None
    else scan_loop fuel data (i ⊞ 1) bitoff bitmax is_set
  end.

Definition Scan (b : RawBitmapBase) (bitoff bitmax : Z) (is_set : bool)
    : outcome (option Z) :=
  let bitmax := Z.min bitmax b.(size_) in
  if bitmax <=? bitoff then Returns None
  else
    scan_loop (Z.to_nat (LastIdx bitmax - FirstIdx bitoff + 1)) b.(data_)
      (FirstIdx bitoff) bitoff bitmax is_set.

Fixpoint reverse_scan_loop (fuel : nat) (data : list Z) (i bitoff bitmax : Z) (is_set : bool)
    : outcome (option Z) :=
  match fuel with
  | O => Diverges
  | S fuel =>
    w ← array_get data i;
    let masked := MaskBits w i bitoff bitmax is_set in
    if negb (masked =? 0) then
      Returns (Some ((i ⊞ 1) ⊠ kBits ⊟ (CLZ masked + 1)))
    else if i =? FirstIdx bitoff then Returns None
    else reverse_scan_loop fuel data (i ⊟ 1) bitoff bitmax is_set
  end.

Definition ReverseScan (b : RawBitmapBase) (bitoff bitmax : Z) (is_set : bool)
    : outcome (option Z) :=
  let bitmax := Z.min bitmax b.(size_) in
  if bitmax <=? bitoff then Returns None
  else
    reverse_scan_loop (Z.to_nat (LastIdx bitmax - FirstIdx bitoff + 1)) b.(data_)
      (LastIdx bitmax) bitoff bitmax is_set.

(** ** Searches for a run *)

Fixpoint find_loop (fuel : nat) (b : RawBitmapBase) (is_set : bool)
    (bitoff bitmax run_len : Z) (out : option Z) : outcome (zx_status * option Z) :=
  match fuel with
  | O => Diverges
  | S fuel =>
    s ← Scan b bitoff bitmax (negb is_set);
    match s with
    | None => Returns (ZX_ERR_NO_RESOURCES, out)
    | Some start =>
      if bitmax ⊟ start <? run_len then Returns (ZX_ERR_NO_RESOURCES, out)
      else
        e ← Scan b start (start ⊞ run_len) is_set;
        match e with
        | None => Returns (ZX_OK, Some start)
        | Some bitoff' => find_loop fuel b is_set bitoff' bitmax run_len out
        end
    end
  end.

(** Every round that does not return moves [bitoff] up, below [size_]. *)
Definition Find (b : RawBitmapBase) (is_set : bool) (bitoff bitmax run_len : Z)
    (out : option Z) : outcome (zx_status * option Z) :=
  match out with
  | None => Returns (ZX_ERR_INVALID_ARGS, out)
  | Some _ =>
    if bitmax <=? bitoff then Returns (ZX_ERR_INVALID_ARGS, out)
    else find_loop (S (Z.to_nat (b.(size_) - bitoff))) b is_set bitoff bitmax run_len out
  end.

Fixpoint reverse_find_loop (fuel : nat) (b : RawBitmapBase) (is_set : bool)
    (bitoff bitmax run_len : Z) (out : option Z) : outcome (zx_status * option Z) :=
  match fuel with
  | O => Diverges
  | S fuel =>
    s ← ReverseScan b bitoff bitmax (negb is_set);
    match s with
    | None => Returns (ZX_ERR_NO_RESOURCES, out)
    | Some last =>
      let start := last ⊞ 1 in
      if start ⊟ bitoff <? run_len then Returns (ZX_ERR_NO_RESOURCES, out)
      else
        e ← ReverseScan b (start ⊟ run_len) start is_set;
        match e with
        | None => Returns (ZX_OK, Some (start ⊟ run_len))
        | Some bitmax' => reverse_find_loop fuel b is_set bitoff bitmax' run_len out
        end
    end
  end.

(** Every round that does not return moves [bitmax] down, above [bitoff]. *)
Definition ReverseFind (b : RawBitmapBase) (is_set : bool) (bitoff bitmax run_len : Z)
    (out : option Z) : outcome (zx_status * option Z) :=
  match out with
  | None => Returns (ZX_ERR_INVALID_ARGS, out)
  | Some _ =>
    if bitmax <=? bitoff then Returns (ZX_ERR_INVALID_ARGS, out)
    else
      reverse_find_loop (S (Z.to_nat (Z.min bitmax b.(size_) - bitoff)))
        b is_set bitoff bitmax run_len out
  end.

(** ** Reading and writing ranges *)

(** Also returns the value left in [*first]. *)
Definition Get (b : RawBitmapBase) (bitoff bitmax : Z) : outcome (bool * Z) :=
  s ← Scan b bitoff bitmax true;
  Returns (match s with None => (true, bitmax) | Some x => (false, x) end).

(** The loops of [Set] and [Clear] over the words of [bitoff, bitmax). *)
Definition update_words (f : Z → Z → Z) (bitoff bitmax : Z) (data : list Z)
    : outcome (list Z) :=
  let first_idx := FirstIdx bitoff in
  let last_idx := LastIdx bitmax in
  for_range first_idx (last_idx + 1)
    (λ i data,
      w ← array_get data i;
      array_set data i (f w (GetMask (i =? first_idx) (i =? last_idx) bitoff bitmax)))
    data.

Definition Set_ (b : RawBitmapBase) (bitoff bitmax : Z) : outcome (zx_status * RawBitmapBase) :=
  if (bitmax <? bitoff) || (b.(size_) <? bitmax) then Returns (ZX_ERR_INVALID_ARGS, b)
  else if bitoff =? bitmax then Returns (ZX_OK, b)
  else
    data ← update_words (λ w mask, Z.lor w mask) bitoff bitmax b.(data_);
    Returns (ZX_OK, {| size_ := b.(size_); data_ := data |}).

Definition Clear (b : RawBitmapBase) (bitoff bitmax : Z) : outcome (zx_status * RawBitmapBase) :=
  if (bitmax <? bitoff) || (b.(size_) <? bitmax) then Returns (ZX_ERR_INVALID_ARGS, b)
  else if bitoff =? bitmax then Returns (ZX_OK, b)
  else
    data ← update_words (λ w mask, Z.land w (not64 mask)) bitoff bitmax b.(data_);
    Returns (ZX_OK, {| size_ := b.(size_); data_ := data |}).

Definition ClearAll (b : RawBitmapBase) : outcome RawBitmapBase :=
  if b.(size_) =? 0 then Returns b
  else
    data ← for_range 0 (LastIdx b.(size_) + 1) (λ i data, array_set data i 0) b.(data_);
    Returns {| size_ := b.(size_); data_ := data |}.

(** ** Resizing *)

Definition Shrink (b : RawBitmapBase) (size : Z) : zx_status * RawBitmapBase :=
  if b.(size_) <? size then (ZX_ERR_NO_MEMORY, b)
  else (ZX_OK, {| size_ := size; data_ := b.(data_) |}).

(** [memset(data + off, 0, bytes)] on whole words. *)
Definition memset_words (data : list Z) (off bytes : Z) : outcome (list Z) :=
  if off * 8 + bytes <=? Z.of_nat (length data) * 8 then
    Returns (take (Z.to_nat off) data ++ replicate (Z.to_nat (bytes / 8)) 0 ++
             drop (Z.to_nat (off + bytes / 8)) data)
  else Aborts.

Definition Grow (st : Storage) (b : RawBitmapBase) (size : Z)
    : outcome (zx_status * RawBitmapBase) :=
  match st.(GrowStorage) with
  | None => Returns (ZX_ERR_NO_RESOURCES, b)
  | Some grow =>
    if size <? b.(size_) then Returns (ZX_ERR_INVALID_ARGS, b)
    else if size =? b.(size_) then Returns (ZX_OK, b)
    else
      let old_len := LastIdx b.(size_) ⊞ 1 in
      let new_len := LastIdx size ⊞ 1 in
      let new_bitsize := 8 ⊠ new_len in
      _ ← ZX_ASSERT (new_len <=? new_bitsize);
      let '(status, data) := grow b.(data_) new_bitsize in
      if negb (bool_decide (status = ZX_OK)) then
        Returns (status, {| size_ := b.(size_); data_ := data |})
      else
        data ← memset_words data old_len ((new_len ⊟ old_len) ⊠ 8);
        let old_size := b.(size_) in
        r ← Clear {| size_ := size; data_ := data |} old_size
              (Z.min (old_len ⊠ kBits) size);
        Returns (ZX_OK, snd r)
  end.

Definition Reset (st : Storage) (b : RawBitmapBase) (size : Z)
    : outcome (zx_status * RawBitmapBase) :=
  if size =? 0 then Returns (ZX_OK, {| size_ := 0; data_ := [] |})
  else
    let last_idx := LastIdx size in
    let '(status, data) := st.(Allocate) b.(data_) (8 ⊠ (last_idx ⊞ 1)) in
    if negb (bool_decide (status = ZX_OK)) then
      Returns (status, {| size_ := size; data_ := data |})
    else
      b ← ClearAll {| size_ := size; data_ := data |};
      Returns (ZX_OK, b).

(** ** Storage classes

    [operator new] and the system calls are outside of the modelled code: their
    results are parameters.  [new_array size] is the fresh, uninitialised array
    of [size] bytes, [None] when the allocation fails. *)

Definition DefaultStorage (new_array : Z → option (list Z)) : Storage := {|
  Allocate := λ old size,
    match new_array size with
    | None => (ZX_ERR_NO_MEMORY, old)
    | Some arr => (ZX_OK, arr)
    end;
  GrowStorage := None;
|}.

Definition PAGE_SIZE : Z := 4096.

(** The statuses of the system calls of [VmoStorage], in the order of the calls. *)
Record VmoCalls := {
  vmo_create : zx_status;
  vmar_map : zx_status;
  vmo_set_size : zx_status;
  get_info : zx_status;
  vmar_map_specific : zx_status;
  vmar_map_whole : zx_status;
  vmar_unmap : zx_status;
}.

Definition failed (s : zx_status) : bool := negb (bool_decide (s = ZX_OK)).

Lemma failed_ok : failed ZX_OK = false.
Proof. done. Qed.

Lemma failed_spec s : failed s = true ↔ s ≠ ZX_OK.
Proof. unfold failed. case_bool_decide; done. Qed.

(** [vmo_size] is the member [size_] of the storage, in bytes, at the call; a
    new VMO, and the part [zx_vmo_set_size] adds to one, reads as zero. *)
Definition VmoStorage (k : VmoCalls) (vmo_size : Z) : Storage := {|
  Allocate := λ old size,
    let size_ := round_up size PAGE_SIZE in
    if failed k.(vmo_create) then (k.(vmo_create), [])
    else if failed k.(vmar_map) then (k.(vmar_map), [])
    else (ZX_OK, replicate (Z.to_nat (size_ / 8)) 0);
  GrowStorage := Some (λ old size,
    if size <=? vmo_size then (ZX_OK, old)
    else
      let size := round_up size PAGE_SIZE in
      let still_mapped := take (Z.to_nat (size / 8)) old in
      let resized := resize (Z.to_nat (size / 8)) 0 old in
      if failed k.(vmo_set_size) then (k.(vmo_set_size), old)
      else if failed k.(get_info) then (k.(get_info), still_mapped)
      else if failed k.(vmar_map_specific) then
        if failed k.(vmar_map_whole) then (k.(vmar_map_whole), still_mapped)
        else if failed k.(vmar_unmap) then (k.(vmar_unmap), still_mapped)
        else (ZX_OK, resized)
      else (ZX_OK, resized));
|}.

(** ** Abstraction and invariant *)

Definition is_word (w : Z) : Prop := 0 ≤ w < 2 ^ 64.

Definition word_at (data : list Z) (i : Z) : Z := default 0 (data !! Z.to_nat i).

(** Bit [i] of an array of words. *)
Definition bit (data : list Z) (i : Z) : bool :=
  Z.testbit (word_at data (i / kBits)) (i mod kBits).

Definition raw_ok (b : RawBitmapBase) : Prop :=
  0 ≤ b.(size_) < 2 ^ 64 ∧ b.(size_) ≤ kBits * Z.of_nat (length b.(data_)) ∧
  Forall is_word b.(data_).

Definition raw_bit (b : RawBitmapBase) (i : Z) : bool := bit b.(data_) i.

(** What the bitmap relies on from its storage: an allocation that succeeds is
    large enough, and growing contents [old] keeps them. *)
Class AllocateOk (st : Storage) :=
  allocate_ok : ∀ old size s d, 0 ≤ size < 2 ^ 62 → st.(Allocate) old size = (s, d) →
    s = ZX_OK → size ≤ 8 * Z.of_nat (length d) ∧ Forall is_word d.

Class GrowOk (st : Storage) (old : list Z) :=
  grow_ok : ∀ grow size s d, st.(GrowStorage) = Some grow →
    0 ≤ size < 2 ^ 62 → Forall is_word old → grow old size = (s, d) →
    Forall is_word d ∧
    (∀ i : nat, 8 * (Z.of_nat i + 1) ≤ size → (i < length old)%nat → d !! i = old !! i) ∧
    (s = ZX_OK → size ≤ 8 * Z.of_nat (length d)).

Lemma raw_ok_intro size data :
  0 ≤ size < 2 ^ 64 → size ≤ 64 * Z.of_nat (length data) → Forall is_word data →
  raw_ok {| size_ := size; data_ := data |}.
Proof. done. Qed.

Lemma is_word_0 : is_word 0.
Proof. unfold is_word. lia. Qed.

Lemma word_at_range (data : list Z) i : Forall is_word data → is_word (word_at data i).
Proof.
  intros H. unfold word_at. destruct (data !! Z.to_nat i) eqn:E; cbn; [|apply is_word_0].
  by eapply Forall_lookup_1.
Qed.

Lemma array_get_word data i :
  0 ≤ i < Z.of_nat (length data) → array_get data i = Returns (word_at data i).
Proof.
  intros Hi. unfold array_get, word_at. ztest.
  destruct (lookup_lt_is_Some_2 data (Z.to_nat i)) as [w ->]; [lia|done].
Qed.

(** ** Masks *)

Lemma LastIdx_pos max : 0 < max < 2 ^ 64 → LastIdx max = (max - 1) / 64.
Proof. intros. unfold LastIdx. unwrap. done. Qed.

Lemma LastIdx_bounds max : 0 < max < 2 ^ 64 →
  64 * LastIdx max < max ≤ 64 * LastIdx max + 64.
Proof. intros. rewrite LastIdx_pos by lia. zlia. Qed.

Lemma FirstIdx_bounds off : 64 * FirstIdx off ≤ off < 64 * FirstIdx off + 64.
Proof. unfold FirstIdx, kBits. zlia. Qed.

Lemma testbit_ones_shr n j : 0 ≤ n ≤ 64 → 0 ≤ j →
  Z.testbit (Z.shiftr (not64 0) n) j = (j <? 64 - n).
Proof.
  intros. change (not64 0) with SIZE_MAX.
  rewrite Z.shiftr_spec, testbit_SIZE_MAX by lia. zcases; done.
Qed.

Lemma testbit_ones_shl n j : 0 ≤ n → 0 ≤ j < 64 →
  Z.testbit (u64 (Z.shiftl (not64 0) n)) j = (n <=? j).
Proof.
  intros. change (not64 0) with SIZE_MAX. rewrite testbit_u64 by lia. ztest. cbn [andb].
  destruct (Z.leb_spec n j).
  - rewrite Z.shiftl_spec, testbit_SIZE_MAX by lia. by ztest.
  - apply Z.shiftl_spec_low. lia.
Qed.

Lemma GetMask_bits first last off max j :
  0 ≤ off → 0 < max → 0 ≤ j < 64 →
  Z.testbit (GetMask first last off max) j =
    (negb first || (off mod 64 <=? j)) && (negb last || (j <=? (max - 1) mod 64)).
Proof.
  intros. unfold GetMask, kBits.
  assert (Hl : (j <? 64 - (64 - max mod 64) mod 64) = (j <=? (max - 1) mod 64))
    by (zcases; zlia).
  pose proof (Z.mod_pos_bound off 64 ltac:(lia)).
  pose proof (Z.mod_pos_bound (64 - max mod 64) 64 ltac:(lia)).
  destruct first, last; cbn [negb orb];
    rewrite ?Z.land_spec, ?testbit_ones_shr, ?testbit_ones_shl, ?Hl by lia;
    change (not64 0) with SIZE_MAX; rewrite ?testbit_SIZE_MAX by lia; ztest; btauto.
Qed.

Lemma GetMask_range first last off max : is_word (GetMask first last off max).
Proof.
  unfold GetMask, kBits, is_word.
  assert (Hones : 0 ≤ not64 0 < 2 ^ 64) by apply not64_range.
  destruct first, last; repeat apply land_range; try lia; try done;
    try apply u64_range; apply Z.shiftr_nonneg; lia.
Qed.

(** The mask of a word of the range selects exactly the bits of the range. *)
Lemma GetMask_in_range i off max j :
  0 ≤ off < max → max < 2 ^ 64 → FirstIdx off ≤ i ≤ LastIdx max → 0 ≤ j < 64 →
  Z.testbit (GetMask (i =? FirstIdx off) (i =? LastIdx max) off max) j =
    (off <=? 64 * i + j) && (64 * i + j <? max).
Proof.
  intros Ho Hm. rewrite LastIdx_pos by lia. unfold FirstIdx, kBits. intros Hi Hj.
  rewrite GetMask_bits by lia. zcases; zlia.
Qed.

Lemma MaskBits_range w i off max s : is_word w → is_word (MaskBits w i off max s).
Proof.
  intros Hw. unfold MaskBits. destruct s; [apply not64_range|].
  apply land_range; [lia|apply GetMask_range|apply Hw].
Qed.

Lemma MaskBits_bits w i off max s j :
  0 ≤ off < max → max < 2 ^ 64 → FirstIdx off ≤ i ≤ LastIdx max → 0 ≤ j < 64 →
  Z.testbit (MaskBits w i off max s) j =
    (off <=? 64 * i + j) && (64 * i + j <? max) && xorb (Z.testbit w j) s.
Proof.
  intros Ho Hm Hi Hj. unfold MaskBits. destruct s.
  - rewrite testbit_not64, Z.lor_spec, testbit_not64, GetMask_in_range by lia.
    rewrite xorb_true_r. btauto.
  - rewrite Z.land_spec, GetMask_in_range by lia. rewrite xorb_false_r. btauto.
Qed.

(** ** Counting zeros *)

Lemma CTZ_spec x : 0 < x → 0 ≤ CTZ x ∧ Z.testbit x (CTZ x) = true ∧
  ∀ j, 0 ≤ j < CTZ x → Z.testbit x j = false.
Proof.
  destruct x as [|p|]; [lia| |lia]. intros _. cbn [CTZ].
  induction p as [p _|p IH|]; cbn [ctz_pos]; [| |].
  - split_and!; [done..|lia].
  - destruct IH as (Hn & Ht & Hl). change (Z.pos p~0) with (2 * Z.pos p).
    replace (1 + ctz_pos p) with (Z.succ (ctz_pos p)) by lia.
    rewrite Z.testbit_even_succ by lia.
    split_and!; [lia|done|]. intros j Hj. destruct (Z.eq_dec j 0) as [->|].
    + apply Z.testbit_even_0.
    + replace j with (Z.succ (j - 1)) by lia. rewrite Z.testbit_even_succ by lia.
      apply Hl. lia.
  - split_and!; [done..|lia].
Qed.

Lemma CLZ_spec x : 0 < x < 2 ^ 64 → 0 ≤ CLZ x < 64 ∧ Z.testbit x (63 - CLZ x) = true ∧
  ∀ j, 63 - CLZ x < j → Z.testbit x j = false.
Proof.
  intros Hx. unfold CLZ. ztest. pose proof (Z.log2_nonneg x).
  assert (Z.log2 x < 64) by (apply Z.log2_lt_pow2; lia).
  replace (63 - (63 - Z.log2 x)) with (Z.log2 x) by lia.
  split_and!; [lia..|apply Z.bit_log2; lia|]. intros j Hj. by apply Z.bits_above_log2; lia.
Qed.

Lemma bit_word data i j :
  0 ≤ j < 64 → bit data (64 * i + j) = Z.testbit (word_at data i) j.
Proof. intros. unfold bit, kBits. do 2 f_equal; zlia. Qed.

(** A word of the range with no masked bit matches; one with a masked bit has
    a first and a last bit of the range that do not match. *)
Section masked.
Context (data : list Z) (i off max : Z) (s : bool).
Hypothesis (Hdata : Forall is_word data) (Hoff : 0 ≤ off < max) (Hmax : max < 2 ^ 64)
  (Hi : FirstIdx off ≤ i ≤ LastIdx max).

#[local] Notation masked := (MaskBits (word_at data i) i off max s).

Lemma masked_bit k : 64 * i ≤ k < 64 * i + 64 →
  Z.testbit masked (k - 64 * i) = (off <=? k) && (k <? max) && xorb (bit data k) s.
Proof using Hoff Hmax Hi.
  intros Hk. rewrite MaskBits_bits by lia.
  replace (64 * i + (k - 64 * i)) with k by lia.
  rewrite <- bit_word by lia. do 3 f_equal. lia.
Qed.

Lemma masked_zero :
  masked = 0 → ∀ k, 64 * i ≤ k < 64 * i + 64 → off ≤ k < max → bit data k = s.
Proof using Hoff Hmax Hi.
  intros H0 k Hk Hr. pose proof (masked_bit k Hk) as Hb. rewrite H0, Z.bits_0 in Hb.
  revert Hb. ztest. by destruct (bit data k), s.
Qed.

Lemma masked_first :
  masked ≠ 0 → let x := 64 * i + CTZ masked in
  off ≤ x < max ∧ 64 * i ≤ x < 64 * i + 64 ∧ bit data x ≠ s ∧
  ∀ k, 64 * i ≤ k < x → off ≤ k < max → bit data k = s.
Proof using Hdata Hoff Hmax Hi.
  intros H0 x. pose proof (MaskBits_range _ i off max s (word_at_range data i Hdata)) as Hr.
  unfold is_word in Hr. destruct (CTZ_spec masked) as (Hn & Ht & Hl); [lia|].
  assert (CTZ masked < 64).
  { destruct (Z.lt_ge_cases (CTZ masked) 64); [done|].
    rewrite (testbit_high 64) in Ht by lia. done. }
  pose proof (masked_bit x) as Hb. replace (x - 64 * i) with (CTZ masked) in Hb by lia.
  rewrite Ht in Hb. specialize (Hb ltac:(lia)). symmetry in Hb.
  rewrite !andb_true_iff, Z.leb_le, Z.ltb_lt in Hb. destruct Hb as [? Hx].
  split_and!; [lia..| |].
  - intros Heq. rewrite Heq, xorb_nilpotent in Hx. done.
  - intros k Hk Hkr. pose proof (masked_bit k ltac:(lia)) as Hb.
    rewrite Hl in Hb by lia. revert Hb. ztest. by destruct (bit data k), s.
Qed.

Lemma masked_last :
  masked ≠ 0 → let x := 64 * i + 63 - CLZ masked in
  off ≤ x < max ∧ 64 * i ≤ x < 64 * i + 64 ∧ bit data x ≠ s ∧
  ∀ k, x < k < 64 * i + 64 → off ≤ k < max → bit data k = s.
Proof using Hdata Hoff Hmax Hi.
  intros H0 x. pose proof (MaskBits_range _ i off max s (word_at_range data i Hdata)) as Hr.
  unfold is_word in Hr. destruct (CLZ_spec masked) as (Hn & Ht & Hl); [lia|].
  pose proof (masked_bit x) as Hb. replace (x - 64 * i) with (63 - CLZ masked) in Hb by lia.
  rewrite Ht in Hb. specialize (Hb ltac:(lia)). symmetry in Hb.
  rewrite !andb_true_iff, Z.leb_le, Z.ltb_lt in Hb. destruct Hb as [? Hx].
  split_and!; [lia..| |].
  - intros Heq. rewrite Heq, xorb_nilpotent in Hx. done.
  - intros k Hk Hkr. pose proof (masked_bit k ltac:(lia)) as Hb.
    rewrite Hl in Hb by lia. revert Hb. ztest. by destruct (bit data k), s.
Qed.

End masked.

(** ** Scans *)

(** [r] is the result of a scan of [lo, hi): nothing, or the first mismatch. *)
Definition first_mismatch (m : Z → bool) (lo hi : Z) (s : bool) (r : option Z) : Prop :=
  match r with
  | None => all_bits m lo hi s
  | Some x => lo ≤ x < hi ∧ m x ≠ s ∧ all_bits m lo x s
  end.

Definition last_mismatch (m : Z → bool) (lo hi : Z) (s : bool) (r : option Z) : Prop :=
  match r with
  | None => all_bits m lo hi s
  | Some x => lo ≤ x < hi ∧ m x ≠ s ∧ all_bits m (x + 1) hi s
  end.

Section scans.
Context (data : list Z) (off max : Z) (s : bool).
Hypothesis (Hdata : Forall is_word data) (Hoff : 0 ≤ off < max) (Hmax : max < 2 ^ 64)
  (Hlen : max ≤ 64 * Z.of_nat (length data)).

Lemma scan_loop_spec fuel i :
  FirstIdx off ≤ i ≤ LastIdx max → LastIdx max - i < Z.of_nat fuel →
  ∃ r, scan_loop fuel data i off max s = Returns r ∧
       first_mismatch (bit data) (Z.max off (64 * i)) max s r.
Proof using Hdata Hoff Hmax Hlen.
  revert i. induction fuel as [|fuel IH]; intros i Hi Hf; [lia|]. cbn [scan_loop].
  pose proof (LastIdx_bounds max ltac:(lia)). pose proof (FirstIdx_bounds off).
  rewrite array_get_word by lia. cbn [mbind outcome_bind].
  destruct (Z.eqb_spec (MaskBits (word_at data i) i off max s) 0) as [E|E]; cbn [negb].
  - pose proof (masked_zero data i off max s Hoff Hmax Hi E) as Hz.
    destruct (Z.eqb_spec i (LastIdx max)) as [El|].
    + exists None. split; [done|]. intros k Hk. apply Hz; lia.
    + unwrap.
      destruct (IH (i + 1)) as (r & -> & Hr); [lia..|]. exists r. split; [done|].
      assert (Hz' : all_bits (bit data) (Z.max off (64 * i)) (Z.max off (64 * (i + 1))) s).
      { intros k Hk. apply Hz; lia. }
      destruct r as [x|]; cbn in Hr |- *.
      * destruct Hr as (? & ? & Hb). split_and!; [lia..|done|].
        intros k Hk. destruct (Z.lt_ge_cases k (Z.max off (64 * (i + 1)))); [apply Hz'; lia|].
        apply Hb. lia.
      * intros k Hk. destruct (Z.lt_ge_cases k (Z.max off (64 * (i + 1)))); [apply Hz'; lia|].
        apply Hr. lia.
  - destruct (masked_first data i off max s Hdata Hoff Hmax Hi E) as (H1 & H2 & H3 & H4).
    eexists; split; [done|]. cbn. unfold kBits. rewrite (Z.mul_comm i). unwrap.
    split_and!; [lia..|done|]. intros k Hk. apply H4; lia.
Qed.

Lemma reverse_scan_loop_spec fuel i :
  FirstIdx off ≤ i ≤ LastIdx max → i - FirstIdx off < Z.of_nat fuel →
  ∃ r, reverse_scan_loop fuel data i off max s = Returns r ∧
       last_mismatch (bit data) off (Z.min max (64 * i + 64)) s r.
Proof using Hdata Hoff Hmax Hlen.
  revert i. induction fuel as [|fuel IH]; intros i Hi Hf; [lia|]. cbn [reverse_scan_loop].
  pose proof (LastIdx_bounds max ltac:(lia)). pose proof (FirstIdx_bounds off).
  rewrite array_get_word by lia. cbn [mbind outcome_bind].
  destruct (Z.eqb_spec (MaskBits (word_at data i) i off max s) 0) as [E|E]; cbn [negb].
  - pose proof (masked_zero data i off max s Hoff Hmax Hi E) as Hz.
    destruct (Z.eqb_spec i (FirstIdx off)) as [El|].
    + exists None. split; [done|]. intros k Hk. apply Hz; lia.
    + unwrap.
      destruct (IH (i - 1)) as (r & -> & Hr); [lia..|]. exists r. split; [done|].
      assert (Hz' : all_bits (bit data) (64 * i) (Z.min max (64 * i + 64)) s).
      { intros k Hk. apply Hz; lia. }
      replace (64 * (i - 1) + 64) with (64 * i) in Hr by lia.
      destruct r as [x|]; cbn in Hr |- *.
      * destruct Hr as (? & ? & Hb). split_and!; [lia..|done|].
        intros k Hk. destruct (Z.lt_ge_cases k (64 * i)); [apply Hb; lia|apply Hz'; lia].
      * intros k Hk. destruct (Z.lt_ge_cases k (64 * i)); [apply Hr; lia|apply Hz'; lia].
  - destruct (masked_last data i off max s Hdata Hoff Hmax Hi E) as (H1 & H2 & H3 & H4).
    eexists; split; [done|]. cbn. unfold kBits.
    replace ((i ⊞ 1) ⊠ 64 ⊟ (CLZ _ + 1)) with
      (64 * i + 63 - CLZ (MaskBits (word_at data i) i off max s)).
    + split_and!; [lia..|done|]. intros k Hk. apply H4; lia.
    + rewrite (u64_small (i + 1)) by lia. unfold u64. rewrite Zminus_mod_idemp_l.
      rewrite Z.mod_small; lia.
Qed.

End scans.

Lemma Scan_ok b off max s :
  raw_ok b → 0 ≤ off → 0 ≤ max < 2 ^ 64 →
  ∃ r, Scan b off max s = Returns r ∧
       first_mismatch (raw_bit b) off (Z.min max b.(size_)) s r.
Proof.
  intros (Hs & Hlen & Hw) Ho Hm. unfold Scan. destruct (Z.leb_spec (Z.min max (size_ b)) off).
  { exists None. split; [done|]. intros k Hk. lia. }
  pose proof (LastIdx_bounds (Z.min max (size_ b)) ltac:(lia)). pose proof (FirstIdx_bounds off).
  unfold kBits in Hlen.
  destruct (scan_loop_spec (data_ b) off (Z.min max (size_ b)) s Hw ltac:(lia) ltac:(lia)
    ltac:(lia) (Z.to_nat (LastIdx (Z.min max (size_ b)) - FirstIdx off + 1)) (FirstIdx off))
    as (r & -> & Hr); [lia..|].
  exists r. split; [done|]. by rewrite Z.max_l in Hr by lia.
Qed.

Lemma ReverseScan_ok b off max s :
  raw_ok b → 0 ≤ off → 0 ≤ max < 2 ^ 64 →
  ∃ r, ReverseScan b off max s = Returns r ∧
       last_mismatch (raw_bit b) off (Z.min max b.(size_)) s r.
Proof.
  intros (Hs & Hlen & Hw) Ho Hm. unfold ReverseScan.
  destruct (Z.leb_spec (Z.min max (size_ b)) off).
  { exists None. split; [done|]. intros k Hk. lia. }
  pose proof (LastIdx_bounds (Z.min max (size_ b)) ltac:(lia)). pose proof (FirstIdx_bounds off).
  unfold kBits in Hlen.
  destruct (reverse_scan_loop_spec (data_ b) off (Z.min max (size_ b)) s Hw ltac:(lia) ltac:(lia)
    ltac:(lia) (Z.to_nat (LastIdx (Z.min max (size_ b)) - FirstIdx off + 1))
    (LastIdx (Z.min max (size_ b)))) as (r & -> & Hr); [lia..|].
  exists r. split; [done|]. by rewrite Z.min_l in Hr by lia.
Qed.

(** ** Searches *)

Section search.
Context (b : RawBitmapBase) (v : bool) (lo hi len : Z).
Hypothesis (Hok : raw_ok b) (Hlo : 0 ≤ lo) (Hhi : hi ≤ b.(size_)) (Hlen : 0 < len < 2 ^ 64).

#[local] Notation run := (is_run (raw_bit b) v lo hi len).

Lemma find_loop_spec fuel off o :
  lo ≤ off ≤ hi → hi - off < Z.of_nat fuel → (∀ s, run s → off ≤ s) →
  ∃ st out, find_loop fuel b v off hi len o = Returns (st, out) ∧
    ((st = ZX_OK ∧ ∃ s, out = Some s ∧ run s ∧ ∀ s', run s' → s ≤ s') ∨
     (st = ZX_ERR_NO_RESOURCES ∧ out = o ∧ ∀ s, ¬ run s)).
Proof using Hok Hlo Hhi Hlen.
  revert off. pose proof Hok as (Hs & _).
  induction fuel as [|fuel IH]; intros off Ho Hf Hmin; [lia|]. cbn [find_loop].
  destruct (Scan_ok b off hi (negb v) Hok) as (r & -> & Hr); [lia..|]. cbn [mbind outcome_bind].
  rewrite Z.min_l in Hr by lia. destruct r as [start|]; cbn in Hr.
  - destruct Hr as (Hst & Hbit & Hbefore).
    assert (Hstart : ∀ s, run s → start ≤ s).
    { intros s Hr. destruct (Z.lt_ge_cases s start) as [Hlt|]; [exfalso|lia].
      pose proof (Hmin s Hr). destruct Hr as (_ & _ & Hr).
      specialize (Hr s ltac:(lia)). rewrite Hbefore in Hr by lia. by destruct v. }
    unwrap. destruct (Z.ltb_spec (hi - start) len).
    { do 2 eexists. split; [done|]. right. split_and!; [done..|].
      intros s Hr. pose proof (Hstart s Hr). destruct Hr as (? & ? & ?). lia. }
    unwrap. destruct (Scan_ok b start (start + len) v Hok) as (r & -> & Hr2); [lia..|].
    cbn [mbind outcome_bind]. rewrite Z.min_l in Hr2 by lia. destruct r as [off'|]; cbn in Hr2.
    + destruct Hr2 as (Hoff' & Hbit' & _).
      assert (start ≠ off') by (intros ->; by destruct (raw_bit b off'), v).
      apply IH; [lia..|]. intros s Hr.
      destruct (Z.lt_ge_cases s off') as [Hlt|]; [exfalso|lia].
      pose proof (Hstart s Hr). destruct Hr as (_ & _ & Hr). apply Hbit', Hr. lia.
    + do 2 eexists. split; [done|]. left. split; [done|]. exists start.
      split_and!; [done|split_and!; [lia..|done]|done].
  - do 2 eexists. split; [done|]. right. split_and!; [done..|]. intros s Hr'.
    pose proof (Hmin s Hr') as Hge. destruct Hr' as (? & ? & Hr').
    specialize (Hr' s ltac:(lia)). rewrite Hr in Hr' by lia. by destruct v.
Qed.

Lemma reverse_find_loop_spec fuel max o :
  lo ≤ max ≤ hi → max - lo < Z.of_nat fuel → (∀ s, run s → s + len ≤ max) →
  ∃ st out, reverse_find_loop fuel b v lo max len o = Returns (st, out) ∧
    ((st = ZX_OK ∧ ∃ s, out = Some s ∧ run s ∧ ∀ s', run s' → s' ≤ s) ∨
     (st = ZX_ERR_NO_RESOURCES ∧ out = o ∧ ∀ s, ¬ run s)).
Proof using Hok Hlo Hhi Hlen.
  revert max. pose proof Hok as (Hs & _).
  induction fuel as [|fuel IH]; intros max Ho Hf Hmax; [lia|]. cbn [reverse_find_loop].
  destruct (ReverseScan_ok b lo max (negb v) Hok) as (r & -> & Hr); [lia..|].
  cbn [mbind outcome_bind]. rewrite Z.min_l in Hr by lia. destruct r as [last|]; cbn in Hr.
  - destruct Hr as (Hst & Hbit & Hafter).
    assert (Hend : ∀ s, run s → s + len ≤ last + 1).
    { intros s Hr. destruct (Z.le_gt_cases (s + len) (last + 1)) as [|Hgt]; [done|exfalso].
      pose proof (Hmax s Hr). destruct Hr as (_ & _ & Hr).
      specialize (Hr (s + len - 1) ltac:(lia)). rewrite Hafter in Hr by lia. by destruct v. }
    unwrap. destruct (Z.ltb_spec (last + 1 - lo) len).
    { do 2 eexists. split; [done|]. right. split_and!; [done..|].
      intros s Hr. pose proof (Hend s Hr). destruct Hr as (? & ? & ?). lia. }
    unwrap. destruct (ReverseScan_ok b (last + 1 - len) (last + 1) v Hok)
      as (r & -> & Hr2); [lia..|].
    cbn [mbind outcome_bind]. rewrite Z.min_l in Hr2 by lia. destruct r as [max'|]; cbn in Hr2.
    + destruct Hr2 as (Hmax' & Hbit' & _).
      assert (last ≠ max') by (intros ->; by destruct (raw_bit b max'), v).
      apply IH; [lia..|]. intros s Hr.
      destruct (Z.le_gt_cases (s + len) max') as [|Hgt]; [done|exfalso].
      pose proof (Hend s Hr). destruct Hr as (_ & _ & Hr). apply Hbit', Hr. lia.
    + do 2 eexists. split; [done|]. left. split; [done|]. exists (last + 1 - len).
      split_and!; [done| |intros s Hr; pose proof (Hend s Hr); lia].
      split_and!; [lia..|]. intros k Hk. apply Hr2. lia.
  - do 2 eexists. split; [done|]. right. split_and!; [done..|]. intros s Hr'.
    pose proof (Hmax s Hr') as Hge. destruct Hr' as (? & ? & Hr').
    specialize (Hr' s ltac:(lia)). rewrite Hr in Hr' by lia. by destruct v.
Qed.

End search.

(** ** Updates of a range *)

Lemma word_at_insert data i w k :
  0 ≤ i < Z.of_nat (length data) → 0 ≤ k →
  word_at (<[Z.to_nat i := w]> data) k = if k =? i then w else word_at data k.
Proof.
  intros Hi Hk. unfold word_at. destruct (Z.eqb_spec k i) as [->|].
  - by rewrite list_lookup_insert_eq by lia.
  - by rewrite list_lookup_insert_ne by lia.
Qed.

Section update.
Context (f : Z → Z → Z) (g : bool → bool → bool).
Hypothesis (Hword : ∀ w m, is_word w → is_word m → is_word (f w m))
  (Hbits : ∀ w m j, 0 ≤ j < 64 →
     Z.testbit (f w m) j = g (Z.testbit w j) (Z.testbit m j))
  (Hid : ∀ x, g x false = x).

Lemma update_words_spec off max data :
  Forall is_word data → 0 ≤ off < max → max < 2 ^ 64 → max ≤ 64 * Z.of_nat (length data) →
  ∃ data', update_words f off max data = Returns data' ∧ Forall is_word data' ∧
    length data' = length data ∧
    ∀ k, 0 ≤ k → bit data' k = g (bit data k) ((off <=? k) && (k <? max)).
Proof using Hword Hbits Hid.
  intros Hd Ho Hm Hl. unfold update_words.
  pose proof (LastIdx_bounds max ltac:(lia)). pose proof (FirstIdx_bounds off).
  edestruct (for_range_inv (λ i d, Forall is_word d ∧ length d = length data ∧
      ∀ k, 0 ≤ k → bit d k = g (bit data k) ((off <=? k) && (k <? max) && (k <? 64 * i)))
    (FirstIdx off) (LastIdx max + 1)) as (d & -> & Hd' & Hl' & Hk); cycle 3.
  - eexists. split_and!; [done..|]. intros k Hk0. rewrite Hk by done. f_equal. zcases; done.
  - lia.
  - split_and!; [done..|]. intros k Hk. rewrite <- (Hid (bit data k)) at 1. f_equal. zcases; done.
  - intros i d Hi (Hd' & Hl' & Hk). rewrite array_get_word by lia. cbn [mbind outcome_bind].
    rewrite array_set_in by lia. eexists. split; [done|]. split_and!.
    + apply Forall_insert; [done|]. apply Hword; [by apply word_at_range|apply GetMask_range].
    + by rewrite length_insert.
    + intros k Hk0. unfold bit, kBits in *. rewrite word_at_insert by zlia.
      destruct (Z.eqb_spec (k / 64) i) as [<-|].
      * pose proof (Z.mod_pos_bound k 64 ltac:(lia)).
        rewrite Hbits, GetMask_in_range, Hk by (done || zlia).
        rewrite <- Z.div_mod by lia.
        replace (k <? 64 * (k / 64)) with false by (zcases; zlia).
        replace (k <? 64 * (k / 64 + 1)) with true by (zcases; zlia).
        by rewrite andb_false_r, andb_true_r, Hid.
      * rewrite Hk by done. f_equal. zcases; zlia.
Qed.

End update.

Lemma Set_data off max data :
  Forall is_word data → 0 ≤ off < max → max < 2 ^ 64 → max ≤ 64 * Z.of_nat (length data) →
  ∃ data', update_words (λ w mask, Z.lor w mask) off max data = Returns data' ∧
    Forall is_word data' ∧ length data' = length data ∧
    ∀ k, 0 ≤ k → bit data' k = bit data k || ((off <=? k) && (k <? max)).
Proof.
  apply (update_words_spec _ orb); [|intros; apply Z.lor_spec|apply orb_false_r].
  intros w m ? ?. by apply lor_range.
Qed.

Lemma Clear_data off max data :
  Forall is_word data → 0 ≤ off < max → max < 2 ^ 64 → max ≤ 64 * Z.of_nat (length data) →
  ∃ data', update_words (λ w mask, Z.land w (not64 mask)) off max data = Returns data' ∧
    Forall is_word data' ∧ length data' = length data ∧
    ∀ k, 0 ≤ k → bit data' k = bit data k && negb ((off <=? k) && (k <? max)).
Proof.
  apply (update_words_spec _ (λ x y, x && negb y)).
  - intros w m ? ?. apply land_range; [lia|done|apply not64_range].
  - intros w m j Hj. by rewrite Z.land_spec, testbit_not64 by lia.
  - intros x. apply andb_true_r.
Qed.

Lemma Set_ok b off max :
  raw_ok b → 0 ≤ off ≤ max → max ≤ b.(size_) →
  ∃ b', Set_ b off max = Returns (ZX_OK, b') ∧ raw_ok b' ∧ b'.(size_) = b.(size_) ∧
    length b'.(data_) = length b.(data_) ∧
    ∀ k, 0 ≤ k → raw_bit b' k = ((off <=? k) && (k <? max)) || raw_bit b k.
Proof.
  intros (Hs & Hl & Hw) Ho Hm. unfold Set_. ztest. cbn [orb].
  destruct (Z.eqb_spec off max) as [->|].
  { exists b. split_and!; try done. intros k Hk. zcases; done. }
  unfold kBits in Hl. destruct (Set_data off max (data_ b)) as (d & -> & Hw' & Hl' & Hk); [done|lia..|].
  eexists. split; [done|]. split_and!; [|done..|].
  - apply raw_ok_intro; [done|lia|done].
  - intros k Hk0. unfold raw_bit. cbn. by rewrite Hk, orb_comm.
Qed.

Lemma Clear_ok b off max :
  raw_ok b → 0 ≤ off ≤ max → max ≤ b.(size_) →
  ∃ b', Clear b off max = Returns (ZX_OK, b') ∧ raw_ok b' ∧ b'.(size_) = b.(size_) ∧
    length b'.(data_) = length b.(data_) ∧
    ∀ k, 0 ≤ k → raw_bit b' k = negb ((off <=? k) && (k <? max)) && raw_bit b k.
Proof.
  intros (Hs & Hl & Hw) Ho Hm. unfold Clear. ztest. cbn [orb].
  destruct (Z.eqb_spec off max) as [->|].
  { exists b. split_and!; try done. intros k Hk. zcases; done. }
  unfold kBits in Hl. destruct (Clear_data off max (data_ b)) as (d & -> & Hw' & Hl' & Hk); [done|lia..|].
  eexists. split; [done|]. split_and!; [|done..|].
  - apply raw_ok_intro; [done|lia|done].
  - intros k Hk0. unfold raw_bit. cbn. by rewrite Hk, andb_comm.
Qed.

Lemma ClearAll_ok b :
  raw_ok b →
  ∃ b', ClearAll b = Returns b' ∧ raw_ok b' ∧ b'.(size_) = b.(size_) ∧
    length b'.(data_) = length b.(data_) ∧ all_bits (raw_bit b') 0 b.(size_) false.
Proof.
  intros (Hs & Hl & Hw). unfold ClearAll, kBits in *. destruct (Z.eqb_spec (size_ b) 0) as [E|].
  { exists b. split_and!; try done. intros k. lia. }
  pose proof (LastIdx_bounds (size_ b) ltac:(lia)).
  edestruct (for_range_inv (λ i d, Forall is_word d ∧ length d = length (data_ b) ∧
      ∀ k, 0 ≤ k < 64 * i → bit d k = false) 0 (LastIdx (size_ b) + 1))
    as (d & -> & Hd' & Hl' & Hk); cycle 3.
  - eexists. split; [done|]. split_and!; [|done..|].
    + apply raw_ok_intro; [done|lia|done].
    + intros k Hk0. apply Hk. lia.
  - lia.
  - split_and!; try done. lia.
  - intros i d Hi (Hd' & Hl' & Hk). rewrite array_set_in by lia. eexists. split; [done|].
    split_and!.
    + apply Forall_insert; [done|apply is_word_0].
    + by rewrite length_insert.
    + intros k Hk0. unfold bit, kBits in *. rewrite word_at_insert by zlia.
      destruct (Z.eqb_spec (k / 64) i); [apply Z.bits_0|apply Hk; zlia].
Qed.

(** [Get] only looks at the bits the bitmap holds. *)
Lemma Get_clamped b off max :
  raw_ok b → 0 ≤ off → 0 ≤ max < 2 ^ 64 →
  ∃ r x, Get b off max = Returns (r, x) ∧
    (r = true ↔ all_bits (raw_bit b) off (Z.min max b.(size_)) true) ∧
    (r = true → x = max) ∧
    (r = false → off ≤ x < Z.min max b.(size_) ∧ raw_bit b x = false ∧
       all_bits (raw_bit b) off x true).
Proof.
  intros Hok Ho Hm. unfold Get.
  destruct (Scan_ok b off max true Hok) as (r & -> & Hr); [lia..|].
  cbn [mbind outcome_bind]. destruct r as [x|]; do 2 eexists; (split; [done|]); cbn in Hr; [|done].
  destruct Hr as (Hx & Hb & Ha). apply not_true_is_false in Hb.
  split_and!; try done. split; [done|]. intros Hall. rewrite Hall in Hb by lia. done.
Qed.

Lemma Get_ok b off max :
  raw_ok b → 0 ≤ off → 0 ≤ max ≤ b.(size_) →
  ∃ r x, Get b off max = Returns (r, x) ∧
    (r = true ↔ all_bits (raw_bit b) off max true) ∧
    (r = true → x = max) ∧
    (r = false → off ≤ x < max ∧ raw_bit b x = false ∧ all_bits (raw_bit b) off x true).
Proof.
  intros Hok Ho Hm. pose proof Hok as (? & _).
  destruct (Get_clamped b off max Hok Ho) as (r & x & E & Hr); [lia|].
  rewrite Z.min_l in Hr by lia. by exists r, x.
Qed.

(** ** Resizing *)

Lemma memset_words_spec data off n :
  0 ≤ off → 0 ≤ n → off + n ≤ Z.of_nat (length data) → Forall is_word data →
  ∃ data', memset_words data off (n * 8) = Returns data' ∧ length data' = length data ∧
    Forall is_word data' ∧
    ∀ i, 0 ≤ i → word_at data' i = if (off <=? i) && (i <? off + n) then 0 else word_at data i.
Proof.
  intros Ho Hn Hl Hw. unfold memset_words. ztest. rewrite Z.div_mul by lia.
  eexists. split; [done|]. split_and!.
  - rewrite !length_app, length_take, length_replicate, length_drop. lia.
  - rewrite !Forall_app. split_and!; [by apply Forall_take| |by apply Forall_drop].
    apply Forall_replicate, is_word_0.
  - intros i Hi. unfold word_at. destruct (Z.leb_spec off i); cbn [andb].
    + rewrite lookup_app_r by (rewrite length_take; lia). rewrite length_take, Nat.min_l by lia.
      destruct (Z.ltb_spec i (off + n)).
      * by rewrite lookup_app_l, lookup_replicate_2 by (rewrite ?length_replicate; lia).
      * rewrite lookup_app_r by (rewrite length_replicate; lia).
        rewrite length_replicate, lookup_drop. do 2 f_equal. lia.
    + rewrite lookup_app_l by (rewrite length_take; lia). by rewrite lookup_take_lt by lia.
Qed.

(** Storage that keeps the words below [size] keeps the bits. *)
Lemma kept_words b d size :
  raw_ok b → Forall is_word d → 0 < b.(size_) ≤ size → size < 2 ^ 64 →
  (∀ i : nat, 8 * (Z.of_nat i + 1) ≤ 8 * (LastIdx size + 1) → (i < length b.(data_))%nat →
     d !! i = b.(data_) !! i) →
  raw_ok {| size_ := b.(size_); data_ := d |} ∧
  ∀ i, 0 ≤ i ≤ LastIdx b.(size_) → word_at d i = word_at b.(data_) i.
Proof.
  intros (Hs & Hl & Hw) Hd Hsz Hlt Hkeep. unfold kBits in Hl.
  pose proof (LastIdx_bounds (size_ b) ltac:(lia)). pose proof (LastIdx_bounds size ltac:(lia)).
  split.
  - apply raw_ok_intro; [done| |done].
    pose proof (Hkeep (Z.to_nat (LastIdx (size_ b))) ltac:(lia) ltac:(lia)) as E.
    destruct (lookup_lt_is_Some_2 (data_ b) (Z.to_nat (LastIdx (size_ b)))) as [w Hw']; [lia|].
    rewrite Hw' in E. apply lookup_lt_Some in E. lia.
  - intros i Hi. unfold word_at. by rewrite Hkeep by lia.
Qed.

Section resize.
Context (st : Storage) (b : RawBitmapBase).

Lemma Grow_ok `{!GrowOk st b.(data_)} size grow :
  raw_ok b → st.(GrowStorage) = Some grow → 0 < b.(size_) < size → size ≤ 2 ^ 64 - 64 →
  ∃ s b', Grow st b size = Returns (s, b') ∧ raw_ok b' ∧
    (s = ZX_OK → b'.(size_) = size ∧
       ∀ k, 0 ≤ k < size → raw_bit b' k = (k <? b.(size_)) && raw_bit b k) ∧
    (s ≠ ZX_OK → b'.(size_) = b.(size_) ∧
       ∀ k, 0 ≤ k < b.(size_) → raw_bit b' k = raw_bit b k).
Proof.
  intros Hok Hg Hsz Hlt. pose proof Hok as (Hs & Hl & Hw). unfold Grow. rewrite Hg. ztest.
  pose proof (LastIdx_bounds (size_ b) ltac:(lia)). pose proof (LastIdx_bounds size ltac:(lia)).
  unwrap. unfold ZX_ASSERT. ztest. cbn [mbind outcome_bind].
  destruct (grow _ _) as [s d] eqn:Hgrow.
  destruct (grow_ok grow (8 * (LastIdx size + 1)) s d Hg ltac:(lia) Hw Hgrow) as (Hd & Hkeep & Hlen).
  destruct (kept_words b d size Hok Hd ltac:(lia) ltac:(lia) Hkeep) as [Hok' Hwords].
  case_bool_decide as Es; cbn [negb].
  - specialize (Hlen Es).
    destruct (memset_words_spec d (LastIdx (size_ b) + 1) (LastIdx size - LastIdx (size_ b)))
      as (d' & Hm & Hl' & Hd' & Hat); [lia..|done|].
    replace (LastIdx size + 1 - (LastIdx (size_ b) + 1)) with (LastIdx size - LastIdx (size_ b))
      by lia. rewrite Hm. cbn [mbind outcome_bind]. unfold kBits.
    rewrite (u64_small (_ * 64)) by lia.
    destruct (Clear_ok {| size_ := size; data_ := d' |} (size_ b)
      (Z.min ((LastIdx (size_ b) + 1) * 64) size)) as (b2 & -> & Hok2 & Hs2 & _ & Hbit); cbn [size_];
      [apply raw_ok_intro; [lia..|done]|lia..|]. cbn [mbind outcome_bind snd].
    do 2 eexists. split_and!; [done..| |congruence]. intros _. split; [done|]. intros k Hk.
    rewrite Hbit by lia. unfold raw_bit, bit, kBits. cbn [data_]. rewrite Hat by zlia.
    destruct (Z.ltb_spec k (size_ b)).
    + ztest. cbn. replace (LastIdx (size_ b) + 1 <=? k / 64) with false by (zcases; zlia).
      cbn. rewrite Hwords by zlia. done.
    + destruct (Z.leb_spec (LastIdx (size_ b) + 1) (k / 64)); [|zcases; zlia].
      replace (k / 64 <? _) with true by (zcases; zlia). cbn. rewrite Z.bits_0. apply andb_false_r.
  - do 2 eexists. split_and!; [done..|]. intros _. split; [done|]. intros k Hk.
    unfold raw_bit, bit, kBits. cbn [data_]. rewrite Hwords by zlia. done.
Qed.

Lemma Reset_ok `{!AllocateOk st} size :
  0 ≤ size < 2 ^ 64 →
  ∃ s b', Reset st b size = Returns (s, b') ∧ b'.(size_) = size ∧
    (s = ZX_OK → raw_ok b' ∧ all_bits (raw_bit b') 0 size false).
Proof.
  intros Hsz. unfold Reset. destruct (Z.eqb_spec size 0) as [->|].
  { do 2 eexists. split_and!; [done..|]. intros _. split; [|intros k; lia].
    apply raw_ok_intro; [done..|constructor]. }
  pose proof (LastIdx_bounds size ltac:(lia)). unwrap.
  destruct (Allocate _ _ _) as [s d] eqn:Ha.
  case_bool_decide as Es; cbn [negb].
  - destruct (allocate_ok (data_ b) (8 * (LastIdx size + 1)) s d ltac:(lia) Ha Es) as [Hl Hd].
    destruct (ClearAll_ok {| size_ := size; data_ := d |}) as (b' & -> & Hok & Hs & _ & Hall).
    { apply raw_ok_intro; [lia..|done]. }
    do 2 eexists. split_and!; done.
  - do 2 eexists. split_and!; done.
Qed.

End resize.

(** ** The storage classes keep their promise *)

#[export] Instance DefaultStorage_allocate new_array :
  (∀ size arr, new_array size = Some arr →
     size ≤ 8 * Z.of_nat (length arr) ∧ Forall is_word arr) →
  AllocateOk (DefaultStorage new_array).
Proof.
  intros Hnew old size s d _. cbn.
  destruct (new_array size) eqn:E; intros [= <- <-]; [|done]. intros _. by apply Hnew.
Qed.

Lemma round_up_page size :
  0 ≤ size < 2 ^ 62 → size ≤ round_up size PAGE_SIZE ∧ round_up size PAGE_SIZE mod 8 = 0.
Proof.
  intros Hs. destruct (round_up_spec size PAGE_SIZE) as [[q Hq] Hb]; unfold PAGE_SIZE in *; [lia..|].
  split; [lia|]. rewrite Hq. zlia.
Qed.

(** The part of the old contents the resized VMO keeps. *)
Lemma vmo_kept old size (pad : bool) (d : list Z) :
  0 ≤ size < 2 ^ 62 → Forall is_word old →
  d = (if pad then resize (Z.to_nat (round_up size PAGE_SIZE / 8)) 0 old
       else take (Z.to_nat (round_up size PAGE_SIZE / 8)) old) →
  Forall is_word d ∧
  (∀ i : nat, 8 * (Z.of_nat i + 1) ≤ size → (i < length old)%nat → d !! i = old !! i) ∧
  (pad = true → size ≤ 8 * Z.of_nat (length d)).
Proof.
  intros Hs Hw ->. destruct (round_up_page size Hs) as [Hge Hm]. split_and!.
  - destruct pad; [apply Forall_resize; [apply is_word_0|done]|by apply Forall_take].
  - intros i Hi Hlt. destruct pad.
    + rewrite lookup_resize by zlia. done.
    + rewrite lookup_take_lt by zlia. done.
  - intros ->. rewrite length_resize. zlia.
Qed.

#[export] Instance VmoStorage_allocate k vmo_size : AllocateOk (VmoStorage k vmo_size).
Proof.
  intros old size s d Hs. cbn. destruct (round_up_page size Hs) as [Hge Hm].
  unfold failed. repeat case_bool_decide; cbn; intros [= <- <-]; try done. intros _.
  rewrite length_replicate. split; [zlia|]. apply Forall_replicate, is_word_0.
Qed.

#[export] Instance VmoStorage_grow k vmo_size old :
  vmo_size ≤ 8 * Z.of_nat (length old) → GrowOk (VmoStorage k vmo_size) old.
Proof.
  intros Hv grow size s d [= <-] Hs Hw. pose proof (vmo_kept old size true) as Hpad.
  pose proof (vmo_kept old size false) as Htake. unfold failed.
  destruct (Z.leb_spec size vmo_size); [intros [= <- <-]; split_and!; [done..|lia]|].
  destruct (Hpad _ Hs Hw eq_refl) as (? & ? & ?), (Htake _ Hs Hw eq_refl) as (? & ? & _).
  repeat case_bool_decide; cbn; intros [= <- <-]; split_and!; (done || auto).
Qed.

(** ** [RawBitmap] implements [Bitmap] *)

#[export] Instance raw_bitmap : Bitmap RawBitmapBase := {|
  Bitmap.Find := Find;
  Bitmap.Get := Get;
  Bitmap.Set_ := Set_;
  Bitmap.Clear := Clear;
  Bitmap.ClearAll := ClearAll;
|}.

Lemma raw_Find_ok b v lo hi len o :
  raw_ok b → 0 ≤ lo < hi → hi ≤ b.(size_) → 0 < len < 2 ^ 64 →
  ∃ st out, Find b v lo hi len (Some o) = Returns (st, out) ∧
    ((st = ZX_OK ∧ ∃ s, out = Some s ∧ is_run (raw_bit b) v lo hi len s ∧
        ∀ s', is_run (raw_bit b) v lo hi len s' → s ≤ s') ∨
     (st = ZX_ERR_NO_RESOURCES ∧ out = Some o ∧ ∀ s, ¬ is_run (raw_bit b) v lo hi len s)).
Proof.
  intros Hok Hlo Hhi Hlen. unfold Find. ztest.
  apply find_loop_spec; [done|lia..|]. by intros s (? & _).
Qed.

#[export] Instance raw_bitmap_laws : BitmapLaws RawBitmapBase.
Proof.
  refine {| ok := raw_ok; mem := raw_bit; limit := size_; can_fail := False |}.
  - by intros b (? & _).
  - intros b lo hi Hok ? ?. apply Get_ok; [done|lia..].
  - intros b lo hi Hok ? ?. destruct (Set_ok b lo hi) as (b' & ? & ? & ? & _ & ?); [done|lia..|].
    exists ZX_OK, b'. split_and!; [done..|by intros _|done].
  - intros b lo hi Hok ? ?. destruct (Clear_ok b lo hi) as (b' & ? & ? & ? & _ & ?); [done|lia..|].
    exists ZX_OK, b'. split_and!; [done..|by intros _|done].
  - intros b Hok. destruct (ClearAll_ok b Hok) as (b' & ? & ? & ? & _ & ?). by exists b'.
  - intros b v lo hi len o ? ? ? ?. destruct (raw_Find_ok b v lo hi len o) as (st & out & ? & Hr); [done..|].
    exists st, out. split; [done|]. destruct Hr as [?|(? & _ & ?)]; auto.
Defined.

(** ** Properties *)

(** [RawBitmapBase::Find] on a range the bitmap holds always returns: with
    [ZX_OK] and the start of the first run of [len] bits of value [v] that lies
    in [lo, hi), or with [ZX_ERR_NO_RESOURCES], [*out] untouched, when that range
    has no such run. *)
Theorem raw_find_first b v lo hi len o :
  raw_ok b → 0 ≤ lo < hi → hi ≤ b.(size_) → 0 < len < 2 ^ 64 →
  ∃ st out, Find b v lo hi len (Some o) = Returns (st, out) ∧
    ((st = ZX_OK ∧ ∃ s, out = Some s ∧ is_run (raw_bit b) v lo hi len s ∧
        ∀ s', is_run (raw_bit b) v lo hi len s' → s ≤ s') ∨
     (st = ZX_ERR_NO_RESOURCES ∧ out = Some o ∧ ∀ s, ¬ is_run (raw_bit b) v lo hi len s)).
Proof. apply raw_Find_ok. Qed.

(** 70 bits of which [60, 66) are set: the witnesses' bitmap. *)
Definition example_bitmap : RawBitmapBase :=
  {| size_ := 70; data_ := [0xf000000000000000; 0x3] |}.

Lemma example_bitmap_ok : raw_ok example_bitmap.
Proof. apply raw_ok_intro; cbn; [lia..|]. repeat constructor; cbn; lia. Qed.

(** [RawBitmapBase::ReverseFind] on a range the bitmap holds always returns:
    with [ZX_OK] and the start of the last run of [len] bits of value [v] in
    [lo, hi), or with [ZX_ERR_NO_RESOURCES] when there is none. *)
Theorem raw_reverse_find_last b v lo hi len o :
  raw_ok b → 0 ≤ lo < hi → hi ≤ b.(size_) → 0 < len < 2 ^ 64 →
  ∃ st out, ReverseFind b v lo hi len (Some o) = Returns (st, out) ∧
    ((st = ZX_OK ∧ ∃ s, out = Some s ∧ is_run (raw_bit b) v lo hi len s ∧
        ∀ s', is_run (raw_bit b) v lo hi len s' → s' ≤ s) ∨
     (st = ZX_ERR_NO_RESOURCES ∧ out = Some o ∧ ∀ s, ¬ is_run (raw_bit b) v lo hi len s)).
Proof.
  intros Hok Hlo Hhi Hlen. unfold ReverseFind. ztest.
  apply reverse_find_loop_spec; [done|lia..|]. by intros s (_ & ? & _).
Qed.



(** Growing a non-empty bitmap over a storage that can grow keeps the bits
    it had and gives zero bits above them, whatever the storage contained; a
    failed growth leaves size and bits as they were. *)
Theorem raw_grow_keeps_bits st b size grow :
  GrowOk st b.(data_) → raw_ok b → st.(GrowStorage) = Some grow →
  0 < b.(size_) < size → size ≤ 2 ^ 64 - 64 →
  ∃ s b', Grow st b size = Returns (s, b') ∧ raw_ok b' ∧
    (s = ZX_OK → b'.(size_) = size ∧
       ∀ k, 0 ≤ k < size → raw_bit b' k = (k <? b.(size_)) && raw_bit b k) ∧
    (s ≠ ZX_OK → b'.(size_) = b.(size_) ∧
       ∀ k, 0 ≤ k < b.(size_) → raw_bit b' k = raw_bit b k).
Proof. intros. by eapply Grow_ok. Qed.

Definition all_calls_ok : VmoCalls := {|
  vmo_create := ZX_OK; vmar_map := ZX_OK; vmo_set_size := ZX_OK; get_info := ZX_OK;
  vmar_map_specific := ZX_OK; vmar_map_whole := ZX_OK; vmar_unmap := ZX_OK |}.

(** A bitmap of size 0 cannot grow: [LastIdx(0)] wraps to the last word of
    the address space, so that once the storage has grown, clearing the new
    words starts far outside of it. *)
Theorem raw_grow_from_empty st grow data size d :
  st.(GrowStorage) = Some grow → 0 < size < 2 ^ 64 →
  grow data (8 * (LastIdx size + 1)) = (ZX_OK, d) → Z.of_nat (length d) < 2 ^ 58 →
  Grow st {| size_ := 0; data_ := data |} size = Aborts.
Proof.
  intros Hg Hs Hd Hl. unfold Grow. rewrite Hg. cbn [size_ data_]. ztest.
  pose proof (LastIdx_bounds size Hs). unwrap. rewrite Hd. unfold ZX_ASSERT. ztest.
  cbn [mbind outcome_bind]. rewrite bool_decide_true by done. cbn [negb].
  change (LastIdx 0 ⊞ 1) with (2 ^ 58). unfold memset_words.
  pose proof (u64_range ((LastIdx size + 1 ⊟ 2 ^ 58) * 8)). by ztest.
Qed.

(** With a [bitmax] past the end of the bitmap, [Find] may report a run that
    the bitmap does not hold: the scan for the end of the run stops at [size_],
    the check of its length does not. *)
Theorem raw_find_past_end b v lo hi len o :
  raw_ok b → 0 ≤ lo < b.(size_) → raw_bit b lo = v → all_bits (raw_bit b) lo b.(size_) v →
  b.(size_) < lo + len → lo + len ≤ hi < 2 ^ 64 →
  Find b v lo hi len (Some o) = Returns (ZX_OK, Some lo).
Proof.
  intros Hok Hlo Hb Hall Hlen Hhi. unfold Find. ztest. cbn [find_loop].
  destruct (Scan_ok b lo hi (negb v) Hok) as (r & -> & Hr); [lia..|]. cbn [mbind outcome_bind].
  rewrite Z.min_r in Hr by lia.
  destruct r as [x|]; cbn in Hr; [|by rewrite Hr in Hb by lia; destruct v].
  assert (x = lo) as ->.
  { destruct Hr as (? & _ & Ha). destruct (Z.eq_dec x lo); [done|].
    rewrite Ha in Hb by lia. by destruct v. }
  unwrap. ztest. destruct (Scan_ok b lo (lo + len) v Hok) as (r & -> & Hr2); [lia..|].
  rewrite Z.min_r in Hr2 by lia. destruct r as [y|]; [|done].
  destruct Hr2 as (? & Hy & _). destruct Hy. apply Hall. lia.
Qed.

