(* ===== verification/RleBitmap.v ===== *)
(** * [bitmap::RleBitmap] (ulib/bitmap/rle-bitmap.cpp, rle-bitmap.h)

    A bitmap kept as an ordered list of runs of set bits, with counters of the
    runs and of the bits.  Allocation of list elements is a parameter.  The
    invariant says that the runs are non-empty, ordered and apart, so that the
    list is the only representation of the set of bits it holds. *)

From S2P Require Import Prelude Bitmap.

(** ** Data *)

Record RleBitmapElement := { bitoff : Z; bitlen : Z }.

Definition elem_start (e : RleBitmapElement) : Z := e.(bitoff).
Definition elem_end (e : RleBitmapElement) : Z := e.(bitoff) ⊞ e.(bitlen).

Record RleBitmap := {
  elems_ : list RleBitmapElement;
  num_elems_ : Z;
  num_bits_ : Z;
}.

Definition empty_rle : RleBitmap := {| elems_ := []; num_elems_ := 0; num_bits_ := 0 |}.

Definition num_ranges (b : RleBitmap) : Z := b.(num_elems_).
Definition num_bits (b : RleBitmap) : Z := b.(num_bits_).

(** A [FreeList*]: [None] is the null pointer. *)
Definition free_list := option (list RleBitmapElement).

(** ** List elements

    [alloc] says whether [operator new] succeeds.  The result says whether there
    is an element; its fields are then overwritten by the caller. *)
Definition AllocateElement (alloc : bool) (fl : free_list) : bool * free_list :=
  match fl with
  | None => (alloc, None)
  | Some [] => (false, Some [])
  | Some (_ :: l) => (true, Some l)
  end.

Definition ReleaseElement (fl : free_list) (e : RleBitmapElement) : free_list :=
  match fl with
  | None => None
  | Some l => Some (l ++ [e])
  end.

(** ** Queries *)

(** The loop of [Find] from the element list [l] on; [None] stands for a loop
    that ran to the end of the list, with the [bitoff] it reached. *)
Fixpoint find_loop (is_set : bool) (l : list RleBitmapElement) (off bitmax run_len : Z)
    : Z + (zx_status * Z) :=
  match l with
  | [] => inl off
  | elem :: l =>
    if elem_end elem <=? off then find_loop is_set l off bitmax run_len
    else if bitmax ⊟ off <? run_len then inr (ZX_ERR_NO_RESOURCES, bitmax)
    else
      let elem_min := Z.max off elem.(bitoff) in
      let elem_max := Z.min bitmax (elem_end elem) in
      if is_set && (elem_min <? elem_max) && (run_len <=? elem_max ⊟ elem_min) then
        inr (ZX_OK, elem_min)
      else if negb is_set && (off <? elem.(bitoff)) && (run_len <=? elem.(bitoff) ⊟ off) then
        inr (ZX_OK, off)
      else if bitmax <? elem_end elem then inr (ZX_ERR_NO_RESOURCES, bitmax)
      else find_loop is_set l (elem_end elem) bitmax run_len
  end.

Definition Find (b : RleBitmap) (is_set : bool) (off bitmax run_len : Z) (out : option Z)
    : outcome (zx_status * option Z) :=
  match out with
  | None => Aborts
  | Some _ =>
    match find_loop is_set b.(elems_) off bitmax run_len with
    | inr (st, o) => Returns (st, Some o)
    | inl off =>
      if negb is_set && (run_len <=? bitmax ⊟ off) then Returns (ZX_OK, Some off)
      else Returns (ZX_ERR_NO_RESOURCES, Some bitmax)
    end
  end.

(** The [bitoff] at the end of the loop of [Get]. *)
Fixpoint get_loop (l : list RleBitmapElement) (off : Z) : Z :=
  match l with
  | [] => off
  | elem :: l =>
    if off <? elem.(bitoff) then off
    else if off <? elem_end elem then elem_end elem
    else get_loop l off
  end.

Definition Get (b : RleBitmap) (off bitmax : Z) : outcome (bool * Z) :=
  let off := get_loop b.(elems_) off in
  let off := if bitmax <? off then bitmax else off in
  Returns (off =? bitmax, off).

(** ** Updates *)

Definition ClearAll (b : RleBitmap) : outcome RleBitmap := Returns empty_rle.

(** [find_if]: the elements that end before [off], and the others. *)
Fixpoint split_ends_after (off : Z) (l : list RleBitmapElement)
    : list RleBitmapElement * list RleBitmapElement :=
  match l with
  | [] => ([], [])
  | e :: tl =>
    if off <=? elem_end e then ([], l)
    else let '(before, rest) := split_ends_after off tl in (e :: before, rest)
  end.

(** The loop that merges [elem] with the elements after it. *)
Fixpoint merge_loop (elem : RleBitmapElement) (max : Z) (l : list RleBitmapElement)
    (ne nb : Z) (fl : free_list)
    : RleBitmapElement * list RleBitmapElement * Z * Z * free_list :=
  match l with
  | [] => (elem, [], ne, nb, fl)
  | itr :: tl =>
    if max <? itr.(bitoff) then (elem, l, ne, nb, fl)
    else
      let max := Z.max max (elem_end itr) in
      let nb := nb ⊞ (max ⊟ elem.(bitoff) ⊟ itr.(bitlen) ⊟ elem.(bitlen)) in
      let elem := {| bitoff := elem.(bitoff); bitlen := max ⊟ elem.(bitoff) |} in
      merge_loop elem max tl (ne ⊟ 1) nb (ReleaseElement fl itr)
  end.

Definition SetInternal (alloc : bool) (b : RleBitmap) (off bitmax : Z) (fl : free_list)
    : zx_status * RleBitmap * free_list :=
  if bitmax <? off then (ZX_ERR_INVALID_ARGS, b, fl)
  else
    let len := bitmax ⊟ off in
    if len =? 0 then (ZX_OK, b, fl)
    else
      let '(got, fl) := AllocateElement alloc fl in
      if negb got then (ZX_ERR_NO_MEMORY, b, fl)
      else
        let ne := b.(num_elems_) ⊞ 1 in
        let elem := {| bitoff := off; bitlen := len |} in
        let '(before, rest) := split_ends_after off b.(elems_) in
        let nb := b.(num_bits_) ⊞ len in
        match rest with
        | [] => (ZX_OK, {| elems_ := before ++ [elem]; num_elems_ := ne; num_bits_ := nb |}, fl)
        | itr :: _ =>
          let '(elem, nb) :=
            if itr.(bitoff) <=? elem.(bitoff) then
              ({| bitoff := itr.(bitoff);
                  bitlen := elem.(bitlen) ⊞ (elem.(bitoff) ⊟ itr.(bitoff)) |},
               nb ⊞ (elem.(bitoff) ⊟ itr.(bitoff)))
            else (elem, nb) in
          let '(elem, rest, ne, nb, fl) := merge_loop elem (elem_end elem) rest ne nb fl in
          (ZX_OK, {| elems_ := before ++ elem :: rest; num_elems_ := ne; num_bits_ := nb |}, fl)
        end.

Fixpoint clear_loop (alloc : bool) (off bitmax : Z) (l : list RleBitmapElement)
    (ne nb : Z) (fl : free_list)
    : zx_status * list RleBitmapElement * Z * Z * free_list :=
  match l with
  | [] => (ZX_OK, [], ne, nb, fl)
  | itr :: tl =>
    if elem_end itr <? off then
      let '(st, tl, ne, nb, fl) := clear_loop alloc off bitmax tl ne nb fl in
      (st, itr :: tl, ne, nb, fl)
    else if bitmax <? itr.(bitoff) then (ZX_OK, l, ne, nb, fl)
    else if itr.(bitoff) <? off then
      if elem_end itr <=? bitmax then
        let nb := nb ⊟ (itr.(bitlen) ⊟ (off ⊟ itr.(bitoff))) in
        let itr := {| bitoff := itr.(bitoff); bitlen := off ⊟ itr.(bitoff) |} in
        let '(st, tl, ne, nb, fl) := clear_loop alloc off bitmax tl ne nb fl in
        (st, itr :: tl, ne, nb, fl)
      else
        let '(got, fl) := AllocateElement alloc fl in
        if negb got then (ZX_ERR_NO_MEMORY, l, ne, nb, fl)
        else
          let new_elem := {| bitoff := bitmax; bitlen := elem_end itr ⊟ bitmax |} in
          let itr := {| bitoff := itr.(bitoff); bitlen := off ⊟ itr.(bitoff) |} in
          (ZX_OK, itr :: new_elem :: tl, ne ⊞ 1, nb ⊟ (bitmax ⊟ off), fl)
    else
      if bitmax <? elem_end itr then
        let nb := nb ⊟ (bitmax ⊟ itr.(bitoff)) in
        let itr := {| bitoff := bitmax; bitlen := elem_end itr ⊟ bitmax |} in
        (ZX_OK, itr :: tl, ne, nb, fl)
      else
        clear_loop alloc off bitmax tl (ne ⊟ 1) (nb ⊟ itr.(bitlen)) (ReleaseElement fl itr)
  end.

Definition ClearInternal (alloc : bool) (b : RleBitmap) (off bitmax : Z) (fl : free_list)
    : zx_status * RleBitmap * free_list :=
  if bitmax <? off then (ZX_ERR_INVALID_ARGS, b, fl)
  else if bitmax ⊟ off =? 0 then (ZX_OK, b, fl)
  else
    let '(st, l, ne, nb, fl) :=
      clear_loop alloc off bitmax b.(elems_) b.(num_elems_) b.(num_bits_) fl in
    (st, {| elems_ := l; num_elems_ := ne; num_bits_ := nb |}, fl).

Definition Set_ (alloc : bool) (b : RleBitmap) (off bitmax : Z) : outcome (zx_status * RleBitmap) :=
  let '(st, b, _) := SetInternal alloc b off bitmax None in Returns (st, b).

Definition SetNoAlloc (b : RleBitmap) (off bitmax : Z) (fl : free_list)
    : zx_status * RleBitmap * free_list :=
  match fl with
  | None => (ZX_ERR_INVALID_ARGS, b, fl)
  | Some _ => SetInternal false b off bitmax fl
  end.

Definition Clear (alloc : bool) (b : RleBitmap) (off bitmax : Z) : outcome (zx_status * RleBitmap) :=
  let '(st, b, _) := ClearInternal alloc b off bitmax None in Returns (st, b).

Definition ClearNoAlloc (b : RleBitmap) (off bitmax : Z) (fl : free_list)
    : zx_status * RleBitmap * free_list :=
  match fl with
  | None => (ZX_ERR_INVALID_ARGS, b, fl)
  | Some _ => ClearInternal false b off bitmax fl
  end.

(** ** Abstraction and invariant *)

(** The end of a run, which fits in a word under the invariant. *)
Definition fend (e : RleBitmapElement) : Z := e.(bitoff) + e.(bitlen).

Definition in_elem (e : RleBitmapElement) (k : Z) : bool := (e.(bitoff) <=? k) && (k <? fend e).

Definition in_runs (l : list RleBitmapElement) (k : Z) : bool := existsb (λ e, in_elem e k) l.

Definition total (l : list RleBitmapElement) : Z := foldr (λ e t, e.(bitlen) + t) 0 l.

(** Non-empty runs at or after [lo], in order, with at least one unset bit
    between two of them. *)
Fixpoint runs (lo : Z) (l : list RleBitmapElement) : Prop :=
  match l with
  | [] => True
  | e :: l => lo ≤ e.(bitoff) ∧ 0 < e.(bitlen) ∧ fend e < 2 ^ 64 ∧ runs (fend e + 1) l
  end.

Definition rle_ok (b : RleBitmap) : Prop :=
  runs 0 b.(elems_) ∧ b.(num_elems_) = Z.of_nat (length b.(elems_)) ∧
  b.(num_bits_) = total b.(elems_).

Definition rle_bit (b : RleBitmap) (k : Z) : bool := in_runs b.(elems_) k.

(** Where the runs after [l] may start. *)
Fixpoint after (lo : Z) (l : list RleBitmapElement) : Z :=
  match l with
  | [] => lo
  | e :: l => after (fend e + 1) l
  end.

Arguments in_runs : simpl never.
Arguments total : simpl never.

Lemma in_runs_nil k : in_runs [] k = false.
Proof. done. Qed.
Lemma in_runs_cons e l k : in_runs (e :: l) k = in_elem e k || in_runs l k.
Proof. done. Qed.
Lemma total_cons e l : total (e :: l) = e.(bitlen) + total l.
Proof. done. Qed.

Lemma elem_end_fend e : 0 ≤ e.(bitoff) → 0 < e.(bitlen) → fend e < 2 ^ 64 → elem_end e = fend e.
Proof. unfold elem_end, fend. intros. by unwrap. Qed.

Lemma runs_mono lo lo' l : lo' ≤ lo → runs lo l → runs lo' l.
Proof. destruct l as [|e l]; [done|]. intros ? (? & ?). split; [lia|done]. Qed.

Lemma runs_app lo l1 l2 : runs lo (l1 ++ l2) ↔ runs lo l1 ∧ runs (after lo l1) l2.
Proof. revert lo. induction l1 as [|e l1 IH]; intros lo; cbn; [tauto|]. rewrite IH. tauto. Qed.

Lemma in_runs_app l1 l2 k : in_runs (l1 ++ l2) k = in_runs l1 k || in_runs l2 k.
Proof. apply existsb_app. Qed.

Lemma total_app l1 l2 : total (l1 ++ l2) = total l1 + total l2.
Proof. induction l1 as [|e l1 IH]; [done|]. cbn [app]. rewrite !total_cons. lia. Qed.

Lemma runs_below lo l k : runs lo l → k < lo → in_runs l k = false.
Proof.
  revert lo. induction l as [|e l IH]; [done|]. intros lo (? & ? & ? & Hr) Hk. rewrite in_runs_cons.
  rewrite (IH (fend e + 1)) by (done || unfold fend; lia).
  unfold in_elem. by ztest.
Qed.

Lemma runs_above lo l k : runs lo l → 2 ^ 64 ≤ k → in_runs l k = false.
Proof.
  revert lo. induction l as [|e l IH]; [done|]. intros lo (? & ? & ? & Hr) Hk. rewrite in_runs_cons.
  rewrite (IH (fend e + 1)) by done. unfold in_elem. ztest. by rewrite andb_false_r.
Qed.

Lemma runs_total lo l :
  0 ≤ lo → runs lo l → Z.of_nat (length l) ≤ total l ≤ Z.max 0 (2 ^ 64 - 1 - lo).
Proof.
  revert lo. induction l as [|e l IH]; intros lo Hlo; [unfold total; cbn; lia|].
  intros (? & ? & ? & Hr). rewrite total_cons. cbn [length]. unfold fend in *.
  specialize (IH (bitoff e + bitlen e + 1) ltac:(lia) Hr). lia.
Qed.

Lemma after_le lo l off :
  lo ≤ off → Forall (λ e, fend e < off) l → after lo l ≤ off.
Proof.
  revert lo. induction l as [|e l IH]; cbn; intros lo Hlo; [done|].
  rewrite Forall_cons. intros [? ?]. apply IH; [lia|done].
Qed.

Lemma after_ge lo l : runs lo l → lo ≤ after lo l.
Proof.
  revert lo. induction l as [|e l IH]; cbn; intros lo; [done|].
  intros (? & ? & ? & Hr). unfold fend in *. specialize (IH _ Hr). lia.
Qed.

Lemma runs_head lo e l k : runs lo (e :: l) → k ≤ fend e → in_runs (e :: l) k = in_elem e k.
Proof.
  intros (? & ? & ? & Hr) Hk. rewrite in_runs_cons, (runs_below _ _ _ Hr) by lia.
  apply orb_false_r.
Qed.

(** Two lists of runs with the same bits are the same list. *)
Lemma runs_canonical lo lo' l l' :
  runs lo l → runs lo' l' → (∀ k, in_runs l k = in_runs l' k) → l = l'.
Proof.
  revert lo lo' l'. induction l as [|e l IH]; intros lo lo' [|e' l'] Hl Hl' Heq; [done|..].
  - specialize (Heq (bitoff e')). rewrite (runs_head _ _ _ _ Hl') in Heq by
      (destruct Hl'; unfold fend; lia).
    destruct Hl' as (? & ? & _). revert Heq. unfold in_elem, fend. by ztest.
  - specialize (Heq (bitoff e)). rewrite (runs_head _ _ _ _ Hl) in Heq by
      (destruct Hl; unfold fend; lia).
    destruct Hl as (? & ? & _). revert Heq. unfold in_elem, fend. by ztest.
  - assert (Hin : ∀ k, k ≤ fend e → k ≤ fend e' → in_elem e k = in_elem e' k).
    { intros k ? ?. rewrite <- (runs_head _ _ _ _ Hl), <- (runs_head _ _ _ _ Hl'); auto. }
    pose proof Hl as (? & ? & ? & Hr). pose proof Hl' as (? & ? & ? & Hr').
    assert (e = e') as ->.
    { pose proof (Hin (bitoff e)) as Hk1. pose proof (Hin (bitoff e')) as Hk2.
      pose proof (Hin (fend e)) as Hk3. pose proof (Hin (fend e')) as Hk4.
      unfold in_elem, fend in *. destruct e as [o n], e' as [o' n']. cbn in *.
      assert (o = o') as <-; [|f_equal].
      - destruct (Z.lt_trichotomy o o') as [|[|]]; [|done|]; exfalso.
        + revert Hk1. ztest. intros Hk1. discriminate Hk1; lia.
        + revert Hk2. ztest. intros Hk2. discriminate Hk2; lia.
      - destruct (Z.lt_trichotomy n n') as [|[|]]; [|done|]; exfalso.
        + revert Hk3. ztest. intros Hk3. discriminate Hk3; lia.
        + revert Hk4. ztest. intros Hk4. discriminate Hk4; lia. }
    f_equal. apply (IH _ _ _ Hr Hr'). intros k. specialize (Heq k). rewrite !in_runs_cons in Heq.
    destruct (Z.le_gt_cases k (fend e')).
    + rewrite (runs_below _ _ _ Hr), (runs_below _ _ _ Hr') by lia. done.
    + assert (Hf : in_elem e' k = false) by (unfold in_elem; zcases; done).
      rewrite Hf in Heq. done.
Qed.

(** ** [Set] *)

Lemma split_ends_after_spec lo off l before rest :
  0 ≤ lo → runs lo l → split_ends_after off l = (before, rest) →
  l = before ++ rest ∧ Forall (λ e, fend e < off) before ∧
  match rest with [] => True | e :: _ => off ≤ fend e end.
Proof.
  revert lo before rest. induction l as [|e l IH]; intros lo before rest Hlo Hr; cbn.
  { by intros [= <- <-]. }
  pose proof Hr as (? & ? & ? & Hr'). rewrite elem_end_fend by (done || lia).
  destruct (Z.leb_spec off (fend e)).
  { intros [= <- <-]. done. }
  destruct (split_ends_after off l) as [b r] eqn:E. intros [= <- <-].
  destruct (IH (fend e + 1) b r) as (-> & Hb & Hrest); [unfold fend in *; lia|done..|].
  split_and!; [done|by constructor|done].
Qed.

(** Merging keeps the bits, and accounts for the elements it erases. *)
Lemma merge_loop_spec l elem max ne nb fl elem' l' ne' nb' fl' :
  0 ≤ elem.(bitoff) → 0 < elem.(bitlen) → max = fend elem → max < 2 ^ 64 →
  runs elem.(bitoff) l → 0 ≤ ne < 2 ^ 64 → 0 ≤ nb < 2 ^ 64 →
  merge_loop elem max l ne nb fl = (elem', l', ne', nb', fl') →
  elem'.(bitoff) = elem.(bitoff) ∧ 0 < elem'.(bitlen) ∧ fend elem' < 2 ^ 64 ∧
  runs (fend elem' + 1) l' ∧
  (∀ k, in_runs (elem' :: l') k = in_runs (elem :: l) k) ∧
  nb' = u64 (nb + total (elem' :: l') - total (elem :: l)) ∧
  ∃ erased, l = erased ++ l' ∧ ne' = u64 (ne - Z.of_nat (length erased)) ∧
    fl' = (λ f, f ++ erased) <$> fl.
Proof.
  revert elem max ne nb fl. induction l as [|itr l IH]; intros elem max ne nb fl Ho Hl Hm Hm' Hr Hne Hnb; cbn.
  { intros [= <- <- <- <- <-]. rewrite !Z.add_simpl_r. split_and!; [done|done|lia|done..| |].
    - by unwrap.
    - exists []. split_and!; [done|cbn; unwrap; lia|]. destruct fl; cbn; [by rewrite app_nil_r|done]. }
  destruct Hr as (Hi & Hil & Hie & Hr). destruct (Z.ltb_spec max (bitoff itr)).
  { intros [= <- <- <- <- <-]. rewrite !Z.add_simpl_r. split_and!; [done|done|lia| |done| |].
    - split_and!; [lia|done..].
    - by unwrap.
    - exists []. split_and!; [done|cbn; unwrap; lia|]. destruct fl; cbn; [by rewrite app_nil_r|done]. }
  rewrite elem_end_fend by (done || lia). intros Hloop. unfold fend in *.
  apply IH in Hloop as (Hb & Hl' & He & Hr' & Hbits & Hn & er & -> & Hne' & Hfl); clear IH; cbn in *;
    [|lia|unwrap; lia|unwrap; lia|lia|eapply runs_mono; [|exact Hr]; lia|apply u64_range..].
  split_and!; [done..| | |].
  - intros k. rewrite Hbits, !in_runs_cons. unfold in_elem, fend. cbn. unwrap.
    rewrite orb_assoc. f_equal. zcases; done.
  - rewrite Hn, !total_cons. cbn. unwrap. u64_solve.
  - exists (itr :: er). split_and!; [done| |].
    + rewrite Hne'. cbn [length]. u64_solve.
    + rewrite Hfl. destruct fl as [f|]; cbn; [|done]. by rewrite <- app_assoc.
Qed.

(** The number of elements of a free list. *)
Definition spare (fl : free_list) : nat := length (default [] fl).

Lemma AllocateElement_spare alloc fl fl' :
  AllocateElement alloc fl = (true, fl') → 
  spare fl = (match fl with Some _ => S (spare fl') | None => spare fl' end) ∧
  (is_Some fl' ↔ is_Some fl).
Proof. destruct fl as [[|e f]|]; cbn; intros [= ? <-] || intros [= <-]; cbn; done. Qed.

Lemma runs_insert lo before elem rest :
  0 ≤ lo → runs lo before → after lo before ≤ elem.(bitoff) → 0 < elem.(bitlen) →
  fend elem < 2 ^ 64 → runs (fend elem + 1) rest → runs lo (before ++ elem :: rest).
Proof. intros. apply runs_app. done. Qed.

Lemma rle_ok_count l ne nb :
  runs 0 l → ne = u64 (Z.of_nat (length l)) → nb = u64 (total l) →
  rle_ok {| elems_ := l; num_elems_ := ne; num_bits_ := nb |}.
Proof.
  intros Hr -> ->. pose proof (runs_total 0 l ltac:(lia) Hr).
  split_and!; [done|cbn; by unwrap..].
Qed.

(** The new element, moved back to the start of the run it touches. *)
Lemma adjusted_elem (itr : RleBitmapElement) off max nb elem nb' :
  0 ≤ off < max → max < 2 ^ 64 → 0 ≤ itr.(bitoff) →
  (if itr.(bitoff) <=? off then
     ({| bitoff := itr.(bitoff); bitlen := (max - off) ⊞ (off ⊟ itr.(bitoff)) |},
      (nb ⊞ (max - off)) ⊞ (off ⊟ itr.(bitoff)))
   else ({| bitoff := off; bitlen := max - off |}, nb ⊞ (max - off))) = (elem, nb') →
  elem.(bitoff) = Z.min off itr.(bitoff) ∧ 0 < elem.(bitlen) ∧ fend elem = max ∧
  nb' = u64 (nb + elem.(bitlen)).
Proof.
  intros Ho Hm Hi. zcases; intros [= <- <-]; unfold fend; cbn; unwrap; split_and!; try lia.
  u64_solve.
Qed.

Lemma SetInternal_ok alloc b off max fl st b' fl' :
  rle_ok b → 0 ≤ off < max → max < 2 ^ 64 →
  SetInternal alloc b off max fl = (st, b', fl') →
  if fst (AllocateElement alloc fl) then
    st = ZX_OK ∧ rle_ok b' ∧
    (∀ k, rle_bit b' k = ((off <=? k) && (k <? max)) || rle_bit b k) ∧
    (is_Some fl → (spare fl' + length b'.(elems_) = spare fl + length b.(elems_))%nat)
  else st = ZX_ERR_NO_MEMORY ∧ b' = b ∧ fl' = fl.
Proof.
  intros (Hr & Hne & Hnb) Ho Hm. unfold SetInternal. ztest. unwrap. ztest.
  destruct (AllocateElement alloc fl) as [got f1] eqn:Ha. cbn [fst].
  destruct got; cbn [negb].
  2: { intros [= <- <- <-]. split_and!; [done..|]. destruct fl as [[|]|]; cbn in Ha; congruence. }
  apply AllocateElement_spare in Ha as [Hsp Hsome].
  destruct (split_ends_after off (elems_ b)) as [before rest] eqn:Hsplit.
  destruct (split_ends_after_spec 0 _ _ _ _ ltac:(lia) Hr Hsplit) as (Hl & Hbefore & Hrest).
  pose proof (after_le 0 before off ltac:(lia) Hbefore) as Hafter.
  rewrite Hl in Hr. apply runs_app in Hr as [Hrb Hrr].
  unfold rle_bit. rewrite Hl, Hne, Hnb, Hl, !length_app, !total_app.
  destruct rest as [|itr rest].
  - intros [= <- <- <-]. split_and!; [done| | |].
    + apply rle_ok_count.
      * apply runs_insert; cbn; unfold fend; cbn; done || lia.
      * rewrite length_app. cbn. f_equal. lia.
      * rewrite total_app, !total_cons. f_equal. cbn. lia.
    + intros k. cbn [elems_]. rewrite !in_runs_app, in_runs_cons, !in_runs_nil, !orb_false_r.
      rewrite orb_comm. f_equal. unfold in_elem, fend. cbn. f_equal. f_equal. lia.
    + intros Hf. apply Hsome in Hf as Hf'. cbn [elems_]. rewrite length_app. cbn.
      destruct fl; [|by destruct Hf]. lia.
  - pose proof Hrr as (Hi & Hil & Hie & Hrr'). cbn [bitoff bitlen].
    pose proof (after_ge _ _ Hrb).
    destruct (if bitoff itr <=? off then _ else _) as [elem nb] eqn:Hadj.
    apply adjusted_elem in Hadj as (Heo & Hel & Hee & Hnb'); [|lia..].
    destruct (merge_loop _ _ _ _ _ _) as [[[[elem' l'] ne'] nb''] fl''] eqn:Hmerge.
    intros [= <- <- <-].
    apply merge_loop_spec in Hmerge as (Hb & Hl' & He & Hr' & Hbits & Hn & er & Her & Hne' & Hfl);
      [|lia|done|by rewrite elem_end_fend by lia|rewrite elem_end_fend by lia; lia
       |split_and!; [lia|done..]|apply u64_range|rewrite Hnb'; apply u64_range].
    apply (f_equal length) in Her as Hlen. rewrite length_app in Hlen. cbn [length] in Hlen.
    split_and!; [done| | |].
    + apply rle_ok_count.
      * apply runs_insert; done || lia.
      * rewrite Hne', length_app. cbn [length]. u64_solve.
      * rewrite Hn, Hnb', total_app, (total_cons elem). u64_solve.
    + intros k. cbn [elems_]. rewrite !in_runs_app, Hbits, (in_runs_cons elem).
      rewrite in_runs_cons. unfold in_elem. rewrite Hee, Heo.
      destruct (in_runs before k), (in_runs rest k); rewrite ?orb_true_r; try done.
      rewrite !orb_false_r, !orb_false_l. unfold fend in *. zcases; done.
    + intros Hf. cbn [elems_]. rewrite length_app, Hfl. cbn [length].
      destruct fl as [f|]; [|by destruct Hf]. destruct f1 as [g|]; [|by apply Hsome in Hf as []].
      unfold spare in *. cbn in *. rewrite length_app. lia.
Qed.

(** ** [Clear] *)

(** The result of clearing the runs [l]: either every bit of [off, max) is gone
    and the counters follow, or no element could be allocated, which takes a run
    around the whole range, and nothing changed. *)
Definition cleared (alloc : bool) (lo off max : Z) (l : list RleBitmapElement) (ne nb : Z)
    (fl : free_list) (r : zx_status * list RleBitmapElement * Z * Z * free_list) : Prop :=
  let '(st, l', ne', nb', fl') := r in
  (st = ZX_OK ∧ runs lo l' ∧
   (∀ k, in_runs l' k = negb ((off <=? k) && (k <? max)) && in_runs l k) ∧
   nb' = u64 (nb + total l' - total l) ∧
   ne' = u64 (ne + Z.of_nat (length l') - Z.of_nat (length l)) ∧
   (is_Some fl → spare fl' + length l' = spare fl + length l)%nat) ∨
  (st = ZX_ERR_NO_MEMORY ∧ l' = l ∧ ne' = ne ∧ nb' = nb ∧ fl' = fl ∧
   fst (AllocateElement alloc fl) = false ∧
   ∃ e, e ∈ l ∧ e.(bitoff) < off ∧ max < fend e).

Lemma runs_in lo l e : runs lo l → e ∈ l → lo ≤ e.(bitoff).
Proof.
  revert lo. induction l as [|e' l IH]; intros lo; [by intros _ ?%elem_of_nil|].
  intros (? & ? & ? & Hr) [->|Hin]%elem_of_cons; [done|].
  specialize (IH _ Hr Hin). unfold fend in IH. lia.
Qed.

(** The list after an element that keeps its place. *)
Lemma cleared_cons alloc lo off max itr itr' l ne nb nb0 fl r :
  0 ≤ lo → off < max → runs lo (itr :: l) → 0 ≤ ne < 2 ^ 64 → 0 ≤ nb0 < 2 ^ 64 →
  itr'.(bitoff) = itr.(bitoff) → 0 < itr'.(bitlen) ≤ itr.(bitlen) →
  (itr' = itr ∧ nb = nb0 ∨ off ≤ fend itr ≤ max ∧ nb = nb0 ⊟ (itr.(bitlen) - itr'.(bitlen))) →
  (∀ k, in_elem itr' k = negb ((off <=? k) && (k <? max)) && in_elem itr k) →
  cleared alloc (fend itr + 1) off max l ne nb fl r →
  cleared alloc lo off max (itr :: l) ne nb0 fl
    (let '(st, l, ne, nb, fl) := r in (st, itr' :: l, ne, nb, fl)).
Proof.
  destruct r as [[[[st l'] ne'] nb'] fl']. intros Hlo Hlt Hr Hne Hnb Hb Hlen Hcase Hk Hc.
  pose proof Hr as (? & ? & ? & Hr'). cbn in Hc |- *.
  destruct Hc as [(-> & Hrl & Hkl & Hnb' & Hne' & Hsp)|(-> & -> & -> & -> & -> & Ha & e & Hin & He)].
  - left. split_and!; [done|..].
    + lia.
    + lia.
    + unfold fend in *. lia.
    + eapply runs_mono; [|exact Hrl]. unfold fend. lia.
    + intros k. by rewrite !in_runs_cons, Hk, Hkl, andb_orb_distrib_r.
    + rewrite !total_cons, Hnb'. destruct Hcase as [(-> & ->)|(? & ->)]; u64_solve.
    + rewrite Hne'. cbn [length]. u64_solve.
    + intros Hf. specialize (Hsp Hf). cbn [length]. lia.
  - pose proof (runs_in _ _ _ Hr' Hin). unfold fend in *.
    destruct Hcase as [(-> & ->)|(? & ->)]; [|lia].
    right. split_and!; try done. exists e. split; [by apply list_elem_of_further|done].
Qed.

Lemma cleared_none alloc lo off max l ne nb fl :
  runs lo l → 0 ≤ ne < 2 ^ 64 → 0 ≤ nb < 2 ^ 64 →
  (∀ k, in_runs l k = negb ((off <=? k) && (k <? max)) && in_runs l k) →
  cleared alloc lo off max l ne nb fl (ZX_OK, l, ne, nb, fl).
Proof. intros Hr Hne Hnb Hk. left. split_and!; [done..|by rewrite Z.add_simpl_r; unwrap|by rewrite Z.add_simpl_r; unwrap|done]. Qed.

Lemma clear_loop_spec alloc off max l lo ne nb fl :
  0 ≤ off < max → max < 2 ^ 64 → 0 ≤ lo → runs lo l → 0 ≤ ne < 2 ^ 64 → 0 ≤ nb < 2 ^ 64 →
  cleared alloc lo off max l ne nb fl (clear_loop alloc off max l ne nb fl).
Proof.
  intros Ho Hm. revert lo ne nb fl. induction l as [|itr l IH]; intros lo ne nb fl Hlo Hr Hne Hnb; cbn [clear_loop].
  { apply cleared_none; [done..|]. intros k. by rewrite andb_false_r. }
  pose proof Hr as (Hi & Hil & Hie & Hr'). rewrite elem_end_fend by (done || lia).
  destruct (Z.ltb_spec (fend itr) off).
  { eapply (cleared_cons _ _ _ _ itr itr); [lia|lia|done..|lia|by left| |].
    - intros k. unfold in_elem, fend in *. zcases; done.
    - apply IH; [unfold fend in *; lia|done..]. }
  destruct (Z.ltb_spec max (bitoff itr)).
  { apply cleared_none; [done..|]. intros k. destruct (Z.ltb_spec k max).
    - rewrite (runs_head _ _ _ _ Hr) by (unfold fend; lia). unfold in_elem. ztest.
      by rewrite andb_false_r.
    - by rewrite andb_false_r. }
  destruct (Z.ltb_spec (bitoff itr) off).
  - destruct (Z.leb_spec (fend itr) max).
    + unfold fend in *. unwrap.
      eapply (cleared_cons _ _ _ _ itr {| bitoff := bitoff itr; bitlen := off - bitoff itr |});
        unfold fend; cbn [bitoff bitlen];
        [lia|lia|done..|lia|right; split; [lia|done]| |].
      * intros k. unfold in_elem, fend in *. cbn [bitoff bitlen]. zcases; done.
      * apply IH; [unfold fend in *; lia|done|done|apply u64_range].
    + destruct (AllocateElement alloc fl) as [got f1] eqn:Ha. destruct got; cbn [negb].
      * apply AllocateElement_spare in Ha as [Hsp Hsome].
        left. unwrap. unfold fend in *. split_and!; [done|cbn; unfold fend; cbn; split_and!| | | |]; try lia.
        -- eapply runs_mono; [|exact Hr']. lia.
        -- intros k. rewrite !in_runs_cons, andb_orb_distrib_r.
           destruct (Z.ltb_spec k max).
           ++ rewrite (runs_below _ _ _ Hr') by lia. unfold in_elem, fend. cbn. zcases; done.
           ++ rewrite andb_false_r. unfold in_elem, fend. cbn. rewrite orb_assoc. f_equal. zcases; done.
        -- rewrite !total_cons. cbn. u64_solve.
        -- cbn [length]. u64_solve.
        -- intros Hf. destruct fl; [|by destruct Hf]. cbn [length]. lia.
      * right. split_and!; [done..| |by rewrite Ha|].
        -- destruct fl as [[|]|]; cbn in Ha; congruence.
        -- exists itr. split; [by apply list_elem_of_here|lia].
  - destruct (Z.ltb_spec max (fend itr)).
    + left. unwrap. unfold fend in *. split_and!; [done|cbn; unfold fend; cbn; split_and!| | | |]; try lia.
      * eapply runs_mono; [|exact Hr']. lia.
      * intros k. rewrite !in_runs_cons, andb_orb_distrib_r. destruct (Z.ltb_spec k max).
        -- rewrite (runs_below _ _ _ Hr') by lia. unfold in_elem, fend. cbn. zcases; done.
        -- rewrite andb_false_r. cbn. f_equal. unfold in_elem, fend. cbn. zcases; done.
      * rewrite !total_cons. cbn. u64_solve.
      * cbn [length]. u64_solve.
      * intros Hf. cbn [length]. lia.
    + specialize (IH (fend itr + 1) (ne ⊟ 1) (nb ⊟ bitlen itr) (ReleaseElement fl itr)
        ltac:(unfold fend in *; lia) Hr' ltac:(apply u64_range) ltac:(apply u64_range)).
      destruct (clear_loop _ _ _ _ _ _ _) as [[[[st l'] ne'] nb'] fl'].
      destruct IH as [(-> & Hrl & Hk & Hnb' & Hne' & Hsp)|(_ & _ & _ & _ & _ & _ & e & Hin & He & _)].
      * left. split_and!; [done|..].
        -- eapply runs_mono; [|exact Hrl]. unfold fend. lia.
        -- intros k. rewrite Hk, in_runs_cons. unfold in_elem. zcases; done.
        -- rewrite Hnb', total_cons. u64_solve.
        -- rewrite Hne'. cbn [length]. u64_solve.
        -- intros Hf. destruct fl as [f|]; [|by destruct Hf]. cbn in Hsp.
           specialize (Hsp ltac:(by eexists)). unfold spare in *. cbn in *. rewrite length_app in Hsp.
           cbn in Hsp. lia.
      * pose proof (runs_in _ _ _ Hr' Hin). unfold fend in *. lia.
Qed.

Lemma ClearInternal_ok alloc b off max fl st b' fl' :
  rle_ok b → 0 ≤ off < max → max < 2 ^ 64 →
  ClearInternal alloc b off max fl = (st, b', fl') →
  (st = ZX_OK ∧ rle_ok b' ∧
   (∀ k, rle_bit b' k = negb ((off <=? k) && (k <? max)) && rle_bit b k) ∧
   (is_Some fl → (spare fl' + length b'.(elems_) = spare fl + length b.(elems_))%nat)) ∨
  (st = ZX_ERR_NO_MEMORY ∧ b' = b ∧ fl' = fl ∧ fst (AllocateElement alloc fl) = false ∧
   ∃ e, e ∈ b.(elems_) ∧ e.(bitoff) < off ∧ max < fend e).
Proof.
  intros (Hr & Hne & Hnb) Ho Hm. unfold ClearInternal. ztest. unwrap. ztest.
  pose proof (runs_total _ _ (Z.le_refl 0) Hr).
  pose proof (clear_loop_spec alloc off max (elems_ b) 0 (num_elems_ b) (num_bits_ b) fl
    Ho Hm (Z.le_refl 0) Hr ltac:(lia) ltac:(lia)) as Hc.
  destruct (clear_loop _ _ _ _ _ _ _) as [[[[s l] ne] nb] f]. intros [= <- <- <-].
  destruct Hc as [(-> & Hrl & Hk & Hnb' & Hne' & Hsp)|(-> & -> & -> & -> & -> & Ha & He)].
  - left. split_and!; [done| |done..].
    apply rle_ok_count; [done|rewrite Hne', Hne; f_equal; lia|rewrite Hnb', Hnb; f_equal; lia].
  - right. split_and!; try done. by destruct b.
Qed.

(** ** Queries *)

Lemma get_loop_spec l lo off :
  0 ≤ lo → 0 ≤ off → runs lo l →
  off ≤ get_loop l off ∧ all_bits (in_runs l) off (get_loop l off) true ∧
  in_runs l (get_loop l off) = false.
Proof.
  revert lo. induction l as [|e l IH]; intros lo Hlo Ho Hr; cbn.
  { split_and!; [lia| |done]. intros k Hk. lia. }
  pose proof Hr as (Hi & Hil & Hie & Hr'). rewrite elem_end_fend by (done || lia).
  destruct (Z.ltb_spec off (bitoff e)); [|destruct (Z.ltb_spec off (fend e))].
  - split_and!; [lia|intros k Hk; lia|].
    rewrite (runs_head _ _ _ _ Hr) by (unfold fend; lia). unfold in_elem. by ztest.
  - split_and!; [lia| |].
    + intros k Hk. rewrite (runs_head _ _ _ _ Hr) by lia. unfold in_elem. by ztest.
    + rewrite (runs_head _ _ _ _ Hr) by lia. unfold in_elem. ztest. apply andb_false_r.
  - destruct (IH (fend e + 1)) as (Hge & Hall & Hn); [unfold fend in *; lia|done..|].
    split_and!; [done| |].
    + intros k Hk. rewrite in_runs_cons, Hall by lia. apply orb_true_r.
    + rewrite in_runs_cons, Hn. unfold in_elem. ztest. by rewrite andb_false_r.
Qed.

Lemma rle_Get_ok b off max :
  rle_ok b → 0 ≤ off ≤ max →
  ∃ r x, Get b off max = Returns (r, x) ∧
    (r = true ↔ all_bits (rle_bit b) off max true) ∧
    (r = true → x = max) ∧
    (r = false → off ≤ x < max ∧ rle_bit b x = false ∧ all_bits (rle_bit b) off x true).
Proof.
  intros (Hr & _) Ho. destruct (get_loop_spec (elems_ b) 0 off) as (Hge & Hall & Hn); [lia|lia|done|].
  unfold Get, rle_bit. set (x := get_loop (elems_ b) off) in *. do 2 eexists. split; [done|].
  destruct (Z.ltb_spec max x).
  - rewrite Z.eqb_refl. split_and!; try done. split; [|done]. intros _ k Hk. apply Hall. lia.
  - destruct (Z.eqb_spec x max) as [E|].
    + rewrite E in *. by split_and!.
    + split_and!; [|done|intros _; split_and!; [lia..|done|done]].
      split; [done|]. intros Ha. rewrite Ha in Hn by lia. done.
Qed.

(** [Find]: the loop either decides, or reaches the end of the list with nothing
    set from [off'] on and no run in between. *)
Definition first_run (v : bool) (hi len : Z) (m : Z → bool) (lo : Z) (r : zx_status * Z) : Prop :=
  (r.1 = ZX_OK ∧ is_run m v lo hi len r.2 ∧ ∀ s, is_run m v lo hi len s → r.2 ≤ s) ∨
  (r.1 = ZX_ERR_NO_RESOURCES ∧ r.2 = hi ∧ ∀ s, ¬ is_run m v lo hi len s).

Definition find_result (v : bool) (hi len : Z) (l : list RleBitmapElement) (off : Z) : zx_status * Z :=
  match find_loop v l off hi len with
  | inr r => r
  | inl off => if negb v && (len <=? hi ⊟ off) then (ZX_OK, off) else (ZX_ERR_NO_RESOURCES, hi)
  end.

Section find.
Context (v : bool) (hi len : Z).
Hypothesis (Hhi : hi < 2 ^ 64) (Hlen : 0 < len < 2 ^ 64).

(** No run starts before [off'], so that the search can go on from there. *)
Lemma first_run_skip m m' off off' r :
  off ≤ off' → (∀ k, off' ≤ k → m k = m' k) →
  (∀ s, is_run m v off hi len s → off' ≤ s) →
  first_run v hi len m' off' r → first_run v hi len m off r.
Proof using Hlen.
  intros Hle Hm Hs. assert (Hiff : ∀ s, is_run m' v off' hi len s ↔ is_run m v off hi len s).
  { intros s. unfold is_run, all_bits. split.
    - intros (? & ? & Ha). split_and!; [lia..|]. intros k Hk. rewrite Hm by lia. by apply Ha.
    - intros Hr. pose proof (Hs s Hr). destruct Hr as (? & ? & Ha). split_and!; [lia..|].
      intros k Hk. rewrite <- Hm by lia. by apply Ha. }
  intros [(? & Hr & Hmin)|(? & ? & Hno)].
  - left. split_and!; [done|by apply Hiff|]. intros s Hr'. apply Hmin. by apply Hiff.
  - right. split_and!; [done..|]. intros s Hr'. by apply (Hno s), Hiff.
Qed.

(** A run of the list [e :: l] that fits neither in [e] nor before it starts
    after [e]. *)
Lemma run_after_head lo e l off :
  runs lo (e :: l) →
  (v = true → Z.min hi (fend e) - Z.max off e.(bitoff) < len) →
  (v = false → e.(bitoff) - off < len) →
  ∀ s, is_run (in_runs (e :: l)) v off hi len s → fend e ≤ s.
Proof using Hlen.
  intros Hr Ht Hf s (Hs & Hsl & Ha). destruct (Z.le_gt_cases (fend e) s); [done|exfalso].
  pose proof Hr as (_ & ? & _). pose proof (runs_head _ _ _ s Hr) as Hhead.
  pose proof (Ha s ltac:(lia)) as Hb. rewrite Hhead in Hb by lia. unfold in_elem in Hb.
  destruct v.
  - specialize (Ht eq_refl). apply andb_true_iff in Hb as [?%Z.leb_le _].
    destruct (Z.le_gt_cases (s + len) (fend e)); [lia|].
    pose proof (Ha (fend e) ltac:(lia)) as He. rewrite (runs_head _ _ _ _ Hr) in He by lia.
    unfold in_elem in He. by rewrite Z.ltb_irrefl, andb_false_r in He.
  - specialize (Hf eq_refl). revert Hb. ztest. rewrite andb_true_r. intros ?%Z.leb_gt.
    destruct (Z.le_gt_cases (s + len) (bitoff e)); [lia|].
    pose proof (Ha (bitoff e) ltac:(lia)) as He. unfold fend in *.
    rewrite (runs_head _ _ _ _ Hr) in He by (unfold fend; lia).
    revert He. unfold in_elem, fend. by ztest.
Qed.

Lemma find_result_ok l lo off :
  0 ≤ lo → 0 ≤ off ≤ hi → runs lo l → first_run v hi len (in_runs l) off (find_result v hi len l off).
Proof using Hhi Hlen.
  revert lo off. induction l as [|e l IH]; intros lo off Hlo Ho Hr; unfold find_result; cbn [find_loop].
  { unwrap. destruct v; cbn; zcases; [| |right; split_and!; [done..|intros s (? & ? & _); lia]].
    - right. split_and!; [done..|]. intros s (? & ? & Ha). specialize (Ha s ltac:(lia)).
      by rewrite in_runs_nil in Ha.
    - left. cbn. split_and!; [done|split_and!; [lia..|by intros k]|]. by intros s (? & _). }
  pose proof Hr as (Hi & Hil & Hie & Hr'). rewrite elem_end_fend by (done || lia).
  assert (Hafter : ∀ k, fend e ≤ k → in_runs (e :: l) k = in_runs l k).
  { intros k Hk. rewrite in_runs_cons. unfold in_elem. ztest. by rewrite andb_false_r. }
  destruct (Z.leb_spec (fend e) off).
  { eapply first_run_skip; [exact (Z.le_refl off)|auto with lia|by intros s (? & _)|].
    apply (IH (fend e + 1)); [unfold fend in *; lia|lia|done]. }
  unwrap. destruct (Z.ltb_spec (hi - off) len).
  { right. split_and!; [done..|]. intros s (? & ? & _). lia. }
  pose proof (run_after_head lo e l off Hr) as Hskip.
  assert (Hgo : (v = true → Z.min hi (fend e) - Z.max off (bitoff e) < len) →
      (v = false → bitoff e - off < len) →
      first_run v hi len (in_runs (e :: l)) off
        (if hi <? fend e then (ZX_ERR_NO_RESOURCES, hi) else find_result v hi len l (fend e))).
  { intros H1 H2. specialize (Hskip H1 H2). destruct (Z.ltb_spec hi (fend e)).
    - right. split_and!; [done..|]. intros s Hs. pose proof (Hskip s Hs).
      destruct Hs as (? & ? & _). lia.
    - eapply first_run_skip; [|exact Hafter|exact Hskip|]; [lia|].
      apply (IH (fend e + 1)); [unfold fend in *; lia..|done]. }
  assert (Hpush : ∀ c : bool, match (if c then inr (ZX_ERR_NO_RESOURCES, hi)
      else find_loop v l (fend e) hi len) with
    | inr r => r
    | inl off => if negb v && (len <=? hi ⊟ off) then (ZX_OK, off) else (ZX_ERR_NO_RESOURCES, hi)
    end = if c then (ZX_ERR_NO_RESOURCES, hi) else find_result v hi len l (fend e))
    by (by intros []).
  assert (bitoff e < 2 ^ 64) by (unfold fend in *; lia).
  destruct v; cbn [andb negb] in Hpush |- *.
  - destruct (Z.ltb_spec (Z.max off (bitoff e)) (Z.min hi (fend e))); cbn [andb];
      [unwrap; destruct (Z.leb_spec len (Z.min hi (fend e) - Z.max off (bitoff e)))|];
      [|rewrite Hpush; apply Hgo; done || lia..].
    left. cbn. split_and!; [done|split_and!; [lia..|]|].
    + intros k Hk. rewrite (runs_head _ _ _ _ Hr) by lia. unfold in_elem. by ztest.
    + intros s (? & ? & Ha). specialize (Ha s ltac:(lia)).
      destruct (Z.le_gt_cases s (fend e)); [|lia]. rewrite (runs_head _ _ _ _ Hr) in Ha by lia.
      apply andb_true_iff in Ha as [?%Z.leb_le _]. lia.
  - destruct (Z.ltb_spec off (bitoff e)); cbn [andb];
      [unwrap; destruct (Z.leb_spec len (bitoff e - off))|];
      [|rewrite Hpush; apply Hgo; done || lia..].
    left. cbn. split_and!; [done|split_and!; [lia..|]|by intros s (? & _)].
    intros k Hk. rewrite (runs_head _ _ _ _ Hr) by (unfold fend; lia). unfold in_elem. by ztest.
Qed.

End find.

Lemma rle_Find_ok b v lo hi len o :
  rle_ok b → 0 ≤ lo ≤ hi → hi < 2 ^ 64 → 0 < len < 2 ^ 64 →
  ∃ st out, Find b v lo hi len (Some o) = Returns (st, Some out) ∧
    first_run v hi len (rle_bit b) lo (st, out).
Proof.
  intros (Hr & _) Hlo Hhi Hlen.
  pose proof (find_result_ok v hi len Hhi Hlen (elems_ b) 0 lo ltac:(lia) Hlo Hr) as H.
  unfold find_result in H. unfold Find. destruct (find_loop _ _ _ _ _) as [off|[st x]].
  - destruct (_ && _); do 2 eexists; (split; [done|exact H]).
  - do 2 eexists. split; [done|exact H].
Qed.

(** ** [RleBitmap] implements [Bitmap] *)

#[export] Instance rle_bitmap (alloc : bool) : Bitmap RleBitmap := {|
  Bitmap.Find := Find;
  Bitmap.Get := Get;
  Bitmap.Set_ := Set_ alloc;
  Bitmap.Clear := Clear alloc;
  Bitmap.ClearAll := ClearAll;
|}.

Lemma empty_rle_ok : rle_ok empty_rle.
Proof. done. Qed.

Lemma rle_Set_ok alloc b off max :
  rle_ok b → 0 ≤ off ≤ max → max < 2 ^ 64 →
  ∃ st b', Set_ alloc b off max = Returns (st, b') ∧ rle_ok b' ∧
    (st = ZX_OK → ∀ k, rle_bit b' k = ((off <=? k) && (k <? max)) || rle_bit b k) ∧
    (st ≠ ZX_OK → alloc = false ∧ b' = b).
Proof.
  intros Hok Ho Hm. unfold Set_. destruct (SetInternal _ _ _ _ _) as [[st b'] fl] eqn:E.
  exists st, b'. split; [done|]. destruct (Z.eq_dec off max) as [->|].
  - unfold SetInternal in E. revert E. rewrite Z.sub_diag. ztest. cbn. intros [= <- <- <-].
    split_and!; [done| |done]. intros _ k. zcases; done.
  - apply SetInternal_ok in E; [|done|lia|done]. cbn in E.
    destruct alloc; [destruct E as (-> & ? & ? & _)|destruct E as (-> & -> & _)]; by split_and!.
Qed.

Lemma rle_Clear_ok alloc b off max :
  rle_ok b → 0 ≤ off ≤ max → max < 2 ^ 64 →
  ∃ st b', Clear alloc b off max = Returns (st, b') ∧ rle_ok b' ∧
    (st = ZX_OK → ∀ k, rle_bit b' k = negb ((off <=? k) && (k <? max)) && rle_bit b k) ∧
    (st ≠ ZX_OK → alloc = false ∧ b' = b).
Proof.
  intros Hok Ho Hm. unfold Clear. destruct (ClearInternal _ _ _ _ _) as [[st b'] fl] eqn:E.
  exists st, b'. split; [done|]. destruct (Z.eq_dec off max) as [->|].
  - unfold ClearInternal in E. revert E. rewrite Z.sub_diag. ztest. cbn. intros [= <- <- <-].
    split_and!; [done| |done]. intros _ k. zcases; done.
  - apply ClearInternal_ok in E; [|done|lia|done].
    destruct E as [(-> & ? & ? & _)|(-> & -> & _ & ? & _)]; by split_and!.
Qed.

#[export] Instance rle_bitmap_laws alloc : @BitmapLaws RleBitmap (rle_bitmap alloc).
Proof.
  refine (@Build_BitmapLaws RleBitmap (rle_bitmap alloc) rle_ok rle_bit (λ _, 2 ^ 64 - 1)
    (alloc = false) _ _ _ _ _ _).
  - intros b _. lia.
  - intros b lo hi Hok ? ?. by apply rle_Get_ok.
  - intros b lo hi Hok ? ?. destruct (rle_Set_ok alloc b lo hi) as (st & b' & ? & ? & ? & Hf); [done|lia..|].
    exists st, b'. split_and!; [done..|auto|]. intros Hst. by destruct (Hf Hst) as [? ->].
  - intros b lo hi Hok ? ?. destruct (rle_Clear_ok alloc b lo hi) as (st & b' & ? & ? & ? & Hf); [done|lia..|].
    exists st, b'. split_and!; [done..|auto|]. intros Hst. by destruct (Hf Hst) as [? ->].
  - intros b Hok. exists empty_rle. by split_and!.
  - intros b v lo hi len o ? ? ? ?.
    destruct (rle_Find_ok b v lo hi len o) as (st & out & ? & Hr); [done|lia..|].
    exists st, (Some out). split; [done|]. destruct Hr as [(? & ? & ?)|(? & _ & ?)]; eauto 6.
Defined.

(** ** Properties *)

(** C29. [RleBitmap] refines the array of booleans: any sequence of [Set],
    [Clear], [ClearAll] and [Get] below 2^64-1 returns with the results of that
    array and keeps the invariant, so that the runs stay ordered and apart and
    the counters exact; an update fails only when an allocation does, and then
    changes nothing. *)
Theorem rle_bitmap_refines alloc b os :
  rle_ok b → Forall (op_in (2 ^ 64 - 1)) os →
  ∃ rs b', run_ops (H := rle_bitmap alloc) b os = Returns (rs, b') ∧ rle_ok b' ∧
    spec_run (2 ^ 64 - 1) (alloc = false) (rle_bit b) os rs (rle_bit b').
Proof.
  intros Hok Hos.
  destruct (@run_ops_refines _ _ (rle_bitmap_laws alloc) os b Hok Hos) as (rs & b' & ? & ? & _ & ?).
  by exists rs, b'.
Qed.

Lemma rle_bitmap_refines_witness :
  let os := [OpSet 3 9; OpSet 20 30; OpSet 9 20; OpGet 3 30; OpClear 5 6; OpGet 3 30] in
  ∃ rs b', run_ops (H := rle_bitmap true) empty_rle os = Returns (rs, b') ∧ rle_ok b' ∧
    spec_run (2 ^ 64 - 1) (true = false) (rle_bit empty_rle) os rs (rle_bit b').
Proof.
  apply (rle_bitmap_refines true empty_rle); [apply empty_rle_ok|]. repeat constructor; cbn; lia.
Defined.

Definition example_rle : RleBitmap := {|
  elems_ := [{| bitoff := 3; bitlen := 4 |}; {| bitoff := 10; bitlen := 6 |}];
  num_elems_ := 2; num_bits_ := 10 |}.

Lemma example_rle_ok : rle_ok example_rle.
Proof. unfold rle_ok, example_rle; cbn; unfold fend; cbn. split_and!; done || lia. Qed.

(** [RleBitmap::Find] returns the start of the first run of [len] bits of
    value [v] in [lo, hi) with [ZX_OK], or, exactly when there is none,
    [ZX_ERR_NO_RESOURCES] with [*out = hi]. *)
Theorem rle_find_first b v lo hi len o :
  rle_ok b → 0 ≤ lo ≤ hi → hi < 2 ^ 64 → 0 < len < 2 ^ 64 →
  ∃ st out, Find b v lo hi len (Some o) = Returns (st, Some out) ∧
    ((st = ZX_OK ∧ is_run (rle_bit b) v lo hi len out ∧
        ∀ s, is_run (rle_bit b) v lo hi len s → out ≤ s) ∨
     (st = ZX_ERR_NO_RESOURCES ∧ out = hi ∧ ∀ s, ¬ is_run (rle_bit b) v lo hi len s)).
Proof. apply rle_Find_ok. Qed.

(** With a free list, an update takes at most one element from it, fails only
    when it needs one and the list is empty, and no list element is lost: the free
    list and the bitmap together hold as many elements after as before. *)
Theorem rle_no_alloc b off max f st b' fl' (set : bool) :
  rle_ok b → 0 ≤ off < max → max < 2 ^ 64 →
  (if set then SetNoAlloc b off max (Some f) else ClearNoAlloc b off max (Some f)) = (st, b', fl') →
  (st = ZX_OK ∧ rle_ok b' ∧
   (spare fl' + length b'.(elems_) = length f + length b.(elems_))%nat) ∨
  (st = ZX_ERR_NO_MEMORY ∧ f = [] ∧ b' = b ∧ fl' = Some f).
Proof.
  intros Hok Ho Hm. destruct set; cbn [SetNoAlloc ClearNoAlloc]; intros E.
  - apply SetInternal_ok in E; [|done..]. destruct f as [|e f]; cbn in E.
    + right. naive_solver.
    + left. destruct E as (? & ? & _ & Hsp). split_and!; [done..|]. by apply Hsp.
  - apply ClearInternal_ok in E; [|done..].
    destruct E as [(? & ? & _ & Hsp)|(? & ? & ? & Ha & _)].
    + left. split_and!; [done..|]. by apply Hsp.
    + right. destruct f; [by split_and!|done].
Qed.

