(* ===== verification/IdAllocator.v ===== *)
(** * [id_allocator::IdAllocator] (ulib/id_allocator/id_allocator.cpp)

    Ids handed out from a 64-ary tree of bitmaps: level 0 has a bit per id, and a
    bit of a higher level is set when its 64 children are.  The operations are
    modelled over [RawBitmap]; [tree] is the abstraction of the eleven bitmaps and
    [ida_ok] the invariant. *)

From S2P Require Import Prelude Bitmap RawBitmap.

(** ** Data *)

Definition kMaxId : Z := SIZE_MAX.
Definition kLevelBits : Z := 6.
Definition kLevelMask : Z := Z.shiftl 1 kLevelBits - 1.
Definition kMaxChildren : Z := Z.shiftl 1 kLevelBits.
Definition kMaxLevels : Z := 11.

Record IdAllocator := {
  levels_ : list RawBitmapBase;
  id_count_ : Z;
  level_count_ : Z;
}.

Definition with_levels (s : IdAllocator) (levels : list RawBitmapBase) : IdAllocator :=
  {| levels_ := levels; id_count_ := s.(id_count_); level_count_ := s.(level_count_) |}.

(** ** Sizes *)

Fixpoint log64_loop (fuel : nat) (max i id_count : Z) : outcome Z :=
  match fuel with
  | O => Diverges
  | S fuel =>
    if max <? id_count then log64_loop fuel (u64 (Z.shiftl max kLevelBits)) (i + 1) id_count
    else Returns i
  end.

(** Ten rounds reach 2^60 ids.  Beyond, the shift of [max] overflows to 0 and the
    loop never ends ([log64_diverges]). *)
Definition log64_int8_ceil (id_count : Z) : outcome Z :=
  log64_loop 11 (Z.shiftl 1 kLevelBits) 1 id_count.

Definition GetLevels (id_count : Z) : outcome Z := log64_int8_ceil id_count.

Definition LevelBitCount (s : IdAllocator) (level : Z) : Z :=
  if negb (level =? 0) then
    let pad := u64 (Z.shiftl 1 (kLevelBits * level)) ⊟ 1 in
    Z.shiftr (s.(id_count_) ⊞ pad) (kLevelBits * level)
  else s.(id_count_).

Definition LevelBitCountRounded (s : IdAllocator) (level : Z) : Z :=
  round_up (LevelBitCount s level) kMaxChildren.

(** ** Bits of a level *)

Definition SetBitAt (s : IdAllocator) (level bit : Z) : outcome (bool * IdAllocator) :=
  b ← array_get s.(levels_) level;
  _ ← ZX_ASSERT (bit <? b.(size_));
  r ← SetOne b bit;
  let b := snd r in
  levels ← array_set s.(levels_) level b;
  let bit := Z.land bit (not64 kLevelMask) in
  g ← RawBitmap.Get b bit (bit ⊞ kMaxChildren);
  Returns (fst g, with_levels s levels).

Definition ClearBitAt (s : IdAllocator) (level bit : Z) : outcome IdAllocator :=
  b ← array_get s.(levels_) level;
  _ ← ZX_ASSERT (bit <? b.(size_));
  r ← ClearOne b bit;
  levels ← array_set s.(levels_) level (snd r);
  Returns (with_levels s levels).

Definition FindFirstUnset (s : IdAllocator) (level base_index : Z) : outcome Z :=
  _ ← ZX_ASSERT (Z.land base_index kLevelMask =? 0);
  b ← array_get s.(levels_) level;
  g ← RawBitmap.Get b base_index (base_index ⊞ kMaxChildren);
  Returns (if negb (fst g) then snd g else kMaxId).

(** The loop of [Find] over the levels below [n]. *)
Fixpoint find_loop (n : nat) (s : IdAllocator) (id : Z) : outcome Z :=
  match n with
  | O => Returns id
  | S n =>
    let level := Z.of_nat n in
    let id := u64 (Z.shiftl id kLevelBits) in
    index ← FindFirstUnset s level id;
    if index =? kMaxId then
      _ ← ZX_ASSERT (level =? s.(level_count_) - 1);
      Returns kMaxId
    else find_loop n s (Z.lor id index)
  end.

Definition Find (s : IdAllocator) : outcome Z := find_loop (Z.to_nat s.(level_count_)) s 0.

(** ** Marking *)

(** [n] levels remain: [level_count_ - level]. *)
Fixpoint mark_busy_loop (n : nat) (s : IdAllocator) (index level : Z) : outcome IdAllocator :=
  match n with
  | O => Returns s
  | S n =>
    r ← SetBitAt s level index;
    let '(all_children_busy, s) := r in
    if negb all_children_busy then Returns s
    else mark_busy_loop n s (Z.shiftr index kLevelBits) (level + 1)
  end.

Definition MarkBusyInternal (s : IdAllocator) (id level : Z) : outcome IdAllocator :=
  _ ← ZX_ASSERT (level <? s.(level_count_));
  mark_busy_loop (Z.to_nat (s.(level_count_) - level)) s id level.

Definition MarkBusy (s : IdAllocator) (id : Z) : outcome IdAllocator := MarkBusyInternal s id 0.

Fixpoint mark_free_loop (n : nat) (s : IdAllocator) (index level : Z) : outcome IdAllocator :=
  match n with
  | O => Returns s
  | S n =>
    b ← array_get s.(levels_) level;
    g ← (if negb (level =? 0) then GetOne b index else Returns true);
    if negb g then Returns s
    else
      s ← ClearBitAt s level index;
      mark_free_loop n s (Z.shiftr index kLevelBits) (level + 1)
  end.

Definition MarkFreeInternal (s : IdAllocator) (id level : Z) : outcome IdAllocator :=
  mark_free_loop (Z.to_nat (s.(level_count_) - level)) s id level.

Definition MarkFree (s : IdAllocator) (id : Z) : outcome IdAllocator := MarkFreeInternal s id 0.

Definition MarkUnallocatable (s : IdAllocator) (level : Z) : outcome IdAllocator :=
  let start := LevelBitCount s level in
  let end_ := LevelBitCountRounded s level in
  for_range start end_ (λ i s, MarkBusyInternal s i level) s.

Definition MarkAllAllocatable (s : IdAllocator) (level : Z) : outcome IdAllocator :=
  let start := LevelBitCount s level in
  let end_ := LevelBitCountRounded s level in
  for_range start end_ (λ i s, MarkFreeInternal s i level) s.

(** ** Ids *)

Definition IsBusy (s : IdAllocator) (id : Z) : outcome bool :=
  if s.(id_count_) <=? id then Returns false
  else b ← array_get s.(levels_) 0; GetOne b id.

(** The id is [None] where [*out] is not written. *)
Definition Allocate (s : IdAllocator) : outcome (zx_status * option Z * IdAllocator) :=
  id ← Find s;
  if s.(id_count_) <=? id then Returns (ZX_ERR_NO_RESOURCES, None, s)
  else
    _ ← ZX_ASSERT (id <? s.(id_count_));
    busy ← IsBusy s id;
    _ ← ZX_ASSERT (negb busy);
    s ← MarkBusy s id;
    Returns (ZX_OK, Some id, s).

Definition MarkAllocated (s : IdAllocator) (id : Z) : outcome (zx_status * IdAllocator) :=
  if s.(id_count_) <=? id then Returns (ZX_ERR_OUT_OF_RANGE, s)
  else
    busy ← IsBusy s id;
    if (busy : bool) then Returns (ZX_ERR_BAD_STATE, s)
    else s ← MarkBusy s id; Returns (ZX_OK, s).

Definition Free (s : IdAllocator) (id : Z) : outcome (zx_status * IdAllocator) :=
  if s.(id_count_) <=? id then Returns (ZX_ERR_OUT_OF_RANGE, s)
  else
    busy ← IsBusy s id;
    if negb busy then Returns (ZX_ERR_BAD_STATE, s)
    else s ← MarkFree s id; Returns (ZX_OK, s).

(** ** Resizing

    [st level] is the storage of the bitmap of a level. *)

Section resizing.
Context (st : Z → Storage).

Fixpoint grow_loop (n : nat) (s : IdAllocator) (level : Z) : outcome (zx_status * IdAllocator) :=
  match n with
  | O => Returns (ZX_OK, s)
  | S n =>
    let lsize := LevelBitCountRounded s level in
    b ← array_get s.(levels_) level;
    r ← (if b.(size_) =? 0 then
           r ← RawBitmap.Reset (st level) b lsize;
           let '(status, b) := r in
           full ← (if 0 <? level then
                     below ← array_get s.(levels_) (level - 1);
                     g ← RawBitmap.Get below 0 kMaxChildren; Returns (fst g)
                   else Returns false);
           if (full : bool) then r ← SetOne b 0; Returns (status, snd r)
           else Returns (status, b)
         else RawBitmap.Grow (st level) b lsize);
    let '(status, b) := r in
    levels ← array_set s.(levels_) level b;
    let s := with_levels s levels in
    if failed status then Returns (status, s)
    else
      s ← MarkUnallocatable s level;
      grow_loop n s (level + 1)
  end.

Definition GrowInternal (s : IdAllocator) (id_count : Z) : outcome (zx_status * IdAllocator) :=
  level_count ← GetLevels id_count;
  let s := {| levels_ := s.(levels_); id_count_ := id_count; level_count_ := level_count |} in
  grow_loop (Z.to_nat level_count) s 0.

Definition Grow (s : IdAllocator) (id_count : Z) : outcome (zx_status * IdAllocator) :=
  let old_id_count := s.(id_count_) in
  if id_count =? s.(id_count_) then Returns (ZX_OK, s)
  else if id_count <? s.(id_count_) then Returns (ZX_ERR_INVALID_ARGS, s)
  else if kMaxId <=? id_count then Returns (ZX_ERR_OUT_OF_RANGE, s)
  else
    s ← for_range 0 s.(level_count_) (λ level s, MarkAllAllocatable s level) s;
    r ← GrowInternal s id_count;
    let '(status, s) := r in
    if failed status then
      r ← GrowInternal s old_id_count;
      _ ← ZX_ASSERT (negb (failed (fst r)));
      Returns (status, snd r)
    else Returns (status, s).

Definition shrink_level (level : Z) (s : IdAllocator) : outcome IdAllocator :=
  b ← array_get s.(levels_) level;
  if s.(level_count_) <=? level then
    r ← RawBitmap.Reset (st level) b 0;
    _ ← ZX_ASSERT (negb (failed (fst r)));
    levels ← array_set s.(levels_) level (snd r);
    Returns (with_levels s levels)
  else
    let lsize := LevelBitCountRounded s level in
    let '(status, b) := RawBitmap.Shrink b lsize in
    _ ← ZX_ASSERT (negb (failed status));
    levels ← array_set s.(levels_) level b;
    MarkUnallocatable (with_levels s levels) level.

Definition Shrink (s : IdAllocator) (id_count : Z) : outcome (zx_status * IdAllocator) :=
  if id_count =? s.(id_count_) then Returns (ZX_OK, s)
  else if s.(id_count_) <? id_count then Returns (ZX_ERR_OUT_OF_RANGE, s)
  else
    old_level_count ← GetLevels s.(id_count_);
    level_count ← GetLevels id_count;
    let s := {| levels_ := s.(levels_); id_count_ := id_count; level_count_ := level_count |} in
    s ← for_range 0 old_level_count shrink_level s;
    Returns (ZX_OK, s).

Definition reset_level (level : Z) (s : IdAllocator) : outcome IdAllocator :=
  b ← array_get s.(levels_) level;
  r ← RawBitmap.Reset (st level) b b.(size_);
  _ ← ZX_ASSERT (negb (failed (fst r)));
  levels ← array_set s.(levels_) level (snd r);
  MarkUnallocatable (with_levels s levels) level.

Definition Reset (s : IdAllocator) (id_count : Z) : outcome (zx_status * IdAllocator) :=
  if kMaxId <=? id_count then Returns (ZX_ERR_OUT_OF_RANGE, s)
  else
    r ← (if id_count <? s.(id_count_) then Shrink s id_count else Grow s id_count);
    let '(status, s) := r in
    if failed status then Returns (status, s)
    else
      s ← for_range 0 s.(level_count_) reset_level s;
      Returns (ZX_OK, s).

(** [alloc] says whether [operator new] succeeds; [None] where [*ida_out] is not
    written. *)
Definition Create (alloc : bool) (id_count : Z) : outcome (zx_status * option IdAllocator) :=
  if kMaxId <=? id_count then Returns (ZX_ERR_OUT_OF_RANGE, None)
  else if negb alloc then Returns (ZX_ERR_NO_MEMORY, None)
  else
    let empty := {| size_ := 0; data_ := [] |} in
    let ida := {| levels_ := replicate 11 empty; id_count_ := 0; level_count_ := 0 |} in
    r ← GrowInternal ida id_count;
    let '(status, ida) := r in
    Returns (status, if failed status then None else Some ida).

End resizing.

(** ** Sizes of the levels *)

(** The bits level [l] needs for [n] ids: ceil(n / 64^l). *)
Definition count (n l : Z) : Z := (n + 64 ^ l - 1) / 64 ^ l.

(** The number of levels: enough for [n] ids, and no more. *)
Definition levels_for (n lc : Z) : Prop :=
  1 ≤ lc ≤ 10 ∧ n ≤ 64 ^ lc ∧ (lc = 1 ∨ 64 ^ (lc - 1) < n).

Lemma pow64_pos l : 0 ≤ l → 0 < 64 ^ l.
Proof. intros. apply Z.pow_pos_nonneg; lia. Qed.

Lemma pow64_succ l : 0 ≤ l → 64 ^ (l + 1) = 64 * 64 ^ l.
Proof. intros. rewrite Z.add_1_r, Z.pow_succ_r by lia. done. Qed.

Lemma pow64_2 l : 0 ≤ l → 64 ^ l = 2 ^ (6 * l).
Proof. intros. change 64 with (2 ^ 6). by rewrite <- Z.pow_mul_r by lia. Qed.

Lemma pow64_bound l : 0 ≤ l ≤ 10 → 64 ^ l ≤ 2 ^ 60.
Proof. intros. rewrite pow64_2 by lia. apply Z.pow_le_mono_r; lia. Qed.

Lemma count_0 n : count n 0 = n.
Proof. unfold count. rewrite Z.pow_0_r, Z.div_1_r. lia. Qed.

Lemma count_nonneg n l : 0 ≤ n → 0 ≤ l → 0 ≤ count n l.
Proof. intros. pose proof (pow64_pos l ltac:(lia)). apply Z.div_pos; lia. Qed.

(** An index is below [count] exactly when an id lies under it. *)
Lemma count_spec n l i : 0 ≤ l → (i < count n l ↔ i * 64 ^ l < n).
Proof.
  intros Hl. pose proof (pow64_pos l Hl). unfold count. set (p := 64 ^ l) in *.
  pose proof (Z.div_mod (n + p - 1) p ltac:(lia)).
  pose proof (Z.mod_pos_bound (n + p - 1) p ltac:(lia)). split; intros; nia.
Qed.

Lemma count_succ n l : 0 ≤ l → count n (l + 1) = (count n l + 63) / 64.
Proof.
  intros Hl. pose proof (pow64_pos l Hl).
  assert (Hlt : ∀ i, i < count n (l + 1) ↔ i < (count n l + 63) / 64).
  { intros i. rewrite (count_spec n (l + 1)), pow64_succ by lia.
    assert (i < (count n l + 63) / 64 ↔ 64 * i < count n l) as -> by (split; zlia).
    rewrite count_spec by lia. split; lia. }
  pose proof (Hlt (count n (l + 1))). pose proof (Hlt ((count n l + 63) / 64)). lia.
Qed.

Lemma count_le n l : 0 ≤ n → 0 ≤ l → count n l ≤ n.
Proof.
  intros Hn Hl. pose proof (pow64_pos l Hl). pose proof (count_spec n l n Hl).
  destruct (Z.le_gt_cases (count n l) n); [done|nia].
Qed.

Lemma count_mono n n' l : 0 ≤ l → n ≤ n' → count n l ≤ count n' l.
Proof. intros. pose proof (pow64_pos l ltac:(lia)). apply Z.div_le_mono; lia. Qed.

Lemma count_top n l : levels_for n l → count n l ≤ 1.
Proof.
  intros (? & ? & _). pose proof (count_spec n l 1 ltac:(lia)).
  destruct (Z.le_gt_cases (count n l) 1); [done|lia].
Qed.

Section sizes.
Context (s : IdAllocator).
Hypothesis (Hn : 0 ≤ s.(id_count_) ≤ 2 ^ 60).

Lemma LevelBitCount_count l : 0 ≤ l ≤ 9 → LevelBitCount s l = count s.(id_count_) l.
Proof using Hn.
  intros Hl. unfold LevelBitCount, kLevelBits. destruct (Z.eqb_spec l 0) as [->|]; cbn [negb].
  { by rewrite count_0. }
  assert (0 < 2 ^ (6 * l) ≤ 2 ^ 54).
  { split; [apply Z.pow_pos_nonneg|apply Z.pow_le_mono_r]; lia. }
  rewrite Z.shiftl_1_l, Z.shiftr_div_pow2 by lia. unwrap.
  unfold count. rewrite pow64_2 by lia. f_equal. lia.
Qed.

Lemma LevelBitCountRounded_count l :
  0 ≤ l ≤ 9 → LevelBitCountRounded s l = 64 * count s.(id_count_) (l + 1).
Proof using Hn.
  intros Hl. unfold LevelBitCountRounded. rewrite LevelBitCount_count by lia.
  change kMaxChildren with 64. pose proof (count_nonneg (id_count_ s) l).
  pose proof (count_le (id_count_ s) l). rewrite round_up_small, count_succ by lia.
  replace (count (id_count_ s) l + 64 - 1) with (count (id_count_ s) l + 63) by lia. lia.
Qed.

End sizes.

Lemma log64_loop_ok fuel i n :
  1 ≤ i ≤ 10 → 11 ≤ Z.of_nat fuel + i → n ≤ 2 ^ 60 → (i = 1 ∨ 64 ^ (i - 1) < n) →
  ∃ lc, log64_loop fuel (64 ^ i) i n = Returns lc ∧ levels_for n lc.
Proof.
  revert i. induction fuel as [|fuel IH]; intros i Hi Hf Hn Hlow; [lia|]. cbn.
  pose proof (pow64_pos i ltac:(lia)). destruct (Z.ltb_spec (64 ^ i) n).
  - assert (i ≠ 10) by (intros ->; cbn in *; lia).
    pose proof (pow64_bound (i + 1) ltac:(lia)). rewrite pow64_succ in * by lia.
    replace (u64 (Z.shiftl (64 ^ i) kLevelBits)) with (64 ^ (i + 1)).
    + apply IH; [lia|lia|done|]. right. by replace (i + 1 - 1) with i by lia.
    + unfold kLevelBits. rewrite Z.shiftl_mul_pow2 by lia. rewrite pow64_succ by lia. unwrap. lia.
  - exists i. split; [done|]. split_and!; try lia.
Qed.

Lemma GetLevels_ok n : n ≤ 2 ^ 60 → ∃ lc, GetLevels n = Returns lc ∧ levels_for n lc.
Proof. intros Hn. apply (log64_loop_ok 11 1); [lia|lia|done|by left]. Qed.

(** Once the shift has overflowed, the loop condition stays true. *)
Lemma log64_stuck fuel i n : 0 < n → log64_loop fuel 0 i n = Diverges.
Proof. intros Hn. revert i. induction fuel as [|fuel IH]; intros i; [done|]. cbn. ztest. apply IH. Qed.

Lemma log64_loop_diverges k fuel i n :
  2 ^ 60 < n → Z.of_nat k = 10 - i → 1 ≤ i → log64_loop fuel (64 ^ i) i n = Diverges.
Proof.
  intros Hn. revert fuel i. induction k as [|k IH]; intros fuel i Hk Hi;
    (destruct fuel as [|fuel]; [done|]); cbn; pose proof (pow64_bound i ltac:(lia)); ztest.
  - replace i with 10 by lia. apply log64_stuck. lia.
  - pose proof (pow64_bound (i + 1) ltac:(lia)). pose proof (pow64_pos i ltac:(lia)).
    rewrite pow64_succ in * by lia.
    replace (u64 (Z.shiftl (64 ^ i) kLevelBits)) with (64 ^ (i + 1)).
    + apply IH; lia.
    + unfold kLevelBits. rewrite Z.shiftl_mul_pow2 by lia. rewrite pow64_succ by lia. unwrap. lia.
Qed.

(** ** The tree of bits

    The abstraction of the bitmaps: for each level its size, the length of its
    storage and its bits. *)

Record tree := { sz : Z → Z; ln : Z → nat; lb : Z → Z → bool }.

Definition repr (s : IdAllocator) (t : tree) : Prop :=
  length s.(levels_) = 11%nat ∧
  ∀ l, 0 ≤ l < 11 → ∃ b, s.(levels_) !! Z.to_nat l = Some b ∧ raw_ok b ∧
    b.(size_) = t.(sz) l ∧ length b.(data_) = t.(ln) l ∧
    ∀ i, 0 ≤ i < t.(sz) l → raw_bit b i = t.(lb) l i.

(** One bit changed. *)
Definition set_bit (t : tree) (l i : Z) (v : bool) : tree := {|
  sz := t.(sz); ln := t.(ln);
  lb := λ l' i', if (l' =? l) && (i' =? i) then v else t.(lb) l' i';
|}.

(** One level replaced by the bitmap [b]. *)
Definition set_level (t : tree) (l : Z) (b : RawBitmapBase) : tree := {|
  sz := λ l', if l' =? l then b.(size_) else t.(sz) l';
  ln := λ l', if l' =? l then length b.(data_) else t.(ln) l';
  lb := λ l' i', if l' =? l then raw_bit b i' else t.(lb) l' i';
|}.

(** Sizes are whole words, and small enough that indices do not wrap. *)
Definition sized (t : tree) : Prop :=
  ∀ l, 0 ≤ l < 11 → (64 | t.(sz) l) ∧ 0 ≤ t.(sz) l ≤ 2 ^ 61.

Lemma repr_get s t l :
  repr s t → 0 ≤ l < 11 → ∃ b, array_get s.(levels_) l = Returns b ∧ raw_ok b ∧
    b.(size_) = t.(sz) l ∧ length b.(data_) = t.(ln) l ∧
    ∀ i, 0 ≤ i < t.(sz) l → raw_bit b i = t.(lb) l i.
Proof.
  intros [_ Hr] Hl. destruct (Hr l Hl) as (b & Hb & ?). exists b.
  split; [|done]. apply array_get_returns. split; [lia|done].
Qed.

Lemma repr_set_level s t l b :
  repr s t → 0 ≤ l < 11 → raw_ok b →
  ∃ levels, array_set s.(levels_) l b = Returns levels ∧
    repr (with_levels s levels) (set_level t l b).
Proof.
  intros [Hlen Hr] Hl Hok. rewrite array_set_in by lia. eexists. split; [done|]. split; cbn.
  - by rewrite length_insert.
  - intros l' Hl'. destruct (Z.eqb_spec l' l) as [->|].
    + exists b. rewrite list_lookup_insert_eq by lia. done.
    + rewrite list_lookup_insert_ne by lia. by apply Hr.
Qed.

Lemma repr_ext s t t' :
  repr s t → (∀ l, 0 ≤ l < 11 → t'.(sz) l = t.(sz) l ∧ t'.(ln) l = t.(ln) l ∧
    ∀ i, 0 ≤ i < t.(sz) l → t'.(lb) l i = t.(lb) l i) → repr s t'.
Proof.
  intros [Hlen Hr] Heq. split; [done|]. intros l Hl. destruct (Hr l Hl) as (b & ? & ? & ? & ? & Hb).
  destruct (Heq l Hl) as (Hs & Hn & Hbits). exists b. split_and!; [done..| | |]; [congruence..|].
  intros i Hi. rewrite Hbits by lia. apply Hb. lia.
Qed.

(** The group of 64 bits of level [l] under the index [p]. *)
Definition full (t : tree) (l p : Z) : Prop := ∀ j, 64 * p ≤ j < 64 * p + 64 → t.(lb) l j = true.

Lemma group_base i : 0 ≤ i < 2 ^ 64 → Z.land i (not64 kLevelMask) = 64 * (i / 64).
Proof. intros Hi. rewrite Z.mul_comm. apply (land_not_mask i 6); lia. Qed.

Lemma SetBitAt_ok s t l i :
  repr s t → sized t → 0 ≤ l < 11 → 0 ≤ i < t.(sz) l →
  ∃ g s', SetBitAt s l i = Returns (g, s') ∧ repr s' (set_bit t l i true) ∧
    s'.(id_count_) = s.(id_count_) ∧ s'.(level_count_) = s.(level_count_) ∧
    (g = true ↔ full (set_bit t l i true) l (i / 64)).
Proof.
  intros Hr Hsz Hl Hi. destruct (Hsz l Hl) as [[q Hq] Hb].
  destruct (repr_get s t l Hr Hl) as (b & Hg & Hok & Hs & Hn & Hbits).
  unfold SetBitAt. rewrite Hg. cbn [mbind outcome_bind]. unfold ZX_ASSERT. ztest.
  cbn [mbind outcome_bind]. unfold SetOne. cbn [Bitmap.Set_ raw_bitmap]. unwrap.
  destruct (Set_ok b i (i + 1) Hok) as (b' & -> & Hok' & Hs' & Hn' & Hb'); [lia..|].
  cbn [mbind outcome_bind snd]. destruct (repr_set_level s t l b' Hr Hl Hok') as (levels & -> & Hrep).
  cbn [mbind outcome_bind]. rewrite group_base by lia. change kMaxChildren with 64.
  assert (0 ≤ 64 * (i / 64) ≤ i) by zlia. unwrap.
  destruct (Get_ok b' (64 * (i / 64)) (64 * (i / 64) + 64) Hok') as (g & x & -> & Hall & _); [zlia|zlia|].
  cbn [mbind outcome_bind fst]. do 2 eexists. split_and!; [done| |done..|].
  - eapply repr_ext; [exact Hrep|]. cbn. intros l' Hl'. destruct (Z.eqb_spec l' l) as [->|]; [|done].
    split_and!; [congruence..|]. cbn. intros k Hk. rewrite Hb' by lia. rewrite Hbits by lia.
    zcases; done.
  - rewrite Hall. unfold all_bits, full. cbn. rewrite Z.eqb_refl. cbn.
    split; intros Ha k Hk; specialize (Ha k Hk); revert Ha; rewrite Hb' by zlia; rewrite Hbits by zlia;
      zcases; done.
Qed.

Lemma ClearBitAt_ok s t l i :
  repr s t → sized t → 0 ≤ l < 11 → 0 ≤ i < t.(sz) l →
  ∃ s', ClearBitAt s l i = Returns s' ∧ repr s' (set_bit t l i false) ∧
    s'.(id_count_) = s.(id_count_) ∧ s'.(level_count_) = s.(level_count_).
Proof.
  intros Hr Hsz Hl Hi. destruct (Hsz l Hl) as [_ Hb].
  destruct (repr_get s t l Hr Hl) as (b & Hg & Hok & Hs & Hn & Hbits).
  unfold ClearBitAt. rewrite Hg. cbn [mbind outcome_bind]. unfold ZX_ASSERT. ztest.
  cbn [mbind outcome_bind]. unfold ClearOne. cbn [Bitmap.Clear raw_bitmap]. unwrap.
  destruct (Clear_ok b i (i + 1) Hok) as (b' & -> & Hok' & Hs' & Hn' & Hb'); [lia..|].
  cbn [mbind outcome_bind snd]. destruct (repr_set_level s t l b' Hr Hl Hok') as (levels & -> & Hrep).
  eexists. split_and!; [done| |done..].
  eapply repr_ext; [exact Hrep|]. cbn. intros l' Hl'. destruct (Z.eqb_spec l' l) as [->|]; [|done].
  split_and!; [congruence..|]. cbn. intros k Hk. rewrite Hb' by lia. rewrite Hbits by lia.
  zcases; done.
Qed.

Lemma GetOne_level s t l i :
  repr s t → sized t → 0 ≤ l < 11 → 0 ≤ i < t.(sz) l →
  ∃ b, array_get s.(levels_) l = Returns b ∧ GetOne b i = Returns (t.(lb) l i).
Proof.
  intros Hr Hsz Hl Hi. destruct (Hsz l Hl) as [_ Hb].
  destruct (repr_get s t l Hr Hl) as (b & Hg & Hok & Hs & Hn & Hbits). exists b. split; [done|].
  rewrite <- Hbits by lia. apply (@get_one _ _ raw_bitmap_laws b i); [done|cbn; lia].
Qed.

(** ** Consistency

    Between the levels [lo] and [hi], a parent whose children the level below holds
    is set exactly when they all are. *)

Definition linked (t : tree) (l p : Z) : Prop := t.(lb) (l + 1) p = true ↔ full t l p.

Definition in_tree (t : tree) (lo hi l p : Z) : Prop :=
  lo ≤ l ∧ l + 1 < hi ∧ 0 ≤ p ∧ 64 * p + 64 ≤ t.(sz) l ∧ p < t.(sz) (l + 1).

Definition consistent (t : tree) (lo hi : Z) : Prop :=
  ∀ l p, in_tree t lo hi l p → linked t l p.

(** Consistent, but perhaps for the parent [p0] of level [l0]. *)
Definition consistent_but (t : tree) (lo hi l0 p0 : Z) : Prop :=
  ∀ l p, in_tree t lo hi l p → ¬ (l + 1 = l0 ∧ p = p0) → linked t l p.

Definition nested (t : tree) (lo hi : Z) : Prop :=
  ∀ l, lo ≤ l → l + 1 < hi → t.(sz) l ≤ 64 * t.(sz) (l + 1).

Lemma consistent_weaken t lo hi l0 p0 : consistent t lo hi → consistent_but t lo hi l0 p0.
Proof. intros Hc l p Hin _. by apply Hc. Qed.

(** Setting bit [i] of level [l] to the value its children ask for leaves its
    parent to be fixed. *)
Lemma consistent_set_bit t lo hi l i v :
  consistent_but t lo hi l i →
  (lo < l → 64 * i + 64 ≤ t.(sz) (l - 1) → (v = true ↔ full t (l - 1) i)) →
  consistent_but (set_bit t l i v) lo hi (l + 1) (i / 64).
Proof.
  intros Hc Hv l' p Hin Hne.
  assert (Hfull : full (set_bit t l i v) l' p ↔ full t l' p).
  { unfold full. cbn. split; intros H j Hj; specialize (H j Hj); revert H; zcases; cbn; try done; zlia. }
  unfold linked. rewrite Hfull. cbn [set_bit lb].
  destruct (Z.eqb_spec (l' + 1) l) as [<-|]; [destruct (Z.eqb_spec p i) as [->|]|]; cbn [andb].
  - destruct Hin as (? & ? & ? & Hsz & ?). cbn in Hsz. replace (l' + 1 - 1) with l' in Hv by lia.
    apply Hv; [lia|done].
  - apply Hc; [done|]. intros [_ ?]. lia.
  - apply Hc; [done|]. intros [? _]. lia.
Qed.

Lemma consistent_close t lo hi l0 p0 :
  consistent_but t lo hi l0 p0 → (in_tree t lo hi (l0 - 1) p0 → linked t (l0 - 1) p0) →
  consistent t lo hi.
Proof.
  intros Hc Hl l p Hin. destruct (decide (l + 1 = l0 ∧ p = p0)) as [[<- ->]|Hne].
  - replace (l + 1 - 1) with l in Hl by lia. auto.
  - by apply Hc.
Qed.

Lemma sized_set_bit t l i v : sized t → sized (set_bit t l i v).
Proof. done. Qed.

Lemma shiftr_64 i : Z.shiftr i kLevelBits = i / 64.
Proof. by rewrite Z.shiftr_div_pow2. Qed.

(** What both marking loops guarantee. *)
Definition marked (t t' : tree) (lo hi l i : Z) (v : bool) : Prop :=
  t'.(sz) = t.(sz) ∧ t'.(ln) = t.(ln) ∧ consistent t' lo hi ∧
  (∀ l' i', t.(lb) l' i' = v → t'.(lb) l' i' = v) ∧
  (∀ l' i', l' < l → t'.(lb) l' i' = t.(lb) l' i') ∧
  (∀ i', t'.(lb) l i' = if i' =? i then v else t.(lb) l i') ∧
  (∀ l' i', l ≤ l' → i' ≠ i / 64 ^ (l' - l) → t'.(lb) l' i' = t.(lb) l' i').

Lemma marked_once t lo hi l i v :
  consistent (set_bit t l i v) lo hi → marked t (set_bit t l i v) lo hi l i v.
Proof.
  intros Hc. split_and!; [done..| | | |]; cbn.
  - intros l' i' <-. by destruct (_ && _).
  - intros l' i' ?. by ztest.
  - intros i'. by rewrite Z.eqb_refl.
  - intros l' i' ? Hne. destruct (Z.eqb_spec l' l) as [->|]; [|done].
    rewrite Z.sub_diag, Z.pow_0_r, Z.div_1_r in Hne. by ztest.
Qed.

Lemma marked_up t t' lo hi l i v :
  marked (set_bit t l i v) t' lo hi (l + 1) (i / 64) v → marked t t' lo hi l i v.
Proof.
  intros (Hs & Hn & Hc & Hv & Hlow & Hl & Hpath). split_and!; [done..| | | |].
  - intros l' i' H. apply Hv. cbn. by destruct (_ && _).
  - intros l' i' ?. rewrite Hlow by lia. cbn. by ztest.
  - intros i'. rewrite Hlow by lia. cbn. by rewrite Z.eqb_refl.
  - intros l' i' Hle Hne. destruct (Z.eq_dec l' l) as [->|].
    + rewrite Z.sub_diag, Z.pow_0_r, Z.div_1_r in Hne. rewrite Hlow by lia. cbn. by ztest.
    + rewrite Hpath; [cbn; by ztest|lia|].
      rewrite Z.div_div by (try apply pow64_pos; lia).
      rewrite <- pow64_succ by lia. by replace (l' - (l + 1) + 1) with (l' - l) by lia.
Qed.

Lemma mark_busy_loop_S n s i l : mark_busy_loop (S n) s i l =
  r ← SetBitAt s l i;
  let '(all_children_busy, s) := r in
  if negb all_children_busy then Returns s
  else mark_busy_loop n s (Z.shiftr i kLevelBits) (l + 1).
Proof. done. Qed.

Section marking.
Context (lo hi : Z).
Hypothesis (Hlo : 0 ≤ lo) (Hhi : hi ≤ 10).

Lemma mark_busy_loop_ok n s t l i :
  lo ≤ l → l + Z.of_nat (S n) = hi → repr s t → sized t → nested t l hi → 0 ≤ i < t.(sz) l →
  consistent_but t lo hi l i →
  (lo < l → 64 * i + 64 ≤ t.(sz) (l - 1) → full t (l - 1) i) →
  ∃ s' t', mark_busy_loop (S n) s i l = Returns s' ∧ repr s' t' ∧
    s'.(id_count_) = s.(id_count_) ∧ s'.(level_count_) = s.(level_count_) ∧
    marked t t' lo hi l i true.
Proof using Hlo Hhi.
  revert s t l i. induction n as [|n IH]; intros s t l i Hl Hn Hr Hsz Hnest Hi Hc Hf.
  all: destruct (SetBitAt_ok s t l i Hr Hsz) as (g & s1 & Hset & Hr1 & Hid & Hlc & Hg); [lia|done|].
  all: assert (Hc1 : consistent_but (set_bit t l i true) lo hi (l + 1) (i / 64))
    by (apply consistent_set_bit; [done|]; intros ? ?; split; auto).
  - exists s1, (set_bit t l i true). split_and!; [|done..|].
    { rewrite mark_busy_loop_S, Hset. cbn. by destruct g. }
    apply marked_once, (consistent_close _ _ _ _ _ Hc1). unfold in_tree. lia.
  - rewrite mark_busy_loop_S, Hset. cbn [mbind outcome_bind]. destruct g; cbn [negb].
    + rewrite shiftr_64. pose proof (Hnest l ltac:(lia) ltac:(lia)).
      destruct (IH s1 (set_bit t l i true) (l + 1) (i / 64))
        as (s2 & t2 & Hs2 & Hr2 & ? & ? & Hm); [lia|lia|done|done| | |done| |].
      * intros l' ? ?. apply Hnest; lia.
      * cbn. zlia.
      * intros _ _. replace (l + 1 - 1) with l by lia. by apply Hg.
      * exists s2, t2. split_and!; [done..|congruence|congruence|by apply marked_up].
    + exists s1, (set_bit t l i true). split_and!; [done..|].
      apply marked_once, (consistent_close _ _ _ _ _ Hc1).
      replace (l + 1 - 1) with l by lia. intros Hin. unfold linked.
      assert (Hnf : ¬ full (set_bit t l i true) l (i / 64)) by (rewrite <- Hg; done).
      split; [|done]. cbn. ztest. cbn [andb]. intros Hp. exfalso. apply Hnf.
      intros j Hj. cbn. assert (Hlink : linked t l (i / 64)) by (apply Hc; [done|lia]).
      apply Hlink in Hp. specialize (Hp j Hj). by destruct (_ && _).
Qed.

Lemma mark_free_loop_ok n s t l i :
  lo ≤ l → l + Z.of_nat n = hi → repr s t → sized t → nested t l hi →
  (n ≠ O → 0 ≤ i < t.(sz) l) →
  consistent_but t lo hi l i →
  (lo < l → 64 * i + 64 ≤ t.(sz) (l - 1) → ¬ full t (l - 1) i) →
  ∃ s' t', mark_free_loop n s i l = Returns s' ∧ repr s' t' ∧
    s'.(id_count_) = s.(id_count_) ∧ s'.(level_count_) = s.(level_count_) ∧
    (n = O → t' = t) ∧ (n ≠ O → marked t t' lo hi l i false).
Proof using Hlo Hhi.
  revert s t l i. induction n as [|n IH]; intros s t l i Hl Hn Hr Hsz Hnest Hi Hc Hf.
  { exists s, t. by split_and!. }
  specialize (Hi ltac:(done)). cbn [mark_free_loop].
  destruct (GetOne_level s t l i Hr Hsz) as (b & -> & Hget); [lia|done|]. cbn [mbind outcome_bind].
  assert (Hv : lo < l → 64 * i + 64 ≤ t.(sz) (l - 1) → (false = true ↔ full t (l - 1) i)).
  { intros ? ?. split; [done|]. intros. exfalso. by eapply Hf. }
  assert (∃ g, (if negb (l =? 0) then GetOne b i else Returns true) = Returns g ∧
    (g = false → t.(lb) l i = false)) as (g & -> & Hgb).
  { destruct (l =? 0); cbn [negb]; [by exists true|]. rewrite Hget. by eexists. }
  cbn [mbind outcome_bind]. destruct g; cbn [negb].
  - destruct (ClearBitAt_ok s t l i Hr Hsz) as (s1 & -> & Hr1 & Hid & Hlc); [lia|done|].
    cbn [mbind outcome_bind]. rewrite shiftr_64.
    pose proof (consistent_set_bit _ _ _ _ _ false Hc Hv) as Hc1.
    destruct (IH s1 (set_bit t l i false) (l + 1) (i / 64))
      as (s2 & t2 & -> & Hr2 & ? & ? & H0 & HS); [lia|lia|done|done| | |done| |].
    + intros l' ? ?. apply Hnest; lia.
    + intros Hn0. cbn. pose proof (Hnest l ltac:(lia) ltac:(lia)). zlia.
    + intros _ _ Hfull. replace (l + 1 - 1) with l in Hfull by lia. specialize (Hfull i ltac:(zlia)).
      cbn in Hfull. by rewrite !Z.eqb_refl in Hfull.
    + exists s2, t2. split_and!; [done..|congruence|congruence|done|]. intros _.
      destruct n as [|n]; [|by apply marked_up, HS].
      rewrite H0 by done. apply marked_once, (consistent_close _ _ _ _ _ Hc1). unfold in_tree. lia.
  - exists s, t. split_and!; [done..|]. intros _. specialize (Hgb eq_refl).
    split_and!; [done..| |done|done| |done].
    + apply (consistent_close _ _ _ _ _ Hc). intros Hin. unfold linked.
      replace (l - 1 + 1) with l by lia. rewrite Hgb.
      destruct Hin as (? & ? & ? & Hdom & ?). apply Hv; [lia|done].
    + intros i'. by zcases; subst.
Qed.

End marking.

(** ** The invariant *)

Definition shaped (t : tree) (n lc : Z) : Prop :=
  ∀ l, 0 ≤ l < 11 → t.(sz) l = if l <? lc then 64 * count n (l + 1) else 0.

(** The bits of a level that address no id are set. *)
Definition padded (t : tree) (n lc : Z) : Prop :=
  ∀ l i, 0 ≤ l < lc → count n l ≤ i < t.(sz) l → t.(lb) l i = true.

Definition tree_ok (t : tree) (n lc : Z) : Prop :=
  0 ≤ n ≤ 2 ^ 60 ∧ levels_for n lc ∧ shaped t n lc ∧ padded t n lc ∧ consistent t 0 lc.

Definition ida_ok (s : IdAllocator) (t : tree) : Prop :=
  repr s t ∧ tree_ok t s.(id_count_) s.(level_count_).

Lemma all_or_some (f : Z → bool) lo hi :
  (∀ j, lo ≤ j < hi → f j = true) ∨ (∃ j, lo ≤ j < hi ∧ f j = false).
Proof.
  destruct (Z.le_gt_cases lo hi) as [Hle|]; [|left; lia].
  revert hi Hle. refine (Zlt_lower_bound_ind _ lo _). intros hi IH Hle.
  destruct (Z.eq_dec lo hi) as [->|]; [left; lia|].
  destruct (IH (hi - 1)) as [Hall|(j & ? & ?)]; [lia| |right; exists j; split; [lia|done]].
  destruct (f (hi - 1)) eqn:E; [left|right; exists (hi - 1); split; [lia|done]].
  intros j Hj. destruct (Z.eq_dec j (hi - 1)) as [->|]; [done|]. apply Hall. lia.
Qed.

Lemma level_size_bounds n l :
  0 ≤ n ≤ 2 ^ 60 → 0 ≤ l → (64 | 64 * count n (l + 1)) ∧ 0 ≤ 64 * count n (l + 1) ≤ 2 ^ 61.
Proof.
  intros Hn Hl. pose proof (count_nonneg n (l + 1)). pose proof (count_le n l).
  split; [exists (count n (l + 1)); lia|]. rewrite count_succ in * by lia. zlia.
Qed.

Lemma shaped_sized t n lc : 0 ≤ n ≤ 2 ^ 60 → shaped t n lc → sized t.
Proof.
  intros Hn Hs l Hl. rewrite (Hs l Hl). destruct (l <? lc); [|split; [by exists 0|lia]].
  apply level_size_bounds; lia.
Qed.

Lemma shaped_nested t n lc : 0 ≤ n → lc ≤ 10 → shaped t n lc → nested t 0 lc.
Proof.
  intros Hn Hlc Hs l ? ?. rewrite !Hs by lia. ztest.
  pose proof (count_succ n (l + 1)). zlia.
Qed.

(** A bit of the tree is clear exactly when a free id lies under it. *)
Lemma tree_clear t n lc l :
  tree_ok t n lc → 0 ≤ l → l < lc → ∀ i, 0 ≤ i < t.(sz) l →
  (t.(lb) l i = false ↔ ∃ id, 0 ≤ id < n ∧ id / 64 ^ l = i ∧ t.(lb) 0 id = false).
Proof.
  intros (Hn & Hlc & Hs & Hp & Hc). pose proof Hlc as (? & _).
  intros Hl. pattern l. apply natlike_ind; [| |exact Hl]; clear l Hl.
  - intros Hl i Hi. split.
    + intros Hb. exists i. rewrite Z.pow_0_r, Z.div_1_r. split_and!; [lia| |done|done].
      destruct (Z.lt_ge_cases i n); [done|]. rewrite (Hp 0 i) in Hb; [done|lia|rewrite count_0; lia].
    + intros (id & ? & <- & Hb). by rewrite Z.pow_0_r, Z.div_1_r.
  - intros l Hl IH Hlt i Hi. rewrite <- Z.add_1_r in *.
    pose proof (pow64_pos l Hl). rewrite pow64_succ by done.
    assert (Hdiv : ∀ id, id / (64 * 64 ^ l) = id / 64 ^ l / 64).
    { intros id. rewrite Z.mul_comm. symmetry. apply Z.div_div; lia. }
    destruct (Z.lt_ge_cases i (count n (l + 1))) as [Hlt'|Hge].
    + assert (Hsl : sz t l = 64 * count n (l + 1)) by (rewrite Hs by lia; by ztest).
      assert (Hlink : linked t l i) by (apply Hc; repeat split; lia).
      destruct (all_or_some (lb t l) (64 * i) (64 * i + 64)) as [Hall|(j & Hj & Hbj)].
      * rewrite (proj2 Hlink Hall). split; [done|]. intros (id & ? & Hid & Hb). exfalso.
        rewrite Hdiv in Hid. assert (lb t l (id / 64 ^ l) = false) as Hf.
        { apply IH; [lia|zlia|]. by exists id. }
        rewrite Hall in Hf by zlia. done.
      * split; [intros _|].
        -- apply IH in Hbj as (id & ? & Hid & Hb); [|lia|lia]. exists id. split_and!; [lia..| |done].
           rewrite Hdiv, Hid. zlia.
        -- intros _. destruct (lb t (l + 1) i) eqn:E; [|done]. apply Hlink in E.
           rewrite E in Hbj by lia. done.
    + rewrite Hp by lia. split; [done|]. intros (id & ? & <- & _). exfalso.
      pose proof (count_spec n (l + 1) (id / (64 * 64 ^ l)) ltac:(lia)) as Hcs.
      rewrite pow64_succ in Hcs by done.
      pose proof (Z.mul_div_le id (64 * 64 ^ l) ltac:(lia)). lia.
Qed.

(** ** Allocation *)

Lemma lor_group p j : 0 ≤ p → 64 * p ≤ j < 64 * p + 64 → Z.lor (64 * p) j = j.
Proof.
  intros Hp Hj. apply Z.bits_inj'. intros k Hk. rewrite Z.lor_spec.
  destruct (Z.lt_ge_cases k 6).
  - replace (64 * p) with (p * 2 ^ 6) by lia. by rewrite Z.mul_pow2_bits_low by lia.
  - replace (64 * p) with (p * 2 ^ 6) by lia. rewrite Z.mul_pow2_bits by lia.
    replace p with (j / 2 ^ 6) by zlia. rewrite Z.div_pow2_bits by lia.
    replace (k - 6 + 6) with k by lia. apply orb_diag.
Qed.

Section allocation.
Context (s : IdAllocator) (t : tree).
Hypothesis (Hok : ida_ok s t).

#[local] Notation n := s.(id_count_).
#[local] Notation lc := s.(level_count_).

(** A free id, and the least one. *)
Definition free_id (id : Z) : Prop := 0 ≤ id < s.(id_count_) ∧ t.(lb) 0 id = false.

Lemma free_above f k : free_id f → 0 ≤ k < lc →
  0 ≤ f / 64 ^ k < t.(sz) k ∧ t.(lb) k (f / 64 ^ k) = false.
Proof using Hok.
  intros [Hf Hb] Hk. destruct Hok as [_ Ht]. pose proof Ht as (Hn & (Hlc & _) & Hs & _).
  assert (0 ≤ f / 64 ^ k < sz t k).
  { pose proof (pow64_pos k ltac:(lia)). split; [by apply Z.div_pos; lia|].
    rewrite Hs by lia. ztest. pose proof (count_spec n k (f / 64 ^ k) ltac:(lia)).
    pose proof (Z.mul_div_le f (64 ^ k) ltac:(lia)). rewrite count_succ by lia. zlia. }
  split; [done|]. eapply tree_clear; [done|lia..|]. by exists f.
Qed.

Lemma find_group k id :
  0 ≤ k < lc → 0 ≤ id →
  (k + 1 = lc ∧ id = 0 ∨ k + 1 < lc ∧ id < t.(sz) (k + 1) ∧ t.(lb) (k + 1) id = false) →
  0 ≤ 64 * id ∧ 64 * id + 64 < 2 ^ 62 ∧
  (k + 1 = lc ∧ id = 0 ∧ t.(sz) k ≤ 64 ∨
   64 * id + 64 ≤ t.(sz) k ∧ ∃ j, 64 * id ≤ j < 64 * id + 64 ∧ t.(lb) k j = false).
Proof using Hok.
  intros Hk Hid Hcase. destruct Hok as [_ Ht]. pose proof Ht as (Hn & Hlf & Hs & Hp & Hc).
  pose proof Hlf as (Hlc & _).
  destruct Hcase as [[Hk1 ->]|(Hk1 & Hidsz & Hb)].
  - split_and!; [lia..|]. left. split_and!; [done..|]. rewrite Hs by lia. ztest.
    pose proof (count_top n lc Hlf). rewrite Hk1. lia.
  - assert (id < count n (k + 1)).
    { destruct (Z.lt_ge_cases id (count n (k + 1))); [done|]. rewrite Hp in Hb by lia. done. }
    assert (Hsk : sz t k = 64 * count n (k + 1)) by (rewrite Hs by lia; by ztest).
    pose proof (shaped_sized t n lc Hn Hs k ltac:(lia)) as [_ Hb61].
    split_and!; [lia..|]. right. split; [lia|].
    destruct (all_or_some (lb t k) (64 * id) (64 * id + 64)) as [Hall|]; [|done].
    assert (Hlink : linked t k id) by (apply Hc; repeat split; lia).
    apply Hlink in Hall. congruence.
Qed.

Lemma FindFirstUnset_ok k id :
  0 ≤ k < lc → 0 ≤ 64 * id → 64 * id + 64 < 2 ^ 62 →
  ∃ x, FindFirstUnset s k (64 * id) = Returns x ∧
    ((x = kMaxId ∧ all_bits (t.(lb) k) (64 * id) (Z.min (64 * id + 64) (t.(sz) k)) true) ∨
     (64 * id ≤ x < Z.min (64 * id + 64) (t.(sz) k) ∧ t.(lb) k x = false ∧
      all_bits (t.(lb) k) (64 * id) x true)).
Proof using Hok.
  intros Hk Hid Hlt. destruct Hok as [Hr (_ & (Hlc & _) & _)].
  unfold FindFirstUnset, ZX_ASSERT. change kLevelMask with (Z.ones 6).
  rewrite Z.land_ones, Z.mul_comm, Z.mod_mul by lia. cbn [Z.eqb mbind outcome_bind].
  destruct (repr_get s t k Hr) as (b & -> & Hb & Hs & _ & Hbits); [lia|]. cbn [mbind outcome_bind].
  rewrite (Z.mul_comm id). change kMaxChildren with 64. unwrap.
  destruct (Get_clamped b (64 * id) (64 * id + 64) Hb) as (r & x & -> & Ht & _ & Hf); [lia..|].
  cbn [mbind outcome_bind fst snd]. rewrite Hs in *. eexists. split; [done|]. destruct r; cbn [negb].
  - left. split; [done|]. intros j Hj. rewrite <- Hbits by lia. by apply Ht.
  - right. destruct Hf as (Hx & Hbx & Hall); [done|]. split_and!; [lia..| |].
    + by rewrite <- Hbits by lia.
    + intros j Hj. rewrite <- Hbits by lia. by apply Hall.
Qed.

Lemma find_loop_ok k id :
  0 ≤ id → Z.of_nat k ≤ lc →
  (Z.of_nat k = lc ∧ id = 0 ∨
   Z.of_nat k < lc ∧ id < t.(sz) (Z.of_nat k) ∧ t.(lb) (Z.of_nat k) id = false) →
  (∀ f, free_id f → id ≤ f / 64 ^ Z.of_nat k) →
  ∃ r, find_loop k s id = Returns r ∧
    ((r = kMaxId ∧ ∀ f, ¬ free_id f) ∨ (free_id r ∧ ∀ f, free_id f → r ≤ f)).
Proof using Hok.
  revert id. induction k as [|k IH]; intros id Hid Hk Hcase Hmin.
  all: pose proof Hok as [Hr Ht]; pose proof Ht as (Hn & Hlf & Hs & Hp & Hc); pose proof Hlf as (Hlc & _).
  - exists id. split; [done|]. right. change (Z.of_nat 0) with 0 in *.
    destruct Hcase as [[? _]|(_ & ? & Hb)]; [lia|]. split.
    + split; [|done]. destruct (Z.lt_ge_cases id n); [lia|].
      rewrite Hp in Hb; [done|lia|rewrite count_0; lia].
    + intros f Hf. specialize (Hmin f Hf). by rewrite Z.pow_0_r, Z.div_1_r in Hmin.
  - rewrite Nat2Z.inj_succ, <- Z.add_1_r in *. set (K := Z.of_nat k) in *.
    destruct (find_group K id) as (Hb0 & Hb1 & Hgroup); [lia|lia|done|].
    cbn [find_loop]. fold K.
    replace (u64 (Z.shiftl id kLevelBits)) with (64 * id)
      by (rewrite Z.shiftl_mul_pow2 by done; unfold kLevelBits; unwrap; lia).
    destruct (FindFirstUnset_ok K id) as (x & -> & Hx); [lia..|]. cbn [mbind outcome_bind].
    assert (Hfree : ∀ f, free_id f → 64 * id ≤ f / 64 ^ K ∧ f / 64 ^ K < t.(sz) K ∧
      t.(lb) K (f / 64 ^ K) = false).
    { intros f Hf. destruct (free_above f K Hf) as [? ?]; [lia|]. specialize (Hmin f Hf).
      rewrite pow64_succ, Z.mul_comm, <- Z.div_div in Hmin by (pose proof (pow64_pos K); lia).
      split_and!; [zlia|lia|done]. }
    destruct Hx as [[-> Hall]|(Hx & Hxb & Hbefore)].
    + rewrite Z.eqb_refl. destruct Hgroup as [(Hlast & -> & Hsz)|(Hsz & j & Hj & Hjb)].
      * unfold ZX_ASSERT. ztest. cbn [mbind outcome_bind]. eexists. split; [done|]. left. split; [done|].
        intros f Hf. destruct (Hfree f Hf) as (? & ? & Hb). rewrite Hall in Hb by lia. done.
      * rewrite Hall in Hjb by lia. done.
    + assert (x < SIZE_MAX) by (unfold SIZE_MAX; lia). unfold kMaxId. ztest.
      rewrite lor_group by lia. apply IH; [lia|lia|right; split_and!; [lia..|done]|].
      intros f Hf. destruct (Hfree f Hf) as (? & ? & Hb).
      destruct (Z.le_gt_cases x (f / 64 ^ K)); [done|]. rewrite Hbefore in Hb by lia. done.
Qed.

Lemma Find_ok : ∃ r, Find s = Returns r ∧
  ((r = kMaxId ∧ ∀ f, ¬ free_id f) ∨ (free_id r ∧ ∀ f, free_id f → r ≤ f)).
Proof using Hok.
  pose proof Hok as [_ (_ & (? & _) & _)].
  apply find_loop_ok; [lia|lia|left; lia|]. intros f [? _]. apply Z.div_pos; [lia|].
  apply pow64_pos. lia.
Qed.

End allocation.

(** ** Operations on ids *)

Definition in_sync (s s' : IdAllocator) : Prop :=
  s'.(id_count_) = s.(id_count_) ∧ s'.(level_count_) = s.(level_count_).

Lemma marked_path_pad t n lc l id :
  tree_ok t n lc → 0 ≤ l → 0 ≤ id < n → id / 64 ^ (l - 0) < count n l.
Proof.
  intros (? & ? & _) Hl Hid. rewrite Z.sub_0_r. apply count_spec; [done|].
  pose proof (pow64_pos l Hl). pose proof (Z.mul_div_le id (64 ^ l) ltac:(lia)). lia.
Qed.

(** Marking an id changes its leaf, and keeps the tree. *)
Lemma tree_ok_marked t t' n lc id v :
  tree_ok t n lc → 0 ≤ id < n → marked t t' 0 lc 0 id v →
  tree_ok t' n lc ∧ ∀ i, t'.(lb) 0 i = if i =? id then v else t.(lb) 0 i.
Proof.
  intros Ht Hid (Hs & Hn & Hc & Hv & Hlow & Hl & Hpath).
  pose proof Ht as (? & Hlf & Hsh & Hp & _). pose proof Hlf as (? & _).
  split; [|done]. split_and!; [lia|lia|done|..|done].
  - intros l ?. rewrite Hs. by apply Hsh.
  - intros l i ? Hi. rewrite Hs in Hi. rewrite Hpath; [by apply Hp|lia|].
    pose proof (marked_path_pad t n lc l id Ht ltac:(lia) Hid). lia.
Qed.

Lemma MarkBusy_ok s t id :
  ida_ok s t → 0 ≤ id < s.(id_count_) →
  ∃ s' t', MarkBusy s id = Returns s' ∧ ida_ok s' t' ∧ in_sync s s' ∧
    ∀ i, t'.(lb) 0 i = if i =? id then true else t.(lb) 0 i.
Proof.
  intros [Hr Ht] Hid. pose proof Ht as (Hn & Hlf & Hsh & _ & Hc). pose proof Hlf as (Hlc & _).
  unfold MarkBusy, MarkBusyInternal, ZX_ASSERT. ztest. cbn [mbind outcome_bind].
  destruct (mark_busy_loop_ok 0 (level_count_ s) ltac:(lia) ltac:(lia)
    (Z.to_nat (level_count_ s - 1)) s t 0 id) as (s' & t' & E & Hr' & Hi & Hl & Hm).
  - lia.
  - lia.
  - done.
  - by eapply shaped_sized.
  - eapply shaped_nested; [| |done]; lia.
  - rewrite Hsh by lia. ztest. rewrite count_succ, count_0 by lia. zlia.
  - by apply consistent_weaken.
  - lia.
  - replace (Z.to_nat (level_count_ s - 0)) with (S (Z.to_nat (level_count_ s - 1))) by lia.
    rewrite E. exists s', t'. destruct (tree_ok_marked _ _ _ _ _ _ Ht Hid Hm) as [? ?].
    split_and!; [done| |done..]. split; [done|]. by rewrite Hi, Hl.
Qed.

Lemma MarkFree_ok s t id :
  ida_ok s t → 0 ≤ id < s.(id_count_) →
  ∃ s' t', MarkFree s id = Returns s' ∧ ida_ok s' t' ∧ in_sync s s' ∧
    ∀ i, t'.(lb) 0 i = if i =? id then false else t.(lb) 0 i.
Proof.
  intros [Hr Ht] Hid. pose proof Ht as (Hn & Hlf & Hsh & _ & Hc). pose proof Hlf as (Hlc & _).
  unfold MarkFree, MarkFreeInternal.
  destruct (mark_free_loop_ok 0 (level_count_ s) ltac:(lia) ltac:(lia)
    (Z.to_nat (level_count_ s - 0)) s t 0 id) as (s' & t' & E & Hr' & Hi & Hl & _ & Hm).
  - lia.
  - lia.
  - done.
  - by eapply shaped_sized.
  - eapply shaped_nested; [| |done]; lia.
  - intros _. rewrite Hsh by lia. ztest. rewrite count_succ, count_0 by lia. zlia.
  - by apply consistent_weaken.
  - lia.
  - rewrite E. exists s', t'. destruct (tree_ok_marked _ _ _ _ _ _ Ht Hid (Hm ltac:(lia))) as [? ?].
    split_and!; [done| |done..]. split; [done|]. by rewrite Hi, Hl.
Qed.

Lemma IsBusy_ok s t id :
  ida_ok s t → 0 ≤ id → IsBusy s id = Returns ((id <? s.(id_count_)) && t.(lb) 0 id).
Proof.
  intros [Hr Ht] Hid. pose proof Ht as (Hn & Hlf & Hsh & _). pose proof Hlf as (Hlc & _).
  unfold IsBusy. destruct (Z.leb_spec (id_count_ s) id); ztest; [done|].
  destruct (GetOne_level s t 0 id Hr) as (b & -> & Hb); [by eapply shaped_sized|lia| |done].
  rewrite Hsh by lia. ztest. rewrite count_succ, count_0 by lia. zlia.
Qed.

(** ** Unallocatable bits *)

Lemma in_sync_refl s : in_sync s s.
Proof. done. Qed.

Lemma in_sync_trans s1 s2 s3 : in_sync s1 s2 → in_sync s2 s3 → in_sync s1 s3.
Proof. unfold in_sync. intros [? ?] [? ?]. split; congruence. Qed.

Section unallocatable.
Context (s : IdAllocator) (t : tree) (l : Z).
Hypothesis (Hr : repr s t) (Hsz : sized t) (Hn : 0 ≤ s.(id_count_) ≤ 2 ^ 60)
  (Hl : 0 ≤ l < s.(level_count_)) (Hlc : s.(level_count_) ≤ 10)
  (Hsl : t.(sz) l = 64 * count s.(id_count_) (l + 1)).

#[local] Notation n := s.(id_count_).
#[local] Notation lc := s.(level_count_).

Lemma pad_bounds : 0 ≤ count n l ≤ t.(sz) l ∧ t.(sz) l < count n l + 64.
Proof using Hn Hl Hsl.
  rewrite Hsl, count_succ by lia. pose proof (count_nonneg n l). zlia.
Qed.

(** In a consistent tree, the padding is set and its ancestors follow. *)
Lemma MarkUnallocatable_ok :
  nested t l lc → consistent t 0 lc → (0 < l → t.(sz) (l - 1) ≤ 64 * count n l) →
  ∃ s' t', MarkUnallocatable s l = Returns s' ∧ repr s' t' ∧ in_sync s s' ∧
    t'.(sz) = t.(sz) ∧ consistent t' 0 lc ∧
    (∀ l' i, t.(lb) l' i = true → t'.(lb) l' i = true) ∧
    (∀ l' i, l' < l → t'.(lb) l' i = t.(lb) l' i) ∧
    (∀ i, t'.(lb) l i = ((count n l <=? i) && (i <? t.(sz) l)) || t.(lb) l i).
Proof using Hr Hsz Hn Hl Hlc Hsl.
  intros Hnest Hc Hbelow. pose proof pad_bounds. unfold MarkUnallocatable.
  rewrite LevelBitCount_count, LevelBitCountRounded_count, <- Hsl by lia.
  edestruct (for_range_inv (λ i s', ∃ t', repr s' t' ∧ in_sync s s' ∧ t'.(sz) = t.(sz) ∧
      consistent t' 0 lc ∧ (∀ l' i, t.(lb) l' i = true → t'.(lb) l' i = true) ∧
      (∀ l' i, l' < l → t'.(lb) l' i = t.(lb) l' i) ∧
      (∀ j, t'.(lb) l j = ((count n l <=? j) && (j <? i)) || t.(lb) l j)))
    as (s' & E & t' & Ht'); cycle 3.
  - exists s', t'. split; [exact E|exact Ht'].
  - lia.
  - exists t. split_and!; [done..|]. intros j. by zcases.
  - intros i s1 Hi (t1 & Hr1 & [Hid1 Hlc1] & Hsz1 & Hc1 & Hmono & Hlow & Hbits).
    unfold MarkBusyInternal, ZX_ASSERT. rewrite Hlc1. ztest. cbn [mbind outcome_bind].
    destruct (mark_busy_loop_ok 0 lc ltac:(lia) Hlc (Z.to_nat (lc - l - 1)) s1 t1 l i)
      as (s2 & t2 & E & Hr2 & Hid2 & Hlc2 & Hs2 & _ & Hc2 & Hv & Hlow2 & Hl2 & _).
    + lia.
    + lia.
    + done.
    + intros l' ?. rewrite Hsz1. by apply Hsz.
    + intros l' ? ?. rewrite Hsz1. by apply Hnest.
    + rewrite Hsz1. lia.
    + by apply consistent_weaken.
    + rewrite Hsz1. intros ? ?. specialize (Hbelow ltac:(lia)). lia.
    + replace (Z.to_nat (lc - l)) with (S (Z.to_nat (lc - l - 1))) by lia.
      exists s2. split; [exact E|]. exists t2. split_and!; [done|split; congruence|congruence|done|..].
      * auto.
      * intros l' j ?. by rewrite Hlow2, Hlow by lia.
      * intros j. rewrite Hl2, Hbits. zcases; subst; done || lia.
Qed.

(** With a clear bit just below the padding, only the padding changes. *)
Definition pad_level (t : tree) (l lo : Z) : tree := {|
  sz := t.(sz); ln := t.(ln);
  lb := λ l' i, if (l' =? l) && (lo <=? i) && (i <? t.(sz) l) then true else t.(lb) l' i;
|}.

Lemma MarkUnallocatable_top :
  (0 < n → t.(lb) l (count n l - 1) = false) →
  ∃ s', MarkUnallocatable s l = Returns s' ∧ repr s' (pad_level t l (count n l)) ∧ in_sync s s'.
Proof using Hr Hsz Hn Hl Hlc Hsl.
  intros Htop. pose proof pad_bounds. unfold MarkUnallocatable.
  rewrite LevelBitCount_count, LevelBitCountRounded_count, <- Hsl by lia.
  edestruct (for_range_inv (λ i s', in_sync s s' ∧ repr s' {| sz := t.(sz); ln := t.(ln);
      lb := λ l' j, if (l' =? l) && (count n l <=? j) && (j <? i) then true else t.(lb) l' j |}))
    as (s' & E & Hs' & Hr'); cycle 3.
  - exists s'. split_and!; [exact E|exact Hr'|done].
  - lia.
  - split; [done|]. eapply repr_ext; [exact Hr|]. intros l' _. split_and!; [done..|].
    intros j _. cbn. zcases; done.
  - intros i s1 Hi [[Hid1 Hlc1] Hr1].
    unfold MarkBusyInternal, ZX_ASSERT. rewrite Hlc1. ztest. cbn [mbind outcome_bind].
    replace (Z.to_nat (lc - l)) with (S (Z.to_nat (lc - l - 1))) by lia. rewrite mark_busy_loop_S.
    edestruct (SetBitAt_ok _ _ l i Hr1) as (g & s2 & -> & Hr2 & Hid2 & Hlc2 & Hg); [done|lia|cbn; lia|].
    cbn [mbind outcome_bind]. destruct g; cbn [negb].
    + exfalso. assert (0 < n) by (pose proof (count_le n (l + 1)); lia).
      assert (Hgrp : (count n l - 1) / 64 = i / 64).
      { pose proof (count_succ n l). zlia. }
      pose proof (proj1 Hg eq_refl (count n l - 1) ltac:(zlia)) as Hf. cbn in Hf.
      rewrite Htop in Hf by done. revert Hf. ztest. cbn. done.
    + exists s2. split; [done|]. split; [split; congruence|]. eapply repr_ext; [exact Hr2|].
      intros l' _. split_and!; [done..|]. intros j _. cbn. zcases; done.
Qed.

End unallocatable.

(** ** Shrinking *)

Definition resize_level (t : tree) (l size : Z) (len : nat) : tree := {|
  sz := λ l', if l' =? l then size else t.(sz) l';
  ln := λ l', if l' =? l then len else t.(ln) l';
  lb := t.(lb);
|}.

Lemma repr_resize s t l b :
  repr s t → 0 ≤ l < 11 → raw_ok b → b.(size_) ≤ t.(sz) l →
  (∀ i, 0 ≤ i < b.(size_) → raw_bit b i = t.(lb) l i) →
  ∃ levels, array_set s.(levels_) l b = Returns levels ∧
    repr (with_levels s levels) (resize_level t l b.(size_) (length b.(data_))).
Proof.
  intros Hr Hl Hok Hle Hbits. destruct (repr_set_level s t l b Hr Hl Hok) as (levels & E & Hr').
  exists levels. split; [done|]. eapply repr_ext; [exact Hr'|]. intros l' _. cbn.
  split_and!; [done..|]. intros i. destruct (Z.eqb_spec l' l) as [->|]; [|done].
  intros Hi. by rewrite Hbits.
Qed.

Lemma levels_for_mono n n' lc lc' : levels_for n lc → levels_for n' lc' → n ≤ n' → lc ≤ lc'.
Proof.
  intros (? & ? & [->|Hlow]) (? & Hup & _) Hle; [lia|].
  destruct (Z.le_gt_cases lc lc'); [done|].
  pose proof (Z.pow_le_mono_r 64 lc' (lc - 1) ltac:(lia) ltac:(lia)). lia.
Qed.

(** The levels below [L] shrunk from [n0] ids to [n]. *)
Definition shrunk (t0 : tree) (n lc L : Z) (s : IdAllocator) : Prop :=
  s.(id_count_) = n ∧ s.(level_count_) = lc ∧ ∃ t, repr s t ∧
  (∀ l, 0 ≤ l < 11 → t.(sz) l =
     if l <? L then (if l <? lc then 64 * count n (l + 1) else 0) else t0.(sz) l) ∧
  consistent t 0 lc ∧
  (∀ l i, 0 ≤ l < L → l < lc → count n l ≤ i < t.(sz) l → t.(lb) l i = true) ∧
  (∀ i, 0 ≤ i < n → t.(lb) 0 i = t0.(lb) 0 i).

Section shrinking.
Context (st : Z → Storage) (t0 : tree) (n0 lc0 n lc : Z).
Hypothesis (Ht0 : tree_ok t0 n0 lc0) (Hn : 0 ≤ n < n0) (Hlf : levels_for n lc).

Lemma count_old l : 0 ≤ l → count n l ≤ count n0 l.
Proof using Hn. intros. apply count_mono; lia. Qed.

Lemma shrink_level_ok L s :
  0 ≤ L < lc0 → shrunk t0 n lc L s →
  ∃ s', shrink_level st L s = Returns s' ∧ shrunk t0 n lc (L + 1) s'.
Proof using Ht0 Hn Hlf.
  intros HL (Hid & Hlc & t & Hr & Hs & Hc & Hp & Hleaf).
  pose proof Ht0 as (Hn0 & Hlf0 & Hs0 & _). pose proof Hlf0 as (Hlc0 & _). pose proof Hlf as (Hlcb & _).
  pose proof (levels_for_mono n n0 lc lc0 Hlf Hlf0 ltac:(lia)) as Hle.
  unfold shrink_level. destruct (repr_get s t L Hr) as (b & -> & Hok & Hsb & _ & Hbits); [lia|].
  cbn [mbind outcome_bind]. rewrite Hlc. destruct (Z.leb_spec lc L).
  - unfold RawBitmap.Reset. cbn [Z.eqb mbind outcome_bind fst snd].
    destruct (repr_resize s t L {| size_ := 0; data_ := [] |} Hr) as (levels & E & Hr'); cbn [size_ data_] in *;
      [lia|apply raw_ok_intro; [lia|cbn; lia|constructor]|rewrite Hs by lia; ztest; rewrite Hs0 by lia;
       destruct (L <? lc0); pose proof (count_nonneg n0 (L + 1)); lia|lia|].
    rewrite failed_ok. cbn [negb ZX_ASSERT mbind outcome_bind]. rewrite E.
    eexists. split; [done|]. split_and!; [done..|]. exists (resize_level t L 0 0). split_and!; [done| | | |done].
    + intros l Hl. cbn. rewrite Hs by lia. zcases; done.
    + intros l p (? & ? & ? & Hin & Hin'). cbn in Hin, Hin'. apply (Hc l p). repeat split; try lia.
      * destruct (Z.eqb_spec l L); lia.
      * destruct (Z.eqb_spec (l + 1) L); lia.
    + intros l i ? ? Hi. cbn in Hi |- *. destruct (Z.eqb_spec l L); [lia|]. apply Hp; lia.
  - assert (Hsize : LevelBitCountRounded s L = 64 * count n (L + 1))
      by (rewrite LevelBitCountRounded_count by (rewrite ?Hid; lia); by rewrite Hid).
    assert (HsL : t.(sz) L = 64 * count n0 (L + 1)) by (rewrite Hs, Hs0 by lia; by ztest).
    pose proof (count_old (L + 1) ltac:(lia)). pose proof (count_nonneg n (L + 1) ltac:(lia) ltac:(lia)).
    unfold RawBitmap.Shrink. rewrite Hsize, Hsb. ztest.
    rewrite failed_ok. cbn [negb ZX_ASSERT mbind outcome_bind].
    destruct (repr_resize s t L {| size_ := 64 * count n (L + 1); data_ := data_ b |} Hr)
      as (levels & -> & Hr'); cbn [size_ data_] in *;
      [lia|destruct Hok as (? & ? & ?); apply raw_ok_intro; [lia|unfold kBits in *; lia|done]|lia
       |intros i Hi; apply (Hbits i); lia|].
    cbn [mbind outcome_bind]. set (t1 := resize_level t L (64 * count n (L + 1)) _) in *.
    pose proof (shaped_sized t0 n0 lc0 Hn0 Hs0) as Hsized.
    assert (Hs1 : ∀ l, 0 ≤ l < 11 → t1.(sz) l =
      if l <? L + 1 then (if l <? lc then 64 * count n (l + 1) else 0) else t0.(sz) l).
    { intros l Hl. cbn. rewrite Hs by lia. zcases; subst; done || lia. }
    assert (Hc1 : consistent t1 0 lc).
    { intros l p (? & ? & ? & Hin & Hin'). cbn in Hin, Hin'. apply (Hc l p). repeat split; try lia.
      - destruct (Z.eqb_spec l L); subst; lia.
      - destruct (Z.eqb_spec (l + 1) L) as [E|]; [rewrite E in *|]; lia. }
    destruct (MarkUnallocatable_ok (with_levels s levels) t1 L Hr')
      as (s' & t' & E & Hr2 & [Hid2 Hlc2] & Hs2 & Hc2 & Hmono & Hlow & HL2); cbn [id_count_ level_count_ with_levels].
    + intros l Hl. rewrite Hs1 by lia. destruct (Z.ltb_spec l (L + 1)); [|by apply Hsized].
      pose proof (count_old (l + 1) ltac:(lia)). pose proof (count_nonneg n (l + 1) ltac:(lia) ltac:(lia)).
      destruct (Hsized l Hl) as [_ Hb]. rewrite Hs0 in Hb by lia. revert Hb. ztest. intros Hb.
      split; [exists (count n (l + 1)); lia|lia].
    + lia.
    + lia.
    + lia.
    + rewrite Hs1 by lia. ztest. by rewrite Hid.
    + rewrite Hlc. intros l ? ?. rewrite !Hs1 by lia. rewrite !Hs0 by lia.
      pose proof (count_old (l + 1 + 1) ltac:(lia)). pose proof (count_old (l + 1) ltac:(lia)).
      pose proof (count_succ n (l + 1) ltac:(lia)). pose proof (count_succ n0 (l + 1) ltac:(lia)). zcases; zlia.
    + by rewrite Hlc.
    + intros HL0. rewrite Hs1 by lia. ztest. rewrite Hid. replace (L - 1 + 1) with L by lia. lia.
    + cbn [with_levels id_count_ level_count_] in Hid2, Hlc2, Hc2, HL2. rewrite Hlc, Hid in *.
      exists s'. split; [exact E|]. split_and!; [congruence..|]. exists t'. rewrite Hs2.
      split_and!; [done..| |].
      * intros l i ? ? Hi. rewrite Hs1 in Hi by lia. destruct (Z.eq_dec l L) as [->|].
        -- rewrite HL2. revert Hi. ztest. intros Hi. rewrite Hs1 by lia. by ztest.
        -- rewrite Hlow by lia. apply Hp; [lia..|]. rewrite Hs by lia. revert Hi. by ztest.
      * intros i Hi. destruct (Z.eq_dec L 0) as [->|].
        -- rewrite HL2, count_0. ztest. by apply Hleaf.
        -- rewrite Hlow by lia. by apply Hleaf.
Qed.

End shrinking.

Lemma Shrink_ok st s t n :
  ida_ok s t → 0 ≤ n < s.(id_count_) →
  ∃ s' t', Shrink st s n = Returns (ZX_OK, s') ∧ ida_ok s' t' ∧ s'.(id_count_) = n ∧
    ∀ i, 0 ≤ i < n → t'.(lb) 0 i = t.(lb) 0 i.
Proof.
  intros [Hr Ht] Hn. pose proof Ht as (Hn0 & Hlf0 & Hs0 & Hp0 & Hc0). pose proof Hlf0 as (Hlc0 & _).
  unfold Shrink. ztest.
  destruct (GetLevels_ok (id_count_ s)) as (lc0 & -> & Hlf0'); [lia|]. cbn [mbind outcome_bind].
  assert (lc0 = level_count_ s) as ->.
  { pose proof (levels_for_mono _ _ _ _ Hlf0 Hlf0'). pose proof (levels_for_mono _ _ _ _ Hlf0' Hlf0). lia. }
  destruct (GetLevels_ok n) as (lc & -> & Hlf); [lia|]. cbn [mbind outcome_bind].
  pose proof (levels_for_mono _ _ _ _ Hlf Hlf0 ltac:(lia)). pose proof Hlf as (? & _).
  edestruct (for_range_inv (shrunk t n lc) 0 (level_count_ s)) as (s' & -> & Hid & Hlc & t' & Hr' & Hs & Hc & Hp & Hleaf);
    [lia| |intros L s1 HL; by eapply shrink_level_ok|].
  - split_and!; [done..|]. exists t. split_and!; [done| | | |done].
    + intros l ?. by ztest.
    + intros l p (? & ? & ?). apply Hc0. unfold in_tree. lia.
    + lia.
  - cbn [mbind outcome_bind]. exists s', t'. split_and!; [done| |done..]. split; [done|].
    rewrite Hid, Hlc. split_and!; [lia|lia|done| | |done].
    + intros l Hl. rewrite Hs by lia. zcases; try done. rewrite Hs0 by lia. by ztest.
    + intros l i ? Hi. apply Hp; lia.
Qed.

(** ** Growing *)

(** The padding of every level freed. *)
Definition unpadded (t0 t : tree) (n lc L : Z) : Prop :=
  t.(sz) = t0.(sz) ∧ t.(ln) = t0.(ln) ∧ consistent t 0 lc ∧
  (∀ l i, 0 ≤ l < L → count n l ≤ i < t.(sz) l → t.(lb) l i = false) ∧
  (∀ i, 0 ≤ i < n → t.(lb) 0 i = t0.(lb) 0 i).

Lemma MarkAllAllocatable_ok s t0 t L :
  tree_ok t0 s.(id_count_) s.(level_count_) → 0 ≤ L < s.(level_count_) → repr s t →
  unpadded t0 t s.(id_count_) s.(level_count_) L →
  ∃ s' t', MarkAllAllocatable s L = Returns s' ∧ repr s' t' ∧ in_sync s s' ∧
    unpadded t0 t' s.(id_count_) s.(level_count_) (L + 1).
Proof.
  intros Ht0 HL Hr (Hs & Hln & Hc & Hp & Hleaf).
  pose proof Ht0 as (Hn & Hlf & Hs0 & _). pose proof Hlf as (Hlc & _).
  pose proof (shaped_sized _ _ _ Hn Hs0) as Hsized.
  assert (HsL : t0.(sz) L = 64 * count (id_count_ s) (L + 1)) by (rewrite Hs0 by lia; by ztest).
  pose proof (pad_bounds s t0 L Hn ltac:(lia) HsL).
  unfold MarkAllAllocatable. rewrite LevelBitCount_count, LevelBitCountRounded_count, <- HsL by lia.
  edestruct (for_range_inv (λ i s', ∃ t', repr s' t' ∧ in_sync s s' ∧
      unpadded t0 t' (id_count_ s) (level_count_ s) L ∧
      ∀ j, count (id_count_ s) L ≤ j < i → t'.(lb) L j = false))
    as (s' & E & t' & Hr' & Hsync & (Hs' & Hln' & Hc' & Hp' & Hleaf') & Hnew); cycle 3.
  - exists s', t'. split_and!; [exact E|done..|]. split_and!; [done..| |done].
    intros l i ? Hi. rewrite Hs' in Hi. destruct (Z.eq_dec l L) as [->|]; [apply Hnew; lia|].
    apply Hp'; [lia|]. by rewrite Hs'.
  - lia.
  - exists t. split_and!; [done..|]. lia.
  - intros i s1 Hi (t1 & Hr1 & [Hid1 Hlc1] & (Hs1 & Hln1 & Hc1 & Hp1 & Hleaf1) & Hnew1).
    unfold MarkFreeInternal. rewrite Hlc1.
    destruct (mark_free_loop_ok 0 (level_count_ s) ltac:(lia) ltac:(lia) (Z.to_nat (level_count_ s - L)) s1 t1 L i)
      as (s2 & t2 & E & Hr2 & Hid2 & Hlc2 & _ & Hm).
    + lia.
    + lia.
    + done.
    + intros l ?. rewrite Hs1. by apply Hsized.
    + intros l ? ?. rewrite Hs1. eapply shaped_nested; [| |done|lia|lia]; lia.
    + intros _. rewrite Hs1. lia.
    + by apply consistent_weaken.
    + intros ?. rewrite Hs1, Hs0 by lia. ztest. replace (L - 1 + 1) with L by lia. lia.
    + destruct (Hm ltac:(lia)) as (Hs2 & Hln2 & Hc2 & Hv & Hlow & HL2 & _).
      exists s2. split; [exact E|]. exists t2. split_and!; [done|split; congruence| |].
      * split_and!; [congruence..|done| |].
        -- intros l j ? Hj. apply Hv, Hp1; [done|congruence].
        -- intros j Hj. destruct (Z.eq_dec L 0) as [->|]; [|rewrite Hlow by lia; by apply Hleaf1].
           rewrite HL2. rewrite count_0 in Hi. ztest. by apply Hleaf1.
      * intros j Hj. destruct (Z.eq_dec j i) as [->|]; [rewrite HL2; by ztest|]. apply Hv, Hnew1. lia.
Qed.

Lemma unpad_all s t :
  ida_ok s t →
  ∃ s' t', for_range 0 s.(level_count_) (λ level s, MarkAllAllocatable s level) s = Returns s' ∧
    repr s' t' ∧ in_sync s s' ∧ unpadded t t' s.(id_count_) s.(level_count_) s.(level_count_).
Proof.
  intros [Hr Ht]. pose proof Ht as (Hn & Hlf & Hs & Hp & Hc). pose proof Hlf as (Hlc & _).
  edestruct (for_range_inv (λ L s', ∃ t', repr s' t' ∧ in_sync s s' ∧
      unpadded t t' (id_count_ s) (level_count_ s) L) 0 (level_count_ s))
    as (s' & E & t' & ?); cycle 3.
  - exists s', t'. split; [exact E|done].
  - lia.
  - exists t. split_and!; [done..|]. split_and!; [done..|lia|done].
  - intros L s1 HL (t1 & Hr1 & [Hid1 Hlc1] & Hu).
    destruct (MarkAllAllocatable_ok s1 t t1 L) as (s2 & t2 & E & Hr2 & [Hid2 Hlc2] & Hu2);
      rewrite ?Hid1, ?Hlc1; [done|lia|done|done|].
    exists s2. split; [exact E|]. exists t2. rewrite Hid1, Hlc1 in Hu2.
    split_and!; [done|split; congruence|done].
Qed.

(** Storage that never fails, for contents of [len] words. *)
Class Reliable (st : Storage) (len : nat) := {
  reliable_allocate :: AllocateOk st;
  reliable_allocate_status : ∀ old size, fst (st.(RawBitmap.Allocate) old size) = ZX_OK;
  reliable_grow : ∃ grow, st.(GrowStorage) = Some grow ∧
    (∀ old, length old = len → GrowOk st old) ∧ ∀ old size, fst (grow old size) = ZX_OK;
}.

Lemma Reset_reliable st len b size :
  Reliable st len → 0 ≤ size < 2 ^ 64 →
  ∃ b', RawBitmap.Reset st b size = Returns (ZX_OK, b') ∧ raw_ok b' ∧ b'.(size_) = size ∧
    all_bits (raw_bit b') 0 size false.
Proof.
  intros Hst Hsz. destruct (Reset_ok st b size Hsz) as (s & b' & E & Hs & Hb).
  assert (s = ZX_OK) as ->.
  { revert E. unfold RawBitmap.Reset. destruct (size =? 0); [by intros [= <- _]|].
    pose proof (reliable_allocate_status (data_ b) (8 ⊠ (LastIdx size ⊞ 1))) as Ha.
    destruct (RawBitmap.Allocate _ _ _) as [s1 d]. cbn in Ha. subst s1. cbn.
    destruct (RawBitmap.ClearAll _); cbn; by intros [= <- _]. }
  exists b'. destruct (Hb eq_refl). by split_and!.
Qed.

Lemma Grow_reliable st b size :
  Reliable st (length b.(data_)) → raw_ok b → 0 < b.(size_) ≤ size → size ≤ 2 ^ 64 - 64 →
  ∃ b', RawBitmap.Grow st b size = Returns (ZX_OK, b') ∧ raw_ok b' ∧ b'.(size_) = size ∧
    ∀ k, 0 ≤ k < size → raw_bit b' k = (k <? b.(size_)) && raw_bit b k.
Proof.
  intros Hst Hok Hsz Hlt. destruct (reliable_grow (st := st)) as (grow & Hg & Hgok & Hgs).
  destruct (Z.eq_dec (size_ b) size) as [E|].
  { exists b. unfold RawBitmap.Grow. rewrite Hg. ztest. split_and!; [done..|].
    intros k Hk. by ztest. }
  pose proof (Hgok (data_ b) eq_refl).
  destruct (Grow_ok st b size grow Hok Hg) as (s & b' & E & Hok' & Hb & _); [lia..|].
  assert (s = ZX_OK) as ->.
  { revert E. unfold RawBitmap.Grow. rewrite Hg. ztest. destruct (ZX_ASSERT _); [|done..].
    cbn [mbind outcome_bind]. specialize (Hgs (data_ b) (8 ⊠ (LastIdx size ⊞ 1))).
    destruct (grow _ _) as [s1 d]. cbn in Hgs. subst s1. cbn.
    destruct (memset_words _ _ _); cbn; [|done..].
    destruct (RawBitmap.Clear _ _ _); cbn; by intros [= <- _]. }
  exists b'. destruct (Hb eq_refl). by split_and!.
Qed.

Section growing.
Context (st : Z → Storage) (t1 : tree) (n lc n2 lc2 : Z).
Hypothesis (Hn : 0 ≤ n < n2) (Hn2 : n2 ≤ 2 ^ 60) (Hlc : 0 ≤ lc ≤ lc2)
  (Hlf : n = 0 ∨ levels_for n lc) (Hlf2 : levels_for n2 lc2) (Hs1 : shaped t1 n lc)
  (Hc1 : consistent t1 0 lc)
  (Hp1 : ∀ l i, 0 ≤ l < lc → count n l ≤ i < t1.(sz) l → t1.(lb) l i = false)
  (Hst : ∀ l, 0 ≤ l < 11 → Reliable (st l) (t1.(ln) l)).

(** The last bit of a level that addresses an id. *)
#[local] Notation top l := (count n2 l - 1).

Lemma top_succ l : 0 ≤ l → top (l + 1) = top l / 64.
Proof using Hn. intros. rewrite count_succ by lia. zlia. Qed.

Lemma top_nonneg l : 0 ≤ l → 0 ≤ top l.
Proof using Hn. intros. pose proof (count_spec n2 l 0). lia. Qed.

Lemma sz1_cases l : 0 ≤ l < 11 →
  t1.(sz) l = 0 ∨ (l < lc ∧ 0 < n ∧ t1.(sz) l = 64 * count n (l + 1) ∧ 0 < t1.(sz) l).
Proof using Hn Hs1.
  intros Hl. rewrite Hs1 by lia. destruct (Z.ltb_spec l lc); [|by left].
  destruct (Z.eq_dec n 0); [left|right].
  - rewrite count_succ by lia. pose proof (count_le n l). pose proof (count_nonneg n l). zlia.
  - pose proof (count_spec n (l + 1) 0). lia.
Qed.

(** The bit over the last new id is not set in a level that already has it. *)
Lemma top_clear_old l : 0 ≤ l → l < lc → top l < t1.(sz) l → t1.(lb) l (top l) = false.
Proof using Hn Hlc Hlf2 Hs1 Hc1 Hp1.
  pose proof Hlf2 as (Hlcb & _).
  intros Hl. pattern l. apply natlike_ind; [| |exact Hl]; clear l Hl.
  - intros ? ?. apply Hp1; [lia|]. rewrite !count_0 in *. lia.
  - intros l Hl IH Hlt Htop. rewrite <- Z.add_1_r in *. specialize (IH ltac:(lia)).
    destruct (Z.lt_ge_cases (top (l + 1)) (count n (l + 1))).
    + assert (Hsl : t1.(sz) l = 64 * count n (l + 1)) by (rewrite Hs1 by lia; by ztest).
      pose proof (top_succ l Hl). pose proof (top_nonneg (l + 1) ltac:(lia)).
      assert (top l < sz t1 l) as Hlt' by zlia. specialize (IH Hlt').
      assert (Hlink : linked t1 l (top (l + 1))) by (apply Hc1; repeat split; lia).
      destruct (lb t1 (l + 1) (top (l + 1))) eqn:E; [|done]. apply Hlink in E.
      rewrite E in IH by zlia. done.
    + apply Hp1; lia.
Qed.

(** A level of the grown tree. *)
Definition grown_level (t : tree) (l : Z) : Prop :=
  t.(sz) l = 64 * count n2 (l + 1) ∧
  (∀ i, count n2 l ≤ i < t.(sz) l → t.(lb) l i = true) ∧
  (∀ i, 0 ≤ i < count n2 l →
     if t1.(sz) l =? 0 then t.(lb) l i = true ↔ i = 0 ∧ 0 < l ∧ full t (l - 1) 0
     else t.(lb) l i = (i <? t1.(sz) l) && t1.(lb) l i) ∧
  t.(lb) l (top l) = false.

Definition grown (t : tree) (L : Z) : Prop :=
  (∀ l, 0 ≤ l < L → grown_level t l) ∧
  (∀ l, L ≤ l < 11 → t.(sz) l = t1.(sz) l ∧ t.(ln) l = t1.(ln) l ∧
     ∀ i, 0 ≤ i < t1.(sz) l → t.(lb) l i = t1.(lb) l i).

(** Growing or adding level [L], before its padding is set. *)
Lemma grow_bitmap s t L b :
  repr s t → grown t L → 0 ≤ L < lc2 → s.(id_count_) = n2 →
  array_get s.(levels_) L = Returns b → raw_ok b → b.(size_) = t1.(sz) L →
  length b.(data_) = t1.(ln) L → (∀ i, 0 ≤ i < t1.(sz) L → raw_bit b i = t1.(lb) L i) →
  ∃ b', (if b.(size_) =? 0 then
           r ← RawBitmap.Reset (st L) b (64 * count n2 (L + 1));
           let '(status, b) := r in
           full ← (if 0 <? L then
                     below ← array_get s.(levels_) (L - 1);
                     g ← RawBitmap.Get below 0 kMaxChildren; Returns (fst g)
                   else Returns false);
           if (full : bool) then r ← SetOne b 0; Returns (status, snd r)
           else Returns (status, b)
         else RawBitmap.Grow (st L) b (64 * count n2 (L + 1))) = Returns (ZX_OK, b') ∧
    raw_ok b' ∧ b'.(size_) = 64 * count n2 (L + 1) ∧
    (∀ i, 0 ≤ i < 64 * count n2 (L + 1) →
       if t1.(sz) L =? 0 then raw_bit b' i = true ↔ i = 0 ∧ 0 < L ∧ full t (L - 1) 0
       else raw_bit b' i = (i <? t1.(sz) L) && t1.(lb) L i).
Proof using Hn Hn2 Hlc Hlf Hlf2 Hs1 Hp1 Hst.
  intros Hr [Hg _] HL Hid Hb Hok Hsb Hlen Hbits. pose proof Hlf2 as (Hlcb & _).
  pose proof (count_spec n2 (L + 1) 0 ltac:(lia)). pose proof (count_le n2 L ltac:(lia) ltac:(lia)).
  assert (64 * count n2 (L + 1) ≤ n2 + 63) by (rewrite count_succ by lia; zlia).
  specialize (Hst L ltac:(lia)). rewrite Hsb. destruct (Z.eqb_spec (sz t1 L) 0) as [Hz|Hnz].
  - destruct (Reset_reliable (st L) _ b (64 * count n2 (L + 1)) Hst) as (b1 & -> & Hok1 & Hs1' & Hall); [lia|].
    cbn [mbind outcome_bind]. destruct (Z.ltb_spec 0 L).
    + destruct (repr_get s t (L - 1) Hr) as (below & -> & Hbok & Hbs & _ & Hbb); [lia|].
      destruct (Hg (L - 1)) as (HsL & _); [lia|]. replace (L - 1 + 1) with L in HsL by lia.
      pose proof (count_spec n2 L 0 ltac:(lia)).
      cbn [mbind outcome_bind]. change kMaxChildren with 64.
      destruct (Get_ok below 0 64 Hbok) as (g & x & -> & Hget & _); [lia|lia|]. cbn [mbind outcome_bind fst].
      assert (Hfull : g = true ↔ full t (L - 1) 0).
      { rewrite Hget. unfold all_bits, full. split; intros Ha j Hj; specialize (Ha j ltac:(lia));
          rewrite Hbb in *; done || lia. }
      destruct g.
      * unfold SetOne. cbn [Bitmap.Set_ raw_bitmap]. unwrap.
        destruct (Set_ok b1 0 (0 + 1) Hok1) as (b2 & -> & Hok2 & Hs2 & _ & Hb2); [lia..|].
        cbn [mbind outcome_bind snd]. exists b2. split_and!; [done..|lia|]. intros i Hi.
        rewrite Hb2 by lia. rewrite Hall by lia. rewrite orb_false_r, andb_true_iff, Z.leb_le, Z.ltb_lt.
        naive_solver lia.
      * exists b1. split_and!; [done..|]. intros i Hi. rewrite Hall by lia. naive_solver.
    + cbn [mbind outcome_bind]. exists b1. split_and!; [done..|]. intros i Hi. rewrite Hall by lia. naive_solver lia.
  - destruct (sz1_cases L) as [?|(HLlc & Hn0 & HsL & Hpos)]; [lia|lia|].
    pose proof (count_mono n n2 (L + 1) ltac:(lia) ltac:(lia)). rewrite <- Hlen in Hst.
    destruct (Grow_reliable (st L) b (64 * count n2 (L + 1)) Hst Hok) as (b' & -> & Hok' & Hs' & Hb'); [lia..|].
    exists b'. split_and!; [done..|]. intros i Hi. rewrite Hb' by lia. rewrite Hsb.
    destruct (Z.ltb_spec i (sz t1 L)); [|done]. cbn. apply Hbits. lia.
Qed.

(** The level with the grown bitmap and its padding. *)
Lemma grown_step t L b :
  grown t L → 0 ≤ L < lc2 → b.(size_) = 64 * count n2 (L + 1) →
  (∀ i, 0 ≤ i < 64 * count n2 (L + 1) →
     if t1.(sz) L =? 0 then raw_bit b i = true ↔ i = 0 ∧ 0 < L ∧ full t (L - 1) 0
     else raw_bit b i = (i <? t1.(sz) L) && t1.(lb) L i) →
  raw_bit b (top L) = false ∧ grown (pad_level (set_level t L b) L (count n2 L)) (L + 1).
Proof using Hn Hn2 Hlc Hlf Hlf2 Hs1 Hc1 Hp1.
  intros [Hg Hrest] HL Hsb Hbits. pose proof Hlf2 as (Hlcb & _).
  pose proof (count_spec n2 L 0 ltac:(lia)). pose proof (count_succ n2 L ltac:(lia)).
  assert (Htop : raw_bit b (top L) = false).
  { specialize (Hbits (top L) ltac:(zlia)). destruct (Z.eqb_spec (sz t1 L) 0).
    - apply not_true_is_false. rewrite Hbits. intros (Ht0 & HL0 & Hfull).
      destruct (Hg (L - 1)) as (_ & _ & _ & Hc); [lia|].
      pose proof (top_succ (L - 1) ltac:(lia)) as Hts. replace (L - 1 + 1) with L in Hts by lia.
      pose proof (top_nonneg (L - 1) ltac:(lia)). rewrite Hfull in Hc by zlia. done.
    - rewrite Hbits. destruct (Z.ltb_spec (top L) (sz t1 L)); [|done]. cbn.
      destruct (sz1_cases L) as [?|(? & _)]; [lia|lia|]. apply top_clear_old; lia. }
  split; [done|].
  assert (Hlow : ∀ l i, 0 ≤ l < L → lb (pad_level (set_level t L b) L (count n2 L)) l i = lb t l i)
    by (intros l i ?; cbn; by ztest).
  split.
  - intros l Hl. destruct (Z.eq_dec l L) as [->|].
    + split_and!; cbn; rewrite ?Z.eqb_refl, ?Hsb; cbn [andb].
      * done.
      * intros i Hi. by ztest.
      * intros i Hi. specialize (Hbits i ltac:(zlia)). ztest. cbn.
        destruct (sz t1 L =? 0); [|done]. rewrite Hbits. unfold full.
        split; intros (? & ? & Hf); split_and!; try done; intros j Hj; specialize (Hf j Hj);
          rewrite Hlow in *; done || lia.
      * ztest. cbn. done.
    + destruct (Hg l ltac:(lia)) as (Hs & Hp & Hb & Ht). split_and!; cbn -[full]; ztest; cbn -[full]; try done.
      intros i Hi. specialize (Hb i Hi). destruct (sz t1 l =? 0); [|done]. rewrite Hb. unfold full.
      split; intros (? & ? & Hf); split_and!; try done; intros j Hj; specialize (Hf j Hj);
        rewrite Hlow in *; done || lia.
  - intros l Hl. cbn. ztest. cbn. apply Hrest. lia.
Qed.

Lemma grown_sized t L : grown t L → L ≤ 11 → sized t.
Proof using Hn Hn2 Hs1.
  intros [Hg Hrest] HL l Hl. destruct (Z.lt_ge_cases l L).
  - destruct (Hg l ltac:(lia)) as (-> & _). apply level_size_bounds; lia.
  - destruct (Hrest l ltac:(lia)) as (-> & _). eapply shaped_sized; [|done..]. lia.
Qed.

Lemma grow_loop_ok k L s t :
  L + Z.of_nat k = lc2 → 0 ≤ L → repr s t → grown t L → s.(id_count_) = n2 → s.(level_count_) = lc2 →
  ∃ s' t', grow_loop st k s L = Returns (ZX_OK, s') ∧ repr s' t' ∧ grown t' lc2 ∧ in_sync s s'.
Proof using Hn Hn2 Hlc Hlf Hlf2 Hs1 Hc1 Hp1 Hst.
  revert L s t. induction k as [|k IH]; intros L s t Hk HL Hr Hg Hid Hlcs.
  { exists s, t. split_and!; [done..| |done]. by replace lc2 with L by lia. }
  pose proof Hlf2 as (Hlcb & _). cbn [grow_loop].
  rewrite LevelBitCountRounded_count, Hid by lia.
  destruct (repr_get s t L Hr) as (b & Hget & Hok & Hsb & Hlen & Hbits); [lia|].
  pose proof Hg as [_ Hrest]. destruct (Hrest L ltac:(lia)) as (HsL & HnL & HbL).
  rewrite Hget. cbn [mbind outcome_bind].
  destruct (grow_bitmap s t L b) as (b' & E & Hok' & Hs' & Hb'); [done|done|lia|done|done|done|congruence..| |].
  { intros i Hi. rewrite Hbits by lia. by apply HbL. }
  rewrite E. cbn [mbind outcome_bind].
  destruct (repr_set_level s t L b' Hr) as (levels & -> & Hr'); [lia|done|].
  cbn [mbind outcome_bind]. rewrite failed_ok. cbn [mbind outcome_bind].
  destruct (grown_step t L b' Hg ltac:(lia) Hs' Hb') as [Htop Hg'].
  destruct (MarkUnallocatable_top (with_levels s levels) (set_level t L b') L Hr')
    as (s2 & -> & Hr2 & [Hid2 Hlc2]); cbn [with_levels id_count_ level_count_] in *; rewrite ?Hid, ?Hlcs.
  - apply (grown_sized _ _ Hg'). lia.
  - lia.
  - lia.
  - lia.
  - cbn. by rewrite Z.eqb_refl.
  - intros _. cbn. by rewrite Z.eqb_refl.
  - cbn [mbind outcome_bind]. rewrite Hid in Hr2.
    destruct (IH (L + 1) s2 (pad_level (set_level t L b') L (count n2 L)))
      as (s3 & t3 & -> & Hr3 & Hg3 & Hsync); [lia|lia|done|done|congruence..|].
    exists s3, t3. split_and!; [done..|]. eapply in_sync_trans; [|done]. by split.
Qed.

(** The grown tree is consistent. *)
Lemma grown_consistent t : grown t lc2 → consistent t 0 lc2.
Proof using Hn Hn2 Hlc Hlf Hlf2 Hs1 Hc1 Hp1.
  intros [Hg _] l p (Hl & Hl2 & Hp & Hdom & Hp'). pose proof Hlf2 as (Hlcb & _).
  destruct (Hg l ltac:(lia)) as (Hs & _ & Hb & Ht).
  destruct (Hg (l + 1) ltac:(lia)) as (Hs' & _ & Hb' & Ht').
  pose proof (top_succ l Hl) as Hts. pose proof (top_nonneg l Hl). unfold linked.
  destruct (Z.eq_dec p (top (l + 1))) as [->|].
  { rewrite Ht'. split; [done|]. intros Hf. rewrite Hf in Ht by zlia. done. }
  specialize (Hb' p ltac:(zlia)).
  assert (Hchild : ∀ j, 64 * p ≤ j < 64 * p + 64 → 0 ≤ j < count n2 l) by (intros j Hj; zlia).
  destruct (Z.eqb_spec (sz t1 (l + 1)) 0).
  - rewrite Hb'. replace (l + 1 - 1) with l by lia. split; [by intros (-> & _ & ?)|].
    intros Hf. destruct (Z.eq_dec p 0) as [->|]; [by split_and!; try lia|exfalso].
    pose proof (Hf (64 * p) ltac:(lia)) as Hf0. specialize (Hb (64 * p) (Hchild (64 * p) ltac:(lia))).
    destruct (Z.eqb_spec (sz t1 l) 0) as [|Hnz]; [apply Hb in Hf0; lia|].
    destruct (sz1_cases l) as [?|(Hlt & Hn0 & HsL & _)]; [lia|done|].
    destruct (sz1_cases (l + 1)) as [?|(? & _ & _ & ?)]; [lia| |lia].
    assert (l + 1 = lc) as Hroot.
    { destruct (Z.lt_ge_cases (l + 1) lc); [|lia]. pose proof (count_spec n (l + 1 + 1) 0 ltac:(lia)).
      pose proof (Hs1 (l + 1) ltac:(lia)) as E. revert E. ztest. lia. }
    destruct Hlf as [?|Hlf']; [lia|]. pose proof (count_top n lc Hlf'). rewrite Hroot in HsL.
    rewrite Hb in Hf0. revert Hf0. by ztest.
  - destruct (sz1_cases (l + 1)) as [?|(Hlt & Hn0 & HsL' & _)]; [lia|done|].
    assert (HsL : sz t1 l = 64 * count n (l + 1)) by (rewrite Hs1 by lia; by ztest).
    pose proof (count_spec n (l + 1) 0 ltac:(lia)).
    assert (Hbl : ∀ j, 64 * p ≤ j < 64 * p + 64 → lb t l j = (j <? sz t1 l) && lb t1 l j).
    { intros j Hj. specialize (Hb j (Hchild j Hj)). destruct (Z.eqb_spec (sz t1 l) 0); [lia|done]. }
    rewrite Hb'. destruct (Z.lt_ge_cases p (count n (l + 1))) as [Hlt'|Hge].
    + assert (p < sz t1 (l + 1)) by (rewrite HsL', count_succ by lia; zlia).
      assert (Hlink : linked t1 l p) by (apply Hc1; repeat split; lia).
      unfold linked in Hlink. ztest. cbn [andb]. rewrite Hlink. unfold full. split; intros Hf j Hj.
      * rewrite Hbl by done. ztest. by apply Hf.
      * specialize (Hf j Hj). rewrite Hbl in Hf by done. revert Hf. by ztest.
    + split.
      * destruct (Z.ltb_spec p (sz t1 (l + 1))); [|done]. cbn. rewrite Hp1 by lia. done.
      * intros Hf. specialize (Hf (64 * p) ltac:(lia)). rewrite Hbl in Hf by lia. revert Hf. by ztest.
Qed.

Lemma grown_ok t : grown t lc2 →
  tree_ok t n2 lc2 ∧ ∀ i, 0 ≤ i < n2 → t.(lb) 0 i = (i <? n) && t1.(lb) 0 i.
Proof using Hn Hn2 Hlc Hlf Hlf2 Hs1 Hc1 Hp1.
  intros Hgr. pose proof Hgr as [Hg Hrest]. pose proof Hlf2 as (Hlcb & _). split.
  - split_and!; [lia|lia|done| | |by apply grown_consistent].
    + intros l Hl. destruct (Z.ltb_spec l lc2).
      * by destruct (Hg l ltac:(lia)) as (-> & _).
      * destruct (Hrest l ltac:(lia)) as (-> & _). rewrite Hs1 by lia. by ztest.
    + intros l i Hl. by apply (Hg l Hl).
  - intros i Hi. destruct (Hg 0 ltac:(lia)) as (_ & _ & Hb & _). rewrite count_0 in Hb. specialize (Hb i Hi).
    destruct (Z.eqb_spec (sz t1 0) 0) as [Hz|Hnz].
    + assert (n ≤ 0) by (revert Hz; rewrite Hs1 by lia; destruct Hlf as [?|(? & _)]; [lia|];
        ztest; rewrite count_succ, count_0 by lia; zlia).
      ztest. cbn. apply not_true_is_false. rewrite Hb. lia.
    + rewrite Hb. destruct (sz1_cases 0) as [?|(Hlt & Hn0 & HsL & _)]; [lia|done|].
      rewrite count_succ, count_0 in HsL by lia.
      destruct (Z.ltb_spec i n), (Z.ltb_spec i (sz t1 0)); cbn; try done; [zlia|].
      apply Hp1; [lia|]. rewrite count_0. lia.
Qed.

End growing.

Lemma ida_Grow_ok st s t n2 :
  ida_ok s t → s.(id_count_) < n2 ≤ 2 ^ 60 →
  (∀ l, 0 ≤ l < 11 → Reliable (st l) (t.(ln) l)) →
  ∃ s' t', Grow st s n2 = Returns (ZX_OK, s') ∧ ida_ok s' t' ∧ s'.(id_count_) = n2 ∧
    ∀ i, 0 ≤ i < n2 → t'.(lb) 0 i = (i <? s.(id_count_)) && t.(lb) 0 i.
Proof.
  intros Hok Hn Hst. pose proof Hok as [Hr Ht]. pose proof Ht as (Hn0 & Hlf & Hs & _).
  unfold Grow, kMaxId, SIZE_MAX. ztest.
  destruct (unpad_all s t Hok) as (s1 & t1 & -> & Hr1 & [Hid1 Hlc1] & Hs1 & Hln1 & Hc1 & Hp1 & Hleaf1).
  cbn [mbind outcome_bind]. unfold GrowInternal.
  destruct (GetLevels_ok n2) as (lc2 & -> & Hlf2); [lia|]. cbn [mbind outcome_bind].
  pose proof (levels_for_mono _ _ _ _ Hlf Hlf2 ltac:(lia)). pose proof Hlf as (? & _). pose proof Hlf2 as (? & _).
  assert (Hsh1 : shaped t1 (id_count_ s) (level_count_ s)) by (intros l Hl; rewrite Hs1; by apply Hs).
  assert (Hst1 : ∀ l, 0 ≤ l < 11 → Reliable (st l) (t1.(ln) l)) by (intros l Hl; rewrite Hln1; by apply Hst).
  edestruct (grow_loop_ok st t1 (id_count_ s) (level_count_ s) n2 lc2 ltac:(lia) ltac:(lia) ltac:(lia)
    (or_intror Hlf) Hlf2 Hsh1 Hc1 Hp1 Hst1 (Z.to_nat lc2) 0
    {| levels_ := levels_ s1; id_count_ := n2; level_count_ := lc2 |} t1)
    as (s3 & t3 & -> & Hr3 & Hg3 & [Hid3 Hlc3]); [lia|lia|exact Hr1| |done..|].
  { split; [lia|]. by intros l Hl. }
  cbn [mbind outcome_bind]. rewrite failed_ok. cbn in Hid3, Hlc3.
  destruct (grown_ok t1 (id_count_ s) (level_count_ s) n2 lc2 ltac:(lia) ltac:(lia) ltac:(lia)
    (or_intror Hlf) Hlf2 Hsh1 Hc1 Hp1 t3 Hg3) as [Hok3 Hleaf3].
  exists s3, t3. split_and!; [done| |done|].
  - split; [done|]. by rewrite Hid3, Hlc3.
  - intros i Hi. rewrite Hleaf3 by done. destruct (Z.ltb_spec i (id_count_ s)); [|done]. cbn.
    apply Hleaf1. lia.
Qed.

(** ** Resetting *)

(** The levels below [L] have their padding set and nothing else. *)
Definition blank (t : tree) (n lc L : Z) : Prop :=
  shaped t n lc ∧
  ∀ l i, 0 ≤ l < L → 0 ≤ i < t.(sz) l → t.(lb) l i = (count n l <=? i).

Lemma blank_ok t n lc :
  0 ≤ n ≤ 2 ^ 60 → levels_for n lc → blank t n lc lc →
  tree_ok t n lc ∧ ∀ i, 0 ≤ i < n → t.(lb) 0 i = false.
Proof.
  intros Hn Hlf [Hs Hb]. pose proof Hlf as (Hlc & _).
  assert (Hsz : ∀ l, 0 ≤ l < lc → t.(sz) l = 64 * count n (l + 1)) by (intros l Hl; rewrite Hs by lia; by ztest).
  split.
  - split_and!; [lia|lia|done..| |].
    + intros l i Hl Hi. rewrite Hb by (pose proof (count_nonneg n l); lia). by ztest.
    + intros l p (? & ? & ? & Hd & Hp). rewrite Hsz in Hd by lia. unfold linked.
      rewrite Hb by lia. ztest. split; [done|]. intros Hf. exfalso.
      pose proof (count_succ n l ltac:(lia)).
      specialize (Hf (64 * p) ltac:(lia)). rewrite Hb in Hf by (rewrite ?Hsz; lia).
      apply Z.leb_le in Hf. zlia.
  - intros i Hi. rewrite Hb; [rewrite count_0; by ztest|lia|].
    rewrite Hsz, count_succ, count_0 by lia. zlia.
Qed.

Lemma reset_level_ok st s t L len :
  repr s t → 0 ≤ s.(id_count_) ≤ 2 ^ 60 → s.(level_count_) ≤ 10 → 0 ≤ L < s.(level_count_) →
  blank t s.(id_count_) s.(level_count_) L → Reliable (st L) len →
  ∃ s' t', reset_level st L s = Returns s' ∧ repr s' t' ∧ in_sync s s' ∧
    blank t' s.(id_count_) s.(level_count_) (L + 1).
Proof.
  intros Hr Hn Hlc HL [Hs Hb] Hst. unfold reset_level.
  assert (HsL : t.(sz) L = 64 * count (id_count_ s) (L + 1)) by (rewrite Hs by lia; by ztest).
  pose proof (level_size_bounds (id_count_ s) L Hn ltac:(lia)) as [_ Hbd].
  pose proof (pad_bounds s t L Hn ltac:(lia) HsL).
  destruct (repr_get s t L Hr) as (b & -> & Hok & Hsb & _ & _); [lia|]. cbn [mbind outcome_bind].
  destruct (Reset_reliable (st L) len b (size_ b) Hst) as (b' & -> & Hok' & Hs' & Hall); [lia|].
  cbn [mbind outcome_bind fst snd]. rewrite failed_ok. cbn [negb ZX_ASSERT mbind outcome_bind].
  destruct (repr_set_level s t L b' Hr) as (levels & -> & Hr'); [lia|done|]. cbn [mbind outcome_bind].
  assert (Hsh : shaped (set_level t L b') (id_count_ s) (level_count_ s)).
  { intros l Hl. cbn. rewrite <- Hs by lia. destruct (Z.eqb_spec l L) as [->|]; [congruence|done]. }
  destruct (MarkUnallocatable_top (with_levels s levels) (set_level t L b') L Hr')
    as (s2 & -> & Hr2 & [Hid2 Hlc2]); cbn [with_levels id_count_ level_count_] in *; try lia.
  - by eapply shaped_sized.
  - cbn. rewrite Z.eqb_refl. congruence.
  - intros Hpos. cbn. rewrite Z.eqb_refl. apply Hall.
    pose proof (count_spec (id_count_ s) L 0 ltac:(lia)). lia.
  - eexists s2, _. split_and!; [done|exact Hr2|by split|]. split; [exact Hsh|].
    intros l i Hl Hi. cbn in Hi |- *. destruct (Z.eqb_spec l L) as [->|]; cbn [andb].
    + rewrite Hs'. rewrite Hs' in Hi. destruct (Z.leb_spec (count (id_count_ s) L) i); ztest; cbn; [done|].
      apply Hall. lia.
    + apply Hb; lia.
Qed.

Lemma reset_levels_ok st s t :
  ida_ok s t → (∀ l, 0 ≤ l < 11 → ∃ len, Reliable (st l) len) →
  ∃ s' t', for_range 0 s.(level_count_) (reset_level st) s = Returns s' ∧ ida_ok s' t' ∧
    in_sync s s' ∧ ∀ i, 0 ≤ i < s.(id_count_) → t'.(lb) 0 i = false.
Proof.
  intros [Hr Ht] Hst. pose proof Ht as (Hn & Hlf & Hs & _). pose proof Hlf as (Hlc & _).
  edestruct (for_range_inv (λ L s', in_sync s s' ∧ ∃ t', repr s' t' ∧
      blank t' (id_count_ s) (level_count_ s) L) 0 (level_count_ s))
    as (s' & E & [Hid Hl] & t' & Hr' & Hb'); cycle 3.
  - destruct (blank_ok t' _ _ Hn Hlf Hb'). exists s', t'. split_and!; [exact E| |done..].
    split; [done|]. by rewrite Hid, Hl.
  - lia.
  - split; [done|]. exists t. split; [done|]. split; [done|lia].
  - intros L s1 HL ([Hid1 Hlc1] & t1 & Hr1 & Hb1). destruct (Hst L ltac:(lia)) as [len Hlen].
    destruct (reset_level_ok st s1 t1 L len Hr1) as (s2 & t2 & E & Hr2 & [Hid2 Hlc2] & Hb2);
      rewrite ?Hid1, ?Hlc1; [lia..|done|done|].
    exists s2. split; [exact E|]. split; [split; congruence|]. exists t2. split; [done|].
    by rewrite Hid1, Hlc1 in Hb2.
Qed.

(** ** Creation *)

Definition empty_tree : tree := {| sz := λ _, 0; ln := λ _, O; lb := λ _ _, false |}.

Definition empty_levels : list RawBitmapBase := replicate 11 {| size_ := 0; data_ := [] |}.

Lemma empty_repr n lc :
  repr {| levels_ := empty_levels; id_count_ := n; level_count_ := lc |} empty_tree.
Proof.
  split; [done|]. intros l Hl. eexists. split; [apply lookup_replicate_2; lia|].
  split_and!; [apply raw_ok_intro; [lia|cbn; lia|constructor]|done..|]. cbn. lia.
Qed.

Lemma Create_ok st n :
  0 ≤ n ≤ 2 ^ 60 → (∀ l, 0 ≤ l < 11 → Reliable (st l) 0) →
  ∃ s t, Create st true n = Returns (ZX_OK, Some s) ∧ ida_ok s t ∧ s.(id_count_) = n ∧
    ∀ i, 0 ≤ i < n → t.(lb) 0 i = false.
Proof.
  intros Hn Hst. unfold Create, kMaxId, SIZE_MAX. ztest. cbn [negb]. unfold GrowInternal.
  destruct (Z.eq_dec n 0) as [->|].
  { eexists _, empty_tree. split; [vm_compute; reflexivity|].
    split_and!; [split; [apply (empty_repr 0 1)|]|done|lia].
    split_and!; cbn; try lia.
    - split_and!; [lia..|by left].
    - intros l Hl. cbn. rewrite count_succ by lia. pose proof (count_le 0 l). pose proof (count_nonneg 0 l).
      zcases; zlia.
    - intros l i ? ?. pose proof (count_nonneg 0 l). cbn in *. lia.
    - intros l p (? & ? & ? & ? & ?). cbn in *. lia. }
  destruct (GetLevels_ok n) as (lc & -> & Hlf); [lia|]. cbn [mbind outcome_bind levels_].
  pose proof Hlf as (? & _). fold empty_levels.
  assert (Hsh : shaped empty_tree 0 0) by (intros l Hl; by ztest).
  assert (Hc : consistent empty_tree 0 0) by (intros l p (? & ? & _); lia).
  assert (Hp : ∀ l i, 0 ≤ l < 0 → count 0 l ≤ i < empty_tree.(sz) l → empty_tree.(lb) l i = false) by done.
  edestruct (grow_loop_ok st empty_tree 0 0 n lc ltac:(lia) ltac:(lia) ltac:(lia) (or_introl eq_refl) Hlf
    Hsh Hc Hp Hst (Z.to_nat lc) 0
    {| levels_ := empty_levels; id_count_ := n; level_count_ := lc |} empty_tree) as (s & t & -> & Hr & Hg & [Hid Hlc]);
    [lia|lia|apply (empty_repr n lc)| |done..|].
  { split; [lia|]. by intros l Hl. }
  cbn [mbind outcome_bind]. rewrite failed_ok. cbn in Hid, Hlc.
  destruct (grown_ok empty_tree 0 0 n lc ltac:(lia) ltac:(lia) ltac:(lia) (or_introl eq_refl) Hlf
    Hsh Hc Hp t Hg) as [Hok Hleaf].
  exists s, t. split_and!; [done| |done|].
  - split; [done|]. by rewrite Hid, Hlc.
  - intros i Hi. rewrite Hleaf by done. apply andb_false_r.
Qed.

(** ** Specification: a set of busy ids below a count *)

Inductive ida_op :=
| OpAllocate
| OpMarkAllocated (id : Z)
| OpFree (id : Z)
| OpIsBusy (id : Z)
| OpShrink (id_count : Z).

Inductive ida_result :=
| RId (st : zx_status) (id : option Z)
| RStatus (st : zx_status)
| RBusy (busy : bool).

Definition run_ida_op (st : Z → Storage) (s : IdAllocator) (o : ida_op)
    : outcome (ida_result * IdAllocator) :=
  match o with
  | OpAllocate => r ← Allocate s; Returns (RId (fst (fst r)) (snd (fst r)), snd r)
  | OpMarkAllocated id => r ← MarkAllocated s id; Returns (RStatus (fst r), snd r)
  | OpFree id => r ← Free s id; Returns (RStatus (fst r), snd r)
  | OpIsBusy id => r ← IsBusy s id; Returns (RBusy r, s)
  | OpShrink n => r ← Shrink st s n; Returns (RStatus (fst r), snd r)
  end.

Fixpoint run_ida (st : Z → Storage) (s : IdAllocator) (os : list ida_op)
    : outcome (list ida_result * IdAllocator) :=
  match os with
  | [] => Returns ([], s)
  | o :: os =>
    r ← run_ida_op st s o; rs ← run_ida st (snd r) os; Returns (fst r :: fst rs, snd rs)
  end.

(** The arguments are [size_t] values. *)
Definition op_arg_ok (o : ida_op) : Prop :=
  match o with
  | OpAllocate => True
  | OpMarkAllocated id | OpFree id | OpIsBusy id => 0 ≤ id
  | OpShrink n => 0 ≤ n
  end.

Definition same_ids (n : Z) (f g : Z → bool) : Prop := ∀ i, 0 ≤ i < n → f i = g i.

Definition with_id (busy : Z → bool) (id : Z) (v : bool) : Z → bool :=
  λ i, if i =? id then v else busy i.

(** [ida_spec n busy o r n' busy']: operation [o] on [n] ids of which those of
    [busy] are taken may give [r] and lead to [n'] ids with [busy'] taken. *)
Inductive ida_spec (n : Z) (busy : Z → bool) : ida_op → ida_result → Z → (Z → bool) → Prop :=
| allocate_least id busy' :
    0 ≤ id < n → busy id = false → (∀ f, 0 ≤ f < id → busy f = true) →
    same_ids n busy' (with_id busy id true) →
    ida_spec n busy OpAllocate (RId ZX_OK (Some id)) n busy'
| allocate_none :
    (∀ f, 0 ≤ f < n → busy f = true) →
    ida_spec n busy OpAllocate (RId ZX_ERR_NO_RESOURCES None) n busy
| mark_out_of_range id :
    n ≤ id → ida_spec n busy (OpMarkAllocated id) (RStatus ZX_ERR_OUT_OF_RANGE) n busy
| mark_busy id :
    id < n → busy id = true → ida_spec n busy (OpMarkAllocated id) (RStatus ZX_ERR_BAD_STATE) n busy
| mark_free id busy' :
    id < n → busy id = false → same_ids n busy' (with_id busy id true) →
    ida_spec n busy (OpMarkAllocated id) (RStatus ZX_OK) n busy'
| free_out_of_range id :
    n ≤ id → ida_spec n busy (OpFree id) (RStatus ZX_ERR_OUT_OF_RANGE) n busy
| free_free id :
    id < n → busy id = false → ida_spec n busy (OpFree id) (RStatus ZX_ERR_BAD_STATE) n busy
| free_busy id busy' :
    id < n → busy id = true → same_ids n busy' (with_id busy id false) →
    ida_spec n busy (OpFree id) (RStatus ZX_OK) n busy'
| is_busy id :
    ida_spec n busy (OpIsBusy id) (RBusy ((id <? n) && busy id)) n busy
| shrink_grows n' :
    n < n' → ida_spec n busy (OpShrink n') (RStatus ZX_ERR_OUT_OF_RANGE) n busy
| shrink_to n' busy' :
    n' ≤ n → same_ids n' busy' busy → ida_spec n busy (OpShrink n') (RStatus ZX_OK) n' busy'.

Inductive ida_spec_run : Z → (Z → bool) → list ida_op → list ida_result → Z → (Z → bool) → Prop :=
| ida_spec_nil n busy : ida_spec_run n busy [] [] n busy
| ida_spec_cons n busy o r n1 busy1 os rs n2 busy2 :
    ida_spec n busy o r n1 busy1 → ida_spec_run n1 busy1 os rs n2 busy2 →
    ida_spec_run n busy (o :: os) (r :: rs) n2 busy2.

(** [Allocate] takes the least free id, and fails without a change when there is none. *)
Lemma Allocate_ok s t : ida_ok s t →
  (Allocate s = Returns (ZX_ERR_NO_RESOURCES, None, s) ∧ ∀ f, 0 ≤ f < s.(id_count_) → t.(lb) 0 f = true) ∨
  ∃ id s' t', Allocate s = Returns (ZX_OK, Some id, s') ∧ ida_ok s' t' ∧ s'.(id_count_) = s.(id_count_) ∧
    0 ≤ id < s.(id_count_) ∧ t.(lb) 0 id = false ∧ (∀ f, 0 ≤ f < id → t.(lb) 0 f = true) ∧
    ∀ i, t'.(lb) 0 i = if i =? id then true else t.(lb) 0 i.
Proof.
  intros Hok. pose proof Hok as [_ (Hn & _)]. unfold Allocate.
  destruct (Find_ok s t Hok) as (id & -> & [[-> Hnone]|[[Hid Hfree] Hleast]]); cbn [mbind outcome_bind].
  - left. unfold kMaxId, SIZE_MAX. ztest. split; [done|].
    intros f Hf. destruct (lb t 0 f) eqn:E; [done|]. by destruct (Hnone f).
  - right. ztest. cbn [ZX_ASSERT mbind outcome_bind]. rewrite (IsBusy_ok s t) by (done || lia). ztest.
    rewrite Hfree. cbn [andb negb ZX_ASSERT mbind outcome_bind].
    destruct (MarkBusy_ok s t id Hok Hid) as (s' & t' & -> & Hok' & [Hid' _] & Hb).
    cbn [mbind outcome_bind]. exists id, s', t'. split_and!; try done; [lia..|].
    intros f Hf. destruct (lb t 0 f) eqn:E; [done|].
    assert (free_id s t f) as Hf' by (split; [lia|done]). specialize (Hleast f Hf'). lia.
Qed.

Lemma MarkAllocated_ok s t id : ida_ok s t → 0 ≤ id < s.(id_count_) → t.(lb) 0 id = false →
  ∃ s' t', MarkAllocated s id = Returns (ZX_OK, s') ∧ ida_ok s' t' ∧ s'.(id_count_) = s.(id_count_) ∧
    ∀ i, t'.(lb) 0 i = if i =? id then true else t.(lb) 0 i.
Proof.
  intros Hok Hid E. unfold MarkAllocated. rewrite (IsBusy_ok s t) by (done || lia). ztest. rewrite E.
  cbn [andb mbind outcome_bind].
  destruct (MarkBusy_ok s t id Hok Hid) as (s' & t' & -> & Hok' & [Hid' _] & Hb). by exists s', t'.
Qed.

Lemma Free_ok s t id : ida_ok s t → 0 ≤ id < s.(id_count_) → t.(lb) 0 id = true →
  ∃ s' t', Free s id = Returns (ZX_OK, s') ∧ ida_ok s' t' ∧ s'.(id_count_) = s.(id_count_) ∧
    ∀ i, t'.(lb) 0 i = if i =? id then false else t.(lb) 0 i.
Proof.
  intros Hok Hid E. unfold Free. rewrite (IsBusy_ok s t) by (done || lia). ztest. rewrite E.
  cbn [andb negb mbind outcome_bind].
  destruct (MarkFree_ok s t id Hok Hid) as (s' & t' & -> & Hok' & [Hid' _] & Hb). by exists s', t'.
Qed.

(** Every operation implements its specification. *)
Lemma run_ida_op_ok st s t o :
  ida_ok s t → op_arg_ok o →
  ∃ r s' t', run_ida_op st s o = Returns (r, s') ∧ ida_ok s' t' ∧
    ida_spec s.(id_count_) (t.(lb) 0) o r s'.(id_count_) (t'.(lb) 0).
Proof.
  intros Hok Ho. pose proof Hok as [_ (Hn & _)]. destruct o as [|id|id|id|n']; cbn [run_ida_op]; cbn in Ho.
  - destruct (Allocate_ok s t Hok) as [[-> Hnone]|(id & s' & t' & -> & Hok' & Hn' & Hid & Hf & Hl & Hb)].
    + exists (RId ZX_ERR_NO_RESOURCES None), s, t. split_and!; [done..|]. by apply allocate_none.
    + eexists _, s', t'. split_and!; [done..|]. rewrite Hn'. apply allocate_least; [done..|by intros i _].
  - destruct (Z.le_gt_cases (id_count_ s) id).
    { exists (RStatus ZX_ERR_OUT_OF_RANGE), s, t. unfold MarkAllocated. ztest. split_and!; [done..|].
      by apply mark_out_of_range. }
    destruct (lb t 0 id) eqn:E.
    { exists (RStatus ZX_ERR_BAD_STATE), s, t. unfold MarkAllocated. ztest. rewrite (IsBusy_ok s t) by done.
      ztest. rewrite E. split_and!; [done..|]. by apply mark_busy. }
    destruct (MarkAllocated_ok s t id Hok) as (s' & t' & -> & Hok' & Hid' & Hb); [lia|done|].
    eexists _, s', t'. split_and!; [done..|]. rewrite Hid'. apply mark_free; [done..|by intros i _].
  - destruct (Z.le_gt_cases (id_count_ s) id).
    { exists (RStatus ZX_ERR_OUT_OF_RANGE), s, t. unfold Free. ztest. split_and!; [done..|]. by apply free_out_of_range. }
    destruct (lb t 0 id) eqn:E.
    2: { exists (RStatus ZX_ERR_BAD_STATE), s, t. unfold Free. ztest. rewrite (IsBusy_ok s t) by done.
      ztest. rewrite E. split_and!; [done..|]. by apply free_free. }
    destruct (Free_ok s t id Hok) as (s' & t' & -> & Hok' & Hid' & Hb); [lia|done|].
    eexists _, s', t'. split_and!; [done..|]. rewrite Hid'. apply free_busy; [done..|by intros i _].
  - rewrite (IsBusy_ok s t) by done. do 3 eexists. split_and!; [done|exact Hok|constructor].
  - destruct (Z.lt_ge_cases (id_count_ s) n').
    { exists (RStatus ZX_ERR_OUT_OF_RANGE), s, t. unfold Shrink. ztest. split_and!; [done..|]. by apply shrink_grows. }
    destruct (Z.eq_dec n' (id_count_ s)) as [->|].
    { exists (RStatus ZX_OK), s, t. unfold Shrink. ztest. split_and!; [done..|]. by apply shrink_to. }
    destruct (Shrink_ok st s t n' Hok) as (s' & t' & -> & Hok' & Hid' & Hb); [lia|].
    eexists _, s', t'. split_and!; [done..|]. rewrite Hid'. apply shrink_to; [lia|]. by intros i Hi; apply Hb.
Qed.

(** ** Properties *)


(** Storage in which every system call succeeds. *)
#[export] Instance vmo_reliable len : Reliable (VmoStorage all_calls_ok 0) len.
Proof.
  split; [apply _|done|]. eexists. split_and!; [reflexivity| |].
  - intros old _. apply VmoStorage_grow. lia.
  - intros old size. cbn beta. destruct (size <=? 0); reflexivity.
Qed.

Definition vmo (level : Z) : Storage := VmoStorage all_calls_ok 0.


(** Growing keeps the state of every id, makes every new id free and leaves
    the tree well formed, also when levels are added to it. *)
Theorem ida_grow st s t n2 :
  ida_ok s t → s.(id_count_) < n2 ≤ 2 ^ 60 →
  (∀ l, 0 ≤ l < 11 → Reliable (st l) (t.(ln) l)) →
  ∃ s' t', Grow st s n2 = Returns (ZX_OK, s') ∧ ida_ok s' t' ∧ s'.(id_count_) = n2 ∧
    ∀ i, 0 ≤ i < n2 → t'.(lb) 0 i = (i <? s.(id_count_)) && t.(lb) 0 i.
Proof. apply ida_Grow_ok. Qed.

(** [Reset] to any count up to 2^60 leaves a well-formed allocator of that
    many ids, all free. *)
Theorem ida_reset st s t n :
  ida_ok s t → 0 ≤ n ≤ 2 ^ 60 → (∀ l len, 0 ≤ l < 11 → Reliable (st l) len) →
  ∃ s' t', Reset st s n = Returns (ZX_OK, s') ∧ ida_ok s' t' ∧ s'.(id_count_) = n ∧
    ∀ i, 0 ≤ i < n → t'.(lb) 0 i = false.
Proof.
  intros Hok Hn Hst. unfold Reset, kMaxId, SIZE_MAX. ztest.
  assert (∃ s1 t1, (if n <? s.(id_count_) then Shrink st s n else Grow st s n) = Returns (ZX_OK, s1) ∧
    ida_ok s1 t1 ∧ s1.(id_count_) = n) as (s1 & t1 & -> & Hok1 & Hid1).
  { destruct (Z.ltb_spec n (id_count_ s)).
    - destruct (Shrink_ok st s t n Hok) as (s1 & t1 & ? & ? & ? & _); [lia|]. by exists s1, t1.
    - destruct (Z.eq_dec n (id_count_ s)) as [->|].
      + exists s, t. unfold Grow. ztest. done.
      + destruct (ida_Grow_ok st s t n Hok) as (s1 & t1 & ? & ? & ? & _); [lia|auto|]. by exists s1, t1. }
  cbn [mbind outcome_bind]. rewrite failed_ok.
  destruct (reset_levels_ok st s1 t1 Hok1) as (s2 & t2 & -> & Hok2 & [Hid2 _] & Hb); [intros l Hl; exists O; auto|].
  cbn [mbind outcome_bind]. exists s2, t2. rewrite Hid1 in *. by split_and!.
Qed.

(** For more than 2^60 ids the level count never gets computed: the loop of
    [log64_int8_ceil] does not terminate, whatever the number of rounds, although
    [Create], [Grow] and [Reset] accept every count below [SIZE_MAX]. *)
Theorem log64_diverges fuel n :
  2 ^ 60 < n < SIZE_MAX → log64_loop fuel (Z.shiftl 1 kLevelBits) 1 n = Diverges.
Proof. intros Hn. apply (log64_loop_diverges 9 fuel 1 n); lia. Qed.

Lemma log64_diverges_witness :
  log64_loop 1000 (Z.shiftl 1 kLevelBits) 1 (2 ^ 60 + 1) = Diverges.
Proof. apply (log64_diverges 1000 (2 ^ 60 + 1)). unfold SIZE_MAX. lia. Defined.

(** The storage of level 0 works; that of the other levels cannot be created. *)
Definition vmo_level_0_only (level : Z) : Storage :=
  if level =? 0 then vmo 0
  else VmoStorage {|
    vmo_create := ZX_ERR_NO_MEMORY; vmar_map := ZX_OK; vmo_set_size := ZX_OK; get_info := ZX_OK;
    vmar_map_specific := ZX_OK; vmar_map_whole := ZX_OK; vmar_unmap := ZX_OK |} 0.

Definition example_ida : IdAllocator :=
  match Create vmo true 60 with
  | Returns (_, Some s) => s
  | _ => {| levels_ := []; id_count_ := 0; level_count_ := 0 |}
  end.

(** A [Grow] that fails does not restore the allocator: once level 0 has grown
    and the storage of a new level cannot be allocated, growing back to the old
    count makes the bitmap of level 0 report an error, and the assertion that the
    recovery succeeds stops the program. *)
Theorem ida_grow_recovery_aborts :
  Create vmo true 60 = Returns (ZX_OK, Some example_ida) ∧
  Grow vmo_level_0_only example_ida 100 = Aborts.
Proof. split; vm_compute; reflexivity. Qed.
