(* ===== verification/Digest.v ===== *)
(** * [digest::Digest] (ulib/digest/digest.cpp)

    A digest and the state of its computation.  The hash function (SHA-256, from
    the cryptography library) is the parameter [hash]: a context is the list of
    bytes it was given, which is what digest.h documents of [Update].  The text
    form has a round trip theorem. *)

From S2P Require Import Prelude.

Definition kLength : Z := 32.

(** Bytes are integers of [0, 256). *)
Definition is_byte (b : Z) : Prop := 0 ≤ b < 256.

Record Digest := {
  ctx_ : option (list Z);
  bytes_ : list Z;
  ref_count_ : Z;
}.

Definition new_digest : Digest := {| ctx_ := None; bytes_ := replicate 32 0; ref_count_ := 0 |}.

(** A digest constructed from raw bytes. *)
Definition digest_of (bytes : list Z) : Digest :=
  {| ctx_ := None; bytes_ := take 32 bytes; ref_count_ := 0 |}.

(** ** Hashing

    [alloc] says whether the allocation of the context succeeds. *)

Section hashing.
Context (hash : list Z → list Z).

Definition Init (alloc : bool) (d : Digest) : outcome (zx_status * Digest) :=
  _ ← ZX_DEBUG_ASSERT (d.(ref_count_) =? 0);
  if negb alloc then
    Returns (ZX_ERR_NO_MEMORY, {| ctx_ := None; bytes_ := d.(bytes_); ref_count_ := d.(ref_count_) |})
  else
    Returns (ZX_OK, {| ctx_ := Some []; bytes_ := d.(bytes_); ref_count_ := d.(ref_count_) |}).

Definition INT_MAX : Z := 2 ^ 31 - 1.

Definition Update (d : Digest) (buf : list Z) : outcome Digest :=
  _ ← ZX_DEBUG_ASSERT (d.(ref_count_) =? 0);
  _ ← ZX_DEBUG_ASSERT (Z.of_nat (length buf) <=? INT_MAX);
  match d.(ctx_) with
  | None => Aborts
  | Some fed =>
    Returns {| ctx_ := Some (fed ++ buf); bytes_ := d.(bytes_); ref_count_ := d.(ref_count_) |}
  end.

Definition Final (d : Digest) : outcome Digest :=
  _ ← ZX_DEBUG_ASSERT (d.(ref_count_) =? 0);
  match d.(ctx_) with
  | None => Aborts
  | Some fed => Returns {| ctx_ := Some fed; bytes_ := hash fed; ref_count_ := d.(ref_count_) |}
  end.

(** The status of [Init] is dropped. *)
Definition Hash (alloc : bool) (d : Digest) (buf : list Z) : outcome Digest :=
  r ← Init alloc d;
  d ← Update (snd r) buf;
  Final d.

(** ** Copies *)

Definition CopyTo (d : Digest) (out : list Z) : zx_status * list Z :=
  if Z.of_nat (length out) <? kLength then (ZX_ERR_BUFFER_TOO_SMALL, out)
  else (ZX_OK, d.(bytes_) ++ replicate (length out - 32) 0).

Definition AcquireBytes (d : Digest) : outcome (list Z * Digest) :=
  _ ← ZX_DEBUG_ASSERT (d.(ref_count_) <? SIZE_MAX);
  Returns (d.(bytes_), {| ctx_ := d.(ctx_); bytes_ := d.(bytes_); ref_count_ := d.(ref_count_) + 1 |}).

Definition ReleaseBytes (d : Digest) : outcome Digest :=
  _ ← ZX_DEBUG_ASSERT (0 <? d.(ref_count_));
  Returns {| ctx_ := d.(ctx_); bytes_ := d.(bytes_); ref_count_ := d.(ref_count_) - 1 |}.

(** [operator==] on digests, and on a pointer ([None] is null). *)
Definition digest_eq (d d' : Digest) : bool := bool_decide (d.(bytes_) = d'.(bytes_)).

Definition digest_eq_bytes (d : Digest) (rhs : option (list Z)) : bool :=
  match rhs with
  | None => false
  | Some bytes => bool_decide (d.(bytes_) = take 32 bytes)
  end.

(** [digest_final] and [digest_hash] of the C interface. *)
Definition digest_final (d : Digest) (out : list Z) : outcome (zx_status * list Z) :=
  d ← Final d; Returns (CopyTo d out).

Definition digest_hash (alloc : bool) (buf out : list Z) : outcome (zx_status * list Z) :=
  d ← Hash alloc new_digest buf; Returns (CopyTo d out).

End hashing.

(** ** Text

    Characters are their codes, of the C locale. *)

Definition toupper (c : Z) : Z := if (97 <=? c) && (c <=? 122) then c - 32 else c.

Definition isxdigit (c : Z) : bool :=
  ((48 <=? c) && (c <=? 57)) || ((65 <=? c) && (c <=? 70)) || ((97 <=? c) && (c <=? 102)).

(** The loop of [Parse] from the character [j] on, over the bytes so far. *)
Fixpoint parse_loop (n : nat) (hex : list Z) (j i : Z) (bytes : list Z)
    : outcome (zx_status * list Z) :=
  match n with
  | O => Returns (ZX_OK, bytes)
  | S n =>
    h ← array_get hex j;
    let c := Z.land (toupper h) 255 in
    if negb (isxdigit c) then Returns (ZX_ERR_INVALID_ARGS, bytes)
    else
      let c := u8 (if c <? 65 then c - 48 else c - 55) in
      if j mod 2 =? 0 then
        bytes ← array_set bytes i (u8 (Z.shiftl c 4));
        parse_loop n hex (j + 1) i bytes
      else
        b ← array_get bytes i;
        bytes ← array_set bytes i (Z.lor b c);
        parse_loop n hex (j + 1) (i + 1) bytes
  end.

Definition Parse (d : Digest) (hex : list Z) : outcome (zx_status * Digest) :=
  _ ← ZX_DEBUG_ASSERT (d.(ref_count_) =? 0);
  if Z.of_nat (length hex) <? kLength * 2 then Returns (ZX_ERR_INVALID_ARGS, d)
  else
    r ← parse_loop 64 hex 0 0 d.(bytes_);
    Returns (fst r, {| ctx_ := d.(ctx_); bytes_ := snd r; ref_count_ := d.(ref_count_) |}).

(** The digit of [%x]. *)
Definition hex_digit (x : Z) : Z := if x <? 10 then 48 + x else 97 + (x - 10).

(** [%02x]. *)
Definition hex_byte (b : Z) : list Z := [hex_digit (b / 16); hex_digit (b mod 16)].

Definition ToString (d : Digest) (out : list Z) : zx_status * list Z :=
  if Z.of_nat (length out) <? kLength * 2 + 1 then (ZX_ERR_BUFFER_TOO_SMALL, out)
  else (ZX_OK, concat (map hex_byte d.(bytes_)) ++ replicate (length out - 64) 0).

(** ** Round trip *)

Definition digest_ok (d : Digest) : Prop :=
  length d.(bytes_) = 32%nat ∧ Forall is_byte d.(bytes_) ∧ d.(ref_count_) = 0.

(** What [Parse] does with the digit of [x]. *)
Lemma parse_digit x : 0 ≤ x < 16 →
  let c := Z.land (toupper (hex_digit x)) 255 in
  isxdigit c = true ∧ u8 (if c <? 65 then c - 48 else c - 55) = x.
Proof.
  intros Hx. assert (Hall : forallb (λ x, let c := Z.land (toupper (hex_digit x)) 255 in
    isxdigit c && (u8 (if c <? 65 then c - 48 else c - 55) =? x)) (seqZ 0 16) = true) by reflexivity.
  rewrite forallb_forall in Hall. specialize (Hall x ltac:(apply list_elem_of_In, elem_of_seqZ; lia)).
  apply andb_true_iff in Hall as [? ?%Z.eqb_eq]. done.
Qed.

Lemma nibbles b : is_byte b → Z.lor (u8 (Z.shiftl (b / 16) 4)) (b mod 16) = b.
Proof.
  intros Hb. assert (Hall : forallb (λ b, Z.lor (u8 (Z.shiftl (b / 16) 4)) (b mod 16) =? b)
    (seqZ 0 256) = true) by (vm_compute; reflexivity).
  rewrite forallb_forall in Hall. apply Z.eqb_eq, Hall, list_elem_of_In, elem_of_seqZ.
  unfold is_byte in Hb. lia.
Qed.

(** Two characters give a byte. *)
Lemma parse_byte n hex i bytes b :
  0 ≤ i < Z.of_nat (length bytes) → is_byte b →
  array_get hex (2 * i) = Returns (hex_digit (b / 16)) →
  array_get hex (2 * i + 1) = Returns (hex_digit (b mod 16)) →
  parse_loop (S (S n)) hex (2 * i) i bytes =
  parse_loop n hex (2 * (i + 1)) (i + 1) (<[Z.to_nat i := b]> bytes).
Proof.
  intros Hi Hb H0 H1. unfold is_byte in Hb.
  destruct (parse_digit (b / 16)) as [Hx Hv]; [zlia|]. destruct (parse_digit (b mod 16)) as [Hx' Hv']; [zlia|].
  cbn [parse_loop]. rewrite H0. cbn [mbind outcome_bind]. rewrite Hx, Hv. cbn [negb].
  replace (2 * i mod 2) with 0 by zlia. cbn [Z.eqb]. rewrite array_set_in by lia. cbn [mbind outcome_bind].
  rewrite H1. cbn [mbind outcome_bind]. rewrite Hx', Hv'. cbn [negb].
  replace ((2 * i + 1) mod 2) with 1 by zlia. cbn [Z.eqb].
  erewrite (proj2 (array_get_returns _ _ _))
    by (split; [lia|]; apply list_lookup_insert_eq; lia).
  cbn [mbind outcome_bind]. rewrite array_set_in by (rewrite length_insert; lia).
  cbn [mbind outcome_bind]. rewrite list_insert_insert_eq, nibbles by done. f_equal. lia.
Qed.

Lemma length_hex bs : length (concat (map hex_byte bs)) = (2 * length bs)%nat.
Proof. induction bs as [|b bs IH]; [done|]. cbn. lia. Qed.

(** From byte [i] on, the loop reads back the text of the rest. *)
Lemma parse_hex done rest old tail :
  Forall is_byte rest → length old = length rest →
  parse_loop (2 * length rest) (concat (map hex_byte (done ++ rest)) ++ tail)
    (2 * Z.of_nat (length done)) (Z.of_nat (length done)) (done ++ old)
  = Returns (ZX_OK, done ++ rest).
Proof.
  revert done old. induction rest as [|b rest IH]; intros don old Hb Hlen.
  { destruct old; [|done]. done. }
  destruct old as [|o old]; [done|]. apply Forall_cons in Hb as [Hb Hrest].
  assert (Hchar : ∀ k c, hex_byte b !! k = Some c → array_get
    (concat (map hex_byte (don ++ b :: rest)) ++ tail) (2 * Z.of_nat (length don) + Z.of_nat k) = Returns c).
  { intros k c Hk. apply array_get_returns. split; [lia|].
    rewrite map_app, concat_app, <- app_assoc.
    rewrite lookup_app_r by (rewrite length_hex; lia). rewrite length_hex.
    replace (_ - _)%nat with k by lia. cbn [map concat]. rewrite <- app_assoc. by apply lookup_app_l_Some. }
  replace (2 * length (b :: rest))%nat with (S (S (2 * length rest))) by (cbn; lia).
  rewrite (parse_byte _ _ _ _ b); [|rewrite length_app; cbn; lia|done|..].
  - rewrite Nat2Z.id, insert_app_r_alt by lia. rewrite Nat.sub_diag. cbn [insert list_insert].
    specialize (IH (don ++ [b]) old Hrest). rewrite length_app, <- !app_assoc in IH. cbn [app length] in IH.
    rewrite Nat2Z.inj_add in IH. apply IH. cbn in Hlen. lia.
  - by rewrite <- (Hchar 0%nat) by done; rewrite Z.add_0_r.
  - by rewrite <- (Hchar 1%nat) by done.
Qed.

Lemma Parse_hex d bytes tail : digest_ok d → Forall is_byte bytes → length bytes = 32%nat →
  Parse d (concat (map hex_byte bytes) ++ tail) = Returns (ZX_OK, {| ctx_ := d.(ctx_); bytes_ := bytes; ref_count_ := 0 |}).
Proof.
  intros (Hl' & _ & Hr') Hb Hl. unfold Parse, ZX_DEBUG_ASSERT. rewrite Hr'. cbn [Z.eqb mbind outcome_bind].
  rewrite length_app, length_hex, Hl. unfold kLength. ztest.
  pose proof (parse_hex [] bytes (bytes_ d) tail Hb ltac:(congruence)) as E.
  rewrite Hl in E. change (2 * Z.of_nat (length [])) with 0 in E.
  change (Z.of_nat (length [])) with 0 in E. change (2 * 32)%nat with 64%nat in E.
  cbn [app] in E. by rewrite E.
Qed.

(** The text form has a round trip: what [ToString] writes into a buffer of at
    least 65 characters, [Parse] reads back into any digest as the same bytes. *)
Theorem digest_parse_to_string d d' out :
  digest_ok d → digest_ok d' → 65 ≤ Z.of_nat (length out) →
  ∃ s, ToString d out = (ZX_OK, s) ∧ length s = length out ∧
    Parse d' s = Returns (ZX_OK, {| ctx_ := d'.(ctx_); bytes_ := d.(bytes_); ref_count_ := 0 |}).
Proof.
  intros (Hl & Hb & _) Hd' Ho. unfold ToString, kLength. ztest.
  eexists. split; [done|]. rewrite length_app, length_hex, length_replicate, Hl. split; [lia|]. by apply Parse_hex.
Qed.

Definition example_digest : Digest :=
  {| ctx_ := None; bytes_ := seqZ 230 26 ++ [0; 1; 10; 160; 171; 15]; ref_count_ := 0 |}.

