(* ===== verification/MerkleTree.v ===== *)
(** * [digest::MerkleTree] (ulib/digest/merkle-tree.cpp)

    The Merkle tree over a blob: the streaming creation over a chain of objects,
    one per level, and the verification of a range.  The tree buffer is one array
    of bytes that the levels share, each from its own base on.  The hash function
    is a parameter. *)

From S2P Require Import Prelude RawBitmap Digest.

Definition kNodeSize : Z := 8192.
Definition kDigestsPerNode : Z := kNodeSize / kLength.
Definition UINT32_MAX : Z := 2 ^ 32 - 1.

(** ** Memory *)

Definition read_bytes (buf : list Z) (off len : Z) : outcome (list Z) :=
  if (0 <=? off) && (0 <=? len) && (off + len <=? Z.of_nat (length buf)) then
    Returns (take (Z.to_nat len) (drop (Z.to_nat off) buf))
  else Aborts.

Definition write_bytes (buf : list Z) (off : Z) (bytes : list Z) : outcome (list Z) :=
  if (0 <=? off) && (off + Z.of_nat (length bytes) <=? Z.of_nat (length buf)) then
    Returns (take (Z.to_nat off) buf ++ bytes ++ drop (Z.to_nat off + length bytes) buf)
  else Aborts.

(** The little-endian bytes of an unsigned integer. *)
Fixpoint le_bytes (n : nat) (x : Z) : list Z :=
  match n with
  | O => []
  | S n => x mod 256 :: le_bytes n (x / 256)
  end.

(** ** Nodes *)

Section merkle_tree.
Context (hash : list Z → list Z).
(** Whether the allocations of hash contexts and of levels succeed. *)
Context (alloc : bool).

Definition DigestInit (digest : Digest) (locality length : Z) : outcome (zx_status * Digest) :=
  _ ← ZX_DEBUG_ASSERT (length <? UINT32_MAX);
  r ← Init alloc digest;
  let '(rc, digest) := r in
  if failed rc then Returns (rc, digest)
  else
    digest ← Update digest (le_bytes 8 locality);
    let len32 := u32 (Z.min length kNodeSize) in
    digest ← Update digest (le_bytes 4 len32);
    Returns (ZX_OK, digest).

(** Also returns the number of bytes hashed. *)
Definition DigestUpdate (digest : Digest) (in_ : list Z) (offset length : Z) : outcome (Z * Digest) :=
  let length := Z.min length (kNodeSize - offset mod kNodeSize) in
  bytes ← read_bytes in_ 0 length;
  digest ← Update digest bytes;
  Returns (length, digest).

Definition DigestFinal (digest : Digest) (offset : Z) : outcome Digest :=
  let offset := offset mod kNodeSize in
  digest ← (if negb (offset =? 0) then
              let pad_len := kNodeSize - offset in
              Update digest (replicate (Z.to_nat pad_len) 0)
            else Returns digest);
  Final hash digest.

(** ** Lengths of the levels *)

Definition NextLength (length : Z) : Z :=
  if kNodeSize <? length then round_up length kNodeSize / kDigestsPerNode else 0.

Definition NextAligned (length : Z) : Z := round_up (NextLength length) kNodeSize.

(** Eight levels reach 2^64 bytes of data. *)
Definition kMaxLevels : nat := 8.

Fixpoint tree_length (fuel : nat) (data_len : Z) : outcome Z :=
  match fuel with
  | O => Diverges
  | S fuel =>
    let next_len := NextAligned data_len in
    if next_len =? 0 then Returns 0
    else rest ← tree_length fuel next_len; Returns (next_len ⊞ rest)
  end.

Definition GetTreeLength (data_len : Z) : outcome Z := tree_length (S kMaxLevels) data_len.

(** ** Creation

    An object of the chain; [next_] is the rest of the list. *)

Record Level := {
  initialized_ : bool;
  level_ : Z;
  offset_ : Z;
  length_ : Z;
  digest_ : Digest;
}.

Definition new_level (level : Z) : Level := {|
  initialized_ := false; level_ := level; offset_ := 0; length_ := 0; digest_ := new_digest |}.

Definition with_digest (l : Level) (d : Digest) : Level := {|
  initialized_ := l.(initialized_); level_ := l.(level_); offset_ := l.(offset_);
  length_ := l.(length_); digest_ := d |}.

Definition with_offset (l : Level) (offset : Z) : Level := {|
  initialized_ := l.(initialized_); level_ := l.(level_); offset_ := offset;
  length_ := l.(length_); digest_ := l.(digest_) |}.

Definition finalized (l : Level) : Level := {|
  initialized_ := false; level_ := l.(level_); offset_ := l.(offset_);
  length_ := l.(length_); digest_ := l.(digest_) |}.

(** On an object [l] whose chain is [next]. *)
Fixpoint CreateInit (fuel : nat) (l : Level) (next : list Level) (data_len tree_len : Z)
    : outcome (zx_status * list Level) :=
  match fuel with
  | O => Diverges
  | S fuel =>
    let l := {| initialized_ := true; level_ := l.(level_); offset_ := 0;
                length_ := data_len; digest_ := l.(digest_) |} in
    if data_len <=? kNodeSize then Returns (ZX_OK, l :: next)
    else if negb alloc then Returns (ZX_ERR_NO_MEMORY, [l])
    else
      let n := new_level (l.(level_) + 1) in
      let data_len := NextAligned data_len in
      if tree_len <? data_len then Returns (ZX_ERR_BUFFER_TOO_SMALL, [l; n])
      else
        r ← CreateInit fuel n [] data_len (tree_len - data_len);
        Returns (fst r, l :: snd r)
  end.

(** A pointer with a length: the bytes, or the length given with a null pointer. *)
Definition buffer := (list Z + Z)%type.

Definition buffer_len (b : buffer) : Z :=
  match b with inl bytes => Z.of_nat (length bytes) | inr len => len end.

(** The loop of [CreateUpdate] on the bytes [in_]; [next_update] is [CreateUpdate]
    of [next_].  The tree buffer is [tree], and [base] is where this level's
    [tree] pointer is in it. *)
Fixpoint update_loop (next_update : list Level → buffer → list Z → Z → outcome (zx_status * list Level * list Z))
    (fuel : nat) (l : Level) (next : list Level) (in_ tree : list Z) (base tree_off : Z)
    : outcome (zx_status * list Level * list Z) :=
  match fuel with
  | O => Diverges
  | S fuel =>
    if Z.of_nat (length in_) =? 0 then Returns (ZX_OK, l :: next, tree)
    else
      r ← (if l.(offset_) mod kNodeSize =? 0 then
             DigestInit l.(digest_) (Z.lor l.(offset_) l.(level_)) (l.(length_) ⊟ l.(offset_))
           else Returns (ZX_OK, l.(digest_)));
      let '(rc, d) := r in
      let l := with_digest l d in
      if failed rc then Returns (rc, l :: next, tree)
      else
        r ← DigestUpdate l.(digest_) in_ l.(offset_) (Z.of_nat (length in_));
        let '(chunk, d) := r in
        let in_ := drop (Z.to_nat chunk) in_ in
        let l := with_offset (with_digest l d) (l.(offset_) ⊞ chunk) in
        if negb (l.(offset_) mod kNodeSize =? 0) && negb (l.(offset_) =? l.(length_)) then
          Returns (ZX_OK, l :: next, tree)
        else
          d ← DigestFinal l.(digest_) l.(offset_);
          let l := with_digest l d in
          if l.(length_) <=? kNodeSize then Returns (ZX_OK, l :: next, tree)
          else
            tree ← (if tree_off mod kNodeSize =? 0 then
                      write_bytes tree (base + tree_off) (replicate (Z.to_nat kNodeSize) 0)
                    else Returns tree);
            tree ← write_bytes tree (base + tree_off) d.(bytes_);
            r ← next_update next (inl d.(bytes_)) tree (base + NextAligned l.(length_));
            let '(rc, next, tree) := r in
            if failed rc then Returns (rc, l :: next, tree)
            else update_loop next_update fuel l next in_ tree base (tree_off + kLength)
  end.

(** [tree] is [None] for a null pointer.  [depth] bounds the length of the chain. *)
Fixpoint create_update (depth : nat) (mt : list Level) (data : buffer) (tree_null : bool)
    (tree : list Z) (base : Z) : outcome (zx_status * list Level * list Z) :=
  match depth, mt with
  | S depth, l :: next =>
    let length := buffer_len data in
    _ ← ZX_DEBUG_ASSERT (l.(offset_) <=? l.(offset_) ⊞ length);
    if negb l.(initialized_) then Returns (ZX_ERR_BAD_STATE, mt, tree)
    else if length =? 0 then Returns (ZX_OK, mt, tree)
    else if l.(length_) <? l.(offset_) ⊞ length then Returns (ZX_ERR_OUT_OF_RANGE, mt, tree)
    else
      match data with
      | inr _ => Returns (ZX_ERR_INVALID_ARGS, mt, tree)
      | inl in_ =>
        if tree_null && (kNodeSize <? l.(length_)) then Returns (ZX_ERR_INVALID_ARGS, mt, tree)
        else
          let tree_off := (l.(offset_) - l.(offset_) mod kNodeSize) / kDigestsPerNode in
          update_loop (λ mt data tree base, create_update depth mt data tree_null tree base)
            (S (List.length in_)) l next in_ tree base tree_off
      end
  | _, _ => Aborts
  end.

Definition CreateUpdate (mt : list Level) (data : buffer) (tree_null : bool) (tree : list Z) (base : Z) :=
  create_update (List.length mt) mt data tree_null tree base.

(** The [len] bytes at [data + offset]. *)
Definition tail_bytes (data : option Z) (tree : list Z) (offset len : Z) : outcome buffer :=
  match data with
  | None => Returns (inr len)
  | Some dbase => b ← read_bytes tree (dbase + offset) len; Returns (inl b)
  end.

(** [data] is where in the tree buffer this level's data starts, [None] for the
    null pointer that the bottom level is given.  The result has the root digest
    where it is written. *)
Fixpoint create_final (depth : nat) (mt : list Level) (data : option Z) (tree_null : bool)
    (tree : list Z) (base : Z) (root : bool)
    : outcome (zx_status * list Level * list Z * option (list Z)) :=
  match depth, mt with
  | S depth, l :: next =>
    if negb l.(initialized_) || ((l.(level_) =? 0) && negb (l.(offset_) =? l.(length_))) then
      Returns (ZX_ERR_BAD_STATE, mt, tree, None)
    else if negb root || (tree_null && (kNodeSize <? l.(length_))) then
      Returns (ZX_ERR_INVALID_ARGS, mt, tree, None)
    else
      r ← (if l.(length_) =? 0 then
             r ← DigestInit l.(digest_) 0 0;
             let '(rc, d) := r in
             if failed rc then Returns (rc, with_digest l d)
             else d ← DigestFinal d 0; Returns (ZX_OK, with_digest l d)
           else Returns (ZX_OK, l));
      let '(rc, l) := r in
      if failed rc then Returns (rc, l :: next, tree, None)
      else
        let rest := l.(length_) ⊟ l.(offset_) in
        tail ← tail_bytes data tree l.(offset_) rest;
        r ← CreateUpdate (l :: next) tail tree_null tree base;
        let '(rc, mt, tree) := r in
        if failed rc then Returns (rc, mt, tree, None)
        else
          match mt with
          | [] => Aborts
          | l :: next =>
            let l := finalized l in
            if l.(length_) <=? kNodeSize then
              Returns (ZX_OK, l :: next, tree, Some l.(digest_).(bytes_))
            else
              r ← create_final depth next (Some base) tree_null tree (base + NextAligned l.(length_)) root;
              let '(rc, next, tree, out) := r in
              Returns (rc, l :: next, tree, out)
          end
  | _, _ => Aborts
  end.

Definition CreateFinal (mt : list Level) (tree_null : bool) (tree : list Z) (root : bool) :=
  create_final (List.length mt) mt None tree_null tree 0 root.

(** The tree buffer after the call, and the root digest. *)
Definition Create (data : buffer) (tree_null : bool) (tree : list Z)
    : outcome (zx_status * list Z * option (list Z)) :=
  r ← CreateInit (S kMaxLevels) (new_level 0) [] (buffer_len data) (Z.of_nat (length tree));
  let '(rc, mt) := r in
  if failed rc then Returns (rc, tree, None)
  else
    r ← CreateUpdate mt data tree_null tree 0;
    let '(rc, mt, tree) := r in
    if failed rc then Returns (rc, tree, None)
    else
      r ← CreateFinal mt tree_null tree true;
      let '(rc, _, tree, out) := r in
      Returns (rc, tree, out).

(** ** Verification *)

Fixpoint verify_loop (fuel : nat) (data : list Z) (dbase data_len : Z) (tree : list Z)
    (expected offset length level : Z) : outcome zx_status :=
  match fuel with
  | O => Diverges
  | S fuel =>
    if length =? 0 then Returns ZX_OK
    else
      r ← DigestInit new_digest (Z.lor offset level) (data_len ⊟ offset);
      let '(rc, actual) := r in
      if failed rc then Returns rc
      else
        in_ ← read_bytes data (dbase + offset) (Z.min length (kNodeSize - offset mod kNodeSize));
        r ← DigestUpdate actual in_ offset length;
        let '(chunk, actual) := r in
        let offset := offset ⊞ chunk in
        let length := length ⊟ chunk in
        actual ← DigestFinal actual offset;
        want ← read_bytes tree expected kLength;
        if negb (digest_eq_bytes actual (Some want)) then Returns ZX_ERR_IO_DATA_INTEGRITY
        else verify_loop fuel data dbase data_len tree (expected + kLength) offset length level
  end.

(** [data] is a buffer and where in it the level starts; [tree] likewise for the
    level above.  A null pointer is [None]. *)
Definition VerifyLevel (data : option (list Z)) (dbase data_len : Z) (tree : option (list Z))
    (tbase offset length level : Z) : outcome zx_status :=
  _ ← ZX_DEBUG_ASSERT (offset <=? offset ⊞ length);
  match data, tree with
  | Some data, Some tree =>
    if data_len <=? kNodeSize then Returns ZX_ERR_INVALID_ARGS
    else if data_len <? offset ⊞ length then Returns ZX_ERR_OUT_OF_RANGE
    else
      let offset := offset - offset mod kNodeSize in
      let finish := round_up (offset ⊞ length) kNodeSize in
      let length := Z.min finish data_len ⊟ offset in
      verify_loop (S (Z.to_nat (length / kNodeSize + 1))) data dbase data_len tree
        (tbase + offset / kDigestsPerNode) offset length level
  | _, _ => Returns ZX_ERR_INVALID_ARGS
  end.

Definition VerifyRoot (data : option (list Z)) (dbase root_len level : Z) (expected : list Z)
    : outcome zx_status :=
  if ((match data with None => true | Some _ => false end) && negb (root_len =? 0))
     || (kNodeSize <? root_len)
  then Returns ZX_ERR_INVALID_ARGS
  else
    r ← DigestInit new_digest level (if level =? 0 then root_len else kNodeSize);
    let '(rc, actual) := r in
    if failed rc then Returns rc
    else
      in_ ← (match data with
             | None => Returns []
             | Some buf => read_bytes buf dbase root_len
             end);
      r ← DigestUpdate actual in_ 0 root_len;
      actual ← DigestFinal (snd r) root_len;
      Returns (if digest_eq actual (digest_of expected) then ZX_OK else ZX_ERR_IO_DATA_INTEGRITY).

(** The loop of [Verify].  [data] and [dbase] are the level's data: the blob at the
    bottom, the tree buffer above. *)
Fixpoint verify_levels (fuel : nat) (data : option (list Z)) (dbase data_len root_len : Z)
    (tree : option (list Z)) (tbase tree_len offset length level : Z) (root : list Z)
    : outcome zx_status :=
  match fuel with
  | O => Diverges
  | S fuel =>
    if kNodeSize <? data_len then
      rc ← VerifyLevel data dbase data_len tree tbase offset length level;
      if failed rc then Returns rc
      else
        let root_len := NextLength data_len in
        let data_len := NextAligned data_len in
        if tree_len <? data_len then Returns ZX_ERR_BUFFER_TOO_SMALL
        else
          verify_levels fuel tree tbase data_len root_len tree (tbase + data_len) (tree_len - data_len)
            (offset / kDigestsPerNode) (length / kDigestsPerNode) (level + 1) root
    else VerifyRoot data dbase root_len level root
  end.

Definition Verify (data : option (list Z)) (data_len : Z) (tree : option (list Z)) (tree_len : Z)
    (offset length : Z) (root : list Z) : outcome zx_status :=
  verify_levels (S kMaxLevels) data 0 data_len data_len tree 0 tree_len offset length 0 root.

(** The C interface.  [out] is a buffer for the digest. *)
Definition merkle_tree_create (data : buffer) (tree_null : bool) (tree out : list Z)
    : outcome (zx_status * list Z * list Z) :=
  r ← Create data tree_null tree;
  let '(rc, tree, root) := r in
  if failed rc then Returns (rc, tree, out)
  else
    match root with
    | None => Aborts
    | Some root => let '(rc, out) := CopyTo (digest_of root) out in Returns (rc, tree, out)
    end.

Definition merkle_tree_verify (data : option (list Z)) (data_len : Z) (tree : option (list Z))
    (tree_len offset length : Z) (root : list Z) : outcome zx_status :=
  if Z.of_nat (List.length root) <? kLength then Returns ZX_ERR_INVALID_ARGS
  else Verify data data_len tree tree_len offset length root.

End merkle_tree.
