(* ===== verification/MerkleCreate.v ===== *)
(** * Creation of the Merkle tree

    The reference definition [merkle] of the tree and the root, and the proof that
    the streaming creation computes it, whatever the pieces the data comes in. *)

From S2P Require Import Prelude RawBitmap Digest MerkleTree.

(** ** Bytes of a list *)

Definition byte_at (l : list Z) (k : Z) : Z := default 0 (l !! Z.to_nat k).

Definition zlen (l : list Z) : Z := Z.of_nat (length l).

Definition zeros (n : Z) : list Z := replicate (Z.to_nat n) 0.

Definition slice (l : list Z) (off len : Z) : list Z := take (Z.to_nat len) (drop (Z.to_nat off) l).

Lemma zeros_node : replicate (Z.to_nat kNodeSize) 0 = zeros 8192.
Proof. done. Qed.

Lemma zlen_app l l' : zlen (l ++ l') = zlen l + zlen l'.
Proof. unfold zlen. rewrite length_app. lia. Qed.

Lemma zlen_nonneg l : 0 ≤ zlen l.
Proof. unfold zlen. lia. Qed.

Lemma zlen_nil_inv l : zlen l = 0 → l = [].
Proof. unfold zlen. intros. apply nil_length_inv. lia. Qed.

Lemma zlen_zeros n : 0 ≤ n → zlen (zeros n) = n.
Proof. intros. unfold zlen, zeros. rewrite length_replicate. lia. Qed.

Lemma zlen_take n l : 0 ≤ n ≤ zlen l → zlen (take (Z.to_nat n) l) = n.
Proof. unfold zlen. intros. rewrite length_take. lia. Qed.

Lemma zlen_drop n l : 0 ≤ n ≤ zlen l → zlen (drop (Z.to_nat n) l) = zlen l - n.
Proof. unfold zlen. intros. rewrite length_drop. lia. Qed.

Lemma zlen_slice l off len : 0 ≤ off → 0 ≤ len → off + len ≤ zlen l → zlen (slice l off len) = len.
Proof. unfold zlen, slice. intros. rewrite length_take, length_drop. lia. Qed.

(** A slice is cut off at the end of the list. *)
Lemma zlen_slice_min l off len : 0 ≤ off ≤ zlen l → 0 ≤ len → zlen (slice l off len) = Z.min len (zlen l - off).
Proof. unfold zlen, slice. intros. rewrite length_take, length_drop. lia. Qed.

Lemma byte_at_app l l' k : 0 ≤ k →
  byte_at (l ++ l') k = if k <? zlen l then byte_at l k else byte_at l' (k - zlen l).
Proof.
  intros Hk. unfold byte_at, zlen. destruct (Z.ltb_spec k (Z.of_nat (length l))).
  - by rewrite lookup_app_l by lia.
  - rewrite lookup_app_r by lia. do 2 f_equal. lia.
Qed.

Lemma byte_at_zeros n k : byte_at (zeros n) k = 0.
Proof.
  unfold byte_at, zeros. destruct (replicate _ _ !! _) eqn:E; [|done].
  apply lookup_replicate in E as [-> _]. done.
Qed.

Lemma byte_at_slice l off len k : 0 ≤ off → 0 ≤ k < len →
  byte_at (slice l off len) k = byte_at l (off + k).
Proof.
  intros Ho Hk. unfold byte_at, slice. rewrite lookup_take_lt, lookup_drop by lia.
  do 2 f_equal. lia.
Qed.

Lemma byte_ext l l' :
  zlen l = zlen l' → (∀ k, 0 ≤ k < zlen l → byte_at l k = byte_at l' k) → l = l'.
Proof.
  unfold zlen, byte_at. intros Hlen Hk. apply list_eq. intros i.
  destruct (Nat.lt_ge_cases i (length l)) as [Hi|Hi].
  - specialize (Hk (Z.of_nat i) ltac:(lia)). rewrite Nat2Z.id in Hk.
    destruct (lookup_lt_is_Some_2 l i Hi) as [x Hx].
    destruct (lookup_lt_is_Some_2 l' i ltac:(lia)) as [y Hy]. rewrite Hx, Hy in *. cbn in Hk. congruence.
  - rewrite !lookup_ge_None_2 by lia. done.
Qed.

Lemma slice_app_l l l' off len : 0 ≤ off → 0 ≤ len → off + len ≤ zlen l → slice (l ++ l') off len = slice l off len.
Proof.
  intros. apply byte_ext.
  - rewrite !zlen_slice; rewrite ?zlen_app; pose proof (zlen_nonneg l'); lia.
  - rewrite zlen_slice by (rewrite ?zlen_app; pose proof (zlen_nonneg l'); lia).
    intros k Hk. rewrite !byte_at_slice, byte_at_app by lia. by ztest.
Qed.

Lemma read_bytes_ok buf off len :
  0 ≤ off → 0 ≤ len → off + len ≤ zlen buf → read_bytes buf off len = Returns (slice buf off len).
Proof. unfold zlen. intros. unfold read_bytes, slice. by ztest. Qed.

Lemma write_bytes_ok buf off bytes :
  0 ≤ off → off + zlen bytes ≤ zlen buf →
  ∃ buf', write_bytes buf off bytes = Returns buf' ∧ zlen buf' = zlen buf ∧
    ∀ k, 0 ≤ k → byte_at buf' k =
      if (off <=? k) && (k <? off + zlen bytes) then byte_at bytes (k - off) else byte_at buf k.
Proof.
  intros Ho Hl. unfold write_bytes. pose proof (zlen_nonneg bytes). unfold zlen in *. ztest.
  eexists. split; [done|]. split.
  - rewrite !length_app, length_take, length_drop. lia.
  - intros k Hk. unfold byte_at. destruct (Z.leb_spec off k); cbn [andb].
    + rewrite lookup_app_r by (rewrite length_take; lia). rewrite length_take, Nat.min_l by lia.
      destruct (Z.ltb_spec k (off + Z.of_nat (length bytes))).
      * rewrite lookup_app_l by lia. do 2 f_equal. lia.
      * rewrite lookup_app_r by lia. rewrite lookup_drop. do 2 f_equal. lia.
    + rewrite lookup_app_l by (rewrite length_take; lia). by rewrite lookup_take_lt by lia.
Qed.

(** ** Lengths *)

Definition ceil_nodes (len : Z) : Z := (len + 8191) / 8192.

Lemma NextLength_spec len : 8192 < len < 2 ^ 63 → NextLength len = 32 * ceil_nodes len.
Proof.
  intros H. unfold NextLength, kNodeSize, ceil_nodes. ztest. rewrite round_up_small by lia.
  change kDigestsPerNode with 256. replace (len + 8192 - 1) with (len + 8191) by lia.
  replace ((len + 8191) / 8192 * 8192) with ((len + 8191) / 8192 * 32 * 256) by lia.
  rewrite Z.div_mul by lia. lia.
Qed.

Lemma NextAligned_spec len : 8192 < len < 2 ^ 63 →
  NextAligned len = 8192 * ceil_nodes (32 * ceil_nodes len).
Proof.
  intros H. unfold NextAligned. rewrite NextLength_spec by done. unfold kNodeSize, ceil_nodes.
  rewrite round_up_small by zlia. replace (_ + 8192 - 1) with (32 * ((len + 8191) / 8192) + 8191) by lia. lia.
Qed.

Lemma NextAligned_small len : len ≤ 8192 → NextAligned len = 0.
Proof. intros. unfold NextAligned, NextLength, kNodeSize. ztest. done. Qed.

Lemma NextAligned_bounds len : 8192 < len < 2 ^ 63 →
  32 * ceil_nodes len ≤ NextAligned len < 32 * ceil_nodes len + 8192 ∧
  8192 ≤ NextAligned len < len ∧ NextAligned len mod 8192 = 0.
Proof. intros H. rewrite NextAligned_spec by done. unfold ceil_nodes. split_and!; zlia. Qed.

(** Each level divides the length by 256, down to a node. *)
Lemma NextAligned_shrinks len k :
  8192 < len < 2 ^ 63 → 0 ≤ k → len ≤ 8192 * 256 ^ (k + 1) → NextAligned len ≤ 8192 * 256 ^ k.
Proof.
  intros Hl Hk Hle. rewrite NextAligned_spec by done. unfold ceil_nodes.
  rewrite Z.add_1_r, Z.pow_succ_r in Hle by done. pose proof (Z.pow_pos_nonneg 256 k).
  set (p := 256 ^ k) in *. assert ((len + 8191) / 8192 ≤ 256 * p) by zlia. zlia.
Qed.

(** ** The reference definition *)

Section merkle.
Context (hash : list Z → list Z).

Definition node_header (lvl len off : Z) : list Z :=
  le_bytes 8 (Z.lor off lvl) ++ le_bytes 4 (Z.min (len - off) 8192).

Definition node_pad (len : Z) : list Z :=
  zeros (if len mod 8192 =? 0 then 0 else 8192 - len mod 8192).

(** The digest of the node of [bytes] at offset [off] in a level of [len] bytes. *)
Definition node_hash (lvl len off : Z) (bytes : list Z) : list Z :=
  hash (node_header lvl len off ++ bytes ++ node_pad (zlen bytes)).

(** The digests of the first [n] nodes of a level. *)
Definition node_digests (lvl len : Z) (data : list Z) (n : Z) : list Z :=
  concat (map (λ i, node_hash lvl len (8192 * i) (slice data (8192 * i) 8192)) (seqZ 0 n)).

Definition pad_to_node (l : list Z) : list Z := l ++ zeros (8192 * ceil_nodes (zlen l) - zlen l).

(** The level above [data]: the digests of all its nodes, padded. *)
Definition next_level (lvl : Z) (data : list Z) : list Z :=
  pad_to_node (node_digests lvl (zlen data) data (ceil_nodes (zlen data))).

(** The tree over [data], from the bottom up, and its root. *)
Fixpoint merkle (fuel : nat) (lvl : Z) (data : list Z) : list Z * list Z :=
  match fuel with
  | O => ([], [])
  | S fuel =>
    if zlen data <=? 8192 then ([], node_hash lvl (zlen data) 0 data)
    else
      let above := next_level lvl data in
      let '(tree, root) := merkle fuel (lvl + 1) above in
      (above ++ tree, root)
  end.

Hypothesis (Hhash : ∀ x, length (hash x) = 32%nat).

Lemma zlen_node_hash lvl len off bytes : zlen (node_hash lvl len off bytes) = 32.
Proof using Hhash. unfold zlen, node_hash. by rewrite Hhash. Qed.

Lemma node_digests_S lvl len data n : 0 ≤ n →
  node_digests lvl len data (n + 1) =
  node_digests lvl len data n ++ node_hash lvl len (8192 * n) (slice data (8192 * n) 8192).
Proof using.
  intros Hn. unfold node_digests. replace (n + 1) with (Z.of_nat (S (Z.to_nat n))) by lia.
  rewrite seqZ_S, Z2Nat.id by done. rewrite map_app, concat_app, Z.add_0_l. cbn. by rewrite app_nil_r.
Qed.

Lemma zlen_node_digests lvl len data n : 0 ≤ n → zlen (node_digests lvl len data n) = 32 * n.
Proof using Hhash.
  intros Hn. pattern n. apply natlike_ind; [done| |done]. clear n Hn. intros n Hn IH.
  rewrite <- Z.add_1_r, node_digests_S, zlen_app, IH, zlen_node_hash by done. lia.
Qed.

(** Digests of full nodes do not depend on what follows. *)
Lemma node_digests_app lvl len data more n :
  0 ≤ n → 8192 * n ≤ zlen data → node_digests lvl len (data ++ more) n = node_digests lvl len data n.
Proof using.
  intros Hn Hlen. unfold node_digests. apply (f_equal (@concat Z)), map_ext_in.
  intros i Hi%list_elem_of_In%elem_of_seqZ. rewrite slice_app_l by lia. done.
Qed.

Lemma zlen_next_level lvl data : 8192 < zlen data < 2 ^ 63 → zlen (next_level lvl data) = NextAligned (zlen data).
Proof using Hhash.
  intros Hd. unfold next_level, pad_to_node. rewrite zlen_app, zlen_node_digests by (unfold ceil_nodes; zlia).
  rewrite zlen_zeros by (unfold ceil_nodes; zlia). rewrite NextAligned_spec by done. lia.
Qed.

(** ** Digest steps *)

Lemma DigestInit_ok d loc len :
  d.(ref_count_) = 0 → 0 ≤ len < UINT32_MAX →
  DigestInit true d loc len = Returns (ZX_OK,
    {| ctx_ := Some (le_bytes 8 loc ++ le_bytes 4 (Z.min len 8192)); bytes_ := d.(bytes_); ref_count_ := 0 |}).
Proof using.
  intros Hr Hl. unfold DigestInit, Init, Update, ZX_DEBUG_ASSERT, kNodeSize. ztest.
  cbn [mbind outcome_bind negb]. rewrite Hr. rewrite failed_ok. cbn -[le_bytes u32]. unwrap. done.
Qed.

Lemma DigestUpdate_ok d fed in_ off len :
  d.(ref_count_) = 0 → d.(ctx_) = Some fed → 0 ≤ len → Z.min len (8192 - off mod 8192) ≤ zlen in_ →
  let chunk := Z.min len (8192 - off mod 8192) in
  DigestUpdate d in_ off len = Returns (chunk,
    {| ctx_ := Some (fed ++ slice in_ 0 chunk); bytes_ := d.(bytes_); ref_count_ := 0 |}).
Proof using.
  intros Hr Hc Hl Hin chunk. unfold DigestUpdate, kNodeSize.
  pose proof (Z.mod_pos_bound off 8192 ltac:(lia)). rewrite read_bytes_ok by lia. cbn [mbind outcome_bind].
  pose proof (zlen_slice in_ 0 chunk ltac:(lia) ltac:(lia) ltac:(lia)) as Hz. unfold zlen in Hz.
  unfold Update, ZX_DEBUG_ASSERT, INT_MAX. fold chunk. rewrite Hr, Hz, Hc. ztest. done.
Qed.

Lemma DigestFinal_ok d fed off :
  d.(ref_count_) = 0 → d.(ctx_) = Some fed →
  ∃ c, DigestFinal hash d off = Returns {| ctx_ := c; bytes_ := hash (fed ++ node_pad off); ref_count_ := 0 |}.
Proof using.
  intros Hr Hc. unfold DigestFinal, kNodeSize, node_pad.
  pose proof (Z.mod_pos_bound off 8192 ltac:(lia)).
  destruct (Z.eqb_spec (off mod 8192) 0); cbn [negb mbind outcome_bind].
  - unfold Final, ZX_DEBUG_ASSERT. rewrite Hr, Hc. cbn. rewrite app_nil_r. by eexists.
  - unfold Update, Final, ZX_DEBUG_ASSERT, INT_MAX. rewrite length_replicate, Hr, Hc. ztest. cbn.
    by eexists.
Qed.

End merkle.

(** ** The invariant of the chain

    [P] is what a level of [len] bytes has consumed so far. *)

Section creation.
Context (hash : list Z → list Z).
Hypothesis (Hhash : ∀ x, length (hash x) = 32%nat).

Opaque slice zeros.

Definition done_nodes (len : Z) (P : list Z) : Z :=
  if zlen P =? len then ceil_nodes len else zlen P / 8192.

(** The digests the level has passed on. *)
Definition done_digests (lvl len : Z) (P : list Z) : list Z :=
  node_digests hash lvl len P (done_nodes len P).

Definition level_inv (l : Level) (lvl len : Z) (P : list Z) : Prop :=
  l.(initialized_) = true ∧ l.(level_) = lvl ∧ l.(offset_) = zlen P ∧ l.(length_) = len ∧
  l.(digest_).(ref_count_) = 0 ∧ zlen P ≤ len ∧
  (zlen P mod 8192 ≠ 0 → zlen P ≠ len →
     l.(digest_).(ctx_) = Some (node_header lvl len (8192 * (zlen P / 8192)) ++
                                slice P (8192 * (zlen P / 8192)) 8192)) ∧
  (len ≤ 8192 → zlen P = len → 0 < len → l.(digest_).(bytes_) = node_hash hash lvl len 0 P).

(** The tree buffer has [D] at [base], and zeros after it up to a node boundary. *)
Definition holds (tree : list Z) (base : Z) (D : list Z) : Prop :=
  ∀ k, 0 ≤ k < 8192 * ceil_nodes (zlen D) → byte_at tree (base + k) = byte_at D k.

Fixpoint chain_inv (mt : list Level) (lvl len : Z) (P : list Z) (base : Z) (tree : list Z) : Prop :=
  match mt with
  | [] => False
  | l :: next =>
    level_inv l lvl len P ∧
    (8192 < len →
       base + NextAligned len ≤ zlen tree ∧ holds tree base (done_digests lvl len P) ∧
       chain_inv next (lvl + 1) (NextAligned len) (done_digests lvl len P) (base + NextAligned len) tree)
  end.

(** What an update of a level guarantees: the chain has consumed [in_] too, and
    nothing below [base] was touched. *)
Definition updated (r : outcome (zx_status * list Level * list Z)) (n : nat) (lvl len : Z) (P : list Z)
    (base : Z) (tree : list Z) : Prop :=
  ∃ mt' tree', r = Returns (ZX_OK, mt', tree') ∧ chain_inv mt' lvl len P base tree' ∧
    length mt' = n ∧ zlen tree' = zlen tree ∧ ∀ k, 0 ≤ k < base → byte_at tree' k = byte_at tree k.

Lemma slice_extend P in_ chunk j :
  j = zlen P / 8192 → 0 ≤ chunk → chunk ≤ zlen in_ → zlen P mod 8192 + chunk ≤ 8192 →
  slice (P ++ slice in_ 0 chunk) (8192 * j) 8192 = slice P (8192 * j) 8192 ++ slice in_ 0 chunk.
Proof using.
  intros Hj Hc Hin Hle. pose proof (zlen_nonneg P).
  pose proof (zlen_slice in_ 0 chunk ltac:(lia) Hc ltac:(lia)) as Hz.
  assert (0 ≤ 8192 * j ≤ zlen P) by zlia.
  assert (Hl : zlen (slice P (8192 * j) 8192) = zlen P - 8192 * j) by (rewrite zlen_slice_min by lia; zlia).
  apply byte_ext.
  - rewrite zlen_app, Hz, Hl, zlen_slice_min; rewrite ?zlen_app; zlia.
  - rewrite zlen_slice_min by (rewrite ?zlen_app; zlia). rewrite zlen_app, Hz. intros k Hk.
    rewrite byte_at_slice, !byte_at_app, Hl by lia. zcases; [by rewrite byte_at_slice by lia|].
    f_equal. lia.
Qed.

(** A chunk that ends a node adds its digest; one that does not adds none. *)
Lemma done_digests_chunk lvl len P in_ chunk :
  let j := zlen P / 8192 in let P' := P ++ slice in_ 0 chunk in
  zlen P < len → 0 < chunk ≤ zlen in_ → zlen P + chunk ≤ len → zlen P mod 8192 + chunk ≤ 8192 →
  done_digests lvl len P' =
    if (zlen P' mod 8192 =? 0) || (zlen P' =? len) then
      done_digests lvl len P ++ node_hash hash lvl len (8192 * j) (slice P' (8192 * j) 8192)
    else done_digests lvl len P.
Proof using.
  intros j P' Hlt Hc Hle Hmod. pose proof (zlen_nonneg P).
  assert (HP' : zlen P' = zlen P + chunk) by (unfold P'; rewrite zlen_app, zlen_slice; lia).
  unfold done_digests, done_nodes. ztest. fold j.
  assert (Hj : 0 ≤ j ∧ 8192 * j ≤ zlen P) by (unfold j; zlia).
  rewrite <- (node_digests_app hash lvl len P (slice in_ 0 chunk) j) by lia. fold P'.
  rewrite <- node_digests_S by lia.
  destruct (Z.eqb_spec (zlen P') len), (Z.eqb_spec (zlen P' mod 8192) 0); cbn [orb]; f_equal;
    unfold ceil_nodes, j in *; zlia.
Qed.

(** Writing the next digest, on a fresh node of zeros where one starts. *)
Lemma write_digest tree base D dig j :
  0 ≤ base → zlen D = 32 * j → 0 ≤ j → zlen dig = 32 →
  base + 8192 * ceil_nodes (32 * (j + 1)) ≤ zlen tree → holds tree base D →
  ∃ tree', (tree ← (if 32 * j mod kNodeSize =? 0 then
                      write_bytes tree (base + 32 * j) (replicate (Z.to_nat kNodeSize) 0)
                    else Returns tree);
            write_bytes tree (base + 32 * j) dig) = Returns tree' ∧
    zlen tree' = zlen tree ∧ holds tree' base (D ++ dig) ∧
    (∀ k, 0 ≤ k < base → byte_at tree' k = byte_at tree k) ∧
    (∀ k, base + 8192 * ceil_nodes (32 * (j + 1)) ≤ k → byte_at tree' k = byte_at tree k).
Proof using.
  intros Hb HD Hj Hdig Hcap Hh. rewrite zeros_node. unfold kNodeSize, ceil_nodes in *.
  assert (∃ t, (if 32 * j mod 8192 =? 0 then
      write_bytes tree (base + 32 * j) (zeros 8192) else Returns tree) = Returns t ∧
    zlen t = zlen tree ∧ (∀ k, 0 ≤ k < base + 32 * j → byte_at t k = byte_at tree k) ∧
    (∀ k, base + 8192 * ((32 * (j + 1) + 8191) / 8192) ≤ k → byte_at t k = byte_at tree k) ∧
    ∀ k, base + 32 * j ≤ k < base + 8192 * ((32 * (j + 1) + 8191) / 8192) → byte_at t k = 0)
    as (t & -> & Hlt & Hlow & Hhigh & Hz).
  { destruct (Z.eqb_spec (32 * j mod 8192) 0).
    - destruct (write_bytes_ok tree (base + 32 * j) (zeros 8192)) as (t & Hw & Hl & Hk);
        [lia|rewrite zlen_zeros by lia; zlia|]. rewrite zlen_zeros in Hk by lia.
      exists t. split_and!; [exact Hw|done|..].
      + intros k Hk0. rewrite Hk by lia. by ztest.
      + intros k Hk0. rewrite Hk by zlia. destruct (Z.ltb_spec k (base + 32 * j + 8192)); [zlia|]. by rewrite andb_false_r.
      + intros k Hk0. rewrite Hk by zlia. ztest. cbn. destruct (Z.ltb_spec k (base + 32 * j + 8192)); [|zlia].
        apply byte_at_zeros.
    - exists tree. split_and!; [done..|]. intros k Hk0. replace k with (base + (k - base)) by lia.
      unfold holds, ceil_nodes in Hh. rewrite Hh by zlia. unfold byte_at, zlen in *. by rewrite lookup_ge_None_2 by lia. }
  cbn [mbind outcome_bind]. destruct (write_bytes_ok t (base + 32 * j) dig) as (t' & -> & Hl' & Hk'); [lia|zlia|].
  exists t'. split_and!; [done|lia| | |].
  - intros k Hk. rewrite zlen_app, HD, Hdig in Hk. unfold ceil_nodes in Hk.
    replace (32 * j + 32) with (32 * (j + 1)) in Hk by lia.
    rewrite Hk', byte_at_app, HD, Hdig by lia. destruct (Z.ltb_spec k (32 * j)).
    + ztest. cbn. rewrite Hlow by lia. apply Hh. unfold ceil_nodes. rewrite HD. zlia.
    + ztest. cbn. destruct (Z.ltb_spec (base + k) (base + 32 * j + 32)).
      * f_equal. lia.
      * rewrite Hz by lia. unfold byte_at, zlen in *. by rewrite lookup_ge_None_2 by lia.
  - intros k Hk. rewrite Hk' by lia. ztest. cbn. apply Hlow. lia.
  - intros k Hk. rewrite Hk' by zlia. rewrite Hdig. destruct (Z.ltb_spec k (base + 32 * j + 32)); [zlia|].
    rewrite andb_false_r. by apply Hhigh.
Qed.

(** The chain only depends on the part of the buffer above its base. *)
Lemma chain_inv_frame mt lvl len P base tree tree' :
  chain_inv mt lvl len P base tree → zlen tree' = zlen tree →
  (∀ k, base ≤ k → byte_at tree' k = byte_at tree k) → chain_inv mt lvl len P base tree'.
Proof using.
  revert lvl len P base. induction mt as [|l next IH]; intros lvl len P base; [done|].
  cbn [chain_inv]. intros [Hl Hc] Hlen Hk. split; [done|]. intros Hbig. destruct (Hc Hbig) as (? & Hh & Hn).
  split_and!; [lia| |].
  - intros k Hk0. rewrite Hk by lia. by apply Hh.
  - pose proof (round_up_nonneg (NextLength len) kNodeSize).
    apply IH; [done..|]. intros k Hk0. apply Hk. unfold NextAligned in Hk0. lia.
Qed.

(** The context of the node under way, after [DigestInit] at the start of one. *)
Lemma node_context l lvl len P :
  level_inv l lvl len P → zlen P < len → 0 ≤ len < UINT32_MAX →
  ∃ d, (if l.(offset_) mod kNodeSize =? 0 then
          DigestInit true l.(digest_) (Z.lor l.(offset_) l.(level_)) (l.(length_) ⊟ l.(offset_))
        else Returns (ZX_OK, l.(digest_))) = Returns (ZX_OK, d) ∧ d.(ref_count_) = 0 ∧
    d.(ctx_) = Some (node_header lvl len (8192 * (zlen P / 8192)) ++ slice P (8192 * (zlen P / 8192)) 8192).
Proof using.
  intros (Hi & Hl & Ho & Hlen & Hr & Hle & Hctx & _) Hlt Hb. pose proof (zlen_nonneg P).
  unfold UINT32_MAX in Hb. unfold kNodeSize. rewrite Ho, Hl, Hlen. unwrap.
  destruct (Z.eqb_spec (zlen P mod 8192) 0) as [E|E].
  - rewrite DigestInit_ok by (done || unfold UINT32_MAX; lia). eexists. split_and!; [done..|]. cbn [ctx_].
    assert (8192 * (zlen P / 8192) = zlen P) as -> by zlia.
    replace (slice P (zlen P) 8192) with (@nil Z); [by rewrite app_nil_r|].
    symmetry. apply nil_length_inv. pose proof (zlen_slice_min P (zlen P) 8192 ltac:(lia) ltac:(lia)) as Hz.
    unfold zlen in *. lia.
  - eexists. split_and!; [done..|]. apply Hctx; [done|lia].
Qed.

Section loop.
Context (next_update : list Level → buffer → list Z → Z → outcome (zx_status * list Level * list Z))
  (depth : nat) (lvl len base : Z).
Hypothesis (Hlen : 0 ≤ len < UINT32_MAX) (Hbase : 0 ≤ base)
  (Hnext : ∀ mt lvl len P base tree in_,
     (length mt ≤ depth)%nat → chain_inv mt lvl len P base tree → 0 ≤ len < UINT32_MAX → 0 ≤ base →
     zlen P + zlen in_ ≤ len →
     updated (next_update mt (inl in_) tree base) (length mt) lvl len (P ++ in_) base tree).

(** One round: the chunk up to the end of the node or of the input. *)
Lemma update_round fuel l next in_ P tree :
  chain_inv (l :: next) lvl len P base tree → (length next ≤ depth)%nat →
  0 < zlen in_ → zlen P + zlen in_ ≤ len →
  let chunk := Z.min (zlen in_) (8192 - zlen P mod 8192) in
  let P' := P ++ slice in_ 0 chunk in
  ∃ l' next' tree', chain_inv (l' :: next') lvl len P' base tree' ∧
    length next' = length next ∧ zlen tree' = zlen tree ∧
    (∀ k, 0 ≤ k < base → byte_at tree' k = byte_at tree k) ∧
    update_loop hash true next_update (S fuel) l next in_ tree base (32 * (zlen P / 8192)) =
      if ((zlen P' mod 8192 =? 0) || (zlen P' =? len)) && negb (len <=? 8192) then
        update_loop hash true next_update fuel l' next' (drop (Z.to_nat chunk) in_) tree' base
          (32 * (zlen P / 8192) + 32)
      else Returns (ZX_OK, l' :: next', tree').
Proof using Hhash Hlen Hbase Hnext.
  intros [Hl Hchain] Hd Hin Hle chunk P'. pose proof (zlen_nonneg P).
  assert (Hc : 0 < chunk ≤ zlen in_ ∧ zlen P mod 8192 + chunk ≤ 8192) by (unfold chunk; zlia).
  assert (HP' : zlen P' = zlen P + chunk) by (unfold P'; rewrite zlen_app, zlen_slice; lia).
  destruct (node_context l lvl len P Hl) as (d & Hinit & Hr & Hctx); [lia|done|].
  pose proof Hl as (Hi & Hlv & Hoff & Hlength & _ & _ & _ & _).
  cbn [update_loop]. fold (zlen in_). destruct (Z.eqb_spec (zlen in_) 0) as [?|_]; [lia|].
  rewrite Hinit. cbn [mbind outcome_bind]. rewrite failed_ok. cbn [with_digest digest_ offset_ length_].
  rewrite (DigestUpdate_ok d _ in_ (offset_ l) (zlen in_) Hr Hctx) by lia. rewrite Hoff.
  cbn [mbind outcome_bind]. fold chunk. rewrite <- app_assoc.
  rewrite <- (slice_extend P in_ chunk (zlen P / 8192)) by lia. fold P'.
  set (j := zlen P / 8192) in *. unfold UINT32_MAX in Hlen. cbn [with_digest with_offset offset_ length_ digest_].
  rewrite u64_small by lia. rewrite <- HP'. rewrite Hlength. change kNodeSize with 8192.
  pose proof (done_digests_chunk lvl len P in_ chunk ltac:(lia) ltac:(lia) ltac:(lia) ltac:(lia)) as Hdone.
  fold P' j in Hdone.
  rewrite <- negb_orb. destruct ((zlen P' mod 8192 =? 0) || (zlen P' =? len)) eqn:Hend; cbn [negb andb].
  2: { apply orb_false_iff in Hend as [?%Z.eqb_neq ?%Z.eqb_neq].
       eexists _, next, tree. split_and!; [|done..]. cbn [chain_inv]. rewrite Hdone. split; [|done].
       split_and!; [done..|cbn; lia| |lia]. intros _ _.
       replace (zlen P' / 8192) with j by (unfold j in *; zlia). reflexivity. }
  assert (Hj : 0 ≤ j ∧ 8192 * j ≤ zlen P ∧ zlen P' ≤ 8192 * j + 8192) by (unfold j; zlia).
  assert (Hslice : zlen (slice P' (8192 * j) 8192) = zlen P' - 8192 * j) by (rewrite zlen_slice_min by lia; lia).
  destruct (DigestFinal_ok hash {| ctx_ := Some (node_header lvl len (8192 * j) ++ slice P' (8192 * j) 8192);
    bytes_ := bytes_ d; ref_count_ := 0 |} _ (zlen P') eq_refl eq_refl) as (c & ->).
  cbn [mbind outcome_bind].
  replace (hash _) with (node_hash hash lvl len (8192 * j) (slice P' (8192 * j) 8192)).
  2: { unfold node_hash. rewrite <- app_assoc. unfold node_pad. rewrite Hslice.
       by replace ((zlen P' - 8192 * j) mod 8192) with (zlen P' mod 8192) by zlia. }
  set (dig := node_hash _ _ _ _ _) in *.
  assert (Hdig : zlen dig = 32) by by apply zlen_node_hash.
  assert (Hend' : zlen P' = 8192 * (j + 1) ∨ zlen P' = len).
  { apply orb_true_iff in Hend as [?%Z.eqb_eq|?%Z.eqb_eq]; [left; unfold j in *; zlia|by right]. }
  destruct (Z.leb_spec len 8192) as [Hsmall|Hbig]; cbn [negb].
  - eexists _, next, tree. split_and!; [|done..]. split; [|lia].
    split_and!; [done..|cbn; lia| |].
    + intros Hm Hne. exfalso. destruct Hend' as [Hend'|]; [|done]. revert Hm. rewrite Hend'. zlia.
    + intros _ Hfull Hpos. cbn [digest_ with_digest bytes_]. unfold dig.
      assert (j = 0) as -> by (unfold j; zlia). rewrite Z.mul_0_r. f_equal.
      apply byte_ext; [rewrite zlen_slice_min; lia|]. rewrite zlen_slice_min by lia. intros k Hk.
      rewrite byte_at_slice by lia. f_equal.
  - destruct (Hchain Hbig) as (Hcap & Hholds & Hrest).
    pose proof (NextAligned_bounds len ltac:(lia)) as (Hna & Hna' & _).
    assert (HD : zlen (done_digests lvl len P) = 32 * j).
    { unfold done_digests. rewrite zlen_node_digests by (done || (unfold done_nodes; ztest; lia)).
      unfold done_nodes. by ztest. }
    assert (j + 1 ≤ ceil_nodes len) by (unfold ceil_nodes; zlia).
    assert (Hjc : 8192 * ceil_nodes (32 * (j + 1)) ≤ NextAligned len).
    { rewrite NextAligned_spec by lia. unfold ceil_nodes. zlia. }
    destruct (write_digest tree base (done_digests lvl len P) dig j) as (t1 & Hw & Hl1 & Hh1 & Hlow & Hhigh);
      [done|done|lia|done|lia|done|].
    apply bind_returns in Hw as (t0 & Hw0 & Hw1). change kNodeSize with 8192 in Hw0.
    rewrite Hw0. cbn [mbind outcome_bind bytes_ with_digest]. rewrite Hw1. cbn [mbind outcome_bind].
    destruct (Hnext next (lvl + 1) (NextAligned len) (done_digests lvl len P) (base + NextAligned len) t1 dig)
      as (next' & t2 & -> & Hc2 & Hn2 & Hl2 & Hlow2); [done| |unfold UINT32_MAX; lia|lia|rewrite HD, Hdig; lia|].
    { eapply chain_inv_frame; [exact Hrest|done|]. intros k Hk. apply Hhigh. lia. }
    cbn [mbind outcome_bind]. rewrite failed_ok. eexists _, next', t2. split_and!; [|done|congruence|..|reflexivity].
    + cbn [chain_inv]. rewrite Hdone. split; [|intros _; split_and!; [lia| |done]].
      * split_and!; [done..|cbn; lia| |lia].
        intros Hm Hne. exfalso. destruct Hend' as [Hend'|]; [|done]. revert Hm. rewrite Hend'. zlia.
      * intros k Hk. rewrite Hlow2; [by apply Hh1|]. rewrite zlen_app, HD, Hdig in Hk.
        replace (32 * j + 32) with (32 * (j + 1)) in Hk by lia. lia.
    + intros k Hk. rewrite Hlow2 by lia. by apply Hlow.
Qed.

Lemma slice_drop in_ chunk : slice in_ 0 chunk ++ drop (Z.to_nat chunk) in_ = in_.
Proof using. Transparent slice. unfold slice. rewrite drop_0. apply take_drop. Opaque slice. Qed.

Lemma update_loop_ok fuel l next in_ P tree :
  zlen in_ < Z.of_nat fuel → chain_inv (l :: next) lvl len P base tree → (length next ≤ depth)%nat →
  zlen P + zlen in_ ≤ len →
  updated (update_loop hash true next_update fuel l next in_ tree base (32 * (zlen P / 8192)))
    (S (length next)) lvl len (P ++ in_) base tree.
Proof using Hhash Hlen Hbase Hnext.
  revert l next in_ P tree. induction fuel as [|fuel IH]; intros l next in_ P tree Hf Hc Hd Hle.
  { pose proof (zlen_nonneg in_). lia. }
  destruct (Z.eq_dec (zlen in_) 0) as [E|E].
  { exists (l :: next), tree. cbn [update_loop]. fold (zlen in_). rewrite E.
    apply zlen_nil_inv in E as ->. rewrite app_nil_r. split_and!; done. }
  pose proof (zlen_nonneg in_). pose proof (zlen_nonneg P).
  destruct (update_round fuel l next in_ P tree Hc Hd ltac:(lia) Hle)
    as (l' & next' & tree' & Hc' & Hn' & Hl' & Hlow & ->).
  set (chunk := Z.min (zlen in_) (8192 - zlen P mod 8192)) in *.
  assert (Hch : 0 < chunk ≤ zlen in_) by (unfold chunk; zlia).
  pose proof (zlen_slice in_ 0 chunk ltac:(lia) ltac:(lia) ltac:(lia)) as Hsl.
  rewrite zlen_app, Hsl in *.
  assert (Happ : (P ++ slice in_ 0 chunk) ++ drop (Z.to_nat chunk) in_ = P ++ in_)
    by (by rewrite <- app_assoc, slice_drop).
  assert (Hdrop : zlen (drop (Z.to_nat chunk) in_) = zlen in_ - chunk) by (apply zlen_drop; lia).
  destruct (((zlen P + chunk) mod 8192 =? 0) || (zlen P + chunk =? len)) eqn:Hend;
    [destruct (Z.leb_spec len 8192) as [Hsmall|Hbig]|]; cbn [andb negb].
  - assert (chunk = zlen in_) as Hall.
    { apply orb_true_iff in Hend as [?%Z.eqb_eq|?%Z.eqb_eq]; zlia. }
    exists (l' :: next'), tree'. split_and!; [done| |cbn; lia|done..].
    by rewrite <- Happ, (zlen_nil_inv (drop _ _)), app_nil_r by lia.
  - assert (Hoff : zlen in_ - chunk = 0 ∨ 32 * (zlen P / 8192) + 32 = 32 * ((zlen P + chunk) / 8192)).
    { apply orb_true_iff in Hend as [?%Z.eqb_eq|?%Z.eqb_eq]; [right; unfold chunk in *; zlia|left; lia]. }
    destruct Hoff as [Hz|Hoff].
    + assert (Hnil : drop (Z.to_nat chunk) in_ = []) by (apply zlen_nil_inv; lia).
      rewrite Hnil in *. rewrite app_nil_r in Happ. exists (l' :: next'), tree'. rewrite <- Happ.
      split_and!; [|done|cbn; lia|done..].
      destruct fuel; [lia|]. done.
    + rewrite Hoff, <- Hn', <- Happ.
      replace (zlen P + chunk) with (zlen (P ++ slice in_ 0 chunk)) by (rewrite zlen_app; lia).
      destruct (IH l' next' (drop (Z.to_nat chunk) in_) (P ++ slice in_ 0 chunk) tree')
        as (mt2 & t2 & -> & Hc2 & Hn2 & Hl2 & Hlow2); [lia|done|lia|rewrite zlen_app; lia|].
      exists mt2, t2. split_and!; [done..|congruence|]. intros k Hk. by rewrite Hlow2, Hlow by done.
  - apply orb_false_iff in Hend as [?%Z.eqb_neq ?%Z.eqb_neq].
    assert (chunk = zlen in_) as Hall by (unfold chunk in *; zlia).
    exists (l' :: next'), tree'. split_and!; [done| |cbn; lia|done..].
    by rewrite <- Happ, (zlen_nil_inv (drop _ _)), app_nil_r by lia.
Qed.

End loop.

Lemma create_update_ok depth mt lvl len P base tree in_ :
  (length mt ≤ depth)%nat → chain_inv mt lvl len P base tree → 0 ≤ len < UINT32_MAX → 0 ≤ base →
  zlen P + zlen in_ ≤ len →
  updated (create_update hash true depth mt (inl in_) false tree base) (length mt) lvl len (P ++ in_) base tree.
Proof using Hhash.
  revert mt lvl len P base tree in_. induction depth as [|depth IH]; intros mt lvl len P base tree in_ Hd Hc Hl Hb Hle;
    (destruct mt as [|l next]; [done|]); [cbn in Hd; lia|].
  pose proof (zlen_nonneg in_). pose proof (zlen_nonneg P).
  pose proof Hc as [(Hi & Hlv & Hoff & Hlength & Hr & _) _]. unfold UINT32_MAX in Hl.
  cbn [create_update buffer_len]. fold (zlen in_). unfold ZX_DEBUG_ASSERT. rewrite Hoff, Hi, Hlength. unwrap. ztest.
  cbn [mbind outcome_bind negb andb]. destruct (Z.eqb_spec (zlen in_) 0) as [E|E].
  { exists (l :: next), tree. apply zlen_nil_inv in E as ->. rewrite app_nil_r. by split_and!. }
  replace ((zlen P - zlen P mod kNodeSize) / kDigestsPerNode) with (32 * (zlen P / 8192))
    by (change kNodeSize with 8192; change kDigestsPerNode with 256; zlia).
  apply (update_loop_ok _ depth); [unfold UINT32_MAX; lia|done| |unfold zlen; lia|done|cbn in Hd; lia|done].
  intros. by apply IH.
Qed.

(** ** Finishing *)

(** The data of a level in the buffer: what it was given, then zeros. *)
Definition level_data (data : option Z) (lvl len : Z) (P : list Z) (base : Z) (tree : list Z) : Prop :=
  match data with
  | None => lvl = 0 ∧ zlen P = len
  | Some dbase =>
    0 < lvl ∧ 0 < len ∧ 0 ≤ dbase ∧ dbase + len ≤ zlen tree ∧
    ∀ k, 0 ≤ k < len → byte_at tree (dbase + k) = byte_at P k
  end.

(** The tail that [CreateFinalInternal] feeds to a level. *)
Lemma final_tail data lvl len P base tree mt :
  level_data data lvl len P base tree → chain_inv mt lvl len P base tree → 0 ≤ len < UINT32_MAX → 0 ≤ base →
  ∃ tail, tail_bytes data tree (zlen P) (len - zlen P) = Returns tail ∧
    updated (CreateUpdate hash true mt tail false tree base) (length mt) lvl len
      (P ++ zeros (len - zlen P)) base tree ∧
    (len = 0 → CreateUpdate hash true mt tail false tree base = Returns (ZX_OK, mt, tree)).
Proof using Hhash.
  intros Hdata Hc Hl Hb. pose proof (zlen_nonneg P).
  destruct mt as [|l next]; [done|]. pose proof Hc as [(Hi & _ & Hoff & Hlength & _ & Hle & _) _].
  destruct data as [dbase|].
  - destruct Hdata as (_ & Hpos & Hd0 & Hd & Hbytes).
    unfold tail_bytes. rewrite read_bytes_ok by lia. cbn [mbind outcome_bind].
    eexists. split_and!; [done| |lia].
    assert (slice tree (dbase + zlen P) (len - zlen P) = zeros (len - zlen P)) as ->.
    { apply byte_ext; rewrite zlen_slice by lia; [by rewrite zlen_zeros by lia|].
      intros k Hk. rewrite byte_at_slice, byte_at_zeros by lia.
      replace (dbase + zlen P + k) with (dbase + (zlen P + k)) by lia. rewrite Hbytes by lia.
      unfold byte_at, zlen in *. by rewrite lookup_ge_None_2 by lia. }
    apply create_update_ok; [done|done|done|done|]. rewrite zlen_zeros; lia.
  - destruct Hdata as [_ Hfull]. eexists. split; [done|]. rewrite Hfull, Z.sub_diag.
    change (zeros 0) with (@nil Z). rewrite app_nil_r.
    assert (CreateUpdate hash true (l :: next) (inr 0) false tree base = Returns (ZX_OK, l :: next, tree)) as E.
    { unfold CreateUpdate. cbn [length create_update buffer_len].
      unfold ZX_DEBUG_ASSERT, UINT32_MAX in *. rewrite Hoff, Hi, Z.add_0_r. unwrap. by ztest. }
    split; [|done]. exists (l :: next), tree. by split_and!.
Qed.

(** An empty level gets its digest here. *)
Lemma final_empty l next lvl len P base tree :
  chain_inv (l :: next) lvl len P base tree → (len = 0 → lvl = 0) →
  ∃ l', (if len =? 0 then
           r ← DigestInit true l.(digest_) 0 0;
           let '(rc, d) := r in
           if failed rc then Returns (rc, with_digest l d)
           else d ← DigestFinal hash d 0; Returns (ZX_OK, with_digest l d)
         else Returns (ZX_OK, l)) = Returns (ZX_OK, l') ∧
    chain_inv (l' :: next) lvl len P base tree ∧ l'.(length_) = l.(length_) ∧ l'.(offset_) = l.(offset_) ∧
    (len = 0 → l'.(digest_).(bytes_) = node_hash hash lvl 0 0 []).
Proof using.
  intros [Hl Hc] Hz. destruct (Z.eqb_spec len 0) as [->|]; [|by exists l].
  pose proof Hl as (? & ? & ? & ? & Hr & ? & ? & ?).
  rewrite DigestInit_ok by (done || unfold UINT32_MAX; lia). cbn [mbind outcome_bind].
  rewrite failed_ok.
  edestruct (DigestFinal_ok hash) as (c & ->); [reflexivity|reflexivity|]. cbn [mbind outcome_bind].
  eexists. split; [done|]. split_and!; [split; [|lia]|done..|].
  - split_and!; try done. intros _ ?. pose proof (zlen_nonneg P). lia.
  - intros _. cbn [with_digest digest_ bytes_]. rewrite Hz by done. unfold node_hash, node_header.
    by rewrite app_nil_l, <- app_assoc.
Qed.

Lemma complete_level lvl len Q :
  zlen Q = len → 8192 < len < 2 ^ 63 →
  let D := done_digests lvl len Q in
  zlen D = 32 * ceil_nodes len ∧ D ++ zeros (NextAligned len - zlen D) = next_level hash lvl Q ∧
  8192 * ceil_nodes (zlen D) = NextAligned len.
Proof using Hhash.
  intros HQ Hlen D. assert (HD : zlen D = 32 * ceil_nodes len).
  { unfold D, done_digests, done_nodes. rewrite HQ, Z.eqb_refl.
    apply zlen_node_digests; [done|unfold ceil_nodes; zlia]. }
  rewrite HD, NextAligned_spec by done. split_and!; [done| |done].
  unfold next_level, pad_to_node, D, done_digests, done_nodes in *. rewrite HQ, Z.eqb_refl in *. by rewrite HD.
Qed.

(** The tree buffer has the tree [t] at [base]. *)
Definition has_tree (tree : list Z) (base : Z) (t : list Z) : Prop :=
  ∀ k, 0 ≤ k < zlen t → byte_at tree (base + k) = byte_at t k.

Lemma create_final_ok depth F mt data lvl len P base tree :
  (length mt ≤ depth)%nat → chain_inv mt lvl len P base tree → level_data data lvl len P base tree →
  0 ≤ len < UINT32_MAX → 0 ≤ lvl → 0 ≤ base → len ≤ 8192 * 256 ^ Z.of_nat F →
  let '(t, root) := merkle hash (S F) lvl (P ++ zeros (len - zlen P)) in
  ∃ mt' tree', create_final hash true depth mt data false tree base true = Returns (ZX_OK, mt', tree', Some root) ∧
    zlen tree' = zlen tree ∧ (∀ k, 0 ≤ k < base → byte_at tree' k = byte_at tree k) ∧ has_tree tree' base t.
Proof using Hhash.
  revert F mt data lvl len P base tree.
  induction depth as [|depth IH]; intros F mt data lvl len P base tree Hd Hc Hdata Hl Hlv Hb HF;
    (destruct mt as [|l next]; [done|]); [cbn in Hd; lia|].
  pose proof Hc as [(Hi & Hlevel & Hoff & Hlength & _ & Hle & _) _]. pose proof (zlen_nonneg P).
  pose proof Hl as Hl'. unfold UINT32_MAX in Hl'. set (Q := P ++ zeros (len - zlen P)).
  assert (HQ : zlen Q = len) by (unfold Q; rewrite zlen_app, zlen_zeros; lia).
  cbn [create_final]. rewrite Hi, Hlevel, Hoff, Hlength. cbn [negb orb andb].
  replace ((lvl =? 0) && negb (zlen P =? len)) with false
    by (destruct data as [?|]; [destruct Hdata as (? & _); by ztest|destruct Hdata as [_ ->];
        rewrite Z.eqb_refl; by rewrite andb_false_r]).
  destruct (final_empty l next lvl len P base tree Hc) as (l1 & -> & Hc1 & Hlen1 & Hoff1 & Hempty).
  { intros ->. destruct data; [destruct Hdata as (_ & ? & _); lia|by destruct Hdata]. }
  cbn [mbind outcome_bind]. rewrite failed_ok, Hlen1, Hoff1, Hoff, Hlength. unwrap.
  destruct (final_tail data lvl len P base tree (l1 :: next) Hdata Hc1 Hl Hb) 
    as (tail & -> & (mt2 & t2 & Hup & Hc2 & Hn2 & Hl2 & Hlow2) & Hnothing).
  cbn [mbind outcome_bind]. rewrite Hup. cbn [mbind outcome_bind]. rewrite failed_ok. fold Q in Hc2.
  destruct mt2 as [|l2 next2]; [done|]. pose proof Hc2 as [(_ & _ & _ & Hlength2 & _ & _ & _ & Hroot) Hrest].
  cbn [finalized length_ digest_]. rewrite Hlength2. change kNodeSize with 8192.
  cbn [merkle]. rewrite HQ. destruct (Z.leb_spec len 8192) as [Hsmall|Hbig].
  - eexists _, t2. split_and!; [|done..|intros k Hk; change (zlen []) with 0 in Hk; lia].
    do 2 f_equal. destruct (Z.eq_dec len 0) as [Hz|].
    + rewrite Hnothing in Hup by done. injection Hup as <- <- <-. rewrite Hz in *.
      apply zlen_nil_inv in HQ. rewrite HQ, <- Hempty by done. done.
    + f_equal. apply Hroot; [done|done|lia].
  - destruct (Hrest Hbig) as (Hcap & Hholds & Hnext).
    destruct (complete_level lvl len Q HQ ltac:(lia)) as (HD & Hpad & Hceil).
    pose proof (NextAligned_bounds len ltac:(lia)) as (Hna & Hna' & _).
    destruct F as [|F]; [cbn in HF; lia|]. rewrite Nat2Z.inj_succ, <- Z.add_1_r in HF.
    pose proof (NextAligned_shrinks len (Z.of_nat F) ltac:(lia) ltac:(lia) HF) as HF'.
    specialize (IH F next2 (Some base) (lvl + 1) (NextAligned len) (done_digests lvl len Q) (base + NextAligned len) t2).
    rewrite Hpad in IH. destruct (merkle hash (S F) (lvl + 1) (next_level hash lvl Q)) as [t r].
    destruct IH as (mt3 & t3 & -> & Hl3 & Hlow3 & Htree3);
      [cbn in Hn2, Hd; lia|done|split_and!; try lia|unfold UINT32_MAX; lia|lia|lia|lia|].
    { intros k Hk. apply Hholds. lia. }
    cbn [mbind outcome_bind]. eexists _, t3. split_and!; [done|congruence|..].
    + intros k Hk. rewrite Hlow3, Hlow2 by lia. done.
    + assert (Hza : zlen (next_level hash lvl Q) = NextAligned len) by (by rewrite zlen_next_level, HQ by (done || lia)).
      intros k Hk. rewrite zlen_app, Hza in Hk. rewrite byte_at_app, Hza by lia.
      destruct (Z.ltb_spec k (NextAligned len)).
      * rewrite Hlow3 by lia. rewrite Hholds by lia. rewrite <- Hpad, byte_at_app by lia.
        destruct (Z.ltb_spec k (zlen (done_digests lvl len Q))); [done|]. rewrite byte_at_zeros.
        unfold byte_at, zlen in *. by rewrite lookup_ge_None_2 by lia.
      * rewrite <- Htree3 by lia. f_equal. lia.
Qed.

(** ** Starting *)

(** The bytes of the tree over [len] bytes. *)
Fixpoint tree_size (F : nat) (len : Z) : Z :=
  match F with
  | O => 0
  | S F => if len <=? 8192 then 0 else NextAligned len + tree_size F (NextAligned len)
  end.

Lemma tree_size_bounds F len : len < 2 ^ 63 → 0 ≤ tree_size F len ∧ (0 ≤ len → tree_size F len ≤ len).
Proof using.
  revert len. induction F as [|F IH]; intros len Hl; cbn; [lia|]. destruct (Z.leb_spec len 8192); [lia|].
  pose proof (NextAligned_bounds len ltac:(lia)) as (_ & ? & _). specialize (IH (NextAligned len) ltac:(lia)).
  split; [lia|]. intros _. destruct F as [|F]; [cbn; lia|].
  destruct (Z.le_gt_cases (NextAligned len) 8192) as [Hle|Hgt].
  - cbn. ztest. lia.
  - rewrite NextAligned_spec in * by lia. unfold ceil_nodes in *. zlia.
Qed.

Lemma zlen_merkle F lvl data :
  zlen data < 2 ^ 63 → zlen (merkle hash F lvl data).1 = tree_size F (zlen data).
Proof using Hhash.
  revert lvl data. induction F as [|F IH]; intros lvl data Hl; [done|]. cbn.
  destruct (Z.leb_spec (zlen data) 8192); [done|].
  pose proof (zlen_next_level hash Hhash lvl data ltac:(lia)) as Hn.
  pose proof (NextAligned_bounds (zlen data) ltac:(lia)) as (_ & ? & _).
  specialize (IH (lvl + 1) (next_level hash lvl data)). rewrite Hn in IH.
  destruct (merkle hash F (lvl + 1) (next_level hash lvl data)) as [t r]. cbn in IH |- *.
  rewrite zlen_app, Hn, IH; lia.
Qed.

Lemma GetTreeLength_size F fuel len :
  (F < fuel)%nat → 0 ≤ len < 2 ^ 63 → len ≤ 8192 * 256 ^ Z.of_nat F →
  tree_length fuel len = Returns (tree_size (S F) len).
Proof using.
  revert fuel len. induction F as [|F IH]; intros [|fuel] len HF Hl Hle; try lia.
  - cbn. rewrite NextAligned_small by (cbn in Hle; lia). cbn in Hle. by ztest.
  - rewrite Nat2Z.inj_succ, <- Z.add_1_r in Hle. cbn [tree_length tree_size].
    destruct (Z.leb_spec len 8192); [by rewrite NextAligned_small by lia|].
    pose proof (NextAligned_bounds len ltac:(lia)) as (_ & ? & _).
    pose proof (NextAligned_shrinks len (Z.of_nat F) ltac:(lia) ltac:(lia) Hle).
    pose proof (tree_size_bounds (S F) (NextAligned len) ltac:(lia)).
    ztest. rewrite IH by lia. cbn [mbind outcome_bind]. by unwrap.
Qed.

Lemma level_inv_new l lvl len :
  l.(level_) = lvl → l.(digest_).(ref_count_) = 0 → 0 ≤ len →
  level_inv {| initialized_ := true; level_ := l.(level_); offset_ := 0; length_ := len; digest_ := l.(digest_) |}
    lvl len [].
Proof using.
  intros Hlv Hr Hl. unfold level_inv. change (zlen []) with 0. cbn [initialized_ level_ offset_ length_ digest_].
  split_and!; try reflexivity; try assumption; [|lia]. change (0 mod 8192) with 0. lia.
Qed.

Lemma CreateInit_ok F fuel l lvl len tree_len base tree :
  (F < fuel)%nat → 0 ≤ len < 2 ^ 63 → len ≤ 8192 * 256 ^ Z.of_nat F →
  l.(level_) = lvl → l.(digest_).(ref_count_) = 0 → 0 ≤ base →
  tree_size (S F) len ≤ tree_len → base + tree_size (S F) len ≤ zlen tree →
  ∃ mt, CreateInit true fuel l [] len tree_len = Returns (ZX_OK, mt) ∧
    chain_inv mt lvl len [] base tree.
Proof using.
  revert fuel l lvl len tree_len base.
  induction F as [|F IH]; intros [|fuel] l lvl len tree_len base HF Hl Hle Hlv Hr Hb Htl Ht; try lia;
    cbn [CreateInit]; change kNodeSize with 8192; destruct (Z.leb_spec len 8192) as [|Hbig].
  - eexists. split; [done|]. split; [by apply level_inv_new; lia|lia].
  - cbn in Hle. lia.
  - eexists. split; [done|]. split; [by apply level_inv_new; lia|lia].
  - cbn [negb tree_size] in *. revert Htl Ht. ztest. intros Htl Ht.
    rewrite Nat2Z.inj_succ, <- Z.add_1_r in Hle.
    pose proof (NextAligned_bounds len ltac:(lia)) as (_ & ? & _).
    pose proof (NextAligned_shrinks len (Z.of_nat F) ltac:(lia) ltac:(lia) Hle).
    pose proof (tree_size_bounds (S F) (NextAligned len) ltac:(lia)).
    destruct (Z.ltb_spec tree_len (NextAligned len)); [cbn [tree_size] in *; lia|].
    destruct (IH fuel (new_level (level_ l + 1)) (lvl + 1) (NextAligned len) (tree_len - NextAligned len)
      (base + NextAligned len)) as (mt & Hinit & Hc); [lia|lia|lia|cbn; congruence|done|lia|cbn [tree_size] in *; lia..|].
    cbn [level_]. rewrite Hinit. cbn [mbind outcome_bind fst snd]. eexists. split; [done|].
    split; [by apply level_inv_new; lia|]. intros _.
    assert (done_digests lvl len [] = []) as ->.
    { unfold done_digests, done_nodes. change (zlen []) with 0. by ztest. }
    split_and!; [cbn [tree_size] in *; lia| |done]. intros k. change (ceil_nodes (zlen [])) with 0. lia.
Qed.

(** ** The whole creation *)

(** [CreateUpdate] on one piece after the other. *)
Fixpoint update_all (mt : list Level) (pieces : list (list Z)) (tree : list Z)
    : outcome (zx_status * list Level * list Z) :=
  match pieces with
  | [] => Returns (ZX_OK, mt, tree)
  | p :: pieces =>
    r ← CreateUpdate hash true mt (inl p) false tree 0;
    let '(rc, mt, tree) := r in
    if failed rc then Returns (rc, mt, tree) else update_all mt pieces tree
  end.

Lemma update_all_ok mt P pieces len tree :
  chain_inv mt 0 len P 0 tree → 0 ≤ len < UINT32_MAX → zlen P + zlen (concat pieces) ≤ len →
  updated (update_all mt pieces tree) (length mt) 0 len (P ++ concat pieces) 0 tree.
Proof using Hhash.
  revert mt P tree. induction pieces as [|p pieces IH]; intros mt P tree Hc Hl Hle; cbn.
  { rewrite app_nil_r. by exists mt, tree. }
  cbn in Hle. rewrite zlen_app in Hle. pose proof (zlen_nonneg (concat pieces)).
  destruct (create_update_ok (length mt) mt 0 len P 0 tree p) as (mt1 & t1 & E1 & Hc1 & Hn1 & Hl1 & _); [done|done|done|done|lia|].
  unfold CreateUpdate. rewrite E1. cbn [mbind outcome_bind]. rewrite failed_ok.
  destruct (IH mt1 (P ++ p) t1 Hc1 Hl) as (mt2 & t2 & E2 & Hc2 & Hn2 & Hl2 & _); [rewrite zlen_app; lia|].
  exists mt2, t2. rewrite <- app_assoc in Hc2. split_and!; [done..|congruence|congruence|lia].
Qed.

(** A chain over a short tree buffer is refused. *)
Lemma CreateInit_small F fuel l len tree_len :
  (F < fuel)%nat → 0 ≤ len < 2 ^ 63 → len ≤ 8192 * 256 ^ Z.of_nat F → tree_len < tree_size (S F) len → 0 ≤ tree_len →
  ∃ mt, CreateInit true fuel l [] len tree_len = Returns (ZX_ERR_BUFFER_TOO_SMALL, mt).
Proof using.
  revert fuel l len tree_len.
  induction F as [|F IH]; intros [|fuel] l len tree_len HF Hl Hle Hsmall Ht; try lia;
    cbn [CreateInit tree_size] in *; change kNodeSize with 8192; destruct (Z.leb_spec len 8192) as [|Hbig]; try lia.
  - cbn [negb]. destruct (Z.ltb_spec tree_len (NextAligned len)); [by eexists|].
    rewrite Nat2Z.inj_succ, <- Z.add_1_r in Hle.
    pose proof (NextAligned_bounds len ltac:(lia)) as (_ & ? & _).
    pose proof (NextAligned_shrinks len (Z.of_nat F) ltac:(lia) ltac:(lia) Hle).
    edestruct (IH fuel) as (mt & ->); [lia|lia|lia| |lia|]; [cbn [tree_size]; lia|]. by eexists.
Qed.

(** The reference tree with enough levels for any length below 2^63. *)
Definition merkle_tree (data : list Z) : list Z := (merkle hash 9 0 data).1.
Definition merkle_root (data : list Z) : list Z := (merkle hash 9 0 data).2.

Lemma max_levels_enough len : len < 2 ^ 63 → len ≤ 8192 * 256 ^ Z.of_nat 8.
Proof using. change (8192 * 256 ^ Z.of_nat 8) with (2 ^ 77). lia. Qed.

(** Initialisation, any pieces of the data, and the end. *)
Lemma create_pieces pieces tree :
  zlen (concat pieces) < UINT32_MAX → zlen (merkle_tree (concat pieces)) ≤ zlen tree →
  ∃ mt mt1 tree1 mt2 tree2,
    CreateInit true (S kMaxLevels) (new_level 0) [] (zlen (concat pieces)) (zlen tree) = Returns (ZX_OK, mt) ∧
    update_all mt pieces tree = Returns (ZX_OK, mt1, tree1) ∧
    CreateFinal hash true mt1 false tree1 true = Returns (ZX_OK, mt2, tree2, Some (merkle_root (concat pieces))) ∧
    zlen tree2 = zlen tree ∧ has_tree tree2 0 (merkle_tree (concat pieces)).
Proof using Hhash.
  set (data := concat pieces). intros Hl Ht. pose proof (zlen_nonneg data). unfold UINT32_MAX in Hl.
  pose proof (max_levels_enough (zlen data) ltac:(lia)) as Hmax.
  unfold merkle_tree in Ht. rewrite zlen_merkle in Ht by lia.
  destruct (CreateInit_ok 8 (S kMaxLevels) (new_level 0) 0 (zlen data) (zlen tree) 0 tree) as (mt & Hinit & Hc);
    [unfold kMaxLevels; lia|lia|done|done|done|lia|lia|lia|].
  destruct (update_all_ok mt [] pieces (zlen data) tree Hc) as (mt1 & t1 & Hup & Hc1 & Hn1 & Hl1 & _);
    [unfold UINT32_MAX; lia|change (zlen []) with 0; subst data; lia|].
  cbn [app] in Hc1. fold data in Hc1.
  pose proof (create_final_ok (length mt1) 8 mt1 None 0 (zlen data) data 0 t1 ltac:(lia) Hc1 ltac:(done)
    ltac:(unfold UINT32_MAX; lia) ltac:(lia) ltac:(lia) Hmax) as Hfin.
  rewrite Z.sub_diag in Hfin. change (zeros 0) with (@nil Z) in Hfin. rewrite app_nil_r in Hfin.
  unfold merkle_tree, merkle_root. destruct (merkle hash 9 0 data) as [t root].
  destruct Hfin as (mt2 & t2 & Hf & Hl2 & _ & Htree). exists mt, mt1, t1, mt2, t2.
  split_and!; [done|done|done|congruence|done].
Qed.

(** [Create] is the case of one piece. *)
Lemma merkle_Create_ok data tree :
  zlen data < UINT32_MAX → zlen (merkle_tree data) ≤ zlen tree →
  ∃ tree', Create hash true (inl data) false tree = Returns (ZX_OK, tree', Some (merkle_root data)) ∧
    zlen tree' = zlen tree ∧ has_tree tree' 0 (merkle_tree data).
Proof using Hhash.
  intros Hl Ht. destruct (create_pieces [data] tree) as (mt & mt1 & t1 & mt2 & t2 & Hi & Hu & Hf & Hz & Htree);
    cbn [concat]; rewrite ?app_nil_r; [done|done|].
  cbn [concat] in *. rewrite app_nil_r in *.
  exists t2. unfold Create, buffer_len. unfold zlen in Hi. rewrite Hi. cbn [mbind outcome_bind]. rewrite failed_ok.
  cbn [update_all] in Hu. destruct (CreateUpdate _ _ _ _ _ _ _) as [[[rc m] t]| |]; try done.
  cbn [mbind outcome_bind] in Hu |- *. destruct (failed rc) eqn:Hrc; [|injection Hu as -> ->].
  { injection Hu as -> _ _. done. }
  rewrite Hf. done.
Qed.

End creation.

(** ** Theorems *)

(** C33. The streaming creation computes the reference tree.  For every way of
    cutting data of less than UINT32_MAX bytes into pieces and every tree buffer of
    at least the tree's size, [CreateInit], one [CreateUpdate] for each piece and
    [CreateFinal] all succeed; then the buffer starts with the Merkle tree of the
    whole data, has kept its size, and the digest is the Merkle root.  In
    particular the result does not depend on the pieces. *)
Theorem merkle_create_streams (hash : list Z → list Z) (Hhash : ∀ x, length (hash x) = 32%nat)
    (pieces : list (list Z)) (tree : list Z) :
  zlen (concat pieces) < UINT32_MAX → zlen (merkle_tree hash (concat pieces)) ≤ zlen tree →
  ∃ mt mt1 tree1 mt2 tree2,
    CreateInit true (S kMaxLevels) (new_level 0) [] (zlen (concat pieces)) (zlen tree) = Returns (ZX_OK, mt) ∧
    update_all hash mt pieces tree = Returns (ZX_OK, mt1, tree1) ∧
    CreateFinal hash true mt1 false tree1 true = Returns (ZX_OK, mt2, tree2, Some (merkle_root hash (concat pieces))) ∧
    zlen tree2 = zlen tree ∧ has_tree tree2 0 (merkle_tree hash (concat pieces)).
Proof. by apply create_pieces. Qed.

(** A function with digests of the right size. *)
Definition xor_hash (x : list Z) : list Z := replicate 32 (foldr Z.lxor 0 x).

Lemma xor_hash_length x : length (xor_hash x) = 32%nat.
Proof. apply length_replicate. Qed.

Lemma merkle_create_streams_witness :
  ∃ mt mt1 tree1 mt2 tree2,
    CreateInit true (S kMaxLevels) (new_level 0) [] 8193 8192 = Returns (ZX_OK, mt) ∧
    update_all xor_hash mt [zeros 8190; [1; 2; 3]] (zeros 8192) = Returns (ZX_OK, mt1, tree1) ∧
    CreateFinal xor_hash true mt1 false tree1 true =
      Returns (ZX_OK, mt2, tree2, Some (merkle_root xor_hash (zeros 8190 ++ [1; 2; 3]))) ∧
    zlen tree2 = 8192 ∧ has_tree tree2 0 (merkle_tree xor_hash (zeros 8190 ++ [1; 2; 3])).
Proof.
  pose proof (merkle_create_streams xor_hash xor_hash_length [zeros 8190; [1; 2; 3]] (zeros 8192)) as H.
  assert (concat [zeros 8190; [1; 2; 3]] = zeros 8190 ++ [1; 2; 3]) as E by (cbn [concat]; apply (f_equal (app (zeros 8190))); apply app_nil_r).
  assert (zlen (zeros 8190 ++ [1; 2; 3]) = 8193) as El by (rewrite zlen_app, zlen_zeros; [reflexivity|lia]).
  rewrite E, El, zlen_zeros in H by lia. apply H; [reflexivity|].
  unfold merkle_tree. rewrite (zlen_merkle xor_hash xor_hash_length), El by (rewrite El; lia).
  vm_compute. discriminate.
Defined.

(** [GetTreeLength] is exact.  For data of less than UINT32_MAX bytes it returns, and
    returns the size of the reference tree; a [Create] into a smaller buffer is
    refused with [ZX_ERR_BUFFER_TOO_SMALL] before anything is written, and one into
    a buffer of this size or more succeeds. *)
Theorem merkle_tree_length_exact (hash : list Z → list Z) (Hhash : ∀ x, length (hash x) = 32%nat) (data : list Z) :
  zlen data < UINT32_MAX →
  ∃ size, GetTreeLength (zlen data) = Returns size ∧ size = zlen (merkle_tree hash data) ∧
    ∀ tree, (zlen tree < size →
               Create hash true (inl data) false tree = Returns (ZX_ERR_BUFFER_TOO_SMALL, tree, None)) ∧
            (size ≤ zlen tree → ∃ tree', Create hash true (inl data) false tree =
               Returns (ZX_OK, tree', Some (merkle_root hash data))).
Proof.
  intros Hl. pose proof (zlen_nonneg data). unfold UINT32_MAX in Hl.
  pose proof (max_levels_enough (zlen data) ltac:(lia)) as Hmax.
  eexists. split; [apply (GetTreeLength_size 8); [unfold kMaxLevels; lia|lia|done]|].
  unfold merkle_tree at 1. rewrite zlen_merkle by (done || lia). split; [done|]. intros tree. split; intros Ht.
  - unfold Create, buffer_len. destruct (CreateInit_small 8 (S kMaxLevels) (new_level 0) (zlen data) (zlen tree))
      as [mt E]; [unfold kMaxLevels; lia|lia|done|done|apply zlen_nonneg|].
    unfold zlen in E. rewrite E. done.
  - destruct (merkle_Create_ok hash Hhash data tree) as (tree' & -> & _); [done| |by eexists].
    unfold merkle_tree. rewrite zlen_merkle by (done || lia). done.
Qed.

Lemma merkle_tree_length_exact_witness :
  ∃ size, GetTreeLength 3 = Returns size ∧ size = zlen (merkle_tree xor_hash [1; 2; 3]) ∧
    ∀ tree, (zlen tree < size →
               Create xor_hash true (inl [1; 2; 3]) false tree = Returns (ZX_ERR_BUFFER_TOO_SMALL, tree, None)) ∧
            (size ≤ zlen tree → ∃ tree', Create xor_hash true (inl [1; 2; 3]) false tree =
               Returns (ZX_OK, tree', Some (merkle_root xor_hash [1; 2; 3]))).
Proof. apply (merkle_tree_length_exact xor_hash xor_hash_length [1; 2; 3]). reflexivity. Defined.
