(* ===== verification/MerkleVerify.v ===== *)
(** * Verification against a Merkle tree

    What [MerkleTree::Verify] accepts, level by level; from it, that a created tree
    verifies, that an accepted range is the range of the data the root was made of
    when the checked nodes cover each other, and that this last condition fails for
    whole blobs of some sizes. *)

From S2P Require Import Prelude RawBitmap Digest MerkleTree MerkleCreate.

Lemma slice_slice l off len o n : 0 ≤ off → 0 ≤ o ≤ len →
  slice (slice l off len) o n = slice l (off + o) (Z.min n (len - o)).
Proof.
  intros. unfold slice. rewrite skipn_firstn_comm, take_take, drop_drop. do 2 f_equal; lia.
Qed.

Lemma slice_all l : slice l 0 (zlen l) = l.
Proof. unfold slice, zlen. rewrite Nat2Z.id, firstn_all. done. Qed.

Section verification.
Context (hash : list Z → list Z).
Hypothesis (Hhash : ∀ x, length (hash x) = 32%nat).

Opaque slice zeros.

(** ** One level *)

(** Node [i] of level [L] against the digests [T]. *)
Definition node_ok (lvl : Z) (L T : list Z) (i : Z) : Prop :=
  node_hash hash lvl (zlen L) (8192 * i) (slice L (8192 * i) 8192) = slice T (32 * i) 32.

#[global] Instance node_ok_dec lvl L T i : Decision (node_ok lvl L T i).
Proof using. unfold node_ok. apply _. Defined.

(** The call returns, and accepts exactly when [P] holds. *)
Definition integrity (r : outcome zx_status) (P : Prop) : Prop :=
  ∃ rc, r = Returns rc ∧ (rc = ZX_OK ∨ rc = ZX_ERR_IO_DATA_INTEGRITY) ∧ (rc = ZX_OK ↔ P).

Lemma integrity_iff r P Q : integrity r P → (P ↔ Q) → integrity r Q.
Proof using. intros (rc & ? & ? & ?) ?. exists rc. tauto. Qed.

Lemma verify_node data dbase len tree expected i length lvl :
  0 ≤ dbase → dbase + len ≤ zlen data → 0 ≤ len < UINT32_MAX → 0 ≤ i → 8192 * i < len →
  0 < length → (length < 8192 → 8192 * i + length = len) → 8192 * i + length ≤ len →
  0 ≤ expected → expected + 32 * i + 32 ≤ zlen tree →
  let chunk := Z.min length 8192 in
  ∀ fuel, verify_loop hash true (S fuel) data dbase len tree (expected + 32 * i) (8192 * i) length lvl =
    if bool_decide (node_ok lvl (slice data dbase len) (slice tree expected (zlen tree - expected)) i)
    then verify_loop hash true fuel data dbase len tree (expected + 32 * i + 32) (8192 * i + chunk) (length - chunk) lvl
    else Returns ZX_ERR_IO_DATA_INTEGRITY.
Proof using.
  intros Hb Hd Hl Hi Hil Hlen Hlast Hend He Ht chunk fuel. cbn [verify_loop]. unfold UINT32_MAX in Hl.
  assert (Hchunk : chunk = Z.min length 8192) by reflexivity.
  assert (Hmod : (8192 * i) mod 8192 = 0) by (rewrite Z.mul_comm; apply Z.mod_mul; lia).
  ztest. unwrap. rewrite DigestInit_ok by (done || (unfold UINT32_MAX; lia)).
  cbn [mbind outcome_bind]. rewrite failed_ok. unfold kNodeSize at 1 2. rewrite Hmod, Z.sub_0_r.
  fold chunk. change kLength with 32. rewrite !read_bytes_ok by lia. cbn [mbind outcome_bind].
  pose proof (zlen_slice data (dbase + 8192 * i) chunk ltac:(lia) ltac:(lia) ltac:(lia)) as Hz.
  match goal with |- context [DigestUpdate ?d _ _ _] =>
    rewrite (DigestUpdate_ok d _ _ _ length eq_refl eq_refl) by (rewrite ?Hz, ?Hmod; lia) end.
  cbn [mbind outcome_bind]. rewrite Hmod, Z.sub_0_r. fold chunk. unwrap.
  match goal with |- context [DigestFinal _ ?d _] =>
    destruct (DigestFinal_ok hash d _ (8192 * i + chunk) eq_refl eq_refl) as [c Hc] end.
  rewrite Hc. cbn [mbind outcome_bind]. unfold digest_eq_bytes. cbn [bytes_].
  rewrite take_ge by (pose proof (zlen_slice tree (expected + 32 * i) 32); unfold zlen in *; lia).
  match goal with |- context [negb (bool_decide ?Q)] => erewrite (bool_decide_ext (node_ok _ _ _ _) Q) end.
  { by destruct (bool_decide _). }
  unfold node_ok, node_hash, node_header. rewrite (zlen_slice data dbase len), !slice_slice by lia.
  rewrite Z.add_0_r, Z.sub_0_r, Z.min_id.
  replace (Z.min 8192 (len - 8192 * i)) with chunk by lia. replace (Z.min 32 _) with 32 by lia. rewrite Hz.
  replace (node_pad (8192 * i + chunk)) with (node_pad chunk)
    by (unfold node_pad; rewrite (Z.mul_comm 8192 i), (Z.add_comm _ chunk), Z.mod_add by lia; reflexivity).
  by rewrite <- !app_assoc.
Qed.

Lemma verify_loop_ok (n : nat) data dbase len tree expected i length lvl fuel :
  (n < fuel)%nat → 0 ≤ dbase → dbase + len ≤ zlen data → 0 ≤ len < UINT32_MAX → 0 ≤ i → 0 ≤ expected →
  expected + 32 * (i + Z.of_nat n) ≤ zlen tree →
  length = Z.min (8192 * (i + Z.of_nat n)) len - 8192 * i → (n ≠ 0%nat → 8192 * (i + Z.of_nat n - 1) < len) →
  8192 * i ≤ len →
  integrity (verify_loop hash true fuel data dbase len tree (expected + 32 * i) (8192 * i) length lvl)
    (∀ j, i ≤ j < i + Z.of_nat n → node_ok lvl (slice data dbase len) (slice tree expected (zlen tree - expected)) j).
Proof using.
  revert i length fuel. induction n as [|n IH]; intros i length [|fuel] Hf Hb Hd Hl Hi He Ht Hlen Hn Hle; try lia.
  { cbn [verify_loop]. ztest. exists ZX_OK. split_and!; [done|by left|]. split; [intros _ j ?; lia|done]. }
  rewrite verify_node by lia. case_bool_decide as Hok.
  - destruct (decide (n = 0%nat)) as [->|Hn0].
    + destruct fuel as [|fuel]; [lia|]. cbn [verify_loop]. ztest. exists ZX_OK. split_and!; [done|by left|].
      split; [|done]. intros _ j ?. by replace j with i by lia.
    + replace (Z.min length 8192) with 8192 by lia. replace (8192 * i + 8192) with (8192 * (i + 1)) by lia.
      replace (expected + 32 * i + 32) with (expected + 32 * (i + 1)) by lia.
      apply (integrity_iff _ _ _ (IH (i + 1) (length - 8192) fuel ltac:(lia) ltac:(lia) ltac:(lia) ltac:(lia) ltac:(lia)
        ltac:(lia) ltac:(lia) ltac:(lia) ltac:(lia) ltac:(lia))).
      split; intros H j Hj; [|apply H; lia]. destruct (decide (j = i)) as [->|]; [done|]. apply H. lia.
  - eexists. split_and!; [done|by right|]. split; [done|]. intros H. destruct Hok. apply H. lia.
Qed.

(** The nodes that a range makes [VerifyLevel] check. *)
Definition first_node (offset : Z) : Z := offset / 8192.
Definition end_node (offset length : Z) : Z := ceil_nodes (8192 * (offset / 8192) + length).

Definition level_ok (lvl : Z) (L T : list Z) (offset length : Z) : Prop :=
  ∀ j, first_node offset ≤ j < end_node offset length → node_ok lvl L T j.

Lemma VerifyLevel_ok data dbase len tree tbase offset length lvl :
  0 ≤ dbase → dbase + len ≤ zlen data → 8192 < len < UINT32_MAX → 0 ≤ tbase →
  tbase + NextAligned len ≤ zlen tree → 0 ≤ offset → 0 ≤ length → offset + length ≤ len →
  integrity (VerifyLevel hash true (Some data) dbase len (Some tree) tbase offset length lvl)
    (level_ok lvl (slice data dbase len) (slice tree tbase (zlen tree - tbase)) offset length).
Proof using.
  intros Hb Hd Hl Htb Ht Ho Hn Hle. unfold UINT32_MAX in Hl.
  pose proof (NextAligned_bounds len ltac:(lia)) as ([Hna _] & _).
  unfold VerifyLevel, ZX_DEBUG_ASSERT, kNodeSize. unwrap. ztest. cbn [mbind outcome_bind].
  replace (offset - offset mod 8192) with (8192 * (offset / 8192)) by zlia.
  set (i := offset / 8192). assert (Hi : 0 ≤ i) by (subst i; zlia).
  assert (Hio : 8192 * i ≤ offset) by (subst i; zlia).
  unwrap. rewrite round_up_small by lia.
  replace ((8192 * i + length + 8192 - 1) / 8192 * 8192) with (8192 * ceil_nodes (8192 * i + length))
    by (unfold ceil_nodes; replace (8192 * i + length + 8192 - 1) with (8192 * i + length + 8191) by lia; lia).
  change kDigestsPerNode with 256.
  replace (8192 * i / 256) with (32 * i) by (replace (8192 * i) with (32 * i * 256) by lia; by rewrite Z.div_mul by lia).
  set (b := ceil_nodes (8192 * i + length)).
  assert (Hb' : i ≤ b ≤ ceil_nodes len ∧ 8192 * (b - 1) < 8192 * i + length) by (subst b; unfold ceil_nodes; zlia).
  destruct Hb' as [Hb' Hb'']. unwrap.
  eapply integrity_iff; [apply (verify_loop_ok (Z.to_nat (b - i)))|].
  all: try lia; try (unfold UINT32_MAX; lia). { zlia. }
  unfold level_ok, first_node, end_node. fold i. fold b. split; intros H j Hj; apply H; lia.
Qed.

Lemma VerifyRoot_ok data dbase len root_len lvl root :
  0 ≤ dbase → dbase + len ≤ zlen data → 0 ≤ root_len ≤ len → len ≤ 8192 → 0 ≤ lvl →
  (lvl = 0 → root_len = len) → (0 < lvl → len = 8192) → zlen root = 32 →
  integrity (VerifyRoot hash true (Some data) dbase root_len lvl root)
    (node_hash hash lvl len 0 (slice (slice data dbase len) 0 root_len) = root).
Proof using.
  intros Hb Hd Hr Hl Hlv H0 H1 Hroot. unfold VerifyRoot, kNodeSize. ztest. cbn [andb orb].
  assert (0 ≤ (if lvl =? 0 then root_len else 8192) < UINT32_MAX) by (unfold UINT32_MAX; zcases; lia).
  rewrite DigestInit_ok by done. cbn [mbind outcome_bind]. rewrite failed_ok, read_bytes_ok by lia.
  cbn [mbind outcome_bind].
  pose proof (zlen_slice data dbase root_len ltac:(lia) ltac:(lia) ltac:(lia)) as Hz.
  match goal with |- context [DigestUpdate ?d _ _ _] =>
    rewrite (DigestUpdate_ok d _ _ _ root_len eq_refl eq_refl) by (rewrite ?Hz; lia) end.
  cbn [mbind outcome_bind snd].
  match goal with |- context [DigestFinal _ ?d _] =>
    destruct (DigestFinal_ok hash d _ root_len eq_refl eq_refl) as [c Hc] end.
  rewrite Hc. cbn [mbind outcome_bind]. eexists. split; [done|]. unfold digest_eq, digest_of. cbn [bytes_].
  rewrite (take_ge root) by (unfold zlen in Hroot; lia).
  split; [case_bool_decide; auto|]. unfold node_hash, node_header. rewrite !slice_slice by lia.
  change (0 mod 8192) with 0. rewrite !Z.sub_0_r, Z.add_0_r.
  replace (Z.min (Z.min root_len 8192) root_len) with root_len by lia.
  replace (Z.min root_len len) with root_len by lia. rewrite Hz.
  replace (Z.min (if lvl =? 0 then root_len else 8192) 8192) with (Z.min len 8192) by (zcases; lia).
  rewrite <- !app_assoc. case_bool_decide; done.
Qed.

(** ** All levels *)

(** What a run of [Verify] accepts: level [L] of which the first [root_len] bytes
    count at the top, below the tree bytes [T]. *)
Fixpoint accepts (F : nat) (lvl : Z) (L : list Z) (root_len : Z) (T : list Z) (offset length : Z)
    (root : list Z) : Prop :=
  match F with
  | O => False
  | S F =>
    if zlen L <=? 8192 then node_hash hash lvl (zlen L) 0 (slice L 0 root_len) = root
    else
      let above := NextAligned (zlen L) in
      level_ok lvl L T offset length ∧
      accepts F (lvl + 1) (slice T 0 above) (NextLength (zlen L)) (slice T above (zlen T - above))
        (offset / 256) (length / 256) root
  end.

Definition root_level (lvl len root_len : Z) : Prop :=
  (lvl = 0 ∧ root_len = len) ∨ (0 < lvl ∧ 8192 ≤ len ∧ 0 ≤ root_len ≤ len).

Lemma root_level_next lvl len : 0 ≤ lvl → 8192 < len < 2 ^ 63 →
  root_level (lvl + 1) (NextAligned len) (NextLength len).
Proof using.
  intros. pose proof (NextAligned_bounds len ltac:(lia)) as (? & ? & _). rewrite NextLength_spec by lia.
  right. unfold ceil_nodes in *. zlia.
Qed.

(** The range at the level above stays in range. *)
Lemma range_next len offset length :
  8192 < len < 2 ^ 63 → 0 ≤ offset → 0 ≤ length → offset + length ≤ len →
  0 ≤ offset / 256 ∧ 0 ≤ length / 256 ∧ offset / 256 + length / 256 ≤ NextAligned len.
Proof using.
  intros. pose proof (NextAligned_bounds len ltac:(lia)) as ([? _] & _). unfold ceil_nodes in *. zlia.
Qed.

Lemma tree_size_S F len : 8192 < len → tree_size (S F) len = NextAligned len + tree_size F (NextAligned len).
Proof using. intros. cbn [tree_size]. by ztest. Qed.

Lemma verify_levels_ok F fuel data dbase len root_len tree tbase offset length lvl root :
  (F < fuel)%nat → len ≤ 8192 * 256 ^ Z.of_nat F → 0 ≤ len < UINT32_MAX → 0 ≤ dbase → dbase + len ≤ zlen data →
  0 ≤ tbase → tbase + tree_size (S F) len ≤ zlen tree → 0 ≤ offset → 0 ≤ length → offset + length ≤ len →
  0 ≤ lvl → root_level lvl len root_len → zlen root = 32 →
  integrity (verify_levels hash true fuel (Some data) dbase len root_len (Some tree) tbase (zlen tree - tbase)
               offset length lvl root)
    (accepts (S F) lvl (slice data dbase len) root_len (slice tree tbase (zlen tree - tbase)) offset length root).
Proof using.
  revert fuel data dbase len root_len tbase offset length lvl.
  induction F as [|F IH]; intros [|fuel] data dbase len root_len tbase offset length lvl
    HF Hle Hl Hb Hd Htb Ht Ho Hn Hon Hlv Hrl Hroot; try lia;
    cbn [verify_levels accepts]; unfold kNodeSize; rewrite zlen_slice by lia;
    destruct (Z.leb_spec len 8192) as [Hs|Hs]; ztest; try (cbn in Hle; lia);
    try (apply VerifyRoot_ok; unfold root_level in Hrl; lia).
  pose proof Hl as Hl'. unfold UINT32_MAX in Hl'. rewrite Nat2Z.inj_succ, <- Z.add_1_r in Hle.
  pose proof (NextAligned_bounds len ltac:(lia)) as (_ & ? & _).
  pose proof (NextAligned_shrinks len (Z.of_nat F) ltac:(lia) ltac:(lia) Hle).
  pose proof (tree_size_bounds (S F) (NextAligned len) ltac:(lia)) as [? _]. rewrite tree_size_S in Ht by lia.
  pose proof (range_next len offset length ltac:(lia) Ho Hn Hon) as (? & ? & ?).
  destruct (VerifyLevel_ok data dbase len tree tbase offset length lvl) as (rc & -> & Hrc & Hiff); [lia..|].
  cbn [mbind outcome_bind]. destruct Hrc as [-> | ->].
  2:{ exists ZX_ERR_IO_DATA_INTEGRITY. split_and!; [done|by right|].
      split; [done|]. intros [Hlev _]. by apply Hiff in Hlev. }
  rewrite failed_ok. ztest. change kDigestsPerNode with 256.
  replace (zlen tree - tbase - NextAligned len) with (zlen tree - (tbase + NextAligned len)) by lia.
  eapply integrity_iff; [apply (IH fuel tree); try lia; apply root_level_next; lia|].
  rewrite (zlen_slice tree tbase (zlen tree - tbase)) by lia. rewrite (slice_slice tree tbase _ 0) by lia.
  rewrite (slice_slice tree tbase _ (NextAligned len)) by lia. rewrite Z.add_0_r, !Z.min_l by lia.
  replace (zlen tree - tbase - NextAligned len) with (zlen tree - (tbase + NextAligned len)) by lia. tauto.
Qed.

Lemma Verify_ok data tree offset length root :
  zlen data < UINT32_MAX → tree_size 9 (zlen data) ≤ zlen tree → 0 ≤ offset → 0 ≤ length →
  offset + length ≤ zlen data → zlen root = 32 →
  integrity (Verify hash true (Some data) (zlen data) (Some tree) (zlen tree) offset length root)
    (accepts 9 0 data (zlen data) tree offset length root).
Proof using.
  intros Hl Ht Ho Hn Hon Hroot. pose proof (zlen_nonneg data). unfold UINT32_MAX in Hl.
  eapply integrity_iff; [unfold Verify; replace (zlen tree) with (zlen tree - 0) at 1 by lia; apply (verify_levels_ok 8)|].
  all: try lia; try done. { unfold kMaxLevels. lia. } { left. lia. }
  by rewrite Z.sub_0_r, !slice_all.
Qed.

(** The bytes that are hashed for a node. *)
Definition node_input (lvl len off : Z) (bytes : list Z) : list Z :=
  node_header lvl len off ++ bytes ++ node_pad (zlen bytes).

(** ** A genuine tree *)

Lemma node_digests_slice lvl len data n j : 0 ≤ j < n →
  slice (node_digests hash lvl len data n) (32 * j) 32 = node_hash hash lvl len (8192 * j) (slice data (8192 * j) 8192).
Proof using Hhash.
  intros Hj. replace n with (j + 1 + (n - j - 1)) by lia. unfold node_digests.
  rewrite seqZ_app, map_app, concat_app by lia. fold (node_digests hash lvl len data (j + 1)).
  rewrite slice_app_l by (rewrite ?(zlen_node_digests hash Hhash); lia). rewrite node_digests_S by lia.
  apply byte_ext.
  - rewrite zlen_slice; rewrite ?zlen_app, ?(zlen_node_digests hash Hhash), ?(zlen_node_hash hash Hhash); lia.
  - intros k. rewrite zlen_slice by (rewrite ?zlen_app, ?(zlen_node_digests hash Hhash), ?(zlen_node_hash hash Hhash); lia).
    intros Hk. rewrite byte_at_slice, byte_at_app, (zlen_node_digests hash Hhash) by lia. ztest.
    by replace (32 * j + k - 32 * j) with k by lia.
Qed.

Lemma next_level_digest lvl D j : 0 ≤ j < ceil_nodes (zlen D) →
  slice (next_level hash lvl D) (32 * j) 32 = node_hash hash lvl (zlen D) (8192 * j) (slice D (8192 * j) 8192).
Proof using Hhash.
  intros Hj. unfold next_level, pad_to_node.
  rewrite slice_app_l by (rewrite ?(zlen_node_digests hash Hhash); lia). by apply node_digests_slice.
Qed.

(** The padding of the top node may be left to [DigestFinal]. *)
Lemma next_level_root lvl lvl' D : 8192 < zlen D < 2 ^ 63 → zlen (next_level hash lvl D) ≤ 8192 →
  node_input lvl' (zlen (next_level hash lvl D)) 0 (slice (next_level hash lvl D) 0 (NextLength (zlen D))) =
  node_input lvl' (zlen (next_level hash lvl D)) 0 (next_level hash lvl D).
Proof using Hhash.
  intros Hd Hs. set (L := next_level hash lvl D) in *. assert (HL : zlen L = NextAligned (zlen D)).
  { by apply zlen_next_level. }
  pose proof (NextAligned_bounds (zlen D) Hd) as (Hn & ? & _). unfold node_input.
  rewrite NextLength_spec by done. set (n := ceil_nodes (zlen D)) in *. assert (zlen L = 8192) as HL' by lia.
  assert (0 < n) by (subst n; unfold ceil_nodes; zlia).
  rewrite zlen_slice, HL' by lia. change (node_pad 8192) with (@nil Z). rewrite app_nil_r.
  assert (slice L 0 (32 * n) ++ node_pad (32 * n) = L) as ->; [|done].
  unfold L, next_level, pad_to_node. fold n. set (ds := node_digests hash lvl (zlen D) D n).
  assert (Hds : zlen ds = 32 * n) by (apply zlen_node_digests; [done|lia]). rewrite Hds.
  rewrite slice_app_l by lia. rewrite <- Hds at 1. rewrite slice_all. apply (f_equal (app ds)).
  unfold node_pad, ceil_nodes. apply (f_equal zeros). zcases; zlia.
Qed.

Lemma level_ok_genuine lvl D T offset length :
  8192 < zlen D < 2 ^ 63 → slice T 0 (NextAligned (zlen D)) = next_level hash lvl D →
  0 ≤ offset → 0 ≤ length → offset + length ≤ zlen D → level_ok lvl D T offset length.
Proof using Hhash.
  intros Hd HT Ho Hn Hon j Hj. unfold first_node, end_node in Hj.
  assert (0 ≤ j < ceil_nodes (zlen D)) by (unfold ceil_nodes in *; zlia).
  pose proof (NextAligned_bounds (zlen D) Hd) as ([? _] & _).
  unfold node_ok. rewrite <- next_level_digest, <- HT, slice_slice by (done || lia).
  by rewrite Z.add_0_l, Z.min_l by lia.
Qed.

Lemma accepts_S F lvl L root_len T offset length root : 8192 < zlen L →
  accepts (S F) lvl L root_len T offset length root =
  (level_ok lvl L T offset length ∧
   accepts F (lvl + 1) (slice T 0 (NextAligned (zlen L))) (NextLength (zlen L))
     (slice T (NextAligned (zlen L)) (zlen T - NextAligned (zlen L))) (offset / 256) (length / 256) root).
Proof using. intros. cbn [accepts]. by ztest. Qed.

Lemma merkle_S F lvl D : 8192 < zlen D →
  merkle hash (S F) lvl D =
  (next_level hash lvl D ++ (merkle hash F (lvl + 1) (next_level hash lvl D)).1,
   (merkle hash F (lvl + 1) (next_level hash lvl D)).2).
Proof using. intros. cbn [merkle]. ztest. by destruct (merkle _ _ _ _). Qed.

Lemma accepts_small F lvl L root_len T offset length root : zlen L ≤ 8192 →
  accepts (S F) lvl L root_len T offset length root =
  (node_hash hash lvl (zlen L) 0 (slice L 0 root_len) = root).
Proof using. intros. cbn [accepts]. by ztest. Qed.

Lemma merkle_small F lvl D : zlen D ≤ 8192 → merkle hash (S F) lvl D = ([], node_hash hash lvl (zlen D) 0 D).
Proof using. intros. cbn [merkle]. by ztest. Qed.

(** The parts of a list that starts with [L ++ t]. *)
Lemma slice_parts T L t n m :
  zlen L = n → 0 ≤ m → n + m ≤ zlen T → slice T 0 (n + m) = L ++ t →
  slice T 0 n = L ∧ slice (slice T n (zlen T - n)) 0 m = t.
Proof using.
  intros Hz Hm HT H. pose proof (zlen_nonneg L). pose proof (f_equal zlen H) as Ht. rewrite zlen_app, zlen_slice in Ht by lia.
  assert (Hb : ∀ k, 0 ≤ k < n + m → byte_at T k = byte_at (L ++ t) k).
  { intros k Hk. rewrite <- H, byte_at_slice by lia. done. }
  split; apply byte_ext.
  - rewrite zlen_slice; lia.
  - rewrite zlen_slice by lia. intros k Hk. rewrite byte_at_slice, Z.add_0_l, Hb, byte_at_app by lia. by ztest.
  - rewrite !zlen_slice; rewrite ?zlen_slice; lia.
  - rewrite zlen_slice by (rewrite ?zlen_slice; lia). intros k Hk.
    rewrite !byte_at_slice, Hb, byte_at_app by lia. ztest. f_equal. lia.
Qed.

Lemma accepts_genuine F lvl D root_len T offset length :
  zlen D ≤ 8192 * 256 ^ Z.of_nat F → zlen D < 2 ^ 63 →
  slice T 0 (tree_size (S F) (zlen D)) = (merkle hash (S F) lvl D).1 → tree_size (S F) (zlen D) ≤ zlen T →
  0 ≤ offset → 0 ≤ length → offset + length ≤ zlen D →
  (zlen D ≤ 8192 → node_input lvl (zlen D) 0 (slice D 0 root_len) = node_input lvl (zlen D) 0 D) →
  accepts (S F) lvl D root_len T offset length (merkle hash (S F) lvl D).2.
Proof using Hhash.
  revert lvl D root_len T offset length.
  induction F as [|F IH]; intros lvl D root_len T offset length Hle Hl HT HTl Ho Hn Hon Hr;
    (destruct (Z.le_gt_cases (zlen D) 8192) as [Hs|Hs]; [rewrite accepts_small, merkle_small by lia; apply (f_equal hash); auto|]);
    [cbn in Hle; lia|].
  rewrite Nat2Z.inj_succ, <- Z.add_1_r in Hle. pose proof (NextAligned_bounds (zlen D) ltac:(lia)) as (_ & ? & _).
  pose proof (NextAligned_shrinks (zlen D) (Z.of_nat F) ltac:(lia) ltac:(lia) Hle).
  pose proof (range_next (zlen D) offset length ltac:(lia) Ho Hn Hon) as (? & ? & ?).
  pose proof (tree_size_bounds (S F) (NextAligned (zlen D)) ltac:(lia)) as [Hts _].
  pose proof (zlen_next_level hash Hhash lvl D ltac:(lia)) as Hz.
  rewrite tree_size_S in HT, HTl by lia. rewrite merkle_S in HT |- * by lia. cbn [fst snd] in *.
  destruct (slice_parts _ _ _ _ _ Hz Hts HTl HT) as [HL Ht]. rewrite accepts_S by lia.
  split; [apply level_ok_genuine; (done || lia)|]. rewrite HL. rewrite <- Hz in *. apply IH; try (done || lia).
  - rewrite zlen_slice; lia.
  - apply next_level_root. lia.
Qed.

(** ** What acceptance says *)

(** At every node a run of [Verify] hashes, the function tells it from the node of
    the tree over [D] in its place. *)
Fixpoint no_collision (F : nat) (lvl : Z) (L : list Z) (root_len : Z) (T : list Z) (offset length : Z)
    (D : list Z) : Prop :=
  match F with
  | O => True
  | S F =>
    if zlen L <=? 8192 then
      let x := node_input lvl (zlen L) 0 (slice L 0 root_len) in
      let y := node_input lvl (zlen D) 0 D in hash x = hash y → x = y
    else
      let above := NextAligned (zlen L) in
      (∀ j, first_node offset ≤ j < end_node offset length →
         let x := node_input lvl (zlen L) (8192 * j) (slice L (8192 * j) 8192) in
         let y := node_input lvl (zlen D) (8192 * j) (slice D (8192 * j) 8192) in hash x = hash y → x = y) ∧
      no_collision F (lvl + 1) (slice T 0 above) (NextLength (zlen L)) (slice T above (zlen T - above))
        (offset / 256) (length / 256) (next_level hash lvl D)
  end.

Lemma no_collision_S F lvl L root_len T offset length D : 8192 < zlen L →
  no_collision (S F) lvl L root_len T offset length D =
  ((∀ j, first_node offset ≤ j < end_node offset length →
     let x := node_input lvl (zlen L) (8192 * j) (slice L (8192 * j) 8192) in
     let y := node_input lvl (zlen D) (8192 * j) (slice D (8192 * j) 8192) in hash x = hash y → x = y) ∧
  no_collision F (lvl + 1) (slice T 0 (NextAligned (zlen L))) (NextLength (zlen L))
    (slice T (NextAligned (zlen L)) (zlen T - NextAligned (zlen L)))
    (offset / 256) (length / 256) (next_level hash lvl D)).
Proof using. intros Hl. cbn [no_collision]. by ztest. Qed.

(** A genuine tree over [D] does not collide, under data that agrees with [D] on the
    checked nodes. *)
Lemma no_collision_genuine F lvl L D root_len T offset length :
  zlen D ≤ 8192 * 256 ^ Z.of_nat F → zlen D < 2 ^ 63 → zlen L = zlen D →
  slice T 0 (tree_size (S F) (zlen D)) = (merkle hash (S F) lvl D).1 → tree_size (S F) (zlen D) ≤ zlen T →
  (zlen D ≤ 8192 → node_input lvl (zlen D) 0 (slice L 0 root_len) = node_input lvl (zlen D) 0 D) →
  (∀ j, first_node offset ≤ j < end_node offset length → slice L (8192 * j) 8192 = slice D (8192 * j) 8192) →
  no_collision (S F) lvl L root_len T offset length D.
Proof using Hhash.
  revert lvl L D root_len T offset length.
  induction F as [|F IH]; intros lvl L D root_len T offset length Hle Hl Hz HT HTl Hr Hag;
    (destruct (Z.le_gt_cases (zlen D) 8192) as [Hs|Hs];
      [cbn [no_collision]; rewrite Hz; ztest; intros; auto|]); [cbn in Hle; lia|].
  rewrite Nat2Z.inj_succ, <- Z.add_1_r in Hle. pose proof (NextAligned_bounds (zlen D) ltac:(lia)) as (_ & ? & _).
  pose proof (NextAligned_shrinks (zlen D) (Z.of_nat F) ltac:(lia) ltac:(lia) Hle).
  pose proof (tree_size_bounds (S F) (NextAligned (zlen D)) ltac:(lia)) as [Hts _].
  pose proof (zlen_next_level hash Hhash lvl D ltac:(lia)) as Hn.
  rewrite tree_size_S in HT, HTl by lia. rewrite merkle_S in HT by lia. cbn [fst] in HT.
  destruct (slice_parts _ _ _ _ _ Hn Hts HTl HT) as [HL Ht]. rewrite no_collision_S, Hz by lia.
  split; [intros j Hj x y _; subst x y; by rewrite Hag|].
  rewrite HL. rewrite <- Hn in *. apply IH; try (done || lia).
  - rewrite zlen_slice; lia.
  - apply next_level_root. lia.
Qed.

(** The digests of the nodes checked at a level lie in nodes checked at the next. *)
Fixpoint covered (F : nat) (len offset length : Z) : bool :=
  match F with
  | O => true
  | S F =>
    if len <=? 8192 then true
    else
      let above := NextAligned len in
      (above <=? 8192) ||
      (end_node offset length <=? 256 * end_node (offset / 256) (length / 256)) &&
      covered F above (offset / 256) (length / 256)
  end.

(** The bytes that a run checks at its lowest level. *)
Definition checked (len root_len offset length k : Z) : Prop :=
  if len <=? 8192 then 0 ≤ k < root_len
  else 8192 * first_node offset ≤ k < Z.min (8192 * end_node offset length) len.

Lemma node_input_inj lvl len off b b' k :
  node_input lvl len off b = node_input lvl len off b' → 0 ≤ k < zlen b → k < zlen b' → byte_at b k = byte_at b' k.
Proof using.
  intros H Hk Hk'. apply app_inv_head in H. pose proof (f_equal (λ l, byte_at l k) H) as E. cbn in E.
  rewrite !byte_at_app in E by lia. revert E. by ztest.
Qed.

(** The digests of the checked nodes are among the bytes checked above. *)
Lemma covered_digest F len offset length j m :
  8192 < len < 2 ^ 63 → 0 ≤ offset → 0 ≤ length → offset + length ≤ len → covered (S F) len offset length = true →
  first_node offset ≤ j < end_node offset length → 0 ≤ m < 32 →
  checked (NextAligned len) (NextLength len) (offset / 256) (length / 256) (32 * j + m).
Proof using.
  intros Hl Ho Hn Hon Hc Hj Hm. pose proof (NextAligned_bounds len Hl) as ([? _] & _).
  assert (0 ≤ j < ceil_nodes len) by (unfold first_node, end_node, ceil_nodes in *; zlia).
  cbn [covered] in Hc. revert Hc. ztest. cbn [orb]. unfold checked. rewrite NextLength_spec by done.
  destruct (Z.leb_spec (NextAligned len) 8192); [lia|].
  intros [Hc%Z.leb_le _]%andb_prop. unfold first_node in *. split; [zlia|lia].
Qed.

Lemma covered_next F len offset length :
  8192 < len → covered (S (S F)) len offset length = true →
  covered (S F) (NextAligned len) (offset / 256) (length / 256) = true.
Proof using.
  intros Hl H. remember (S F) as F' eqn:HF. cbn [covered] in H. revert H. ztest.
  destruct (Z.leb_spec (NextAligned len) 8192); [|by intros [_ ?]%andb_prop].
  intros _. rewrite HF. cbn [covered]. by ztest.
Qed.

Lemma accepts_sound F lvl L root_len T offset length D :
  zlen L = zlen D → zlen D < 2 ^ 63 → zlen D ≤ 8192 * 256 ^ Z.of_nat F → tree_size (S F) (zlen D) ≤ zlen T →
  0 ≤ offset → 0 ≤ length → offset + length ≤ zlen D → 0 ≤ lvl → root_level lvl (zlen D) root_len →
  covered (S F) (zlen D) offset length = true → no_collision (S F) lvl L root_len T offset length D →
  accepts (S F) lvl L root_len T offset length (merkle hash (S F) lvl D).2 →
  ∀ k, checked (zlen D) root_len offset length k → byte_at L k = byte_at D k.
Proof using Hhash.
  revert lvl L root_len T offset length D.
  induction F as [|F IH]; intros lvl L root_len T offset length D HLD Hl Hle HT Ho Hn Hon Hlv Hrl Hcov Hnc Hacc k Hk;
    (destruct (Z.le_gt_cases (zlen D) 8192) as [Hs|Hs];
      [rewrite accepts_small, merkle_small in Hacc by lia; cbn [no_collision] in Hnc; revert Hnc Hk; unfold checked; ztest;
       intros Hnc Hk; unfold root_level in Hrl; rewrite HLD in *;
       pose proof (node_input_inj _ _ _ _ _ k (Hnc Hacc)) as E;
       rewrite zlen_slice, byte_at_slice in E by lia; apply E; lia|]); [cbn in Hle; lia|].
  rewrite Nat2Z.inj_succ, <- Z.add_1_r in Hle. pose proof (NextAligned_bounds (zlen D) ltac:(lia)) as ([? _] & ? & _).
  pose proof (NextAligned_shrinks (zlen D) (Z.of_nat F) ltac:(lia) ltac:(lia) Hle).
  pose proof (range_next (zlen D) offset length ltac:(lia) Ho Hn Hon) as (? & ? & ?).
  pose proof (zlen_next_level hash Hhash lvl D ltac:(lia)) as Hz. rewrite tree_size_S in HT by lia.
  pose proof (tree_size_bounds (S F) (NextAligned (zlen D)) ltac:(lia)) as [? _].
  rewrite accepts_S, merkle_S in Hacc by lia. destruct Hacc as [Hlev Hacc]. cbn [snd] in Hacc.
  rewrite no_collision_S in Hnc by lia. destruct Hnc as [Hnode Hnc]. rewrite HLD in *.
  assert (Habove : ∀ k, checked (NextAligned (zlen D)) (NextLength (zlen D)) (offset / 256) (length / 256) k →
    byte_at (slice T 0 (NextAligned (zlen D))) k = byte_at (next_level hash lvl D) k).
  { intros k' Hk'. rewrite <- Hz in Hk' at 1.
    refine (IH _ _ _ _ _ _ _ _ _ _ _ _ _ _ _ _ _ Hnc Hacc k' Hk');
      rewrite ?Hz; try done; try lia; [by rewrite zlen_slice by lia|by rewrite zlen_slice by lia; lia| |by apply covered_next; [lia|]].
    apply root_level_next; lia. }
  unfold checked in Hk. revert Hk. ztest. intros Hk. set (j := k / 8192).
  assert (Hj : first_node offset ≤ j < end_node offset length) by (unfold first_node, j in *; zlia).
  assert (0 ≤ j < ceil_nodes (zlen D)) by (unfold first_node, ceil_nodes, j in *; zlia).
  assert (Hkj : 8192 * j ≤ k < 8192 * j + 8192) by (unfold j; zlia). clearbody j.
  assert (HTj : slice T (32 * j) 32 = slice (next_level hash lvl D) (32 * j) 32).
  { apply byte_ext; rewrite !zlen_slice by lia; [done|]. intros m Hm. rewrite !byte_at_slice by lia.
    rewrite <- Habove by (apply (covered_digest (S F)); (done || lia)). by rewrite byte_at_slice by lia. }
  pose proof (Hlev j Hj) as Hok. unfold node_ok in Hok. rewrite HTj, next_level_digest, HLD in Hok by lia.
  pose proof (node_input_inj _ _ _ _ _ (k - 8192 * j) (Hnode j Hj Hok)) as E.
  rewrite !zlen_slice_min, !byte_at_slice, HLD in E by lia.
  replace (8192 * j + (k - 8192 * j)) with k in E by lia. apply E; lia.
Qed.

(** ** Nodes that are not checked *)

(** Levels that agree on their first nodes have the same first digests. *)
Lemma next_level_agree lvl D D' n :
  zlen D = zlen D' → 0 ≤ n ≤ ceil_nodes (zlen D) → 8192 < zlen D < 2 ^ 63 →
  (∀ j, 0 ≤ j < n → slice D (8192 * j) 8192 = slice D' (8192 * j) 8192) →
  slice (next_level hash lvl D) 0 (32 * n) = slice (next_level hash lvl D') 0 (32 * n).
Proof using Hhash.
  intros Hz Hn Hl H. pose proof (NextAligned_bounds (zlen D) Hl) as ([? _] & _).
  pose proof (zlen_next_level hash Hhash lvl D Hl). pose proof (zlen_next_level hash Hhash lvl D' ltac:(lia)) as H'.
  rewrite <- Hz in H'. apply byte_ext; rewrite !zlen_slice by lia; [done|]. intros k Hk.
  pose proof (f_equal (λ l, byte_at l (k mod 32)) (next_level_digest lvl D (k / 32) ltac:(zlia))) as E.
  pose proof (f_equal (λ l, byte_at l (k mod 32)) (next_level_digest lvl D' (k / 32) ltac:(rewrite <- Hz; zlia))) as E'.
  cbn beta in E, E'. rewrite <- Hz, <- H in E' by zlia.
  rewrite byte_at_slice in E, E' by zlia. rewrite !byte_at_slice by lia.
  replace (32 * (k / 32) + k mod 32) with (0 + k) in * by zlia. congruence.
Qed.

(** At 2 MiB and one byte, the last digest is in a node that is not checked. *)
Lemma last_node_gap D D' :
  zlen D = 2097153 → zlen D' = 2097153 → (∀ k, 0 ≤ k < 2097152 → byte_at D k = byte_at D' k) →
  let T := next_level hash 0 D' ++ next_level hash 1 (next_level hash 0 D) in
  zlen T = 24576 ∧ accepts 9 0 D' 2097153 T 0 2097153 (merkle_root hash D).
Proof using Hhash.
  intros HD HD' Heq T. set (L1 := next_level hash 0 D). set (L1' := next_level hash 0 D'). set (L2 := next_level hash 1 L1).
  assert (H1 : zlen L1 = 16384) by (unfold L1; rewrite zlen_next_level, HD by (done || lia); vm_compute; reflexivity).
  assert (H1' : zlen L1' = 16384) by (unfold L1'; rewrite zlen_next_level, HD' by (done || lia); vm_compute; reflexivity).
  assert (H2 : zlen L2 = 8192) by (unfold L2; rewrite zlen_next_level, H1 by (done || lia); vm_compute; reflexivity).
  assert (HT : zlen T = 24576) by (unfold T; rewrite zlen_app; fold L1' L1 L2; lia). split; [exact HT|].
  assert (Hfirst : slice L1' 0 8192 = slice L1 0 8192).
  { change 8192 with (32 * 256). symmetry. apply next_level_agree; [lia| |lia|].
    { rewrite HD. change (ceil_nodes 2097153) with 257. lia. }
    intros j Hj. apply byte_ext; rewrite !zlen_slice by lia; [reflexivity|]. intros k Hk.
    rewrite !byte_at_slice by lia. apply Heq. lia. }
  unfold merkle_root. rewrite (merkle_S 8) by lia. cbn [snd]. fold L1. change (0 + 1) with 1.
  rewrite (merkle_S 7) by lia. cbn [snd]. fold L2. change (1 + 1) with 2. rewrite (merkle_small 6) by lia. cbn [snd].
  destruct (slice_parts T L1' L2 16384 8192) as [HTl HTr]; [exact H1'|lia|lia|change (16384 + 8192) with 24576; rewrite <- HT; apply slice_all|].
  rewrite HT in HTr. change (24576 - 16384) with 8192 in HTr.
  rewrite (accepts_S 8), HD', HT by lia. change (NextAligned 2097153) with 16384. change (24576 - 16384) with 8192.
  rewrite HTl. split.
  { apply level_ok_genuine; rewrite ?HD'; [lia|exact HTl|lia..]. }
  change (0 / 256) with 0. change (2097153 / 256) with 8192. rewrite slice_slice in HTr by lia.
  change (16384 + 0) with 16384 in HTr. change (Z.min 8192 (8192 - 0)) with 8192 in HTr. rewrite HTr.
  rewrite (accepts_S 7), H1' by lia. change (NextAligned 16384) with 8192. split.
  { intros j Hj. change (end_node 0 8192) with 1 in Hj. change (first_node 0) with 0 in Hj. assert (j = 0) as -> by lia.
    unfold node_ok. change (8192 * 0) with 0. rewrite H1', Hfirst, <- H1. symmetry. change 0 with (8192 * 0) at 3 4. apply next_level_digest. rewrite H1. split; reflexivity || lia. }
  rewrite <- H2 at 1. rewrite slice_all, (accepts_small 6), H2 by lia.
  pose proof (next_level_root 1 2 L1 ltac:(lia) ltac:(fold L2; lia)) as E. fold L2 in E. rewrite H1, H2 in E.
  apply (f_equal hash). exact E.
Qed.

(** Acceptance looks at the checked nodes of the lowest level only. *)
Lemma accepts_agree F lvl L L' root_len T offset length root :
  8192 < zlen L → zlen L = zlen L' →
  (∀ j, first_node offset ≤ j < end_node offset length → slice L (8192 * j) 8192 = slice L' (8192 * j) 8192) →
  accepts (S F) lvl L root_len T offset length root → accepts (S F) lvl L' root_len T offset length root.
Proof using.
  intros Hl Hz H. rewrite !accepts_S, <- Hz by lia. intros [Hlev Hacc]. split; [|exact Hacc].
  intros j Hj. unfold node_ok. rewrite <- Hz, <- H by exact Hj. by apply Hlev.
Qed.

Lemma has_tree_slice tree t : zlen t ≤ zlen tree → has_tree tree 0 t → slice tree 0 (zlen t) = t.
Proof using.
  intros Hz H. pose proof (zlen_nonneg t). apply byte_ext; rewrite zlen_slice by lia; [reflexivity|].
  intros k Hk. rewrite byte_at_slice by lia. by apply H.
Qed.

Lemma zlen_merkle_root F lvl D :
  zlen D ≤ 8192 * 256 ^ Z.of_nat F → zlen D < 2 ^ 63 → zlen (merkle hash (S F) lvl D).2 = 32.
Proof using Hhash.
  revert lvl D. induction F as [|F IH]; intros lvl D Hle Hl;
    (destruct (Z.le_gt_cases (zlen D) 8192) as [Hs|Hs];
      [rewrite merkle_small by done; apply (zlen_node_hash hash Hhash)|]); [cbn in Hle; lia|].
  rewrite Nat2Z.inj_succ, <- Z.add_1_r in Hle. pose proof (NextAligned_bounds (zlen D) ltac:(lia)) as (_ & ? & _).
  pose proof (NextAligned_shrinks (zlen D) (Z.of_nat F) ltac:(lia) ltac:(lia) Hle).
  rewrite merkle_S by lia. apply IH; rewrite (zlen_next_level hash Hhash); lia.
Qed.

Lemma accepts_merkle D tree offset length :
  zlen D < 2 ^ 63 → zlen (merkle_tree hash D) ≤ zlen tree → has_tree tree 0 (merkle_tree hash D) →
  0 ≤ offset → 0 ≤ length → offset + length ≤ zlen D →
  accepts 9 0 D (zlen D) tree offset length (merkle_root hash D).
Proof using Hhash.
  intros Hl Ht Htree Ho Hn Hon. unfold merkle_tree, merkle_root in *.
  apply accepts_genuine; try done; rewrite <- ?(zlen_merkle hash Hhash 9 0) by done; try done.
  - by apply max_levels_enough.
  - by apply has_tree_slice.
  - by rewrite slice_all.
Qed.

(** [Verify] against the root of [D] returns, and accepts what [accepts] says. *)
Lemma Verify_root data tree offset length D :
  zlen data = zlen D → zlen D < UINT32_MAX → zlen (merkle_tree hash D) ≤ zlen tree →
  0 ≤ offset → 0 ≤ length → offset + length ≤ zlen D →
  integrity (Verify hash true (Some data) (zlen D) (Some tree) (zlen tree) offset length (merkle_root hash D))
    (accepts 9 0 data (zlen D) tree offset length (merkle_root hash D)).
Proof using Hhash.
  intros Hz Hl Ht Ho Hn Hon. unfold UINT32_MAX in Hl. unfold merkle_tree in Ht. rewrite zlen_merkle in Ht by (done || lia).
  rewrite <- Hz. apply Verify_ok; rewrite ?Hz; try done. apply zlen_merkle_root; [apply max_levels_enough|]; lia.
Qed.

Lemma integrity_ok r P : integrity r P → (r = Returns ZX_OK ↔ P).
Proof using. intros (rc & -> & _ & H). rewrite <- H. split; congruence. Qed.

End verification.

(** ** Theorems *)

(** C25. Creation and verification agree.  For data of less than UINT32_MAX bytes and
    a buffer of at least [GetTreeLength] bytes, [Create] succeeds, and [Verify] of
    the same data with the tree and root it gave accepts every range inside the data. *)
Theorem merkle_create_verify (hash : list Z → list Z) (Hhash : ∀ x, length (hash x) = 32%nat)
    (data tree : list Z) (size : Z) :
  zlen data < UINT32_MAX → GetTreeLength (zlen data) = Returns size → size ≤ zlen tree →
  ∃ tree' root, Create hash true (inl data) false tree = Returns (ZX_OK, tree', Some root) ∧
    ∀ offset length, 0 ≤ offset → 0 ≤ length → offset + length ≤ zlen data →
      Verify hash true (Some data) (zlen data) (Some tree') (zlen tree') offset length root = Returns ZX_OK.
Proof.
  intros Hl Hsize Ht. pose proof (zlen_nonneg data). pose proof Hl as Hl'. unfold UINT32_MAX in Hl'.
  unfold GetTreeLength in Hsize. rewrite (GetTreeLength_size 8) in Hsize
    by (unfold kMaxLevels; lia || (apply max_levels_enough; lia)). assert (size = tree_size 9 (zlen data)) as -> by congruence.
  rewrite <- (zlen_merkle hash Hhash 9 0) in Ht by lia. fold (merkle_tree hash data) in Ht.
  destruct (merkle_Create_ok hash Hhash data tree Hl Ht) as (tree' & Hc & Hz & Htree).
  exists tree', (merkle_root hash data). split; [exact Hc|]. intros offset length Ho Hn Hon.
  rewrite <- Hz in Ht. eapply integrity_ok; [by apply Verify_root|]. apply accepts_merkle; (done || lia).
Qed.

Lemma merkle_create_verify_witness :
  ∃ tree' root, Create xor_hash true (inl (zeros 8193)) false (zeros 8192) = Returns (ZX_OK, tree', Some root) ∧
    ∀ offset length, 0 ≤ offset → 0 ≤ length → offset + length ≤ 8193 →
      Verify xor_hash true (Some (zeros 8193)) 8193 (Some tree') (zlen tree') offset length root = Returns ZX_OK.
Proof.
  pose proof (merkle_create_verify xor_hash xor_hash_length (zeros 8193) (zeros 8192) 8192) as H.
  rewrite !zlen_zeros in H by lia. apply H; [reflexivity|vm_compute; reflexivity|lia].
Defined.

(** C22. What acceptance means.  Suppose [Verify] accepts a range that starts at a
    node boundary, against the root of the tree over [D], data of the same length.
    Suppose that at each level the digests of the checked nodes lie in nodes that are
    checked at the next level ([covered], a condition on the range alone), and that
    the hash function tells the nodes hashed from those of [D] in their places
    ([no_collision]).  Then the range is the same in the data and in [D], whatever the
    tree that was given. *)
Theorem merkle_verify_sound (hash : list Z → list Z) (Hhash : ∀ x, length (hash x) = 32%nat)
    (data tree D : list Z) (offset length : Z) :
  zlen data = zlen D → zlen D < UINT32_MAX → zlen (merkle_tree hash D) ≤ zlen tree →
  0 ≤ offset → offset mod 8192 = 0 → 0 ≤ length → offset + length ≤ zlen D →
  covered 9 (zlen D) offset length = true →
  no_collision hash 9 0 data (zlen D) tree offset length D →
  Verify hash true (Some data) (zlen D) (Some tree) (zlen tree) offset length (merkle_root hash D) = Returns ZX_OK →
  ∀ k, offset ≤ k < offset + length → byte_at data k = byte_at D k.
Proof.
  intros Hz Hl Ht Ho Hal Hn Hon Hcov Hnc HV k Hk. pose proof Hl as Hl'. unfold UINT32_MAX in Hl'.
  apply (integrity_ok _ _ (Verify_root hash Hhash data tree offset length D Hz Hl Ht Ho Hn Hon)) in HV.
  apply (accepts_sound hash Hhash 8 0 data (zlen D) tree offset length D); try (done || lia).
  - by rewrite <- (zlen_merkle hash Hhash 9 0) by lia.
  - left. done.
  - unfold checked, first_node, end_node, ceil_nodes. zcases; zlia.
Qed.

(** Data whose second node differs from that of [zeros 8193]. *)
Definition example_data : list Z := zeros 8192 ++ [1].

Lemma zlen_example_data : zlen example_data = 8193.
Proof. unfold example_data. rewrite zlen_app, zlen_zeros by lia. reflexivity. Qed.

Lemma example_data_first : slice example_data 0 8192 = slice (zeros 8193) 0 8192.
Proof.
  assert (zlen (zeros 8193) = 8193) by (apply zlen_zeros; lia). pose proof zlen_example_data.
  apply byte_ext; rewrite !zlen_slice by lia; [reflexivity|]. intros k Hk. rewrite !byte_at_slice by lia.
  unfold example_data. rewrite byte_at_app, zlen_zeros, !byte_at_zeros by lia. by ztest.
Qed.

Lemma example_checked j : first_node 0 ≤ j < end_node 0 8192 → slice example_data (8192 * j) 8192 = slice (zeros 8193) (8192 * j) 8192.
Proof.
  change (first_node 0) with 0. change (end_node 0 8192) with 1. intros. replace j with 0 by lia.
  exact example_data_first.
Qed.

Lemma merkle_verify_sound_witness :
  byte_at example_data 0 = byte_at (zeros 8193) 0 ∧ byte_at example_data 8191 = byte_at (zeros 8193) 8191.
Proof.
  enough (∀ k, 0 ≤ k < 0 + 8192 → byte_at example_data k = byte_at (zeros 8193) k) as H by (split; apply H; lia).
  assert (Hz : zlen (zeros 8193) = 8193) by (apply zlen_zeros; lia). pose proof zlen_example_data as Hd.
  set (T := merkle_tree xor_hash (zeros 8193)).
  assert (HT : has_tree T 0 T) by (intros k Hk; reflexivity).
  apply (merkle_verify_sound xor_hash xor_hash_length example_data T (zeros 8193) 0 8192).
  - rewrite Hd, Hz. reflexivity.
  - rewrite Hz. reflexivity.
  - apply Z.le_refl.
  - lia.
  - reflexivity.
  - lia.
  - rewrite Hz. lia.
  - rewrite Hz. reflexivity.
  - apply no_collision_genuine; [exact xor_hash_length|lia|lia|lia| | | |exact example_checked].
    + rewrite <- (zlen_merkle xor_hash xor_hash_length 9 0) by lia. apply slice_all.
    + rewrite <- (zlen_merkle xor_hash xor_hash_length 9 0) by lia. unfold T, merkle_tree. apply Z.le_refl.
    + lia.
  - apply (integrity_ok _ _ (Verify_root xor_hash xor_hash_length example_data T 0 8192 (zeros 8193)
      ltac:(lia) ltac:(rewrite Hz; reflexivity) (Z.le_refl _) ltac:(lia) ltac:(lia) ltac:(lia))).
    apply (accepts_agree xor_hash 8 0 (zeros 8193)); [lia|lia|intros j Hj; symmetry; by apply example_checked|].
    apply accepts_merkle; [exact xor_hash_length|lia|apply Z.le_refl|exact HT|lia|lia|lia].
Defined.

(** C40. A gap in the verification of whole blobs.  A blob of 2 MiB and one byte has a
    tree of two nodes at level 1, of which the second holds the last digest; [Verify]
    of the whole blob divides the length by the fan-out rounding down, and checks the
    first node only.  So for every blob of this size and every other last byte there
    is a tree with which the whole range is accepted against the genuine root. *)
Theorem merkle_verify_last_byte_gap (hash : list Z → list Z) (Hhash : ∀ x, length (hash x) = 32%nat)
    (D : list Z) (b : Z) :
  zlen D = 2097153 →
  ∃ tree, zlen tree = 24576 ∧
    Verify hash true (Some (slice D 0 2097152 ++ [b])) 2097153 (Some tree) 24576 0 2097153 (merkle_root hash D)
      = Returns ZX_OK.
Proof.
  intros HD. set (D' := slice D 0 2097152 ++ [b]).
  assert (HD' : zlen D' = 2097153).
  { unfold D'. rewrite zlen_app, zlen_slice by lia. reflexivity. }
  destruct (last_node_gap hash Hhash D D' HD HD') as [HT Hacc].
  { intros k Hk. unfold D'. rewrite byte_at_app, zlen_slice by lia. ztest. by rewrite byte_at_slice by lia. }
  eexists. split; [exact HT|]. rewrite <- HD at 1. rewrite <- HT.
  eapply integrity_ok; [apply (Verify_root hash Hhash)|rewrite HD; exact Hacc]; try lia.
  - rewrite HD. reflexivity.
  - unfold merkle_tree. rewrite (zlen_merkle hash Hhash), HT, HD by lia. vm_compute. discriminate.
Qed.

Lemma merkle_verify_last_byte_gap_witness :
  ∃ tree, zlen tree = 24576 ∧
    Verify xor_hash true (Some (slice (zeros 2097153) 0 2097152 ++ [1])) 2097153 (Some tree) 24576 0 2097153
      (merkle_root xor_hash (zeros 2097153)) = Returns ZX_OK.
Proof. apply (merkle_verify_last_byte_gap xor_hash xor_hash_length). apply zlen_zeros. lia. Defined.

(** A gap in the verification of ranges.  [VerifyLevel] aligns the offset down
    before it adds the length, so the two bytes around the first node boundary make
    it check the first node only: with the genuine tree and root of [D], [Verify] of
    that range accepts all data of the same length whose first node is that of [D],
    although the range has a byte of the second. *)
Theorem merkle_verify_unaligned_gap (hash : list Z → list Z) (Hhash : ∀ x, length (hash x) = 32%nat)
    (D data : list Z) :
  8192 < zlen D < UINT32_MAX → zlen data = zlen D → slice data 0 8192 = slice D 0 8192 →
  Verify hash true (Some data) (zlen D) (Some (merkle_tree hash D)) (zlen (merkle_tree hash D)) 8191 2
    (merkle_root hash D) = Returns ZX_OK.
Proof.
  intros Hl Hz Hfirst. pose proof Hl as Hl'. unfold UINT32_MAX in Hl'.
  eapply integrity_ok; [apply (Verify_root hash Hhash); (done || lia)|].
  apply (accepts_agree hash 8 0 D); [lia|done| |].
  - intros j Hj. change (first_node 8191) with 0 in Hj. change (end_node 8191 2) with 1 in Hj.
    replace (8192 * j) with 0 by lia. symmetry. exact Hfirst.
  - apply accepts_merkle; try (done || lia).
Qed.

