(* ===== verification/Format.v ===== *)
(** * The on-disk format (ulib/blobfs/include/blobfs/format.h)

    The superblock, the layout of the volume, extents, and the nodes of the node
    map.  A node is 64 bytes that are read either as an [Inode] or as an
    [ExtentContainer]; both are views of the same eight 64-bit words, given by
    fields: a word, the offset of the lowest bit in it, and the number of bits. *)

From S2P Require Import Prelude RawBitmap Digest MerkleTree.

(** ** Constants *)

Definition kBlobfsMagic0 : Z := 0xac2153479e694d21.
Definition kBlobfsMagic1 : Z := 0x985000d4d4d3d314.
Definition kBlobfsVersion : Z := 7.
Definition kBlobFlagClean : Z := 1.
Definition kBlobFlagDirty : Z := 2.
Definition kBlobFlagFVM : Z := 4.
Definition kBlobfsBlockSize : Z := 8192.
Definition kBlobfsBlockBits : Z := kBlobfsBlockSize * 8.
Definition kBlobfsSuperblockBlocks : Z := 1.
Definition kBlobfsBlockMapStart : Z := 1.
Definition kBlobfsInodeSize : Z := 64.
Definition kBlobfsInodesPerBlock : Z := kBlobfsBlockSize / kBlobfsInodeSize.
Definition kFVMBlockMapStart : Z := 0x10000.
Definition kFVMNodeMapStart : Z := 0x20000.
Definition kFVMJournalStart : Z := 0x30000.
Definition kFVMDataStart : Z := 0x40000.
Definition kJournalMetadataBlocks : Z := 1.
Definition kEntryMetadataBlocks : Z := 2.
Definition kMaxEntryDataBlocks : Z := 64.
Definition kMinimumJournalBlocks : Z :=
  kJournalMetadataBlocks + kEntryMetadataBlocks + kMaxEntryDataBlocks.
Definition kDefaultJournalBlocks : Z := Z.max kMinimumJournalBlocks 256.
Definition kBlobfsDefaultInodeCount : Z := 32768.
Definition kMinimumDataBlocks : Z := 2.
Definition kJournalMagic : Z := 0x626c6f626a726e6c.
Definition kStartBlockMinimum : Z := 1.

(** ** The superblock *)

Record Superblock := {
  magic0 : Z;
  magic1 : Z;
  version : Z;
  flags : Z;
  block_size : Z;
  data_block_count : Z;
  journal_block_count : Z;
  inode_count : Z;
  alloc_block_count : Z;
  alloc_inode_count : Z;
  blob_header_next : Z;
  slice_size : Z;
  vslice_count : Z;
  abm_slices : Z;
  ino_slices : Z;
  dat_slices : Z;
  journal_slices : Z;
}.

Definition is_fvm (info : Superblock) : bool := negb (Z.land info.(flags) kBlobFlagFVM =? 0).

(** ** Layout of the volume *)

Definition SuperblockBlocks (info : Superblock) : Z := kBlobfsSuperblockBlocks.

Definition BlockMapStartBlock (info : Superblock) : Z :=
  if is_fvm info then kFVMBlockMapStart else kBlobfsBlockMapStart.

Definition BlockMapBlocks (info : Superblock) : Z :=
  round_up info.(data_block_count) kBlobfsBlockBits / kBlobfsBlockBits.

Definition NodeMapStartBlock (info : Superblock) : Z :=
  if is_fvm info then kFVMNodeMapStart else BlockMapStartBlock info ⊞ BlockMapBlocks info.

Definition NodeBitmapBlocks (info : Superblock) : Z :=
  round_up info.(inode_count) kBlobfsBlockBits / kBlobfsBlockBits.

Definition NodeMapBlocks (info : Superblock) : Z :=
  round_up info.(inode_count) kBlobfsInodesPerBlock / kBlobfsInodesPerBlock.

Definition JournalStartBlock (info : Superblock) : Z :=
  if is_fvm info then kFVMJournalStart else NodeMapStartBlock info ⊞ NodeMapBlocks info.

Definition JournalBlocks (info : Superblock) : Z := info.(journal_block_count).

Definition DataStartBlock (info : Superblock) : Z :=
  if is_fvm info then kFVMDataStart else JournalStartBlock info ⊞ JournalBlocks info.

Definition DataBlocks (info : Superblock) : Z := info.(data_block_count).

Definition TotalNonDataBlocks (info : Superblock) : Z :=
  SuperblockBlocks info ⊞ BlockMapBlocks info ⊞ NodeMapBlocks info ⊞ JournalBlocks info.

Definition TotalBlocks (info : Superblock) : Z := TotalNonDataBlocks info ⊞ DataBlocks info.

(** ** Extents: 48 bits of start, 16 bits of length *)

Definition Extent := Z.

Definition kBlockOffsetBits : Z := 48.
Definition kBlockOffsetMax : Z := Z.shiftl 1 kBlockOffsetBits - 1.
Definition kBlockOffsetMask : Z := kBlockOffsetMax.
Definition kBlockCountBits : Z := 16.
Definition kBlockCountMax : Z := 2 ^ 16 - 1.
Definition kBlockCountMask : Z := u64 (Z.shiftl kBlockCountMax kBlockOffsetBits).

Definition Start (e : Extent) : Z := Z.land e kBlockOffsetMask.

Definition SetStart (e : Extent) (start : Z) : outcome Extent :=
  _ ← ZX_DEBUG_ASSERT (start <=? kBlockOffsetMax);
  Returns (Z.lor (Z.land e (not64 kBlockOffsetMask)) (Z.land start kBlockOffsetMask)).

Definition Length (e : Extent) : Z := u16 (Z.shiftr (Z.land e kBlockCountMask) kBlockOffsetBits).

Definition SetLength (e : Extent) (length : Z) : Extent :=
  Z.lor (Z.land e (not64 kBlockCountMask)) (u64 (Z.shiftl (Z.land length kBlockCountMax) kBlockOffsetBits)).

Definition NewExtent (start length : Z) : outcome Extent :=
  e ← SetStart 0 start;
  Returns (SetLength e length).

Definition extent_eq (e e' : Extent) : bool := (Start e =? Start e') && (Length e =? Length e').

Definition kMaxBlobExtents : Z := 2 ^ 16 - 1.

(** ** Fields of words *)

Record field := Field { f_word : nat; f_off : Z; f_bits : Z }.

Definition field_get (f : field) (m : list Z) : Z :=
  Z.land (Z.shiftr (default 0 (m !! f.(f_word))) f.(f_off)) (Z.ones f.(f_bits)).

Definition field_set (f : field) (m : list Z) (v : Z) : list Z :=
  let w := default 0 (m !! f.(f_word)) in
  <[f.(f_word) := Z.lor (Z.ldiff w (Z.shiftl (Z.ones f.(f_bits)) f.(f_off)))
                        (Z.shiftl (Z.land v (Z.ones f.(f_bits))) f.(f_off))]> m.

(** ** Nodes *)

Definition kBlobFlagAllocated : Z := Z.shiftl 1 0.
Definition kBlobFlagLZ4Compressed : Z := Z.shiftl 1 1.
Definition kBlobFlagExtentContainer : Z := Z.shiftl 1 2.
Definition kBlobFlagZSTDCompressed : Z := Z.shiftl 1 3.
Definition kInlineMaxExtents : Z := 1.
Definition kContainerMaxExtents : Z := 6.

(** [NodePrelude]. *)
Definition node_flags := Field 0 0 16.
Definition node_version := Field 0 16 16.
Definition next_node := Field 0 32 32.

(** [Inode]. *)
Definition merkle_root_hash (i : nat) := Field (1 + i) 0 64.
Definition blob_size := Field 5 0 64.
Definition block_count := Field 6 0 32.
Definition inode_extent_count := Field 6 32 16.
Definition inode_extents (i : Z) := Field (7 + Z.to_nat i) 0 64.

(** [ExtentContainer]. *)
Definition previous_node := Field 1 0 32.
Definition container_extent_count := Field 1 32 16.
Definition container_extents (i : Z) := Field (2 + Z.to_nat i) 0 64.

Definition Inode := list Z.

(** The 64 bytes as eight words. *)
Definition kNodeWords : nat := 8.

Definition IsAllocated (n : Inode) : bool :=
  negb (Z.land (field_get node_flags n) kBlobFlagAllocated =? 0).

Definition IsExtentContainer (n : Inode) : bool :=
  negb (Z.land (field_get node_flags n) kBlobFlagExtentContainer =? 0).

Definition BlobDataBlocks (n : Inode) : Z :=
  round_up (field_get blob_size n) kBlobfsBlockSize / kBlobfsBlockSize.

(** Number of blocks reserved for the Merkle tree (common.cpp).  The sum inside
    [round_up] is of 32 bits; its low bits are those of the 64-bit sum. *)
Definition MerkleTreeBlocks (n : Inode) : outcome Z :=
  size_merkle ← GetTreeLength (field_get blob_size n);
  _ ← ZX_DEBUG_ASSERT (size_merkle <=? UINT32_MAX);
  Returns (u32 (round_up (u32 size_merkle) kBlobfsBlockSize) / kBlobfsBlockSize).

(** ** Lemmas on words *)

Lemma testbit_ones n i : 0 ≤ n → 0 ≤ i → Z.testbit (Z.ones n) i = (i <? n).
Proof.
  intros. destruct (Z.ltb_spec i n); [apply Z.ones_spec_low; lia|apply Z.ones_spec_high; lia].
Qed.

Lemma land_ones_id n x : 0 ≤ x < 2 ^ n → Z.land x (Z.ones n) = x.
Proof.
  intros. destruct (Z.lt_ge_cases n 0); [rewrite Z.pow_neg_r in *; lia|].
  rewrite Z.land_ones by done. apply Z.mod_small. lia.
Qed.

(** A field replaced inside a word. *)
Lemma field_get_set_word w v off n i : 0 ≤ off → 0 ≤ n → 0 ≤ i →
  Z.testbit (Z.lor (Z.ldiff w (Z.shiftl (Z.ones n) off)) (Z.shiftl (Z.land v (Z.ones n)) off)) i =
  if (off <=? i) && (i <? off + n) then Z.testbit v (i - off) else Z.testbit w i.
Proof.
  intros Ho Hn Hi. rewrite Z.lor_spec, Z.ldiff_spec.
  destruct (Z.leb_spec off i); cbn [andb].
  - rewrite !Z.shiftl_spec, Z.land_spec, testbit_ones by lia.
    destruct (Z.ltb_spec (i - off) n), (Z.ltb_spec i (off + n)); try lia; btauto.
  - rewrite !Z.shiftl_spec_low by lia. btauto.
Qed.

Lemma field_get_bits w off n i : 0 ≤ off → 0 ≤ n → 0 ≤ i →
  Z.testbit (Z.land (Z.shiftr w off) (Z.ones n)) i = Z.testbit w (i + off) && (i <? n).
Proof. intros. by rewrite Z.land_spec, Z.shiftr_spec, testbit_ones by lia. Qed.

Definition field_valid (f : field) : bool :=
  (0 <=? f.(f_off)) && (0 <? f.(f_bits)) && (f.(f_off) + f.(f_bits) <=? 64).

Definition field_disjoint (f g : field) : bool :=
  negb (Nat.eqb f.(f_word) g.(f_word)) ||
  (f.(f_off) + f.(f_bits) <=? g.(f_off)) || (g.(f_off) + g.(f_bits) <=? f.(f_off)).

Lemma length_field_set f m v : length (field_set f m v) = length m.
Proof. apply length_insert. Qed.

Lemma field_get_range f m : 0 ≤ f.(f_bits) → 0 ≤ field_get f m < 2 ^ f.(f_bits).
Proof. intros. unfold field_get. rewrite Z.land_ones by done. apply Z.mod_pos_bound. lia. Qed.

Lemma field_get_set f m v :
  field_valid f = true → (f.(f_word) < length m)%nat → 0 ≤ v < 2 ^ f.(f_bits) →
  field_get f (field_set f m v) = v.
Proof.
  unfold field_valid. rewrite !andb_true_iff, !Z.leb_le, Z.ltb_lt. intros [[Ho Hn] _] Hl Hv.
  rewrite <- (land_ones_id f.(f_bits) v Hv) at 2. unfold field_get, field_set.
  rewrite list_lookup_insert_eq by done. cbn. apply Z.bits_inj'. intros i Hi.
  rewrite field_get_bits, field_get_set_word, Z.land_spec, testbit_ones by lia.
  destruct (Z.ltb_spec i f.(f_bits)); [|by rewrite !andb_false_r].
  ztest. cbn. by replace (i + f.(f_off) - f.(f_off)) with i by lia.
Qed.

Lemma field_get_set_ne f g m v :
  field_valid f = true → field_valid g = true → field_disjoint f g = true →
  field_get g (field_set f m v) = field_get g m.
Proof.
  unfold field_valid, field_disjoint. rewrite !andb_true_iff, !orb_true_iff, !Z.leb_le, !Z.ltb_lt.
  intros [[Hof Hnf] _] [[Hog Hng] _] Hd. unfold field_get, field_set.
  destruct (Nat.eqb_spec f.(f_word) g.(f_word)) as [->|Hne]; [|by rewrite list_lookup_insert_ne].
  destruct Hd as [[|Hd]|Hd]; [done|..]; (destruct (m !! g.(f_word)) eqn:Hm;
    [|by rewrite list_insert_ge by (by apply lookup_ge_None); rewrite Hm]);
    rewrite list_lookup_insert_eq by (by eapply lookup_lt_Some); cbn; apply Z.bits_inj'; intros i Hi;
    rewrite !field_get_bits, field_get_set_word by lia;
    (destruct (Z.ltb_spec i g.(f_bits)); [|by rewrite !andb_false_r]); by ztest.
Qed.

(** Reads of fields after writes of fields of nodes. *)
Ltac fields :=
  repeat first
    [ rewrite field_get_set by first [reflexivity | rewrite ?length_field_set; cbn; lia | cbn; lia]
    | rewrite field_get_set_ne by reflexivity ].

(** ** Extents *)

Lemma Start_mod e : Start e = e mod 2 ^ 48.
Proof. unfold Start. change kBlockOffsetMask with (Z.ones 48). by rewrite Z.land_ones. Qed.

Lemma Length_div e : Length e = (e / 2 ^ 48) mod 2 ^ 16.
Proof.
  unfold Length, u16. change kBlockCountMask with (Z.shiftl (Z.ones 16) 48). unfold kBlockOffsetBits.
  rewrite Z.shiftr_land, Z.shiftr_shiftl_l, Z.shiftl_0_r, Z.land_ones, Z.shiftr_div_pow2 by lia.
  apply Z.mod_small, Z.mod_pos_bound. lia.
Qed.

Lemma Start_range e : 0 ≤ Start e < 2 ^ 48.
Proof. rewrite Start_mod. apply Z.mod_pos_bound. lia. Qed.

Lemma Length_range e : 0 ≤ Length e < 2 ^ 16.
Proof. rewrite Length_div. apply Z.mod_pos_bound. lia. Qed.

Lemma SetLength_eq e len : 0 ≤ e < 2 ^ 64 → 0 ≤ len < 2 ^ 16 → SetLength e len = Start e + len * 2 ^ 48.
Proof.
  intros He Hl. unfold SetLength. change kBlockCountMax with (Z.ones 16). unfold kBlockOffsetBits.
  rewrite land_ones_id, Z.shiftl_mul_pow2 by lia. rewrite u64_small by lia. rewrite Start_mod.
  replace (Z.land e (not64 kBlockCountMask)) with (e mod 2 ^ 48).
  - rewrite <- Z.lxor_lor, <- Z.add_nocarry_lxor; [done|..]; apply Z.bits_inj'; intros i Hi;
      rewrite Z.land_spec, Z.bits_0, Z.mul_pow2_bits by lia;
      (destruct (Z.lt_ge_cases i 48); [rewrite (Z.testbit_neg_r len) by lia; btauto
        |rewrite Z.mod_pow2_bits_high by lia; btauto]).
  - change (not64 kBlockCountMask) with (Z.ones 48). by rewrite Z.land_ones.
Qed.

Lemma NewExtent_ok s len : 0 ≤ s < 2 ^ 48 → 0 ≤ len < 2 ^ 16 →
  ∃ e, NewExtent s len = Returns e ∧ 0 ≤ e < 2 ^ 64 ∧ Start e = s ∧ Length e = len.
Proof.
  intros Hs Hl. unfold NewExtent, SetStart, ZX_DEBUG_ASSERT. change kBlockOffsetMax with (2 ^ 48 - 1).
  change kBlockOffsetMask with (Z.ones 48). ztest. cbn [mbind outcome_bind].
  rewrite Z.land_0_l, Z.lor_0_l, land_ones_id by lia. eexists. split; [done|].
  rewrite SetLength_eq, !Start_mod, Length_div by lia. rewrite (Z.mod_small s) by lia. split; [lia|]. split.
  - rewrite Z.mod_add by lia. apply Z.mod_small. lia.
  - rewrite Z.div_add, Z.div_small by lia. apply Z.mod_small. lia.
Qed.

Lemma SetLength_ok e len : 0 ≤ e < 2 ^ 64 → 0 ≤ len < 2 ^ 16 →
  0 ≤ SetLength e len < 2 ^ 64 ∧ Start (SetLength e len) = Start e ∧ Length (SetLength e len) = len.
Proof.
  intros He Hl. pose proof (Start_range e). rewrite SetLength_eq, Length_div by done. split; [lia|]. split.
  - rewrite !(Start_mod (_ + _)), Z.mod_add, Z.mod_small by lia. done.
  - rewrite Z.div_add, Z.div_small by lia. apply Z.mod_small. lia.
Qed.

(** An extent is its start and its length. *)
Lemma extent_ext e e' : 0 ≤ e < 2 ^ 64 → 0 ≤ e' < 2 ^ 64 → Start e = Start e' → Length e = Length e' → e = e'.
Proof. rewrite !Start_mod, !Length_div. intros. zlia. Qed.

(** ** Layout *)

(** Block counts of a volume without wrap-around. *)
Definition ceil_div (a b : Z) : Z := (a + b - 1) / b.

Lemma BlockMapBlocks_eq info : 0 ≤ info.(data_block_count) < 2 ^ 63 →
  BlockMapBlocks info = ceil_div info.(data_block_count) 65536.
Proof.
  intros. unfold BlockMapBlocks, ceil_div. change kBlobfsBlockBits with 65536.
  rewrite round_up_small, Z.div_mul by lia. done.
Qed.

Lemma NodeMapBlocks_eq info : 0 ≤ info.(inode_count) < 2 ^ 63 →
  NodeMapBlocks info = ceil_div info.(inode_count) 128.
Proof.
  intros. unfold NodeMapBlocks, ceil_div. change kBlobfsInodesPerBlock with 128.
  rewrite round_up_small, Z.div_mul by lia. done.
Qed.
