(* ===== verification/Superblock.v ===== *)
(** * The superblock and Mkfs (ulib/blobfs/common.cpp)

    [CheckSuperblock], the check made before a volume is mounted, and [Mkfs], which
    formats a device.  A device is the list of its blocks, a block the list of its
    1024 words; the file descriptor calls and the volume manager are parameters. *)

From S2P Require Import Prelude Bitmap RawBitmap Digest MerkleTree Format.

(** ** The check *)

Definition CheckSuperblock (info : Superblock) (max : Z) : zx_status :=
  if negb (info.(magic0) =? kBlobfsMagic0) || negb (info.(magic1) =? kBlobfsMagic1) then ZX_ERR_INVALID_ARGS
  else if negb (info.(version) =? kBlobfsVersion) then ZX_ERR_INVALID_ARGS
  else if negb (info.(block_size) =? kBlobfsBlockSize) then ZX_ERR_INVALID_ARGS
  else
    let region :=
      if negb (is_fvm info) then
        if max <? TotalBlocks info then ZX_ERR_INVALID_ARGS else ZX_OK
      else
        let blocks_per_slice := info.(slice_size) / info.(block_size) in
        let abm_blocks_needed := BlockMapBlocks info in
        let abm_blocks_allocated := info.(abm_slices) ⊠ blocks_per_slice in
        let ino_blocks_needed := NodeMapBlocks info in
        let ino_blocks_allocated := info.(ino_slices) ⊠ blocks_per_slice in
        let dat_blocks_needed := DataBlocks info in
        let dat_blocks_allocated := info.(dat_slices) ⊠ blocks_per_slice in
        if abm_blocks_allocated <? abm_blocks_needed then ZX_ERR_INVALID_ARGS
        else if NodeMapStartBlock info <=? abm_blocks_allocated ⊞ BlockMapStartBlock info then ZX_ERR_INVALID_ARGS
        else if ino_blocks_allocated <? ino_blocks_needed then ZX_ERR_INVALID_ARGS
        else if DataStartBlock info <=? ino_blocks_allocated ⊞ NodeMapStartBlock info then ZX_ERR_INVALID_ARGS
        else if dat_blocks_needed <? kStartBlockMinimum then ZX_ERR_INVALID_ARGS
        else if dat_blocks_allocated <? dat_blocks_needed then ZX_ERR_INVALID_ARGS
        else if UINT32_MAX <? dat_blocks_allocated ⊞ DataStartBlock info then ZX_ERR_INVALID_ARGS
        else ZX_OK in
    if failed region then region
    else if negb (info.(blob_header_next) =? 0) then ZX_ERR_INVALID_ARGS
    else ZX_OK.

(** [checked_cast] stops the program when the value does not fit. *)
Definition checked_cast_u32 (x : Z) : outcome Z := if x <? 2 ^ 32 then Returns x else Aborts.

Definition BlocksRequiredForInode (inode_count : Z) : outcome Z :=
  checked_cast_u32 (round_up inode_count kBlobfsInodesPerBlock / kBlobfsInodesPerBlock).

Definition BlocksRequiredForBits (bit_count : Z) : outcome Z :=
  checked_cast_u32 (round_up bit_count kBlobfsBlockBits / kBlobfsBlockBits).

Definition SuggestJournalBlocks (current available : Z) : Z := u32 (current + available).

(** ** The device *)

Definition kBlockWords : nat := 1024.

Definition block := list Z.

Definition zero_block : block := replicate kBlockWords 0.

(** [io] says which blocks the device can write. *)
Definition writeblk (io : Z → bool) (disk : list block) (bno : Z) (data : block) : zx_status * list block :=
  if io bno && (bno <? Z.of_nat (length disk)) then (ZX_OK, <[Z.to_nat bno := data]> disk)
  else (ZX_ERR_IO, disk).

Definition readblk (io : Z → bool) (disk : list block) (bno : Z) : zx_status * option block :=
  if io bno then
    match disk !! Z.to_nat bno with
    | Some b => (ZX_OK, Some b)
    | None => (ZX_ERR_IO, None)
    end
  else (ZX_ERR_IO, None).

(** The fields of the superblock in its block. *)
Definition encode_superblock (info : Superblock) : list Z :=
  [info.(magic0); info.(magic1);
   Z.lor info.(version) (Z.shiftl info.(flags) 32); info.(block_size);
   info.(data_block_count); info.(journal_block_count); info.(inode_count);
   info.(alloc_block_count); info.(alloc_inode_count); info.(blob_header_next);
   info.(slice_size); info.(vslice_count);
   Z.lor info.(abm_slices) (Z.shiftl info.(ino_slices) 32);
   Z.lor info.(dat_slices) (Z.shiftl info.(journal_slices) 32)].

Definition decode_superblock (b : block) : Superblock := {|
  magic0 := field_get (Field 0 0 64) b;
  magic1 := field_get (Field 1 0 64) b;
  version := field_get (Field 2 0 32) b;
  flags := field_get (Field 2 32 32) b;
  block_size := field_get (Field 3 0 32) b;
  data_block_count := field_get (Field 4 0 64) b;
  journal_block_count := field_get (Field 5 0 64) b;
  inode_count := field_get (Field 6 0 64) b;
  alloc_block_count := field_get (Field 7 0 64) b;
  alloc_inode_count := field_get (Field 8 0 64) b;
  blob_header_next := field_get (Field 9 0 64) b;
  slice_size := field_get (Field 10 0 64) b;
  vslice_count := field_get (Field 11 0 64) b;
  abm_slices := field_get (Field 12 0 32) b;
  ino_slices := field_get (Field 12 32 32) b;
  dat_slices := field_get (Field 13 0 32) b;
  journal_slices := field_get (Field 13 32 32) b |}.

(** [memcpy] of [bytes] over the start of a block. *)
Definition overlay (bytes : list Z) (b : block) : block := bytes ++ drop (length bytes) b.

(** ** Mkfs *)

(** The volume manager: the slice size when the device speaks the volume protocol,
    whether [ResetAllSlices] succeeds, and which extensions do. *)
Record Volume := {
  volume_query : option Z;
  reset_all_slices : bool;
  volume_extend : Z → Z → bool;
}.

Definition with_regions (info : Superblock) (journal data : Z) : Superblock := {|
  magic0 := info.(magic0); magic1 := info.(magic1); version := info.(version); flags := info.(flags);
  block_size := info.(block_size); data_block_count := data; journal_block_count := journal;
  inode_count := info.(inode_count); alloc_block_count := info.(alloc_block_count);
  alloc_inode_count := info.(alloc_inode_count); blob_header_next := info.(blob_header_next);
  slice_size := info.(slice_size); vslice_count := info.(vslice_count); abm_slices := info.(abm_slices);
  ino_slices := info.(ino_slices); dat_slices := info.(dat_slices); journal_slices := info.(journal_slices) |}.

Definition with_alloc_block_count (info : Superblock) (n : Z) : Superblock := {|
  magic0 := info.(magic0); magic1 := info.(magic1); version := info.(version); flags := info.(flags);
  block_size := info.(block_size); data_block_count := info.(data_block_count);
  journal_block_count := info.(journal_block_count);
  inode_count := info.(inode_count); alloc_block_count := n;
  alloc_inode_count := info.(alloc_inode_count); blob_header_next := info.(blob_header_next);
  slice_size := info.(slice_size); vslice_count := info.(vslice_count); abm_slices := info.(abm_slices);
  ino_slices := info.(ino_slices); dat_slices := info.(dat_slices); journal_slices := info.(journal_slices) |}.

(** The superblock with the whole device as data, then with the regions set. *)
Definition mkfs_initial (block_count : Z) : Superblock := {|
  magic0 := kBlobfsMagic0; magic1 := kBlobfsMagic1; version := kBlobfsVersion; flags := kBlobFlagClean;
  block_size := kBlobfsBlockSize; data_block_count := block_count; journal_block_count := 0;
  inode_count := kBlobfsDefaultInodeCount; alloc_block_count := 0; alloc_inode_count := 0;
  blob_header_next := 0; slice_size := 0; vslice_count := 0; abm_slices := 0; ino_slices := 0;
  dat_slices := 0; journal_slices := 0 |}.

Definition mkfs_regions (block_count : Z) : Superblock :=
  let info := mkfs_initial block_count in
  let usable_blocks :=
    if JournalStartBlock info <? block_count then block_count ⊟ JournalStartBlock info else 0 in
  if kDefaultJournalBlocks * 2 <=? usable_blocks then
    with_regions info kDefaultJournalBlocks (usable_blocks - kDefaultJournalBlocks)
  else if kMinimumDataBlocks + kMinimumJournalBlocks <=? usable_blocks then
    let remainder_blocks := usable_blocks - (kMinimumDataBlocks + kMinimumJournalBlocks) in
    let remainder_for_journal := remainder_blocks / 2 in
    let remainder_for_data := remainder_blocks - remainder_for_journal in
    with_regions info (kMinimumJournalBlocks + remainder_for_journal) (kMinimumDataBlocks + remainder_for_data)
  else with_regions info 0 0.

(** On a volume that speaks the FVM protocol; [None] is the return of -1. *)
Definition mkfs_fvm (vol : Volume) (info : Superblock) : outcome (option Superblock) :=
  match vol.(volume_query) with
  | None => Returns (Some info)
  | Some slice_size =>
    if negb (slice_size mod kBlobfsBlockSize =? 0) then Returns None
    else if negb vol.(reset_all_slices) then Returns None
    else
      let kBlocksPerSlice := slice_size / kBlobfsBlockSize in
      (* the divisions below *)
      _ ← ZX_ASSERT (negb (kBlocksPerSlice =? 0));
      Returns (
      if negb (vol.(volume_extend) (kFVMBlockMapStart / kBlocksPerSlice) 1) then None
      else if negb (vol.(volume_extend) (kFVMNodeMapStart / kBlocksPerSlice) 1) then None
      else
        let journal_length := round_up kDefaultJournalBlocks kBlocksPerSlice / kBlocksPerSlice in
        let journal_slices := u32 journal_length in
        if negb (vol.(volume_extend) (kFVMJournalStart / kBlocksPerSlice) journal_length) then None
        else
          let data_length := round_up kMinimumDataBlocks kBlocksPerSlice / kBlocksPerSlice in
          let dat_slices := u32 data_length in
          if negb (vol.(volume_extend) (kFVMDataStart / kBlocksPerSlice) data_length) then None
          else
            Some {|
              magic0 := info.(magic0); magic1 := info.(magic1); version := info.(version);
              flags := Z.lor info.(flags) kBlobFlagFVM; block_size := info.(block_size);
              data_block_count := u32 ((dat_slices ⊠ slice_size) / kBlobfsBlockSize);
              journal_block_count := u32 ((journal_slices ⊠ slice_size) / kBlobfsBlockSize);
              inode_count := u32 ((1 ⊠ slice_size) / kBlobfsInodeSize);
              alloc_block_count := info.(alloc_block_count); alloc_inode_count := info.(alloc_inode_count);
              blob_header_next := info.(blob_header_next); slice_size := slice_size;
              vslice_count := u32 (1 + 1 + dat_slices + journal_slices + 1);
              abm_slices := 1; ino_slices := 1; dat_slices := dat_slices;
              journal_slices := journal_slices |})
  end.

(** The result of the C function: -1 or a status; 0 is [ZX_OK]. *)
Inductive mkfs_result := MinusOne | Status (s : zx_status).

(** [GetRawBitmapData]: the [n]th block of the bitmap. *)
Definition GetRawBitmapData (bm : RawBitmapBase) (n : Z) : outcome block :=
  _ ← ZX_ASSERT (n ⊠ kBlobfsBlockSize <? bm.(size_));
  _ ← ZX_ASSERT (kBlobfsBlockSize <=? (n ⊞ 1) ⊠ kBlobfsBlockSize);
  let off := (Z.to_nat n * kBlockWords)%nat in
  if (off + kBlockWords <=? length bm.(data_))%nat then Returns (take kBlockWords (drop off bm.(data_)))
  else Aborts.

(** The loops that write the block map and the node map. *)
Fixpoint write_loop (n : nat) (i : Z) (io : Z → bool) (start : Z) (data : Z → outcome block) (err : zx_status → zx_status)
    (disk : list block) : outcome (zx_status * list block) :=
  match n with
  | O => Returns (ZX_OK, disk)
  | S n =>
    b ← data i;
    let '(status, disk) := writeblk io disk (start ⊞ i) b in
    if failed status then Returns (err status, disk) else write_loop n (i + 1) io start data err disk
  end.

Definition Mkfs (st : Storage) (io : Z → bool) (vol : Volume) (disk : list block) (block_count : Z)
    : outcome (mkfs_result * list block) :=
  info ← mkfs_fvm vol (mkfs_regions block_count);
  match info with
  | None => Returns (MinusOne, disk)
  | Some info =>
    if info.(data_block_count) <? kMinimumDataBlocks then Returns (MinusOne, disk)
    else if info.(journal_block_count) <? kMinimumJournalBlocks then Returns (MinusOne, disk)
    else
      let bbm_blocks := BlockMapBlocks info in
      let nbm_blocks := NodeMapBlocks info in
      r ← Reset st {| size_ := 0; data_ := [] |} (bbm_blocks ⊠ kBlobfsBlockBits);
      let '(status, abm) := r in
      if failed status then Returns (MinusOne, disk)
      else
        let '(status, abm) := Shrink abm info.(data_block_count) in
        if failed status then Returns (MinusOne, disk)
        else
          r ← Set_ abm 0 kStartBlockMinimum;
          let abm := snd r in
          let info := with_alloc_block_count info (info.(alloc_block_count) ⊞ kStartBlockMinimum) in
          if negb (info.(inode_count) ⊠ kBlobfsInodeSize =? nbm_blocks ⊠ kBlobfsBlockSize) then
            Returns (MinusOne, disk)
          else
            let block := overlay [kJournalMagic] zero_block in
            let '(status, disk) := writeblk io disk (JournalStartBlock info) block in
            if failed status then Returns (Status status, disk)
            else
              let block := overlay (encode_superblock info) (overlay [0] block) in
              let '(status, disk) := writeblk io disk 0 block in
              if failed status then Returns (Status status, disk)
              else
                r ← write_loop (Z.to_nat bbm_blocks) 0 io (BlockMapStartBlock info) (GetRawBitmapData abm) id disk;
                let '(status, disk) := r in
                if failed status then Returns (Status status, disk)
                else
                  r ← write_loop (Z.to_nat nbm_blocks) 0 io (NodeMapStartBlock info)
                        (λ _, Returns zero_block) (λ _, ZX_ERR_IO) disk;
                  let '(status, disk) := r in
                  Returns (Status status, disk)
  end.

(** ** Theory: the superblock in its block *)

Definition superblock_ok (info : Superblock) : Prop :=
  Forall is_word [info.(magic0); info.(magic1); info.(data_block_count); info.(journal_block_count);
    info.(inode_count); info.(alloc_block_count); info.(alloc_inode_count); info.(blob_header_next);
    info.(slice_size); info.(vslice_count)] ∧
  Forall (λ x, 0 ≤ x < 2 ^ 32) [info.(version); info.(flags); info.(block_size); info.(abm_slices);
    info.(ino_slices); info.(dat_slices); info.(journal_slices)].

Lemma halves lo hi : 0 ≤ lo < 2 ^ 32 → 0 ≤ hi < 2 ^ 32 →
  Z.land (Z.shiftr (Z.lor lo (Z.shiftl hi 32)) 0) (Z.ones 32) = lo ∧
  Z.land (Z.shiftr (Z.lor lo (Z.shiftl hi 32)) 32) (Z.ones 32) = hi.
Proof.
  intros Hl Hh. rewrite Z.shiftr_0_r, Z.shiftr_lor, Z.land_lor_distr_l, Z.shiftr_shiftl_l, Z.shiftl_0_r by lia. split.
  - rewrite land_ones_id, Z.land_ones, Z.shiftl_mul_pow2, Z.mod_mul, Z.lor_0_r by lia. done.
  - rewrite Z.land_lor_distr_l, !land_ones_id by (rewrite ?Z.shiftr_div_pow2 by lia; zlia).
    rewrite Z.shiftr_div_pow2, Z.div_small by lia. done.
Qed.

Lemma decode_encode info rest : superblock_ok info → decode_superblock (overlay (encode_superblock info) rest) = info.
Proof.
  intros [Hw Hh]. unfold decode_superblock, overlay, encode_superblock, field_get. cbn [f_word f_off f_bits app lookup list_lookup from_option id].
  repeat match goal with H : Forall _ (_ :: _) |- _ => inversion H; clear H; subst end. unfold is_word in *.
  pose proof (halves (version info) (flags info)) as [-> ->]; [done..|].
  pose proof (halves (abm_slices info) (ino_slices info)) as [-> ->]; [done..|].
  pose proof (halves (dat_slices info) (journal_slices info)) as [-> ->]; [done..|].
  rewrite !Z.shiftr_0_r, !land_ones_id by done. by destruct info.
Qed.

(** ** Theory: writing to the device *)

Lemma writeblk_ok io disk bno b :
  (∀ n, io n = true) → 0 ≤ bno < Z.of_nat (length disk) →
  writeblk io disk bno b = (ZX_OK, <[Z.to_nat bno := b]> disk).
Proof. intros Hio Hb. unfold writeblk. rewrite Hio. by ztest. Qed.

Lemma write_loop_ok n i io start data f err disk :
  (∀ m, io m = true) → (∀ k, i ≤ k < i + Z.of_nat n → data k = Returns (f k)) →
  0 ≤ start → 0 ≤ i → start + i + Z.of_nat n ≤ Z.of_nat (length disk) → Z.of_nat (length disk) < 2 ^ 63 →
  ∃ disk', write_loop n i io start data err disk = Returns (ZX_OK, disk') ∧ length disk' = length disk ∧
    ∀ k, 0 ≤ k → disk' !! Z.to_nat k =
      if (start + i <=? k) && (k <? start + i + Z.of_nat n) then Some (f (k - start)) else disk !! Z.to_nat k.
Proof.
  intros Hio. revert i disk. induction n as [|n IH]; intros i disk Hf Hs Hi Hl Hlt.
  { exists disk. split_and!; [done..|]. intros k Hk. by zcases. }
  cbn [write_loop]. rewrite Hf by lia. cbn [mbind outcome_bind]. unwrap.
  rewrite writeblk_ok, failed_ok by (done || lia).
  edestruct (IH (i + 1)) as (disk' & -> & Hlen & Hk); [intros; apply Hf; lia|lia|lia|rewrite length_insert; lia..|].
  exists disk'. rewrite length_insert in Hlen. split_and!; [done..|]. intros k Hk0. rewrite Hk by done.
  destruct (Z.eq_dec k (start + i)) as [->|Hne].
  - ztest. cbn [andb]. rewrite list_lookup_insert_eq by lia. do 2 f_equal. lia.
  - rewrite list_lookup_insert_ne by lia. by zcases.
Qed.

(** ** Theory: the regions *)

(** Blocks before the journal, with all of [n] blocks counted as data. *)
Definition pre_journal (n : Z) : Z := 257 + ceil_div n 65536.

(** The least number of blocks that Mkfs can format leaves 69 for journal and data. *)
Definition formattable (n : Z) : Prop := pre_journal n + 69 ≤ n.

Lemma JournalStartBlock_eq info :
  is_fvm info = false → info.(inode_count) = 32768 → 0 ≤ info.(data_block_count) < 2 ^ 62 →
  BlockMapStartBlock info = 1 ∧ NodeMapStartBlock info = 1 + BlockMapBlocks info ∧
  JournalStartBlock info = pre_journal info.(data_block_count) ∧ NodeMapBlocks info = 256 ∧
  BlockMapBlocks info = ceil_div info.(data_block_count) 65536.
Proof.
  intros Hf Hi Hd. pose proof (BlockMapBlocks_eq info ltac:(lia)) as Hb.
  assert (Hn : NodeMapBlocks info = 256) by (rewrite NodeMapBlocks_eq, Hi by lia; reflexivity).
  unfold JournalStartBlock, NodeMapStartBlock, BlockMapStartBlock. rewrite Hf, Hn, Hb.
  unfold pre_journal, ceil_div in *. unfold kBlobfsBlockMapStart. rewrite !u64_small by zlia. split_and!; lia.
Qed.

Lemma mkfs_regions_ok n : 0 ≤ n < 2 ^ 48 →
  (formattable n → ∃ j d, mkfs_regions n = with_regions (mkfs_initial n) j d ∧
     67 ≤ j ∧ 2 ≤ d ∧ pre_journal n + j + d = n) ∧
  (¬ formattable n → mkfs_regions n = with_regions (mkfs_initial n) 0 0).
Proof.
  intros Hn. unfold mkfs_regions, formattable.
  destruct (JournalStartBlock_eq (mkfs_initial n)) as (_ & _ & HJ & _); [done|done|cbn; lia|]. cbn [data_block_count mkfs_initial] in HJ.
  rewrite HJ. change (kDefaultJournalBlocks * 2) with 512. change kDefaultJournalBlocks with 256.
  change (kMinimumDataBlocks + kMinimumJournalBlocks) with 69. change kMinimumJournalBlocks with 67.
  change kMinimumDataBlocks with 2. assert (0 < pre_journal n) by (unfold pre_journal, ceil_div; zlia).
  destruct (Z.ltb_spec (pre_journal n) n); unwrap; ztest.
  - split; [intros Hf|intros Hf; ztest; done].
    destruct (Z.leb_spec 512 (n - pre_journal n)); ztest; do 2 eexists; (split; [done|]); zlia.
  - split; [lia|done].
Qed.

(** Every superblock made from such regions is valid on the device. *)
Lemma mkfs_superblock_ok n j d a :
  0 ≤ n < 2 ^ 48 → 67 ≤ j → 2 ≤ d → pre_journal n + j + d = n → 0 ≤ a < 2 ^ 64 →
  let info := with_alloc_block_count (with_regions (mkfs_initial n) j d) a in
  superblock_ok info ∧ CheckSuperblock info n = ZX_OK ∧ pre_journal d ≤ pre_journal n.
Proof.
  intros Hn Hj Hd Hsum Ha info. assert (Hpre : pre_journal d ≤ pre_journal n) by (unfold pre_journal, ceil_div in *; zlia).
  split; [|split; [|done]].
  - unfold pre_journal, ceil_div in Hsum. split; repeat constructor; cbn; unfold is_word; try done; zlia.
  - destruct (JournalStartBlock_eq info) as (_ & _ & _ & HN & HB); [done|done|cbn; unfold pre_journal, ceil_div in *; zlia|].
    assert (TotalBlocks info = pre_journal d + j + d) as Ht.
    { unfold TotalBlocks, TotalNonDataBlocks. rewrite HN, HB.
      unfold SuperblockBlocks, JournalBlocks, DataBlocks, kBlobfsSuperblockBlocks.
      assert (data_block_count info = d) as -> by reflexivity. assert (journal_block_count info = j) as -> by reflexivity.
      assert (0 ≤ ceil_div d 65536 ≤ d ∧ 0 ≤ ceil_div n 65536) by (unfold ceil_div, pre_journal in *; zlia).
      unfold pre_journal in *. unwrap. lia. }
    unfold CheckSuperblock. rewrite Ht. cbn -[Z.ltb pre_journal]. by ztest.
Qed.

(** Bit [k] of the bitmap whose first block is [start]. *)
Definition map_bit (disk : list block) (start k : Z) : bool :=
  match disk !! Z.to_nat (start + k / 65536) with
  | Some b => Z.testbit (default 0 (b !! Z.to_nat (k mod 65536 / 64))) (k mod 64)
  | None => false
  end.

Lemma GetRawBitmapData_ok bm n :
  raw_ok bm → 0 ≤ n → n * 65536 < bm.(size_) → 65536 * (n + 1) ≤ 64 * Z.of_nat (length bm.(data_)) → bm.(size_) < 2 ^ 63 →
  GetRawBitmapData bm n = Returns (take kBlockWords (drop (Z.to_nat n * kBlockWords) bm.(data_))).
Proof.
  intros Hok Hn Hs Hl Hlt. unfold GetRawBitmapData, ZX_ASSERT, kBlobfsBlockSize. unwrap. ztest. cbn [mbind outcome_bind].
  destruct (Nat.leb_spec (Z.to_nat n * kBlockWords + kBlockWords) (length (data_ bm))) as [|H]; [done|].
  unfold kBlockWords in H. lia.
Qed.

Lemma bitmap_block_bit data k b : 0 ≤ k →
  b = take kBlockWords (drop (Z.to_nat (k / 65536) * kBlockWords) data) →
  Z.testbit (default 0 (b !! Z.to_nat (k mod 65536 / 64))) (k mod 64) = bit data k.
Proof.
  intros Hk ->. unfold bit, word_at, kBlockWords, kBits. rewrite lookup_take_lt, lookup_drop by zlia.
  do 3 f_equal. rewrite <- (Nat2Z.id (_ + _)). f_equal. zlia.
Qed.

(** The bitmap that Mkfs writes: the first block only is allocated. *)
Lemma mkfs_bitmap st `{!AllocateOk st} d :
  (∀ old size, (st.(Allocate) old size).1 = ZX_OK) → 2 ≤ d < 2 ^ 48 →
  let bbm := ceil_div d 65536 in
  ∃ abm0 abm, Reset st {| size_ := 0; data_ := [] |} (bbm ⊠ kBlobfsBlockBits) = Returns (ZX_OK, abm0) ∧
    Shrink abm0 d = (ZX_OK, {| size_ := d; data_ := abm0.(data_) |}) ∧
    Set_ {| size_ := d; data_ := abm0.(data_) |} 0 kStartBlockMinimum = Returns (ZX_OK, abm) ∧
    raw_ok abm ∧ abm.(size_) = d ∧ 65536 * bbm ≤ 64 * Z.of_nat (length abm.(data_)) ∧
    ∀ k, 0 ≤ k < d → raw_bit abm k = (k =? 0).
Proof.
  intros Hst Hd bbm. assert (Hb : d ≤ 65536 * bbm < d + 65536) by (unfold bbm, ceil_div; zlia).
  change kBlobfsBlockBits with 65536. unwrap.
  destruct (Reset_ok st {| size_ := 0; data_ := [] |} (bbm * 65536) ltac:(lia)) as (s & abm0 & HR & Hs0 & Hok).
  assert (s = ZX_OK) as ->.
  { revert HR. unfold Reset. ztest. specialize (Hst [] (8 ⊠ (LastIdx (bbm * 65536) ⊞ 1))). cbn [data_].
    destruct (Allocate st _ _) as [s' d']. cbn in Hst. subst s'. rewrite bool_decide_true by done. cbn [negb].
    destruct (ClearAll _); cbn; congruence. }
  destruct (Hok eq_refl) as [Hraw Hall]. pose proof Hraw as (? & Hl & Hw). unfold kBits in Hl.
  destruct (Set_ok {| size_ := d; data_ := data_ abm0 |} 0 1) as (abm & HS & Hok' & Hs' & Hl' & Hbit);
    [apply raw_ok_intro; [lia|lia|done]|lia|cbn; lia|].
  exists abm0, abm. split_and!; try done.
  - unfold Shrink. rewrite Hs0. by ztest.
  - rewrite Hl'. cbn. lia.
  - intros k Hk. rewrite Hbit by lia. unfold raw_bit. cbn [data_]. fold (raw_bit abm0 k).
    rewrite Hall by lia. rewrite orb_false_r. by zcases.
Qed.

(** A device that Mkfs has formatted. *)
Definition formatted (disk disk' : list block) (info : Superblock) : Prop :=
  length disk' = length disk ∧
  (∃ b, disk' !! 0%nat = Some b ∧ decode_superblock b = info) ∧
  (∀ k, 0 ≤ k < info.(data_block_count) → map_bit disk' (BlockMapStartBlock info) k = (k =? 0)) ∧
  (∀ n, 0 ≤ n < NodeMapBlocks info → disk' !! Z.to_nat (NodeMapStartBlock info + n) = Some zero_block) ∧
  disk' !! Z.to_nat (JournalStartBlock info) = Some (overlay [kJournalMagic] zero_block) ∧
  (∀ n, JournalStartBlock info < n → disk' !! Z.to_nat n = disk !! Z.to_nat n).

Lemma Mkfs_ok st `{!AllocateOk st} io vol disk j d :
  let n := Z.of_nat (length disk) in
  (∀ old size, (st.(Allocate) old size).1 = ZX_OK) → (∀ m, io m = true) → vol.(volume_query) = None →
  n < 2 ^ 48 → mkfs_regions n = with_regions (mkfs_initial n) j d → 67 ≤ j → 2 ≤ d → pre_journal n + j + d = n →
  ∃ disk', Mkfs st io vol disk n = Returns (Status ZX_OK, disk') ∧
    formatted disk disk' (with_alloc_block_count (with_regions (mkfs_initial n) j d) 1).
Proof.
  intros n Hst Hio Hvol Hn Hreg Hj Hd Hsum. unfold Mkfs, mkfs_fvm. rewrite Hvol, Hreg. cbn [mbind outcome_bind].
  set (info0 := with_regions (mkfs_initial n) j d). set (info := with_alloc_block_count info0 1).
  assert (Hpre : 0 < pre_journal d ≤ pre_journal n) by (unfold pre_journal, ceil_div in *; zlia).
  destruct (JournalStartBlock_eq info0) as (_ & _ & _ & HN & HB); [done|done|cbn; lia|].
  destruct (JournalStartBlock_eq info) as (HBS & HNS & HJ & _ & HB'); [done|done|cbn; lia|].
  change (data_block_count info0) with d. change (journal_block_count info0) with j.
  change (alloc_block_count info0) with 0. change (0 ⊞ kStartBlockMinimum) with 1. fold info.
  change kMinimumDataBlocks with 2. change kMinimumJournalBlocks with 67. ztest.
  change (data_block_count info0) with d in HB. change (data_block_count info) with d in HB', HJ. rewrite HB, HN.
  destruct (mkfs_bitmap st d Hst ltac:(lia)) as (abm0 & abm & -> & Hsh & Hset & Hok & Hsize & Hlen & Hbits). cbn [mbind outcome_bind]. rewrite failed_ok, Hsh, failed_ok, Hset. cbn [mbind outcome_bind snd].
  change (negb (inode_count info ⊠ kBlobfsInodeSize =? 256 ⊠ kBlobfsBlockSize)) with false. cbn iota.
  unfold pre_journal in *. set (bbm := ceil_div d 65536) in *.
  assert (Hbbm : 0 < bbm ∧ 65536 * (bbm - 1) < d) by (unfold bbm, ceil_div; zlia).
  rewrite writeblk_ok, failed_ok by (done || lia). rewrite writeblk_ok, failed_ok by (rewrite ?length_insert; done || lia).
  set (disk1 := <[Z.to_nat 0 := _]> _). assert (Hd1 : length disk1 = length disk) by (unfold disk1; by rewrite !length_insert).
  destruct (write_loop_ok (Z.to_nat bbm) 0 io (BlockMapStartBlock info) (GetRawBitmapData abm)
    (λ i, take kBlockWords (drop (Z.to_nat i * kBlockWords) abm.(data_))) id disk1) as (disk2 & -> & Hl2 & H2);
    [done|intros k Hk; apply GetRawBitmapData_ok; (done || lia)|lia..|].
  cbn [mbind outcome_bind]. rewrite failed_ok.
  destruct (write_loop_ok (Z.to_nat 256) 0 io (NodeMapStartBlock info) (λ _, Returns zero_block) (λ _, zero_block)
    (λ _, ZX_ERR_IO) disk2) as (disk3 & -> & Hl3 & H3); [done|done|lia..|].
  cbn [mbind outcome_bind]. exists disk3. split; [done|].
  assert (Hkeep : ∀ k, JournalStartBlock info ≤ k → disk3 !! Z.to_nat k = disk1 !! Z.to_nat k).
  { intros k Hk. rewrite H3, H2 by lia. by ztest. }
  split_and!.
  - lia.
  - exists (overlay (encode_superblock info) (overlay [0] (overlay [kJournalMagic] zero_block))). split.
    + change 0%nat with (Z.to_nat 0). rewrite H3, H2 by lia. ztest. cbn [andb]. unfold disk1.
      apply list_lookup_insert_eq. rewrite length_insert. lia.
    + apply decode_encode. apply (mkfs_superblock_ok n j d 1); unfold pre_journal; lia.
  - intros k Hk. change (data_block_count info) with d in Hk. unfold map_bit.
    assert (0 ≤ k / 65536 < bbm) by (unfold bbm, ceil_div in *; zlia). rewrite H3, H2 by lia. ztest. cbn [andb].
    rewrite (bitmap_block_bit abm.(data_)); [by apply Hbits|lia|]. do 3 f_equal. lia.
  - intros i Hi. replace (NodeMapBlocks info) with 256 in Hi by done. rewrite H3 by lia. by ztest.
  - rewrite Hkeep by lia. unfold disk1. rewrite list_lookup_insert_ne by lia. apply list_lookup_insert_eq. lia.
  - intros k Hk. rewrite Hkeep by lia. unfold disk1. by rewrite !list_lookup_insert_ne by lia.
Qed.

(** ** Theorems *)



(** What the check of a superblock establishes.  For a superblock whose counts do
    not overflow, [CheckSuperblock] accepts only the right magic, version and block
    size, and then the regions follow each other without overlap: without FVM the
    block map, node map, journal and data fit in the device in this order; with FVM
    the block map ends before the node map and the node map before the data, the
    slices hold what they are for, and data blocks are numbered in 32 bits. *)
Theorem check_superblock_layout (info : Superblock) (max : Z) :
  superblock_ok info → info.(data_block_count) < 2 ^ 60 → info.(inode_count) < 2 ^ 60 →
  info.(journal_block_count) < 2 ^ 60 → info.(slice_size) < 2 ^ 28 →
  CheckSuperblock info max = ZX_OK →
  info.(magic0) = kBlobfsMagic0 ∧ info.(magic1) = kBlobfsMagic1 ∧ info.(version) = kBlobfsVersion ∧
  info.(block_size) = kBlobfsBlockSize ∧ info.(blob_header_next) = 0 ∧
  BlockMapStartBlock info + BlockMapBlocks info ≤ NodeMapStartBlock info ∧
  NodeMapStartBlock info + NodeMapBlocks info ≤ DataStartBlock info ∧
  info.(data_block_count) ≤ 65536 * BlockMapBlocks info ∧ info.(inode_count) ≤ 128 * NodeMapBlocks info ∧
  (is_fvm info = false →
     NodeMapStartBlock info + NodeMapBlocks info = JournalStartBlock info ∧
     JournalStartBlock info + info.(journal_block_count) = DataStartBlock info ∧
     DataStartBlock info + info.(data_block_count) ≤ max) ∧
  (is_fvm info = true →
     1 ≤ info.(data_block_count) ≤ info.(dat_slices) * (info.(slice_size) / kBlobfsBlockSize) ∧
     DataStartBlock info + info.(data_block_count) ≤ UINT32_MAX).
Proof.
  intros [Hw Hh] Hd Hi Hj Hs.
  repeat match goal with H : Forall _ (_ :: _) |- _ => inversion H; clear H; subst end. unfold is_word in *.
  pose proof (BlockMapBlocks_eq info ltac:(lia)) as HB. pose proof (NodeMapBlocks_eq info ltac:(lia)) as HN.
  assert (HB' : 0 ≤ BlockMapBlocks info ≤ info.(data_block_count) ∧ info.(data_block_count) ≤ 65536 * BlockMapBlocks info)
    by (rewrite HB; unfold ceil_div; zlia).
  assert (HN' : 0 ≤ NodeMapBlocks info ≤ info.(inode_count) ∧ info.(inode_count) ≤ 128 * NodeMapBlocks info)
    by (rewrite HN; unfold ceil_div; zlia).
  clear HB HN. unfold CheckSuperblock.
  destruct (Z.eqb_spec (magic0 info) kBlobfsMagic0); [|done]. destruct (Z.eqb_spec (magic1 info) kBlobfsMagic1); [|done].
  destruct (Z.eqb_spec (version info) kBlobfsVersion); [|done].
  destruct (Z.eqb_spec (block_size info) kBlobfsBlockSize) as [Hbs|]; [|done]. cbn [negb orb].
  unfold DataStartBlock, JournalStartBlock, NodeMapStartBlock, BlockMapStartBlock. rewrite Hbs. unfold kBlobfsBlockSize.
  assert (Hps : 0 ≤ slice_size info / 8192 < 2 ^ 16) by zlia. set (bps := slice_size info / 8192) in *.
  destruct (is_fvm info); cbn [negb].
  - unfold DataBlocks, kStartBlockMinimum, kFVMBlockMapStart, kFVMNodeMapStart, kFVMDataStart, kFVMJournalStart, UINT32_MAX.
    rewrite !(u64_small (_ * bps)) by nia. rewrite !u64_small by nia.
    repeat match goal with |- context [if ?a <? ?b then _ else _] => destruct (Z.ltb_spec a b); [done|]
      | |- context [if ?a <=? ?b then _ else _] => destruct (Z.leb_spec a b); [done|] end.
    destruct (Z.eqb_spec (blob_header_next info) 0); [|done]. intros _. split_and!; try done; lia.
  - unfold TotalBlocks, TotalNonDataBlocks, SuperblockBlocks, JournalBlocks, DataBlocks, kBlobfsSuperblockBlocks, kBlobfsBlockMapStart.
    unwrap. destruct (Z.ltb_spec max (1 + BlockMapBlocks info + NodeMapBlocks info + journal_block_count info + data_block_count info)); [done|].
    destruct (Z.eqb_spec (blob_header_next info) 0); [|done]. intros _. split_and!; try done; lia.
Qed.

(** The superblock of a formatted device of 400 blocks. *)
Definition example_superblock : Superblock := with_alloc_block_count (with_regions (mkfs_initial 400) 70 72) 1.

Definition with_fvm_slices (info : Superblock) (inodes slice abm ino dat : Z) : Superblock := {|
  magic0 := info.(magic0); magic1 := info.(magic1); version := info.(version);
  flags := Z.lor info.(flags) kBlobFlagFVM; block_size := info.(block_size);
  data_block_count := info.(data_block_count); journal_block_count := info.(journal_block_count);
  inode_count := inodes; alloc_block_count := info.(alloc_block_count);
  alloc_inode_count := info.(alloc_inode_count); blob_header_next := info.(blob_header_next);
  slice_size := slice; vslice_count := info.(vslice_count); abm_slices := abm;
  ino_slices := ino; dat_slices := dat; journal_slices := info.(journal_slices) |}.

(** Two superblocks the check lets through.  [TotalBlocks] wraps around at 64 bits,
    so that a volume of more than 2^63 data blocks is accepted on a device of 400; and
    on an FVM volume the end of the node map is compared with the start of the data
    and not of the journal, so that a node map over the journal is accepted. *)
Theorem check_superblock_gaps :
  (∃ info, superblock_ok info ∧ CheckSuperblock info 400 = ZX_OK ∧ 2 ^ 63 < info.(data_block_count)) ∧
  (∃ info, superblock_ok info ∧ is_fvm info = true ∧ CheckSuperblock info 400 = ZX_OK ∧
     JournalStartBlock info < NodeMapStartBlock info + NodeMapBlocks info).
Proof.
  split.
  - exists (with_regions example_superblock 70 (2 ^ 64 - 1)).
    split; [split; repeat constructor; vm_compute; discriminate|]. vm_compute. split; reflexivity.
  - exists (with_fvm_slices example_superblock (128 * 0x10001) 8192 2 0x10001 72).
    split; [split; repeat constructor; vm_compute; discriminate|]. vm_compute. split_and!; reflexivity.
Qed.
