(* ===== verification/Reservers.v ===== *)
(** * Reservations (ulib/blobfs/extent-reserver.cpp, node-reserver.cpp)

    Blocks and nodes that an operation in progress has taken and not yet written to
    the maps.  The reserver holds a run-length bitmap; a [ReservedExtent] or
    [ReservedNode] is a handle that gives its reservation back when it is destroyed.
    [alloc] says whether the bitmap's allocations succeed. *)

From S2P Require Import Prelude Bitmap RleBitmap Format.

(** ** Extents *)

Section reservers.
Context (alloc : bool).

(** The member [reserved_blocks_] is the whole state of an [ExtentReserver]. *)
Definition ExtentReserver := RleBitmap.

Definition ExtentReserver_Reserve (r : ExtentReserver) (extent : Extent) : outcome ExtentReserver :=
  _ ← ZX_DEBUG_ASSERT (0 <? Length extent);
  p ← RleBitmap.Set_ alloc r (Start extent) (Start extent ⊞ Length extent);
  let '(status, r) := p in
  _ ← ZX_DEBUG_ASSERT (bool_decide (status = ZX_OK));
  Returns r.

Definition ExtentReserver_Unreserve (r : ExtentReserver) (extent : Extent) : outcome ExtentReserver :=
  p ← RleBitmap.Find r true (Start extent) (Start extent ⊞ Length extent) (Length extent) (Some 0);
  _ ← ZX_DEBUG_ASSERT (bool_decide (fst p = ZX_OK));
  p ← RleBitmap.Clear alloc r (Start extent) (Start extent ⊞ Length extent);
  let '(status, r) := p in
  _ ← ZX_DEBUG_ASSERT (bool_decide (status = ZX_OK));
  Returns r.

Definition ReservedBlockCount (r : ExtentReserver) : Z := num_bits r.

(** The handle; [reserved] says that the pointer to the reserver is not null. *)
Record ReservedExtent := { reserved : bool; extent_ : Extent }.

Definition NewReservedExtent (r : ExtentReserver) (extent : Extent) : outcome (ReservedExtent * ExtentReserver) :=
  r ← ExtentReserver_Reserve r extent;
  Returns ({| reserved := true; extent_ := extent |}, r).

Definition extent (e : ReservedExtent) : outcome Extent :=
  _ ← ZX_DEBUG_ASSERT e.(reserved);
  Returns e.(extent_).

Definition ReservedExtent_Release (e : ReservedExtent) : ReservedExtent :=
  {| reserved := false; extent_ := e.(extent_) |}.

(** Also the destructor. *)
Definition ReservedExtent_Reset (r : ExtentReserver) (e : ReservedExtent) : outcome (ReservedExtent * ExtentReserver) :=
  r ← (if e.(reserved) then x ← extent e; ExtentReserver_Unreserve r x else Returns r);
  Returns (ReservedExtent_Release e, r).

(** The move constructor: the new handle and what is left of the old one. *)
Definition ReservedExtent_move (o : ReservedExtent) : ReservedExtent * ReservedExtent :=
  ({| reserved := o.(reserved); extent_ := o.(extent_) |}, ReservedExtent_Release o).

(** Move assignment to [e]. *)
Definition ReservedExtent_assign (r : ExtentReserver) (e o : ReservedExtent)
    : outcome (ReservedExtent * ReservedExtent * ExtentReserver) :=
  p ← ReservedExtent_Reset r e;
  Returns ({| reserved := o.(reserved); extent_ := o.(extent_) |}, ReservedExtent_Release o, snd p).

(** What [e] retains, and the handle of the rest. *)
Definition SplitAt (r : ExtentReserver) (e : ReservedExtent) (block_split : Z)
    : outcome (ReservedExtent * ReservedExtent * ExtentReserver) :=
  _ ← ZX_DEBUG_ASSERT e.(reserved);
  _ ← ZX_DEBUG_ASSERT (block_split <? Length e.(extent_));
  latter ← NewExtent (Start e.(extent_) ⊞ block_split) (u16 (Length e.(extent_) - block_split));
  let e := {| reserved := e.(reserved); extent_ := SetLength e.(extent_) block_split |} in
  p ← NewReservedExtent r latter;
  Returns (e, fst p, snd p).

(** The destruction of a vector of handles. *)
Fixpoint reset_extents (r : ExtentReserver) (es : list ReservedExtent) : outcome ExtentReserver :=
  match es with
  | [] => Returns r
  | e :: es => p ← ReservedExtent_Reset r e; reset_extents (snd p) es
  end.

(** ** Nodes *)

Definition NodeReserver := RleBitmap.

(** [node_index + 1] is a sum of 32 bits. *)
Definition IsNodeReserved (r : NodeReserver) (node_index : Z) : outcome bool :=
  p ← RleBitmap.Get r node_index (u32 (node_index + 1)); Returns (fst p).

Definition NodeReserver_Reserve (r : NodeReserver) (node_index : Z) : outcome NodeReserver :=
  p ← RleBitmap.Get r node_index (u32 (node_index + 1));
  _ ← ZX_DEBUG_ASSERT (negb (fst p));
  p ← RleBitmap.Set_ alloc r node_index (u32 (node_index + 1));
  Returns (snd p).

Definition NodeReserver_Unreserve (r : NodeReserver) (node_index : Z) : outcome NodeReserver :=
  p ← RleBitmap.Get r node_index (u32 (node_index + 1));
  _ ← ZX_DEBUG_ASSERT (fst p);
  p ← RleBitmap.Clear alloc r node_index (u32 (node_index + 1));
  let '(status, r) := p in
  _ ← ZX_DEBUG_ASSERT (bool_decide (status = ZX_OK));
  Returns r.

Definition ReservedNodeCount (r : NodeReserver) : outcome Z :=
  _ ← ZX_DEBUG_ASSERT (num_bits r <? 2 ^ 32 - 1);
  Returns (u32 (num_bits r)).

Record ReservedNode := { node_reserved : bool; node_ : Z }.

Definition NewReservedNode (r : NodeReserver) (node : Z) : outcome (ReservedNode * NodeReserver) :=
  r ← NodeReserver_Reserve r node;
  Returns ({| node_reserved := true; node_ := node |}, r).

Definition index (n : ReservedNode) : outcome Z :=
  _ ← ZX_DEBUG_ASSERT n.(node_reserved);
  Returns n.(node_).

Definition ReservedNode_Release (n : ReservedNode) : ReservedNode :=
  {| node_reserved := false; node_ := n.(node_) |}.

Definition ReservedNode_Reset (r : NodeReserver) (n : ReservedNode) : outcome (ReservedNode * NodeReserver) :=
  r ← (if n.(node_reserved) then i ← index n; NodeReserver_Unreserve r i else Returns r);
  Returns (ReservedNode_Release n, r).

Definition ReservedNode_move (o : ReservedNode) : ReservedNode * ReservedNode :=
  ({| node_reserved := o.(node_reserved); node_ := o.(node_) |}, ReservedNode_Release o).

Definition ReservedNode_assign (r : NodeReserver) (n o : ReservedNode)
    : outcome (ReservedNode * ReservedNode * NodeReserver) :=
  p ← ReservedNode_Reset r n;
  Returns ({| node_reserved := o.(node_reserved); node_ := o.(node_) |}, ReservedNode_Release o, snd p).

Fixpoint reset_nodes (r : NodeReserver) (ns : list ReservedNode) : outcome NodeReserver :=
  match ns with
  | [] => Returns r
  | n :: ns => p ← ReservedNode_Reset r n; reset_nodes (snd p) ns
  end.

End reservers.

(** ** Theory *)

Definition in_extent (e : Extent) (k : Z) : bool := (Start e <=? k) && (k <? Start e + Length e).

Definition in_extents (es : list Extent) (k : Z) : bool := existsb (λ e, in_extent e k) es.

Lemma extent_end e : 0 ≤ Start e < 2 ^ 48 ∧ 0 ≤ Length e < 2 ^ 16 ∧ Start e ⊞ Length e = Start e + Length e.
Proof. pose proof (Start_range e). pose proof (Length_range e). split_and!; try lia. by unwrap. Qed.

Lemma rle_ext (r r' : RleBitmap) : rle_ok r → rle_ok r' → (∀ k, rle_bit r k = rle_bit r' k) → r = r'.
Proof.
  intros (Hr & Hn & Hb) (Hr' & Hn' & Hb') H. pose proof (runs_canonical _ _ _ _ Hr Hr' H).
  destruct r, r'. cbn in *. congruence.
Qed.

Lemma Reserve_ok r e : rle_ok r → 0 < Length e →
  ∃ r', ExtentReserver_Reserve true r e = Returns r' ∧ rle_ok r' ∧
    ∀ k, rle_bit r' k = in_extent e k || rle_bit r k.
Proof.
  intros Hok He. pose proof (extent_end e) as (Hs & Hl & Hend).
  unfold ExtentReserver_Reserve, ZX_DEBUG_ASSERT. ztest. cbn [mbind outcome_bind]. rewrite Hend.
  destruct (rle_Set_ok true r (Start e) (Start e + Length e)) as (st & r' & -> & Hok' & Hb & Hf); [done|lia..|].
  cbn [mbind outcome_bind]. destruct (decide (st = ZX_OK)) as [->|Hne]; [|by destruct (Hf Hne)].
  exists r'. split_and!; [done..|]. intros k. by apply Hb.
Qed.

Lemma Unreserve_ok r e : rle_ok r → 0 < Length e → (∀ k, in_extent e k = true → rle_bit r k = true) →
  ∃ r', ExtentReserver_Unreserve true r e = Returns r' ∧ rle_ok r' ∧
    ∀ k, rle_bit r' k = negb (in_extent e k) && rle_bit r k.
Proof.
  intros Hok He Hin. pose proof (extent_end e) as (Hs & Hl & Hend).
  unfold ExtentReserver_Unreserve, ZX_DEBUG_ASSERT. rewrite Hend.
  destruct (rle_Find_ok r true (Start e) (Start e + Length e) (Length e) 0) as (st & out & -> & Hfind); [done|lia..|].
  unfold first_run in Hfind. cbn [mbind outcome_bind fst snd] in *. destruct Hfind as [(-> & _ & _)|(_ & _ & Hno)].
  2:{ destruct (Hno (Start e)). split; [lia|]. split; [lia|]. intros k Hk. apply Hin. unfold in_extent. by ztest. }
  rewrite bool_decide_true by done. cbn [mbind outcome_bind].
  destruct (rle_Clear_ok true r (Start e) (Start e + Length e)) as (st & r' & -> & Hok' & Hb & Hf); [done|lia..|].
  cbn [mbind outcome_bind]. destruct (decide (st = ZX_OK)) as [->|Hne]; [|by destruct (Hf Hne)].
  exists r'. split_and!; [done..|]. intros k. by apply Hb.
Qed.

(** Reserving what was not reserved and giving it back changes nothing. *)
Lemma reserve_cancel r r1 r2 e :
  rle_ok r → 0 < Length e → (∀ k, in_extent e k = true → rle_bit r k = false) →
  ExtentReserver_Reserve true r e = Returns r1 → ExtentReserver_Unreserve true r1 e = Returns r2 → r2 = r.
Proof.
  intros Hok He Hfree H1 H2. destruct (Reserve_ok r e Hok He) as (r1' & E1 & Hok1 & Hb1). rewrite E1 in H1. injection H1 as <-.
  destruct (Unreserve_ok r1' e Hok1 He) as (r2' & E2 & Hok2 & Hb2); [intros k Hk; by rewrite Hb1, Hk|].
  rewrite E2 in H2. injection H2 as <-. apply rle_ext; [done..|]. intros k. rewrite Hb2, Hb1.
  specialize (Hfree k). destruct (in_extent e k); [by rewrite Hfree|done].
Qed.

(** The counter is the number of reserved blocks. *)
Lemma runs_tally l lo hi : runs lo l → (∀ e, e ∈ l → fend e ≤ hi) → tally (in_runs l) lo hi = total l.
Proof.
  revert lo. induction l as [|e l IH]; intros lo Hr Hhi.
  { destruct (Z.le_gt_cases lo hi); [|rewrite tally_empty; [done|lia]]. by apply (tally_const _ _ _ false). }
  pose proof Hr as (Hlo & Hlen & Hend & Hr'). assert (fend e ≤ hi) by (apply Hhi; left). rewrite total_cons.
  rewrite (tally_split _ lo (bitoff e) hi), (tally_split _ (bitoff e) (fend e) hi) by (unfold fend in *; lia).
  rewrite (tally_const _ lo (bitoff e) false), (tally_const _ (bitoff e) (fend e) true);
    [..|unfold fend; lia| |lia|].
  - assert (tally (in_runs (e :: l)) (fend e) hi = total l) as ->; [|unfold fend; lia].
    destruct (Z.eq_dec (fend e) hi) as [E|].
    + rewrite tally_empty by lia. destruct l as [|e' l]; [done|]. destruct Hr' as (? & ? & _).
      pose proof (Hhi e' ltac:(right; left)). unfold fend in *. lia.
    + rewrite (tally_split _ _ (fend e + 1)) by lia. rewrite (tally_const _ (fend e) (fend e + 1) false); [|lia|].
      * rewrite <- (IH (fend e + 1) Hr') by (intros; apply Hhi; by right). rewrite Z.add_0_l. apply tally_ext.
        intros k Hk. rewrite in_runs_cons. unfold in_elem. ztest. by rewrite andb_false_r.
      * intros k Hk. rewrite (runs_head _ _ _ _ Hr) by lia. unfold in_elem. ztest. by rewrite andb_false_r.
  - intros k Hk. rewrite (runs_head _ _ _ _ Hr) by lia. unfold in_elem. by ztest.
  - intros k Hk. rewrite (runs_head _ _ _ _ Hr) by (unfold fend; lia). unfold in_elem. by ztest.
Qed.

Lemma ReservedBlockCount_tally r hi : rle_ok r → (∀ k, hi ≤ k → rle_bit r k = false) → 0 ≤ hi →
  ReservedBlockCount r = tally (rle_bit r) 0 hi.
Proof.
  intros (Hr & _ & Hn) Hhi H0. unfold ReservedBlockCount, num_bits. rewrite Hn. symmetry. apply runs_tally; [done|].
  intros e He. destruct (Z.le_gt_cases (fend e) hi) as [|Hgt]; [done|exfalso].
  apply list_elem_of_split in He as (l1 & l2 & Hl). rewrite Hl in Hr.
  apply runs_app in Hr as [H1 (? & ? & _)]. pose proof (after_ge _ _ H1).
  specialize (Hhi (Z.max (bitoff e) (fend e - 1)) ltac:(unfold fend in *; lia)).
  revert Hhi. unfold rle_bit. rewrite Hl, in_runs_app, in_runs_cons. unfold in_elem, fend in *. ztest.
  by rewrite orb_true_r.
Qed.

Lemma tally_extent e hi : Start e + Length e ≤ hi → tally (in_extent e) 0 hi = Length e.
Proof.
  intros Hhi. pose proof (extent_end e) as (Hs & Hl & _).
  rewrite (tally_split _ 0 (Start e)), (tally_split _ (Start e) (Start e + Length e) hi) by lia.
  rewrite (tally_const _ 0 (Start e) false), (tally_const _ (Start e) _ true), (tally_const _ (Start e + Length e) _ false);
    try lia; intros k Hk; unfold in_extent; ztest; by rewrite ?andb_false_r.
Qed.

Lemma rle_bit_high r k : rle_ok r → 2 ^ 64 ≤ k → rle_bit r k = false.
Proof. intros (Hr & _) Hk. by apply (runs_above 0). Qed.

(** Reserving free blocks adds their number to the counter. *)
Lemma reserve_count r r' e : rle_ok r → rle_ok r' → (∀ k, rle_bit r' k = in_extent e k || rle_bit r k) →
  (∀ k, in_extent e k = true → rle_bit r k = false) → ReservedBlockCount r' = ReservedBlockCount r + Length e.
Proof.
  intros Hok Hok' Hb Hfree. pose proof (extent_end e) as (Hs & Hl & _).
  rewrite (ReservedBlockCount_tally r' (2 ^ 64)), (ReservedBlockCount_tally r (2 ^ 64)) by
    (done || lia || (intros; by apply rle_bit_high)).
  rewrite (tally_ext _ _ _ _ (λ k _, Hb k)), tally_disjoint by (intros k _; specialize (Hfree k); destruct (in_extent e k); auto).
  rewrite tally_extent by lia. lia.
Qed.

Lemma NewReservedExtent_ok r e : rle_ok r → 0 < Length e →
  ∃ r', NewReservedExtent true r e = Returns ({| reserved := true; extent_ := e |}, r') ∧ rle_ok r' ∧
    ∀ k, rle_bit r' k = in_extent e k || rle_bit r k.
Proof.
  intros Hok He. destruct (Reserve_ok r e Hok He) as (r' & E & Hok' & Hb).
  exists r'. unfold NewReservedExtent. by rewrite E.
Qed.

(** Handles of disjoint extents that are all reserved. *)
Fixpoint handles (r : Z → bool) (es : list ReservedExtent) : Prop :=
  match es with
  | [] => True
  | e :: es => e.(reserved) = true ∧ 0 < Length e.(extent_) ∧
      (∀ k, in_extent e.(extent_) k = true → r k = true) ∧
      handles (λ k, r k && negb (in_extent e.(extent_) k)) es
  end.

Lemma handles_ext f g es : (∀ k, f k = g k) → handles f es → handles g es.
Proof.
  revert f g. induction es as [|e es IH]; intros f g Hfg; [done|]. cbn. intros (? & ? & Hin & Hh).
  split_and!; [done..| |]; [intros k Hk; rewrite <- Hfg; auto|].
  eapply IH; [|exact Hh]. intros k. cbn. by rewrite Hfg.
Qed.

(** The destruction of a vector gives back its blocks and no others. *)
Lemma reset_extents_ok r es : rle_ok r → handles (rle_bit r) es →
  ∃ r', reset_extents true r es = Returns r' ∧ rle_ok r' ∧
    ∀ k, rle_bit r' k = rle_bit r k && negb (in_extents (map extent_ es) k).
Proof.
  revert r. induction es as [|e es IH]; intros r Hok Hh.
  { exists r. split_and!; [done..|]. intros k. by rewrite andb_true_r. }
  destruct Hh as (Hres & He & Hin & Hh). cbn [reset_extents]. unfold ReservedExtent_Reset, extent, ZX_DEBUG_ASSERT.
  rewrite Hres. cbn [mbind outcome_bind].
  destruct (Unreserve_ok r (extent_ e) Hok He Hin) as (r1 & -> & Hok1 & Hb1). cbn [mbind outcome_bind snd].
  destruct (IH r1 Hok1) as (r2 & -> & Hok2 & Hb2).
  { eapply handles_ext; [|exact Hh]. intros k. rewrite Hb1. apply andb_comm. }
  exists r2. split_and!; [done..|]. intros k. rewrite Hb2, Hb1. cbn. fold (in_extents (map extent_ es) k).
  rewrite negb_orb. btauto.
Qed.

Lemma IsNodeReserved_ok r i : rle_ok r → 0 ≤ i < 2 ^ 32 - 1 → IsNodeReserved r i = Returns (rle_bit r i).
Proof.
  intros Hok Hi. unfold IsNodeReserved. unwrap.
  destruct (rle_Get_ok r i (i + 1)) as (b & x & -> & Hb & _ & Hf); [done|lia|]. cbn [mbind outcome_bind fst].
  f_equal. destruct b, (rle_bit r i) eqn:E; try done.
  - rewrite <- E. symmetry. apply Hb; [done|lia].
  - destruct Hf as (? & Hx & _); [done|]. replace x with i in Hx by lia. congruence.
Qed.

Lemma NodeReserver_Reserve_ok r i : rle_ok r → 0 ≤ i < 2 ^ 32 - 1 → rle_bit r i = false →
  ∃ r', NodeReserver_Reserve true r i = Returns r' ∧ rle_ok r' ∧ ∀ k, rle_bit r' k = (k =? i) || rle_bit r k.
Proof.
  intros Hok Hi Hb. pose proof (IsNodeReserved_ok r i Hok Hi) as Hg. unfold IsNodeReserved in Hg.
  unfold NodeReserver_Reserve, ZX_DEBUG_ASSERT. destruct (RleBitmap.Get r i _) as [p| |]; cbn in Hg; try done.
  injection Hg as Hg. rewrite Hb in Hg. cbn [mbind outcome_bind]. rewrite Hg. cbn [negb mbind outcome_bind]. unwrap.
  destruct (rle_Set_ok true r i (i + 1)) as (st & r' & -> & Hok' & Hs & Hf); [done|lia..|].
  destruct (decide (st = ZX_OK)) as [->|Hne]; [|by destruct (Hf Hne)].
  exists r'. split_and!; [done..|]. intros k. rewrite Hs by done. f_equal. zcases.
Qed.

Lemma NodeReserver_Unreserve_ok r i : rle_ok r → 0 ≤ i < 2 ^ 32 - 1 → rle_bit r i = true →
  ∃ r', NodeReserver_Unreserve true r i = Returns r' ∧ rle_ok r' ∧ ∀ k, rle_bit r' k = negb (k =? i) && rle_bit r k.
Proof.
  intros Hok Hi Hb. pose proof (IsNodeReserved_ok r i Hok Hi) as Hg. unfold IsNodeReserved in Hg.
  unfold NodeReserver_Unreserve, ZX_DEBUG_ASSERT. destruct (RleBitmap.Get r i _) as [p| |]; cbn in Hg; try done.
  injection Hg as Hg. rewrite Hb in Hg. cbn [mbind outcome_bind]. rewrite Hg. cbn [mbind outcome_bind]. unwrap.
  destruct (rle_Clear_ok true r i (i + 1)) as (st & r' & -> & Hok' & Hs & Hf); [done|lia..|].
  destruct (decide (st = ZX_OK)) as [->|Hne]; [|by destruct (Hf Hne)].
  exists r'. split_and!; [done..|]. intros k. rewrite Hs by done. do 2 f_equal. zcases.
Qed.

(** ** Theorems *)

(** A reservation is exact and reversible.  Reserving a non-empty extent of blocks
    that nobody has reserved succeeds, adds exactly its blocks to the reserved ones and
    its length to [ReservedBlockCount]; destroying the handle gives back the very
    reserver that was there before. *)
Theorem reservation_exact (r : ExtentReserver) (e : Extent) :
  rle_ok r → 0 < Length e → (∀ k, in_extent e k = true → rle_bit r k = false) →
  ∃ h r', NewReservedExtent true r e = Returns (h, r') ∧ rle_ok r' ∧
    (∀ k, rle_bit r' k = in_extent e k || rle_bit r k) ∧
    ReservedBlockCount r' = ReservedBlockCount r + Length e ∧
    ReservedExtent_Reset true r' h = Returns (ReservedExtent_Release h, r).
Proof.
  intros Hok He Hfree. destruct (NewReservedExtent_ok r e Hok He) as (r' & E & Hok' & Hb).
  do 2 eexists. split_and!; [exact E|done|done|..].
  - by apply reserve_count.
  - unfold ReservedExtent_Reset, extent. cbn [reserved extent_ ZX_DEBUG_ASSERT mbind outcome_bind].
    destruct (Unreserve_ok r' e Hok' He) as (r2 & E2 & _); [intros k Hk; by rewrite Hb, Hk|].
    rewrite E2. cbn [mbind outcome_bind]. do 2 f_equal.
    eapply (reserve_cancel r r' r2 e Hok He Hfree); [|exact E2].
    unfold NewReservedExtent in E. destruct (ExtentReserver_Reserve true r e); cbn in E; congruence.
Qed.

(** [SplitAt] cuts a reservation in two.  At a point inside the extent it gives two
    handles whose extents follow each other and make up the old one, and the reserved
    blocks stay as they were. *)
Theorem split_reservation (r : ExtentReserver) (h : ReservedExtent) (n : Z) :
  rle_ok r → h.(reserved) = true → 0 ≤ h.(extent_) < 2 ^ 64 → Start h.(extent_) + Length h.(extent_) < 2 ^ 48 →
  (∀ k, in_extent h.(extent_) k = true → rle_bit r k = true) → 0 < n < Length h.(extent_) →
  ∃ h1 h2, SplitAt true r h n = Returns (h1, h2, r) ∧ h1.(reserved) = true ∧ h2.(reserved) = true ∧
    Start h1.(extent_) = Start h.(extent_) ∧ Length h1.(extent_) = n ∧
    Start h2.(extent_) = Start h.(extent_) + n ∧ Length h2.(extent_) = Length h.(extent_) - n.
Proof.
  destruct h as [rs e]. cbn. intros Hok -> Hword Hlt Hin Hn. pose proof (extent_end e) as (Hs & Hl & _).
  unfold SplitAt, ZX_DEBUG_ASSERT. cbn [reserved extent_]. ztest. cbn [mbind outcome_bind]. unwrap.
  destruct (NewExtent_ok (Start e + n) (Length e - n)) as (e2 & -> & _ & Hs2 & Hl2); [lia..|]. cbn [mbind outcome_bind].
  destruct (SetLength_ok e n) as (_ & Hs1 & Hl1); [lia..|].
  destruct (NewReservedExtent_ok r e2 Hok) as (r' & -> & Hok' & Hb); [lia|]. cbn [mbind outcome_bind fst snd].
  assert (r' = r) as ->; [|by eexists _, _].
  apply rle_ext; [done..|]. intros k. rewrite Hb. specialize (Hin k). revert Hin.
  unfold in_extent. rewrite Hs2, Hl2. zcases; intros Hin; try done; rewrite Hin; done.
Qed.

