(* ===== verification/Allocator.v ===== *)
(** * The allocator (ulib/blobfs/allocator.cpp)

    Blocks and nodes: the block bitmap, the node map with its id allocator, and the
    reservations.  [SpaceManager] is the interface through which the allocator
    extends the volume; its laws say what the allocator relies on. *)

From S2P Require Import Prelude Bitmap RawBitmap RleBitmap IdAllocator Format Reservers MerkleTree.

(** ** The space manager *)

Class SpaceManager (SM : Type) := {
  Info : SM → Superblock;
  AddInodes : SM → list Inode → outcome (zx_status * SM * list Inode);
  AddBlocks : SM → Z → RawBitmapBase → outcome (zx_status * SM * RawBitmapBase);
}.

(** ** State *)

Record Allocator := {
  block_map_ : RawBitmapBase;
  node_map_ : list Inode;
  node_bitmap_ : IdAllocator;
  reserved_blocks_ : RleBitmap;
  reserved_nodes_ : RleBitmap;
  log_allocation_failure_ : bool;
}.

Definition with_block_map (a : Allocator) (m : RawBitmapBase) : Allocator := {|
  block_map_ := m; node_map_ := a.(node_map_); node_bitmap_ := a.(node_bitmap_);
  reserved_blocks_ := a.(reserved_blocks_); reserved_nodes_ := a.(reserved_nodes_);
  log_allocation_failure_ := a.(log_allocation_failure_) |}.

Definition with_node_map (a : Allocator) (m : list Inode) : Allocator := {|
  block_map_ := a.(block_map_); node_map_ := m; node_bitmap_ := a.(node_bitmap_);
  reserved_blocks_ := a.(reserved_blocks_); reserved_nodes_ := a.(reserved_nodes_);
  log_allocation_failure_ := a.(log_allocation_failure_) |}.

Definition with_node_bitmap (a : Allocator) (s : IdAllocator) : Allocator := {|
  block_map_ := a.(block_map_); node_map_ := a.(node_map_); node_bitmap_ := s;
  reserved_blocks_ := a.(reserved_blocks_); reserved_nodes_ := a.(reserved_nodes_);
  log_allocation_failure_ := a.(log_allocation_failure_) |}.

Definition with_reserved_blocks (a : Allocator) (r : RleBitmap) : Allocator := {|
  block_map_ := a.(block_map_); node_map_ := a.(node_map_); node_bitmap_ := a.(node_bitmap_);
  reserved_blocks_ := r; reserved_nodes_ := a.(reserved_nodes_);
  log_allocation_failure_ := a.(log_allocation_failure_) |}.

Definition with_reserved_nodes (a : Allocator) (r : RleBitmap) : Allocator := {|
  block_map_ := a.(block_map_); node_map_ := a.(node_map_); node_bitmap_ := a.(node_bitmap_);
  reserved_blocks_ := a.(reserved_blocks_); reserved_nodes_ := r;
  log_allocation_failure_ := a.(log_allocation_failure_) |}.

Definition SetLogging (a : Allocator) (enable : bool) : Allocator := {|
  block_map_ := a.(block_map_); node_map_ := a.(node_map_); node_bitmap_ := a.(node_bitmap_);
  reserved_blocks_ := a.(reserved_blocks_); reserved_nodes_ := a.(reserved_nodes_);
  log_allocation_failure_ := enable |}.

(** ** Blocks *)

Definition CheckBlocksAllocated (a : Allocator) (start_block end_block : Z) : outcome (bool * option Z) :=
  r ← RawBitmap.Get a.(block_map_) start_block end_block;
  let '(allocated, unset_bit) := r in
  Returns (allocated, if negb allocated then Some unset_bit else None).

Definition CheckBlocksUnallocated (a : Allocator) (start_block end_block : Z) : outcome bool :=
  _ ← ZX_DEBUG_ASSERT (start_block <? end_block);
  r ← RawBitmap.Find a.(block_map_) false start_block end_block (end_block ⊟ start_block) (Some 0);
  Returns (bool_decide (fst r = ZX_OK)).

Definition MarkBlocksAllocated (a : Allocator) (reserved_extent : ReservedExtent) : outcome Allocator :=
  e ← extent reserved_extent;
  let start := Start e in
  let length := Length e in
  let end_ := start ⊞ length in
  b ← CheckBlocksUnallocated a start end_;
  _ ← ZX_DEBUG_ASSERT b;
  r ← RawBitmap.Set_ a.(block_map_) start end_;
  let '(status, m) := r in
  _ ← ZX_ASSERT (bool_decide (status = ZX_OK));
  Returns (with_block_map a m).

Definition FreeBlocks (a : Allocator) (e : Extent) : outcome Allocator :=
  let start := Start e in
  let length := Length e in
  let end_ := start ⊞ length in
  r ← CheckBlocksAllocated a start end_;
  _ ← ZX_DEBUG_ASSERT (fst r);
  r ← RawBitmap.Clear a.(block_map_) start end_;
  let '(status, m) := r in
  _ ← ZX_ASSERT (bool_decide (status = ZX_OK));
  Returns (with_block_map a m).

(** [Scan(...)] used as a boolean. *)
Definition scan_all (m : RawBitmapBase) (off max : Z) (v : bool) : outcome bool :=
  r ← Scan m off max v; Returns (match r with None => true | Some _ => false end).

(** Whether to restart, [*out_start], [*out_block_length]. *)
Definition FindUnallocatedExtent (m : RawBitmapBase) (start block_length : Z) : outcome (bool * Z * Z) :=
  let block_length := Z.min block_length (m.(size_) ⊟ start) in
  first_already_allocated ← Scan m start (start ⊞ block_length) false;
  match first_already_allocated with
  | None => Returns (false, start, block_length)
  | Some first_already_allocated =>
    if first_already_allocated =? start then
      first_free ← Scan m start (start ⊞ block_length) true;
      match first_free with
      | None => Returns (true, start ⊞ block_length, block_length)
      | Some first_free =>
        _ ← ZX_DEBUG_ASSERT (start <? first_free);
        Returns (true, first_free, block_length)
      end
    else
      _ ← ZX_DEBUG_ASSERT (start <? first_already_allocated);
      Returns (false, start, first_already_allocated ⊟ start)
  end.

(** What the search changes: the reservations, the iterator over them (the elements
    from where it points on), the blocks still wanted, the window, the extents. *)
Record search := {
  s_reserved : RleBitmap;
  s_iterator : list RleBitmapElement;
  s_remaining : Z;
  s_start : Z;
  s_length : Z;
  s_extents : list ReservedExtent;
}.

(** [out_extents->push_back(ReservedExtent(this, extent))], which invalidates the
    iterator; it is set to the beginning. *)
Definition push_extent (alloc : bool) (s : search) (e : Extent) (start length : Z) : outcome search :=
  p ← NewReservedExtent alloc s.(s_reserved) e;
  let '(h, r) := p in
  Returns {| s_reserved := r; s_iterator := r.(elems_); s_remaining := s.(s_remaining) ⊟ Length e;
             s_start := start; s_length := length; s_extents := s.(s_extents) ++ [h] |}.

Definition with_window (s : search) (start length : Z) : search := {|
  s_reserved := s.(s_reserved); s_iterator := s.(s_iterator); s_remaining := s.(s_remaining);
  s_start := start; s_length := length; s_extents := s.(s_extents) |}.

Definition with_iterator (s : search) (it : list RleBitmapElement) : search := {|
  s_reserved := s.(s_reserved); s_iterator := it; s_remaining := s.(s_remaining);
  s_start := s.(s_start); s_length := s.(s_length); s_extents := s.(s_extents) |}.

Fixpoint munch_loop (alloc : bool) (fuel : nat) (m : RawBitmapBase) (start_max : Z) (s : search) (collision : bool)
    : outcome (bool * search) :=
  match fuel with
  | O => Diverges
  | S fuel =>
    let start := s.(s_start) in
    let block_length := s.(s_length) in
    match s.(s_iterator) with
    | it :: rest =>
      if (start <? start_max) && negb (block_length =? 0) then
        _ ← ZX_DEBUG_ASSERT (start <? start ⊞ block_length);
        free ← scan_all m start (start ⊞ block_length) false;
        _ ← ZX_DEBUG_ASSERT free;
        if elem_end it <=? start then munch_loop alloc fuel m start_max (with_iterator s rest) collision
        else if start ⊞ block_length <=? elem_start it then Returns (collision, s)
        else if (elem_start it <=? start) && (start ⊞ block_length <=? elem_end it) then
          Returns (true, with_window s (elem_end it) 0)
        else if start <? elem_start it then
          e ← NewExtent start (u16 (elem_start it ⊟ start));
          free ← scan_all m (Start e) (Start e ⊞ Length e) false;
          _ ← ZX_DEBUG_ASSERT free;
          _ ← ZX_DEBUG_ASSERT (Length e <? block_length);
          let reserved_length := elem_end it ⊟ elem_start it in
          let block_length :=
            if Length e ⊞ reserved_length <? block_length then block_length ⊟ (Length e ⊞ reserved_length) else 0 in
          s ← push_extent alloc s e (elem_end it) block_length;
          munch_loop alloc fuel m start_max s true
        else
          _ ← ZX_DEBUG_ASSERT (elem_end it <? start ⊞ block_length);
          munch_loop alloc fuel m start_max
            (with_window s (elem_end it) ((start ⊞ block_length) ⊟ elem_end it)) true
      else Returns (collision, s)
    | [] => Returns (collision, s)
    end
  end.

(** Each restart of the iterator shortens the window, and there are no more runs
    than reserved blocks. *)
Definition munch_fuel (s : search) : nat :=
  S (Z.to_nat (s.(s_length) + 1) * S (Z.to_nat (num_bits s.(s_reserved) + s.(s_length))))
  + length s.(s_iterator).

Definition MunchUnreservedExtents (alloc : bool) (m : RawBitmapBase) (s : search) : outcome (bool * search) :=
  munch_loop alloc (munch_fuel s) m (s.(s_start) ⊞ s.(s_length)) s false.

(** The loop of [FindBlocks]; the blocks found when it fails. *)
Fixpoint find_blocks_loop (alloc : bool) (fuel : nat) (m : RawBitmapBase) (num_blocks : Z) (s : search)
    : outcome (zx_status * search * Z) :=
  match fuel with
  | O => Diverges
  | S fuel =>
    if s.(s_remaining) =? 0 then Returns (ZX_OK, s, num_blocks)
    else if m.(size_) <=? s.(s_start) then Returns (ZX_ERR_NO_SPACE, s, num_blocks ⊟ s.(s_remaining))
    else
      let block_length := Z.min s.(s_remaining) kBlockCountMax in
      r ← FindUnallocatedExtent m s.(s_start) block_length;
      let '(restart_search, start, block_length) := (r : bool * Z * Z) in
      let s := with_window s start block_length in
      if restart_search then find_blocks_loop alloc fuel m num_blocks s
      else
        r ← MunchUnreservedExtents alloc m s;
        let '(collision, s) := (r : bool * search) in
        if collision then find_blocks_loop alloc fuel m num_blocks s
        else if negb (s.(s_length) =? 0) then
          e ← NewExtent s.(s_start) (u16 s.(s_length));
          free ← scan_all m (Start e) (Start e ⊞ Length e) false;
          _ ← ZX_DEBUG_ASSERT free;
          s ← push_extent alloc s e (s.(s_start) ⊞ Length e) s.(s_length);
          find_blocks_loop alloc fuel m num_blocks s
        else find_blocks_loop alloc fuel m num_blocks s
  end.

(** Status, allocator, extents, [*out_actual_blocks]. *)
Definition FindBlocks (alloc : bool) (a : Allocator) (start num_blocks : Z) (out_extents : list ReservedExtent)
    : outcome (zx_status * Allocator * list ReservedExtent * Z) :=
  let s := {| s_reserved := a.(reserved_blocks_); s_iterator := a.(reserved_blocks_).(elems_);
              s_remaining := num_blocks; s_start := start; s_length := 0; s_extents := out_extents |} in
  r ← find_blocks_loop alloc (S (S (Z.to_nat (a.(block_map_).(size_) - start)))) a.(block_map_) num_blocks s;
  let '(status, s, actual) := r in
  Returns (status, with_reserved_blocks a s.(s_reserved), s.(s_extents), actual).

Section space.
Context `{SpaceManager SM}.

Definition LogAllocationFailure (a : Allocator) (sm : SM) (num_blocks : Z) : outcome unit :=
  let info := Info sm in
  let total_bytes := info.(data_block_count) ⊠ info.(block_size) in
  let persisted_used_bytes := info.(alloc_block_count) ⊠ info.(block_size) in
  let pending_used_bytes := ReservedBlockCount a.(reserved_blocks_) ⊠ info.(block_size) in
  let used_bytes := persisted_used_bytes ⊞ pending_used_bytes in
  ZX_ASSERT (used_bytes <=? total_bytes).

Definition ReserveBlocks (alloc : bool) (a : Allocator) (sm : SM) (num_blocks : Z) (out_extents : list ReservedExtent)
    : outcome (zx_status * Allocator * SM * list ReservedExtent) :=
  r ← FindBlocks alloc a 0 num_blocks out_extents;
  let '(status, a, out_extents, actual_blocks) := r in
  if failed status then
    let hint := a.(block_map_).(size_) ⊟ Z.min num_blocks a.(block_map_).(size_) in
    _ ← ZX_DEBUG_ASSERT (actual_blocks <? num_blocks);
    let num_blocks := num_blocks ⊟ actual_blocks in
    r ← AddBlocks sm num_blocks a.(block_map_);
    let '(status, sm, m) := r in
    let a := with_block_map a m in
    r ← (if failed status then Returns (status, a, out_extents)
         else
           r ← FindBlocks alloc a hint num_blocks out_extents;
           let '(status, a, out_extents, _) := r in Returns (status, a, out_extents));
    let '(status, a, out_extents) := r in
    if failed status then
      _ ← LogAllocationFailure a sm num_blocks;
      r ← reset_extents alloc a.(reserved_blocks_) out_extents;
      Returns (ZX_ERR_NO_SPACE, with_reserved_blocks a r, sm, [])
    else Returns (ZX_OK, a, sm, out_extents)
  else Returns (ZX_OK, a, sm, out_extents).

(** [st] is the storage of the block map. *)
Definition ResetBlockMapSize (st : Storage) (a : Allocator) (sm : SM) : outcome (zx_status * Allocator) :=
  _ ← ZX_DEBUG_ASSERT (ReservedBlockCount a.(reserved_blocks_) =? 0);
  let info := Info sm in
  let new_size := info.(data_block_count) in
  if negb (new_size =? a.(block_map_).(size_)) then
    let rounded_size := BlockMapBlocks info ⊠ kBlobfsBlockBits in
    r ← RawBitmap.Reset st a.(block_map_) rounded_size;
    let '(status, m) := r in
    if failed status then Returns (status, with_block_map a m)
    else if new_size <? rounded_size then
      let '(status, m) := RawBitmap.Shrink m new_size in
      Returns (status, with_block_map a m)
    else Returns (ZX_OK, with_block_map a m)
  else Returns (ZX_OK, a).

(** ** Nodes *)

Definition GetNode (a : Allocator) (node_index : Z) : outcome Inode :=
  _ ← ZX_DEBUG_ASSERT (node_index <? Z.of_nat (length a.(node_map_)));
  array_get a.(node_map_) node_index.

(** A store through the pointer that [GetNode] gives. *)
Definition SetNode (a : Allocator) (node_index : Z) (n : Inode) : outcome Allocator :=
  m ← array_set a.(node_map_) node_index n;
  Returns (with_node_map a m).

(** [vmo_status] is the status of resizing the node map; new nodes read as zero. *)
Definition ResetNodeMapSize (st : Z → Storage) (vmo_status : zx_status) (a : Allocator) (sm : SM)
    : outcome (zx_status * Allocator) :=
  count ← ReservedNodeCount a.(reserved_nodes_);
  _ ← ZX_DEBUG_ASSERT (count =? 0);
  let info := Info sm in
  let nodemap_size := kBlobfsInodeSize ⊠ info.(inode_count) in
  if negb (round_up nodemap_size kBlobfsBlockSize =? nodemap_size) then Returns (ZX_ERR_BAD_STATE, a)
  else
    _ ← ZX_DEBUG_ASSERT (nodemap_size / kBlobfsBlockSize =? NodeMapBlocks info);
    let size := kBlobfsInodeSize * Z.of_nat (length a.(node_map_)) in
    let status := if nodemap_size =? size then ZX_OK else vmo_status in
    if failed status then Returns (status, a)
    else
      let a := with_node_map a
        (resize (Z.to_nat (nodemap_size / kBlobfsInodeSize)) (replicate kNodeWords 0) a.(node_map_)) in
      r ← IdAllocator.Reset st a.(node_bitmap_) info.(inode_count);
      Returns (fst r, with_node_bitmap a (snd r)).

Definition FindNode (a : Allocator) : outcome (zx_status * option Z * Allocator) :=
  r ← IdAllocator.Allocate a.(node_bitmap_);
  let '(status, i, s) := r in
  let a := with_node_bitmap a s in
  match status, i with
  | ZX_OK, Some i =>
    _ ← ZX_ASSERT (i <=? UINT32_MAX);
    let node_index := u32 i in
    n ← GetNode a node_index;
    _ ← ZX_ASSERT (negb (IsAllocated n));
    b ← IsNodeReserved a.(reserved_nodes_) node_index;
    _ ← ZX_ASSERT (negb b);
    Returns (ZX_OK, Some node_index, a)
  | _, _ => Returns (ZX_ERR_OUT_OF_RANGE, None, a)
  end.

Definition Grow (st : Z → Storage) (a : Allocator) (sm : SM) : outcome (zx_status * Allocator * SM) :=
  r ← AddInodes sm a.(node_map_);
  let '(status, sm, m) := r in
  let a := with_node_map a m in
  if failed status then Returns (status, a, sm)
  else
    let inode_count := (Info sm).(inode_count) in
    r ← IdAllocator.Grow st a.(node_bitmap_) inode_count;
    Returns (fst r, with_node_bitmap a (snd r), sm).

Definition ReserveNode (alloc : bool) (st : Z → Storage) (a : Allocator) (sm : SM)
    : outcome (option ReservedNode * Allocator * SM) :=
  r ← FindNode a;
  let '(status, i, a) := r in
  r ← (if failed status then
         r ← Grow st a sm;
         let '(status, a, sm) := r in
         if failed status then Returns (None, a, sm)
         else r ← FindNode a; let '(_, i, a) := r in Returns (i, a, sm)
       else Returns (i, a, sm));
  let '(i, a, sm) := r in
  match i with
  | None => Returns (None, a, sm)
  | Some node_index =>
    n ← GetNode a node_index;
    _ ← ZX_DEBUG_ASSERT (negb (IsAllocated n));
    p ← NewReservedNode alloc a.(reserved_nodes_) node_index;
    Returns (Some (fst p), with_reserved_nodes a (snd p), sm)
  end.

Fixpoint reserve_nodes_loop (alloc : bool) (st : Z → Storage) (n : nat) (a : Allocator) (sm : SM)
    (out_nodes : list ReservedNode) : outcome (zx_status * Allocator * SM * list ReservedNode) :=
  match n with
  | O => Returns (ZX_OK, a, sm, out_nodes)
  | S n =>
    r ← ReserveNode alloc st a sm;
    let '(node, a, sm) := r in
    match node with
    | None =>
      r ← reset_nodes alloc a.(reserved_nodes_) out_nodes;
      Returns (ZX_ERR_NO_SPACE, with_reserved_nodes a r, sm, [])
    | Some node => reserve_nodes_loop alloc st n a sm (out_nodes ++ [node])
    end
  end.

Definition ReserveNodes (alloc : bool) (st : Z → Storage) (a : Allocator) (sm : SM) (num_nodes : Z)
    (out_nodes : list ReservedNode) : outcome (zx_status * Allocator * SM * list ReservedNode) :=
  reserve_nodes_loop alloc st (Z.to_nat num_nodes) a sm out_nodes.

End space.

Definition MarkNodeAllocated (a : Allocator) (node_index : Z) : outcome Allocator :=
  r ← IdAllocator.MarkAllocated a.(node_bitmap_) node_index;
  let '(status, s) := r in
  _ ← ZX_ASSERT (bool_decide (status = ZX_OK));
  Returns (with_node_bitmap a s).

Definition MarkInodeAllocated (a : Allocator) (node : ReservedNode) : outcome Allocator :=
  i ← index node;
  n ← GetNode a i;
  _ ← ZX_ASSERT (Z.land (field_get node_flags n) kBlobFlagAllocated =? 0);
  SetNode a i (field_set next_node (field_set node_flags n kBlobFlagAllocated) 0).

Definition MarkContainerNodeAllocated (a : Allocator) (node : ReservedNode) (previous : Z) : outcome Allocator :=
  i ← index node;
  p ← GetNode a previous;
  a ← SetNode a previous (field_set next_node p i);
  c ← GetNode a i;
  _ ← ZX_ASSERT (Z.land (field_get node_flags c) kBlobFlagAllocated =? 0);
  let c := field_set node_flags c (Z.lor kBlobFlagAllocated kBlobFlagExtentContainer) in
  let c := field_set next_node c 0 in
  let c := field_set previous_node c previous in
  SetNode a i (field_set container_extent_count c 0).

Definition FreeNode (a : Allocator) (node_index : Z) : outcome Allocator :=
  n ← GetNode a node_index;
  a ← SetNode a node_index (field_set node_flags n 0);
  r ← IdAllocator.Free a.(node_bitmap_) node_index;
  let '(status, s) := r in
  _ ← ZX_ASSERT (bool_decide (status = ZX_OK));
  Returns (with_node_bitmap a s).

(** ** Regions *)

Fixpoint regions_loop (fuel : nat) (m : RawBitmapBase) (end_ : Z) (out : list (Z * Z)) : outcome (list (Z * Z)) :=
  match fuel with
  | O => Diverges
  | S fuel =>
    r ← Scan m end_ m.(size_) false;
    match r with
    | None => Returns out
    | Some offset =>
      r ← Scan m offset m.(size_) true;
      let end_ := match r with None => m.(size_) | Some e => e end in
      regions_loop fuel m end_ (out ++ [(offset, end_ ⊟ offset)])
    end
  end.

(** The pairs of offset and length. *)
Definition GetAllocatedRegions (a : Allocator) : outcome (list (Z * Z)) :=
  regions_loop (S (Z.to_nat a.(block_map_).(size_))) a.(block_map_) 0 [].
