(* ===== verification/AllocatorBlocks.v ===== *)
(** * Reservation of blocks

    [FindBlocks] searches the block map and the reservations together.  It finds
    every free block from its start on before it gives up, and what it reserves was
    free; [ReserveBlocks] adds the extension of the volume. *)

From S2P Require Import Prelude Bitmap RawBitmap RleBitmap IdAllocator Format Reservers MerkleTree Allocator.

(** ** Vectors of handles *)

Definition blocks (es : list ReservedExtent) : Z := foldr (λ e t, Length e.(extent_) + t) 0 es.

Definition in_handles (es : list ReservedExtent) (k : Z) : bool := in_extents (map extent_ es) k.

Lemma in_handles_app es es' k : in_handles (es ++ es') k = in_handles es k || in_handles es' k.
Proof. unfold in_handles, in_extents. by rewrite map_app, existsb_app. Qed.

Lemma blocks_app es es' : blocks (es ++ es') = blocks es + blocks es'.
Proof. induction es as [|e es IH]; cbn; [done|]. unfold blocks in *. lia. Qed.

Lemma handles_app f es es' :
  handles f (es ++ es') ↔ handles f es ∧ handles (λ k, f k && negb (in_handles es k)) es'.
Proof.
  revert f. induction es as [|e es IH]; intros f; cbn [app handles].
  - split; [intros H; split; [done|]|intros [_ H]]; (eapply handles_ext; [|exact H]); intros k; cbn; by rewrite andb_true_r.
  - rewrite IH. split.
    + intros (? & ? & ? & ? & H). split_and!; try done. eapply handles_ext; [|exact H].
      intros k. unfold in_handles, in_extents. cbn. rewrite negb_orb. btauto.
    + intros ((? & ? & ? & ?) & Hh). split_and!; try done. eapply handles_ext; [|exact Hh].
      intros k. unfold in_handles, in_extents. cbn. rewrite negb_orb. btauto.
Qed.

Lemma handles_mono f g es : (∀ k, f k = true → g k = true) → handles f es → handles g es.
Proof.
  revert f g. induction es as [|e es IH]; intros f g Hfg; [done|]. cbn. intros (? & ? & Hin & Hh).
  split_and!; auto. eapply IH; [|exact Hh]. intros k. cbn. rewrite !andb_true_iff. intros []. auto.
Qed.

Lemma handles_in f es k : handles f es → in_handles es k = true → f k = true.
Proof.
  revert f. induction es as [|e es IH]; intros f; [done|]. cbn. intros (_ & _ & Hin & Hh).
  rewrite orb_true_iff. intros [Hk|Hk]; [by apply Hin|]. apply (IH _ Hh) in Hk. by apply andb_true_iff in Hk as [? _].
Qed.

(** Disjoint extents have as many blocks as their lengths say. *)
Lemma handles_blocks f es hi : handles f es → (∀ k, hi ≤ k → f k = false) → 0 ≤ hi →
  tally (in_handles es) 0 hi = blocks es.
Proof.
  revert f. induction es as [|e es IH]; intros f Hh Hhi H0.
  { rewrite (tally_const _ 0 hi false); [done|lia|done]. }
  destruct Hh as (_ & He & Hin & Hh). pose proof (extent_end (extent_ e)) as (Hs & Hl & _).
  assert (Start (extent_ e) + Length (extent_ e) ≤ hi).
  { destruct (Z.le_gt_cases (Start (extent_ e) + Length (extent_ e)) hi); [done|].
    specialize (Hin (Start (extent_ e) + Length (extent_ e) - 1)). rewrite Hhi in Hin by lia.
    exfalso. revert Hin. unfold in_extent. ztest. intros Hin. by specialize (Hin eq_refl). }
  cbn [blocks foldr]. fold (blocks es). rewrite <- (IH _ Hh); [|intros k Hk; by rewrite Hhi|done].
  rewrite <- (tally_extent (extent_ e) hi) by done. rewrite <- tally_disjoint; [done|].
  intros k Hk. destruct (in_extent (extent_ e) k) eqn:E; [|done]. cbn.
  destruct (in_handles es k) eqn:E2; [|done]. apply (handles_in _ _ _ Hh) in E2. by rewrite E, andb_false_r in E2.
Qed.

(** ** The state of a search *)

Section search.
Context (m : RawBitmapBase) (Hm : raw_ok m) (Hsize : m.(size_) ≤ 2 ^ 48).
Context (r0 : RleBitmap) (start0 num0 : Z) (base : list ReservedExtent).

#[local] Notation allocated := (raw_bit m).

(** What has been found: [new] extents of blocks that were free, and nothing free
    left behind the window. *)
Record found (s : search) : Prop := {
  f_ok : rle_ok s.(s_reserved);
  f_iter : ∃ pre, s.(s_reserved).(elems_) = pre ++ s.(s_iterator) ∧ ∀ e, e ∈ pre → fend e ≤ s.(s_start);
  f_start : start0 ≤ s.(s_start);
  f_new : ∃ new, s.(s_extents) = base ++ new ∧
    handles (λ k, rle_bit s.(s_reserved) k && negb (rle_bit r0 k)) new ∧
    Forall (λ e, 0 ≤ e.(extent_) < 2 ^ 64) new ∧
    (∀ k, in_handles new k = true → start0 ≤ k < m.(size_) ∧ allocated k = false) ∧
    (∀ k, rle_bit s.(s_reserved) k = rle_bit r0 k || in_handles new k) ∧
    0 ≤ s.(s_remaining) ∧ s.(s_remaining) + blocks new = num0;
  f_behind : ∀ k, start0 ≤ k < s.(s_start) → k < m.(size_) → allocated k || rle_bit s.(s_reserved) k = true;
}.

(** The blocks before an iterator's element and from [start] on are not reserved. *)
Lemma iter_free s stop k : found s →
  (∀ e, e ∈ s.(s_iterator) → stop ≤ e.(bitoff)) → s.(s_start) ≤ k < stop → rle_bit s.(s_reserved) k = false.
Proof using.
  intros Hf Hstop Hk. destruct (f_iter _ Hf) as (pre & Hel & Hpre). unfold rle_bit, in_runs. rewrite Hel.
  destruct (existsb _ _) eqn:E; [|done]. apply existsb_exists in E as (e & He & Hin).
  apply list_elem_of_In, elem_of_app in He as [He|He]; unfold in_elem in Hin; apply andb_prop in Hin as [H1%Z.leb_le H2%Z.ltb_lt].
  - specialize (Hpre e He). lia.
  - specialize (Hstop e He). lia.
Qed.

Lemma iter_head s it rest : found s → s.(s_iterator) = it :: rest →
  0 ≤ it.(bitoff) ∧ 0 < it.(bitlen) ∧ fend it < 2 ^ 64 ∧ (∀ e, e ∈ rest → fend it < e.(bitoff)).
Proof using.
  intros Hf Hit. destruct (f_iter _ Hf) as (pre & Hel & _). destruct (f_ok _ Hf) as (Hr & _).
  rewrite Hel, Hit in Hr. apply runs_app in Hr as [Hpre (Hlo & Hlen & Hend & Hrest)].
  pose proof (after_ge _ _ Hpre). split_and!; [lia|done|done|]. intros e He.
  pose proof (runs_in _ _ _ Hrest He). lia.
Qed.

(** The next element's run is reserved. *)
Lemma iter_reserved s it rest k : found s → s.(s_iterator) = it :: rest →
  it.(bitoff) ≤ k < fend it → rle_bit s.(s_reserved) k = true.
Proof using.
  intros Hf Hit Hk. destruct (f_iter _ Hf) as (pre & Hel & _). unfold rle_bit. rewrite Hel, Hit, in_runs_app, in_runs_cons.
  unfold in_elem. ztest. by rewrite orb_true_r.
Qed.

Lemma found_window s start length : found s → s.(s_start) ≤ start →
  (∀ k, s.(s_start) ≤ k < start → k < m.(size_) → allocated k || rle_bit s.(s_reserved) k = true) →
  found (with_window s start length).
Proof using.
  intros [Hok (pre & Hel & Hpre) Hst Hnew Hbeh] Hle Hskip. constructor; cbn; try done; [|lia|].
  - exists pre. split; [done|]. intros e He. specialize (Hpre e He). lia.
  - intros k Hk Hks. destruct (Z.lt_ge_cases k (s_start s)); [apply Hbeh; lia|apply Hskip; lia].
Qed.

Lemma found_next s it rest : found s → s.(s_iterator) = it :: rest → fend it ≤ s.(s_start) →
  found (with_iterator s rest).
Proof using.
  intros [Hok (pre & Hel & Hpre) Hst Hnew Hbeh] Hit Hend. constructor; cbn; try done.
  exists (pre ++ [it]). rewrite <- app_assoc, Hel, Hit. split; [done|]. intros e.
  rewrite elem_of_app, list_elem_of_singleton. intros [?| ->]; auto.
Qed.

Lemma push_found s e start length :
  found s → 0 < Length e ≤ s.(s_remaining) → s.(s_remaining) < 2 ^ 64 → 0 ≤ e < 2 ^ 64 →
  (∀ k, in_extent e k = true → start0 ≤ k < m.(size_) ∧ allocated k = false ∧ rle_bit s.(s_reserved) k = false) →
  s.(s_start) ≤ start →
  (∀ k, s.(s_start) ≤ k < start → k < m.(size_) → allocated k || rle_bit s.(s_reserved) k || in_extent e k = true) →
  ∃ s', push_extent true s e start length = Returns s' ∧ found s' ∧ s'.(s_start) = start ∧ s'.(s_length) = length ∧
    s'.(s_remaining) = s.(s_remaining) - Length e ∧
    num_bits s'.(s_reserved) = num_bits s.(s_reserved) + Length e ∧ s'.(s_iterator) = s'.(s_reserved).(elems_).
Proof using.
  intros [Hok _ Hst (new & Hex & Hh & Hw & Hfree & Hb & Hrem & Hnum) Hbeh] Hlen Hr64 He Hin Hle Hskip.
  unfold push_extent. destruct (NewReservedExtent_ok (s_reserved s) e Hok) as (r' & -> & Hok' & Hb'); [lia|].
  cbn [mbind outcome_bind]. unwrap. eexists. split; [done|]. cbn [s_start s_length s_remaining s_reserved s_iterator].
  split_and!; try done.
  - constructor; cbn [s_start s_length s_remaining s_reserved s_iterator s_extents]; [done| |lia| |].
    + exists []. split; [done|]. intros x Hx. by apply list_elem_of_In in Hx.
    + exists (new ++ [{| reserved := true; extent_ := e |}]). rewrite Hex, <- app_assoc, blocks_app, handles_app.
      split_and!; try done.
      * eapply handles_mono; [|exact Hh]. intros k. rewrite Hb'. rewrite !andb_true_iff. intros [-> ->]. by rewrite orb_true_r.
      * cbn. split_and!; [done|lia| |done]. intros k Hk. destruct (Hin k Hk) as (_ & _ & Hrk).
        rewrite Hb', Hk. rewrite Hb in Hrk. apply orb_false_iff in Hrk as [-> ->]. done.
      * apply Forall_app. split; [done|]. constructor; [exact He|constructor].
      * intros k. rewrite in_handles_app, orb_true_iff. intros [Hk|Hk]; [by apply Hfree|].
        unfold in_handles in Hk. cbn in Hk. rewrite orb_false_r in Hk. destruct (Hin k Hk) as (? & ? & _). done.
      * intros k. rewrite Hb', Hb, in_handles_app. unfold in_handles at 3. cbn. btauto.
      * lia.
      * cbn. lia.
    + intros k Hk Hks. rewrite Hb'. destruct (Z.lt_ge_cases k (s_start s)) as [Hlt|Hge].
      * specialize (Hbeh k ltac:(lia) Hks). apply orb_true_iff in Hbeh as [-> | ->]; by rewrite ?orb_true_r.
      * specialize (Hskip k ltac:(lia) Hks). revert Hskip. destruct (allocated k), (rle_bit (s_reserved s) k), (in_extent e k); done.
  - apply (reserve_count _ _ e Hok Hok' Hb'). intros k Hk. by destruct (Hin k Hk) as (_ & _ & ?).
Qed.

Lemma scan_free lo hi : 0 ≤ lo → hi ≤ m.(size_) → (∀ k, lo ≤ k < hi → allocated k = false) → 0 ≤ hi →
  scan_all m lo hi false = Returns true.
Proof using Hm Hsize.
  intros Hlo Hhi Hfree H0. unfold scan_all. destruct (Scan_ok m lo hi false Hm Hlo ltac:(lia)) as (r & -> & Hr).
  cbn [mbind outcome_bind]. destruct r as [x|]; [|done]. rewrite Z.min_l in Hr by lia.
  destruct Hr as (Hx & Hb & _). rewrite Hfree in Hb by lia. done.
Qed.

(** The number of runs is at most the number of reserved blocks. *)
Lemma runs_length lo l : runs lo l → Z.of_nat (length l) ≤ total l.
Proof using. revert lo. induction l as [|e l IH]; intros lo; [done|]. intros (? & ? & _ & Hr). rewrite total_cons. specialize (IH _ Hr). cbn. lia. Qed.

Lemma found_runs s : found s → Z.of_nat (length s.(s_iterator)) ≤ num_bits s.(s_reserved).
Proof using.
  intros Hf. destruct (f_iter _ Hf) as (pre & Hel & _). destruct (f_ok _ Hf) as (Hr & _ & Hn). unfold num_bits. rewrite Hn.
  pose proof (runs_length _ _ Hr) as Hle. rewrite Hel, length_app in Hle. rewrite Hel. lia.
Qed.

(** What the loop of [MunchUnreservedExtents] leaves of the window at [start]. *)
Definition munched (start length remaining : Z) (r : outcome (bool * search)) : Prop :=
  ∃ c s, r = Returns (c, s) ∧ found s ∧ s.(s_remaining) ≤ remaining ∧
    (c = true → start < s.(s_start)) ∧
    (c = false → s.(s_start) = start ∧ s.(s_length) = length ∧ s.(s_remaining) = remaining ∧
       ∀ k, start ≤ k < start + length → rle_bit s.(s_reserved) k = false).

(** A state of the loop, from a window of [length] free blocks at [start]. *)
Record munching (start length remaining K : Z) (s : search) (c : bool) : Prop := {
  mu_found : found s;
  mu_window : s.(s_length) = 0 ∨ s.(s_start) + s.(s_length) = start + length;
  mu_length : 0 ≤ s.(s_length) ≤ length;
  mu_wanted : s.(s_length) ≤ s.(s_remaining) ≤ remaining;
  mu_free : ∀ k, s.(s_start) ≤ k < s.(s_start) + s.(s_length) → allocated k = false;
  mu_first : if c then start < s.(s_start)
             else s.(s_start) = start ∧ s.(s_length) = length ∧ s.(s_remaining) = remaining;
  mu_runs : num_bits s.(s_reserved) + s.(s_length) ≤ K;
}.

Lemma munching_done start length remaining K s c :
  munching start length remaining K s c →
  (c = false → ∀ k, start ≤ k < start + length → rle_bit s.(s_reserved) k = false) →
  munched start length remaining (Returns (c, s)).
Proof using.
  intros [Hf _ _ [_ Hr] _ H1 _] Hfree. exists c, s. split_and!; try done; intros ->; [done|].
  destruct H1 as (-> & -> & ->). split_and!; try done. by apply Hfree.
Qed.

Context (start length remaining K : Z).
Hypothesis (Hstart0 : 0 ≤ start0) (Hlen : 0 < length < 2 ^ 16) (Hend : start + length ≤ m.(size_)) (Hrem : remaining < 2 ^ 64).

(** The free blocks before a run become an extent. *)
Lemma munch_prefix s c it rest :
  munching start length remaining K s c → s.(s_iterator) = it :: rest → s.(s_length) ≠ 0 →
  s.(s_start) < it.(bitoff) < start + length →
  ∃ e s', NewExtent s.(s_start) (it.(bitoff) - s.(s_start)) = Returns e ∧ Start e = s.(s_start) ∧
    Length e = it.(bitoff) - s.(s_start) ∧
    push_extent true s e (fend it)
      (if Length e + it.(bitlen) <? s.(s_length) then s.(s_length) - (Length e + it.(bitlen)) else 0) = Returns s' ∧
    munching start length remaining K s' true ∧ s'.(s_length) < s.(s_length).
Proof using Hend Hlen Hm Hrem Hsize Hstart0.
  intros [Hf Hwin Hsl Hw Hfree Hfirst HK] Hit Hne Hpos. destruct (iter_head s it rest Hf Hit) as (? & ? & ? & Hrest).
  pose proof (f_start _ Hf). assert (start ≤ s_start s) by (destruct c; lia).
  destruct Hwin as [?|Hwin]; [lia|].
  destruct (NewExtent_ok (s_start s) (bitoff it - s_start s)) as (e & He & Hw64 & Hs & Hl); [lia..|].
  exists e. set (len' := if _ <? _ then _ else 0).
  assert (Hunres : ∀ k, s_start s ≤ k < bitoff it → rle_bit (s_reserved s) k = false).
  { intros k Hk. apply (iter_free s (bitoff it)); [done| |lia]. intros x Hx. rewrite Hit in Hx.
    apply elem_of_cons in Hx as [->|Hx]; [lia|]. specialize (Hrest x Hx). unfold fend in *. lia. }
  destruct (push_found s e (fend it) len' Hf) as (s' & -> & Hf' & Hs' & Hl' & Hr' & Hn' & _).
  - lia.
  - lia.
  - done.
  - intros k Hk%andb_prop. rewrite Hs, Hl, Z.leb_le, Z.ltb_lt in Hk. split_and!; [lia..|apply Hfree; lia|apply Hunres; lia].
  - unfold fend. lia.
  - intros k Hk _. destruct (Z.lt_ge_cases k (bitoff it)).
    + unfold in_extent. rewrite Hs, Hl. ztest. by rewrite orb_true_r.
    + rewrite (iter_reserved s it rest k Hf Hit) by lia. by rewrite orb_true_r.
  - exists s'. split_and!; try done; rewrite ?Hl'; unfold len', fend in *.
    + constructor; rewrite ?Hs', ?Hl', ?Hr', ?Hn'; unfold len'; try done; zcases; try lia;
        (intros k Hk; apply Hfree; lia).
    + zcases.
Qed.

Lemma measure_drop a b k : 0 ≤ a < b → 0 ≤ k → 0 ≤ a * (k + 1) ≤ b * (k + 1) - (k + 1).
Proof using. nia. Qed.

Lemma munch_loop_ok fuel s c :
  munching start length remaining K s c → s.(s_length) * (K + 1) + Z.of_nat (List.length s.(s_iterator)) < Z.of_nat fuel →
  munched start length remaining (munch_loop true fuel m (start + length) s c).
Proof using Hend Hlen Hm Hrem Hsize Hstart0.
  revert s c. induction fuel as [|fuel IH]; intros s c Hmu Hfuel; pose proof Hmu as [Hf Hwin Hsl Hw Hfree Hfirst HK];
    pose proof (found_runs s Hf); [nia|]. cbn [munch_loop]. pose proof (f_start _ Hf).
  assert (start ≤ s_start s) by (destruct c; lia).
  destruct (s_iterator s) as [|it rest] eqn:Hit.
  { apply (munching_done _ _ _ K); [done|]. intros -> k Hk. destruct Hfirst as (Hst & _).
    apply (iter_free s (start + length)); [done| |lia]. rewrite Hit. intros e He. by apply list_elem_of_In in He. }
  destruct (iter_head s it rest Hf Hit) as (? & ? & ? & Hrest). cbn [List.length] in *.
  unfold elem_start, ZX_DEBUG_ASSERT. rewrite (elem_end_fend it) by done.
  destruct (Z.ltb_spec (s_start s) (start + length)); cbn [andb]; cycle 1.
  { apply (munching_done _ _ _ K); [done|]. intros ->. lia. }
  destruct (Z.eqb_spec (s_length s) 0) as [|Hne]; cbn [negb].
  { apply (munching_done _ _ _ K); [done|]. intros ->. lia. }
  destruct Hwin as [?|Hwin]; [lia|]. unwrap. rewrite Hwin. ztest. cbn [mbind outcome_bind].
  rewrite scan_free; [|lia|lia|intros k Hk; apply Hfree; lia|lia]. cbn [mbind outcome_bind].
  destruct (Z.leb_spec (fend it) (s_start s)).
  { apply IH; [|cbn; lia]. constructor; cbn; try done; [by apply (found_next s it)|by right]. }
  destruct (Z.leb_spec (start + length) (bitoff it)).
  { apply (munching_done _ _ _ K); [done|]. intros -> k Hk. destruct Hfirst as (Hst & _).
    apply (iter_free s (start + length)); [done| |lia]. rewrite Hit. intros e He.
    apply elem_of_cons in He as [->|He]; [lia|]. specialize (Hrest e He). unfold fend in *. lia. }
  assert (Hskip : ∀ l, bitoff it ≤ s_start s → found (with_window s (fend it) l)).
  { intros l Hle. apply found_window; [done|lia|]. intros k Hk _.
    rewrite (iter_reserved s it rest k Hf Hit) by lia. apply orb_true_r. }
  destruct (Z.leb_spec (bitoff it) (s_start s)); cbn [andb].
  - destruct (Z.leb_spec (start + length) (fend it)).
    + apply (munching_done _ _ _ K); [|done]. constructor; cbn; try (done || lia); by apply Hskip.
    + ztest. cbn [mbind outcome_bind]. unwrap.
      pose proof (measure_drop (start + length - fend it) (s_length s) K ltac:(lia) ltac:(lia)).
      apply IH; [|cbn; rewrite Hit; cbn; lia]. constructor; cbn; try lia; [by apply Hskip|].
      intros k Hk. apply Hfree. lia.
  - ztest. unwrap. destruct (munch_prefix s c it rest Hmu Hit Hne ltac:(lia)) as (e & s' & -> & Hs & Hl & Hp & Hmu' & Hlt).
    cbn [mbind outcome_bind]. pose proof (mu_found _ _ _ _ _ _ Hmu') as Hf'. pose proof (found_runs s' Hf').
    rewrite Hs, Hl. unwrap.
    rewrite scan_free; [|lia|lia|intros k Hk; apply Hfree; lia|lia]. cbn [mbind outcome_bind]. ztest. cbn [mbind outcome_bind].
    replace (fend it - bitoff it) with (bitlen it) by (unfold fend; lia). rewrite Hl in Hp.
    assert (fend it = bitoff it + bitlen it) by done.
    rewrite (u64_small (bitlen it)), (u64_small (_ + bitlen it)) by lia.
    match type of Hp with push_extent _ _ _ _ ?l = _ => match goal with |- context [push_extent true s e _ ?l'] =>
      replace l' with l by (zcases; by unwrap) end end.
    rewrite Hp. cbn [mbind outcome_bind]. apply IH; [done|].
    pose proof (mu_runs _ _ _ _ _ _ Hmu'). pose proof (mu_length _ _ _ _ _ _ Hmu').
    pose proof (measure_drop (s_length s') (s_length s) K ltac:(lia) ltac:(lia)). lia.
Qed.

End search.

Lemma MunchUnreservedExtents_ok m r0 start0 num0 base s :
  raw_ok m → m.(size_) ≤ 2 ^ 48 → found m r0 start0 num0 base s → 0 ≤ start0 →
  0 < s.(s_length) < 2 ^ 16 → s.(s_start) + s.(s_length) ≤ m.(size_) →
  s.(s_length) ≤ s.(s_remaining) < 2 ^ 64 →
  (∀ k, s.(s_start) ≤ k < s.(s_start) + s.(s_length) → raw_bit m k = false) →
  munched m r0 start0 num0 base s.(s_start) s.(s_length) s.(s_remaining) (MunchUnreservedExtents true m s).
Proof.
  intros Hm Hsize Hf H0 Hlen Hend Hrem Hfree. pose proof (f_start _ _ _ _ _ _ Hf). pose proof (found_runs _ _ _ _ _ _ Hf).
  unfold MunchUnreservedExtents. unwrap.
  apply (munch_loop_ok m Hm Hsize r0 start0 num0 base _ _ _ (num_bits s.(s_reserved) + s.(s_length))); try done; try lia.
  - constructor; try done; lia.
  - unfold munch_fuel. rewrite Nat2Z.inj_add, Nat2Z.inj_succ, Nat2Z.inj_mul, Nat2Z.inj_succ, !Z2Nat.id by lia.
    pose proof (measure_drop (s_length s) (s_length s + 1) (num_bits (s_reserved s) + s_length s) ltac:(lia) ltac:(lia)). lia.
Qed.

Lemma FindUnallocatedExtent_ok m start length :
  raw_ok m → m.(size_) ≤ 2 ^ 48 → 0 ≤ start < m.(size_) → 0 < length < 2 ^ 16 →
  ∃ restart start' length', FindUnallocatedExtent m start length = Returns (restart, start', length') ∧
    if restart then start < start' ≤ m.(size_) ∧ ∀ k, start ≤ k < start' → raw_bit m k = true
    else start' = start ∧ 0 < length' ≤ length ∧ start + length' ≤ m.(size_) ∧
         ∀ k, start ≤ k < start + length' → raw_bit m k = false.
Proof.
  intros Hm Hsize Hs Hl. unfold FindUnallocatedExtent, ZX_DEBUG_ASSERT. unwrap.
  set (len := Z.min length (size_ m - start)). assert (Hlen : len = Z.min length (size_ m - start)) by reflexivity. clearbody len.
  unwrap. destruct (Scan_ok m start (start + len) false Hm) as (r & -> & Hr); [lia..|]. rewrite Z.min_l in Hr by lia.
  cbn [mbind outcome_bind]. destruct r as [x|].
  2:{ do 3 eexists. split; [done|]. cbn. split_and!; try lia. exact Hr. }
  destruct Hr as (Hx & Hbx & Hbefore). apply not_false_iff_true in Hbx. destruct (Z.eqb_spec x start) as [->|Hne].
  - destruct (Scan_ok m start (start + len) true Hm) as (r & -> & Hr); [lia..|]. rewrite Z.min_l in Hr by lia.
    cbn [mbind outcome_bind]. destruct r as [y|].
    + destruct Hr as (Hy & Hby & Hb). apply not_true_iff_false in Hby.
      assert (y ≠ start) by congruence. ztest. cbn [mbind outcome_bind]. do 3 eexists. split; [done|]. cbn. split; [lia|exact Hb].
    + do 3 eexists. split; [done|]. cbn. split; [lia|exact Hr].
  - ztest. cbn [mbind outcome_bind]. unwrap. do 3 eexists. split; [done|]. cbn. split_and!; try lia.
    intros k Hk. apply Hbefore. lia.
Qed.

Lemma blocks_nonneg es : 0 ≤ blocks es.
Proof. induction es as [|e es IH]; cbn; [done|]. pose proof (Length_range (extent_ e)). unfold blocks in IH. lia. Qed.

Lemma found_remaining m r0 start0 num0 base s : found m r0 start0 num0 base s → 0 ≤ s.(s_remaining) ≤ num0.
Proof. intros Hf. destruct (f_new _ _ _ _ _ _ Hf) as (new & _ & _ & _ & _ & _ & ? & ?). pose proof (blocks_nonneg new). lia. Qed.

(** A search that has ended. *)
Definition search_done (m : RawBitmapBase) (r0 : RleBitmap) (start0 num0 : Z) (base : list ReservedExtent)
    (r : outcome (zx_status * search * Z)) : Prop :=
  ∃ st s actual, r = Returns (st, s, actual) ∧ found m r0 start0 num0 base s ∧
    ((st = ZX_OK ∧ s.(s_remaining) = 0 ∧ actual = num0) ∨
     (st = ZX_ERR_NO_SPACE ∧ 0 < s.(s_remaining) ∧ m.(size_) ≤ s.(s_start) ∧ actual = num0 - s.(s_remaining))).

Lemma find_blocks_loop_ok m r0 start0 num0 base fuel s :
  raw_ok m → m.(size_) ≤ 2 ^ 48 → 0 ≤ start0 → num0 < 2 ^ 64 → found m r0 start0 num0 base s →
  Z.max 0 (m.(size_) - s.(s_start)) < Z.of_nat fuel →
  search_done m r0 start0 num0 base (find_blocks_loop true fuel m num0 s).
Proof.
  intros Hm Hsize H0 Hnum. revert s. induction fuel as [|fuel IH]; intros s Hf Hfuel; [lia|].
  cbn [find_blocks_loop]. pose proof (f_start _ _ _ _ _ _ Hf). pose proof (found_remaining _ _ _ _ _ _ Hf) as Hrem.
  destruct (Z.eqb_spec (s_remaining s) 0) as [Hz|Hz].
  { do 3 eexists. split; [done|]. split; [done|]. left. by split_and!. }
  destruct (Z.leb_spec (size_ m) (s_start s)).
  { unwrap. do 3 eexists. split; [done|]. split; [done|]. right. split_and!; (done || lia). }
  change kBlockCountMax with 65535.
  destruct (FindUnallocatedExtent_ok m (s_start s) (Z.min (s_remaining s) 65535) Hm Hsize) as (restart & start' & length' & -> & Hr); [lia..|].
  cbn [mbind outcome_bind]. destruct restart.
  { destruct Hr as [Hr Hall]. apply IH; [|cbn; lia]. apply found_window; [done|lia|]. intros k Hk _. by rewrite Hall by lia. }
  destruct Hr as (-> & Hl & Hend & Hfree).
  assert (Hf1 : found m r0 start0 num0 base (with_window s (s_start s) length')).
  { apply found_window; [done|lia|]. intros; lia. }
  destruct (MunchUnreservedExtents_ok m r0 start0 num0 base _ Hm Hsize Hf1 H0) as (c & s1 & -> & Hf2 & Hle & Hc1 & Hc0);
    [cbn; lia|cbn; lia|cbn; lia|done|]. cbn [mbind outcome_bind]. cbn in Hc1, Hc0.
  destruct c; [apply IH; [done|]; specialize (Hc1 eq_refl); lia|].
  destruct (Hc0 eq_refl) as (Hs1 & Hl1 & Hr1 & Hres). rewrite Hs1, Hl1. ztest. cbn [negb]. unwrap.
  destruct (NewExtent_ok (s_start s) length') as (e & -> & Hw64 & Hse & Hle'); [lia..|]. cbn [mbind outcome_bind].
  rewrite Hse, Hle'. unwrap. rewrite (scan_free m Hm Hsize); [|lia|lia|exact Hfree|lia].
  cbn [mbind outcome_bind ZX_DEBUG_ASSERT].
  destruct (push_found m r0 start0 num0 base s1 e (s_start s + length') length' Hf2) as (s2 & -> & Hf3 & Hs2 & _).
  - lia.
  - lia.
  - done.
  - intros k Hk%andb_prop. rewrite Hse, Hle', Z.leb_le, Z.ltb_lt in Hk. split_and!; [lia..|apply Hfree; lia|apply Hres; lia].
  - lia.
  - intros k Hk _. unfold in_extent. rewrite Hse, Hle'. ztest. apply orb_true_r.
  - cbn [mbind outcome_bind]. apply IH; [done|]. lia.
Qed.

(** ** The whole search *)

Definition free_block (m : RawBitmapBase) (r : RleBitmap) (k : Z) : bool := negb (raw_bit m k) && negb (rle_bit r k).

(** [new] extents, all of free blocks from [start] on, have been reserved. *)
Record reserved_new (m : RawBitmapBase) (start : Z) (r r' : RleBitmap) (new : list ReservedExtent) : Prop := {
  rn_ok : rle_ok r';
  rn_bits : ∀ k, rle_bit r' k = rle_bit r k || in_handles new k;
  rn_handles : handles (λ k, rle_bit r' k && negb (rle_bit r k)) new;
  rn_words : Forall (λ e, 0 ≤ e.(extent_) < 2 ^ 64) new;
  rn_free : ∀ k, in_handles new k = true → start ≤ k < m.(size_) ∧ free_block m r k = true;
}.

Lemma tally_sub f g lo hi : (∀ k, lo ≤ k < hi → f k = true → g k = true) →
  tally g lo hi = tally f lo hi + tally (λ k, g k && negb (f k)) lo hi.
Proof.
  intros H. rewrite <- tally_disjoint.
  - apply tally_ext. intros k Hk. specialize (H k Hk). destruct (f k), (g k); auto.
  - intros k _. destruct (f k); [|done]. cbn. apply andb_false_r.
Qed.

Lemma reserved_new_blocks m start r r' new : 0 ≤ start → 0 ≤ m.(size_) ≤ 2 ^ 48 → reserved_new m start r r' new →
  blocks new = tally (in_handles new) start m.(size_).
Proof.
  intros H0 Hs [Hok _ Hh _ Hfree].
  rewrite <- (handles_blocks _ _ (2 ^ 64) Hh); [|intros k Hk; by rewrite (rle_bit_high r' k Hok Hk)|lia].
  assert (Hout : ∀ k, ¬ start ≤ k < size_ m → in_handles new k = false).
  { intros k Hk. destruct (in_handles new k) eqn:E; [|done]. by destruct (Hfree k E). }
  destruct (Z.le_gt_cases start (size_ m)).
  - rewrite (tally_split _ 0 start), (tally_split _ start (size_ m) (2 ^ 64)) by lia.
    rewrite (tally_const _ 0 start false), (tally_const _ (size_ m) (2 ^ 64) false) by (lia || (intros; apply Hout; lia)). lia.
  - rewrite (tally_empty _ start) by lia. apply (tally_const _ _ _ false); [lia|]. intros k _. apply Hout. lia.
Qed.

Lemma FindBlocks_ok a start num out :
  raw_ok a.(block_map_) → a.(block_map_).(size_) ≤ 2 ^ 48 → rle_ok a.(reserved_blocks_) → 0 ≤ start → 0 ≤ num < 2 ^ 64 →
  let free := tally (free_block a.(block_map_) a.(reserved_blocks_)) start a.(block_map_).(size_) in
  ∃ r' new, FindBlocks true a start num out =
      Returns (if num <=? free then ZX_OK else ZX_ERR_NO_SPACE, with_reserved_blocks a r', out ++ new, Z.min num free) ∧
    blocks new = Z.min num free ∧ reserved_new a.(block_map_) start a.(reserved_blocks_) r' new.
Proof.
  intros Hm Hsize Hr H0 Hnum free. pose proof Hm as (Hs & _). unfold FindBlocks.
  set (s0 := {| s_reserved := _ |}).
  assert (Hf0 : found a.(block_map_) a.(reserved_blocks_) start num out s0).
  { constructor; cbn; [done| |lia| |intros; lia].
    - exists []. split; [done|]. intros e He. by apply list_elem_of_In in He.
    - exists []. rewrite app_nil_r. split_and!; try done; try lia; [intros k; symmetry; apply orb_false_r|cbn; lia]. }
  destruct (find_blocks_loop_ok a.(block_map_) a.(reserved_blocks_) start num out
    (S (S (Z.to_nat (size_ a.(block_map_) - start)))) s0 Hm Hsize H0 ltac:(lia) Hf0) as (st & s & actual & -> & Hf & Hst); [cbn; lia|].
  cbn [mbind outcome_bind]. destruct (f_new _ _ _ _ _ _ Hf) as (new & Hex & Hh & Hw & Hfree & Hb & Hrem & Hsum).
  assert (Hnew : reserved_new a.(block_map_) start a.(reserved_blocks_) s.(s_reserved) new).
  { constructor; try done; [by apply (f_ok _ _ _ _ _ _ Hf)|]. intros k Hk. destruct (Hfree k Hk) as [? Hal].
    pose proof (handles_in _ _ _ Hh Hk) as Hin. apply andb_prop in Hin as [_ Hn]. unfold free_block. by rewrite Hal, Hn. }
  pose proof (reserved_new_blocks (block_map_ a) start (reserved_blocks_ a) (s_reserved s) new H0 ltac:(lia) Hnew) as Hblocks.
  pose proof (tally_sub (in_handles new) (free_block (block_map_ a) (reserved_blocks_ a)) start (size_ (block_map_ a))
    (λ k _ Hk, proj2 (rn_free _ _ _ _ _ Hnew k Hk))) as Hsub.
  pose proof (tally_range (λ k, free_block (block_map_ a) (reserved_blocks_ a) k && negb (in_handles new k)) start (size_ (block_map_ a))) as Hrest.
  fold free in Hsub. exists s.(s_reserved), new. rewrite Hex.
  destruct Hst as [(-> & Hz & ->)|(-> & Hz & Hall & ->)].
  - assert (num ≤ free) by lia. ztest. rewrite Z.min_l by lia. split_and!; (done || lia).
  - assert (tally (λ k, free_block (block_map_ a) (reserved_blocks_ a) k && negb (in_handles new k)) start (size_ (block_map_ a)) = 0) as Hz0.
    { destruct (Z.le_gt_cases start (size_ (block_map_ a))); [|apply tally_empty; lia].
      apply (tally_const _ _ _ false); [lia|]. intros k Hk. pose proof (f_behind _ _ _ _ _ _ Hf k ltac:(lia) ltac:(lia)) as Hbk.
      rewrite Hb in Hbk. unfold free_block. destruct (raw_bit _ k), (rle_bit _ k), (in_handles new k); done. }
    ztest. rewrite Z.min_r by lia. split_and!; [repeat f_equal; lia|lia|done].
Qed.

(** ** The space manager's promise

    [space_ok sm m] relates the manager to the block map: its superblock counts the
    blocks of the map and the allocated ones.  Extending keeps the map's bits and adds
    free blocks; when it succeeds there are at least as many as were asked for. *)
Class SpaceManagerLaws (SM : Type) `{SpaceManager SM} := {
  space_ok : SM → RawBitmapBase → Prop;
  space_counts : ∀ sm m, space_ok sm m →
    (Info sm).(block_size) = 8192 ∧ (Info sm).(data_block_count) = m.(size_) ∧
    (Info sm).(alloc_block_count) = tally (raw_bit m) 0 m.(size_);
  add_blocks_law : ∀ sm n m, space_ok sm m → raw_ok m → m.(size_) ≤ 2 ^ 48 → 0 < n < 2 ^ 48 →
    ∃ st sm' m', AddBlocks sm n m = Returns (st, sm', m') ∧ raw_ok m' ∧ m.(size_) ≤ m'.(size_) ≤ 2 ^ 48 ∧
      (∀ k, 0 ≤ k < m'.(size_) → raw_bit m' k = (k <? m.(size_)) && raw_bit m k) ∧
      (Info sm').(block_size) = 8192 ∧ (Info sm').(alloc_block_count) = (Info sm).(alloc_block_count) ∧
      (Info sm).(data_block_count) ≤ (Info sm').(data_block_count) ≤ 2 ^ 48 ∧
      (st = ZX_OK → m.(size_) + n ≤ m'.(size_));
}.

(** Reservations are of blocks of the map that are not allocated. *)
Definition reservations_ok (a : Allocator) : Prop :=
  raw_ok a.(block_map_) ∧ a.(block_map_).(size_) ≤ 2 ^ 48 ∧ rle_ok a.(reserved_blocks_) ∧
  ∀ k, rle_bit a.(reserved_blocks_) k = true → 0 ≤ k < a.(block_map_).(size_) ∧ raw_bit a.(block_map_) k = false.

Lemma reservations_count a : reservations_ok a →
  tally (raw_bit a.(block_map_)) 0 a.(block_map_).(size_) + ReservedBlockCount a.(reserved_blocks_) ≤ a.(block_map_).(size_).
Proof.
  intros (Hm & Hs & Hr & Hin). pose proof Hm as ((? & _) & _).
  rewrite (ReservedBlockCount_tally _ (size_ (block_map_ a))); [|done| |done].
  - rewrite <- tally_disjoint.
    + pose proof (tally_range (λ k, raw_bit (block_map_ a) k || rle_bit (reserved_blocks_ a) k) 0 (size_ (block_map_ a))). lia.
    + intros k _. specialize (Hin k). destruct (rle_bit _ k); [|by rewrite andb_false_r]. by destruct Hin as [_ ->].
  - intros k Hk. specialize (Hin k). destruct (rle_bit _ k); [|done]. destruct Hin; [done|lia].
Qed.

Section reserve.
Context `{SpaceManagerLaws SM}.

Lemma LogAllocationFailure_ok a (sm : SM) n :
  (Info sm).(block_size) = 8192 → 0 ≤ (Info sm).(alloc_block_count) →
  (Info sm).(alloc_block_count) + ReservedBlockCount a.(reserved_blocks_) ≤ (Info sm).(data_block_count) ≤ 2 ^ 48 →
  0 ≤ ReservedBlockCount a.(reserved_blocks_) → LogAllocationFailure a sm n = Returns tt.
Proof using.
  intros Hb Ha Hsum Hr. unfold LogAllocationFailure, ZX_ASSERT. rewrite Hb. unwrap. by ztest.
Qed.

(** The handles of a search, destroyed, give the reservations back. *)
Lemma reserved_new_reset m start r r' new : rle_ok r → reserved_new m start r r' new → reset_extents true r' new = Returns r.
Proof using.
  intros Hr [Hok Hb Hh _ _]. destruct (reset_extents_ok r' new Hok) as (r2 & -> & Hok2 & Hb2).
  { eapply handles_mono; [|exact Hh]. intros k. by intros [? _]%andb_prop. }
  f_equal. apply rle_ext; [done..|]. intros k. rewrite Hb2, Hb. fold (in_handles new k).
  destruct (in_handles new k) eqn:E; [|by rewrite orb_false_r, andb_true_r].
  apply (handles_in _ _ _ Hh) in E. rewrite Hb, andb_true_iff, negb_true_iff in E. destruct E as [_ ->]. by rewrite andb_false_r.
Qed.

(** Two searches in a row, the second on a larger map. *)
Lemma reserved_new_app m m' s s' r r1 r2 new1 new2 :
  reserved_new m s r r1 new1 → reserved_new m' s' r1 r2 new2 → m.(size_) ≤ m'.(size_) → 0 ≤ s → 0 ≤ s' →
  (∀ k, 0 ≤ k < m'.(size_) → raw_bit m' k = (k <? m.(size_)) && raw_bit m k) →
  reserved_new m' 0 r r2 (new1 ++ new2).
Proof using.
  intros [Hok1 Hb1 Hh1 Hw1 Hf1] [Hok2 Hb2 Hh2 Hw2 Hf2] Hle Hs Hs' Hext. constructor.
  - done.
  - intros k. by rewrite Hb2, Hb1, in_handles_app, orb_assoc.
  - apply handles_app. split.
    + eapply handles_mono; [|exact Hh1]. intros k. cbn. rewrite Hb2. rewrite !andb_true_iff. intros [-> ->]. done.
    + eapply handles_mono; [|exact Hh2]. intros k. cbn. rewrite Hb1. rewrite negb_orb, !andb_true_iff. intros (-> & -> & ->). done.
  - by apply Forall_app.
  - intros k. rewrite in_handles_app, orb_true_iff. intros [Hk|Hk].
    + destruct (Hf1 k Hk) as [? Hfr]. split; [lia|]. revert Hfr. unfold free_block. rewrite Hext by lia. by ztest.
    + destruct (Hf2 k Hk) as [? Hfr]. split; [lia|]. revert Hfr. unfold free_block. rewrite Hb1, negb_orb, !andb_true_iff. tauto.
Qed.

(** The added blocks are enough for the second search. *)
Lemma added_free m m' r hint n : 0 ≤ hint ≤ m.(size_) → m.(size_) + n ≤ m'.(size_) → 0 ≤ n →
  (∀ k, 0 ≤ k < m'.(size_) → raw_bit m' k = (k <? m.(size_)) && raw_bit m k) →
  (∀ k, rle_bit r k = true → 0 ≤ k < m.(size_)) → n ≤ tally (free_block m' r) hint m'.(size_).
Proof using.
  intros Hh Hsz Hn Hext Hr. rewrite (tally_split _ _ (size_ m)) by lia. rewrite (tally_const _ (size_ m) _ true); [|lia|].
  - pose proof (tally_range (free_block m' r) hint (size_ m)). lia.
  - intros k Hk. unfold free_block. rewrite Hext by lia. ztest. cbn. specialize (Hr k). destruct (rle_bit r k); [|done].
    specialize (Hr eq_refl). lia.
Qed.

Lemma reservations_new m r r' start new a : reservations_ok a → 0 ≤ start →
  raw_ok m → m.(size_) ≤ 2 ^ 48 → a.(block_map_).(size_) ≤ m.(size_) →
  (∀ k, 0 ≤ k < m.(size_) → raw_bit m k = (k <? a.(block_map_).(size_)) && raw_bit a.(block_map_) k) →
  r = a.(reserved_blocks_) → reserved_new m start r r' new → reservations_ok (with_reserved_blocks (with_block_map a m) r').
Proof using.
  intros (_ & _ & _ & Hin) Hst Hm Hs Hle Hext -> [Hok Hb _ _ Hf]. split_and!; try done. cbn. intros k Hk.
  rewrite Hb, orb_true_iff in Hk. destruct Hk as [Hk|Hk].
  - destruct (Hin k Hk) as [? Hbit]. split; [lia|]. rewrite Hext, Hbit by lia. apply andb_false_r.
  - destruct (Hf k Hk) as [? Hfr]. split; [lia|]. unfold free_block in Hfr. by apply andb_prop in Hfr as [?%negb_true_iff _].
Qed.

Lemma reserved_new_nil m r : rle_ok r → reserved_new m 0 r r [].
Proof using. intros. constructor; try done. intros k. by rewrite orb_false_r. Qed.

Lemma ReserveBlocks_ok a (sm : SM) num :
  reservations_ok a → space_ok sm a.(block_map_) → 0 < num < 2 ^ 48 →
  let free := tally (free_block a.(block_map_) a.(reserved_blocks_)) 0 a.(block_map_).(size_) in
  ∃ st m r sm' new, ReserveBlocks true a sm num [] = Returns (st, with_reserved_blocks (with_block_map a m) r, sm', new) ∧
    raw_ok m ∧ a.(block_map_).(size_) ≤ m.(size_) ≤ 2 ^ 48 ∧
    (∀ k, 0 ≤ k < m.(size_) → raw_bit m k = (k <? a.(block_map_).(size_)) && raw_bit a.(block_map_) k) ∧
    reserved_new m 0 a.(reserved_blocks_) r new ∧
    (num ≤ free → st = ZX_OK ∧ m = a.(block_map_)) ∧
    ((st = ZX_OK ∧ blocks new = num) ∨ (st = ZX_ERR_NO_SPACE ∧ new = [] ∧ r = a.(reserved_blocks_) ∧ free < num)).
Proof using All.
  intros Hres Hsp Hnum free. pose proof Hres as (Hm & Hsz & Hr & Hin). pose proof Hm as (Hs & _).
  destruct (space_counts _ _ Hsp) as (Hbs & Hdc & Hac). unfold ReserveBlocks.
  destruct (FindBlocks_ok a 0 num [] Hm Hsz Hr (Z.le_refl 0) ltac:(lia)) as (r1 & new1 & -> & Hb1 & Hn1).
  fold free in Hb1 |- *. cbn [mbind outcome_bind app]. set (m0 := block_map_ a) in *.
  assert (Hfree : 0 ≤ free) by apply tally_range.
  assert (Hself : ∀ k, 0 ≤ k < size_ m0 → raw_bit m0 k = (k <? size_ m0) && raw_bit m0 k) by (intros k Hk; by ztest).
  destruct (Z.leb_spec num free) as [Hle|Hgt].
  { rewrite failed_ok. exists ZX_OK, m0, r1, sm, new1. rewrite Z.min_l in Hb1 by lia. split_and!; try done. by left. }
  rewrite Z.min_r in Hb1 |- * by lia. change (failed ZX_ERR_NO_SPACE) with true. cbn iota.
  cbn [with_reserved_blocks block_map_ reserved_blocks_]. fold m0. unfold ZX_DEBUG_ASSERT. ztest. cbn [mbind outcome_bind]. unwrap.
  destruct (add_blocks_law sm (num - free) m0 Hsp Hm Hsz ltac:(lia))
    as (st & sm' & m' & Hadd & Hm' & Hsz' & Hext & Hbs' & Hac' & Hdc' & Henough).
  rewrite Hadd. cbn [mbind outcome_bind].
  set (a1 := with_block_map (with_reserved_blocks a r1) m').
  assert (Hres1 : reservations_ok a1).
  { apply (reservations_new m' (reserved_blocks_ a) r1 0 new1 a); fold m0; try done; try lia.
    destruct Hn1 as [? ? ? ? Hf]. constructor; try done. intros k Hk. destruct (Hf k Hk) as [? Hfk]. split; [lia|].
    revert Hfk. unfold free_block. rewrite Hext by lia. by ztest. }
  assert (Hr1in : ∀ k, rle_bit r1 k = true → 0 ≤ k < size_ m0).
  { intros k Hk. rewrite (rn_bits _ _ _ _ _ Hn1), orb_true_iff in Hk.
    destruct Hk as [Hk|Hk]; [by destruct (Hin k Hk)|by destruct (rn_free _ _ _ _ _ Hn1 k Hk)]. }
  destruct (failed st) eqn:Hst; cycle 1.
  - assert (st = ZX_OK) as ->. { destruct (decide (st = ZX_OK)) as [->|Hne]; [done|]. by apply failed_spec in Hne; congruence. }
    destruct (FindBlocks_ok a1 (size_ m0 - Z.min num (size_ m0)) (num - free) new1) as (r2 & new2 & -> & Hb2 & Hn2);
      [done|cbn; lia|apply (rn_ok _ _ _ _ _ Hn1)|lia|lia|]. cbn [a1 with_block_map with_reserved_blocks block_map_ reserved_blocks_] in *.
    pose proof (added_free m0 m' r1 (size_ m0 - Z.min num (size_ m0)) (num - free) ltac:(lia)
      ltac:(specialize (Henough eq_refl); lia) ltac:(lia) Hext Hr1in) as Hen.
    ztest. cbn [mbind outcome_bind]. rewrite failed_ok.
    exists ZX_OK, m', r2, sm', (new1 ++ new2). rewrite blocks_app. split_and!; try done; try lia; [|left; split; [done|lia]].
    eapply reserved_new_app; [exact Hn1|exact Hn2|lia..|done].
  - cbn [mbind outcome_bind]. rewrite Hst. rewrite LogAllocationFailure_ok; [|done|..].
    + cbn [mbind outcome_bind]. unfold a1. cbn [with_block_map with_reserved_blocks reserved_blocks_].
      rewrite (reserved_new_reset _ _ _ _ _ Hr Hn1). cbn [mbind outcome_bind].
      exists ZX_ERR_NO_SPACE, m', (reserved_blocks_ a), sm', []. split_and!; try done; try lia; [|by right].
      by apply reserved_new_nil.
    + rewrite Hac', Hac. apply tally_range.
    + pose proof (reservations_count (with_reserved_blocks (with_block_map a m0) r1)) as Hcount.
      cbn [with_block_map with_reserved_blocks block_map_ reserved_blocks_ a1] in *.
      assert (reservations_ok (with_reserved_blocks (with_block_map a m0) r1)) as Hr2.
      { apply (reservations_new m0 (reserved_blocks_ a) r1 0 new1 a); (done || lia). }
      specialize (Hcount Hr2). rewrite Hac', Hac. unfold a1. cbn. lia.
    + unfold a1. cbn. rewrite (ReservedBlockCount_tally r1 (2 ^ 64)); [apply tally_range|apply (rn_ok _ _ _ _ _ Hn1)| |lia].
      intros k Hk. apply rle_bit_high; [apply (rn_ok _ _ _ _ _ Hn1)|done].
Qed.

End reserve.

(** ** Committing and freeing *)

Lemma MarkBlocksAllocated_ok a h :
  raw_ok a.(block_map_) → h.(reserved) = true → 0 < Length h.(extent_) →
  Start h.(extent_) + Length h.(extent_) ≤ a.(block_map_).(size_) →
  (∀ k, in_extent h.(extent_) k = true → raw_bit a.(block_map_) k = false) →
  ∃ m, MarkBlocksAllocated a h = Returns (with_block_map a m) ∧ raw_ok m ∧ m.(size_) = a.(block_map_).(size_) ∧
    ∀ k, 0 ≤ k → raw_bit m k = in_extent h.(extent_) k || raw_bit a.(block_map_) k.
Proof.
  intros Hm Hh He Hend Hfree. pose proof (extent_end (extent_ h)) as (Hs & Hl & Heq). pose proof Hm as (Hsz & _).
  unfold MarkBlocksAllocated, extent, CheckBlocksUnallocated, ZX_DEBUG_ASSERT. rewrite Hh. cbn [mbind outcome_bind].
  rewrite Heq. ztest. cbn [mbind outcome_bind]. unwrap.
  replace (Start (extent_ h) + Length (extent_ h) - Start (extent_ h)) with (Length (extent_ h)) by lia.
  destruct (RawBitmap.raw_Find_ok a.(block_map_) false (Start (extent_ h)) (Start (extent_ h) + Length (extent_ h)) (Length (extent_ h)) 0)
    as (st & out & -> & Hfind); [done|lia..|]. cbn [mbind outcome_bind fst].
  destruct Hfind as [(-> & _)|(_ & _ & Hno)].
  2:{ destruct (Hno (Start (extent_ h))). split; [lia|]. split; [lia|]. intros k Hk. apply Hfree. unfold in_extent. by ztest. }
  rewrite bool_decide_true by done. cbn [mbind outcome_bind].
  destruct (RawBitmap.Set_ok a.(block_map_) (Start (extent_ h)) (Start (extent_ h) + Length (extent_ h)))
    as (m & -> & Hm' & Hs' & _ & Hb); [done|lia..|]. cbn [mbind outcome_bind]. exists m. by split_and!.
Qed.

Lemma FreeBlocks_ok a e :
  raw_ok a.(block_map_) → 0 < Length e → Start e + Length e ≤ a.(block_map_).(size_) →
  (∀ k, in_extent e k = true → raw_bit a.(block_map_) k = true) →
  ∃ m, FreeBlocks a e = Returns (with_block_map a m) ∧ raw_ok m ∧ m.(size_) = a.(block_map_).(size_) ∧
    ∀ k, 0 ≤ k → raw_bit m k = negb (in_extent e k) && raw_bit a.(block_map_) k.
Proof.
  intros Hm He Hend Hset. pose proof (extent_end e) as (Hs & Hl & Heq). pose proof Hm as (Hsz & _).
  unfold FreeBlocks, CheckBlocksAllocated, ZX_DEBUG_ASSERT. rewrite Heq.
  destruct (RawBitmap.Get_ok a.(block_map_) (Start e) (Start e + Length e)) as (r & x & -> & Hr & _); [done|lia..|].
  cbn [mbind outcome_bind fst]. replace r with true.
  2:{ symmetry. apply Hr. intros k Hk. apply Hset. unfold in_extent. by ztest. }
  cbn [mbind outcome_bind].
  destruct (RawBitmap.Clear_ok a.(block_map_) (Start e) (Start e + Length e)) as (m & -> & Hm' & Hs' & _ & Hb); [done|lia..|].
  cbn [mbind outcome_bind]. exists m. by split_and!.
Qed.

(** ** Regions *)

Definition in_region (p : Z * Z) (k : Z) : bool := (p.1 <=? k) && (k <? p.1 + p.2).

(** Non-empty regions from [lo] on, in order, none next to the one before. *)
Fixpoint regions_from (lo : Z) (l : list (Z * Z)) : Prop :=
  match l with
  | [] => True
  | p :: l => lo ≤ p.1 ∧ 0 < p.2 ∧ regions_from (p.1 + p.2 + 1) l
  end.

Lemma regions_below lo l k : regions_from lo l → k < lo → existsb (λ p, in_region p k) l = false.
Proof.
  revert lo. induction l as [|p l IH]; intros lo; [done|]. cbn. intros (? & ? & Hr) Hk.
  rewrite (IH _ Hr) by lia. unfold in_region. by ztest.
Qed.

Lemma regions_loop_ok m fuel lo out :
  raw_ok m → 0 ≤ lo ≤ m.(size_) → m.(size_) - lo < Z.of_nat fuel → (lo ≠ 0 → lo < m.(size_) → raw_bit m lo = false) →
  ∃ l, regions_loop fuel m lo out = Returns (out ++ l) ∧ regions_from (if lo =? 0 then 0 else lo + 1) l ∧
    ∀ k, lo ≤ k < m.(size_) → raw_bit m k = existsb (λ p, in_region p k) l.
Proof.
  intros Hm. revert lo out. induction fuel as [|fuel IH]; intros lo out Hlo Hfuel Hbit; [lia|]. cbn [regions_loop].
  pose proof Hm as (Hsz & _). destruct (Scan_ok m lo (size_ m) false Hm) as (r & -> & Hr); [lia..|].
  rewrite Z.min_id in Hr. cbn [mbind outcome_bind]. destruct r as [off|].
  2:{ exists []. rewrite app_nil_r. split_and!; try done. }
  destruct Hr as (Hoff & Hb & Hbefore). apply not_false_iff_true in Hb.
  assert (lo = 0 ∨ lo < off).
  { destruct (Z.eq_dec lo 0); [by left|right]. destruct (Z.eq_dec lo off) as [->|]; [|lia]. rewrite Hbit in Hb by lia. done. }
  destruct (Scan_ok m off (size_ m) true Hm) as (r & -> & Hr); [lia..|]. rewrite Z.min_id in Hr. cbn [mbind outcome_bind].
  set (stop := match r with None => _ | Some e => e end).
  assert (Hstop : off < stop ≤ size_ m ∧ (stop < size_ m → raw_bit m stop = false) ∧ ∀ k, off ≤ k < stop → raw_bit m k = true).
  { unfold stop. destruct r as [y|].
    - destruct Hr as (Hy & Hby & Hall). apply not_true_iff_false in Hby. split_and!; try done; try lia.
      destruct (Z.eq_dec off y); [congruence|lia].
    - split_and!; try lia. exact Hr. }
  clearbody stop. destruct Hstop as (Hstop & Hsb & Hin). unwrap.
  destruct (IH stop (out ++ [(off, stop - off)])) as (l & -> & Hreg & Hk); [lia|lia|auto|].
  exists ((off, stop - off) :: l). rewrite <- app_assoc. split_and!; [done| |].
  - cbn. revert Hreg. ztest. intros Hreg. replace (off + (stop - off) + 1) with (stop + 1) by lia.
    split_and!; [zcases|lia|done].
  - intros k Hkr. cbn [existsb]. unfold in_region at 1. cbn [fst snd].
    destruct (Z.lt_ge_cases k off); [rewrite Hbefore by lia|destruct (Z.lt_ge_cases k stop); [rewrite Hin by lia|]].
    + ztest. cbn. symmetry. apply (regions_below _ _ _ Hreg). zcases.
    + by ztest.
    + rewrite Hk by lia. ztest. by rewrite andb_false_r.
Qed.

(** ** A volume of fixed size

    The space manager of a volume without FVM: it is the superblock, and never grows. *)
#[export] Instance fixed_volume : SpaceManager Superblock := {|
  Info := id;
  AddInodes := λ sm nodes, Returns (ZX_ERR_NO_SPACE, sm, nodes);
  AddBlocks := λ sm n m, Returns (ZX_ERR_NO_SPACE, sm, m);
|}.

#[export] Instance fixed_volume_laws : SpaceManagerLaws Superblock.
Proof.
  refine {| space_ok := λ sm m, sm.(block_size) = 8192 ∧ sm.(data_block_count) = m.(size_) ∧
    sm.(alloc_block_count) = tally (raw_bit m) 0 m.(size_) |}.
  - done.
  - intros sm n m (Hb & Hd & Ha) Hm Hs Hn. exists ZX_ERR_NO_SPACE, sm, m. cbn.
    split_and!; try done; try lia. intros k Hk. by ztest.
Defined.

(** A map of 200 blocks with blocks 0, 3 and 4 allocated, and blocks 6 and 7 reserved. *)
Definition example_blocks : Allocator := {|
  block_map_ := {| size_ := 200; data_ := [25; 0; 0; 0] |};
  node_map_ := []; node_bitmap_ := {| id_count_ := 0; level_count_ := 0; levels_ := [] |};
  reserved_blocks_ := {| elems_ := [{| bitoff := 6; bitlen := 2 |}]; num_elems_ := 1; num_bits_ := 2 |};
  reserved_nodes_ := empty_rle; log_allocation_failure_ := false |}.

Lemma example_blocks_ok : reservations_ok example_blocks.
Proof.
  split_and!.
  - apply raw_ok_intro; [lia|cbn; lia|]. repeat constructor; done.
  - cbn. lia.
  - by split_and!.
  - cbn. intros k. unfold rle_bit, in_runs, in_elem, fend. cbn [existsb elems_ bitoff bitlen].
    rewrite orb_false_r, andb_true_iff, Z.leb_le, Z.ltb_lt. intros Hk. split; [lia|].
    assert (k = 6 ∨ k = 7) as [-> | ->] by lia; reflexivity.
Qed.

(** ** Theorems *)

(** C26. The search for free blocks is complete and exact.  From any start, on any block
    map of up to 2^48 blocks and any reservations, [FindBlocks] returns; it succeeds
    exactly when there are enough blocks that are neither allocated nor reserved, and
    reserves as many as were asked for, or all there are.  The extents it appends are
    of free blocks, do not overlap, and are what the reservations have grown by. *)
Theorem find_blocks_exact (a : Allocator) (start num : Z) (out : list ReservedExtent) :
  raw_ok a.(block_map_) → a.(block_map_).(size_) ≤ 2 ^ 48 → rle_ok a.(reserved_blocks_) → 0 ≤ start → 0 ≤ num < 2 ^ 64 →
  let free := tally (free_block a.(block_map_) a.(reserved_blocks_)) start a.(block_map_).(size_) in
  ∃ r' new, FindBlocks true a start num out =
      Returns (if num <=? free then ZX_OK else ZX_ERR_NO_SPACE, with_reserved_blocks a r', out ++ new, Z.min num free) ∧
    blocks new = Z.min num free ∧ reserved_new a.(block_map_) start a.(reserved_blocks_) r' new.
Proof. apply FindBlocks_ok. Qed.

Lemma find_blocks_exact_witness :
  ∃ r' new, FindBlocks true example_blocks 0 195 [] = Returns (ZX_OK, with_reserved_blocks example_blocks r', new, 195) ∧
    blocks new = 195 ∧ reserved_new (block_map_ example_blocks) 0 (reserved_blocks_ example_blocks) r' new.
Proof.
  destruct example_blocks_ok as (Hm & Hs & Hr & _).
  pose proof (find_blocks_exact example_blocks 0 195 [] Hm Hs Hr ltac:(lia) ltac:(lia)) as H.
  cbn zeta in H. replace (tally _ 0 _) with 195 in H by (vm_compute; reflexivity). exact H.
Defined.


Definition example_info : Superblock := {|
  magic0 := kBlobfsMagic0; magic1 := kBlobfsMagic1; version := kBlobfsVersion; flags := kBlobFlagClean;
  block_size := kBlobfsBlockSize; data_block_count := 200; journal_block_count := 67;
  inode_count := kBlobfsDefaultInodeCount; alloc_block_count := 3; alloc_inode_count := 0;
  blob_header_next := 0; slice_size := 0; vslice_count := 0; abm_slices := 0; ino_slices := 0;
  dat_slices := 0; journal_slices := 0 |}.


(** Committing and freeing an extent.  A reserved extent of unallocated blocks can
    be committed: [MarkBlocksAllocated] sets exactly its bits; freeing it again with
    [FreeBlocks] clears them and leaves every block as it was. *)
Theorem commit_free_blocks (a : Allocator) (h : ReservedExtent) :
  raw_ok a.(block_map_) → h.(reserved) = true → 0 < Length h.(extent_) →
  Start h.(extent_) + Length h.(extent_) ≤ a.(block_map_).(size_) →
  (∀ k, in_extent h.(extent_) k = true → raw_bit a.(block_map_) k = false) →
  ∃ m m', MarkBlocksAllocated a h = Returns (with_block_map a m) ∧ raw_ok m ∧ m.(size_) = a.(block_map_).(size_) ∧
    (∀ k, 0 ≤ k → raw_bit m k = in_extent h.(extent_) k || raw_bit a.(block_map_) k) ∧
    FreeBlocks (with_block_map a m) h.(extent_) = Returns (with_block_map a m') ∧ raw_ok m' ∧
    m'.(size_) = a.(block_map_).(size_) ∧ ∀ k, 0 ≤ k → raw_bit m' k = raw_bit a.(block_map_) k.
Proof.
  intros Hm Hh He Hend Hfree. destruct (MarkBlocksAllocated_ok a h Hm Hh He Hend Hfree) as (m & HM & Hm1 & Hs1 & Hb1).
  pose proof (extent_end (extent_ h)) as (Hs & Hl & _).
  destruct (FreeBlocks_ok (with_block_map a m) (extent_ h)) as (m' & HF & Hm2 & Hs2 & Hb2); cbn in *; [done|done|lia| |].
  - intros k Hk. rewrite Hb1, Hk; [done|]. unfold in_extent in Hk. lia.
  - exists m, m'. split_and!; try done; [congruence|]. intros k Hk. rewrite Hb2, Hb1 by done.
    specialize (Hfree k). destruct (in_extent (extent_ h) k); [by rewrite Hfree|done].
Qed.

(** [GetAllocatedRegions] lists the allocated blocks: it returns, its regions are
    non-empty, in order and not adjacent (so each is as long as can be), and a block
    of the map is allocated exactly when it lies in one of them. *)
Theorem allocated_regions_exact (a : Allocator) :
  raw_ok a.(block_map_) →
  ∃ l, GetAllocatedRegions a = Returns l ∧ regions_from 0 l ∧
    ∀ k, 0 ≤ k < a.(block_map_).(size_) → raw_bit a.(block_map_) k = existsb (λ p, in_region p k) l.
Proof.
  intros Hm. pose proof Hm as (Hs & _).
  destruct (regions_loop_ok a.(block_map_) (S (Z.to_nat (size_ (block_map_ a)))) 0 []) as (l & E & Hreg & Hk); [done|lia|lia|done|].
  exists l. by split_and!.
Qed.

Lemma allocated_regions_exact_witness :
  ∃ l, GetAllocatedRegions example_blocks = Returns l ∧ regions_from 0 l ∧
    ∀ k, 0 ≤ k < 200 → raw_bit (block_map_ example_blocks) k = existsb (λ p, in_region p k) l.
Proof. apply (allocated_regions_exact example_blocks). exact (proj1 example_blocks_ok). Defined.
