(* ===== verification/AllocatorNodes.v ===== *)
(** * Reservation of nodes

    Nodes are handed out by the id allocator, in increasing order; a reservation is
    kept beside it until the node is written or given up. *)

From S2P Require Import Prelude Bitmap RawBitmap RleBitmap IdAllocator Format Reservers MerkleTree Allocator AllocatorBlocks.

(** ** The invariant *)

(** A node that the id allocator may hand out is neither reserved nor allocated. *)
Record nodes_ok (a : Allocator) (t : tree) : Prop := {
  n_ida : ida_ok a.(node_bitmap_) t;
  n_count : a.(node_bitmap_).(id_count_) = Z.of_nat (length a.(node_map_));
  n_index : a.(node_bitmap_).(id_count_) < 2 ^ 32;
  n_reserved : rle_ok a.(reserved_nodes_);
  n_free : ∀ i, 0 ≤ i < a.(node_bitmap_).(id_count_) → t.(lb) 0 i = false →
    rle_bit a.(reserved_nodes_) i = false ∧ ∃ n, a.(node_map_) !! Z.to_nat i = Some n ∧ IsAllocated n = false;
}.

Definition free_ids (a : Allocator) (t : tree) : list Z :=
  filter (λ i, t.(lb) 0 i = false) (seqZ 0 a.(node_bitmap_).(id_count_)).

Lemma elem_of_free_ids a t i :
  i ∈ free_ids a t ↔ 0 ≤ i < a.(node_bitmap_).(id_count_) ∧ t.(lb) 0 i = false.
Proof. unfold free_ids. rewrite list_elem_of_filter, elem_of_seqZ. intuition lia. Qed.

Lemma free_ids_nodup a t : NoDup (free_ids a t).
Proof. apply NoDup_filter, NoDup_seqZ. Qed.

Lemma filter_free_ext (f g : Z → bool) (l : list Z) : (∀ k, k ∈ l → f k = g k) →
  filter (λ k, f k = false) l = filter (λ k, g k = false) l.
Proof.
  induction l as [|x l IH]; intros Hfg; [done|]. rewrite !filter_cons, IH by (intros; apply Hfg; by right).
  rewrite (Hfg x) by left. done.
Qed.

Lemma filter_free_nil (f : Z → bool) (l : list Z) : (∀ k, k ∈ l → f k = true) → filter (λ k, f k = false) l = [].
Proof.
  intros Hf. rewrite (filter_free_ext f (λ _, true)) by done. clear Hf.
  induction l as [|x l IH]; [done|]. by rewrite filter_cons, decide_False by done.
Qed.

(** Taking the least free id leaves the others, in their order. *)
Lemma filter_free_take (f g : Z → bool) n i :
  0 ≤ i < n → f i = false → (∀ k, 0 ≤ k < i → f k = true) →
  (∀ k, g k = if k =? i then true else f k) →
  filter (λ k, f k = false) (seqZ 0 n) = i :: filter (λ k, g k = false) (seqZ 0 n).
Proof.
  intros Hi Hf Hl Hg.
  replace (seqZ 0 n) with (seqZ 0 i ++ i :: seqZ (Z.succ i) (Z.pred (n - i))).
  2: { rewrite <- (seqZ_cons i (n - i)) by lia. pose proof (seqZ_app 0 i (n - i) ltac:(lia) ltac:(lia)) as E. rewrite Z.add_0_l in E. rewrite <- E. f_equal. lia. }
  rewrite !filter_app, !filter_cons, decide_True by done. rewrite decide_False by (rewrite Hg; ztest; done).
  rewrite (filter_free_nil f), (filter_free_nil g); cbn [app].
  - f_equal. apply filter_free_ext. intros k Hk. apply elem_of_seqZ in Hk. rewrite Hg. by ztest.
  - intros k Hk. apply elem_of_seqZ in Hk. rewrite Hg. ztest. apply Hl. lia.
  - intros k Hk. apply elem_of_seqZ in Hk. apply Hl. lia.
Qed.

Lemma GetNode_ok a i n : 0 ≤ i → a.(node_map_) !! Z.to_nat i = Some n → GetNode a i = Returns n.
Proof.
  intros Hi Hn. unfold GetNode, ZX_DEBUG_ASSERT. pose proof (lookup_lt_Some _ _ _ Hn).
  ztest. cbn [mbind outcome_bind]. by apply array_get_returns.
Qed.

(** [FindNode] takes the first free node; nothing changes when there is none. *)
Lemma FindNode_ok a t : nodes_ok a t →
  match free_ids a t with
  | [] => FindNode a = Returns (ZX_ERR_OUT_OF_RANGE, None, a)
  | i :: ids => ∃ s t', FindNode a = Returns (ZX_OK, Some i, with_node_bitmap a s) ∧
      nodes_ok (with_node_bitmap a s) t' ∧ free_ids (with_node_bitmap a s) t' = ids ∧ t'.(lb) 0 i = true
  end.
Proof.
  intros [Hida Hc Hix Hr Hfree]. unfold FindNode.
  destruct (Allocate_ok _ _ Hida) as [[-> Hnone]|(i & s & t' & -> & Hok' & Hn' & Hid & Hf & Hl & Hb)]; cbn [mbind outcome_bind].
  { unfold free_ids. rewrite filter_free_nil; [by destruct a|]. intros k Hk. apply elem_of_seqZ in Hk. apply Hnone. lia. }
  unfold free_ids at 1. rewrite (filter_free_take _ (t'.(lb) 0) _ i) by done.
  destruct (Hfree i Hid Hf) as (Hres & n & Hn & Hun). exists s, t'. unfold ZX_ASSERT, UINT32_MAX. unwrap. ztest.
  cbn [mbind outcome_bind]. rewrite (GetNode_ok _ i n) by (done || lia). cbn [mbind outcome_bind]. rewrite Hun.
  cbn [negb mbind outcome_bind with_node_bitmap reserved_nodes_]. rewrite IsNodeReserved_ok by (done || lia). rewrite Hres.
  split_and!; [done| | |by rewrite Hb; ztest].
  - constructor; cbn; try done; [lia..|]. intros k Hk Hkf. rewrite Hb in Hkf. destruct (k =? i); [done|]. apply Hfree; [lia|done].
  - unfold free_ids. cbn. by rewrite Hn'.
Qed.

(** ** Reserving nodes *)

Definition reserved_node (i : Z) : ReservedNode := {| node_reserved := true; node_ := i |}.

Lemma reset_nodes_ok r ids : rle_ok r → NoDup ids → (∀ i, i ∈ ids → 0 ≤ i < 2 ^ 32 - 1 ∧ rle_bit r i = true) →
  ∃ r', reset_nodes true r (map reserved_node ids) = Returns r' ∧ rle_ok r' ∧
    ∀ k, rle_bit r' k = bool_decide (k ∉ ids) && rle_bit r k.
Proof.
  revert r. induction ids as [|i ids IH]; intros r Hr Hnd Hin.
  { exists r. split_and!; [done..|]. intros k. by rewrite bool_decide_true by (apply not_elem_of_nil). }
  apply NoDup_cons in Hnd as [Hi Hnd]. cbn [map reset_nodes ReservedNode_Reset reserved_node node_reserved index node_ ZX_DEBUG_ASSERT mbind outcome_bind].
  destruct (Hin i) as [Hb Hri]; [left|].
  destruct (NodeReserver_Unreserve_ok r i Hr Hb Hri) as (r1 & -> & Hr1 & Hb1). cbn [mbind outcome_bind snd].
  destruct (IH r1 Hr1 Hnd) as (r' & -> & Hr' & Hb').
  { intros j Hj. destruct (Hin j) as [? Hrj]; [by right|]. split; [done|]. rewrite Hb1, Hrj.
    assert (j ≠ i) by (by intros ->). by ztest. }
  exists r'. split_and!; [done..|]. intros k. rewrite Hb', Hb1, andb_assoc. f_equal.
  rewrite (bool_decide_ext (k ∉ i :: ids) (k ≠ i ∧ k ∉ ids)) by (rewrite not_elem_of_cons; done).
  rewrite bool_decide_and, andb_comm. f_equal. by destruct (Z.eqb_spec k i); [rewrite bool_decide_false by naive_solver|rewrite bool_decide_true by done].
Qed.

(** A volume that cannot be given more nodes. *)
Definition full_volume {SM} `{SpaceManager SM} (sm : SM) : Prop :=
  ∀ m, ∃ st, AddInodes sm m = Returns (st, sm, m) ∧ failed st = true.

Section reserve.
Context {SM : Type} `{SpaceManager SM} (st : Z → Storage) (sm : SM).

(** What reserving nodes leaves alone. *)
Definition same_nodes (a a' : Allocator) : Prop :=
  a'.(node_map_) = a.(node_map_) ∧ a'.(block_map_) = a.(block_map_) ∧
  a'.(reserved_blocks_) = a.(reserved_blocks_).

Lemma ReserveNode_found a t i ids : nodes_ok a t → free_ids a t = i :: ids →
  ∃ a' t', ReserveNode true st a sm = Returns (Some (reserved_node i), a', sm) ∧
    nodes_ok a' t' ∧ free_ids a' t' = ids ∧ same_nodes a a' ∧
    ∀ k, rle_bit a'.(reserved_nodes_) k = (k =? i) || rle_bit a.(reserved_nodes_) k.
Proof.
  intros Hok Hids. pose proof (FindNode_ok a t Hok) as Hf. rewrite Hids in Hf.
  destruct Hf as (s & t' & E & Hok' & Hids' & Hbusy). unfold ReserveNode. rewrite E. cbn [mbind outcome_bind]. rewrite failed_ok. cbn [mbind outcome_bind].
  assert (i ∈ free_ids a t) as Hi by (rewrite Hids; left). apply elem_of_free_ids in Hi as [Hi Hfree].
  destruct Hok as [_ Hc Hix Hr Hn]. destruct (Hn i Hi Hfree) as (Hres & n & Hni & Hun).
  rewrite (GetNode_ok _ i n) by (done || lia). cbn [mbind outcome_bind]. rewrite Hun. unfold ZX_DEBUG_ASSERT.
  cbn [negb mbind outcome_bind with_node_bitmap reserved_nodes_]. unfold NewReservedNode.
  destruct (NodeReserver_Reserve_ok a.(reserved_nodes_) i Hr) as (r' & -> & Hr' & Hb'); [lia|done|].
  cbn [mbind outcome_bind fst snd]. eexists _, t'. split_and!; [done| |done|done|exact Hb'].
  destruct Hok' as [Hida' Hc' Hix' _ Hn']. constructor; cbn in *; try done.
  intros k Hk Hkf. destruct (Hn' k Hk Hkf) as [Hkr Hkn]. split; [|done]. rewrite Hb', Hkr.
  assert (k ≠ i) by congruence. by ztest.
Qed.

Lemma ReserveNode_none a t : nodes_ok a t → free_ids a t = [] → full_volume sm →
  ReserveNode true st a sm = Returns (None, a, sm).
Proof.
  intros Hok Hids Hfull. pose proof (FindNode_ok a t Hok) as Hf. rewrite Hids in Hf. unfold ReserveNode.
  rewrite Hf. cbn [mbind outcome_bind]. change (failed ZX_ERR_OUT_OF_RANGE) with true. destruct (Hfull a.(node_map_)) as (e & He & Hfail).
  unfold Grow. rewrite He. cbn [mbind outcome_bind]. rewrite Hfail. cbn [mbind outcome_bind].
  rewrite Hfail. by destruct a.
Qed.

(** With enough free nodes the loop takes them in order, and the volume is not asked for more. *)
Lemma reserve_nodes_enough n a t base : nodes_ok a t → (n ≤ length (free_ids a t))%nat →
  ∃ a' t', reserve_nodes_loop true st n a sm (map reserved_node base) = Returns (ZX_OK, a', sm, map reserved_node (base ++ take n (free_ids a t))) ∧
    nodes_ok a' t' ∧ free_ids a' t' = drop n (free_ids a t) ∧ same_nodes a a' ∧
    ∀ k, rle_bit a'.(reserved_nodes_) k = bool_decide (k ∈ take n (free_ids a t)) || rle_bit a.(reserved_nodes_) k.
Proof.
  revert a t base. induction n as [|n IH]; intros a t base Hok Hn; cbn [reserve_nodes_loop].
  { exists a, t. by rewrite take_0, app_nil_r. }
  destruct (free_ids a t) as [|i ids] eqn:Hids; [cbn in Hn; lia|].
  destruct (ReserveNode_found a t i ids Hok Hids) as (a1 & t1 & -> & Hok1 & Hids1 & Hsame1 & Hb1). cbn [mbind outcome_bind].
  destruct (IH a1 t1 (base ++ [i]) Hok1) as (a' & t' & E & Hok' & Hids' & Hsame' & Hb'); [rewrite Hids1; cbn in Hn; lia|].
  rewrite map_app in E. cbn [map] in E. rewrite Hids1 in *. exists a', t'. rewrite E, <- app_assoc. destruct Hsame1 as (? & ? & ?), Hsame' as (? & ? & ?).
  split_and!; [done|done|done|by split_and!; etransitivity|].
  intros k. rewrite Hb', Hb1, orb_assoc. f_equal. apply eq_true_iff_eq. cbn [take]. rewrite orb_true_iff, !bool_decide_eq_true, Z.eqb_eq, elem_of_cons. tauto.
Qed.

(** With too few, on a volume that cannot grow, it takes them all and gives the reservations back. *)
Lemma reserve_nodes_few n a t base :
  nodes_ok a t → full_volume sm → NoDup base → (length (free_ids a t) < n)%nat →
  (∀ i, i ∈ base → 0 ≤ i < 2 ^ 32 - 1 ∧ rle_bit a.(reserved_nodes_) i = true) →
  ∃ a' t', reserve_nodes_loop true st n a sm (map reserved_node base) = Returns (ZX_ERR_NO_SPACE, a', sm, []) ∧
    nodes_ok a' t' ∧ free_ids a' t' = [] ∧ same_nodes a a' ∧
    ∀ k, rle_bit a'.(reserved_nodes_) k = bool_decide (k ∉ base) && rle_bit a.(reserved_nodes_) k.
Proof.
  intros Hok Hfull. revert a t base Hok. induction n as [|n IH]; intros a t base Hok Hnd Hn Hbase; cbn [reserve_nodes_loop]; [lia|].
  destruct (free_ids a t) as [|i ids] eqn:Hids.
  - rewrite (ReserveNode_none a t) by done. cbn [mbind outcome_bind]. destruct (reset_nodes_ok a.(reserved_nodes_) base) as (r' & -> & Hr' & Hb'); [apply Hok|done|done|].
    cbn [mbind outcome_bind]. exists (with_reserved_nodes a r'), t. split_and!; try done.
    destruct Hok as [? ? ? ? Hfr]. constructor; cbn; try done. intros k Hk Hkf. destruct (Hfr k Hk Hkf) as [Hkr ?]. split; [|done]. by rewrite Hb', Hkr, andb_false_r.
  - destruct (ReserveNode_found a t i ids Hok Hids) as (a1 & t1 & -> & Hok1 & Hids1 & Hsame1 & Hb1). cbn [mbind outcome_bind].
    assert (i ∈ free_ids a t) as Hif by (rewrite Hids; left). apply elem_of_free_ids in Hif as [Hir Hif]. pose proof (n_index _ _ Hok) as Hix.
    assert (rle_bit a.(reserved_nodes_) i = false) as Hi0 by (by apply (n_free _ _ Hok i)).
    assert (i ∉ base) as Hib by (intros Hb; destruct (Hbase i Hb) as [_ ?]; congruence).
    destruct (IH a1 t1 (base ++ [i]) Hok1) as (a' & t' & E & Hok' & Hids' & Hsame' & Hb').
    { apply NoDup_app. split_and!; [done| |apply NoDup_singleton]. intros x Hx Hxi%list_elem_of_singleton. congruence. }
    { rewrite Hids1. cbn in Hn. lia. }
    { intros j [Hj|Hj%list_elem_of_singleton]%elem_of_app; rewrite Hb1; [|subst j; split; [lia|by rewrite Z.eqb_refl]].
      destruct (Hbase j Hj) as [? ->]. by rewrite orb_true_r. }
    rewrite map_app in E. cbn [map] in E. exists a', t'. rewrite E. destruct Hsame1 as (? & ? & ?), Hsame' as (? & ? & ?).
    split_and!; [done|done|done|by split_and!; etransitivity|]. intros k. rewrite Hb', Hb1. destruct (Z.eqb_spec k i) as [->|Hne].
    + rewrite bool_decide_false by set_solver. by rewrite Hi0, andb_false_r.
    + cbn [orb]. f_equal. apply bool_decide_ext. set_solver.
Qed.

End reserve.

(** ** Writing and freeing nodes *)

Lemma SetNode_ok a i n : 0 ≤ i < Z.of_nat (length a.(node_map_)) →
  SetNode a i n = Returns (with_node_map a (<[Z.to_nat i := n]> a.(node_map_))).
Proof. intros Hi. unfold SetNode. by rewrite array_set_in by done. Qed.

(** Writing a node that the id allocator holds back keeps the invariant. *)
Lemma nodes_ok_write a t i n : nodes_ok a t → 0 ≤ i → t.(lb) 0 i = true →
  nodes_ok (with_node_map a (<[Z.to_nat i := n]> a.(node_map_))) t.
Proof.
  intros [Hida Hc Hix Hr Hfree] Hi Hbusy. constructor; cbn; try done; [by rewrite length_insert|].
  intros k Hk Hkf. destruct (Hfree k Hk Hkf) as (Hkr & x & Hx & Hun). split; [done|]. exists x. split; [|done].
  rewrite list_lookup_insert_ne; [done|]. intros Heq. assert (k = i) by lia. congruence.
Qed.

Lemma MarkInodeAllocated_ok a t i n : nodes_ok a t → 0 ≤ i < a.(node_bitmap_).(id_count_) →
  t.(lb) 0 i = true → a.(node_map_) !! Z.to_nat i = Some n → IsAllocated n = false →
  let n' := field_set next_node (field_set node_flags n kBlobFlagAllocated) 0 in
  let a' := with_node_map a (<[Z.to_nat i := n']> a.(node_map_)) in
  MarkInodeAllocated a (reserved_node i) = Returns a' ∧ nodes_ok a' t.
Proof.
  intros Hok Hi Hbusy Hn Hun n' a'. split; [|by apply nodes_ok_write; [|lia|]].
  unfold MarkInodeAllocated. cbn [index reserved_node node_reserved node_ ZX_DEBUG_ASSERT mbind outcome_bind].
  rewrite (GetNode_ok a i n) by (done || lia). cbn [mbind outcome_bind]. unfold IsAllocated in Hun.
  apply negb_false_iff in Hun. rewrite Hun. cbn [ZX_ASSERT mbind outcome_bind]. rewrite (n_count _ _ Hok) in Hi.
  by rewrite SetNode_ok by done.
Qed.

Lemma FreeNode_ok a t i n : nodes_ok a t → 0 ≤ i < a.(node_bitmap_).(id_count_) →
  t.(lb) 0 i = true → rle_bit a.(reserved_nodes_) i = false →
  a.(node_map_) !! Z.to_nat i = Some n → length n = kNodeWords →
  ∃ s t', let m := <[Z.to_nat i := field_set node_flags n 0]> a.(node_map_) in
    FreeNode a i = Returns (with_node_bitmap (with_node_map a m) s) ∧
    nodes_ok (with_node_bitmap (with_node_map a m) s) t' ∧
    s.(id_count_) = a.(node_bitmap_).(id_count_) ∧ ∀ k, t'.(lb) 0 k = if k =? i then false else t.(lb) 0 k.
Proof.
  intros [Hida Hc Hix Hr Hfree] Hi Hbusy Hres Hn Hlen. unfold FreeNode.
  rewrite (GetNode_ok a i n) by (done || lia). cbn [mbind outcome_bind]. rewrite SetNode_ok by lia.
  cbn [mbind outcome_bind with_node_map node_bitmap_].
  destruct (Free_ok _ _ i Hida Hi Hbusy) as (s & t' & -> & Hok' & Hc' & Hb). cbn [mbind outcome_bind].
  rewrite bool_decide_true by done. exists s, t'. split_and!; try done.
  constructor; cbn; try done; [by rewrite length_insert, Hc', Hc|lia|]. intros k Hk Hkf. rewrite Hb in Hkf.
  destruct (Z.eqb_spec k i) as [->|Hne].
  - split; [done|]. exists (field_set node_flags n 0). rewrite list_lookup_insert_eq by lia. split; [done|]. unfold IsAllocated.
    rewrite field_get_set; [done|reflexivity| |cbn; lia]. rewrite Hlen. unfold kNodeWords. cbn. lia.
  - destruct (Hfree k) as (Hkr & x & Hx & Hun); [lia|done|]. split; [done|]. exists x.
    rewrite list_lookup_insert_ne by lia. done.
Qed.

(** ** Theorems *)

Lemma example_full : full_volume example_info.
Proof. intros m. by exists ZX_ERR_NO_SPACE. Qed.

(** An allocator of four nodes that are all free. *)
Definition example_nodes (s : IdAllocator) : Allocator := {|
  block_map_ := example_blocks.(block_map_); node_map_ := replicate 4 (replicate kNodeWords 0);
  node_bitmap_ := s; reserved_blocks_ := empty_rle; reserved_nodes_ := empty_rle; log_allocation_failure_ := true |}.

Lemma example_nodes_ok : ∃ s t, nodes_ok (example_nodes s) t ∧ free_ids (example_nodes s) t = [0; 1; 2; 3].
Proof.
  destruct (Create_ok vmo 4) as (s & t & _ & Hok & Hid & Hfree); [lia|intros; apply vmo_reliable|].
  exists s, t. split.
  - constructor; cbn -[replicate]; rewrite ?Hid; try done. intros i Hi _. split; [done|].
    exists (replicate kNodeWords 0). split; [|done]. apply lookup_replicate. split; [done|lia].
  - unfold free_ids. cbn. rewrite Hid. rewrite (filter_free_ext _ (λ _, false)); [done|].
    intros k Hk%elem_of_seqZ. apply Hfree. lia.
Qed.

(** [ReserveNodes] hands out free nodes, least first: with enough of them free it
    succeeds with exactly the first [num] free nodes, marks those and no others as
    reserved, and writes no node; the assertions that a node handed out is neither
    reserved nor allocated hold. *)
Theorem reserve_nodes_least {SM} `{SpaceManager SM} (st : Z → Storage) (sm : SM) (a : Allocator) (t : tree) (num : Z) :
  nodes_ok a t → 0 ≤ num ≤ Z.of_nat (length (free_ids a t)) →
  let ids := take (Z.to_nat num) (free_ids a t) in
  ∃ a' t', ReserveNodes true st a sm num [] = Returns (ZX_OK, a', sm, map reserved_node ids) ∧
    nodes_ok a' t' ∧ free_ids a' t' = drop (Z.to_nat num) (free_ids a t) ∧ same_nodes a a' ∧
    ∀ k, rle_bit a'.(reserved_nodes_) k = bool_decide (k ∈ ids) || rle_bit a.(reserved_nodes_) k.
Proof.
  intros Hok Hnum ids. apply (reserve_nodes_enough st sm (Z.to_nat num) a t [] Hok). lia.
Qed.

(** A failed [ReserveNodes] leaks nodes.  On a volume that cannot grow, asking for
    more nodes than are free gives [ZX_ERR_NO_SPACE] and gives every reservation back;
    but the ids it took stay busy in the id allocator, so that although no node was
    written and none is reserved that was not before, no free node is left and no
    later [ReserveNode] succeeds. *)
Theorem reserve_nodes_leak {SM} `{SpaceManager SM} (st : Z → Storage) (sm : SM) (a : Allocator) (t : tree) (num : Z) :
  nodes_ok a t → full_volume sm → Z.of_nat (length (free_ids a t)) < num →
  ∃ a', ReserveNodes true st a sm num [] = Returns (ZX_ERR_NO_SPACE, a', sm, []) ∧
    same_nodes a a' ∧ (∀ k, rle_bit a'.(reserved_nodes_) k = rle_bit a.(reserved_nodes_) k) ∧
    ReserveNode true st a' sm = Returns (None, a', sm).
Proof.
  intros Hok Hfull Hnum.
  destruct (reserve_nodes_few st sm (Z.to_nat num) a t [] Hok Hfull) as (a' & t' & E & Hok' & Hids' & Hsame & Hb);
    [constructor|lia|intros i Hi; by apply not_elem_of_nil in Hi|]. exists a'. split_and!; [done|apply Hsame..| |].
  - intros k. rewrite Hb, bool_decide_true; [done|apply not_elem_of_nil].
  - by apply (ReserveNode_none st sm a' t').
Qed.

(** The life of a node: a reserved node can be written with [MarkInodeAllocated],
    its handle dropped, and the node freed; afterwards the invariant of the node map
    holds and exactly that node is free in addition to the nodes that were. *)
Theorem node_lifecycle (a : Allocator) (t : tree) (i : Z) (n : Inode) :
  nodes_ok a t → 0 ≤ i < a.(node_bitmap_).(id_count_) → t.(lb) 0 i = true →
  rle_bit a.(reserved_nodes_) i = true → a.(node_map_) !! Z.to_nat i = Some n →
  IsAllocated n = false → length n = kNodeWords →
  ∃ a1 h r a2 t2, MarkInodeAllocated a (reserved_node i) = Returns a1 ∧
    (∃ n1, GetNode a1 i = Returns n1 ∧ IsAllocated n1 = true ∧ IsExtentContainer n1 = false) ∧
    ReservedNode_Reset true a1.(reserved_nodes_) (reserved_node i) = Returns (h, r) ∧
    FreeNode (with_reserved_nodes a1 r) i = Returns a2 ∧ nodes_ok a2 t2 ∧
    (∀ k, k ∈ free_ids a2 t2 ↔ k = i ∨ k ∈ free_ids a t) ∧
    ∀ k, rle_bit a2.(reserved_nodes_) k = negb (k =? i) && rle_bit a.(reserved_nodes_) k.
Proof.
  intros Hok Hi Hbusy Hres Hn Hun Hlen. pose proof (n_count _ _ Hok) as Hc. pose proof (n_index _ _ Hok) as Hix.
  destruct (MarkInodeAllocated_ok a t i n Hok Hi Hbusy Hn Hun) as [E1 Hok1].
  set (n1 := field_set next_node _ _) in *.
  assert (length n1 = kNodeWords ∧ IsAllocated n1 = true ∧ IsExtentContainer n1 = false) as (Hl1 & Ha1 & Hx1).
  { unfold Inode, kNodeWords in *. unfold IsAllocated, IsExtentContainer, n1. rewrite !length_field_set.
    change kBlobFlagAllocated with 1. by fields. }
  clearbody n1. set (a1 := with_node_map _ _) in *.
  destruct (NodeReserver_Unreserve_ok a.(reserved_nodes_) i) as (r & Er & Hr & Hb); [apply Hok|lia|done|].
  assert (node_map_ a1 !! Z.to_nat i = Some n1) as Hn1.
  { unfold a1. cbn [with_node_map node_map_]. apply list_lookup_insert_eq. exact (lookup_lt_Some _ _ _ Hn). }
  assert (nodes_ok (with_reserved_nodes a1 r) t) as Hok2.
  { destruct Hok1 as [? ? ? ? Hf]. constructor; cbn in *; try done. intros k Hk Hkf.
    destruct (Hf k Hk Hkf) as [Hkr ?]. split; [|done]. by rewrite Hb, Hkr, andb_false_r. }
  destruct (FreeNode_ok (with_reserved_nodes a1 r) t i n1) as (s & t2 & E2 & Hok3 & Hs & Hb2); cbn in *;
    [done|lia|done|rewrite Hb; by ztest|done|done|].
  eexists a1, _, r, _, t2. split_and!; [exact E1| | |exact E2|exact Hok3| |exact Hb].
  - exists n1. by rewrite (GetNode_ok a1 i n1) by (done || lia).
  - unfold ReservedNode_Reset. cbn [reserved_node node_reserved index node_ ZX_DEBUG_ASSERT mbind outcome_bind].
    cbn in Er |- *. rewrite Er. done.
  - intros k. rewrite !elem_of_free_ids. cbn. rewrite Hs, Hb2. destruct (Z.eqb_spec k i); intuition lia || done.
Qed.

