(* ===== verification/Iterators.v ===== *)
(** * Iterators over extents and blocks (ulib/blobfs/iterator/)

    [ExtentIterator] is the interface of the two iterators over extents: the one over
    a vector of reservations and the one over the nodes of a written blob.
    [BlockIterator] and [StreamBlocks] are written against it.  [NodePopulator] stores
    the extents of a blob in nodes, where [AllocatedExtentIterator] finds them. *)

From S2P Require Import Prelude Bitmap RawBitmap RleBitmap IdAllocator Format Reservers MerkleTree Allocator.

Class ExtentIterator (I : Type) := {
  Done : I → outcome bool;
  Next : I → outcome (zx_status * option Extent * I);
  BlockIndex : I → Z;
}.

(** ** Extents in a vector *)

Record VectorExtentIterator := { v_extents_ : list ReservedExtent; v_extent_index_ : Z; block_count_ : Z }.

Definition NewVectorExtentIterator (extents : list ReservedExtent) : VectorExtentIterator :=
  {| v_extents_ := extents; v_extent_index_ := 0; block_count_ := 0 |}.

Definition VectorExtentIterator_Done (it : VectorExtentIterator) : outcome bool :=
  Returns (it.(v_extent_index_) =? Z.of_nat (length it.(v_extents_))).

Definition VectorExtentIterator_Next (it : VectorExtentIterator)
    : outcome (zx_status * option Extent * VectorExtentIterator) :=
  d ← VectorExtentIterator_Done it;
  _ ← ZX_DEBUG_ASSERT (negb d);
  r ← array_get it.(v_extents_) it.(v_extent_index_);
  e ← extent r;
  Returns (ZX_OK, Some e,
    {| v_extents_ := it.(v_extents_); v_extent_index_ := it.(v_extent_index_) ⊞ 1;
       block_count_ := it.(block_count_) ⊞ Length e |}).

#[export] Instance vector_extent_iterator : ExtentIterator VectorExtentIterator := {|
  Done := VectorExtentIterator_Done;
  Next := VectorExtentIterator_Next;
  BlockIndex := block_count_;
|}.

(** ** Extents of an allocated node *)

(** The pointers to the inode and to the current container are their indices in the
    node map of [finder_]; [extent_node_] is [None] for the null pointer. *)
Record AllocatedExtentIterator := {
  finder_ : Allocator;
  inode_ : Z;
  node_index_ : Z;
  extent_node_ : option Z;
  block_index_ : Z;
  extent_index_ : Z;
  local_index_ : Z;
}.

Definition NewAllocatedExtentIterator (finder : Allocator) (node_index : Z) : outcome AllocatedExtentIterator :=
  _ ← GetNode finder node_index;
  Returns {| finder_ := finder; inode_ := node_index; node_index_ := node_index; extent_node_ := None;
             block_index_ := 0; extent_index_ := 0; local_index_ := 0 |}.

Definition deref (it : AllocatedExtentIterator) (i : Z) : outcome Inode :=
  array_get it.(finder_).(node_map_) i.

Definition AllocatedExtentIterator_Done (it : AllocatedExtentIterator) : outcome bool :=
  n ← deref it it.(inode_);
  Returns (it.(extent_index_) =? field_get inode_extent_count n).

Definition ExtentIndex (it : AllocatedExtentIterator) : Z := it.(extent_index_).

Definition NodeIndex (it : AllocatedExtentIterator) : outcome Z :=
  d ← AllocatedExtentIterator_Done it;
  _ ← ZX_DEBUG_ASSERT (negb d);
  Returns it.(node_index_).

Definition IsInode (it : AllocatedExtentIterator) : bool :=
  match it.(extent_node_) with None => true | Some _ => false end.

Definition ValidateExtentCount (it : AllocatedExtentIterator) : outcome zx_status :=
  _ ← ZX_DEBUG_ASSERT (it.(local_index_) <? (if IsInode it then kInlineMaxExtents else kContainerMaxExtents));
  match it.(extent_node_) with
  | None => Returns ZX_OK
  | Some c =>
    n ← deref it c;
    if field_get container_extent_count n <? it.(local_index_) then Returns ZX_ERR_IO_DATA_INTEGRITY
    else Returns ZX_OK
  end.

Definition UpdateIndices (it : AllocatedExtentIterator) (e : Extent) : AllocatedExtentIterator := {|
  finder_ := it.(finder_); inode_ := it.(inode_); node_index_ := it.(node_index_); extent_node_ := it.(extent_node_);
  block_index_ := it.(block_index_) ⊞ Length e;
  extent_index_ := u32 (it.(extent_index_) + 1);
  local_index_ := u32 (it.(local_index_) + 1) |}.

Definition GetExtent (it : AllocatedExtentIterator) : outcome Extent :=
  match it.(extent_node_) with
  | None => n ← deref it it.(inode_); Returns (field_get (inode_extents it.(local_index_)) n)
  | Some c => n ← deref it c; Returns (field_get (container_extents it.(local_index_)) n)
  end.

Definition GetNextNode (it : AllocatedExtentIterator) : outcome Z :=
  n ← deref it (match it.(extent_node_) with None => it.(inode_) | Some c => c end);
  Returns (field_get next_node n).

Definition NextContainer (it : AllocatedExtentIterator) : outcome (zx_status * AllocatedExtentIterator) :=
  d ← AllocatedExtentIterator_Done it;
  _ ← ZX_DEBUG_ASSERT (negb d);
  node_index ← GetNextNode it;
  n ← GetNode it.(finder_) node_index;
  let it := {| finder_ := it.(finder_); inode_ := it.(inode_); node_index_ := node_index;
    extent_node_ := Some node_index; block_index_ := it.(block_index_);
    extent_index_ := it.(extent_index_); local_index_ := 0 |} in
  Returns (if IsAllocated n && IsExtentContainer n then ZX_OK else ZX_ERR_IO_DATA_INTEGRITY, it).

Definition AllocatedExtentIterator_Next (it : AllocatedExtentIterator)
    : outcome (zx_status * option Extent * AllocatedExtentIterator) :=
  d ← AllocatedExtentIterator_Done it;
  _ ← ZX_DEBUG_ASSERT (negb d);
  status ← ValidateExtentCount it;
  if failed status then Returns (status, None, it)
  else
    e ← GetExtent it;
    let it := UpdateIndices it e in
    d ← AllocatedExtentIterator_Done it;
    full ← (match it.(extent_node_) with
            | None => Returns (it.(local_index_) =? kInlineMaxExtents)
            | Some c => n ← deref it c; Returns (it.(local_index_) =? field_get container_extent_count n)
            end);
    if negb d && full then
      r ← NextContainer it;
      let '(status, it) := r in
      if failed status then Returns (status, None, it) else Returns (ZX_OK, Some e, it)
    else Returns (ZX_OK, Some e, it).

#[export] Instance allocated_extent_iterator : ExtentIterator AllocatedExtentIterator := {|
  Done := AllocatedExtentIterator_Done;
  Next := AllocatedExtentIterator_Next;
  BlockIndex := block_index_;
|}.

(** ** Blocks *)

Section blocks.
Context {I : Type} `{ExtentIterator I}.

Record BlockIterator := { iterator_ : I; extent_ : option Extent; blocks_left_ : Z }.

Definition NewBlockIterator (iterator : I) : BlockIterator :=
  {| iterator_ := iterator; extent_ := None; blocks_left_ := 0 |}.

Definition BlockIterator_Done (b : BlockIterator) : outcome bool :=
  if b.(blocks_left_) =? 0 then Done b.(iterator_) else Returns false.

Definition BlockIterator_BlockIndex (b : BlockIterator) : Z := BlockIndex b.(iterator_) ⊟ b.(blocks_left_).

(** Takes the next extent when no block of the current one is left. *)
Definition refill (b : BlockIterator) : outcome (zx_status * BlockIterator) :=
  if b.(blocks_left_) =? 0 then
    r ← Next b.(iterator_);
    let '(status, e, it) := r in
    if failed status then
      Returns (status, {| iterator_ := it; extent_ := b.(extent_); blocks_left_ := b.(blocks_left_) |})
    else
      match e with
      | None => Aborts
      | Some x => Returns (ZX_OK, {| iterator_ := it; extent_ := Some x; blocks_left_ := Length x |})
      end
  else Returns (ZX_OK, b).

(** The length and the start of the blocks. *)
Definition BlockIterator_Next (b : BlockIterator) (length : Z) : outcome (zx_status * Z * Z * BlockIterator) :=
  d ← BlockIterator_Done b;
  _ ← ZX_DEBUG_ASSERT (negb d);
  r ← refill b;
  let '(status, b) := r in
  if failed status then Returns (status, 0, 0, b)
  else
    match b.(extent_) with
    | None => Aborts
    | Some e =>
      let out_length := Z.min b.(blocks_left_) length in
      let out_start := (Start e ⊞ Length e) ⊟ b.(blocks_left_) in
      Returns (ZX_OK, out_length, out_start,
        {| iterator_ := b.(iterator_); extent_ := Some e; blocks_left_ := u32 (b.(blocks_left_) - out_length) |})
    end.

(** The callback has its own state, which it is given and returns. *)
Fixpoint StreamBlocks {S : Type} (stream : S → Z → Z → Z → outcome (zx_status * S)) (fuel : nat)
    (b : BlockIterator) (block_count : Z) (s : S) : outcome (zx_status * BlockIterator * S) :=
  match fuel with
  | O => Diverges
  | Datatypes.S fuel =>
    if 0 <? block_count then
      d ← BlockIterator_Done b;
      if (d : bool) then Returns (ZX_ERR_IO_DATA_INTEGRITY, b, s)
      else
        let local_offset := BlockIterator_BlockIndex b in
        r ← BlockIterator_Next b block_count;
        let '(status, actual_length, dev_offset, b) := r in
        if failed status then Returns (status, b, s)
        else
          r ← stream s local_offset dev_offset actual_length;
          let '(status, s) := r in
          if failed status then Returns (status, b, s)
          else StreamBlocks stream fuel b (u32 (block_count - actual_length)) s
    else Returns (ZX_OK, b, s)
  end.

(** The extents that an iterator gives, up to the first error. *)
Fixpoint collect (fuel : nat) (it : I) : outcome (zx_status * list Extent) :=
  match fuel with
  | O => Diverges
  | Datatypes.S fuel =>
    d ← Done it;
    if (d : bool) then Returns (ZX_OK, [])
    else
      r ← Next it;
      let '(status, e, it) := r in
      match e with
      | Some e => r ← collect fuel it; Returns (fst r, e :: snd r)
      | None => Returns (status, [])
      end
  end.

End blocks.

Arguments BlockIterator : clear implicits.

(** ** Storing extents in nodes *)

Definition NodeCountForExtents (extent_count : Z) : Z :=
  let remaining_extents := if kInlineMaxExtents <? extent_count then extent_count - kInlineMaxExtents else 0 in
  1 + u32 (remaining_extents + kContainerMaxExtents - 1) / kContainerMaxExtents.

Inductive IterationCommand := Continue | Stop.

Record NodePopulator := { extents_ : list ReservedExtent; nodes_ : list ReservedNode }.

Definition NewNodePopulator (extents : list ReservedExtent) (nodes : list ReservedNode) : outcome NodePopulator :=
  _ ← ZX_DEBUG_ASSERT (Z.of_nat (length extents) <=? kMaxBlobExtents);
  _ ← ZX_DEBUG_ASSERT (NodeCountForExtents (u16 (Z.of_nat (length extents))) <=? Z.of_nat (length nodes));
  Returns {| extents_ := extents; nodes_ := nodes |}.

(** A store through a pointer into the node map. *)
Definition update_node (a : Allocator) (i : Z) (f : Inode → Inode) : outcome Allocator :=
  n ← array_get a.(node_map_) i; SetNode a i (f n).

Definition in_bounds (b : bool) : outcome unit := if b then Returns tt else Aborts.

Section walk.
Context {W : Type}.
Context (on_node : Allocator → W → ReservedNode → outcome (Allocator * W)).
Context (on_extent : Allocator → W → ReservedExtent → outcome (IterationCommand * ReservedExtent * Allocator * W)).

(** The variables of the loop of [Walk]. *)
Record walk := { w_alloc : Allocator; w_world : W; w_count : Z; w_local : Z; w_container : option Z }.

Definition node_at (nodes : list ReservedNode) (i : Z) : outcome Z := n ← array_get nodes i; index n.

(** Moves to the next container when the current node has no room. *)
Definition walk_container (nodes : list ReservedNode) (inode extent_index : Z) (s : walk) : outcome walk :=
  r ← (if extent_index =? kInlineMaxExtents then
         _ ← ZX_DEBUG_ASSERT (s.(w_count) <? Z.of_nat (length nodes));
         i ← node_at nodes (s.(w_count) ⊞ 1);
         a ← update_node s.(w_alloc) inode (λ n, field_set next_node n i);
         Returns (true, a)
       else if s.(w_local) =? kContainerMaxExtents then
         _ ← ZX_DEBUG_ASSERT (s.(w_count) <? Z.of_nat (length nodes));
         Returns (true, s.(w_alloc))
       else Returns (false, s.(w_alloc)));
  let '(next_container, a) := (r : bool * Allocator) in
  if next_container then
    node ← array_get nodes (s.(w_count) ⊞ 1);
    next ← index node;
    previous ← node_at nodes s.(w_count);
    a ← MarkContainerNodeAllocated a node previous;
    _ ← GetNode a next;
    Returns {| w_alloc := a; w_world := s.(w_world); w_count := s.(w_count) ⊞ 1; w_local := 0; w_container := Some next |}
  else Returns s.

(** Copies an extent into the chosen node. *)
Definition walk_store (inode extent_index : Z) (r : ReservedExtent) (s : walk) : outcome Allocator :=
  e ← extent r;
  a ← (if extent_index <? kInlineMaxExtents then
         _ ← in_bounds (s.(w_local) <? kInlineMaxExtents);
         update_node s.(w_alloc) inode (λ n, field_set (inode_extents s.(w_local)) n e)
       else
         match s.(w_container) with
         | None => Aborts
         | Some c =>
           _ ← in_bounds (s.(w_local) <? kContainerMaxExtents);
           update_node s.(w_alloc) c (λ n,
             let n := field_set (container_extents s.(w_local)) n e in
             field_set container_extent_count n (u16 (field_get container_extent_count n + 1)))
         end);
  update_node a inode (λ n, field_set inode_extent_count n (u16 (field_get inode_extent_count n + 1))).

(** The extents left to visit, and those visited, as the callback leaves them. *)
Fixpoint walk_loop (nodes : list ReservedNode) (inode extent_index : Z) (rest : list ReservedExtent)
    (s : walk) (visited : list ReservedExtent) : outcome (walk * list ReservedExtent) :=
  match rest with
  | [] => Returns (s, visited)
  | e :: rest =>
    s ← walk_container nodes inode extent_index s;
    r ← on_extent s.(w_alloc) s.(w_world) e;
    let '(command, e, a, w) := r in
    let s := {| w_alloc := a; w_world := w; w_count := s.(w_count); w_local := s.(w_local); w_container := s.(w_container) |} in
    a ← walk_store inode extent_index e s;
    match command with
    | Stop => Returns ({| w_alloc := a; w_world := w; w_count := s.(w_count); w_local := s.(w_local);
                          w_container := s.(w_container) |}, visited ++ [e])
    | Continue =>
      walk_loop nodes inode (u16 (extent_index + 1)) rest
        {| w_alloc := a; w_world := w; w_count := s.(w_count); w_local := u32 (s.(w_local) + 1);
           w_container := s.(w_container) |} (visited ++ [e])
    end
  end.

Fixpoint visit_nodes (nodes : list ReservedNode) (a : Allocator) (w : W) : outcome (Allocator * W) :=
  match nodes with
  | [] => Returns (a, w)
  | n :: nodes => r ← on_node a w n; visit_nodes nodes (fst r) (snd r)
  end.

(** The extents of the populator are those that the callback leaves. *)
Definition Walk (p : NodePopulator) (a : Allocator) (w : W) : outcome (zx_status * NodePopulator * Allocator * W) :=
  node ← array_get p.(nodes_) 0;
  node_index ← index node;
  _ ← GetNode a node_index;
  a ← MarkInodeAllocated a node;
  r ← walk_loop p.(nodes_) node_index 0 p.(extents_)
        {| w_alloc := a; w_world := w; w_count := 0; w_local := 0; w_container := None |} [];
  let '(s, visited) := r in
  used ← (if s.(w_count) + 1 <=? Z.of_nat (length p.(nodes_)) then
            Returns (take (Z.to_nat (s.(w_count) + 1)) p.(nodes_)) else Aborts);
  r ← visit_nodes used s.(w_alloc) s.(w_world);
  Returns (ZX_OK, {| extents_ := visited ++ drop (length visited) p.(extents_); nodes_ := p.(nodes_) |}, fst r, snd r).

End walk.
