(* ===== verification/Streaming.v ===== *)
(** * Streaming of blocks

    What an [ExtentIterator] promises, and what [BlockIterator] and [StreamBlocks]
    do with any iterator that keeps the promise. *)

From S2P Require Import Prelude RawBitmap Format Reservers Allocator Iterators.

(** ** The contract of extent iterators *)

Class ExtentIteratorLaws (I : Type) `{ExtentIterator I} := {
  (** [yields it es]: the extents that [it] has not given yet are [es]. *)
  yields : I → list Extent → Prop;
  yields_done it es : yields it es → Done it = Returns (match es with [] => true | _ => false end);
  yields_next it e es : yields it (e :: es) →
    ∃ it', Next it = Returns (ZX_OK, Some e, it') ∧ yields it' es ∧ BlockIndex it' = BlockIndex it ⊞ Length e;
}.

Lemma collect_ok {I : Type} `{ExtentIteratorLaws I} (it : I) es fuel :
  yields it es → (length es < fuel)%nat → collect fuel it = Returns (ZX_OK, es).
Proof.
  revert it fuel. induction es as [|e es IH]; intros it [|fuel] Hy Hf; cbn in Hf; try lia; cbn [collect];
    rewrite (yields_done _ _ Hy); cbn [mbind outcome_bind]; [done|].
  destruct (yields_next _ _ _ Hy) as (it' & -> & Hy' & _). cbn [mbind outcome_bind].
  rewrite (IH it' fuel Hy') by lia. done.
Qed.

(** A vector of reserved extents keeps the contract. *)
Definition vector_yields (it : VectorExtentIterator) (es : list Extent) : Prop :=
  0 ≤ it.(v_extent_index_) ∧ Z.of_nat (length it.(v_extents_)) < 2 ^ 63 ∧
  Forall (λ r, r.(reserved) = true) it.(v_extents_) ∧
  (Z.to_nat it.(v_extent_index_) ≤ length it.(v_extents_))%nat ∧
  es = map Reservers.extent_ (drop (Z.to_nat it.(v_extent_index_)) it.(v_extents_)).

#[export] Instance vector_laws : ExtentIteratorLaws VectorExtentIterator.
Proof.
  refine {| yields := vector_yields |}.
  - intros it es (Hi & Hl & _ & Hle & ->). unfold Done. cbn. unfold VectorExtentIterator_Done. f_equal.
    destruct (drop _ _) eqn:E; apply (f_equal length) in E; rewrite length_drop in E; cbn in *; by ztest.
  - intros it e es (Hi & Hl & Hr & Hle & He).
    destruct (drop (Z.to_nat (v_extent_index_ it)) (v_extents_ it)) as [|x xs] eqn:E; [done|]. cbn in He. injection He as -> ->.
    assert (v_extents_ it !! Z.to_nat (v_extent_index_ it) = Some x) as Hx.
    { rewrite <- (Nat.add_0_r (Z.to_nat _)), <- lookup_drop, E. done. }
    pose proof (lookup_lt_Some _ _ _ Hx) as Hlt. unfold Next. cbn. unfold VectorExtentIterator_Next, VectorExtentIterator_Done.
    cbn [mbind outcome_bind]. ztest. cbn [negb ZX_DEBUG_ASSERT mbind outcome_bind].
    assert (array_get (v_extents_ it) (v_extent_index_ it) = Returns x) as -> by (by apply array_get_returns).
    cbn [mbind outcome_bind]. rewrite Forall_lookup in Hr. unfold extent. rewrite (Hr _ _ Hx). cbn [ZX_DEBUG_ASSERT mbind outcome_bind].
    eexists. split; [done|]. split; [|done]. unfold vector_yields. cbn. unwrap.
    split_and!; [lia|done|by apply Forall_lookup|lia|]. replace (Z.to_nat (v_extent_index_ it + 1)) with (1 + Z.to_nat (v_extent_index_ it))%nat by lia.
    rewrite Nat.add_comm, <- drop_drop, E. done.
Defined.

(** ** Runs of device blocks *)

(** The blocks of a run with their offsets in the blob. *)
Definition blocks_of (local dev len : Z) : list (Z * Z) := map (λ i, (local + i, dev + i)) (seqZ 0 len).

Fixpoint run_blocks (local : Z) (rs : list (Z * Z)) : list (Z * Z) :=
  match rs with
  | [] => []
  | (dev, len) :: rs => blocks_of local dev len ++ run_blocks (local + len) rs
  end.

Definition run_total (rs : list (Z * Z)) : Z := foldr (λ r t, snd r + t) 0 rs.

Definition piece_blocks (ps : list (Z * Z * Z)) : list (Z * Z) :=
  flat_map (λ p, blocks_of (fst (fst p)) (snd (fst p)) (snd p)) ps.

(** The calls for the first [n] blocks of the runs, and what is left. *)
Fixpoint pieces (local n : Z) (rs : list (Z * Z)) : list (Z * Z * Z) :=
  match rs with
  | [] => []
  | (dev, len) :: rs =>
    if n <=? 0 then [] else (local, dev, Z.min len n) :: pieces (local + len) (n - len) rs
  end.

Fixpoint rest (n : Z) (rs : list (Z * Z)) : list (Z * Z) :=
  match rs with
  | [] => []
  | (dev, len) :: rs' =>
    if n <=? 0 then rs else if len <=? n then rest (n - len) rs' else (dev + n, len - n) :: rs'
  end.

(** A callback called on pieces, until it fails. *)
Fixpoint run_stream {S} (f : S → Z → Z → Z → zx_status * S) (s : S) (ps : list (Z * Z * Z)) : zx_status * S :=
  match ps with
  | [] => (ZX_OK, s)
  | (l, d, c) :: ps => let '(st, s) := f s l d c in if failed st then (st, s) else run_stream f s ps
  end.

Lemma length_blocks_of l d c : length (blocks_of l d c) = Z.to_nat c.
Proof. unfold blocks_of. by rewrite length_map, length_seqZ. Qed.

Lemma blocks_of_app l d a b : 0 ≤ a → 0 ≤ b →
  blocks_of l d (a + b) = blocks_of l d a ++ blocks_of (l + a) (d + a) b.
Proof.
  intros Ha Hb. unfold blocks_of. rewrite seqZ_app, map_app by done. f_equal.

  replace (seqZ (0 + a) b) with (map (Z.add a) (seqZ 0 b)).
  - rewrite map_map. apply map_ext. intros i. f_equal; lia.
  - pose proof (fmap_add_seqZ a 0 b) as E. rewrite Z.add_0_r in E. rewrite Z.add_0_l. exact E.
Qed.

Lemma piece_blocks_pieces l n rs : Forall (λ r, 0 ≤ snd r) rs →
  piece_blocks (pieces l n rs) = take (Z.to_nat n) (run_blocks l rs).
Proof.
  revert l n. induction rs as [|[d c] rs IH]; intros l n Hrs; [cbn; by rewrite take_nil|].
  apply Forall_cons in Hrs as [Hc Hrs]. cbn in Hc. cbn [pieces run_blocks].
  destruct (Z.leb_spec n 0); [by replace (Z.to_nat n) with 0%nat by lia|].
  cbn [piece_blocks flat_map fst snd]. fold (piece_blocks (pieces (l + c) (n - c) rs)). rewrite IH by done.
  rewrite take_app, length_blocks_of. f_equal; [|f_equal; lia].
  destruct (Z.le_gt_cases c n).
  - rewrite Z.min_l, take_ge by (rewrite ?length_blocks_of; lia). done.
  - rewrite Z.min_r by lia. replace c with (n + (c - n)) by lia. rewrite blocks_of_app by lia.
    rewrite take_app_length'; [done|]. by rewrite length_blocks_of.
Qed.

Lemma run_blocks_rest l n rs : 0 ≤ n → Forall (λ r, 0 ≤ snd r) rs →
  run_blocks (l + Z.min n (run_total rs)) (rest n rs) = drop (Z.to_nat n) (run_blocks l rs).
Proof.
  revert l n. induction rs as [|[d c] rs IH]; intros l n Hn Hrs; [cbn; by rewrite drop_nil|].
  apply Forall_cons in Hrs as [Hc Hrs]. cbn in Hc. cbn [rest run_blocks run_total foldr snd]. fold (run_total rs).
  assert (0 ≤ run_total rs) as Ht.
  { clear -Hrs. induction Hrs as [|r rs Hr _ IH]; cbn; [done|]. fold (run_total rs). lia. }
  destruct (Z.leb_spec n 0).
  { assert (n = 0) as -> by lia. rewrite Z.min_l, Z.add_0_r by lia. done. }
  rewrite drop_app, length_blocks_of. destruct (Z.leb_spec c n).
  - rewrite drop_ge by (rewrite length_blocks_of; lia). cbn [app].
    replace (Z.to_nat n - Z.to_nat c)%nat with (Z.to_nat (n - c)) by lia. rewrite <- IH by (done || lia). f_equal. lia.
  - replace (Z.to_nat n - Z.to_nat c)%nat with 0%nat by lia. cbn [run_blocks drop]. rewrite Z.min_l by lia.
    assert (blocks_of l d c = blocks_of l d n ++ blocks_of (l + n) (d + n) (c - n)) as ->.
    { rewrite <- blocks_of_app by lia. f_equal. lia. }
    rewrite drop_app_length' by (by rewrite length_blocks_of). rewrite drop_0. f_equal. f_equal. lia.
Qed.

(** ** Block iterators *)

Section stream.
Context {I : Type} `{ExtentIteratorLaws I}.

Definition extent_runs (es : list Extent) : list (Z * Z) := map (λ e, (Start e, Length e)) es.

(** [b] has passed [local] blocks, and the runs [rs] are before it. *)
Definition block_ok (b : BlockIterator I) (local : Z) (rs : list (Z * Z)) : Prop :=
  ∃ cur es, yields b.(iterator_) es ∧ rs = cur ++ extent_runs es ∧
    0 ≤ local ∧ local + run_total rs < 2 ^ 64 ∧ BlockIndex b.(iterator_) = local + b.(blocks_left_) ∧
    ((cur = [] ∧ b.(blocks_left_) = 0) ∨
     ∃ e, b.(extent_) = Some e ∧ 0 < b.(blocks_left_) ≤ Length e ∧
       cur = [(Start e + Length e - b.(blocks_left_), b.(blocks_left_))]).

Lemma run_total_cons r rs : run_total (r :: rs) = snd r + run_total rs.
Proof. done. Qed.

Lemma run_total_app rs rs' : run_total (rs ++ rs') = run_total rs + run_total rs'.
Proof. induction rs as [|r rs IH]; cbn; [done|]. unfold run_total in *. lia. Qed.

Lemma extent_runs_pos es : Forall (λ r, 0 ≤ snd r) (extent_runs es) ∧ 0 ≤ run_total (extent_runs es).
Proof.
  induction es as [|e es [IH1 IH2]]; [done|]. pose proof (Length_range e). cbn [extent_runs map].
  rewrite run_total_cons. cbn [snd]. split; [constructor; [cbn; lia|done]|unfold extent_runs in *; lia].
Qed.

Lemma block_ok_index b local rs : block_ok b local rs → BlockIterator_BlockIndex b = local.
Proof.
  intros (cur & es & _ & -> & Hl & Ht & Hi & Hcur). rewrite run_total_app in Ht. pose proof (extent_runs_pos es) as [_ Hp].
  unfold BlockIterator_BlockIndex. rewrite Hi.
  destruct Hcur as [[-> ->]|(e & _ & Hb & ->)]; cbn in Ht; unwrap; lia.
Qed.

Lemma block_ok_done b local rs : block_ok b local rs →
  BlockIterator_Done b = Returns (match rs with [] => true | _ => false end).
Proof.
  intros (cur & es & Hy & -> & _ & _ & _ & Hcur). unfold BlockIterator_Done.
  destruct Hcur as [[-> ->]|(e & _ & Hb & ->)]; [|by ztest]. cbn. rewrite (yields_done _ _ Hy). by destruct es.
Qed.

Lemma refill_ok b local d c rs : block_ok b local ((d, c) :: rs) →
  ∃ it e left es, refill b = Returns (ZX_OK, {| iterator_ := it; Iterators.extent_ := Some e; blocks_left_ := left |}) ∧
    yields it es ∧ rs = extent_runs es ∧ d = Start e + Length e - left ∧ c = left ∧ 0 ≤ left ≤ Length e ∧
    BlockIndex it = local + left ∧ 0 ≤ local ∧ local + c + run_total rs < 2 ^ 64.
Proof.
  intros (cur & es & Hy & Hrs & Hl & Ht & Hi & [[-> Hz]|(e & He & Hb & ->)]); unfold refill.
  - destruct es as [|e es]; [done|]. injection Hrs as -> -> ->. rewrite Hz. cbn [Z.eqb].
    destruct (yields_next _ _ _ Hy) as (it & -> & Hy' & Hi'). cbn [mbind outcome_bind]. rewrite failed_ok.
    pose proof (Length_range e). pose proof (extent_runs_pos es) as [_ ?]. rewrite run_total_cons in Ht. cbn [snd] in Ht.
    exists it, e, (Length e), es. split_and!; try done; try lia. rewrite Hi', Hi, Hz. unwrap. lia.
  - injection Hrs as -> -> ->. ztest. rewrite run_total_cons in Ht. cbn [snd] in Ht.
    exists b.(iterator_), e, b.(blocks_left_), es. split_and!; try done; try lia. rewrite <- He. by destruct b.
Qed.

(** The next piece is as much of the next run as is asked for. *)
Lemma BlockIterator_Next_ok b local d c rs n : block_ok b local ((d, c) :: rs) → 0 < n < 2 ^ 32 →
  ∃ b', BlockIterator_Next b n = Returns (ZX_OK, Z.min c n, d, b') ∧
    block_ok b' (local + Z.min c n) (if c <=? n then rs else (d + n, c - n) :: rs).
Proof.
  intros Hok Hn. unfold BlockIterator_Next. rewrite (block_ok_done _ _ _ Hok). cbn [negb ZX_DEBUG_ASSERT mbind outcome_bind].
  destruct (refill_ok _ _ _ _ _ Hok) as (it & e & left & es & -> & Hy & -> & -> & -> & Hle & Hi & Hl & Ht).
  cbn [mbind outcome_bind Iterators.extent_ blocks_left_ iterator_]. rewrite failed_ok.
  pose proof (Length_range e). pose proof (Start_range e). unwrap. eexists. split; [done|].
  pose proof (extent_runs_pos es) as [_ ?].
  destruct (Z.leb_spec left n).
  - exists [], es. cbn. split_and!; try done; try lia. left. split; [done|lia].
  - exists [(Start e + Length e - (left - n), left - n)], es. cbn.
    change (foldr _ 0 (extent_runs es)) with (run_total (extent_runs es)). rewrite Z.min_r by lia.
    split_and!; try done; try lia; [f_equal; f_equal; lia|]. right. exists e. split_and!; try done; lia.
Qed.

Lemma rest_pos n rs : Forall (λ r, 0 ≤ snd r) rs → Forall (λ r, 0 ≤ snd r) (rest n rs).
Proof.
  revert n. induction rs as [|[d c] rs IH]; intros n Hrs; cbn [rest]; [done|].
  pose proof Hrs as Hall. apply Forall_cons in Hrs as [Hc Hrs].
  destruct (n <=? 0); [done|]. destruct (Z.leb_spec c n); [by apply IH|]. constructor; [cbn; lia|done].
Qed.

Lemma block_ok_pos b local rs : block_ok b local rs → Forall (λ r, 0 ≤ snd r) rs.
Proof.
  intros (cur & es & _ & -> & _ & _ & _ & Hcur). apply Forall_app. split; [|apply extent_runs_pos].
  destruct Hcur as [[-> _]|(e & _ & Hb & ->)]; repeat constructor; cbn; lia.
Qed.

(** The loop calls the callback on the pieces. *)
Lemma StreamBlocks_ok {S} (f : S → Z → Z → Z → zx_status * S) fuel b local rs n s :
  block_ok b local rs → 0 ≤ n < 2 ^ 32 → (length rs < fuel)%nat →
  let '(st, s') := run_stream f s (pieces local n rs) in
  ∃ b', StreamBlocks (λ s l d c, Returns (f s l d c)) fuel b n s =
      Returns (if failed st then st else if run_total rs <? n then ZX_ERR_IO_DATA_INTEGRITY else ZX_OK, b', s') ∧
    (failed st = false → block_ok b' (local + Z.min n (run_total rs)) (rest n rs)).
Proof.
  revert b local rs n s. induction fuel as [|fuel IH]; intros b local rs n s Hok Hn Hf; [lia|]. cbn [StreamBlocks].
  pose proof (block_ok_pos _ _ _ Hok) as Hpos.
  destruct rs as [|[d c] rs].
  { cbn [pieces run_stream rest run_total foldr]. rewrite failed_ok. exists b. rewrite Z.min_r, Z.add_0_r by lia. split; [|done].
    destruct (Z.ltb_spec 0 n); [|done]. by rewrite (block_ok_done _ _ _ Hok). }
  apply Forall_cons in Hpos as [Hc Hpos]. cbn in Hc. cbn [pieces rest]. rewrite run_total_cons. cbn [snd].
  assert (0 ≤ run_total rs) as Ht. { clear -Hpos. induction Hpos as [|r rs Hr _ IH]; [done|]. rewrite run_total_cons. lia. }
  destruct (Z.leb_spec n 0).
  { ztest. cbn [run_stream]. rewrite failed_ok. exists b. rewrite Z.min_l by lia. replace n with 0 by lia. rewrite Z.add_0_r. by ztest. }
  ztest. rewrite (block_ok_done _ _ _ Hok). cbn [mbind outcome_bind].
  destruct (BlockIterator_Next_ok b local d c rs n Hok) as (b1 & -> & Hok1); [lia|]. rewrite (block_ok_index _ _ _ Hok).
  cbn [mbind outcome_bind run_stream]. rewrite failed_ok. cbn [mbind outcome_bind].
  destruct (f s local d (Z.min c n)) as [st s1]. destruct (failed st) eqn:Est.
  { exists b1. by rewrite Est. }
  cbn in Hf. destruct (Z.leb_spec c n).
  - rewrite Z.min_l in * by lia. unwrap. specialize (IH b1 (local + c) rs (n - c) s1 Hok1 ltac:(lia) ltac:(lia)).
    destruct (run_stream _ _ _) as [st' s']. destruct IH as (b' & -> & Hb'). exists b'. split.
    + destruct (failed st'), (Z.ltb_spec (run_total rs) (n - c)), (Z.ltb_spec (c + run_total rs) n); done || lia.
    + intros E. replace (local + Z.min n (c + run_total rs)) with (local + c + Z.min (n - c) (run_total rs)) by lia. by apply Hb'.
  - rewrite (Z.min_r c n) in * by lia. rewrite Z.sub_diag. change (u32 0) with 0.
    replace (pieces (local + c) (n - c) rs) with (@nil (Z * Z * Z)) by (destruct rs as [|[] ?]; cbn; by ztest).
    cbn [run_stream]. rewrite failed_ok. destruct fuel as [|fuel]; [lia|]. cbn [StreamBlocks Z.ltb Z.compare].
    exists b1. ztest. split; [done|]. intros _. by rewrite Z.min_l by lia.
Qed.

End stream.

(** ** Theorems *)

(** C32. [StreamBlocks] streams the first [n] blocks of what the iterator has left, for
    every iterator over extents that keeps its contract and every callback.  The
    callback is called on pieces that are, block for block and in order, the first [n]
    blocks with their offsets in the blob, until it fails; the status is that of the
    failed call, [ZX_ERR_IO_DATA_INTEGRITY] when fewer than [n] blocks are left, and
    [ZX_OK] otherwise; the block iterator is left before the remaining blocks.  One
    step for each run of blocks and one more are enough. *)
Theorem stream_blocks_exact {I : Type} `{ExtentIteratorLaws I} {S : Type} (f : S → Z → Z → Z → zx_status * S)
    (fuel : nat) (b : BlockIterator I) (local : Z) (rs : list (Z * Z)) (n : Z) (s : S) :
  block_ok b local rs → 0 ≤ n < 2 ^ 32 → (length rs < fuel)%nat →
  ∃ ps b' rs', piece_blocks ps = take (Z.to_nat n) (run_blocks local rs) ∧
    let '(st, s') := run_stream f s ps in
    StreamBlocks (λ s l d c, Returns (f s l d c)) fuel b n s =
      Returns (if failed st then st else if run_total rs <? n then ZX_ERR_IO_DATA_INTEGRITY else ZX_OK, b', s') ∧
    (failed st = false → block_ok b' (local + Z.min n (run_total rs)) rs' ∧
       run_blocks (local + Z.min n (run_total rs)) rs' = drop (Z.to_nat n) (run_blocks local rs)).
Proof.
  intros Hok Hn Hf. pose proof (block_ok_pos _ _ _ Hok) as Hpos.
  pose proof (StreamBlocks_ok f fuel b local rs n s Hok Hn Hf) as Hs. exists (pieces local n rs).
  destruct (run_stream _ _ _) as [st s'] eqn:E. destruct Hs as (b' & Hrun & Hb'). exists b', (rest n rs).
  split; [by apply piece_blocks_pieces|]. split; [done|]. intros Hst. split; [by apply Hb'|].
  apply run_blocks_rest; [lia|done].
Qed.

(** Two extents, of three blocks at 10 and of two blocks at 40. *)
Definition example_extents : list ReservedExtent :=
  [ {| reserved := true; Reservers.extent_ := 10 + 3 * 2 ^ 48 |}; {| reserved := true; Reservers.extent_ := 40 + 2 * 2 ^ 48 |} ].

(** A callback that records its calls. *)
Definition record_call (s : list (Z * Z * Z)) (l d c : Z) : zx_status * list (Z * Z * Z) := (ZX_OK, s ++ [(l, d, c)]).

Lemma run_record s ps : run_stream record_call s ps = (ZX_OK, s ++ ps).
Proof.
  revert s. induction ps as [|[[l d] c] ps IH]; intros s; cbn [run_stream record_call]; [by rewrite app_nil_r|].
  rewrite failed_ok, IH, <- app_assoc. done.
Qed.

Lemma stream_blocks_exact_witness :
  ∃ ps b', piece_blocks ps = [(0, 10); (1, 11); (2, 12); (3, 40)] ∧
    StreamBlocks (λ s l d c, Returns (record_call s l d c)) 3
      (NewBlockIterator (NewVectorExtentIterator example_extents)) 4 [] = Returns (ZX_OK, b', ps).
Proof.
  destruct (stream_blocks_exact record_call 3
    (NewBlockIterator (NewVectorExtentIterator example_extents)) 0 [(10, 3); (40, 2)] 4 []) as (ps & b' & rs' & Hps & Hs).
  - exists [], (map Reservers.extent_ example_extents). split_and!; try reflexivity; try lia.
    + split_and!; try reflexivity; [repeat constructor|]. vm_compute. lia.
    + left. split; reflexivity.
  - lia.
  - cbn. lia.
  - exists ps, b'. split; [exact Hps|]. rewrite run_record in Hs. destruct Hs as [Hs _]. exact Hs.
Defined.
