(* ===== verification/Populate.v ===== *)
(** * Blobs stored in nodes

    [NodePopulator::Walk] spreads the extents of a blob over an inode and a chain of
    containers; [AllocatedExtentIterator] reads them back. *)

From S2P Require Import Prelude RawBitmap RleBitmap Format Reservers Allocator AllocatorBlocks AllocatorNodes Iterators Streaming.

(** ** Layout of a blob *)

Definition inode_holds (n : Inode) (es : list Extent) (count : nat) : Prop :=
  field_get inode_extent_count n = Z.of_nat count ∧ ∀ e, es !! 0%nat = Some e → field_get (inode_extents 0) n = e.

Definition container_holds (n : Inode) (es : list Extent) : Prop :=
  IsAllocated n = true ∧ IsExtentContainer n = true ∧
  field_get container_extent_count n = Z.of_nat (length es) ∧
  ∀ k e, es !! k = Some e → field_get (container_extents (Z.of_nat k)) n = e.

(** The extents of the container [j]. *)
Definition chunk (j : nat) (es : list Extent) : list Extent := take 6 (drop (1 + 6 * j) es).

(** What node [j] of the chain holds; [count] is the number of extents that the inode records. *)
Definition holds (j : nat) (n : Inode) (es : list Extent) (count : nat) : Prop :=
  length n = kNodeWords ∧
  match j with
  | O => inode_holds n es count
  | S j => container_holds n (chunk j es)
  end.

(** [chain] is the inode and its containers, each linked to the next. *)
Definition layout (m : list Inode) (chain : list Z) (es : list Extent) (count : nat) : Prop :=
  ∀ j c, chain !! j = Some c → 0 ≤ c ∧ ∃ n, m !! Z.to_nat c = Some n ∧ holds j n es count ∧
    ∀ c', chain !! S j = Some c' → field_get next_node n = c'.

(** The number of containers of [k] extents. *)
Definition containers (k : nat) : nat := (k + 4) / 6.

Lemma containers_spec k : (k ≤ 1 + 6 * containers k ∧ (containers k ≠ 0 → 1 + 6 * (containers k - 1) < k))%nat.
Proof. unfold containers. pose proof (Nat.div_mod (k + 4) 6). pose proof (Nat.mod_upper_bound (k + 4) 6). lia. Qed.

Lemma NodeCountForExtents_eq k : 0 ≤ k < 2 ^ 16 → NodeCountForExtents k = 1 + Z.of_nat (containers (Z.to_nat k)).
Proof.
  intros Hk. unfold NodeCountForExtents, kInlineMaxExtents, kContainerMaxExtents, containers.
  rewrite Nat2Z.inj_div. rewrite Nat2Z.inj_add, Z2Nat.id by lia. f_equal. change (Z.of_nat 4) with 4. change (Z.of_nat 6) with 6.
  destruct (Z.ltb_spec 1 k); [unwrap; f_equal; lia|]. assert (k = 0 ∨ k = 1) as [-> | ->] by lia; done.
Qed.

Lemma length_chunk j es : length (chunk j es) = Nat.min 6 (length es - (1 + 6 * j)).
Proof. unfold chunk. rewrite length_take, length_drop. done. Qed.

Lemma lookup_chunk j es k : (k < 6)%nat → chunk j es !! k = es !! (1 + 6 * j + k)%nat.
Proof. intros Hk. unfold chunk. rewrite lookup_take_lt by done. by rewrite lookup_drop. Qed.

(** ** Reading a blob back *)

Definition allocated_yields (it : AllocatedExtentIterator) (es : list Extent) : Prop :=
  ∃ cs all pos, layout it.(finder_).(node_map_) (it.(inode_) :: cs) all (length all) ∧
    Z.of_nat (length all) < 65536 ∧ length cs = containers (length all) ∧ (pos ≤ length all)%nat ∧ es = drop pos all ∧
    it.(extent_index_) = Z.of_nat pos ∧
    ((pos < length all)%nat → match pos with
      | O => it.(extent_node_) = None ∧ it.(local_index_) = 0
      | S p => ∃ c, cs !! (p / 6)%nat = Some c ∧ it.(extent_node_) = Some c ∧ it.(local_index_) = Z.of_nat (p mod 6)
      end).

Lemma deref_ok it c n : 0 ≤ c → it.(finder_).(node_map_) !! Z.to_nat c = Some n → deref it c = Returns n.
Proof. intros Hc Hn. by apply array_get_returns. Qed.

Lemma allocated_Done it cs all : layout it.(finder_).(node_map_) (it.(inode_) :: cs) all (length all) →
  AllocatedExtentIterator_Done it = Returns (it.(extent_index_) =? Z.of_nat (length all)).
Proof.
  intros Hl. destruct (Hl 0%nat (inode_ it)) as (H0 & n & Hn & (_ & Hc & _) & _); [done|].
  unfold AllocatedExtentIterator_Done. rewrite (deref_ok it _ n) by done. cbn [mbind outcome_bind]. by rewrite Hc.
Qed.

(** Moving on from a node to its successor in the chain. *)
Lemma NextContainer_ok it cs all j c :
  layout it.(finder_).(node_map_) (it.(inode_) :: cs) all (length all) →
  it.(extent_index_) ≠ Z.of_nat (length all) →
  (it.(inode_) :: cs) !! j = Some (match it.(extent_node_) with None => it.(inode_) | Some c => c end) →
  cs !! j = Some c →
  NextContainer it = Returns (ZX_OK, {| finder_ := it.(finder_); inode_ := it.(inode_); node_index_ := c;
    extent_node_ := Some c; block_index_ := it.(block_index_); extent_index_ := it.(extent_index_); local_index_ := 0 |}).
Proof.
  intros Hl Hne Hj Hc. unfold NextContainer. rewrite (allocated_Done it cs all Hl). cbn [mbind outcome_bind].
  replace (extent_index_ it =? _) with false by (by symmetry; apply Z.eqb_neq). cbn [negb ZX_DEBUG_ASSERT mbind outcome_bind].
  destruct (Hl j _ Hj) as (Hp & n & Hn & _ & Hnext). unfold GetNextNode. rewrite (deref_ok it _ n) by done.
  cbn [mbind outcome_bind]. rewrite (Hnext c) by done.
  destruct (Hl (S j) c) as (H0 & nc & Hnc & (_ & Ha & Hx & _) & _); [done|].
  rewrite (GetNode_ok _ c nc) by done. cbn [mbind outcome_bind]. by rewrite Ha, Hx.
Qed.

Lemma div6 p : (p = 6 * (p / 6) + p mod 6 ∧ p mod 6 < 6)%nat.
Proof. pose proof (Nat.div_mod p 6). pose proof (Nat.mod_upper_bound p 6). lia. Qed.

Lemma div6_unique p q r : (p = 6 * q + r → r < 6 → p / 6 = q ∧ p mod 6 = r)%nat.
Proof. intros H1 H2. pose proof (div6 p). lia. Qed.

(** One step inside the current node. *)
Lemma allocated_step it cs all pos e :
  layout it.(finder_).(node_map_) (it.(inode_) :: cs) all (length all) →
  it.(extent_index_) = Z.of_nat pos → all !! pos = Some e → Z.of_nat (length all) < 65536 → length cs = containers (length all) →
  match pos with
  | O => it.(extent_node_) = None ∧ it.(local_index_) = 0
  | S p => ∃ c, cs !! (p / 6)%nat = Some c ∧ it.(extent_node_) = Some c ∧ it.(local_index_) = Z.of_nat (p mod 6)
  end →
  ValidateExtentCount it = Returns ZX_OK ∧ GetExtent it = Returns e ∧
  (it.(inode_) :: cs) !! ((pos + 5) / 6)%nat = Some (match it.(extent_node_) with None => it.(inode_) | Some c => c end) ∧
  (match it.(extent_node_) with
   | None => Returns (u32 (it.(local_index_) + 1) =? kInlineMaxExtents)
   | Some c => n ← deref it c; Returns (u32 (it.(local_index_) + 1) =? field_get container_extent_count n)
   end = Returns (bool_decide (pos mod 6 = 0)%nat || bool_decide (S pos = length all)) ).
Proof.
  intros Hl Hpos He Hsmall Hcs Hat. pose proof (lookup_lt_Some _ _ _ He) as Hlt.
  unfold ValidateExtentCount, GetExtent, IsInode, kInlineMaxExtents, kContainerMaxExtents. destruct pos as [|p].
  - destruct Hat as [-> ->]. destruct (Hl 0%nat (inode_ it)) as (H0 & n & Hn & (_ & _ & Hx) & _); [done|].
    rewrite (deref_ok it _ n) by done. cbn [mbind outcome_bind]. rewrite (Hx e He). done.
  - destruct Hat as (c & Hc & -> & ->). destruct (Hl (S (p / 6)) c) as (H0 & n & Hn & (_ & _ & _ & Hcnt & Hx) & _); [done|].
    rewrite (deref_ok it _ n) by done. cbn [mbind outcome_bind]. rewrite Hcnt, length_chunk. destruct (div6 p) as [Hd Hm]. ztest.
    cbn [ZX_DEBUG_ASSERT mbind outcome_bind]. rewrite (Hx (p mod 6)%nat e) by (rewrite lookup_chunk by done; etrans; [|exact He]; f_equal; lia).
    split_and!; [by ztest|done| |].
    + destruct (div6_unique (S p + 5) (S (p / 6)) (p mod 6)) as [-> _]; [lia..|]. done.
    + f_equal. destruct (decide (p mod 6 = 5)%nat) as [E|E].
      * destruct (div6_unique (S p) (S (p / 6)) 0) as [_ ->]; [lia..|]. cbn [orb bool_decide]. rewrite bool_decide_true by done.
        unwrap. rewrite E. ztest. done.
      * destruct (div6_unique (S p) (p / 6) (S (p mod 6))) as [_ ->]; [lia..|]. rewrite bool_decide_false by done. cbn [orb].
        unwrap. destruct (decide (S (S p) = length all)).
        -- rewrite bool_decide_true by done. by ztest.
        -- rewrite bool_decide_false by done. by ztest.
Qed.

Lemma allocated_yields_next it e es : allocated_yields it (e :: es) →
  ∃ it', AllocatedExtentIterator_Next it = Returns (ZX_OK, Some e, it') ∧ allocated_yields it' es ∧
    it'.(block_index_) = it.(block_index_) ⊞ Length e.
Proof.
  intros (cs & all & pos & Hl & Hsmall & Hcs & Hple & Hes & Hpos & Hat).
  assert (all !! pos = Some e) as He by (rewrite <- (Nat.add_0_r pos), <- lookup_drop, <- Hes; done).
  pose proof (lookup_lt_Some _ _ _ He) as Hlt. specialize (Hat Hlt).
  destruct (allocated_step it cs all pos e) as (Hv & Hg & Hcur & Hfull); try done.
  unfold AllocatedExtentIterator_Next. rewrite (allocated_Done it cs all Hl), Hpos. cbn [mbind outcome_bind]. ztest.
  cbn [negb ZX_DEBUG_ASSERT mbind outcome_bind]. rewrite Hv. cbn [mbind outcome_bind]. rewrite failed_ok, Hg. cbn [mbind outcome_bind].
  assert (es = drop (S pos) all) as Hes'.
  { replace (S pos) with (pos + 1)%nat by lia. rewrite <- drop_drop, <- Hes. done. }
  set (it1 := UpdateIndices it e). 
  assert (extent_index_ it1 = Z.of_nat (S pos)) as Hpos1.
  { change (extent_index_ it1) with (u32 (extent_index_ it + 1)). rewrite Hpos. unwrap. lia. }
  rewrite (allocated_Done it1 cs all) by done. cbn [mbind outcome_bind].
  change (deref it1) with (deref it). change (extent_node_ it1) with (extent_node_ it).
  change (local_index_ it1) with (u32 (local_index_ it + 1)). rewrite Hfull. cbn [mbind outcome_bind]. rewrite Hpos1.
  destruct (decide (S pos = length all)) as [Hend|Hend].
  { ztest. cbn [negb andb]. exists it1. split_and!; [done| |done].
    exists cs, all, (S pos). split_and!; try done; lia. }
  ztest. rewrite (bool_decide_false (S pos = length all)), orb_false_r by done. cbn [negb andb].
  destruct (containers_spec (length all)) as [Hcap _]. destruct (div6 pos) as [Hd Hm].
  destruct (decide (pos mod 6 = 0)%nat) as [Hz|Hz].
  - rewrite bool_decide_true by done. destruct (lookup_lt_is_Some_2 cs (pos / 6)) as [c Hc]; [lia|].
    rewrite (NextContainer_ok it1 cs all (pos / 6)%nat c); [|done|lia| |done].
    + cbn [mbind outcome_bind]. rewrite failed_ok. eexists. split; [done|]. split; [|done].
      exists cs, all, (S pos). cbn [finder_ inode_ extent_node_ extent_index_ local_index_]. split_and!; try done; try lia. intros _. exists c. rewrite Hz. done.
    + etrans; [|exact Hcur]. f_equal. destruct (div6_unique (pos + 5) (pos / 6) 5); lia.
  - rewrite bool_decide_false by done. exists it1. split; [done|]. split; [|done]. exists cs, all, (S pos).
    split_and!; try done; try lia. intros _. destruct pos as [|p]; [done|]. destruct Hat as (c & Hc & Hn & Hlo).
    destruct (div6 p) as [Hdp Hmp]. destruct (div6_unique (S p) (p / 6) (S (p mod 6))) as [E1 E2]; [lia|lia|].
    exists c. rewrite E1, E2. split_and!; [done..|].
    change (local_index_ it1) with (u32 (local_index_ it + 1)). rewrite Hlo. unwrap. lia.
Qed.

#[export] Instance allocated_laws : ExtentIteratorLaws AllocatedExtentIterator.
Proof.
  refine {| yields := allocated_yields; yields_next := allocated_yields_next |}.
  intros it es (cs & all & pos & Hl & _ & _ & Hple & -> & Hpos & _). cbn. rewrite (allocated_Done it cs all Hl), Hpos. f_equal.
  destruct (drop pos all) eqn:E; apply (f_equal length) in E; rewrite length_drop in E; cbn in E; by ztest.
Defined.

(** ** Writing to the nodes of a chain *)

Lemma to_nat_ne c c' : 0 ≤ c → 0 ≤ c' → c ≠ c' → Z.to_nat c ≠ Z.to_nat c'.
Proof. lia. Qed.

Lemma layout_nonneg m chain es k c : layout m chain es k → c ∈ chain → 0 ≤ c.
Proof. intros Hl [j Hj]%list_elem_of_lookup. by destruct (Hl j c Hj). Qed.

(** Replacing node [j] of the chain. *)
Lemma layout_update m chain es es' k k' j c (n n' : Inode) : NoDup chain → layout m chain es k → chain !! j = Some c →
  m !! Z.to_nat c = Some n → holds j n' es' k' → (∀ c', chain !! S j = Some c' → field_get next_node n' = c') →
  (∀ i x, i ≠ j → (i < length chain)%nat → holds i x es k → holds i x es' k') →
  layout (<[Z.to_nat c := n']> m) chain es' k'.
Proof.
  intros Hnd Hl Hj Hn Hn' Hnext Hother i d Hi. destruct (Hl i d Hi) as (Hd & x & Hx & Hh & Hxn). split; [done|].
  destruct (decide (i = j)) as [->|Hne].
  - assert (d = c) as -> by congruence. exists n'. rewrite list_lookup_insert_eq by (by eapply lookup_lt_Some). done.
  - assert (d ≠ c) by (intros ->; by apply Hne; eapply NoDup_lookup).
    pose proof (lookup_lt_Some _ _ _ Hi). destruct (Hl j c Hj) as (Hc & _).
    exists x. rewrite list_lookup_insert_ne by (apply to_nat_ne; congruence || done).
    split_and!; [done|by apply Hother|done].
Qed.

(** Writing a node that is not in the chain. *)
Lemma layout_frame m chain es k c (n : Inode) : layout m chain es k → 0 ≤ c → c ∉ chain → layout (<[Z.to_nat c := n]> m) chain es k.
Proof.
  intros Hl Hc Hnin j d Hj. destruct (Hl j d Hj) as (Hd & x & Hx & ?). split; [done|]. exists x.
  rewrite list_lookup_insert_ne; [done|]. apply to_nat_ne; [done..|]. intros ->. apply Hnin. by eapply list_elem_of_lookup_2.
Qed.

(** A node at the end of the chain. *)
Lemma layout_extend m chain es k c p (n x : Inode) : layout m chain es k → last chain = Some p → 0 ≤ c →
  m !! Z.to_nat p = Some x → field_get next_node x = c →
  m !! Z.to_nat c = Some n → holds (length chain) n es k → layout m (chain ++ [c]) es k.
Proof.
  intros Hl Hp Hc Hx Hnext Hn Hh j d Hj. rewrite last_lookup in Hp.
  destruct (lookup_app_Some chain [c] j d) as [[Hj'|[Hge Hj']] _]; [done|..].
  - destruct (Hl j d Hj') as (Hd & y & Hy & Hyh & Hyn). split; [done|]. exists y. split_and!; [done..|].
    intros c' Hc'. apply lookup_app_Some in Hc' as [?|[Hge Hc']]; [by apply Hyn|].
    pose proof (lookup_lt_Some _ _ _ Hj'). apply list_lookup_singleton_Some in Hc' as [Hz <-].
    replace (Nat.pred (length chain)) with j in Hp by lia.
    rewrite Hp in Hj'. injection Hj' as ->. rewrite Hx in Hy. injection Hy as ->. done.
  - apply list_lookup_singleton_Some in Hj' as [Hz <-]. replace j with (length chain) by lia. split; [done|].
    exists n. split_and!; [done..|]. intros c' Hc'. apply lookup_lt_Some in Hc'. rewrite length_app in Hc'. cbn in Hc'. lia.
Qed.

Lemma holds_next j n es k v : holds j n es k → 0 ≤ v < 2 ^ 32 →
  holds j (field_set next_node n v) es k ∧ field_get next_node (field_set next_node n v) = v.
Proof.
  intros [Hlen Hh] Hv. unfold Inode, kNodeWords in *. split; [|by fields]. split; [by rewrite length_field_set|].
  destruct j as [|j].
  - destruct Hh as [Hc He]. split; [by fields|]. intros e Hx. fields. by apply He.
  - destruct Hh as (Ha & Hx & Hc & He). unfold container_holds, IsAllocated, IsExtentContainer in *. fields.
    split_and!; try done. intros i e Hi. fields. by apply He.
Qed.

(** An initialised container is empty. *)
Definition init_container (n : Inode) (previous : Z) : Inode :=
  let n := field_set node_flags n (Z.lor kBlobFlagAllocated kBlobFlagExtentContainer) in
  let n := field_set next_node n 0 in
  let n := field_set previous_node n previous in
  field_set container_extent_count n 0.

Lemma holds_init n es k j previous : length n = kNodeWords → 0 ≤ previous < 2 ^ 32 →
  (length es ≤ 1 + 6 * j)%nat → holds (S j) (init_container n previous) es k.
Proof.
  intros Hlen Hp Hes. assert (chunk j es = []) as Hnil.
  { apply nil_length_inv. rewrite length_chunk. lia. }
  unfold Inode, kNodeWords in *. change (Z.lor kBlobFlagAllocated kBlobFlagExtentContainer) with 5 in *.
  unfold init_container. change (Z.lor kBlobFlagAllocated kBlobFlagExtentContainer) with 5.
  split; [by rewrite !length_field_set|]. rewrite Hnil. unfold container_holds, IsAllocated, IsExtentContainer.
  fields. split_and!; done.
Qed.

(** Storing the next extent in the inode. *)
Lemma holds_store_inode (n : Inode) k (v : Extent) : holds 0 n [] k → 0 ≤ v < 2 ^ 64 → holds 0 (field_set (inode_extents 0) n v) [v] k.
Proof.
  intros [Hlen [Hc _]] Hv. unfold Inode, kNodeWords in *. split; [by rewrite length_field_set|]. split; [by fields|].
  intros e [= <-]. by fields.
Qed.

Lemma holds_count n es k : holds 0 n es k → Z.of_nat k < 65535 →
  holds 0 (field_set inode_extent_count n (u16 (field_get inode_extent_count n + 1))) es (S k).
Proof.
  intros [Hlen [Hc He]] Hk. unfold Inode, kNodeWords in *. rewrite Hc. unwrap. split; [by rewrite length_field_set|].
  split; [fields; lia|]. intros e Hx. fields. by apply He.
Qed.

(** Storing the next extent in the last container. *)
Lemma holds_store_container j (n : Inode) (es : list Extent) k (v : Extent) q : holds (S j) n es k → (q < 6)%nat → length es = (1 + 6 * j + q)%nat → 0 ≤ v < 2 ^ 64 →
  holds (S j) (let n := field_set (container_extents (Z.of_nat q)) n v in
     field_set container_extent_count n (u16 (field_get container_extent_count n + 1))) (es ++ [v]) k.
Proof.
  intros [Hlen (Ha & Hx & Hc & He)] Hq Hes Hv. unfold Inode, kNodeWords in *. cbn zeta.
  rewrite length_chunk in Hc. replace (Nat.min 6 (length es - (1 + 6 * j))) with q in Hc by lia.
  split; [by rewrite !length_field_set|]. unfold container_holds, IsAllocated, IsExtentContainer in *.
  rewrite length_chunk, length_app. cbn [length]. rewrite !(field_get_set_ne (container_extents (Z.of_nat q))) by reflexivity.
  rewrite Hc. unwrap. fields. split_and!; [done..|lia|]. intros i e Hi.
  assert (i < 6)%nat as Hi6. { apply lookup_lt_Some in Hi. rewrite length_chunk in Hi. lia. }
  rewrite lookup_chunk in Hi by done. fields. unfold Extent in *.
  apply lookup_app_Some in Hi as [Hi|[Hge Hi]].
  - pose proof (lookup_lt_Some _ _ _ Hi). rewrite field_get_set_ne; [|reflexivity..|].
    + apply He. by rewrite lookup_chunk.
    + unfold field_disjoint. cbn [f_word container_extents]. destruct (Nat.eqb_spec (2 + Z.to_nat (Z.of_nat q)) (2 + Z.to_nat (Z.of_nat i))); [lia|done].
  - apply list_lookup_singleton_Some in Hi as [Hz <-]. replace i with q by lia. rewrite field_get_set; [done|reflexivity| |done].
    cbn [f_word container_extents]. lia.
Qed.

(** ** The state of a walk *)

Section walk_state.
Context (ids : list Z) (Hnd : NoDup ids) (Hrange : Forall (λ c, 0 ≤ c < 2 ^ 32) ids) (m0 : list Inode).

(** The first [S cnt] nodes hold [es]; the others are fresh, and the rest of the map is untouched. *)
Record walking (m : list Inode) (cnt : nat) (es : list Extent) (k : nat) : Prop := {
  wk_layout : layout m (take (S cnt) ids) es k;
  wk_used : (cnt < length ids)%nat;
  wk_fresh : ∀ j c, (cnt < j)%nat → ids !! j = Some c →
    ∃ n : Inode, m !! Z.to_nat c = Some n ∧ length n = kNodeWords ∧ IsAllocated n = false;
  wk_frame : ∀ i, (∀ c, c ∈ take (S cnt) ids → Z.to_nat c ≠ i) → m !! i = m0 !! i;
}.

Lemma ids_range j c : ids !! j = Some c → 0 ≤ c < 2 ^ 32.
Proof using Hrange. by apply (proj1 (Forall_lookup _ _) Hrange). Qed.

Lemma chain_nodup cnt : NoDup (take (S cnt) ids).
Proof using Hnd. eapply sublist_NoDup; [exact Hnd|apply sublist_take]. Qed.

Lemma ids_ne j j' c c' : ids !! j = Some c → ids !! j' = Some c' → j ≠ j' → Z.to_nat c ≠ Z.to_nat c'.
Proof using Hnd Hrange.
  intros Hj Hj' Hne. pose proof (ids_range _ _ Hj). pose proof (ids_range _ _ Hj').
  apply to_nat_ne; [lia..|]. intros ->. by apply Hne; eapply NoDup_lookup.
Qed.

Lemma walking_node m cnt es k j c : walking m cnt es k → (j ≤ cnt)%nat → ids !! j = Some c →
  ∃ n : Inode, m !! Z.to_nat c = Some n ∧ holds j n es k.
Proof using.
  intros [Hl _ _ _] Hj Hc. destruct (Hl j c) as (_ & n & Hn & Hh & _); [by rewrite lookup_take_lt by lia|]. by exists n.
Qed.

(** Writing a node of the chain. *)
Lemma walking_write m cnt es k es' k' j c (n n' : Inode) : walking m cnt es k → (j ≤ cnt)%nat → ids !! j = Some c →
  m !! Z.to_nat c = Some n → holds j n' es' k' →
  ((j < cnt)%nat → field_get next_node n' = field_get next_node n) →
  (∀ i x, i ≠ j → (i ≤ cnt)%nat → holds i x es k → holds i x es' k') →
  walking (<[Z.to_nat c := n']> m) cnt es' k'.
Proof using Hnd Hrange.
  intros [Hl Hu Hf Hfr] Hj Hc Hn Hn' Hnext Hother.
  assert (take (S cnt) ids !! j = Some c) as Hc' by (by rewrite lookup_take_lt by lia). constructor.
  - eapply layout_update; [apply chain_nodup|done|done|done|done| |].
    + intros c' Hc2. destruct (Hl j c Hc') as (_ & x & Hx & _ & Hxn). rewrite Hn in Hx. injection Hx as <-.
      rewrite Hnext; [by apply Hxn|]. apply lookup_take_Some in Hc2 as [_ ?]. lia.
    + intros i x Hi Hlt. apply Hother; [done|]. rewrite length_take in Hlt. lia.
  - done.
  - intros i d Hi Hd. rewrite list_lookup_insert_ne by (eapply ids_ne; [done..|lia]). by apply (Hf i d).
  - intros i Hi. rewrite list_lookup_insert_ne; [by apply Hfr|]. apply Hi. by eapply list_elem_of_lookup_2.
Qed.

Lemma walking_link m cnt es k p (n : Inode) v : walking m cnt es k → ids !! cnt = Some p → m !! Z.to_nat p = Some n →
  0 ≤ v < 2 ^ 32 → walking (<[Z.to_nat p := field_set next_node n v]> m) cnt es k.
Proof using Hnd Hrange.
  intros Hw Hp Hn Hv. destruct (walking_node m cnt es k cnt p Hw) as (x & Hx & Hh); [lia|done|].
  rewrite Hn in Hx. injection Hx as <-. eapply walking_write; try done; [by apply holds_next|lia].
Qed.

Lemma walking_grow m cnt es k p c (np nc : Inode) : walking m cnt es k → (length es ≤ 1 + 6 * cnt)%nat →
  ids !! cnt = Some p → ids !! S cnt = Some c → m !! Z.to_nat p = Some np → field_get next_node np = c →
  m !! Z.to_nat c = Some nc → walking (<[Z.to_nat c := init_container nc p]> m) (S cnt) es k.
Proof using Hnd Hrange.
  intros [Hl Hu Hf Hfr] Hes Hp Hc Hnp Hnext Hnc. pose proof (ids_range _ _ Hc). pose proof (ids_range _ _ Hp).
  destruct (Hf (S cnt) c) as (x & Hx & Hlen & _); [lia|done|]. rewrite Hnc in Hx. injection Hx as <-.
  assert (length (take (S cnt) ids) = S cnt) as Htake by (rewrite length_take; lia).
  constructor.
  - rewrite (take_S_r _ _ c) by done. eapply (layout_extend _ _ _ _ c p).
    + apply layout_frame; [done|lia|]. intros [i Hi]%list_elem_of_lookup. apply lookup_take_Some in Hi as [Hi ?].
      pose proof (NoDup_lookup _ _ _ _ Hnd Hi Hc). lia.
    + rewrite last_lookup, Htake. by rewrite lookup_take_lt by (cbn; lia).
    + lia.
    + rewrite list_lookup_insert_ne by (apply (ids_ne (S cnt) cnt); [done..|lia]). exact Hnp.
    + done.
    + apply list_lookup_insert_eq. by eapply lookup_lt_Some.
    + rewrite Htake. by apply holds_init.
  - by eapply lookup_lt_Some.
  - intros i d Hi Hd. rewrite list_lookup_insert_ne by (eapply ids_ne; [done..|lia]). apply (Hf i d); [lia|done].
  - intros i Hi. rewrite list_lookup_insert_ne.
    + apply Hfr. intros d Hd. apply Hi. rewrite (take_S_r _ _ c) by done. apply elem_of_app. by left.
    + apply Hi. rewrite (take_S_r _ _ c) by done. apply elem_of_app. right. by apply list_elem_of_singleton.
Qed.

Lemma holds_snoc i (x : Inode) (es : list Extent) k (v : Extent) : i ≠ 0%nat → (7 + 6 * (i - 1) ≤ length es)%nat → holds i x es k → holds i x (es ++ [v]) k.
Proof using.
  intros Hi Hes. destruct i as [|i]; [done|]. unfold holds. replace (chunk i (es ++ [v])) with (chunk i es); [done|].
  unfold chunk. rewrite drop_app_le, take_app_le; [done|rewrite length_drop; lia|lia].
Qed.

(** Storing the next extent in the inode, or in the last container. *)
Lemma walking_store_inode m k i0 (n : Inode) (v : Extent) : walking m 0 [] k → ids !! 0%nat = Some i0 → m !! Z.to_nat i0 = Some n →
  0 ≤ v < 2 ^ 64 → walking (<[Z.to_nat i0 := field_set (inode_extents 0) n v]> m) 0 [v] k.
Proof using Hnd Hrange.
  intros Hw Hi Hn Hv. destruct (walking_node m 0 [] k 0 i0 Hw) as (x & Hx & Hh); [lia|done|].
  rewrite Hn in Hx. injection Hx as <-. eapply walking_write; try done; [by apply holds_store_inode|lia|lia].
Qed.

Lemma walking_store_container m j (es : list Extent) k c (n : Inode) q (v : Extent) : walking m (S j) es k → ids !! S j = Some c →
  m !! Z.to_nat c = Some n → (q < 6)%nat → length es = (1 + 6 * j + q)%nat → 0 ≤ v < 2 ^ 64 →
  walking (<[Z.to_nat c := let n := field_set (container_extents (Z.of_nat q)) n v in
     field_set container_extent_count n (u16 (field_get container_extent_count n + 1))]> m) (S j) (es ++ [v]) k.
Proof using Hnd Hrange.
  intros Hw Hc Hn Hq Hes Hv. destruct (walking_node m (S j) es k (S j) c Hw) as (x & Hx & Hh); [lia|done|].
  rewrite Hn in Hx. injection Hx as <-. eapply walking_write; try done; [by apply holds_store_container|lia|].
  intros i x Hne Hi Hix. destruct i as [|i].
  - destruct Hix as [Hlen [Hcount He]]. split; [done|]. split; [done|]. intros e Hx. apply He.
    unfold Extent in *. rewrite lookup_app_l in Hx by lia. done.
  - apply holds_snoc; [done|lia|done].
Qed.

Lemma walking_count m cnt es k i0 (n : Inode) : walking m cnt es k → ids !! 0%nat = Some i0 → m !! Z.to_nat i0 = Some n →
  Z.of_nat k < 65535 →
  walking (<[Z.to_nat i0 := field_set inode_extent_count n (u16 (field_get inode_extent_count n + 1))]> m) cnt es (S k).
Proof using Hnd Hrange.
  intros Hw Hi Hn Hk. destruct (walking_node m cnt es k 0 i0 Hw) as (x & Hx & Hh); [lia|done|].
  rewrite Hn in Hx. injection Hx as <-. pose proof (holds_count n es k Hh Hk) as Hh'.
  eapply (walking_write m cnt es k es (S k) 0 i0 n); [done|lia|done..| |].
  - intros _. by rewrite field_get_set_ne by reflexivity.
  - intros i x Hne _. by destruct i.
Qed.

End walk_state.

(** ** The walk *)

Lemma update_node_ok a i (n : Inode) f : 0 ≤ i → a.(node_map_) !! Z.to_nat i = Some n →
  update_node a i f = Returns (with_node_map a (<[Z.to_nat i := f n]> a.(node_map_))).
Proof.
  intros Hi Hn. unfold update_node. rewrite (proj2 (array_get_returns _ _ _) (conj Hi Hn)). cbn [mbind outcome_bind].
  apply SetNode_ok. pose proof (lookup_lt_Some _ _ _ Hn). lia.
Qed.

Lemma MarkContainerNodeAllocated_ok a p c (np nc : Inode) : 0 ≤ p → 0 ≤ c → p ≠ c →
  a.(node_map_) !! Z.to_nat p = Some np → a.(node_map_) !! Z.to_nat c = Some nc → IsAllocated nc = false →
  MarkContainerNodeAllocated a (reserved_node c) p = Returns (with_node_map a
    (<[Z.to_nat c := init_container nc p]> (<[Z.to_nat p := field_set next_node np c]> a.(node_map_)))).
Proof.
  intros Hp Hc Hne Hnp Hnc Hun. pose proof (lookup_lt_Some _ _ _ Hnp). pose proof (lookup_lt_Some _ _ _ Hnc).
  unfold MarkContainerNodeAllocated. cbn [index reserved_node node_reserved node_ ZX_DEBUG_ASSERT mbind outcome_bind].
  rewrite (GetNode_ok a p np) by done. cbn [mbind outcome_bind]. rewrite SetNode_ok by lia. cbn [mbind outcome_bind].
  rewrite (GetNode_ok _ c nc); [|done|cbn; by rewrite list_lookup_insert_ne by (by apply to_nat_ne)].
  cbn [mbind outcome_bind]. unfold IsAllocated in Hun. apply negb_false_iff in Hun. rewrite Hun.
  cbn [ZX_ASSERT mbind outcome_bind]. rewrite SetNode_ok; [done|]. cbn. rewrite length_insert. lia.
Qed.

(** Where the walk is after [k] extents: in node [cnt] with [q] extents in it. *)
Definition place (ids : list Z) (k cnt q : nat) (container : option Z) : Prop :=
  (k = 0 ∧ cnt = 0 ∧ q = 0)%nat ∨ (k = 1 ∧ cnt = 0 ∧ q = 1)%nat ∨
  ∃ j c, cnt = S j ∧ k = (1 + 6 * j + q)%nat ∧ (1 ≤ q ≤ 6)%nat ∧ container = Some c ∧ ids !! cnt = Some c.

(** The same, with room for another extent. *)
Definition room (ids : list Z) (k cnt q : nat) (container : option Z) : Prop :=
  (k = 0 ∧ cnt = 0 ∧ q = 0)%nat ∨
  ∃ j c, cnt = S j ∧ k = (1 + 6 * j + q)%nat ∧ (q < 6)%nat ∧ container = Some c ∧ ids !! cnt = Some c.

Section walk_steps.
Context {W : Type} (ids : list Z) (Hnd : NoDup ids) (Hrange : Forall (λ c, 0 ≤ c < 2 ^ 32) ids) (m0 : list Inode).
Context (Hlen : Z.of_nat (length ids) < 2 ^ 32).

#[local] Notation nodes := (map reserved_node ids).

Lemma node_get j c : ids !! j = Some c → array_get nodes (Z.of_nat j) = Returns (reserved_node c).
Proof using. intros Hj. apply array_get_returns. split; [lia|]. rewrite Nat2Z.id, list_lookup_fmap, Hj. done. Qed.

Lemma node_at_ok j c : ids !! j = Some c → node_at nodes (Z.of_nat j) = Returns c.
Proof using. intros Hj. unfold node_at. by rewrite (node_get j c). Qed.

(** Moving to the next node of the chain. *)
Lemma container_moves a cnt es k p c (w : W) :
  walking ids m0 a.(node_map_) cnt es k → (length es ≤ 1 + 6 * cnt)%nat → ids !! cnt = Some p → ids !! S cnt = Some c →
  ∃ m', (node ← array_get nodes (Z.of_nat cnt ⊞ 1);
    next ← index node;
    previous ← node_at nodes (Z.of_nat cnt);
    a ← MarkContainerNodeAllocated a node previous;
    _ ← GetNode a next;
    Returns {| w_alloc := a; w_world := w; w_count := Z.of_nat cnt ⊞ 1; w_local := 0; w_container := Some next |}) =
    Returns {| w_alloc := with_node_map a m'; w_world := w; w_count := Z.of_nat (S cnt); w_local := 0; w_container := Some c |} ∧
    walking ids m0 m' (S cnt) es k.
Proof using Hnd Hrange Hlen.
  intros Hw Hes Hp Hc. pose proof (lookup_lt_Some _ _ _ Hc). unwrap. replace (Z.of_nat cnt + 1) with (Z.of_nat (S cnt)) by lia.
  pose proof (ids_range ids Hrange _ _ Hc) as Hcr. pose proof (ids_range ids Hrange _ _ Hp) as Hpr.
  rewrite (node_get (S cnt) c), (node_at_ok cnt p) by done.
  cbn [mbind outcome_bind index reserved_node node_reserved node_ ZX_DEBUG_ASSERT]. fold (reserved_node c).
  destruct (walking_node ids m0 _ _ _ _ cnt p Hw) as (np & Hnp & Hh); [lia|done|].
  destruct (wk_fresh _ _ _ _ _ _ Hw (S cnt) c) as (nc & Hnc & _ & Hun); [lia|done|].
  assert (p ≠ c) as Hne. { intros ->. pose proof (NoDup_lookup _ _ _ _ Hnd Hp Hc). lia. }
  rewrite (MarkContainerNodeAllocated_ok a p c np nc) by (done || lia). cbn [mbind outcome_bind].
  pose proof (walking_link ids Hnd Hrange m0 _ _ _ _ p np c Hw Hp Hnp Hcr) as Hw1.
  assert (<[Z.to_nat p:=field_set next_node np c]> (node_map_ a) !! Z.to_nat c = Some nc) as Hnc1
    by (by rewrite list_lookup_insert_ne by (apply to_nat_ne; lia || done)).
  rewrite (GetNode_ok _ c (init_container nc p)); [|lia|].
  - eexists. split; [done|]. eapply (walking_grow ids Hnd Hrange m0 _ cnt es k p c); try done.
    + apply list_lookup_insert_eq. by eapply lookup_lt_Some.
    + by apply (holds_next cnt np es k).
  - cbn. apply list_lookup_insert_eq. by eapply lookup_lt_Some.
Qed.

Lemma walk_container_ok a (w : W) es k cnt q cont i0 :
  walking ids m0 a.(node_map_) cnt es k → length es = k → place ids k cnt q cont → ids !! 0%nat = Some i0 →
  (containers (S k) < length ids)%nat →
  ∃ m' cnt' q' cont', walk_container nodes i0 (Z.of_nat k)
      {| w_alloc := a; w_world := w; w_count := Z.of_nat cnt; w_local := Z.of_nat q; w_container := cont |} =
    Returns {| w_alloc := with_node_map a m'; w_world := w; w_count := Z.of_nat cnt'; w_local := Z.of_nat q'; w_container := cont' |} ∧
    walking ids m0 m' cnt' es k ∧ room ids k cnt' q' cont' ∧ cnt' = containers (S k).
Proof using Hnd Hrange Hlen.
  intros Hw Hes Hplace Hi0 Henough. pose proof (containers_spec (S k)) as [Hc1 Hc2].
  unfold walk_container, kInlineMaxExtents, kContainerMaxExtents. cbn [w_alloc w_world w_count w_local w_container].
  destruct Hplace as [(-> & -> & ->)|[(-> & -> & ->)|(j & c & -> & Hk & Hq & -> & Hc)]].
  - cbn [Z.eqb Z.of_nat mbind outcome_bind]. exists a.(node_map_), 0%nat, 0%nat, cont. split; [by destruct a|].
    split_and!; [done|by left|done].
  - change (containers 2) with 1%nat in *. destruct (lookup_lt_is_Some_2 ids 1 Henough) as [c Hc].
    pose proof (ids_range ids Hrange _ _ Hc). pose proof (ids_range ids Hrange _ _ Hi0).
    cbn [Z.eqb Z.of_nat Pos.of_succ_nat Pos.eqb]. rewrite length_map. unfold ZX_DEBUG_ASSERT at 1. ztest. cbn [mbind outcome_bind].
    assert (node_at nodes (Z.of_nat 0 ⊞ 1) = Returns c) as -> by exact (node_at_ok 1 c Hc).
    cbn [mbind outcome_bind].
    destruct (walking_node ids m0 _ _ _ _ 0 i0 Hw) as (n0 & Hn0 & _); [lia|done|].
    rewrite (update_node_ok a i0 n0) by (done || lia). cbn [mbind outcome_bind].
    pose proof (walking_link ids Hnd Hrange m0 _ _ _ _ i0 n0 c Hw Hi0 Hn0 ltac:(lia)) as Hw1.
    destruct (container_moves (with_node_map a (<[Z.to_nat i0:=field_set next_node n0 c]> (node_map_ a))) 0 es 1 i0 c w)
      as (m' & E & Hw'); [done|lia|done..|].
    exists m', 1%nat, 0%nat, (Some c). split; [exact E|]. split_and!; [done| |done].
    right. exists 0%nat, c. split_and!; done || lia.
  - pose proof (lookup_lt_Some _ _ _ Hc). ztest. destruct (decide (q = 6%nat)) as [->|Hne].
    + assert (containers (S k) = S (S j)) as Hcs by lia. rewrite Hcs in *.
      destruct (lookup_lt_is_Some_2 ids (S (S j)) Henough) as [c' Hc'].
      cbn [Z.eqb Z.of_nat Pos.of_succ_nat Pos.succ Pos.eqb]. rewrite length_map. unfold ZX_DEBUG_ASSERT at 1. ztest. cbn [mbind outcome_bind].
      destruct (container_moves a (S j) es k c c' w) as (m' & E & Hw'); [done|lia|done..|].
      exists m', (S (S j)), 0%nat, (Some c'). split; [exact E|]. split_and!; [done| |done].
      right. exists (S j), c'. split_and!; done || lia.
    + ztest. cbn [mbind outcome_bind]. exists a.(node_map_), (S j), q, (Some c). split; [by destruct a|].
      split_and!; [done| |lia]. right. exists j, c. split_and!; done || lia.
Qed.

Lemma walk_store_ok a (w : W) es k cnt q cont i0 (r : ReservedExtent) :
  walking ids m0 a.(node_map_) cnt es k → length es = k → room ids k cnt q cont → ids !! 0%nat = Some i0 →
  r.(reserved) = true → 0 ≤ r.(Reservers.extent_) < 2 ^ 64 → Z.of_nat k < 65535 →
  ∃ m', walk_store i0 (Z.of_nat k) r
      {| w_alloc := a; w_world := w; w_count := Z.of_nat cnt; w_local := Z.of_nat q; w_container := cont |} =
    Returns (with_node_map a m') ∧ walking ids m0 m' cnt (es ++ [r.(Reservers.extent_)]) (S k).
Proof using Hnd Hrange Hlen.
  intros Hw Hes Hroom Hi0 Hr Hv Hk. pose proof (ids_range ids Hrange _ _ Hi0). unfold walk_store, extent. rewrite Hr.
  cbn [ZX_DEBUG_ASSERT mbind outcome_bind w_alloc w_local w_container]. unfold kInlineMaxExtents, kContainerMaxExtents.
  assert (∀ m, walking ids m0 m cnt (es ++ [Reservers.extent_ r]) k →
    ∃ m', update_node (with_node_map a m) i0 (λ n, field_set inode_extent_count n (u16 (field_get inode_extent_count n + 1))) =
      Returns (with_node_map a m') ∧ walking ids m0 m' cnt (es ++ [Reservers.extent_ r]) (S k)) as Hcount.
  { intros m Hm. destruct (walking_node ids m0 _ _ _ _ 0 i0 Hm) as (n0 & Hn0 & _); [lia|done|].
    rewrite (update_node_ok _ i0 n0) by (done || lia). eexists. split; [done|]. by eapply walking_count. }
  destruct Hroom as [(-> & -> & ->)|(j & c & -> & Hkq & Hq & -> & Hc)].
  - apply nil_length_inv in Hes as ->. cbn [Z.ltb Z.of_nat Z.compare in_bounds mbind outcome_bind].
    destruct (walking_node ids m0 _ _ _ _ 0 i0 Hw) as (n0 & Hn0 & _); [lia|done|].
    rewrite (update_node_ok a i0 n0) by (done || lia). cbn [mbind outcome_bind].
    apply Hcount. by eapply walking_store_inode.
  - pose proof (ids_range ids Hrange _ _ Hc). ztest. cbn [in_bounds mbind outcome_bind].
    destruct (walking_node ids m0 _ _ _ _ (S j) c Hw) as (n & Hn & _); [lia|done|].
    rewrite (update_node_ok a c n) by (done || lia). cbn [mbind outcome_bind].
    apply Hcount. eapply walking_store_container; try done. lia.
Qed.

End walk_steps.

Section walk_theory.
Context {W : Type}.
Context (on_node : Allocator → W → ReservedNode → outcome (Allocator * W)).
Context (on_extent : Allocator → W → ReservedExtent → outcome (IterationCommand * ReservedExtent * Allocator * W)).

(** The callback on extents, called on its own until it says stop: the extents as it leaves them. *)
Fixpoint visit (a : Allocator) (w : W) (es : list ReservedExtent) : outcome (list ReservedExtent * Allocator * W) :=
  match es with
  | [] => Returns ([], a, w)
  | e :: es =>
    r ← on_extent a w e;
    let '(command, e, a, w) := r in
    match command with
    | Stop => Returns ([e], a, w)
    | Continue => r ← visit a w es; let '(es, a, w) := r in Returns (e :: es, a, w)
    end
  end.

(** A callback that neither reads nor writes the node map. *)
Definition node_blind : Prop := ∀ a w e m,
  on_extent (with_node_map a m) w e =
    (r ← on_extent a w e; let '(c, e, a, w) := r in Returns (c, e, with_node_map a m, w)).

Lemma visit_length a w es new a' w' : visit a w es = Returns (new, a', w') → (length new ≤ length es)%nat.
Proof using.
  revert a w new. induction es as [|e es IH]; intros a w new; cbn [visit]; [by intros [= <- _ _]|].
  destruct (on_extent a w e) as [[[[[] e1] a1] w1]| |]; cbn [mbind outcome_bind]; [|intros [= <- _ _]; cbn; lia|done..].
  destruct (visit a1 w1 es) as [[[new1 a2] w2]| |] eqn:E; [|done..]. cbn [mbind outcome_bind]. intros [= <- <- <-].
  apply IH in E. cbn. lia.
Qed.

Lemma containers_mono k k' : (k ≤ k')%nat → (containers k ≤ containers k')%nat.
Proof using. intros. apply Nat.Div0.div_le_mono. lia. Qed.

Lemma place_containers ids k cnt q cont : place ids k cnt q cont → cnt = containers k.
Proof using.
  pose proof (containers_spec k). intros [(-> & -> & _)|[(-> & -> & _)|(j & c & -> & Hk & Hq & _)]]; [done..|lia].
Qed.

Lemma room_place ids k cnt q cont : room ids k cnt q cont → place ids (S k) cnt (S q) cont.
Proof using.
  intros [(-> & -> & ->)|(j & c & -> & Hk & Hq & -> & Hc)]; right; [by left|].
  right. exists j, c. split_and!; done || lia.
Qed.

Definition stored (r : ReservedExtent) : Prop := r.(reserved) = true ∧ 0 ≤ r.(Reservers.extent_) < 2 ^ 64.

Lemma walk_loop_ok ids m0 i0 : NoDup ids → Forall (λ c, 0 ≤ c < 2 ^ 32) ids → Z.of_nat (length ids) < 2 ^ 32 →
  ids !! 0%nat = Some i0 → node_blind →
  ∀ rest a w m es k cnt q cont visited new a' w',
  visit a w rest = Returns (new, a', w') → Forall stored new →
  walking ids m0 m cnt es k → length es = k → place ids k cnt q cont →
  (containers (k + length rest) < length ids)%nat → Z.of_nat (k + length rest) ≤ 65535 →
  ∃ m' q' cont', walk_loop on_extent (map reserved_node ids) i0 (Z.of_nat k) rest
      {| w_alloc := with_node_map a m; w_world := w; w_count := Z.of_nat cnt; w_local := Z.of_nat q; w_container := cont |} visited =
    Returns ({| w_alloc := with_node_map a' m'; w_world := w'; w_count := Z.of_nat (containers (k + length new));
                w_local := Z.of_nat q'; w_container := cont' |}, visited ++ new) ∧
    walking ids m0 m' (containers (k + length new)) (es ++ map Reservers.extent_ new) (k + length new).
Proof using.
  intros Hnd Hrange Hlen Hi0 Hblind. induction rest as [|e rest IH];
    intros a w m es k cnt q cont visited new a' w' Hv Hst Hw Hes Hplace Henough Hk; cbn [visit walk_loop] in *.
  { injection Hv as <- <- <-. rewrite (place_containers _ _ _ _ _ Hplace) in *. exists m, q, cont.
    cbn. rewrite Nat.add_0_r, !app_nil_r. done. }
  cbn [length] in *. pose proof (containers_mono (S k) (k + S (length rest)) ltac:(lia)).
  destruct (walk_container_ok ids Hnd Hrange m0 Hlen (with_node_map a m) w es k cnt q cont i0)
    as (m1 & cnt1 & q1 & cont1 & E1 & Hw1 & Hroom & Hcnt1); [done|done|done|done|lia|].
  rewrite E1. cbn [mbind outcome_bind w_alloc w_world w_count w_local w_container].
  change (with_node_map (with_node_map a m) m1) with (with_node_map a m1). rewrite Hblind.
  destruct (on_extent a w e) as [[[[command e1] a1] w1]| |] eqn:E; [|done..]. cbn [mbind outcome_bind] in *.
  assert (stored e1) as [Hr1 Hx1].
  { destruct command; [destruct (visit a1 w1 rest) as [[[? ?] ?]| |]; [|done..]|]; injection Hv as <- <- <-;
      by apply Forall_cons in Hst as [? _]. }
  destruct (walk_store_ok ids Hnd Hrange m0 Hlen (with_node_map a1 m1) w1 es k cnt1 q1 cont1 i0 e1) as (m2 & E2 & Hw2);
    [done..|lia|].
  rewrite E2. change (with_node_map (with_node_map a1 m1) m2) with (with_node_map a1 m2). cbn [mbind outcome_bind].
  destruct command.
  - destruct (visit a1 w1 rest) as [[[new1 a2] w2]| |] eqn:Ev; [|done..]. injection Hv as <- <- <-.
    apply Forall_cons in Hst as [_ Hst]. unwrap. replace (Z.of_nat k + 1) with (Z.of_nat (S k)) by lia.
    replace (u32 (Z.of_nat q1 + 1)) with (Z.of_nat (S q1)) by (destruct Hroom as [?|(? & ? & ?)]; unwrap; lia).
    destruct (IH a1 w1 m2 (es ++ [Reservers.extent_ e1]) (S k) cnt1 (S q1) cont1 (visited ++ [e1]) new1 a2 w2)
      as (m' & q' & cont' & E3 & Hw'); [done|done|done|rewrite length_app; cbn; lia|by apply room_place| |lia|].
    { replace (S k + length rest)%nat with (k + S (length rest))%nat by lia. lia. }
    exists m', q', cont'. cbn [length map]. rewrite E3, <- !app_assoc. rewrite <- app_assoc in Hw'.
    replace (k + S (length new1))%nat with (S k + length new1)%nat by lia. done.
  - injection Hv as <- <- <-. exists m2, q1, cont1. cbn [length map]. rewrite Nat.add_1_r, <- Hcnt1. done.
Qed.

End walk_theory.

(** The nodes that a walk needs: distinct, unallocated, and an inode that records no extents. *)
Record fresh_nodes (a : Allocator) (ids : list Z) : Prop := {
  fn_nodup : NoDup ids;
  fn_range : Forall (λ c, 0 ≤ c < 2 ^ 32) ids;
  fn_length : Z.of_nat (length ids) < 2 ^ 32;
  fn_nodes : ∀ c, c ∈ ids → ∃ n : Inode, a.(node_map_) !! Z.to_nat c = Some n ∧ length n = kNodeWords ∧ IsAllocated n = false;
  fn_inode : ∀ c (n : Inode), ids !! 0%nat = Some c → a.(node_map_) !! Z.to_nat c = Some n → field_get inode_extent_count n = 0;
}.

(** Marking the inode starts the walk. *)
Lemma walking_start a ids i0 : fresh_nodes a ids → ids !! 0%nat = Some i0 →
  ∃ (n : Inode) m, GetNode a i0 = Returns n ∧ MarkInodeAllocated a (reserved_node i0) = Returns (with_node_map a m) ∧
    walking ids a.(node_map_) m 0 [] 0.
Proof.
  intros [Hnd Hrange Hlen Hnodes Hinode] Hi0. destruct (Hnodes i0) as (n & Hn & Hw & Hun); [by eapply list_elem_of_lookup_2|].
  pose proof (ids_range ids Hrange _ _ Hi0) as Hr. pose proof (lookup_lt_Some _ _ _ Hn).
  unfold MarkInodeAllocated. cbn [index reserved_node node_reserved node_ ZX_DEBUG_ASSERT mbind outcome_bind].
  rewrite (GetNode_ok a i0 n) by (done || lia). cbn [mbind outcome_bind]. unfold IsAllocated in Hun. apply negb_false_iff in Hun.
  rewrite Hun. cbn [ZX_ASSERT mbind outcome_bind]. rewrite SetNode_ok by lia. eexists n, _. split_and!; [done..|].
  assert (take 1 ids = [i0]) as Htake by (destruct ids; [done|by injection Hi0 as ->]).
  constructor.
  - rewrite Htake. intros j c Hj. apply list_lookup_singleton_Some in Hj as [-> <-]. split; [lia|].
    eexists. rewrite list_lookup_insert_eq by done. split; [done|]. split; [|done].
    unfold holds, Inode, kNodeWords in *. rewrite !length_field_set. split; [done|]. split; [|done].
    fields. by apply (Hinode i0).
  - by eapply lookup_lt_Some.
  - intros j c Hj Hc. destruct (Hnodes c) as (x & Hx & Hxl & Hxu); [by eapply list_elem_of_lookup_2|].
    exists x. rewrite list_lookup_insert_ne by (apply (ids_ne ids Hnd Hrange 0 j); done || lia). done.
  - rewrite Htake. intros i Hi. rewrite list_lookup_insert_ne; [done|]. apply Hi. by left.
Qed.

(** A walk has left what the iterator over the inode yields. *)
Lemma walking_yields a ids m0 m es i0 : walking ids m0 m (containers (length es)) es (length es) →
  ids !! 0%nat = Some i0 → Z.of_nat (length es) < 65536 → a.(node_map_) = m →
  ∃ it, NewAllocatedExtentIterator a i0 = Returns it ∧ yields it es.
Proof.
  intros Hw Hi0 Hes <-. destruct ids as [|x cs]; [done|]. injection Hi0 as ->.
  destruct (wk_layout _ _ _ _ _ _ Hw 0%nat i0) as (Hi & n & Hn & _); [done|].
  unfold NewAllocatedExtentIterator. rewrite (GetNode_ok a i0 n) by done. eexists. split; [done|].
  exists (take (containers (length es)) cs), es, 0%nat. pose proof (wk_used _ _ _ _ _ _ Hw) as Hu. cbn [length] in Hu.
  split_and!; try done; [apply Hw|rewrite length_take; lia|lia].
Qed.

(** ** What a walk leaves of the inode

    The extents and links are written; the root hash, the size, the number of blocks and the flags are not. *)

Definition core_fields : list field :=
  [merkle_root_hash 0; merkle_root_hash 1; merkle_root_hash 2; merkle_root_hash 3; blob_size; block_count; node_flags].

Definition core (n : Inode) : list Z := map (λ f, field_get f n) core_fields.

(** A field apart from those of the core. *)
Definition apart (f : field) : bool := field_valid f && forallb (λ g, field_valid g && field_disjoint f g) core_fields.

Lemma core_field_set f n v : apart f = true → core (field_set f n v) = core n.
Proof.
  unfold apart. intros [Hf H]%andb_true_iff. unfold core. apply map_ext_in. intros g Hg. rewrite forallb_forall in H.
  specialize (H g Hg). apply andb_true_iff in H as [Hg1 Hg2]. by apply field_get_set_ne.
Qed.

Section keep_core.
Context (i0 : Z).

Definition keeps_core (m m' : list Inode) : Prop :=
  ∀ n, m !! Z.to_nat i0 = Some n → ∃ n', m' !! Z.to_nat i0 = Some n' ∧ core n' = core n.

Lemma keeps_core_trans m1 m2 m3 : keeps_core m1 m2 → keeps_core m2 m3 → keeps_core m1 m3.
Proof. intros H1 H2 n Hn. destruct (H1 n Hn) as (n2 & Hn2 & E2). destruct (H2 n2 Hn2) as (n3 & Hn3 & E3). exists n3. split; [done|congruence]. Qed.

Lemma keeps_core_insert m i (n' : Inode) : (∀ n, i = Z.to_nat i0 → m !! i = Some n → core n' = core n) → keeps_core m (<[i := n']> m).
Proof.
  intros H n Hn. destruct (decide (i = Z.to_nat i0)) as [->|Hne].
  - exists n'. rewrite list_lookup_insert_eq by (by eapply lookup_lt_Some). split; [done|]. by apply H.
  - exists n. by rewrite list_lookup_insert_ne by done.
Qed.

Lemma SetNode_returns a i n a' : SetNode a i n = Returns a' → a' = with_node_map a (<[Z.to_nat i := n]> a.(node_map_)).
Proof. unfold SetNode, array_set. intros (m & E & [= <-])%bind_returns. destruct (_ && _) in E; [|done]. by injection E as <-. Qed.

Lemma update_node_inv a i f a' : update_node a i f = Returns a' →
  ∃ n, a.(node_map_) !! Z.to_nat i = Some n ∧ a' = with_node_map a (<[Z.to_nat i := f n]> a.(node_map_)).
Proof.
  unfold update_node. intros (n & [Hi Hn]%array_get_returns & E%SetNode_returns)%bind_returns. by exists n.
Qed.

Lemma update_node_core a i f a' : update_node a i f = Returns a' → (∀ n, Z.to_nat i = Z.to_nat i0 → core (f n) = core n) →
  keeps_core a.(node_map_) a'.(node_map_).
Proof.
  intros (n & Hn & ->)%update_node_inv Hf. cbn [with_node_map node_map_]. apply keeps_core_insert. intros n' Hi Hn'. rewrite Hn in Hn'. injection Hn' as ->. by apply Hf.
Qed.

Lemma MarkContainerNodeAllocated_inv a i p a' : MarkContainerNodeAllocated a (reserved_node i) p = Returns a' →
  Z.to_nat i ≠ Z.to_nat i0 → keeps_core a.(node_map_) a'.(node_map_).
Proof.
  unfold MarkContainerNodeAllocated. cbn [index reserved_node node_reserved node_ ZX_DEBUG_ASSERT mbind outcome_bind]. intros E Hne.
  unfold GetNode in E. destruct (ZX_DEBUG_ASSERT _) as [[]| |] in E; [|done..]. cbn [mbind outcome_bind] in E. apply bind_returns in E as (np & [Hp Hnp]%array_get_returns & E).
  apply bind_returns in E as (a1 & ->%SetNode_returns & E). destruct (ZX_DEBUG_ASSERT _) as [[]| |] in E; [|done..]. cbn [mbind outcome_bind] in E.
  apply bind_returns in E as (c & _ & E). destruct (ZX_ASSERT _) as [[]| |] in E; [|done..]. cbn [mbind outcome_bind] in E. apply SetNode_returns in E as ->.
  cbn [with_node_map node_map_]. eapply keeps_core_trans; apply keeps_core_insert; [|done]. intros n _ Hn. assert (Some np = Some n) as [= ->] by (etransitivity; [symmetry; exact Hnp|exact Hn]). by apply core_field_set.
Qed.

Context (ids : list Z) (Hnd : NoDup ids) (Hrange : Forall (λ c, 0 ≤ c < 2 ^ 32) ids) (Hlen : Z.of_nat (length ids) < 2 ^ 32).
Context (Hi0 : ids !! 0%nat = Some i0).

(** A container is another node. *)
Definition apart_node (c : option Z) : Prop := ∀ i, c = Some i → Z.to_nat i ≠ Z.to_nat i0.

Lemma later_node j node : array_get (map reserved_node ids) (u64 (j + 1)) = Returns node → 0 ≤ j < 2 ^ 32 →
  j + 1 < 2 ^ 32 ∧ ∃ i, node = reserved_node i ∧ Z.to_nat i ≠ Z.to_nat i0.
Proof using All.
  intros [_ H]%array_get_returns Hj. rewrite u64_small in H by lia. rewrite list_lookup_fmap in H. destruct (ids !! Z.to_nat (j + 1)) as [i|] eqn:E; [|done].
  injection H as <-. pose proof (lookup_lt_Some _ _ _ E). split; [lia|]. exists i. split; [done|]. apply (ids_ne ids Hnd Hrange (Z.to_nat (j + 1)) 0); done || lia.
Qed.

Section keep_loop.
Context {W : Type} (on_extent : Allocator → W → ReservedExtent → outcome (IterationCommand * ReservedExtent * Allocator * W)).
Context (Hblind : node_blind on_extent).

Definition loop_ok (s : @walk W) : Prop := 0 ≤ s.(w_count) < 2 ^ 32 ∧ apart_node s.(w_container).

Lemma walk_container_core k (s s' : @walk W) : walk_container (map reserved_node ids) i0 k s = Returns s' → loop_ok s →
  loop_ok s' ∧ keeps_core s.(w_alloc).(node_map_) s'.(w_alloc).(node_map_).
Proof using Hi0 Hlen Hnd Hrange.
  intros E [Hc Ha]. unfold walk_container in E. apply bind_returns in E as ([next a] & E1 & E).
  assert (keeps_core s.(w_alloc).(node_map_) a.(node_map_)) as Hk1.
  { destruct (k =? kInlineMaxExtents).
    - destruct (ZX_DEBUG_ASSERT _) as [[]| |] in E1; [|done..]. cbn [mbind outcome_bind] in E1. apply bind_returns in E1 as (i & _ & E1). apply bind_returns in E1 as (a' & Eu & E1).
      injection E1 as _ <-. eapply update_node_core; [exact Eu|]. intros n _. by apply core_field_set.
    - destruct (_ =? kContainerMaxExtents); [destruct (ZX_DEBUG_ASSERT _) as [[]| |] in E1; [|done..]|]; injection E1 as _ <-; intros n Hn; by exists n. }
  destruct next; [|injection E as <-; split; [done|]].
  2: { destruct (k =? kInlineMaxExtents) in E1; [|destruct (_ =? kContainerMaxExtents) in E1].
    - destruct (ZX_DEBUG_ASSERT _) as [[]| |] in E1; [|done..]. cbn [mbind outcome_bind] in E1. apply bind_returns in E1 as (i & _ & E1). by apply bind_returns in E1 as (a' & _ & E1).
    - by destruct (ZX_DEBUG_ASSERT _) as [[]| |] in E1.
    - by injection E1 as <-. }
  apply bind_returns in E as (node & Enode & E). destruct (later_node _ _ Enode Hc) as (Hc1 & i & -> & Hne).
  cbn [index reserved_node node_reserved node_ ZX_DEBUG_ASSERT mbind outcome_bind] in E. apply bind_returns in E as (p & _ & E). apply bind_returns in E as (a' & Em & E).
  apply bind_returns in E as (n & _ & E). injection E as <-. cbn [w_count w_container w_alloc]. split.
  - split; [cbn; rewrite u64_small by lia; lia|]. intros j [= <-]. done.
  - eapply keeps_core_trans; [exact Hk1|]. by eapply MarkContainerNodeAllocated_inv.
Qed.

Lemma walk_store_core k r (s : @walk W) a' : walk_store i0 k r s = Returns a' → apart_node s.(w_container) → keeps_core s.(w_alloc).(node_map_) a'.(node_map_).
Proof.
  intros E Ha. unfold walk_store in E. apply bind_returns in E as (e & _ & E). apply bind_returns in E as (a1 & E1 & E).
  eapply keeps_core_trans; [|eapply update_node_core; [exact E|intros n _; by apply core_field_set]].
  destruct (k <? kInlineMaxExtents).
  - unfold in_bounds in E1. destruct (Z.ltb_spec s.(w_local) kInlineMaxExtents) as [Hl|]; [|done]. cbn [mbind outcome_bind] in E1.
    eapply update_node_core; [exact E1|]. intros n _. apply core_field_set. unfold inode_extents, kInlineMaxExtents in *.
    by replace (Z.to_nat (w_local s)) with 0%nat by lia.
  - destruct (w_container s) as [c|]; [|done]. destruct (in_bounds _) as [[]| |] in E1; [|done..]. cbn [mbind outcome_bind] in E1.
    eapply update_node_core; [exact E1|]. intros n Hc. by destruct (Ha c).
Qed.

Lemma walk_loop_core rest k s visited s' v' : walk_loop on_extent (map reserved_node ids) i0 k rest s visited = Returns (s', v') → loop_ok s →
  keeps_core s.(w_alloc).(node_map_) s'.(w_alloc).(node_map_).
Proof using All.
  revert k s visited. induction rest as [|e rest IH]; intros k s visited E Hok; cbn [walk_loop] in E; [injection E as <- _; intros n Hn; by exists n|].
  apply bind_returns in E as (s1 & E1 & E). destruct (walk_container_core _ _ _ E1 Hok) as [Hok1 Hk1].
  apply bind_returns in E as ([[[command e1] a1] w1] & Ex & E). apply bind_returns in E as (a2 & Es & E).
  assert (node_map_ a1 = node_map_ (w_alloc s1)) as Hm1.
  { pose proof (Hblind (w_alloc s1) (w_world s1) e (node_map_ (w_alloc s1))) as Hb. replace (with_node_map (w_alloc s1) (node_map_ (w_alloc s1))) with (w_alloc s1) in Hb by (by destruct (w_alloc s1)).
    rewrite Ex in Hb. cbn in Hb. injection Hb as ->. done. }
  pose proof (walk_store_core _ _ _ _ Es (proj2 Hok1)) as Hk2. cbn in Hk2. rewrite Hm1 in Hk2.
  assert (keeps_core s.(w_alloc).(node_map_) a2.(node_map_)) as Hk by (by eapply keeps_core_trans).
  destruct command; [|injection E as <- _; done]. eapply keeps_core_trans; [exact Hk|]. apply (IH _ _ _ E). done.
Qed.

End keep_loop.
End keep_core.

Lemma MarkInodeAllocated_inv a i a' (n : Inode) : MarkInodeAllocated a (reserved_node i) = Returns a' → a.(node_map_) !! Z.to_nat i = Some n →
  a'.(node_map_) = <[Z.to_nat i := field_set next_node (field_set node_flags n kBlobFlagAllocated) 0]> a.(node_map_).
Proof.
  unfold MarkInodeAllocated, GetNode. cbn [index reserved_node node_reserved node_ ZX_DEBUG_ASSERT mbind outcome_bind]. intros E Hn.
  destruct (ZX_DEBUG_ASSERT _) as [[]| |] in E; [|done..]. cbn [mbind outcome_bind] in E. apply bind_returns in E as (n' & [_ Hn']%array_get_returns & E).
  assert (Some n' = Some n) as [= ->] by (etransitivity; [symmetry; exact Hn'|exact Hn]).
  destruct (ZX_ASSERT _) as [[]| |] in E; [|done..]. cbn [mbind outcome_bind] in E. by apply SetNode_returns in E as ->.
Qed.

(** A walk, and what it has left. *)
Lemma Walk_ok {W : Type}
    (on_node : Allocator → W → ReservedNode → outcome (Allocator * W))
    (on_extent : Allocator → W → ReservedExtent → outcome (IterationCommand * ReservedExtent * Allocator * W))
    (a a1 : Allocator) (w w1 : W) (extents visited : list ReservedExtent) (ids : list Z) :
  fresh_nodes a ids → Z.of_nat (length extents) ≤ 65535 →
  NodeCountForExtents (Z.of_nat (length extents)) ≤ Z.of_nat (length ids) →
  node_blind on_extent → visit on_extent a w extents = Returns (visited, a1, w1) → Forall stored visited →
  ∃ i0 m, ids !! 0%nat = Some i0 ∧
    let used := take (S (containers (length visited))) ids in
    Walk on_node on_extent {| extents_ := extents; nodes_ := map reserved_node ids |} a w =
      (r ← visit_nodes on_node (map reserved_node used) (with_node_map a1 m) w1;
       Returns (ZX_OK, {| extents_ := visited ++ drop (length visited) extents; nodes_ := map reserved_node ids |}, fst r, snd r)) ∧
    walking ids a.(node_map_) m (containers (length visited)) (map Reservers.extent_ visited) (length visited) ∧
    ∀ n, a.(node_map_) !! Z.to_nat i0 = Some n → ∃ n', m !! Z.to_nat i0 = Some n' ∧ core n' = core (field_set node_flags n kBlobFlagAllocated).
Proof.
  intros Hfresh Hext Hcount Hblind Hvisit Hst. rewrite NodeCountForExtents_eq, Nat2Z.id in Hcount by lia.
  destruct (lookup_lt_is_Some_2 ids 0) as [i0 Hi0]; [lia|].
  destruct (walking_start a ids i0 Hfresh Hi0) as (n0 & m1 & Hget & Hmark & Hw).
  pose proof (ids_range ids (fn_range _ _ Hfresh) _ _ Hi0) as Hr0. destruct Hfresh as [Hnd Hrange Hlen _ _].
  destruct (walk_loop_ok on_extent ids (node_map_ a) i0 Hnd Hrange Hlen Hi0 Hblind extents a w m1 [] 0 0 0 None [] visited a1 w1)
    as (m & q & cont & Hloop & Hwm); [done|done|done|done|by left|cbn [Nat.add]; lia|cbn [Nat.add]; lia|]. cbn [app Nat.add] in Hloop, Hwm.
  assert (length visited ≤ length extents)%nat as Hvl by (by eapply visit_length).
  exists i0, m. cbn zeta. split_and!; [done| |exact Hwm|].
  - unfold Walk. cbn [nodes_ extents_]. assert (array_get (map reserved_node ids) 0 = Returns (reserved_node i0)) as ->
    by exact (node_get ids 0 i0 Hi0).
  cbn [mbind outcome_bind index reserved_node node_reserved node_ ZX_DEBUG_ASSERT]. fold (reserved_node i0).
  rewrite Hget. cbn [mbind outcome_bind]. rewrite Hmark. cbn [mbind outcome_bind].
  change 0 with (Z.of_nat 0) at 1 2 3. rewrite Hloop. cbn [mbind outcome_bind w_count w_alloc w_world].
  pose proof (wk_used _ _ _ _ _ _ Hwm). rewrite length_map. ztest. cbn [mbind outcome_bind].
  replace (Z.to_nat (_ + 1)) with (S (containers (length visited))) by lia. by rewrite <- firstn_map.
  - intros n Hn. apply (walk_loop_core i0 ids Hnd Hrange Hlen Hi0 _ Hblind) in Hloop; [|split; [cbn; lia|done]]. cbn in Hloop.
    pose proof (MarkInodeAllocated_inv a i0 _ n Hmark Hn) as Em. cbn in Em. destruct (Hloop (field_set next_node (field_set node_flags n kBlobFlagAllocated) 0)) as (n' & Hn' & Hc).
    { rewrite Em. apply list_lookup_insert_eq. by eapply lookup_lt_Some. }
    exists n'. split; [done|]. rewrite Hc. by apply core_field_set.
Qed.

(** ** Theorems *)

(** C21. A blob that is written is read back.  Given distinct unallocated nodes, at least
    as many as [NodeCountForExtents] asks for, [Walk] returns [ZX_OK] without failing an
    assertion: it calls the callback on the extents until it says stop, calls [on_node]
    on exactly the [NodeCountForExtents] nodes that the visited extents need, leaves
    every other node of the map as it was, and iterating with
    [AllocatedExtentIterator] over the inode gives exactly the visited extents, in
    order and as the callback left them, and ends. *)
Theorem walk_then_iterate {W : Type}
    (on_node : Allocator → W → ReservedNode → outcome (Allocator * W))
    (on_extent : Allocator → W → ReservedExtent → outcome (IterationCommand * ReservedExtent * Allocator * W))
    (a a1 : Allocator) (w w1 : W) (extents visited : list ReservedExtent) (ids : list Z) :
  fresh_nodes a ids → Z.of_nat (length extents) ≤ 65535 →
  NodeCountForExtents (Z.of_nat (length extents)) ≤ Z.of_nat (length ids) →
  node_blind on_extent → visit on_extent a w extents = Returns (visited, a1, w1) → Forall stored visited →
  ∃ i0 m, ids !! 0%nat = Some i0 ∧
    let used := take (Z.to_nat (NodeCountForExtents (Z.of_nat (length visited)))) ids in
    Walk on_node on_extent {| extents_ := extents; nodes_ := map reserved_node ids |} a w =
      (r ← visit_nodes on_node (map reserved_node used) (with_node_map a1 m) w1;
       Returns (ZX_OK, {| extents_ := visited ++ drop (length visited) extents; nodes_ := map reserved_node ids |}, fst r, snd r)) ∧
    (∀ i, (∀ c, c ∈ used → Z.to_nat c ≠ i) → m !! i = a.(node_map_) !! i) ∧
    ∀ a2, a2.(node_map_) = m →
      ∃ it, NewAllocatedExtentIterator a2 i0 = Returns it ∧
        collect (S (length visited)) it = Returns (ZX_OK, map Reservers.extent_ visited).
Proof.
  intros Hfresh Hext Hcount Hblind Hvisit Hst. assert (length visited ≤ length extents)%nat as Hvl by (by eapply visit_length).
  destruct (Walk_ok on_node on_extent a a1 w w1 extents visited ids Hfresh Hext Hcount Hblind Hvisit Hst) as (i0 & m & Hi0 & HW & Hwm & _).
  exists i0, m. rewrite NodeCountForExtents_eq, Nat2Z.id by lia.
  replace (Z.to_nat (1 + _)) with (S (containers (length visited))) by lia. cbn zeta. split_and!; [done|done|apply Hwm|].
  intros a2 Ha2. rewrite <- (length_map Reservers.extent_ visited) in Hwm.
  destruct (walking_yields a2 ids _ m _ i0 Hwm Hi0) as (it & Hit & Hy); [rewrite length_map; lia|done|].
  exists it. split; [done|]. apply collect_ok; [done|]. rewrite length_map. lia.
Qed.

(** A callback that uses every extent whole, and nine extents for it. *)
Definition keep_extent (a : Allocator) (w : unit) (e : ReservedExtent)
    : outcome (IterationCommand * ReservedExtent * Allocator * unit) := Returns (Continue, e, a, w).

Definition keep_node (a : Allocator) (w : unit) (n : ReservedNode) : outcome (Allocator * unit) := Returns (a, w).

Definition nine_extents : list ReservedExtent :=
  map (λ i, {| reserved := true; Reservers.extent_ := i * 16 + 2 ^ 48 |}) (seqZ 0 9).

(** Four zeroed nodes. *)
Definition blank_nodes : Allocator := example_nodes example_blocks.(node_bitmap_).

Lemma walk_then_iterate_witness : ∃ p a2 it,
  Walk keep_node keep_extent {| extents_ := nine_extents; nodes_ := map reserved_node [2; 0; 3] |} blank_nodes tt =
    Returns (ZX_OK, p, a2, tt) ∧
  NewAllocatedExtentIterator a2 2 = Returns it ∧ collect 10 it = Returns (ZX_OK, map Reservers.extent_ nine_extents).
Proof.
  destruct (walk_then_iterate keep_node keep_extent blank_nodes blank_nodes tt tt
    nine_extents nine_extents [2; 0; 3]) as (i0 & m & Hi0 & Hwalk & _ & Hread).
  - constructor; [apply (bool_decide_unpack (NoDup [2; 0; 3])); reflexivity|repeat constructor; lia|cbn; lia| |].
    + intros c Hc. exists (replicate kNodeWords 0). split; [|split; reflexivity].
      apply lookup_replicate. split; [reflexivity|]. set_solver by lia.
    + intros c n Hc Hn. injection Hc as <-. injection Hn as <-. reflexivity.
  - vm_compute. discriminate.
  - vm_compute. discriminate.
  - intros a w e m. reflexivity.
  - reflexivity.
  - repeat constructor; vm_compute; try reflexivity; discriminate.
  - injection Hi0 as <-. destruct (Hread (with_node_map blank_nodes m) eq_refl) as (it & Hit & Hcollect).
    eexists _, (with_node_map blank_nodes m), it. split_and!; [rewrite Hwalk; reflexivity|exact Hit|exact Hcollect].
Defined.

(** A container that records no extents is not rejected.  [ValidateExtentCount] is
    there to refuse an extent that its container does not count, but it compares with
    [>]: when the iterator arrives at a container whose [extent_count] is 0, [Next]
    gives the extent in its first slot with [ZX_OK]. *)
Theorem uncounted_extent_accepted (it : AllocatedExtentIterator) (c : Z) (ni nc : Inode) :
  deref it it.(inode_) = Returns ni → it.(extent_node_) = Some c → it.(local_index_) = 0 → deref it c = Returns nc →
  field_get container_extent_count nc = 0 → 0 ≤ it.(extent_index_) < field_get inode_extent_count ni →
  ∃ it', AllocatedExtentIterator_Next it = Returns (ZX_OK, Some (field_get (container_extents 0) nc), it').
Proof.
  intros Hi Hc Hl Hn Hcount Hx. pose proof (field_get_range inode_extent_count ni ltac:(cbn; lia)) as Hr. cbn in Hr.
  unfold AllocatedExtentIterator_Next, AllocatedExtentIterator_Done, ValidateExtentCount, GetExtent, IsInode.
  rewrite Hi. cbn [mbind outcome_bind]. ztest. cbn [negb ZX_DEBUG_ASSERT mbind outcome_bind]. rewrite Hc, Hl. cbn [ZX_DEBUG_ASSERT mbind outcome_bind Z.ltb].
  rewrite Hn. cbn [kContainerMaxExtents Z.ltb Z.compare ZX_DEBUG_ASSERT mbind outcome_bind]. rewrite Hcount. cbn [Z.ltb Z.compare mbind outcome_bind].
  rewrite failed_ok. cbn [mbind outcome_bind].
  set (it1 := UpdateIndices it _). change (deref it1) with (deref it). change (inode_ it1) with (inode_ it).
  change (extent_node_ it1) with (extent_node_ it). change (local_index_ it1) with (u32 (local_index_ it + 1)).
  rewrite Hi, Hc, Hl. cbn [mbind outcome_bind]. rewrite Hn. cbn [mbind outcome_bind]. rewrite Hcount.
  change (u32 (0 + 1) =? 0) with false. rewrite andb_false_r. by eexists.
Qed.

(** An inode of two extents whose container counts none. *)
Definition bad_container : Allocator :=
  with_node_map blank_nodes
    [field_set inode_extent_count (field_set next_node (replicate kNodeWords 0) 1) 2;
     field_set (container_extents 0) (init_container (replicate kNodeWords 0) 0) (7 + 2 ^ 48)].

