(* ===== verification/Operations.v ===== *)
(** * Block operations (ulib/blobfs/unbuffered-operations-builder.cpp, operation.h)

    An operation moves blocks between a VMO and the device.  The builder collects
    operations and merges those that continue each other. *)

From S2P Require Import Prelude RawBitmap.

Inductive OperationType := kRead | kWrite | kTrim.

#[export] Instance OperationType_eq_dec : EqDecision OperationType.
Proof. solve_decision. Defined.

Record Operation := { type : OperationType; vmo_offset : Z; dev_offset : Z; length_ : Z }.

(** The VMO is its handle. *)
Record UnbufferedOperation := { vmo : Z; u_op : Operation }.

Record BufferedOperation := { vmoid : Z; b_op : Operation }.

Definition ZX_HANDLE_INVALID : Z := 0.

Record UnbufferedOperationsBuilder := { operations_ : list UnbufferedOperation; block_count_ : Z }.

Definition EqualVmoDeviceOffsetSkew (a b : Operation) : bool :=
  (a.(vmo_offset) ⊟ b.(vmo_offset)) =? (a.(dev_offset) ⊟ b.(dev_offset)).

(** One operation of the list meets the new one: how it is replaced and how many
    blocks that adds, or [None] to go on with the next. *)
Definition merge (operation new_operation : UnbufferedOperation) : option (UnbufferedOperation * Z) :=
  let old := operation.(u_op) in
  let new := new_operation.(u_op) in
  if negb (operation.(vmo) =? new_operation.(vmo)) || negb (bool_decide (old.(type) = new.(type)))
     || negb (EqualVmoDeviceOffsetSkew old new)
  then None
  else
    let old_start := old.(vmo_offset) in
    let old_end := old.(vmo_offset) ⊞ old.(length_) in
    let new_start := new.(vmo_offset) in
    let new_end := new.(vmo_offset) ⊞ new.(length_) in
    if (old_start <=? new_start) && (new_end <=? old_end) then Some (operation, 0)
    else if (new_start <=? old_start) && (old_end <=? new_end) then
      Some ({| vmo := operation.(vmo);
               u_op := {| type := old.(type); vmo_offset := new.(vmo_offset); dev_offset := new.(dev_offset);
                          length_ := new.(length_) |} |}, new.(length_) ⊟ old.(length_))
    else if (new_start <=? old_end) && (old_start <=? new_start) then
      let extension := new_end ⊟ old_end in
      Some ({| vmo := operation.(vmo);
               u_op := {| type := old.(type); vmo_offset := old.(vmo_offset); dev_offset := old.(dev_offset);
                          length_ := old.(length_) ⊞ extension |} |}, extension)
    else if (old_start <=? new_end) && (new_start <=? old_start) then
      let extension := old_start ⊟ new_start in
      Some ({| vmo := operation.(vmo);
               u_op := {| type := old.(type); vmo_offset := new.(vmo_offset); dev_offset := new.(dev_offset);
                          length_ := old.(length_) ⊞ extension |} |}, extension)
    else None.

Fixpoint add_loop (operations : list UnbufferedOperation) (new_operation : UnbufferedOperation)
    : option (list UnbufferedOperation * Z) :=
  match operations with
  | [] => None
  | operation :: rest =>
    match merge operation new_operation with
    | Some (operation, added) => Some (operation :: rest, added)
    | None =>
      match add_loop rest new_operation with
      | Some (rest, added) => Some (operation :: rest, added)
      | None => None
      end
    end
  end.

Definition Add (b : UnbufferedOperationsBuilder) (new_operation : UnbufferedOperation)
    : outcome UnbufferedOperationsBuilder :=
  _ ← ZX_DEBUG_ASSERT (negb (new_operation.(vmo) =? ZX_HANDLE_INVALID));
  Returns (
    if new_operation.(u_op).(length_) =? 0 then b
    else
      match add_loop b.(operations_) new_operation with
      | Some (operations, added) => {| operations_ := operations; block_count_ := b.(block_count_) ⊞ added |}
      | None => {| operations_ := b.(operations_) ++ [new_operation];
                   block_count_ := b.(block_count_) ⊞ new_operation.(u_op).(length_) |}
      end).

Definition TakeOperations (b : UnbufferedOperationsBuilder) : list UnbufferedOperation * UnbufferedOperationsBuilder :=
  (b.(operations_), {| operations_ := []; block_count_ := 0 |}).

Definition BlockCount (operations : list UnbufferedOperation) : Z :=
  foldl (λ total_length operation, total_length ⊞ operation.(u_op).(length_)) 0 operations.

(** ** Theory *)

(** The transfers of an operation: a VMO, a direction, a block of the VMO and a block of the device. *)
Definition transfer : Type := Z * OperationType * Z * Z.

Definition in_op (o : UnbufferedOperation) (x : transfer) : bool :=
  let '(h, t, v, d) := x in
  (h =? o.(vmo)) && bool_decide (t = o.(u_op).(type)) &&
  (o.(u_op).(vmo_offset) <=? v) && (v <? o.(u_op).(vmo_offset) + o.(u_op).(length_)) &&
  (d - o.(u_op).(dev_offset) =? v - o.(u_op).(vmo_offset)).

Definition in_ops (os : list UnbufferedOperation) (x : transfer) : bool := existsb (λ o, in_op o x) os.

(** Offsets are block numbers far below the width of the machine. *)
Definition op_ok (o : Operation) : Prop :=
  0 ≤ o.(vmo_offset) ∧ 0 ≤ o.(dev_offset) ∧ 0 < o.(length_) ∧
  o.(vmo_offset) + o.(length_) ≤ 2 ^ 63 ∧ o.(dev_offset) + o.(length_) ≤ 2 ^ 63.

Lemma in_op_iff o h t v d : in_op o (h, t, v, d) = true ↔
  h = o.(vmo) ∧ t = o.(u_op).(type) ∧ o.(u_op).(vmo_offset) ≤ v < o.(u_op).(vmo_offset) + o.(u_op).(length_) ∧
  d - o.(u_op).(dev_offset) = v - o.(u_op).(vmo_offset).
Proof. unfold in_op. rewrite !andb_true_iff, bool_decide_eq_true, Z.leb_le, Z.ltb_lt, !Z.eqb_eq. tauto. Qed.

Lemma merge_ok o n o' added : op_ok o.(u_op) → op_ok n.(u_op) → merge o n = Some (o', added) →
  op_ok o'.(u_op) ∧ o'.(vmo) = o.(vmo) ∧ 0 ≤ added ∧ o'.(u_op).(length_) = o.(u_op).(length_) + added ∧
  ∀ x, in_op o' x = in_op o x || in_op n x.
Proof.
  destruct o as [h [t v d l]], n as [h' [t' v' d' l']]. unfold op_ok, merge, EqualVmoDeviceOffsetSkew. cbn.
  intros (Hv & Hd & Hl & Hve & Hde) (Hv' & Hd' & Hl' & Hve' & Hde').
  destruct (Z.eqb_spec h h') as [<-|]; [|done]. destruct (bool_decide_reflect (t = t')) as [<-|]; [|done]. cbn.
  destruct (Z.eqb_spec (v ⊟ v') (d ⊟ d')) as [Hskew|]; [|done]. cbn.
  assert (v - v' = d - d') as Hs by (revert Hskew; unfold u64; zlia). clear Hskew. unwrap.
  zcases; cbn [andb]; intros [= <- <-]; cbn; unwrap; (split; [lia|]); (split; [done|]); (split; [lia|]); (split; [lia|]);
    intros [[[h2 t2] v2] d2]; apply eq_true_iff_eq; rewrite orb_true_iff, !in_op_iff; cbn;
    (split; [intros (-> & -> & ? & ?)|intros [(-> & -> & ? & ?)|(-> & -> & ? & ?)]; split_and!; done || lia]);
    match goal with |- (_ ∧ _ ∧ ?p ∧ ?q) ∨ _ => destruct (decide (p ∧ q)) as [[]|]; [left|right]; split_and!; done || lia end.
Qed.

(** The block count is the sum of the lengths. *)
Lemma BlockCount_app os o : BlockCount (os ++ [o]) = BlockCount os ⊞ o.(u_op).(length_).
Proof. unfold BlockCount. by rewrite foldl_app. Qed.

Lemma BlockCount_from x os : foldl (λ t o, t ⊞ o.(u_op).(length_)) x os = u64 (x + foldr (λ o t, o.(u_op).(length_) + t) 0 os) ∨ os = [].
Proof.
  revert x. induction os as [|o os IH]; intros x; [by right|]. left. cbn [foldl foldr].
  destruct (IH (x ⊞ o.(u_op).(length_))) as [-> | ->]; unfold u64; cbn.
  - rewrite Zplus_mod_idemp_l. f_equal. lia.
  - f_equal. lia.
Qed.

Lemma BlockCount_sum os : BlockCount os = u64 (foldr (λ o t, o.(u_op).(length_) + t) 0 os).
Proof. unfold BlockCount. by destruct (BlockCount_from 0 os) as [-> | ->]. Qed.

Definition builder_ok (b : UnbufferedOperationsBuilder) : Prop :=
  Forall (λ o, op_ok o.(u_op)) b.(operations_) ∧ b.(block_count_) = BlockCount b.(operations_).

Lemma add_loop_ok os n : Forall (λ o, op_ok o.(u_op)) os → op_ok n.(u_op) →
  match add_loop os n with
  | None => True
  | Some (os', added) => Forall (λ o, op_ok o.(u_op)) os' ∧ length os' = length os ∧
      foldr (λ o t, o.(u_op).(length_) + t) 0 os' = foldr (λ o t, o.(u_op).(length_) + t) 0 os + added ∧
      ∀ x, in_ops os' x = in_ops os x || in_op n x
  end.
Proof.
  intros Hos Hn. induction Hos as [|o os Ho Hos IH]; [done|]. cbn [add_loop].
  destruct (merge o n) as [[o' added]|] eqn:E.
  - destruct (merge_ok o n o' added Ho Hn E) as (Ho' & _ & _ & Hlen & Hin). split_and!; [by constructor|done|cbn; lia|].
    intros x. cbn. rewrite Hin. btauto.
  - destruct (add_loop os n) as [[os' added]|]; [|done]. destruct IH as (Hos' & Hlen & Hsum & Hin).
    split_and!; [by constructor|cbn; lia|cbn; lia|]. intros x. cbn. fold (in_ops os' x) (in_ops os x). rewrite Hin. btauto.
Qed.

(** ** Theorems *)

(** The builder collects exactly what it is given.  Adding an operation to a builder
    whose operations cover a set of transfers (a block of a VMO to or from a block of
    the device) gives one that covers those and the transfers of the new operation and
    no others, with at most one operation more, whichever way the new one is contained
    in, contains, follows or precedes an old one; and [block_count_] stays the number
    of blocks of the operations. *)
Theorem add_operation_exact (b : UnbufferedOperationsBuilder) (n : UnbufferedOperation) :
  builder_ok b → n.(vmo) ≠ ZX_HANDLE_INVALID → op_ok n.(u_op) →
  ∃ b', Add b n = Returns b' ∧ builder_ok b' ∧
    (length b'.(operations_) ≤ S (length b.(operations_)))%nat ∧
    ∀ x, in_ops b'.(operations_) x = in_ops b.(operations_) x || in_op n x.
Proof.
  intros [Hos Hc] Hv Hn. unfold Add, ZX_DEBUG_ASSERT. ztest. cbn [negb mbind outcome_bind].
  assert (length_ (u_op n) ≠ 0) by (destruct Hn; lia). ztest. pose proof (add_loop_ok _ n Hos Hn) as Hl.
  eexists. split; [done|]. destruct (add_loop _ n) as [[os added]|].
  - destruct Hl as (Hos' & Hlen & Hsum & Hin). split; [|split; [cbn; lia|done]]. split; [done|]. cbn.
    rewrite Hc, !BlockCount_sum, Hsum. unfold u64. by rewrite Zplus_mod_idemp_l.
  - unfold builder_ok. split_and!; cbn.
    + apply Forall_app. split; [done|]. by apply Forall_singleton.
    + rewrite Hc. symmetry. apply BlockCount_app.
    + rewrite length_app. cbn. lia.
    + intros x. unfold in_ops. rewrite existsb_app. cbn. by rewrite orb_false_r.
Qed.

