(* ===== verification/RingBuffer.v ===== *)
(** * The ring buffer of the write-back path (ulib/blobfs/ring-buffer.cpp)

    Reservations of consecutive blocks of a circular buffer, and the copy of
    operations from their VMOs into a reservation. *)

From S2P Require Import Prelude RawBitmap Format Operations.

(** ** State *)

(** [B] is the contents of a block; the buffer is its blocks. *)
Section ring.
Context {B : Type}.

Record Range := { r_start : Z; r_length : Z }.

Record RingBufferState := {
  buffer_ : list B;
  vmoid_ : Z;
  reserved_start_ : Z;
  reserved_length_ : Z;
  pending_free_ : list Range;
}.

Definition capacity (s : RingBufferState) : Z := Z.of_nat (length s.(buffer_)).

Definition with_reserved (s : RingBufferState) (start length : Z) : RingBufferState := {|
  buffer_ := s.(buffer_); vmoid_ := s.(vmoid_); reserved_start_ := start; reserved_length_ := length;
  pending_free_ := s.(pending_free_) |}.

Definition with_pending (s : RingBufferState) (pending : list Range) : RingBufferState := {|
  buffer_ := s.(buffer_); vmoid_ := s.(vmoid_); reserved_start_ := s.(reserved_start_);
  reserved_length_ := s.(reserved_length_); pending_free_ := pending |}.

Definition with_buffer (s : RingBufferState) (buffer : list B) : RingBufferState := {|
  buffer_ := buffer; vmoid_ := s.(vmoid_); reserved_start_ := s.(reserved_start_);
  reserved_length_ := s.(reserved_length_); pending_free_ := s.(pending_free_) |}.

Definition NewRingBuffer (buffer : list B) (vmoid : Z) : RingBufferState := {|
  buffer_ := buffer; vmoid_ := vmoid; reserved_start_ := 0; reserved_length_ := 0; pending_free_ := [] |}.

(** [Reserved()] says whether the pointer to the state is not null. *)
Record RingBufferReservation := { Reserved : bool; start_ : Z; length_ : Z }.

Definition no_reservation : RingBufferReservation := {| Reserved := false; start_ := 0; length_ := 0 |}.

(** ** Freeing *)

Definition CompleteFreeLocked (s : RingBufferState) (start blocks : Z) : outcome RingBufferState :=
  _ ← ZX_DEBUG_ASSERT (start =? s.(reserved_start_));
  _ ← ZX_ASSERT (negb (capacity s =? 0));  (* the division *)
  Returns (with_reserved s ((s.(reserved_start_) ⊞ blocks) mod capacity s) (s.(reserved_length_) ⊟ blocks)).

(** Keeps the list sorted by the start. *)
Fixpoint insert_pending (r : Range) (l : list Range) : list Range :=
  match l with
  | [] => [r]
  | x :: l' => if r.(r_start) <? x.(r_start) then r :: l else x :: insert_pending r l'
  end.

(** Frees the ranges at the front of the list while they are in order. *)
Fixpoint drain_pending (s : RingBufferState) (pending : list Range) : outcome RingBufferState :=
  match pending with
  | [] => Returns (with_pending s [])
  | p :: rest =>
    if negb (p.(r_start) =? s.(reserved_start_)) then Returns (with_pending s pending)
    else s ← CompleteFreeLocked s p.(r_start) p.(r_length); drain_pending s rest
  end.

Definition Free (s : RingBufferState) (r : RingBufferReservation) : outcome RingBufferState :=
  _ ← ZX_DEBUG_ASSERT (r.(length_) <=? s.(reserved_length_));
  if negb (s.(reserved_start_) =? r.(start_)) then
    Returns (with_pending s (insert_pending {| r_start := r.(start_); r_length := r.(length_) |} s.(pending_free_)))
  else
    s ← CompleteFreeLocked s r.(start_) r.(length_);
    drain_pending s s.(pending_free_).

(** ** Reservations *)

Definition Reservation_Reset (s : RingBufferState) (r : RingBufferReservation)
    : outcome (RingBufferState * RingBufferReservation) :=
  s ← (if r.(Reserved) then Free s r else Returns s);
  Returns (s, no_reservation).

(** Move assignment; the second reservation of the result is the one moved from. *)
Definition Reservation_assign (s : RingBufferState) (r other : RingBufferReservation)
    : outcome (RingBufferState * RingBufferReservation * RingBufferReservation) :=
  p ← Reservation_Reset s r;
  let '(s, _) := (p : RingBufferState * RingBufferReservation) in
  p ← Reservation_Reset s {| Reserved := false; start_ := other.(start_); length_ := other.(length_) |};
  let '(s, other') := (p : RingBufferState * RingBufferReservation) in
  Returns (s, other, other').

(** Move construction. *)
Definition Reservation_move (s : RingBufferState) (other : RingBufferReservation)
    : outcome (RingBufferState * RingBufferReservation * RingBufferReservation) :=
  p ← Reservation_Reset s {| Reserved := false; start_ := other.(start_); length_ := other.(length_) |};
  let '(s, other') := (p : RingBufferState * RingBufferReservation) in
  Returns (s, other, other').

Definition IsSpaceAvailableLocked (s : RingBufferState) (blocks : Z) : bool :=
  s.(reserved_length_) ⊞ blocks <=? capacity s.

Definition Reserve (s : RingBufferState) (blocks : Z) (out : RingBufferReservation)
    : outcome (zx_status * RingBufferState * RingBufferReservation) :=
  _ ← ZX_DEBUG_ASSERT (0 <? blocks);
  if negb (IsSpaceAvailableLocked s blocks) then Returns (ZX_ERR_NO_SPACE, s, out)
  else
    _ ← ZX_ASSERT (negb (capacity s =? 0));  (* the division *)
    let destination_offset := (s.(reserved_start_) ⊞ s.(reserved_length_)) mod capacity s in
    let s := with_reserved s s.(reserved_start_) (s.(reserved_length_) ⊞ blocks) in
    p ← Reservation_assign s out {| Reserved := true; start_ := destination_offset; length_ := blocks |};
    let '(s, out, _) := p in
    Returns (ZX_OK, s, out).

(** ** Copying operations *)

(** The VMOs: the block of data from a byte of a VMO on, and the status of a read of some bytes. *)
Record Vmos := { vmo_block : Z → Z → B; vmo_read_status : Z → Z → Z → zx_status }.

(** [MutableData]: where block [index] of the reservation is in the buffer. *)
Definition MutableData (s : RingBufferState) (r : RingBufferReservation) (index : Z) : outcome Z :=
  _ ← ZX_DEBUG_ASSERT r.(Reserved);
  _ ← ZX_DEBUG_ASSERT (index <? r.(length_));
  _ ← ZX_ASSERT (negb (capacity s =? 0));  (* the division *)
  Returns ((r.(start_) ⊞ index) mod capacity s).

Fixpoint write_blocks (buffer : list B) (at_ : nat) (bs : list B) : list B :=
  match bs with
  | [] => buffer
  | b :: bs => write_blocks (<[at_ := b]> buffer) (S at_) bs
  end.

(** Reads [len] blocks of a VMO to where [index] of the reservation is; a write past
    the end of the buffer aborts. *)
Definition read_to (v : Vmos) (s : RingBufferState) (r : RingBufferReservation) (index vmo vmo_offset len : Z)
    : outcome (zx_status * RingBufferState) :=
  ptr ← MutableData s r index;
  let status := v.(vmo_read_status) vmo (vmo_offset ⊠ kBlobfsBlockSize) (len ⊠ kBlobfsBlockSize) in
  if failed status then Returns (status, s)
  else
    let read := (len ⊠ kBlobfsBlockSize) / kBlobfsBlockSize in
    _ ← ZX_ASSERT (ptr + read <=? capacity s);
    let bs := map (λ i, v.(vmo_block) vmo (vmo_offset ⊠ kBlobfsBlockSize + i * kBlobfsBlockSize)) (seqZ 0 read) in
    Returns (ZX_OK, with_buffer s (write_blocks s.(buffer_) (Z.to_nat ptr) bs)).

(** One operation of the input; [out] is what has been output so far. *)
Definition copy_request (v : Vmos) (r : RingBufferReservation) (o : UnbufferedOperation)
    (s : RingBufferState) (reservation_offset ring_buffer_offset : Z) (out : list BufferedOperation)
    : outcome (zx_status * RingBufferState * Z * Z * list BufferedOperation) :=
  _ ← ZX_DEBUG_ASSERT (bool_decide (o.(u_op).(type) = kWrite));
  let vmo_offset := o.(u_op).(vmo_offset) in
  let dev_offset := o.(u_op).(dev_offset) in
  let vmo_len := o.(u_op).(Operations.length_) in
  _ ← ZX_DEBUG_ASSERT (0 <? vmo_len);
  let buf_len := Z.min vmo_len (capacity s ⊟ ring_buffer_offset) in
  _ ← ZX_DEBUG_ASSERT (0 <? buf_len);
  p ← read_to v s r reservation_offset o.(vmo) vmo_offset buf_len;
  let '(status, s) := (p : zx_status * RingBufferState) in
  if failed status then Returns (status, s, reservation_offset, ring_buffer_offset, out)
  else
    let out := out ++ [{| vmoid := s.(vmoid_);
      b_op := {| type := o.(u_op).(type); vmo_offset := ring_buffer_offset; dev_offset := dev_offset;
                 Operations.length_ := buf_len |} |}] in
    let ring_buffer_offset := (ring_buffer_offset ⊞ buf_len) mod capacity s in
    let reservation_offset := reservation_offset ⊞ buf_len in
    if negb (buf_len =? vmo_len) then
      let vmo_offset := vmo_offset ⊞ buf_len in
      let dev_offset := dev_offset ⊞ buf_len in
      let buf_len := vmo_len ⊟ buf_len in
      _ ← ZX_DEBUG_ASSERT (0 <? buf_len);
      p ← read_to v s r reservation_offset o.(vmo) vmo_offset buf_len;
      let '(status, s) := (p : zx_status * RingBufferState) in
      if failed status then Returns (status, s, reservation_offset, ring_buffer_offset, out)
      else
        Returns (ZX_OK, s, reservation_offset ⊞ buf_len, (ring_buffer_offset ⊞ buf_len) mod capacity s,
          out ++ [{| vmoid := s.(vmoid_);
            b_op := {| type := o.(u_op).(type); vmo_offset := 0; dev_offset := dev_offset; Operations.length_ := buf_len |} |}])
    else Returns (ZX_OK, s, reservation_offset, ring_buffer_offset, out).

Fixpoint copy_loop (v : Vmos) (r : RingBufferReservation) (ops : list UnbufferedOperation)
    (s : RingBufferState) (reservation_offset ring_buffer_offset : Z) (out : list BufferedOperation)
    : outcome (zx_status * RingBufferState * list BufferedOperation) :=
  match ops with
  | [] => Returns (ZX_OK, s, out)
  | o :: ops =>
    p ← copy_request v r o s reservation_offset ring_buffer_offset out;
    let '(status, s, reservation_offset, ring_buffer_offset, out) := p in
    if failed status then Returns (status, s, out)
    else copy_loop v r ops s reservation_offset ring_buffer_offset out
  end.

(** The output is [None] where [*out] is not written. *)
Definition CopyRequests (v : Vmos) (s : RingBufferState) (r : RingBufferReservation)
    (in_operations : list UnbufferedOperation) (offset : Z)
    : outcome (zx_status * RingBufferState * option (list BufferedOperation)) :=
  _ ← ZX_DEBUG_ASSERT r.(Reserved);
  _ ← ZX_DEBUG_ASSERT (offset ⊞ BlockCount in_operations <=? r.(length_));
  _ ← ZX_ASSERT (negb (capacity s =? 0));  (* the division *)
  p ← copy_loop v r in_operations s offset ((r.(start_) ⊞ offset) mod capacity s) [];
  let '(status, s, out) := p in
  Returns (status, s, if failed status then None else Some out).

End ring.

Arguments RingBufferState : clear implicits.
Arguments Vmos : clear implicits.
