(* ===== verification/RingReservations.v ===== *)
(** * Reservations of the ring buffer

    The reserved part of the buffer is a sequence of segments, each held by a
    reservation or freed out of order and not yet given back. *)

From Stdlib Require Import Sorting.Sorted.
From S2P Require Import Prelude RawBitmap Operations RingBuffer.

(** ** Segments *)

(** A length, and whether the segment has been freed. *)
#[local] Notation segment := (Z * bool)%type.

Definition total (segs : list segment) : Z := foldr (λ g t, fst g + t) 0 segs.

(** Start, length and state of each segment in a buffer of [cap] blocks. *)
Fixpoint placed (cap pos : Z) (segs : list segment) : list (Z * Z * bool) :=
  match segs with
  | [] => []
  | (l, f) :: segs => (pos mod cap, l, f) :: placed cap (pos + l) segs
  end.

Definition lives (pl : list (Z * Z * bool)) : list RingBufferReservation :=
  flat_map (λ x : Z * Z * bool, if snd x then [] else [{| Reserved := true; start_ := fst (fst x); length_ := snd (fst x) |}]) pl.

Lemma lengths_app a b : total (a ++ b) = total a + total b.
Proof. induction a as [|g a IH]; cbn; [done|]. unfold total in *. lia. Qed.

Lemma lengths_cons g a : total (g :: a) = fst g + total a.
Proof. done. Qed.

Lemma total_nonneg segs : Forall (λ g, 0 < fst g) segs → 0 ≤ total segs.
Proof. induction 1 as [|g a Hg _ IH]; [done|]. rewrite lengths_cons. lia. Qed.

Lemma placed_app cap pos a b : placed cap pos (a ++ b) = placed cap pos a ++ placed cap (pos + total a) b.
Proof.
  revert pos. induction a as [|[l f] a IH]; intros pos; cbn [app placed]; [cbn; by rewrite Z.add_0_r|].
  rewrite IH, lengths_cons. cbn. do 3 f_equal. lia.
Qed.

Lemma placed_mod cap pos pos' segs : 0 < cap → pos mod cap = pos' mod cap → placed cap pos segs = placed cap pos' segs.
Proof.
  intros Hc. revert pos pos'. induction segs as [|[l f] segs IH]; intros pos pos' Hp; [done|]. cbn. rewrite Hp. f_equal.
  apply IH. rewrite (Zplus_mod pos), (Zplus_mod pos'), Hp. done.
Qed.

Lemma lives_app a b : lives (a ++ b) = lives a ++ lives b.
Proof. apply flat_map_app. Qed.

Lemma placed_split cap pos segs p l f : (p, l, f) ∈ placed cap pos segs →
  ∃ a b, segs = a ++ (l, f) :: b ∧ p = (pos + total a) mod cap.
Proof.
  revert pos. induction segs as [|[l0 f0] segs IH]; intros pos; cbn [placed]; [by intros ?%not_elem_of_nil|].
  intros [[= -> -> ->]|Hin]%elem_of_cons.
  - exists [], segs. cbn. by rewrite Z.add_0_r.
  - destruct (IH _ Hin) as (a & b & -> & ->). exists ((l0, f0) :: a), b. split; [done|]. rewrite lengths_cons. cbn. f_equal. lia.
Qed.

Lemma elem_of_lives pl r : r ∈ lives pl ↔ (r.(start_), r.(length_), false) ∈ pl ∧ r.(Reserved) = true.
Proof.
  induction pl as [|[[p l] f] pl IH]; cbn; [split; [intros ?%not_elem_of_nil|intros [?%not_elem_of_nil _]]; done|].
  unfold lives in IH. rewrite elem_of_app, IH, elem_of_cons. destruct r as [b p' l'], f; cbn.
  - split; [intros [?%not_elem_of_nil|]; tauto|intros [[?|?] ?]; [done|by right]].
  - rewrite list_elem_of_singleton. naive_solver.
Qed.

(** Two segments that start at the same block are the same segment. *)
Lemma same_place cap pos a l f b a' l' f' b' :
  Forall (λ g, 0 < fst g) (a ++ (l, f) :: b) → total (a ++ (l, f) :: b) ≤ cap →
  a ++ (l, f) :: b = a' ++ (l', f') :: b' → (pos + total a) mod cap = (pos + total a') mod cap →
  a = a' ∧ l = l' ∧ f = f' ∧ b = b'.
Proof.
  intros Hpos Hcap Heq Hmod. assert (total a = total a') as Ht.
  { pose proof Hpos as H1. pose proof Hcap as H2. rewrite Heq in H1, H2. rewrite !lengths_app, !lengths_cons in *.
    apply Forall_app in Hpos as [Ha [Hl Hb]%Forall_cons]. apply Forall_app in H1 as [Ha' [Hl' Hb']%Forall_cons].
    pose proof (total_nonneg _ Ha). pose proof (total_nonneg _ Ha'). pose proof (total_nonneg _ Hb). pose proof (total_nonneg _ Hb').
    cbn in *. assert ((total a - total a') mod cap = 0) as Hd.
    { replace (total a - total a') with ((pos + total a) - (pos + total a')) by lia. rewrite Zminus_mod, Hmod, Z.sub_diag. done. }
    apply Z.mod_divide in Hd as [k Hk]; [|lia]. assert (k = 0) by nia. lia. }
  clear Hmod. revert a' Heq Ht Hcap. induction a as [|g a IH]; intros [|g' a'] Heq Ht Hcap; cbn in Heq.
  - by injection Heq as -> -> ->.
  - rewrite Heq in Hpos. apply Forall_cons in Hpos as [Hg Hpos]. apply Forall_app in Hpos as [Ha _].
    pose proof (total_nonneg _ Ha). rewrite lengths_cons in Ht. cbn in Ht. lia.
  - cbn in Hpos. apply Forall_cons in Hpos as [Hg Hpos]. apply Forall_app in Hpos as [Ha _].
    pose proof (total_nonneg _ Ha). rewrite lengths_cons in Ht. cbn in Ht. lia.
  - injection Heq as -> Heq. cbn in Hpos. apply Forall_cons in Hpos as [Hg Hpos]. rewrite !lengths_cons in Ht. cbn [app] in Hcap.
    rewrite lengths_cons in Hcap. destruct (IH Hpos a' Heq) as (-> & -> & -> & ->); [lia|lia|done].
Qed.

(** ** The invariant *)

Section ring.
Context {B : Type}.
Implicit Types s : RingBufferState B.

#[local] Notation before := (λ x y : Range, x.(r_start) < y.(r_start)).

(** The segments from [start] on, and the sorted list of those that are freed. *)
Record segments (cap start : Z) (segs : list segment) (pending : list Range) : Prop := {
  sg_pos : Forall (λ g, 0 < fst g) segs;
  sg_fit : total segs ≤ cap;
  sg_sorted : StronglySorted before pending;
  sg_pending : ∀ r, r ∈ pending ↔ (r.(r_start), r.(r_length), true) ∈ placed cap start segs;
}.

Record ring_ok s (segs : list segment) : Prop := {
  rg_cap : 0 < capacity s < 2 ^ 63;
  rg_start : 0 ≤ s.(reserved_start_) < capacity s;
  rg_length : s.(reserved_length_) = total segs;
  rg_segs : segments (capacity s) s.(reserved_start_) segs s.(pending_free_);
}.

Lemma insert_pending_in r l x : x ∈ insert_pending r l ↔ x = r ∨ x ∈ l.
Proof.
  induction l as [|y l IH]; cbn; [set_solver|]. destruct (_ <? _); rewrite !elem_of_cons; [tauto|]. rewrite IH. tauto.
Qed.

Lemma insert_pending_sorted r l : StronglySorted before l → (∀ x, x ∈ l → x.(r_start) ≠ r.(r_start)) →
  StronglySorted before (insert_pending r l).
Proof.
  induction 1 as [|y l Hl IH Hy]; intros Hne; cbn; [repeat constructor|]. destruct (Z.ltb_spec (r_start r) (r_start y)).
  - constructor; [by constructor|]. constructor; [done|]. eapply Forall_impl; [exact Hy|]. cbn. intros. lia.
  - assert (r_start y ≠ r_start r) by (apply Hne; by left). constructor; [apply IH; intros; apply Hne; by right|].
    apply Forall_forall. intros x [->|Hx]%insert_pending_in; [lia|]. by apply (proj1 (Forall_forall _ _) Hy).
Qed.

(** The first segment is given back. *)
Lemma segments_pop cap start l f segs pending pending' : 0 < cap →
  segments cap start ((l, f) :: segs) pending → StronglySorted before pending' →
  (∀ r, r ∈ pending' ↔ r ∈ pending ∧ r.(r_start) ≠ start mod cap) →
  segments cap ((start + l) mod cap) segs pending'.
Proof.
  intros Hcap [Hpos Hfit Hs Hp] Hs' Hin. pose proof Hpos as Hall. apply Forall_cons in Hpos as [Hl Hpos]. cbn in Hl.
  rewrite lengths_cons in Hfit. cbn in Hfit. constructor; [done|lia|done|]. intros r. rewrite Hin, Hp. cbn [placed].
  rewrite (placed_mod cap ((start + l) mod cap) (start + l)) by (done || by rewrite Zmod_mod).
  rewrite elem_of_cons. split; [intros [[[= Hr _ _]|Hr] Hne]; done|]. intros Hr. split; [by right|].
  intros Heq. destruct (placed_split _ _ _ _ _ _ Hr) as (a & b & -> & Hpl).
  destruct (same_place cap start [] l f (a ++ (r_length r, true) :: b) ((l, f) :: a) (r_length r) true b) as [[=] _]; try done.
  rewrite lengths_cons. cbn [total foldr fst]. rewrite Z.add_0_r, <- Heq, Hpl. f_equal. unfold total. lia.
Qed.

Definition head_live (segs : list segment) : Prop := match segs with (_, true) :: _ => False | _ => True end.

(** Giving back from the pending list frees a part of the freed segments at the front:
    all of them, when the reserved part does not wrap around. *)
Lemma drain_pending_ok s segs pending :
  0 < capacity s < 2 ^ 63 → 0 ≤ s.(reserved_start_) < capacity s → s.(reserved_length_) = total segs →
  segments (capacity s) s.(reserved_start_) segs pending →
  ∃ s' pre post, drain_pending s pending = Returns s' ∧ segs = pre ++ post ∧ Forall (λ g, snd g = true) pre ∧
    ring_ok s' post ∧ s'.(buffer_) = s.(buffer_) ∧
    s'.(reserved_start_) = (s.(reserved_start_) + total pre) mod capacity s ∧
    (s.(reserved_start_) + total segs ≤ capacity s → head_live post).
Proof.
  revert s segs. induction pending as [|p rest IH]; intros s segs Hcap Hst Hlen Hsg; cbn [drain_pending].
  { exists (with_pending s []), [], segs. split_and!; [done|done|constructor|by constructor|done|..].
    - cbn. rewrite Z.add_0_r. symmetry. apply Z.mod_small. lia.
    - intros _. destruct segs as [|[l []] segs]; try done. apply not_elem_of_nil with (x := {| r_start := reserved_start_ s mod capacity s; r_length := l |}).
      apply (sg_pending _ _ _ _ Hsg). left. }
  pose proof Hsg as [Hpos Hfit Hs Hp]. destruct (Z.eqb_spec (r_start p) (reserved_start_ s)) as [Heq|Hne]; cbn [negb].
  - assert ((r_start p, r_length p, true) ∈ placed (capacity s) (reserved_start_ s) segs) as Hin by (apply Hp; left).
    destruct (placed_split _ _ _ _ _ _ Hin) as (a & b & Hsegs & Hpl).
    assert (a = []) as ->.
    { destruct a as [|[l0 f0] a]; [done|]. subst segs.
      destruct (same_place (capacity s) (reserved_start_ s) [] l0 f0 (a ++ (r_length p, true) :: b) ((l0, f0) :: a) (r_length p) true b) as [[=] _]; try done.
      rewrite <- Hpl, Heq. cbn [total foldr]. rewrite Z.add_0_r. apply Z.mod_small. lia. }
    cbn in Hsegs. subst segs. rewrite lengths_cons in *. cbn in Hlen. apply Forall_cons in Hpos as [Hl Hpos]. cbn in Hl, Hfit.
    pose proof (total_nonneg _ Hpos) as Hnn. unfold CompleteFreeLocked, ZX_DEBUG_ASSERT, ZX_ASSERT. rewrite Heq. ztest.
    cbn [negb mbind outcome_bind]. unwrap.
    destruct (IH (with_reserved s ((reserved_start_ s + r_length p) mod capacity s) (reserved_length_ s - r_length p)) b)
      as (s' & pre & post & E & -> & Hpre & Hok & Hbuf & Hstart & Hhead).
    + done.
    + cbn. apply Z.mod_pos_bound. apply Hcap.
    + cbn. lia.
    + cbn [reserved_start_ with_reserved]. change (capacity (with_reserved _ _ _)) with (capacity s).
      apply StronglySorted_inv in Hs as [Hs Hp1]. eapply segments_pop; [lia|exact Hsg|exact Hs|].
      intros r. rewrite elem_of_cons. rewrite (Z.mod_small (reserved_start_ s)) by lia. split.
      * intros Hr. split; [by right|]. pose proof (proj1 (Forall_forall _ _) Hp1 r Hr). cbn in *. lia.
      * intros [[->|Hr] Hn]; [done|done].
    + exists s', ((r_length p, true) :: pre), post. split_and!; [exact E|done|by constructor|done|exact Hbuf| |].
      * rewrite Hstart, lengths_cons. cbn. change (capacity (with_reserved _ _ _)) with (capacity s).
        rewrite Zplus_mod_idemp_l. f_equal. lia.
      * intros Hun. rewrite ?lengths_cons in Hun. cbn [fst] in Hun. apply Hhead. cbn [reserved_start_ with_reserved]. change (capacity (with_reserved _ _ _)) with (capacity s).
        destruct (Z.eq_dec (reserved_start_ s + r_length p) (capacity s)) as [Hc|Hc]; [rewrite Hc, Z_mod_same_full|rewrite Z.mod_small]; lia.
  - exists (with_pending s (p :: rest)), [], segs. split_and!; [done|done|constructor|by constructor|done|..].
    + cbn. rewrite Z.add_0_r. symmetry. apply Z.mod_small. lia.
    + intros Hun. destruct segs as [|[l []] segs]; try done. exfalso.
      assert ({| r_start := reserved_start_ s mod capacity s; r_length := l |} ∈ p :: rest) as Hin by (apply Hp; left).
      rewrite Z.mod_small in Hin by lia. apply elem_of_cons in Hin as [<-|Hin]; [done|].
      apply StronglySorted_inv in Hs as [_ Hs]. pose proof (proj1 (Forall_forall _ _) Hs _ Hin) as Hlt. cbn in Hlt.
      assert ((r_start p, r_length p, true) ∈ placed (capacity s) (reserved_start_ s) ((l, true) :: segs)) as Hpin by (apply Hp; left).
      destruct (placed_split _ _ _ _ _ _ Hpin) as (a & b & Hsegs & Hpl). rewrite Hsegs in Hpos, Hun. rewrite lengths_app, lengths_cons in Hun.
      apply Forall_app in Hpos as [Ha [Hl Hb]%Forall_cons]. pose proof (total_nonneg _ Ha). pose proof (total_nonneg _ Hb). cbn in *.
      rewrite Z.mod_small in Hpl by lia. lia.
Qed.

Definition held (start l : Z) : RingBufferReservation := {| Reserved := true; start_ := start; length_ := l |}.

(** Marking a segment as freed. *)
Lemma segments_mark cap start a l b pending : 0 < cap →
  segments cap start (a ++ (l, false) :: b) pending →
  segments cap start (a ++ (l, true) :: b) (insert_pending {| r_start := (start + total a) mod cap; r_length := l |} pending).
Proof.
  intros Hcap [Hpos Hfit Hs Hp].
  assert (total (a ++ (l, true) :: b) = total (a ++ (l, false) :: b)) as Ht by (by rewrite !lengths_app, !lengths_cons).
  constructor.
  - apply Forall_app in Hpos as [Ha [Hl Hb]%Forall_cons]. apply Forall_app. split; [done|]. by constructor.
  - by rewrite Ht.
  - apply insert_pending_sorted; [done|]. intros x Hx Heq. cbn in Heq. apply Hp in Hx.
    destruct (placed_split _ _ _ _ _ _ Hx) as (a' & b' & Hsegs & Hpl).
    destruct (same_place cap start a l false b a' (r_length x) true b') as (_ & _ & [=] & _); try done. congruence.
  - intros r. rewrite insert_pending_in, Hp, !placed_app, !elem_of_app. cbn [placed]. rewrite !elem_of_cons.
    destruct r as [rs rl]. cbn. split.
    + intros [[= -> ->]|[?|[[=]|?]]]; tauto.
    + intros [?|[[= -> ->]|?]]; tauto.
Qed.

Lemma ring_Free_ok s a l b : ring_ok s (a ++ (l, false) :: b) →
  ∃ s' pre post, Free s (held ((s.(reserved_start_) + total a) mod capacity s) l) = Returns s' ∧
    a ++ (l, true) :: b = pre ++ post ∧ Forall (λ g, snd g = true) pre ∧ ring_ok s' post ∧ s'.(buffer_) = s.(buffer_) ∧
    s'.(reserved_start_) = (s.(reserved_start_) + total pre) mod capacity s ∧
    (s.(reserved_start_) + s.(reserved_length_) ≤ capacity s → head_live (a ++ (l, false) :: b) → head_live post) ∧
    (a = [] → pre ≠ []).
Proof.
  intros [Hcap Hst Hlen Hsg]. pose proof Hsg as [Hpos Hfit Hs Hp]. rewrite lengths_app, lengths_cons in Hlen, Hfit. cbn in Hlen, Hfit.
  pose proof Hpos as Hall. apply Forall_app in Hpos as [Ha [Hl Hb]%Forall_cons]. cbn in Hl.
  pose proof (total_nonneg _ Ha) as Hna. pose proof (total_nonneg _ Hb) as Hnb.
  unfold Free, held. cbn [length_ start_]. unfold ZX_DEBUG_ASSERT at 1. ztest. cbn [mbind outcome_bind].
  destruct (Z.eqb_spec (reserved_start_ s) ((reserved_start_ s + total a) mod capacity s)) as [Heq|Hne]; cbn [negb].
  - assert (a = []) as ->.
    { destruct a as [|[l0 f0] a]; [done|].
      destruct (same_place (capacity s) (reserved_start_ s) [] l0 f0 (a ++ (l, false) :: b) ((l0, f0) :: a) l false b) as [[=] _];
        [done|apply Hsg|done|]. rewrite <- Heq. cbn [total foldr]. rewrite Z.add_0_r. apply Z.mod_small. lia. }
    rewrite <- Heq. cbn [total foldr app] in *. unfold CompleteFreeLocked, ZX_DEBUG_ASSERT, ZX_ASSERT. ztest.
    cbn [negb mbind outcome_bind]. unwrap. set (s1 := with_reserved s _ _).
    destruct (drain_pending_ok s1 b s.(pending_free_)) as (s' & pre & post & E & -> & Hpre & Hok & Hbuf & Hstart & Hhead).
    + done.
    + apply Z.mod_pos_bound. apply Hcap.
    + unfold s1. cbn. lia.
    + eapply segments_pop; [lia|exact Hsg|done|]. intros r. rewrite (Z.mod_small (reserved_start_ s)) by lia.
      split; [|tauto]. intros Hr. split; [done|]. intros Hrs. apply Hp in Hr.
      destruct (placed_split _ _ _ _ _ _ Hr) as (a' & b' & Hsegs & Hpl).
      destruct (same_place (capacity s) (reserved_start_ s) [] l false b a' (r_length r) true b') as (_ & _ & [=] & _); try done.
      rewrite <- Hpl, Hrs. cbn [total foldr]. rewrite Z.add_0_r. apply Z.mod_small. lia.
    + exists s', ((l, true) :: pre), post. split_and!; [exact E|done|by constructor|done|exact Hbuf| | |done].
      * rewrite Hstart, lengths_cons. unfold s1. cbn. change (capacity (with_reserved _ _ _)) with (capacity s).
        rewrite Zplus_mod_idemp_l. f_equal. lia.
      * intros Hun _. apply Hhead. unfold s1. cbn [reserved_start_ with_reserved]. change (capacity (with_reserved _ _ _)) with (capacity s).
        destruct (Z.eq_dec (reserved_start_ s + l) (capacity s)) as [Hc|Hc]; [rewrite Hc, Z_mod_same_full|rewrite Z.mod_small]; lia.
  - eexists _, [], (a ++ (l, true) :: b). split_and!; [done|done|constructor| |done| | |].
    + constructor; [done|done| |apply segments_mark; [apply Hcap|done]]. cbn. rewrite lengths_app, lengths_cons. done.
    + cbn. rewrite Z.add_0_r. symmetry. apply Z.mod_small. lia.
    + intros _. destruct a as [|[l0 f0] a]; [|done]. exfalso. apply Hne. cbn. rewrite Z.add_0_r. symmetry. apply Z.mod_small. lia.
    + intros ->. exfalso. apply Hne. cbn. rewrite Z.add_0_r. symmetry. apply Z.mod_small. lia.
Qed.

(** A new segment is appended when there is room for it; then what [out] held is freed. *)
Lemma ring_Reserve_ok s segs n : ring_ok s segs → 0 < n < 2 ^ 63 →
  if capacity s <? total segs + n then ∀ out, Reserve s n out = Returns (ZX_ERR_NO_SPACE, s, out)
  else ∃ s1, ring_ok s1 (segs ++ [(n, false)]) ∧ s1.(buffer_) = s.(buffer_) ∧ s1.(reserved_start_) = s.(reserved_start_) ∧
    s1.(pending_free_) = s.(pending_free_) ∧ ∀ out, Reserve s n out =
      p ← Reservation_Reset s1 out; Returns (ZX_OK, fst p, held ((s.(reserved_start_) + total segs) mod capacity s) n).
Proof.
  intros [Hcap Hst Hlen Hsg] Hn. pose proof Hsg as [Hpos Hfit Hs Hp]. pose proof (total_nonneg _ Hpos).
  unfold Reserve, IsSpaceAvailableLocked, ZX_DEBUG_ASSERT, ZX_ASSERT. rewrite Hlen. unwrap. ztest. cbn [mbind outcome_bind].
  destruct (Z.ltb_spec (capacity s) (total segs + n)); ztest; cbn [negb]; [done|]. ztest. cbn [negb mbind outcome_bind].
  exists (with_reserved s s.(reserved_start_) (total segs + n)). split; [|split_and!; [done|done|done|]].
  - constructor; [done|done|cbn; rewrite lengths_app, lengths_cons; cbn; lia|].
    cbn [reserved_start_ with_reserved pending_free_]. change (capacity (with_reserved _ _ _)) with (capacity s). constructor.
    + apply Forall_app. split; [done|]. apply Forall_singleton. cbn. lia.
    + rewrite lengths_app, lengths_cons. cbn. lia.
    + done.
    + intros r. rewrite Hp, placed_app, elem_of_app. cbn [placed]. rewrite list_elem_of_singleton. split; [tauto|].
      intros [?|[=]]. done.
  - intros out. unfold Reservation_assign. destruct (Reservation_Reset _ out) as [[s2 r2]|?|]; done.
Qed.

(** ** Histories *)

(** The buffer, and the reservations that are held, oldest first. *)
#[local] Notation holding := (RingBufferState B * list RingBufferReservation)%type.

Inductive ring_step : holding → holding → Prop :=
| step_reserve s live n s' r : 0 < n < 2 ^ 63 → Reserve s n no_reservation = Returns (ZX_OK, s', r) →
    ring_step (s, live) (s', live ++ [r])
| step_no_space s live n status s' r : 0 < n < 2 ^ 63 → Reserve s n no_reservation = Returns (status, s', r) → status ≠ ZX_OK →
    ring_step (s, live) (s', live)
| step_reset s a r b s' r' : Reservation_Reset s r = Returns (s', r') →
    ring_step (s, a ++ r :: b) (s', a ++ b)
| step_replace s a r b n s' r' : 0 < n < 2 ^ 63 → Reserve s n r = Returns (ZX_OK, s', r') →
    ring_step (s, a ++ r :: b) (s', a ++ b ++ [r']).

(** What is held is what the segments say. *)
Definition holds_of (x : holding) (segs : list segment) : Prop :=
  ring_ok (fst x) segs ∧ snd x = lives (placed (capacity (fst x)) (fst x).(reserved_start_) segs).

Lemma lives_split pl a r b : lives pl = a ++ r :: b →
  ∃ pa pb, pl = pa ++ (r.(start_), r.(length_), false) :: pb ∧ r.(Reserved) = true ∧ lives pa = a ∧ lives pb = b.
Proof.
  revert a. induction pl as [|[[p l] f] pl IH]; intros a; cbn; [by destruct a|]. destruct f; cbn.
  - intros H. destruct (IH a H) as (pa & pb & -> & ? & ? & ?). by exists ((p, l, true) :: pa), pb.
  - destruct a as [|x a]; cbn; intros [= <- H].
    + by exists [], pl.
    + destruct (IH a H) as (pa & pb & -> & ? & <- & ?). by exists ((p, l, false) :: pa), pb.
Qed.

Lemma placed_app_inv cap pos segs pa x pb : placed cap pos segs = pa ++ x :: pb →
  ∃ a l f b, segs = a ++ (l, f) :: b ∧ x = ((pos + total a) mod cap, l, f) ∧
    pa = placed cap pos a ∧ pb = placed cap (pos + total a + l) b.
Proof.
  revert pos pa. induction segs as [|[l f] segs IH]; intros pos pa; cbn; [by destruct pa|].
  destruct pa as [|y pa]; cbn; intros [= <- H].
  - exists [], l, f, segs. cbn. by rewrite Z.add_0_r.
  - destruct (IH _ _ H) as (a & l' & f' & b & -> & -> & -> & ->). exists ((l, f) :: a), l', f', b.
    rewrite lengths_cons. cbn. rewrite !Z.add_assoc. done.
Qed.

Lemma lives_freed cap pos segs : Forall (λ g, snd g = true) segs → lives (placed cap pos segs) = [].
Proof. intros H. revert pos. induction H as [|[l f] segs Hf _ IH]; intros pos; [done|]. cbn in Hf. subst f. cbn. apply IH. Qed.

(** Freeing a held reservation. *)
Lemma reset_ok s segs a r b : holds_of (s, a ++ r :: b) segs →
  ∃ s' segs', Reservation_Reset s r = Returns (s', no_reservation) ∧ holds_of (s', a ++ b) segs' ∧
    s'.(buffer_) = s.(buffer_) ∧
    (∃ sa sb, segs = sa ++ (r.(length_), false) :: sb ∧ r = held ((s.(reserved_start_) + total sa) mod capacity s) r.(length_) ∧
      a = lives (placed (capacity s) s.(reserved_start_) sa) ∧
      ∃ pre, sa ++ (r.(length_), true) :: sb = pre ++ segs' ∧ (sa = [] → pre ≠ [])) ∧
    (s.(reserved_start_) + s.(reserved_length_) ≤ capacity s → head_live segs →
      head_live segs' ∧ s'.(reserved_start_) + s'.(reserved_length_) ≤ capacity s').
Proof.
  intros [Hok Hlive]. cbn [fst snd] in *. symmetry in Hlive. destruct (lives_split _ _ _ _ Hlive) as (pa & pb & Hpl & Hr & Ha & Hb).
  destruct (placed_app_inv _ _ _ _ _ _ Hpl) as (sa & l & f & sb & -> & [= Hs Hl <-] & -> & ->).
  destruct r as [rb rs rl]. cbn in Hs, Hl, Hr. subst rs rl rb.
  destruct (ring_Free_ok _ _ _ _ Hok) as (s' & pre & post & E & Hseg & Hpre & Hok' & Hbuf & Hst & Hhead & Hne).
  assert (capacity s' = capacity s) as Hc by (unfold capacity; by rewrite Hbuf).
  assert (lives (placed (capacity s) (reserved_start_ s) (sa ++ (l, true) :: sb)) = a ++ b) as Hlv.
  { rewrite placed_app, lives_app, Ha. cbn. f_equal. exact Hb. }
  exists s', post. split; [unfold Reservation_Reset; cbn [Reserved]; unfold held in E; by rewrite E|]. split; [split; [done|]|].
  { cbn [fst snd]. rewrite <- Hlv, Hseg, placed_app, lives_app, lives_freed by done. cbn [app]. rewrite Hc, Hst. f_equal.
    apply placed_mod; [apply Hok|]. by rewrite Zmod_mod. }
  split; [done|]. split; [exists sa, sb; split_and!; try done; by exists pre|].
  intros Hun Hh. split; [by apply Hhead|]. rewrite Hc, Hst. pose proof (rg_length _ _ Hok') as HL. rewrite HL.
  pose proof (rg_length _ _ Hok) as HL0. assert (total (sa ++ (l, false) :: sb) = total pre + total post) as Ht.
  { rewrite <- lengths_app, <- Hseg, !lengths_app, !lengths_cons. done. }
  assert (0 ≤ total pre ∧ 0 ≤ total post) as [Hp1 Hp2].
  { pose proof (sg_pos _ _ _ _ (rg_segs _ _ Hok)) as Hpos. rewrite Forall_app, Forall_cons in Hpos.
    assert (Forall (λ g, 0 < fst g) (pre ++ post)) as HF by (rewrite <- Hseg, Forall_app, Forall_cons; naive_solver).
    apply Forall_app in HF as [? ?]. split; by apply total_nonneg. }
  pose proof (rg_start _ _ Hok). destruct (Z.eq_dec (reserved_start_ s + total pre) (capacity s)) as [He|He];
    [rewrite He, Z_mod_same_full|rewrite Z.mod_small]; lia.
Qed.

Lemma reserve_holds s live segs n : holds_of (s, live) segs → 0 < n < 2 ^ 63 →
  if capacity s <? total segs + n then ∀ out, Reserve s n out = Returns (ZX_ERR_NO_SPACE, s, out)
  else ∃ s1 r, holds_of (s1, live ++ [r]) (segs ++ [(n, false)]) ∧ s1.(buffer_) = s.(buffer_) ∧
    s1.(reserved_start_) = s.(reserved_start_) ∧ s1.(reserved_length_) = s.(reserved_length_) + n ∧ r.(length_) = n ∧
    s1.(pending_free_) = s.(pending_free_) ∧ ∀ out, Reserve s n out = p ← Reservation_Reset s1 out; Returns (ZX_OK, fst p, r).
Proof.
  intros [Hok Hlive] Hn. cbn [fst snd] in *. pose proof (ring_Reserve_ok _ _ _ Hok Hn) as H. destruct (_ <? _); [done|].
  destruct H as (s1 & Hok1 & Hbuf & Hst & Hpend & E). exists s1, (held ((reserved_start_ s + total segs) mod capacity s) n).
  split; [split; [done|]|].
  - cbn [fst snd]. rewrite Hst, placed_app, lives_app. unfold capacity. rewrite Hbuf. fold (capacity s). by rewrite <- Hlive.
  - split_and!; try done. rewrite (rg_length _ _ Hok1), (rg_length _ _ Hok), lengths_app, lengths_cons. cbn. lia.
Qed.

Lemma step_ok x y segs : ring_step x y → holds_of x segs → ∃ segs', holds_of y segs' ∧ (fst y).(buffer_) = (fst x).(buffer_).
Proof.
  intros [s live n s' r Hn E|s live n status s' r Hn E Hne|s a r b s' r' E|s a r b n s' r' Hn E] Hh; cbn [fst].
  - pose proof (reserve_holds _ _ _ _ Hh Hn) as H. destruct (_ <? _); [rewrite H in E; done|].
    destruct H as (s1 & r1 & Hh1 & Hbuf & _ & _ & _ & _ & Er). rewrite Er in E. injection E as <- <-. eauto.
  - pose proof (reserve_holds _ _ _ _ Hh Hn) as H. destruct (_ <? _); [rewrite H in E; injection E as _ <- _; eauto|].
    destruct H as (s1 & r1 & Hh1 & Hbuf & _ & _ & _ & _ & Er). rewrite Er in E. injection E as Hs _ _. by destruct Hne.
  - destruct (reset_ok _ _ _ _ _ Hh) as (s1 & segs' & Er & Hh1 & Hbuf & _). rewrite Er in E. injection E as <- <-. eauto.
  - pose proof (reserve_holds _ _ _ _ Hh Hn) as H. destruct (_ <? _); [rewrite H in E; done|].
    destruct H as (s1 & r1 & Hh1 & Hbuf & _ & _ & _ & _ & Er). rewrite Er in E. rewrite <- app_assoc in Hh1. cbn [app] in Hh1.
    destruct (reset_ok _ _ _ _ _ Hh1) as (s2 & segs' & Er2 & Hh2 & Hbuf2 & _). rewrite Er2 in E. injection E as <- <-.
    exists segs'. split; [done|]. congruence.
Qed.

Lemma steps_ok x y segs : rtc ring_step x y → holds_of x segs → ∃ segs', holds_of y segs' ∧ (fst y).(buffer_) = (fst x).(buffer_).
Proof.
  intros H. revert segs. induction H as [x|x y z Hxy _ IH]; intros segs Hh; [eauto|].
  destruct (step_ok _ _ _ Hxy Hh) as (segs1 & Hh1 & E1). destruct (IH _ Hh1) as (segs2 & Hh2 & E2). exists segs2. split; [done|]. congruence.
Qed.

Lemma new_holds (buffer : list B) vmoid : 0 < Z.of_nat (length buffer) < 2 ^ 63 → holds_of (NewRingBuffer buffer vmoid, []) [].
Proof.
  intros H. split; [|done]. constructor; [done|cbn; unfold capacity; cbn; lia|done|]. constructor; [done|cbn; unfold capacity; cbn; lia|constructor|].
  intros r. cbn. split; by intros ?%not_elem_of_nil.
Qed.

(** ** The blocks of a reservation *)

Definition blocks_of (cap : Z) (r : RingBufferReservation) : list Z :=
  map (λ i, (r.(start_) + i) mod cap) (seqZ 0 r.(length_)).

Lemma blocks_placed cap pos segs : 0 < cap → Forall (λ g, 0 < fst g) segs →
  flat_map (λ x : Z * Z * bool, blocks_of cap (held (fst (fst x)) (snd (fst x)))) (placed cap pos segs) =
  map (λ i, i mod cap) (seqZ pos (total segs)).
Proof.
  intros Hcap H. revert pos. induction H as [|[l f] segs Hl Hs IH]; intros pos; [done|]. cbn [placed flat_map]. rewrite IH.
  cbn in Hl. pose proof (total_nonneg _ Hs). rewrite lengths_cons. cbn [fst snd]. rewrite seqZ_app, map_app by lia. f_equal.
  unfold blocks_of, held. cbn [start_ length_]. replace (seqZ pos l) with (map (Z.add pos) (seqZ 0 l)).
  2: { etransitivity; [apply (fmap_add_seqZ pos 0)|]. by rewrite Z.add_0_r. }
  rewrite map_map. apply map_ext. intros i.
  by rewrite Zplus_mod_idemp_l.
Qed.

Lemma lives_blocks cap pl :
  sublist (flat_map (blocks_of cap) (lives pl)) (flat_map (λ x : Z * Z * bool, blocks_of cap (held (fst (fst x)) (snd (fst x)))) pl).
Proof.
  induction pl as [|[[p l] f] pl IH]; [done|]. cbn. destruct f; cbn; [by apply sublist_inserts_l|].
  by apply sublist_app.
Qed.

Lemma seqZ_mod_NoDup cap pos n : 0 < cap → n ≤ cap → NoDup (map (λ i, i mod cap) (seqZ pos n)).
Proof.
  intros Hc Hn. apply NoDup_fmap_2_strong; [|apply NoDup_seqZ]. intros x y Hx%elem_of_seqZ Hy%elem_of_seqZ Heq.
  assert ((x - y) mod cap = 0) as Hd by (by rewrite Zminus_mod, Heq, Z.sub_diag).
  apply Z.mod_divide in Hd as [k Hk]; [|lia]. assert (k = 0) by nia. lia.
Qed.

Lemma holds_disjoint s live segs : holds_of (s, live) segs →
  NoDup (flat_map (blocks_of (capacity s)) live) ∧ Forall (λ i, 0 ≤ i < capacity s) (flat_map (blocks_of (capacity s)) live).
Proof.
  intros [[Hcap Hst Hlen [Hpos Hfit _ _]] Hlive]. cbn [fst snd] in *. pose proof (lives_blocks (capacity s) (placed (capacity s) (reserved_start_ s) segs)) as Hsub.
  rewrite <- Hlive, blocks_placed in Hsub by (done || lia). split.
  - eapply sublist_NoDup; [|exact Hsub]. apply seqZ_mod_NoDup; lia.
  - apply Forall_forall. intros i Hi. eapply elem_of_sublist in Hi; [|exact Hsub].
    apply list_elem_of_fmap in Hi as (x & -> & _). apply Z.mod_pos_bound. lia.
Qed.

(** ** Giving everything back *)

Fixpoint reset_all s (rs : list RingBufferReservation) : outcome (RingBufferState B) :=
  match rs with
  | [] => Returns s
  | r :: rs => p ← Reservation_Reset s r; reset_all (fst p) rs
  end.

Lemma no_live_empty s segs : holds_of (s, []) segs → head_live segs → segs = [].
Proof. intros [_ H] Hh. cbn [fst snd] in H. destruct segs as [|[l []] segs]; done. Qed.

Lemma empty_state s : holds_of (s, []) [] → s.(reserved_length_) = 0 ∧ s.(pending_free_) = [].
Proof.
  intros [[_ _ Hlen [_ _ _ Hp]] _]. split; [done|]. cbn [fst] in Hp. destruct (pending_free_ s) as [|p l]; [done|].
  exfalso. eapply not_elem_of_nil, Hp. by left.
Qed.

(** Without wrap-around, in any order. *)
Lemma reset_all_unwrapped s live segs order : holds_of (s, live) segs → head_live segs →
  s.(reserved_start_) + s.(reserved_length_) ≤ capacity s → order ≡ₚ live →
  ∃ s', reset_all s order = Returns s' ∧ holds_of (s', []) [].
Proof.
  revert s live segs. induction order as [|r order IH]; intros s live segs Hh Hhd Hun Hperm; cbn [reset_all].
  - apply Permutation_nil_l in Hperm. subst live. pose proof (no_live_empty _ _ Hh Hhd). subst segs. eauto.
  - assert (r ∈ live) as Hin by (rewrite <- Hperm; by left). apply list_elem_of_split in Hin as (a & b & ->).
    destruct (reset_ok _ _ _ _ _ Hh) as (s1 & segs1 & E & Hh1 & _ & _ & Hkeep). rewrite E. cbn [mbind outcome_bind fst].
    destruct (Hkeep Hun Hhd) as [Hhd1 Hun1]. eapply IH; [exact Hh1|done|done|].
    rewrite <- Permutation_middle in Hperm. by apply Permutation_cons_inv in Hperm.
Qed.

(** In the order of the reservations, with nothing freed before. *)
Lemma reset_all_fifo s live segs : holds_of (s, live) segs → Forall (λ g, snd g = false) segs →
  ∃ s', reset_all s live = Returns s' ∧ holds_of (s', []) [].
Proof.
  revert s segs. induction live as [|r live IH]; intros s segs Hh Hall; cbn [reset_all].
  - destruct segs as [|[l f] segs]; [eauto|]. apply Forall_cons in Hall as [Hf _]. cbn in Hf. subst f. by destruct Hh as [_ [=]].
  - destruct (reset_ok s segs [] r live Hh) as (s1 & segs1 & E & Hh1 & _ & (sa & sb & -> & Hr & Hsa & Hsuf) & _). rewrite E. cbn [mbind outcome_bind fst app] in *.
    assert (sa = []) as ->.
    { destruct sa as [|[l f] sa]; [done|]. apply Forall_cons in Hall as [Hf _]. cbn in Hf. subst f. done. }
    apply (IH s1 segs1 Hh1). cbn [app] in *. apply Forall_cons in Hall as [_ Hall].
    destruct Hsuf as ([|g pre] & Hsuf & Hne); [by destruct Hne|]. injection Hsuf as _ ->.
    apply Forall_app in Hall as [_ Hall]. done.
Qed.

Lemma nothing_freed s segs : ring_ok s segs → s.(pending_free_) = [] → Forall (λ g, snd g = false) segs.
Proof.
  intros [_ _ _ [_ _ _ Hp]] He. rewrite He in Hp. apply Forall_forall. intros [l []] Hin; [|done]. exfalso.
  apply list_elem_of_split in Hin as (a & b & ->).
  apply (not_elem_of_nil {| r_start := (reserved_start_ s + total a) mod capacity s; r_length := l |}), Hp.
  rewrite placed_app, elem_of_app. right. left.
Qed.

Lemma unfreed_head segs : Forall (λ g, snd g = false) segs → head_live segs.
Proof. destruct 1 as [|[l f] segs Hf _]; [done|]. cbn in Hf. by subst f. Qed.

(** ** A range that is not given back *)

(** The range at the start of the reserved part waits in the list. *)
Definition start_pending s : Prop := s.(reserved_start_) ∈ map r_start s.(pending_free_).

Lemma start_pending_reset s live segs r s' r' : holds_of (s, live) segs → start_pending s → r ∈ live →
  Reservation_Reset s r = Returns (s', r') →
  start_pending s' ∧ s'.(reserved_start_) = s.(reserved_start_) ∧ s'.(reserved_length_) = s.(reserved_length_).
Proof.
  intros [Hok Hlive] Hst Hr. cbn [fst snd] in Hok, Hlive. subst live. pose proof Hok as [Hcap _ _ [Hpos Hfit _ Hp]].
  apply list_elem_of_fmap in Hst as (p & Hps & Hpin). pose proof Hpin as Hp1. apply Hp in Hp1. apply elem_of_lives in Hr as [Hr Hres].
  assert (r.(start_) ≠ s.(reserved_start_)) as Hne.
  { intros He. destruct (placed_split _ _ _ _ _ _ Hr) as (a & b & Hsegs & Ha).
    destruct (placed_split _ _ _ _ _ _ Hp1) as (a' & b' & Hsegs' & Ha'). rewrite Hsegs in Hpos, Hfit, Hsegs'.
    assert ((reserved_start_ s + total a) mod capacity s = (reserved_start_ s + total a') mod capacity s) as Hm by (rewrite <- Ha, <- Ha', He; exact Hps).
    destruct (same_place _ _ _ _ _ _ _ _ _ _ Hpos Hfit Hsegs' Hm) as (_ & _ & [=] & _). }
  unfold Reservation_Reset, Free. rewrite Hres. destruct (ZX_DEBUG_ASSERT _); cbn [mbind outcome_bind]; [|done|done].
  rewrite (proj2 (Z.eqb_neq _ _)) by done. cbn [negb mbind outcome_bind]. intros [= <- _]. split; [|done].
  apply list_elem_of_fmap. exists p. split; [done|]. apply insert_pending_in. by right.
Qed.

Lemma start_pending_step x y segs : ring_step x y → holds_of x segs → start_pending (fst x) →
  start_pending (fst y) ∧ (fst y).(reserved_start_) = (fst x).(reserved_start_) ∧
  (fst x).(reserved_length_) ≤ (fst y).(reserved_length_).
Proof.
  intros Hstep Hh Hst. destruct Hstep as [s live n s' r Hn E|s live n status s' r Hn E Hne|s a r b s' r' E|s a r b n s' r' Hn E]; cbn [fst] in *.
  3: { eapply start_pending_reset in E as (? & ? & ?); [split_and!; [done|done|lia]|done|done|apply elem_of_app; right; left]. }
  all: pose proof (reserve_holds _ _ _ _ Hh Hn) as H; destruct (_ <? _); [rewrite H in E; first [done|injection E as _ <- _; split_and!; [done|done|lia]]|].
  all: destruct H as (s1 & r1 & Hh1 & Hbuf & Hst1 & Hlen1 & _ & Hpend & Er); rewrite Er in E.
  all: assert (start_pending s1) as Hst2 by (unfold start_pending; by rewrite Hst1, Hpend).
  1: injection E as <- <-; split_and!; [done|done|lia].
  1: by injection E as Hs _ _; destruct Hne.
  destruct (Reservation_Reset s1 r) as [[s2 r2]|?|] eqn:E2; cbn in E; try done. injection E as <- <-.
  eapply start_pending_reset in E2 as (? & ? & ?); [split_and!; [done|congruence|lia]|exact Hh1|done|].
  rewrite !elem_of_app. left. right. left.
Qed.

Lemma start_pending_steps x y segs : rtc ring_step x y → holds_of x segs → start_pending (fst x) →
  (fst y).(reserved_start_) = (fst x).(reserved_start_) ∧ (fst x).(reserved_length_) ≤ (fst y).(reserved_length_).
Proof.
  intros H. revert segs. induction H as [x|x y z Hxy _ IH]; intros segs Hh Hst; [done|].
  destruct (start_pending_step _ _ _ Hxy Hh Hst) as (Hst1 & E1 & L1). destruct (step_ok _ _ _ Hxy Hh) as (segs1 & Hh1 & _).
  destruct (IH _ Hh1 Hst1) as [E2 L2]. split; [congruence|lia].
Qed.

End ring.

(** ** Histories of a buffer of four blocks *)

Definition four (start len : Z) (pending : list (Z * Z)) : RingBufferState Z := {|
  buffer_ := [10; 11; 12; 13]; vmoid_ := 7; reserved_start_ := start; reserved_length_ := len;
  pending_free_ := map (λ p, {| r_start := fst p; r_length := snd p |}) pending |}.

Ltac ring_reserve n := eapply rtc_l; [eapply (step_reserve _ _ n); [lia|vm_compute; reflexivity]|cbn [app]].
Ltac ring_reset a := eapply rtc_l; [eapply (step_reset _ a); vm_compute; reflexivity|cbn [app]].

Lemma wrapped_history : rtc ring_step (NewRingBuffer [10; 11; 12; 13] 7, []) (four 3 3 [], [held 3 1; held 0 2]).
Proof. ring_reserve 3. ring_reserve 1. ring_reset (@nil RingBufferReservation). ring_reserve 2. apply rtc_refl. Qed.

Lemma unwrapped_history : rtc ring_step (NewRingBuffer [10; 11; 12; 13] 7, []) (four 0 4 [], [held 0 2; held 2 1; held 3 1]).
Proof. ring_reserve 2. ring_reserve 1. ring_reserve 1. apply rtc_refl. Qed.

Lemma leaking_history : rtc ring_step (NewRingBuffer [10; 11; 12; 13] 7, []) (four 3 2 [(0, 1); (3, 1)], []).
Proof.
  ring_reserve 2. ring_reserve 1. ring_reserve 1. ring_reset (@nil RingBufferReservation). ring_reserve 1.
  ring_reset [held 2 1]. ring_reset [held 2 1]. ring_reset (@nil RingBufferReservation). apply rtc_refl.
Qed.

(** ** Claims *)

(** C34. In every state the ring buffer can reach, by reserving, resetting reservations in any
    order and reserving into one that is already held: no two held reservations share a block and
    all their blocks are inside the buffer; together they are at most [reserved_length_], which is
    at most the capacity; resetting any of them returns, with no assertion failing; and a
    reservation of [n] blocks returns too, with [ZX_OK] and [n] blocks exactly when [n] blocks
    are not reserved. *)
Theorem ring_reservations_safe {B : Type} (buffer : list B) (vmoid : Z) (s : RingBufferState B) live :
  0 < Z.of_nat (length buffer) < 2 ^ 63 → rtc ring_step (NewRingBuffer buffer vmoid, []) (s, live) →
  capacity s = Z.of_nat (length buffer) ∧
  NoDup (flat_map (blocks_of (capacity s)) live) ∧ Forall (λ i, 0 ≤ i < capacity s) (flat_map (blocks_of (capacity s)) live) ∧
  Z.of_nat (length (flat_map (blocks_of (capacity s)) live)) ≤ s.(reserved_length_) ≤ capacity s ∧
  (∀ r, r ∈ live → ∃ s', Reservation_Reset s r = Returns (s', no_reservation)) ∧
  (∀ n, 0 < n < 2 ^ 63 →
    if s.(reserved_length_) + n <=? capacity s
    then ∃ s' r, Reserve s n no_reservation = Returns (ZX_OK, s', r) ∧ r.(length_) = n
    else Reserve s n no_reservation = Returns (ZX_ERR_NO_SPACE, s, no_reservation)).
Proof.
  intros Hb Hreach. destruct (steps_ok _ _ _ Hreach (new_holds _ _ Hb)) as (segs & Hh & Hbuf). cbn [fst] in Hbuf.
  destruct (holds_disjoint _ _ _ Hh) as [Hnd Hin]. pose proof Hh as [[Hcap Hst Hlen [Hpos Hfit _ _]] Hlive]. cbn [fst snd] in *.
  split_and!; [unfold capacity; by rewrite Hbuf|done|done| |lia| |].
  - rewrite Hlen, Hlive. pose proof (lives_blocks (capacity s) (placed (capacity s) (reserved_start_ s) segs)) as Hl%sublist_length.
    rewrite blocks_placed in Hl by (done || lia). pose proof (total_nonneg _ Hpos). rewrite length_map, length_seqZ in Hl. lia.
  - intros r Hr. apply list_elem_of_split in Hr as (a & b & ->). destruct (reset_ok _ _ _ _ _ Hh) as (s' & segs' & E & _). eauto.
  - intros n Hn. pose proof (reserve_holds _ _ _ _ Hh Hn) as H. rewrite Hlen. destruct (Z.ltb_spec (capacity s) (total segs + n)); ztest; [by rewrite H|].
    destruct H as (s1 & r & _ & _ & _ & _ & Hl & _ & E). rewrite E. cbn. eauto.
Qed.

Lemma ring_reservations_safe_witness :
  let s := four 3 3 [] in let live := [held 3 1; held 0 2] in
  flat_map (blocks_of (capacity s)) live = [3; 0; 1] ∧ NoDup (flat_map (blocks_of (capacity s)) live).
Proof.
  cbn zeta. split; [vm_compute; reflexivity|].
  apply (ring_reservations_safe [10; 11; 12; 13] 7 (four 3 3 []) [held 3 1; held 0 2]); [cbn; lia|apply wrapped_history].
Defined.

(** When nothing waits in [pending_free_], resetting all the held reservations gives the
    whole buffer back (no block is reserved and the list is empty), in the order in which they
    were reserved always, and in any order when the reserved part does not wrap around the end. *)
Theorem ring_gives_back {B : Type} (buffer : list B) (vmoid : Z) (s : RingBufferState B) live order :
  0 < Z.of_nat (length buffer) < 2 ^ 63 → rtc ring_step (NewRingBuffer buffer vmoid, []) (s, live) →
  s.(pending_free_) = [] → (order = live ∨ order ≡ₚ live ∧ s.(reserved_start_) + s.(reserved_length_) ≤ capacity s) →
  ∃ s', reset_all s order = Returns s' ∧ s'.(reserved_length_) = 0 ∧ s'.(pending_free_) = [].
Proof.
  intros Hb Hreach Hp Horder. destruct (steps_ok _ _ _ Hreach (new_holds _ _ Hb)) as (segs & Hh & _).
  pose proof (nothing_freed _ _ (proj1 Hh) Hp) as Hall. assert (∃ s', reset_all s order = Returns s' ∧ holds_of (s', []) []) as (s' & E & He).
  { destruct Horder as [->|[Hperm Hun]]; [by eapply reset_all_fifo|]. eapply reset_all_unwrapped; eauto using unfreed_head. }
  exists s'. split; [done|]. by apply empty_state.
Qed.

(** A leak. The list [pending_free_] is sorted by position, and only its first range is
    compared with the start of the reserved part, so once the reserved part wraps around, the range
    at its start can be behind one at the beginning of the buffer. From a state where that
    has happened, nothing is given back again: the start of the reserved part stays where it is, its
    length never decreases, and a reservation that does not fit fails for ever, whatever is freed. *)
Theorem ring_leak_is_permanent {B : Type} (buffer : list B) (vmoid : Z) (s : RingBufferState B) live s' live' :
  0 < Z.of_nat (length buffer) < 2 ^ 63 → rtc ring_step (NewRingBuffer buffer vmoid, []) (s, live) →
  s.(reserved_start_) ∈ map r_start s.(pending_free_) → rtc ring_step (s, live) (s', live') →
  s'.(reserved_start_) = s.(reserved_start_) ∧ s.(reserved_length_) ≤ s'.(reserved_length_) ∧
  ∀ n out, 0 < n < 2 ^ 63 → capacity s < s.(reserved_length_) + n → Reserve s' n out = Returns (ZX_ERR_NO_SPACE, s', out).
Proof.
  intros Hb Hreach Hp Hlater. destruct (steps_ok _ _ _ Hreach (new_holds _ _ Hb)) as (segs & Hh & _).
  destruct (start_pending_steps _ _ _ Hlater Hh Hp) as [Hst Hle]. cbn [fst] in *. split_and!; [done|done|].
  intros n out Hn Hfull. destruct (steps_ok _ _ _ Hlater Hh) as (segs' & Hh' & Hbuf). cbn [fst] in Hbuf.
  pose proof (ring_Reserve_ok _ _ _ (proj1 Hh') Hn) as H. rewrite (proj2 (Z.ltb_lt _ _)) in H; [apply H|]. cbn [fst].
  unfold capacity in *. rewrite Hbuf. pose proof (rg_length _ _ (proj1 Hh')) as HL. cbn [fst] in HL. lia.
Qed.

