(* ===== verification/RingCopy.v ===== *)
(** * Copying operations into the ring buffer *)

From S2P Require Import Prelude RawBitmap Format Operations RingBuffer.

Section copy.
Context {B : Type}.
Implicit Types s : RingBufferState B.

(** ** What operations write to the device *)

(** Each block of the device with what is written to it, from the VMOs and from the buffer. *)
Definition written_from_vmos (v : Vmos B) (o : UnbufferedOperation) : list (Z * option B) :=
  map (λ i, (o.(u_op).(dev_offset) + i, Some (v.(vmo_block) o.(vmo) ((o.(u_op).(vmo_offset) + i) * kBlobfsBlockSize))))
    (seqZ 0 o.(u_op).(Operations.length_)).

Definition written_from_buffer (buffer : list B) (o : BufferedOperation) : list (Z * option B) :=
  map (λ i, (o.(b_op).(dev_offset) + i, buffer !! Z.to_nat (o.(b_op).(vmo_offset) + i))) (seqZ 0 o.(b_op).(Operations.length_)).

(** Operations that are inside the VMO and the device; the bytes do not overflow. *)
Definition copy_op_ok (o : UnbufferedOperation) : Prop :=
  o.(u_op).(type) = kWrite ∧ 0 ≤ o.(u_op).(vmo_offset) ∧ 0 ≤ o.(u_op).(dev_offset) ∧ 0 < o.(u_op).(Operations.length_) ∧
  o.(u_op).(vmo_offset) + o.(u_op).(Operations.length_) ≤ 2 ^ 50 ∧
  o.(u_op).(dev_offset) + o.(u_op).(Operations.length_) ≤ 2 ^ 50.

Record reservation_ok s (r : RingBufferReservation) : Prop := {
  rs_reserved : r.(Reserved) = true;
  rs_cap : 0 < capacity s < 2 ^ 50;
  rs_start : 0 ≤ r.(start_) < capacity s;
  rs_length : 0 < r.(length_) ≤ capacity s;
}.

(** Block [j] of the buffer is one of the blocks [lo] to [hi] of the reservation. *)
Definition window (cap start lo hi j : Z) : Prop := ∃ k, lo ≤ k < hi ∧ j = (start + k) mod cap.

Lemma window_apart cap start lo mid hi j : 0 < cap → lo ≤ mid ≤ hi → hi - lo ≤ cap →
  window cap start lo mid j → ¬ window cap start mid hi j.
Proof.
  intros Hc Hm Hh (k & Hk & ->) (k' & Hk' & He).
  assert ((start + k' - (start + k)) mod cap = 0) as Hd by (by rewrite Zminus_mod, He, Z.sub_diag).
  apply Z.mod_divide in Hd as [q Hq]; [|lia]. destruct (Z_lt_le_dec q 1); nia.
Qed.

Lemma window_mono cap start lo hi lo' hi' j : lo ≤ lo' → hi' ≤ hi → window cap start lo' hi' j → window cap start lo hi j.
Proof. intros ? ? (k & ? & ->). exists k. split; [lia|done]. Qed.

(** ** One read *)

Lemma length_write_blocks (bs buffer : list B) at_ : length (write_blocks buffer at_ bs) = length buffer.
Proof. revert buffer at_. induction bs as [|b bs IH]; intros; cbn; [done|]. by rewrite IH, length_insert. Qed.

Lemma lookup_write_blocks (bs buffer : list B) at_ j : (at_ + length bs ≤ length buffer)%nat →
  write_blocks buffer at_ bs !! j = if decide (at_ ≤ j < at_ + length bs)%nat then bs !! (j - at_)%nat else buffer !! j.
Proof.
  revert buffer at_. induction bs as [|b bs IH]; intros buffer at_ Hl; cbn [write_blocks length] in *.
  { destruct (decide _); [lia|done]. }
  rewrite IH by (rewrite length_insert; lia). destruct (decide (S at_ ≤ j < S at_ + length bs)%nat), (decide (at_ ≤ j < at_ + S (length bs))%nat); try lia.
  - replace (j - at_)%nat with (S (j - S at_)) by lia. done.
  - replace j with at_ by lia. rewrite list_lookup_insert_eq by lia. by rewrite Nat.sub_diag.
  - apply list_lookup_insert_ne. lia.
Qed.

(** What a step of the copy leaves as it is: all but the blocks [lo] to [hi] of the reservation. *)
Record copies (r : RingBufferReservation) (lo hi : Z) s s' : Prop := {
  cp_rest : s' = with_buffer s s'.(buffer_);
  cp_length : length s'.(buffer_) = length s.(buffer_);
  cp_frame : ∀ j, ¬ window (capacity s) r.(start_) lo hi (Z.of_nat j) → s'.(buffer_) !! j = s.(buffer_) !! j;
}.

Lemma copies_refl r lo hi s : copies r lo hi s s.
Proof. constructor; [by destruct s|done|done]. Qed.

Lemma copies_capacity r lo hi s s' : copies r lo hi s s' → capacity s' = capacity s.
Proof. intros [_ H _]. unfold capacity. by rewrite H. Qed.

Lemma copies_trans r lo mid hi s s' s'' : lo ≤ mid ≤ hi → copies r lo mid s s' → copies r mid hi s' s'' → copies r lo hi s s''.
Proof.
  intros Hm H1 H2. pose proof (copies_capacity _ _ _ _ _ H1) as Hc. destruct H1 as [E1 L1 F1], H2 as [E2 L2 F2]. constructor.
  - rewrite E2, E1. done.
  - congruence.
  - intros j Hj. rewrite F2, F1; [done|contradict Hj|rewrite Hc; contradict Hj]; (eapply window_mono; [..|exact Hj]; lia).
Qed.

Lemma copies_reservation r lo hi s s' : copies r lo hi s s' → reservation_ok s r → reservation_ok s' r.
Proof. intros H%copies_capacity [? ? ? ?]. constructor; rewrite ?H; done. Qed.

Lemma read_to_ok (v : Vmos B) s r index h off len :
  reservation_ok s r → 0 ≤ index → 0 < len → index + len ≤ r.(length_) → 0 ≤ off → off + len ≤ 2 ^ 50 →
  (r.(start_) + index) mod capacity s + len ≤ capacity s →
  let status := v.(vmo_read_status) h (off * kBlobfsBlockSize) (len * kBlobfsBlockSize) in
  if failed status then read_to v s r index h off len = Returns (status, s)
  else ∃ s', read_to v s r index h off len = Returns (ZX_OK, s') ∧ copies r index (index + len) s s' ∧
    ∀ i, 0 ≤ i < len → s'.(buffer_) !! Z.to_nat ((r.(start_) + index) mod capacity s + i) =
      Some (v.(vmo_block) h ((off + i) * kBlobfsBlockSize)).
Proof.
  intros [Hr Hcap Hst Hlen] Hi Hl Hil Ho Hol Hfit. unfold read_to, MutableData. rewrite Hr. cbn [ZX_DEBUG_ASSERT ZX_ASSERT mbind outcome_bind].
  unfold ZX_DEBUG_ASSERT, ZX_ASSERT. ztest. cbn [negb mbind outcome_bind]. unfold kBlobfsBlockSize in *. unwrap.
  destruct (failed _) eqn:Ef; [done|]. rewrite Z.div_mul by lia. set (p := (start_ r + index) mod capacity s) in *.
  assert (0 ≤ p < capacity s) as Hp by (apply Z.mod_pos_bound; lia). ztest. cbn [negb mbind outcome_bind].
  eexists. split; [done|]. cbn [buffer_ with_buffer]. set (bs := map _ _).
  assert (Z.of_nat (length bs) = len) as Hbs by (unfold bs; rewrite length_map, length_seqZ; lia). unfold capacity in *. split.
  - constructor; [done|apply length_write_blocks|]. intros j Hj. cbn [buffer_ with_buffer].
    rewrite lookup_write_blocks by lia. destruct (decide _) as [Hd|]; [|done]. destruct Hj.
    exists (index + (Z.of_nat j - p)). split; [lia|]. unfold capacity. rewrite Z.add_assoc, <- Zplus_mod_idemp_l. fold p.
    rewrite Z.mod_small; lia.
  - intros i Hii. rewrite lookup_write_blocks by lia. rewrite decide_True by lia.
    replace (Z.to_nat (p + i) - Z.to_nat p)%nat with (Z.to_nat i) by lia. unfold bs. apply list_lookup_fmap_Some.
    exists i. split; [|apply lookup_seqZ; lia]. do 2 f_equal. lia.
Qed.

(** ** One operation *)

(** An operation of the output, on blocks [lo] to [hi] of the reservation. *)
Record out_ok s (r : RingBufferReservation) (lo hi : Z) (o : BufferedOperation) : Prop := {
  oo_vmoid : o.(vmoid) = s.(vmoid_);
  oo_type : o.(b_op).(type) = kWrite;
  oo_bounds : 0 ≤ o.(b_op).(vmo_offset) ∧ 0 < o.(b_op).(Operations.length_) ∧
    o.(b_op).(vmo_offset) + o.(b_op).(Operations.length_) ≤ capacity s;
  oo_window : ∀ i, 0 ≤ i < o.(b_op).(Operations.length_) → window (capacity s) r.(start_) lo hi (o.(b_op).(vmo_offset) + i);
}.

Lemma out_ok_mono s s' r lo hi lo' hi' o : s'.(vmoid_) = s.(vmoid_) → capacity s' = capacity s → lo ≤ lo' → hi' ≤ hi →
  out_ok s' r lo' hi' o → out_ok s r lo hi o.
Proof.
  intros Hv Hc Hl Hh [? ? ? Hw]. constructor; [congruence|done|by rewrite <- Hc|]. intros i Hi. rewrite <- Hc.
  eapply window_mono; [..|by apply Hw]; lia.
Qed.

Lemma copies_vmoid r lo hi s s' : copies r lo hi s s' → s'.(vmoid_) = s.(vmoid_).
Proof. intros [-> _ _]. done. Qed.

(** Blocks that are copied later leave it what it writes. *)
Lemma written_stable s0 s s' r lo mid hi o : out_ok s0 r lo mid o → capacity s = capacity s0 → 0 < capacity s0 → lo ≤ mid ≤ hi → hi - lo ≤ capacity s0 →
  copies r mid hi s s' → written_from_buffer s'.(buffer_) o = written_from_buffer s.(buffer_) o.
Proof.
  intros [_ _ Hb Hw] Hc Hcap Hm Hh [_ _ Hf]. unfold written_from_buffer. apply map_ext_in. intros i Hi%list_elem_of_In%elem_of_seqZ.
  f_equal. apply Hf. rewrite Z2Nat.id, Hc by lia. eapply window_apart; [done|exact Hm|done|]. apply Hw. lia.
Qed.

Lemma flat_written_stable s0 s s' r lo mid hi os : Forall (out_ok s0 r lo mid) os → capacity s = capacity s0 → 0 < capacity s0 → lo ≤ mid ≤ hi → hi - lo ≤ capacity s0 →
  copies r mid hi s s' → flat_map (written_from_buffer s'.(buffer_)) os = flat_map (written_from_buffer s.(buffer_)) os.
Proof. intros H ? ? ? ? ?. induction H as [|o os Ho _ IH]; [done|]. cbn. rewrite IH. f_equal. by eapply written_stable. Qed.

Lemma map_seqZ_split {A} (f : Z → A) a b : 0 ≤ a → 0 ≤ b → map f (seqZ 0 (a + b)) = map f (seqZ 0 a) ++ map (λ i, f (a + i)) (seqZ 0 b).
Proof.
  intros Ha Hb. rewrite seqZ_app, map_app by done. f_equal. transitivity (map f (map (Z.add a) (seqZ 0 b))); [|by rewrite map_map].
  f_equal. symmetry. etransitivity; [apply (fmap_add_seqZ a 0)|]. f_equal. lia.
Qed.

(** The operation for the blocks of one read. *)
Definition piece s (at_ dev len : Z) : BufferedOperation := {| vmoid := s.(vmoid_);
  b_op := {| type := kWrite; vmo_offset := at_; dev_offset := dev; Operations.length_ := len |} |}.

Lemma piece_ok s r index dev len : reservation_ok s r → 0 ≤ index → 0 < len → (r.(start_) + index) mod capacity s + len ≤ capacity s →
  out_ok s r index (index + len) (piece s ((r.(start_) + index) mod capacity s) dev len).
Proof.
  intros [_ Hcap Hst _] Hi Hl Hfit. pose proof (Z.mod_pos_bound (start_ r + index) (capacity s)). constructor; cbn; [done|done|lia|].
  intros i Hii. exists (index + i). split; [lia|]. rewrite Z.add_assoc, <- (Zplus_mod_idemp_l (_ + index)).
  symmetry. apply Z.mod_small. lia.
Qed.

Lemma piece_written (v : Vmos B) s (buffer : list B) at_ h off dev len :
  (∀ i, 0 ≤ i < len → buffer !! Z.to_nat (at_ + i) = Some (v.(vmo_block) h ((off + i) * kBlobfsBlockSize))) →
  written_from_buffer buffer (piece s at_ dev len) =
    map (λ i, (dev + i, Some (v.(vmo_block) h ((off + i) * kBlobfsBlockSize)))) (seqZ 0 len).
Proof.
  intros H. unfold written_from_buffer. cbn. apply map_ext_in. intros i Hi%list_elem_of_In%elem_of_seqZ. f_equal. apply H. lia.
Qed.

Lemma copy_request_ok (v : Vmos B) r o s ro out :
  reservation_ok s r → copy_op_ok o → 0 ≤ ro → ro + o.(u_op).(Operations.length_) ≤ r.(length_) →
  let hi := ro + o.(u_op).(Operations.length_) in
  (∃ status s' x y z, copy_request v r o s ro ((r.(start_) + ro) mod capacity s) out = Returns (status, s', x, y, z) ∧
    failed status = true ∧ (∃ h a b, status = v.(vmo_read_status) h a b) ∧ copies r ro hi s s') ∨
  (∃ s' new, copy_request v r o s ro ((r.(start_) + ro) mod capacity s) out =
      Returns (ZX_OK, s', hi, (r.(start_) + hi) mod capacity s, out ++ new) ∧ copies r ro hi s s' ∧
    flat_map (written_from_buffer s'.(buffer_)) new = written_from_vmos v o ∧ Forall (out_ok s r ro hi) new).
Proof.
  intros Hr (Ht & Hv & Hd & Hl & Hvl & Hdl) Hro Hfit. cbn zeta. pose proof Hr as [Hres Hcap Hst Hlen].
  unfold copy_request. rewrite Ht. set (p := (start_ r + ro) mod capacity s).
  assert (0 ≤ p < capacity s) as Hp by (apply Z.mod_pos_bound; lia). rewrite bool_decide_true by done.
  unfold ZX_DEBUG_ASSERT. unwrap. set (len := Operations.length_ (u_op o)) in *. ztest. cbn [mbind outcome_bind].
  destruct (Z.leb_spec (p + len) (capacity s)) as [Hc|Hc].
  - rewrite Z.min_l by lia. unwrap. ztest. cbn [negb mbind outcome_bind].
    pose proof (read_to_ok v s r ro (vmo o) (vmo_offset (u_op o)) len Hr Hro Hl Hfit Hv Hvl Hc) as H. cbn zeta in H.
    destruct (failed (vmo_read_status v _ _ _)) eqn:Ef.
    + left. rewrite H. cbn [mbind outcome_bind]. rewrite Ef. eexists _, _, _, _, _. split; [done|]. split_and!; [done|eauto|apply copies_refl].
    + right. destruct H as (s' & E & Hcp & Hw). rewrite E. cbn [mbind outcome_bind]. rewrite failed_ok.
      exists s', [piece s p (dev_offset (u_op o)) len]. split_and!; [|done| |].
      * rewrite (copies_vmoid _ _ _ _ _ Hcp), (copies_capacity _ _ _ _ _ Hcp). unfold p. rewrite Zplus_mod_idemp_l, Z.add_assoc. done.
      * cbn [flat_map]. rewrite app_nil_r. by apply piece_written.
      * apply Forall_singleton. by apply piece_ok.
  - set (l1 := capacity s - p). set (l2 := len - l1). rewrite Z.min_r by lia. unwrap. ztest. cbn [negb mbind outcome_bind].
    assert ((start_ r + (ro + l1)) mod capacity s = 0) as Hz.
    { rewrite Z.add_assoc, <- (Zplus_mod_idemp_l (start_ r + ro)). fold p. replace (p + l1) with (capacity s) by (unfold l1; lia). apply Z_mod_same_full. }
    assert (p + l1 ≤ capacity s) as Hc1 by (unfold l1; lia).
    pose proof (read_to_ok v s r ro (vmo o) (vmo_offset (u_op o)) l1 Hr Hro ltac:(lia) ltac:(lia) Hv ltac:(lia) Hc1) as H. cbn zeta in H.
    destruct (failed (vmo_read_status v _ _ _)) eqn:Ef.
    { left. rewrite H. cbn [mbind outcome_bind]. rewrite Ef. eexists _, _, _, _, _. split; [done|]. split_and!; [done|eauto|apply copies_refl]. }
    destruct H as (s1 & E & Hcp & Hw). rewrite E. cbn [mbind outcome_bind]. rewrite failed_ok. unwrap.
    pose proof (copies_capacity _ _ _ _ _ Hcp) as Hcap1. pose proof (copies_reservation _ _ _ _ _ Hcp Hr) as Hr1. rewrite Hcap1.
    fold l2. ztest. cbn [mbind outcome_bind].
    pose proof (read_to_ok v s1 r (ro + l1) (vmo o) (vmo_offset (u_op o) + l1) l2 Hr1 ltac:(lia) ltac:(lia) ltac:(lia) ltac:(lia) ltac:(lia)) as H.
    rewrite Hcap1, Hz in H. specialize (H ltac:(lia)). cbn zeta in H.
    destruct (failed (vmo_read_status v (vmo o) ((vmo_offset (u_op o) + l1) * kBlobfsBlockSize) (l2 * kBlobfsBlockSize))) eqn:Ef2.
    { left. rewrite H. cbn [mbind outcome_bind]. rewrite Ef2. eexists _, _, _, _, _. split; [done|]. split_and!; [done|eauto|].
      eapply copies_trans; [|exact Hcp|apply copies_refl]. lia. }
    destruct H as (s2 & E2 & Hcp2 & Hw2). rewrite E2. cbn [mbind outcome_bind]. rewrite failed_ok. unwrap. right.
    replace (ro + l1 + l2) with (ro + len) in * by (unfold l2; lia).
    exists s2, [piece s p (dev_offset (u_op o)) l1; piece s1 0 (dev_offset (u_op o) + l1) l2].
    pose proof (piece_ok s r ro (dev_offset (u_op o)) l1 Hr Hro ltac:(lia) Hc1) as Ho1. fold p in Ho1.
    pose proof (piece_ok s1 r (ro + l1) (dev_offset (u_op o) + l1) l2 Hr1 ltac:(lia) ltac:(lia)) as Ho2.
    rewrite Hcap1, Hz in Ho2. specialize (Ho2 ltac:(lia)). replace (ro + l1 + l2) with (ro + len) in * by (unfold l2; lia). split_and!.
    + rewrite (copies_vmoid _ _ _ _ _ Hcp2), (copies_capacity _ _ _ _ _ Hcp2), Hcap1. rewrite <- app_assoc. cbn [app].
      unfold piece. rewrite (copies_vmoid _ _ _ _ _ Hcp). do 3 f_equal.
      replace (p + l1) with (capacity s) by (unfold l1; lia). rewrite Z_mod_same_full. unwrap.
      replace (ro + len) with (ro + l1 + l2) by (unfold l2; lia). by rewrite (Z.add_assoc (start_ r)), <- (Zplus_mod_idemp_l (start_ r + _)), Hz.
    + eapply copies_trans; [|exact Hcp|exact Hcp2]. lia.
    + cbn [flat_map]. rewrite app_nil_r. rewrite (piece_written v s1 _ 0 (vmo o) (vmo_offset (u_op o) + l1)) by done.
      rewrite (written_stable s s1 s2 r ro (ro + l1) (ro + len)) by (done || lia).
      rewrite (piece_written v s _ p (vmo o) (vmo_offset (u_op o))) by done.
      unfold written_from_vmos. fold len. replace len with (l1 + l2) by (unfold l2; lia). rewrite map_seqZ_split by lia.
      f_equal. apply map_ext. intros i. by rewrite !Z.add_assoc.
    + apply Forall_cons. split; [|apply Forall_singleton].
      * eapply out_ok_mono; [done|done| | |exact Ho1]; lia.
      * eapply out_ok_mono; [..|exact Ho2]; [eapply copies_vmoid, Hcp|done|lia|lia].
Qed.

(** ** All the operations *)

Definition blocks (ops : list UnbufferedOperation) : Z := foldr (λ o t, o.(u_op).(Operations.length_) + t) 0 ops.

Lemma op_blocks_nonneg ops : Forall copy_op_ok ops → 0 ≤ blocks ops.
Proof. induction 1 as [|o ops (_ & _ & _ & ? & _) _ IH]; cbn; [done|]. unfold blocks in IH. lia. Qed.

Lemma copy_loop_ok (v : Vmos B) r ops s ro out :
  reservation_ok s r → Forall copy_op_ok ops → 0 ≤ ro → ro + blocks ops ≤ r.(length_) →
  ∃ status s' out', copy_loop v r ops s ro ((r.(start_) + ro) mod capacity s) out = Returns (status, s', out') ∧
    copies r ro (ro + blocks ops) s s' ∧
    if failed status then ∃ h a b, status = v.(vmo_read_status) h a b
    else ∃ new, out' = out ++ new ∧ flat_map (written_from_buffer s'.(buffer_)) new = flat_map (written_from_vmos v) ops ∧
      Forall (out_ok s r ro (ro + blocks ops)) new.
Proof.
  intros Hr Hops. revert s ro out Hr. induction Hops as [|o ops Ho Hops IH]; intros s ro out Hr Hro Hfit; cbn [copy_loop].
  { eexists _, _, _. split; [done|]. split; [apply copies_refl|]. rewrite failed_ok. exists []. by rewrite app_nil_r. }
  pose proof (op_blocks_nonneg _ Hops). pose proof Ho as (_ & _ & _ & Hl & _). cbn [blocks foldr] in *. fold (blocks ops) in *.
  pose proof Hr as [_ Hcap _ Hlen].
  destruct (copy_request_ok v r o s ro out Hr Ho Hro ltac:(lia)) as [(status & s' & x & y & z & E & Hf & Hst & Hcp)|(s1 & new & E & Hcp & Hw & Hok)];
    rewrite E; cbn [mbind outcome_bind].
  - rewrite Hf. exists status, s', z. split; [done|]. split; [|by rewrite Hf]. eapply copies_trans; [|exact Hcp|apply copies_refl]. lia.
  - rewrite failed_ok. pose proof (copies_capacity _ _ _ _ _ Hcp) as Hc. rewrite <- Hc.
    destruct (IH s1 (ro + Operations.length_ (u_op o)) (out ++ new) (copies_reservation _ _ _ _ _ Hcp Hr) ltac:(lia) ltac:(lia))
      as (status & s' & out' & E' & Hcp' & Hres). rewrite E', Z.add_assoc. exists status, s', out'. split; [done|].
    split; [eapply copies_trans; [|exact Hcp|exact Hcp']; lia|]. destruct (failed status); [done|].
    destruct Hres as (new' & -> & Hw' & Hok'). exists (new ++ new'). rewrite app_assoc. split; [done|]. rewrite flat_map_app. cbn [flat_map]. split.
    + rewrite Hw'. f_equal. rewrite <- Hw. eapply flat_written_stable; [exact Hok|done|lia| | |exact Hcp']; lia.
    + apply Forall_app. split; (eapply Forall_impl; [eassumption|]; intros b Hb; eapply out_ok_mono; [..|exact Hb]; try done; try lia).
      eapply copies_vmoid, Hcp.
Qed.

End copy.

(** ** Claims *)

(** [CopyRequests], into a reservation that has room for the operations, returns, and changes
    nothing in the ring buffer but the blocks [offset, offset + BlockCount) of the reservation. Either a
    read of a VMO failed and its status is returned, with no output; or it returns [ZX_OK], and the
    operations of the output write to the device, from the buffer, the same data at the same
    blocks in the same order as the operations of the input from their VMOs, although an operation
    that meets the end of the buffer is split in two; each is a write of one or more blocks inside
    the buffer, within the reservation, with the VMO of the buffer. *)
Theorem copy_requests_exact {B : Type} (v : Vmos B) (s : RingBufferState B) r ops offset :
  reservation_ok s r → Forall copy_op_ok ops → 0 ≤ offset → offset + blocks ops ≤ r.(length_) →
  ∃ status s' out, CopyRequests v s r ops offset = Returns (status, s', out) ∧
    s' = with_buffer s s'.(buffer_) ∧ length s'.(buffer_) = length s.(buffer_) ∧
    (∀ j, ¬ window (capacity s) r.(start_) offset (offset + blocks ops) (Z.of_nat j) → s'.(buffer_) !! j = s.(buffer_) !! j) ∧
    match out with
    | None => status ≠ ZX_OK ∧ ∃ h a b, status = v.(vmo_read_status) h a b
    | Some out => status = ZX_OK ∧
      flat_map (written_from_buffer s'.(buffer_)) out = flat_map (written_from_vmos v) ops ∧
      Forall (out_ok s r offset (offset + blocks ops)) out
    end.
Proof.
  intros Hr Hops Ho Hfit. pose proof Hr as [Hres Hcap Hst Hlen]. pose proof (op_blocks_nonneg _ Hops).
  unfold CopyRequests. rewrite Hres, BlockCount_sum. fold (blocks ops). unfold ZX_DEBUG_ASSERT, ZX_ASSERT. unwrap. ztest. cbn [negb mbind outcome_bind].
  destruct (copy_loop_ok v r ops s offset [] Hr Hops Ho Hfit) as (status & s' & out & -> & [Hrest Hlb Hframe] & Hcase). cbn [mbind outcome_bind].
  eexists _, _, _. split; [done|]. split_and!; [done|done|done|]. destruct (failed status) eqn:Ef.
  - split; [by apply failed_spec|done].
  - destruct Hcase as (new & -> & Hw & Hok). split_and!; [|done|done]. destruct (decide (status = ZX_OK)) as [|Hne]; [done|].
    apply failed_spec in Hne. congruence.
Qed.

(** A VMO whose block at byte [b] is the number of the block, and that can be read everywhere. *)
Definition counting : Vmos Z := {| vmo_block := λ h b, h * 1000 + b / kBlobfsBlockSize; vmo_read_status := λ _ _ _, ZX_OK |}.

