(* ===== verification/WriteTxn.v ===== *)
(** * Write transactions, buffers and the write-back queue
      (ulib/blobfs/write-txn.cpp, buffer.cpp, writeback-work.cpp, writeback-queue.cpp)

    A transaction is a list of operations on VMOs; a work is a transaction with
    callbacks; a buffer holds the data of transactions on their way to the device; the
    write-back queue writes works to the device one after the other. *)

From S2P Require Import Prelude RawBitmap MerkleTree Format Superblock Operations RingBuffer.

(** ** Transactions *)

Definition VMOID_INVALID : Z := 0.

Record WriteTxn := { vmoid_ : Z; operations_ : list UnbufferedOperation; block_count_ : Z }.

Definition NewWriteTxn : WriteTxn := {| vmoid_ := VMOID_INVALID; operations_ := []; block_count_ := 0 |}.

Definition IsBuffered (t : WriteTxn) : bool := negb (t.(vmoid_) =? VMOID_INVALID).

Definition CheckBuffer (t : WriteTxn) (vmoid : Z) : bool := t.(vmoid_) =? vmoid.

Definition with_length (o : UnbufferedOperation) (len : Z) : UnbufferedOperation := {|
  vmo := o.(vmo);
  u_op := {| type := o.(u_op).(type); vmo_offset := o.(u_op).(vmo_offset); dev_offset := o.(u_op).(dev_offset);
             Operations.length_ := len |} |}.

(** The operation that takes the new blocks and how many blocks that adds, if there is one. *)
Fixpoint enqueue_loop (ops : list UnbufferedOperation) (h relative_block absolute_block nblocks : Z)
    : option (list UnbufferedOperation * Z) :=
  match ops with
  | [] => None
  | o :: ops =>
    let next :=
      match enqueue_loop ops h relative_block absolute_block nblocks with
      | Some (ops, added) => Some (o :: ops, added)
      | None => None
      end in
    let len := o.(u_op).(Operations.length_) in
    if negb (o.(vmo) =? h) then next
    else if o.(u_op).(vmo_offset) =? relative_block then
      Some (if len <? nblocks then (with_length o nblocks :: ops, nblocks ⊟ len) else (o :: ops, 0))
    else if (o.(u_op).(vmo_offset) ⊞ len =? relative_block) && (o.(u_op).(dev_offset) ⊞ len =? absolute_block) then
      Some (with_length o (len ⊞ nblocks) :: ops, nblocks)
    else next
  end.

Definition Enqueue (t : WriteTxn) (h relative_block absolute_block nblocks : Z) : outcome WriteTxn :=
  _ ← ZX_DEBUG_ASSERT (negb (h =? ZX_HANDLE_INVALID));
  _ ← ZX_DEBUG_ASSERT (negb (IsBuffered t));
  Returns
    match enqueue_loop t.(operations_) h relative_block absolute_block nblocks with
    | Some (ops, added) => {| vmoid_ := t.(vmoid_); operations_ := ops; block_count_ := t.(block_count_) ⊞ added |}
    | None =>
      {| vmoid_ := t.(vmoid_);
         operations_ := t.(operations_) ++
           [{| vmo := h; u_op := {| type := kWrite; vmo_offset := relative_block; dev_offset := absolute_block;
                                    Operations.length_ := nblocks |} |}];
         block_count_ := t.(block_count_) ⊞ nblocks |}
    end.

Definition BlkStart (t : WriteTxn) : outcome Z :=
  _ ← ZX_DEBUG_ASSERT (IsBuffered t);
  match t.(operations_) with
  | [] => Aborts
  | o :: _ => Returns o.(u_op).(vmo_offset)
  end.

Definition BlkCount (t : WriteTxn) : Z := t.(block_count_).

Definition SetBuffer (t : WriteTxn) (vmoid : Z) : outcome WriteTxn :=
  _ ← ZX_DEBUG_ASSERT ((t.(vmoid_) =? VMOID_INVALID) || (t.(vmoid_) =? vmoid));
  _ ← ZX_DEBUG_ASSERT (negb (vmoid =? VMOID_INVALID));
  Returns {| vmoid_ := vmoid; operations_ := t.(operations_); block_count_ := t.(block_count_) |}.

(** [block_count_] is kept. *)
Definition Txn_Reset (t : WriteTxn) : WriteTxn :=
  {| vmoid_ := VMOID_INVALID; operations_ := []; block_count_ := t.(block_count_) |}.

(** A request to the device, in blocks of the device. *)
Record block_fifo_request := { req_vmoid : Z; req_vmo_offset : Z; req_dev_offset : Z; req_length : Z }.

(** [k] is [kDiskBlocksPerBlobfsBlock]. *)
Fixpoint flush_requests (k vmoid : Z) (ops : list UnbufferedOperation) : outcome (list block_fifo_request) :=
  match ops with
  | [] => Returns []
  | o :: ops =>
    let length := o.(u_op).(Operations.length_) ⊠ k in
    _ ← ZX_ASSERT (length <? UINT32_MAX);
    rs ← flush_requests k vmoid ops;
    Returns ({| req_vmoid := vmoid; req_vmo_offset := o.(u_op).(vmo_offset) ⊠ k;
                req_dev_offset := o.(u_op).(dev_offset) ⊠ k; req_length := length |} :: rs)
  end.

(** The requests sent, and the transaction after. *)
Definition Flush (k : Z) (t : WriteTxn) : outcome (list block_fifo_request * WriteTxn) :=
  _ ← ZX_ASSERT (IsBuffered t);
  rs ← flush_requests k t.(vmoid_) t.(operations_);
  Returns (rs, NewWriteTxn).

(** ** Works *)

(** [C] is the type of callbacks; a chain of them is called from the first to the last. *)
Record WritebackWork (C : Type) := { transaction_ : WriteTxn; ready_cb_ : option C; sync_cb_ : list C }.
Arguments transaction_ {C}.
Arguments ready_cb_ {C}.
Arguments sync_cb_ {C}.

Section works.
Context {C : Type}.

Definition NewWork : WritebackWork C := {| transaction_ := NewWriteTxn; ready_cb_ := None; sync_cb_ := [] |}.

Definition with_transaction (w : WritebackWork C) (t : WriteTxn) : WritebackWork C :=
  {| transaction_ := t; ready_cb_ := w.(ready_cb_); sync_cb_ := w.(sync_cb_) |}.

(** The callbacks to call, with the status. *)
Definition MarkCompleted (w : WritebackWork C) : WritebackWork C * list C :=
  ({| transaction_ := Txn_Reset w.(transaction_); ready_cb_ := None; sync_cb_ := [] |}, w.(sync_cb_)).

(** [call] answers the ready callback. *)
Definition IsReady (call : C → bool) (w : WritebackWork C) : bool * WritebackWork C :=
  match w.(ready_cb_) with
  | None => (true, w)
  | Some cb =>
    if call cb then (true, {| transaction_ := w.(transaction_); ready_cb_ := None; sync_cb_ := w.(sync_cb_) |})
    else (false, w)
  end.

Definition SetReadyCallback (w : WritebackWork C) (cb : C) : outcome (WritebackWork C) :=
  _ ← ZX_DEBUG_ASSERT (match w.(ready_cb_) with None => true | Some _ => false end);
  Returns {| transaction_ := w.(transaction_); ready_cb_ := Some cb; sync_cb_ := w.(sync_cb_) |}.

Definition SetSyncCallback (w : WritebackWork C) (cb : C) : WritebackWork C :=
  {| transaction_ := w.(transaction_); ready_cb_ := w.(ready_cb_); sync_cb_ := cb :: w.(sync_cb_) |}.

End works.

(** ** Buffers *)

(** The handle and the contents of the VMO, and the part of it that is in use. *)
Record Buffer := { b_vmo : Z; b_vmoid : Z; b_data : list block; b_start : Z; b_length : Z }.

Definition b_capacity (b : Buffer) : Z := Z.of_nat (length b.(b_data)).

Definition with_used (b : Buffer) (start length : Z) : Buffer :=
  {| b_vmo := b.(b_vmo); b_vmoid := b.(b_vmoid); b_data := b.(b_data); b_start := start; b_length := length |}.

Definition with_data (b : Buffer) (data : list block) : Buffer :=
  {| b_vmo := b.(b_vmo); b_vmoid := b.(b_vmoid); b_data := data; b_start := b.(b_start); b_length := b.(b_length) |}.

Definition IsSpaceAvailable (b : Buffer) (blocks : Z) : outcome bool :=
  _ ← ZX_ASSERT (blocks <=? b_capacity b);
  Returns (b.(b_length) ⊞ blocks <=? b_capacity b).

(** [MutableData] and what is at the address. *)
Definition BlockAt (b : Buffer) (index : Z) : outcome block :=
  _ ← ZX_DEBUG_ASSERT (index <? b_capacity b);
  array_get b.(b_data) index.

Definition SetBlockAt (b : Buffer) (index : Z) (x : block) : outcome Buffer :=
  _ ← ZX_DEBUG_ASSERT (index <? b_capacity b);
  Returns (with_data b (<[Z.to_nat index := x]> b.(b_data))).

(** [zx_vmo_read] of [len] blocks to block [index] of the buffer; the failure of the read is asserted not to happen. *)
Definition read_blocks (v : Vmos block) (b : Buffer) (index h vmo_offset len : Z) : outcome Buffer :=
  _ ← ZX_DEBUG_ASSERT (index <? b_capacity b);
  _ ← ZX_ASSERT (negb (failed (v.(vmo_read_status) h (vmo_offset ⊠ kBlobfsBlockSize) (len ⊠ kBlobfsBlockSize))));
  let read := (len ⊠ kBlobfsBlockSize) / kBlobfsBlockSize in
  _ ← ZX_ASSERT (index + read <=? b_capacity b);
  let bs := map (λ i, v.(vmo_block) h (vmo_offset ⊠ kBlobfsBlockSize + i * kBlobfsBlockSize)) (seqZ 0 read) in
  Returns (with_data b (write_blocks b.(b_data) (Z.to_nat index) bs)).

Definition write_op (h voff doff len : Z) : UnbufferedOperation :=
  {| vmo := h; u_op := {| type := kWrite; vmo_offset := voff; dev_offset := doff; Operations.length_ := len |} |}.

(** One operation is copied, and replaced by one or two. *)
Definition copy_op (v : Vmos block) (b : Buffer) (o : UnbufferedOperation) : outcome (Buffer * list UnbufferedOperation) :=
  _ ← ZX_DEBUG_ASSERT (negb (o.(vmo) =? ZX_HANDLE_INVALID));
  _ ← ZX_DEBUG_ASSERT (bool_decide (o.(u_op).(type) = kWrite));
  let vmo_offset := o.(u_op).(vmo_offset) in
  let dev_offset := o.(u_op).(dev_offset) in
  let vmo_len := o.(u_op).(Operations.length_) in
  _ ← ZX_DEBUG_ASSERT (0 <? vmo_len);
  let capacity_ := b_capacity b in
  _ ← ZX_ASSERT (negb (capacity_ =? 0));  (* the division *)
  let buf_offset := (b.(b_start) ⊞ b.(b_length)) mod capacity_ in
  let buf_len := if capacity_ <? buf_offset ⊞ vmo_len then capacity_ ⊟ buf_offset else vmo_len in
  _ ← ZX_DEBUG_ASSERT (0 <? buf_len);
  _ ← ZX_DEBUG_ASSERT (buf_len <=? vmo_len);
  _ ← ZX_DEBUG_ASSERT (buf_len <? capacity_);
  _ ← ZX_DEBUG_ASSERT (negb (o.(vmo) =? b.(b_vmo)));
  _ ← ZX_DEBUG_ASSERT (if b.(b_start) <=? buf_offset then b.(b_start) <? buf_offset ⊞ buf_len
                       else buf_offset ⊞ buf_len <=? b.(b_start));
  b ← read_blocks v b buf_offset o.(vmo) vmo_offset buf_len;
  let b := with_used b b.(b_start) (b.(b_length) ⊞ buf_len) in
  let first := {| vmo := ZX_HANDLE_INVALID;
                  u_op := {| type := o.(u_op).(type); vmo_offset := buf_offset; dev_offset := dev_offset;
                             Operations.length_ := buf_len |} |} in
  if negb (buf_len =? vmo_len) then
    let vmo_offset := vmo_offset ⊞ buf_len in
    let dev_offset := dev_offset ⊞ buf_len in
    let buf_len' := vmo_len ⊟ buf_len in
    _ ← ZX_DEBUG_ASSERT (0 <? buf_len');
    _ ← ZX_DEBUG_ASSERT (if b.(b_start) =? 0 then b.(b_start) <? buf_len' else buf_len' <=? b.(b_start));
    b ← read_blocks v b 0 o.(vmo) vmo_offset buf_len';
    let b := with_used b b.(b_start) (b.(b_length) ⊞ buf_len') in
    _ ← ZX_DEBUG_ASSERT (vmo_len =? buf_len ⊞ buf_len');
    Returns (b, [first; write_op o.(vmo) 0 dev_offset buf_len'])
  else Returns (b, [first]).

Fixpoint copy_ops (v : Vmos block) (b : Buffer) (ops : list UnbufferedOperation)
    : outcome (Buffer * list UnbufferedOperation) :=
  match ops with
  | [] => Returns (b, [])
  | o :: ops =>
    p ← copy_op v b o;
    let '(b, os) := (p : Buffer * list UnbufferedOperation) in
    p ← copy_ops v b ops;
    let '(b, os') := (p : Buffer * list UnbufferedOperation) in
    Returns (b, os ++ os')
  end.

Definition CopyTransaction (v : Vmos block) (b : Buffer) (t : WriteTxn) : outcome (Buffer * WriteTxn) :=
  _ ← ZX_DEBUG_ASSERT (negb (IsBuffered t));
  p ← copy_ops v b t.(operations_);
  let '(b, os) := (p : Buffer * list UnbufferedOperation) in
  t ← SetBuffer {| vmoid_ := t.(vmoid_); operations_ := os; block_count_ := t.(block_count_) |} b.(b_vmoid);
  Returns (b, t).

Definition AddTransaction (b : Buffer) (start disk_start length : Z) (t : WriteTxn) : outcome WriteTxn :=
  _ ← ZX_DEBUG_ASSERT (0 <? length);
  _ ← ZX_DEBUG_ASSERT (start ⊞ length <=? b_capacity b);
  Enqueue t b.(b_vmo) start disk_start length.

Definition VerifyTransaction (b : Buffer) (t : WriteTxn) : outcome bool :=
  if CheckBuffer t b.(b_vmoid) then
    _ ← (if 0 <? BlkCount t then
           s ← BlkStart t;
           _ ← ZX_ASSERT (s =? b.(b_start));
           ZX_ASSERT (BlkCount t <=? b.(b_length))
         else Returns tt);
    Returns true
  else Returns false.

Definition ValidateTransaction (b : Buffer) (t : WriteTxn) : outcome WriteTxn :=
  if IsBuffered t then
    _ ← ZX_DEBUG_ASSERT (CheckBuffer t b.(b_vmoid));
    Returns t
  else
    _ ← ZX_DEBUG_ASSERT (forallb (λ o, o.(vmo) =? b.(b_vmo)) t.(operations_));
    SetBuffer {| vmoid_ := t.(vmoid_);
                 operations_ := map (λ o, {| vmo := ZX_HANDLE_INVALID; u_op := o.(u_op) |}) t.(operations_);
                 block_count_ := t.(block_count_) |} b.(b_vmoid).

Definition FreeSpace (b : Buffer) (blocks : Z) : outcome Buffer :=
  _ ← ZX_DEBUG_ASSERT (blocks <=? b.(b_length));
  _ ← ZX_ASSERT (negb (b_capacity b =? 0));  (* the division *)
  Returns (with_used b ((b.(b_start) ⊞ blocks) mod b_capacity b) (b.(b_length) ⊟ blocks)).

Definition FreeAllSpace (b : Buffer) : outcome Buffer := FreeSpace b b.(b_length).

Definition ReserveIndex (b : Buffer) : outcome (Z * Buffer) :=
  _ ← ZX_ASSERT (negb (b_capacity b =? 0));  (* the division *)
  Returns ((b.(b_start) ⊞ b.(b_length)) mod b_capacity b, with_used b b.(b_start) (b.(b_length) ⊞ 1)).

(** ** The device *)

(** Blocks of the device per block of the file system, the status of each transaction, and
    what is on the device after one that failed. *)
Record Device := { per_block : Z; device_status : nat → zx_status; device_torn : nat → list block → list block }.

Record Store := { disk : list block; transactions : nat }.

(** What a request writes: blocks and their contents, from the VMO [data]. *)
Definition request_writes (k : Z) (data : list block) (r : block_fifo_request) : list (Z * block) :=
  map (λ i, (r.(req_dev_offset) / k + i, default zero_block (data !! Z.to_nat (r.(req_vmo_offset) / k + i))))
    (seqZ 0 (r.(req_length) / k)).

Definition write_all (disk : list block) (ws : list (Z * block)) : list block :=
  foldl (λ d w, <[Z.to_nat (fst w) := snd w]> d) disk ws.

(** [Transaction]: [vmos] are the VMOs that are attached to the device. *)
Definition Transaction (dev : Device) (vmos : Z → list block) (st : Store) (rs : list block_fifo_request) : zx_status * Store :=
  let status := dev.(device_status) st.(transactions) in
  let disk' :=
    if failed status then dev.(device_torn) st.(transactions) st.(disk)
    else write_all st.(disk) (flat_map (λ r, request_writes dev.(per_block) (vmos r.(req_vmoid)) r) rs) in
  (status, {| disk := disk'; transactions := S st.(transactions) |}).

(** ** The write-back queue *)

Inductive WritebackState := kInit | kReady | kRunning | kReadOnly | kComplete.

#[export] Instance WritebackState_eq_dec : EqDecision WritebackState.
Proof. solve_decision. Defined.

Record WritebackQueue (C : Type) := { buffer_ : Buffer; work_queue_ : list (WritebackWork C); state_ : WritebackState }.
Arguments buffer_ {C}.
Arguments work_queue_ {C}.
Arguments state_ {C}.

Section queue.
Context {C : Type}.
Implicit Types q : WritebackQueue C.

Definition IsReadOnly q : bool := bool_decide (q.(state_) = kReadOnly).

(** [None] when [EnsureSpaceLocked] has to wait; the work is pushed in any case. *)
Definition Queue_Enqueue (v : Vmos block) q (w : WritebackWork C) : outcome (option (zx_status * WritebackQueue C)) :=
  if IsReadOnly q then
    Returns (Some (ZX_ERR_BAD_STATE, {| buffer_ := q.(buffer_); work_queue_ := q.(work_queue_) ++ [w]; state_ := q.(state_) |}))
  else if negb (IsBuffered w.(transaction_)) then
    _ ← ZX_DEBUG_ASSERT (bool_decide (q.(state_) = kRunning));
    space ← IsSpaceAvailable q.(buffer_) (BlkCount w.(transaction_));
    if negb (space : bool) then Returns None
    else
      p ← CopyTransaction v q.(buffer_) w.(transaction_);
      let '(b, t) := (p : Buffer * WriteTxn) in
      Returns (Some (ZX_OK, {| buffer_ := b; work_queue_ := q.(work_queue_) ++ [with_transaction w t]; state_ := q.(state_) |}))
  else Returns (Some (ZX_OK, {| buffer_ := q.(buffer_); work_queue_ := q.(work_queue_) ++ [w]; state_ := q.(state_) |})).

(** One round of the loop of [WritebackThread]: the queue and the device after, and the callbacks
    to call with their status; [None] when there is no work that is ready. [others] are the
    VMOs other than the one of the buffer. *)
Definition WritebackThread (dev : Device) (others : Z → list block) (call : C → bool) q (st : Store)
    : outcome (option (WritebackQueue C * Store * zx_status * list C)) :=
  match q.(work_queue_) with
  | [] => Returns None
  | w :: rest =>
    let error := IsReadOnly q in
    let '(ready, w) := if error then (true, w) else IsReady call w in
    if negb ready then Returns None
    else
      our_buffer ← VerifyTransaction q.(buffer_) w.(transaction_);
      let blk_count := BlkCount w.(transaction_) in
      p ← (if error then Returns (ZX_ERR_BAD_STATE, st)
           else
             _ ← ZX_DEBUG_ASSERT (IsBuffered w.(transaction_));
             p ← Flush dev.(per_block) w.(transaction_);
             let '(rs, _) := (p : list block_fifo_request * WriteTxn) in
             let vmos id := if id =? q.(buffer_).(b_vmoid) then q.(buffer_).(b_data) else others id in
             Returns (Transaction dev vmos st rs));
      let '(status, st) := (p : zx_status * Store) in
      let state := if failed status then kReadOnly else q.(state_) in
      b ← (if our_buffer : bool then FreeSpace q.(buffer_) blk_count else Returns q.(buffer_));
      Returns (Some ({| buffer_ := b; work_queue_ := rest; state_ := state |}, st, status, snd (MarkCompleted w)))
  end.

End queue.
