(* ===== verification/Writeback.v ===== *)
(** * The write-back queue: what reaches the device *)

From S2P Require Import Prelude RawBitmap MerkleTree Format Superblock Operations RingBuffer RingCopy WriteTxn.

(** ** What operations write *)

(** From the VMO of the buffer, and from the VMOs of the operations. *)
Definition op_writes (data : list block) (o : UnbufferedOperation) : list (Z * block) :=
  map (λ i, (o.(u_op).(dev_offset) + i, default zero_block (data !! Z.to_nat (o.(u_op).(vmo_offset) + i))))
    (seqZ 0 o.(u_op).(Operations.length_)).

Definition vmo_writes (v : Vmos block) (o : UnbufferedOperation) : list (Z * block) :=
  map (λ i, (o.(u_op).(dev_offset) + i, v.(vmo_block) o.(vmo) ((o.(u_op).(vmo_offset) + i) * kBlobfsBlockSize)))
    (seqZ 0 o.(u_op).(Operations.length_)).

(** Offsets for which nothing overflows, in units of bytes and of device blocks. *)
Definition op_fits (o : UnbufferedOperation) : Prop :=
  o.(u_op).(type) = kWrite ∧ 0 ≤ o.(u_op).(vmo_offset) ∧ 0 ≤ o.(u_op).(dev_offset) ∧ 0 < o.(u_op).(Operations.length_) ∧
  o.(u_op).(vmo_offset) + o.(u_op).(Operations.length_) ≤ 2 ^ 40 ∧
  o.(u_op).(dev_offset) + o.(u_op).(Operations.length_) ≤ 2 ^ 40.

Definition device_fits (k cap : Z) : Prop := 0 < k ≤ 2 ^ 13 ∧ 0 < cap ∧ cap * k < UINT32_MAX.

Lemma flush_requests_ok k id ops data :
  0 < k ≤ 2 ^ 13 → Forall (λ o, op_fits o ∧ o.(u_op).(Operations.length_) * k < UINT32_MAX) ops →
  ∃ rs, flush_requests k id ops = Returns rs ∧ Forall (λ r, r.(req_vmoid) = id) rs ∧
    flat_map (request_writes k data) rs = flat_map (op_writes data) ops.
Proof.
  intros Hk H. unfold UINT32_MAX in *. induction H as [|o ops [(_ & Hv & Hd & Hl & Hvl & Hdl) Hlk] _ IH]; cbn [flush_requests]; [by eexists|].
  destruct IH as (rs & -> & Hid & Hw). assert (vmo_offset (u_op o) * k < 2 ^ 64 ∧ dev_offset (u_op o) * k < 2 ^ 64) as [? ?] by nia.
  unfold ZX_ASSERT, UINT32_MAX. unwrap. ztest. cbn [mbind outcome_bind]. eexists. split; [done|]. split; [by constructor|].
  cbn [flat_map]. rewrite Hw. f_equal. unfold request_writes, op_writes. cbn. rewrite !Z.div_mul by lia. done.
Qed.

(** ** Adding blocks to a transaction *)

(** The operation that takes the new blocks covers what it covered and the new blocks. *)
Lemma in_op_longer o len x : op_fits o → o.(u_op).(Operations.length_) ≤ len →
  in_op (with_length o len) x = in_op o x || in_op (write_op o.(vmo) o.(u_op).(vmo_offset) o.(u_op).(dev_offset) len) x.
Proof.
  intros (Ht & _) Hl. destruct x as [[[h t] v] d]. apply Bool.eq_iff_eq_true. rewrite orb_true_iff, !in_op_iff. cbn. rewrite Ht.
  split; [tauto|]. intros [(-> & -> & ? & ?)|?]; [|done]. split_and!; lia || done.
Qed.

Lemma in_op_follows o n x : op_fits o → 0 < n →
  let len := o.(u_op).(Operations.length_) in
  in_op (with_length o (len + n)) x = in_op o x || in_op (write_op o.(vmo) (o.(u_op).(vmo_offset) + len) (o.(u_op).(dev_offset) + len) n) x.
Proof.
  intros (Ht & _ & _ & Hl & _) Hn len. destruct x as [[[h t] v] d]. apply Bool.eq_iff_eq_true. rewrite orb_true_iff, !in_op_iff. cbn. rewrite Ht.
  split; [|intros [(-> & -> & ? & ?)|(-> & -> & ? & ?)]; split_and!; lia || done].
  intros (-> & -> & ? & ?). destruct (Z_lt_le_dec v (vmo_offset (u_op o) + len)); [left|right]; split_and!; lia || done.
Qed.

Lemma enqueue_loop_ok ops h rel abs n : Forall op_fits ops → op_fits (write_op h rel abs n) →
  Forall (λ o, o.(vmo) = h → o.(u_op).(vmo_offset) = rel → o.(u_op).(dev_offset) = abs) ops →
  match enqueue_loop ops h rel abs n with
  | Some (ops', added) => Forall op_fits ops' ∧ blocks ops' = blocks ops + added ∧ 0 ≤ added ≤ n ∧
      ∀ x, in_ops ops' x = in_ops ops x || in_op (write_op h rel abs n) x
  | None => True
  end.
Proof.
  intros Hops (_ & Hr & Ha & Hn & Hrn & Han) Hsame. cbn in *. induction Hops as [|o ops Ho Hops IH]; cbn [enqueue_loop]; [done|].
  apply Forall_cons in Hsame as [Hso Hsame]. specialize (IH Hsame). set (next := match enqueue_loop ops h rel abs n with Some _ => _ | None => None end).
  assert (match next with Some (ops', added) => Forall op_fits ops' ∧ blocks ops' = blocks (o :: ops) + added ∧ 0 ≤ added ≤ n ∧
      ∀ x, in_ops ops' x = in_ops (o :: ops) x || in_op (write_op h rel abs n) x | None => True end) as Hnext.
  { unfold next. destruct (enqueue_loop ops h rel abs n) as [[ops' added]|]; [|done]. destruct IH as (H1 & H2 & H3 & H4).
    split_and!; [by constructor|cbn [blocks foldr]; unfold blocks in *; lia|lia|lia|]. intros x. cbn. unfold in_ops in H4. rewrite H4. by rewrite orb_assoc. }
  pose proof Ho as (Ht & Hv & Hd & Hl & Hvl & Hdl). destruct (Z.eqb_spec (vmo o) h) as [<-|]; cbn [negb]; [|done].
  destruct (Z.eqb_spec (vmo_offset (u_op o)) rel) as [<-|Hne].
  - rewrite <- (Hso eq_refl eq_refl) in *. destruct (Z.ltb_spec (Operations.length_ (u_op o)) n).
    + unwrap. split_and!; [by repeat constructor|cbn [blocks foldr with_length u_op Operations.length_]; unfold blocks; lia|lia|lia|].
      intros x. cbn [in_ops existsb]. rewrite in_op_longer by (done || lia). btauto.
    + split_and!; [by constructor|lia|lia|lia|]. intros x. cbn [in_ops existsb].
      pose proof (in_op_longer (write_op (vmo o) (vmo_offset (u_op o)) (dev_offset (u_op o)) n) (Operations.length_ (u_op o)) x) as Hx.
      replace (with_length _ _) with o in Hx by (destruct o as [? []]; cbn in *; by subst). rewrite Hx; [cbn; btauto| |cbn; lia]. by repeat split.
  - unwrap. destruct (Z.eqb_spec (vmo_offset (u_op o) + Operations.length_ (u_op o)) rel) as [Er|]; [|done].
    destruct (Z.eqb_spec (dev_offset (u_op o) + Operations.length_ (u_op o)) abs) as [Ea|]; [|done]. cbn [andb]. subst rel abs.
    split_and!; [constructor; [repeat split; cbn; lia || done|done]|cbn [blocks foldr with_length u_op Operations.length_]; unfold blocks; lia|lia|lia|].
    intros x. cbn [in_ops existsb]. rewrite in_op_follows by done. btauto.
Qed.

(** ** Blocks of the buffer *)

(** The buffer, whose used part starts at [base], counted without going around. *)
Record buffer_ok (b : Buffer) (base : Z) : Prop := {
  bf_cap : 0 < b_capacity b ≤ 2 ^ 40;
  bf_base : 0 ≤ base;
  bf_start : b.(b_start) = base mod b_capacity b;
  bf_length : 0 ≤ b.(b_length) ≤ b_capacity b;
  bf_vmoid : b.(b_vmoid) ≠ VMOID_INVALID;
}.

(** Blocks [lo] to [hi], counted without going around, are all that changes. *)
Record changes (lo hi : Z) (data data' : list block) : Prop := {
  ch_length : length data' = length data;
  ch_frame : ∀ j, ¬ window (Z.of_nat (length data)) 0 lo hi (Z.of_nat j) → data' !! j = data !! j;
}.

(** An operation on blocks [lo] to [hi] of the buffer. *)
Definition op_in (cap lo hi : Z) (o : UnbufferedOperation) : Prop :=
  op_fits o ∧ o.(u_op).(vmo_offset) + o.(u_op).(Operations.length_) ≤ cap ∧
  ∀ i, 0 ≤ i < o.(u_op).(Operations.length_) → window cap 0 lo hi (o.(u_op).(vmo_offset) + i).

Lemma changes_refl lo hi data : changes lo hi data data.
Proof. done. Qed.

Lemma changes_trans lo mid hi d d' d'' : lo ≤ mid ≤ hi → changes lo mid d d' → changes mid hi d' d'' → changes lo hi d d''.
Proof.
  intros Hm [L1 F1] [L2 F2]. constructor; [congruence|]. intros j Hj. rewrite F2, F1; [done|contradict Hj|rewrite L1; contradict Hj];
    (eapply window_mono; [..|exact Hj]; lia).
Qed.

Lemma op_in_mono cap lo hi lo' hi' o : lo ≤ lo' → hi' ≤ hi → op_in cap lo' hi' o → op_in cap lo hi o.
Proof. intros ? ? (? & ? & H). split_and!; [done|done|]. intros i Hi. eapply window_mono; [..|by apply H]; done. Qed.

(** What an operation writes is not touched by changes elsewhere. *)
Lemma op_writes_stable cap lo mid hi data data' os :
  Forall (op_in cap lo mid) os → cap = Z.of_nat (length data) → 0 < cap → lo ≤ mid ≤ hi → hi - lo ≤ cap →
  changes mid hi data data' → flat_map (op_writes data') os = flat_map (op_writes data) os.
Proof.
  intros H -> Hc Hm Hh [_ Hf]. induction H as [|o os (Hfit & Hb & Hw) _ IH]; [done|]. cbn. rewrite IH. f_equal. unfold op_writes.
  apply map_ext_in. intros i Hi%list_elem_of_In%elem_of_seqZ. do 2 f_equal. destruct Hfit as (_ & Hv & _). apply Hf.
  rewrite Z2Nat.id by lia. eapply window_apart; [done|exact Hm|done|]. apply Hw. lia.
Qed.

(** ** Copying a transaction *)

(** The VMO of the operation can be read. *)
Definition readable (v : Vmos block) (o : UnbufferedOperation) : Prop := ∀ a n, v.(vmo_read_status) o.(vmo) a n = ZX_OK.

Lemma read_blocks_ok (v : Vmos block) b base h off len p :
  buffer_ok b base → 0 ≤ off → 0 < len → off + len ≤ 2 ^ 40 → (∀ a n, v.(vmo_read_status) h a n = ZX_OK) →
  0 ≤ p → p mod b_capacity b + len ≤ b_capacity b →
  ∃ data, read_blocks v b (p mod b_capacity b) h off len = Returns (with_data b data) ∧
    changes p (p + len) b.(b_data) data ∧
    ∀ i, 0 ≤ i < len → data !! Z.to_nat (p mod b_capacity b + i) = Some (v.(vmo_block) h ((off + i) * kBlobfsBlockSize)).
Proof.
  intros [Hcap Hb _ _ _] Ho Hl Hol Hread Hp Hfit. unfold read_blocks. rewrite Hread, failed_ok. unfold kBlobfsBlockSize in *. unwrap.
  rewrite Z.div_mul by lia. assert (0 ≤ p mod b_capacity b < b_capacity b) as Hpm by (apply Z.mod_pos_bound; lia).
  unfold ZX_DEBUG_ASSERT, ZX_ASSERT. ztest. cbn [negb mbind outcome_bind]. eexists. split; [done|]. set (bs := map _ _).
  assert (Z.of_nat (length bs) = len) as Hbs by (unfold bs; rewrite length_map, length_seqZ; lia). unfold b_capacity in *. split.
  - constructor; [apply length_write_blocks|]. intros j Hj. rewrite lookup_write_blocks by lia. destruct (decide _) as [Hd|]; [|done].
    destruct Hj. exists (p + (Z.of_nat j - p mod Z.of_nat (length (b_data b)))). split; [lia|].
    rewrite Z.add_0_l, <- Zplus_mod_idemp_l. etransitivity; [|symmetry; apply Z.mod_small]; lia.
  - intros i Hi. rewrite lookup_write_blocks by lia. rewrite decide_True by lia.
    replace (Z.to_nat (p mod _ + i) - Z.to_nat (p mod _))%nat with (Z.to_nat i) by lia. unfold bs. apply list_lookup_fmap_Some.
    exists i. split; [|apply lookup_seqZ; lia]. do 2 f_equal. lia.
Qed.

(** The operation for the blocks of one read. *)
Lemma copied_op cap p len h t dev :
  0 < cap ≤ 2 ^ 40 → 0 ≤ p → 0 < len → p mod cap + len ≤ cap → t = kWrite → 0 ≤ dev → dev + len ≤ 2 ^ 40 →
  op_in cap p (p + len) {| vmo := h; u_op := {| type := t; vmo_offset := p mod cap; dev_offset := dev; Operations.length_ := len |} |}.
Proof.
  intros Hc Hp Hl Hf Ht Hd Hdl. pose proof (Z.mod_pos_bound p cap). split_and!; cbn; [split_and!; cbn; [done|lia..]|done|].
  intros i Hi. exists (p + i). split; [lia|]. rewrite Z.add_0_l, <- Zplus_mod_idemp_l. etransitivity; [|symmetry; apply Z.mod_small]; lia.
Qed.

Lemma copied_writes (v : Vmos block) data p h h' t dev off len :
  (∀ i, 0 ≤ i < len → data !! Z.to_nat (p + i) = Some (v.(vmo_block) h ((off + i) * kBlobfsBlockSize))) →
  op_writes data {| vmo := h'; u_op := {| type := t; vmo_offset := p; dev_offset := dev; Operations.length_ := len |} |} =
    map (λ i, (dev + i, v.(vmo_block) h ((off + i) * kBlobfsBlockSize))) (seqZ 0 len).
Proof. intros H. unfold op_writes. cbn. apply map_ext_in. intros i Hi%list_elem_of_In%elem_of_seqZ. by rewrite H by lia. Qed.

(** Where the free part of the buffer starts, and how much of it is before the end. *)
Lemma free_part b base len : buffer_ok b base → 0 < len → b.(b_length) + len ≤ b_capacity b →
  let p := base + b.(b_length) in let cap := b_capacity b in
  (b.(b_start) ⊞ b.(b_length)) mod cap = p mod cap ∧ 0 ≤ p mod cap < cap ∧ 0 ≤ b.(b_start) < cap ∧
  (b.(b_start) ≤ p mod cap ∨ p mod cap + len ≤ b.(b_start)) ∧
  (cap < p mod cap + len → b.(b_start) ≤ p mod cap ∧ 0 < b.(b_start) ∧ p mod cap + len - cap ≤ b.(b_start)).
Proof.
  intros [Hc Hb Hst Hl _] Hlen Hfit. cbn zeta. pose proof (Z.mod_pos_bound base (b_capacity b) ltac:(lia)) as Hm. rewrite <- Hst in Hm.
  assert (base + b_length b = b_capacity b * (base / b_capacity b) + (b_start b + b_length b)) as Hp.
  { rewrite Hst. pose proof (Z.div_mod base (b_capacity b)). lia. }
  unwrap. rewrite Hp, (Z.add_comm (b_capacity b * _)), Z.mul_comm, Z.mod_add by lia.
  destruct (Z_lt_le_dec (b_start b + b_length b) (b_capacity b)) as [H|H].
  - rewrite Z.mod_small by lia. split_and!; lia.
  - replace (b_start b + b_length b) with (b_start b + b_length b - b_capacity b + 1 * b_capacity b) by lia.
    rewrite Z.mod_add, Z.mod_small by lia. split_and!; lia.
Qed.

(** The operations are on blocks [v] to [v'] of a buffer, counted without going around. *)
Fixpoint chained (cap v : Z) (ops : list UnbufferedOperation) (v' : Z) : Prop :=
  match ops with
  | [] => v = v'
  | o :: ops =>
    o.(u_op).(vmo_offset) = v mod cap ∧ op_fits o ∧ o.(u_op).(vmo_offset) + o.(u_op).(Operations.length_) ≤ cap ∧
    chained cap (v + o.(u_op).(Operations.length_)) ops v'
  end.

Lemma chained_le cap v ops v' : chained cap v ops v' → v ≤ v'.
Proof.
  revert v. induction ops as [|o ops IH]; intros v; cbn; [lia|]. intros (_ & (_ & _ & _ & Hl & _) & _ & H%IH). lia.
Qed.

Lemma chained_app cap v a v1 b v2 : chained cap v a v1 → chained cap v1 b v2 → chained cap v (a ++ b) v2.
Proof. revert v. induction a as [|o a IH]; intros v; cbn; [by intros ->|]. intros (? & ? & ? & H) Hb. split_and!; try done. by apply IH. Qed.

(** What copying operations gives: the buffer with their blocks at the end of the used part, and
    operations that write the same from there. *)
Definition copied (v : Vmos block) (b : Buffer) (base : Z) (ops : list UnbufferedOperation) (b' : Buffer) (os : list UnbufferedOperation) : Prop :=
  let p := base + b.(b_length) in
  ∃ data, b' = with_used (with_data b data) b.(b_start) (b.(b_length) + blocks ops) ∧
    changes p (p + blocks ops) b.(b_data) data ∧ flat_map (op_writes data) os = flat_map (vmo_writes v) ops ∧
    Forall (op_in (b_capacity b) p (p + blocks ops)) os ∧ chained (b_capacity b) p os (p + blocks ops) ∧
    ∀ o ops', ops = o :: ops' → ∃ o1 os', os = o1 :: os' ∧ o1.(u_op).(vmo_offset) = p mod b_capacity b.

(** An operation that can be copied to the buffer. *)
Definition copyable (v : Vmos block) (b : Buffer) (o : UnbufferedOperation) : Prop :=
  op_fits o ∧ readable v o ∧ o.(vmo) ≠ ZX_HANDLE_INVALID ∧ o.(vmo) ≠ b.(b_vmo) ∧ o.(u_op).(Operations.length_) < b_capacity b.

Lemma copy_op_ok v b base o :
  buffer_ok b base → copyable v b o → b.(b_length) + o.(u_op).(Operations.length_) ≤ b_capacity b →
  ∃ b' os, copy_op v b o = Returns (b', os) ∧ copied v b base [o] b' os.
Proof.
  intros Hb ((Ht & Hv & Hd & Hl & Hvl & Hdl) & Hr & Hh & Hne & Hlc) Hfit. pose proof Hb as [Hcap Hbase Hst Hlen Hid].
  destruct (free_part b base _ Hb Hl Hfit) as (Hoff & Hp & Hs & Hway & Hwrap). set (p := base + b_length b) in *.
  set (len := Operations.length_ (u_op o)) in *. unfold copied, blocks. cbn [foldr flat_map]. rewrite Z.add_0_r, app_nil_r. fold len. fold p.
  unfold copy_op. rewrite Ht, bool_decide_true, Hoff by done. fold len. unfold ZX_DEBUG_ASSERT, ZX_ASSERT.
  rewrite (proj2 (Z.eqb_neq _ _) Hh), (proj2 (Z.eqb_neq _ _) Hne). unwrap. ztest. cbn [negb mbind outcome_bind].
  destruct (Z.ltb_spec (b_capacity b) (p mod b_capacity b + len)) as [Hc|Hc].
  - destruct (Hwrap Hc) as (Hw1 & Hw2 & Hw3). unwrap. set (l1 := b_capacity b - p mod b_capacity b). set (l2 := len - l1).
    assert (p mod b_capacity b + l1 = b_capacity b) as Hl1 by (unfold l1; lia).
    assert ((p + l1) mod b_capacity b = 0) as Hz by (by rewrite <- Zplus_mod_idemp_l, Hl1, Z_mod_same_full). unwrap. ztest. cbn [negb mbind outcome_bind].
    destruct (read_blocks_ok v b base (vmo o) (vmo_offset (u_op o)) l1 p Hb Hv ltac:(lia) ltac:(lia) Hr ltac:(lia) ltac:(lia)) as (d1 & -> & Hch1 & Hr1).
    cbn [mbind outcome_bind b_start with_used with_data b_length b_vmo b_vmoid b_data]. unwrap. fold l2. ztest. cbn [negb mbind outcome_bind].
    set (b1 := with_used _ _ _). assert (b_capacity b1 = b_capacity b) as Hc1 by (unfold b_capacity; cbn; by rewrite (ch_length _ _ _ _ Hch1)).
    assert (buffer_ok b1 base) as Hb1 by (constructor; rewrite ?Hc1; cbn; [done|done|done|lia|done]).
    destruct (read_blocks_ok v b1 base (vmo o) (vmo_offset (u_op o) + l1) l2 (p + l1) Hb1 ltac:(lia) ltac:(lia) ltac:(lia) Hr ltac:(lia)) as (d2 & Hrd & Hch2 & Hr2); [rewrite Hc1, Hz; lia|].
    rewrite Hc1, Hz in Hrd, Hr2. rewrite Hrd. cbn [mbind outcome_bind b_start with_used with_data b_length b_vmo b_vmoid b_data]. unwrap.
    replace (l1 + l2) with len by (unfold l2; lia). ztest. cbn [mbind outcome_bind]. eexists _, _. split; [done|].
    exists d2. unfold b1. cbn [b_start with_used with_data b_length b_vmo b_vmoid b_data].
    replace (p + l1 + l2) with (p + len) in Hch2 by (unfold l2; lia). replace (b_length b + l1 + l2) with (b_length b + len) by (unfold l2; lia).
    pose proof (copied_op (b_capacity b) p l1 ZX_HANDLE_INVALID kWrite (dev_offset (u_op o)) Hcap ltac:(lia) ltac:(lia) ltac:(lia) eq_refl ltac:(lia) ltac:(lia)) as Ho1.
    pose proof (copied_op (b_capacity b) (p + l1) l2 (vmo o) kWrite (dev_offset (u_op o) + l1) Hcap ltac:(lia) ltac:(lia)) as Ho2.
    rewrite Hz in Ho2. specialize (Ho2 ltac:(lia) eq_refl ltac:(lia) ltac:(lia)). split_and!.
    + rewrite u64_small by lia. done.
    + eapply changes_trans; [|exact Hch1|exact Hch2]. lia.
    + cbn [flat_map]. rewrite app_nil_r. unfold write_op. rewrite (copied_writes v d2 0 (vmo o) _ _ _ (vmo_offset (u_op o) + l1)) by done.
      pose proof (op_writes_stable _ p (p + l1) (p + len) d1 d2 _ (proj2 (Forall_singleton _ _) Ho1)) as Hs1.
      cbn [flat_map] in Hs1. rewrite !app_nil_r in Hs1. rewrite Hs1; [|by rewrite <- Hc1|lia|lia|lia|done].
      rewrite (copied_writes v d1 _ (vmo o) _ _ _ (vmo_offset (u_op o))) by done.
      unfold vmo_writes. fold len. replace len with (l1 + l2) by (unfold l2; lia). rewrite map_seqZ_split by lia.
      f_equal. apply map_ext. intros i. by rewrite !Z.add_assoc.
    + apply Forall_cons. split; [|apply Forall_singleton]; (eapply op_in_mono; [..|eassumption]; unfold l2; lia).
    + cbn [chained u_op vmo_offset Operations.length_ write_op]. destruct Ho1 as (? & ? & _), Ho2 as (? & ? & _). split_and!; try done. unfold l2. lia.
    + intros o0 ops' [= <- <-]. eexists _, _. split; [done|]. done.
  - unwrap. ztest. cbn [negb mbind outcome_bind].
    assert ((if b_start b <=? p mod b_capacity b then b_start b <? p mod b_capacity b + len else p mod b_capacity b + len <=? b_start b) = true) as ->.
    { destruct (Z.leb_spec (b_start b) (p mod b_capacity b)); ztest; [done|]. destruct Hway; [lia|]. by ztest. }
    cbn [mbind outcome_bind].
    destruct (read_blocks_ok v b base (vmo o) (vmo_offset (u_op o)) len p Hb Hv Hl Hvl Hr ltac:(lia) Hc) as (d1 & -> & Hch1 & Hr1).
    cbn [mbind outcome_bind b_start with_used with_data b_length b_vmo b_vmoid b_data]. unwrap. eexists _, _. split; [done|].
    exists d1. split_and!; [done|done| | | |].
    + cbn [flat_map]. rewrite app_nil_r. by apply copied_writes.
    + apply Forall_singleton. apply copied_op; try done; lia.
    + destruct (copied_op (b_capacity b) p len ZX_HANDLE_INVALID kWrite (dev_offset (u_op o)) Hcap ltac:(lia) Hl Hc eq_refl Hd Hdl) as (Hf1 & Hc1 & _). by split_and!.
    + intros o0 ops' [= <- <-]. eexists _, _. split; [done|]. done.
Qed.

Lemma copied_buffer v b base ops b' os : buffer_ok b base → 0 ≤ blocks ops → b.(b_length) + blocks ops ≤ b_capacity b →
  copied v b base ops b' os → buffer_ok b' base ∧ b_capacity b' = b_capacity b ∧ b'.(b_length) = b.(b_length) + blocks ops ∧
    b'.(b_vmo) = b.(b_vmo) ∧ b'.(b_vmoid) = b.(b_vmoid) ∧ b'.(b_start) = b.(b_start).
Proof.
  intros [? ? ? ? ?] Hn Hf (data & -> & Hch & _). assert (b_capacity (with_used (with_data b data) (b_start b) (b_length b + blocks ops)) = b_capacity b) as Hc
    by (unfold b_capacity; cbn; by rewrite (ch_length _ _ _ _ Hch)).
  split; [|done]. constructor; rewrite ?Hc; cbn; [done|done|done|lia|done].
Qed.

Lemma copied_app v b base o ops b1 os1 b2 os2 :
  buffer_ok b base → 0 ≤ blocks ops → 0 < o.(u_op).(Operations.length_) → b.(b_length) + blocks (o :: ops) ≤ b_capacity b →
  copied v b base [o] b1 os1 → copied v b1 base ops b2 os2 → copied v b base (o :: ops) b2 (os1 ++ os2).
Proof.
  intros Hb Hn Hl Hfit H1 H2. assert (blocks [o] = Operations.length_ (u_op o)) as E by (cbn; lia).
  assert (blocks (o :: ops) = blocks [o] + blocks ops) as E2 by (cbn [blocks foldr]; unfold blocks; lia). rewrite E2 in Hfit.
  destruct (copied_buffer v b base [o] b1 os1 Hb ltac:(lia) ltac:(lia) H1) as (Hb1 & Hc1 & Hlen1 & _ & _ & Hst1).
  destruct H1 as (d1 & -> & Hch1 & Hw1 & Hin1 & Hcd1 & Hhd1), H2 as (d2 & -> & Hch2 & Hw2 & Hin2 & Hcd2 & _). cbn [b_start b_length with_used with_data b_data] in *.
  rewrite Hc1 in *. rewrite !Z.add_assoc in *. pose proof Hb as [Hcap _ _ Hbl _].
  exists d2. rewrite E2, !Z.add_assoc. split_and!.
  - done.
  - eapply changes_trans; [|exact Hch1|exact Hch2]. lia.
  - rewrite flat_map_app, Hw2. cbn [flat_map]. f_equal. cbn [flat_map] in Hw1. rewrite app_nil_r in Hw1. rewrite <- Hw1.
    eapply op_writes_stable; [exact Hin1| | | | |exact Hch2]; [unfold b_capacity; by rewrite (ch_length _ _ _ _ Hch1)|lia..].
  - apply Forall_app. split; (eapply Forall_impl; [eassumption|]; intros x Hx; eapply op_in_mono; [..|exact Hx]; lia).
  - by eapply chained_app.
  - intros o' ops' [= <- <-]. destruct (Hhd1 o [] eq_refl) as (o1 & os' & -> & Ho1). cbn. by eexists _, _.
Qed.

Lemma copyable_mono v b b' o : b'.(b_vmo) = b.(b_vmo) → b_capacity b' = b_capacity b → copyable v b o → copyable v b' o.
Proof. unfold copyable. by intros -> ->. Qed.

Lemma copyable_blocks v b ops : Forall (copyable v b) ops → 0 ≤ blocks ops.
Proof. induction 1 as [|o ops ((_ & _ & _ & Hl & _) & _) _ IH]; cbn; [done|]. unfold blocks in IH. lia. Qed.

Lemma copy_ops_ok v b base ops :
  buffer_ok b base → Forall (copyable v b) ops → b.(b_length) + blocks ops ≤ b_capacity b →
  ∃ b' os, copy_ops v b ops = Returns (b', os) ∧ copied v b base ops b' os.
Proof.
  intros Hb H. revert b Hb H. induction ops as [|o ops IH]; intros b Hb H Hfit; cbn [copy_ops].
  { eexists _, _. split; [done|]. exists (b_data b). cbn. rewrite !Z.add_0_r. split_and!; [by destruct b|apply changes_refl|done|done|done|done]. }
  apply Forall_cons in H as [Ho Hops]. pose proof (copyable_blocks _ _ _ Hops) as Hn. pose proof Ho as ((_ & _ & _ & Hl & _) & _).
  assert (blocks (o :: ops) = Operations.length_ (u_op o) + blocks ops) as E by done.
  destruct (copy_op_ok v b base o Hb Ho ltac:(lia)) as (b1 & os1 & -> & H1). cbn [mbind outcome_bind].
  assert (blocks [o] = Operations.length_ (u_op o)) as E1 by (cbn; lia).
  destruct (copied_buffer v b base [o] b1 os1 Hb ltac:(lia) ltac:(lia) H1) as (Hb1 & Hc1 & Hlen1 & Hv1 & _ & _).
  destruct (IH b1 Hb1) as (b2 & os2 & -> & H2); [eapply Forall_impl; [exact Hops|]; intros; by eapply copyable_mono|lia|].
  cbn [mbind outcome_bind]. eexists _, _. split; [done|]. eapply copied_app; [done|done|done|lia|done|done].
Qed.

(** ** The queue *)

(** What a work will write: blocks that were copied when it was queued, or what is in
    another VMO when it is written. *)
Inductive promise := Captured (ws : list (Z * block)) | Live (vmoid : Z) (ops : list UnbufferedOperation).

Definition resolve (others : Z → list block) (p : promise) : list (Z * block) :=
  match p with
  | Captured ws => ws
  | Live id ops => flat_map (op_writes (others id)) ops
  end.

Section queue.
Context {C : Type} (k : Z).
Implicit Types (q : WritebackQueue C) (w : WritebackWork C).

(** A work whose blocks are [lo] to [hi] of the buffer, or none of it. *)
Definition keeps (b : Buffer) (lo hi : Z) w (p : promise) : Prop :=
  let t := w.(transaction_) in
  match p with
  | Captured ws =>
    t.(vmoid_) = b.(b_vmoid) ∧ t.(block_count_) = hi - lo ∧ 0 ≤ hi - lo ∧
    Forall (op_in (b_capacity b) lo hi) t.(operations_) ∧ flat_map (op_writes b.(b_data)) t.(operations_) = ws ∧
    (0 < hi - lo → ∃ o os, t.(operations_) = o :: os ∧ o.(u_op).(vmo_offset) = lo mod b_capacity b)
  | Live id ops =>
    lo = hi ∧ t.(vmoid_) = id ∧ t.(operations_) = ops ∧ id ≠ b.(b_vmoid) ∧ id ≠ VMOID_INVALID ∧
    Forall (λ o, op_fits o ∧ o.(u_op).(Operations.length_) * k < UINT32_MAX) ops
  end.

Fixpoint keeps_all (b : Buffer) (lo : Z) (works : list (WritebackWork C)) (ps : list promise) (hi : Z) : Prop :=
  match works, ps with
  | [], [] => lo = hi
  | w :: works, p :: ps => ∃ mid, lo ≤ mid ∧ keeps b lo mid w p ∧ keeps_all b mid works ps hi
  | _, _ => False
  end.

(** The works of the queue keep the promises [ps]. *)
Record queue_ok q (base : Z) (ps : list promise) : Prop := {
  qk_buffer : buffer_ok q.(buffer_) base;
  qk_device : device_fits k (b_capacity q.(buffer_));
  qk_state : q.(state_) = kRunning;
  qk_works : keeps_all q.(buffer_) base q.(work_queue_) ps (base + q.(buffer_).(b_length));
}.

Lemma keeps_all_le b lo works ps hi : keeps_all b lo works ps hi → lo ≤ hi.
Proof.
  revert lo ps. induction works as [|w works IH]; intros lo [|p ps] H; cbn in H; try done; [lia|].
  destruct H as (mid & Hm & _ & H). specialize (IH _ _ H). lia.
Qed.

Lemma keeps_all_snoc b lo works ps mid w p hi :
  keeps_all b lo works ps mid → mid ≤ hi → keeps b mid hi w p → keeps_all b lo (works ++ [w]) (ps ++ [p]) hi.
Proof.
  intros H Hm Hw. revert lo ps H. induction works as [|w' works IH]; intros lo [|p' ps] H; cbn in H; try done.
  - subst lo. by exists hi.
  - destruct H as (mid' & Hm' & Hw' & H). exists mid'. split_and!; [done|done|]. by apply IH.
Qed.

(** Copying to the free part of the buffer keeps the promises of the works before. *)
Lemma keeps_changes b b' lo hi w p at_ end_ :
  keeps b lo hi w p → b'.(b_vmoid) = b.(b_vmoid) → b_capacity b' = b_capacity b → 0 < b_capacity b →
  lo ≤ hi ≤ at_ → at_ ≤ end_ → end_ - lo ≤ b_capacity b → changes at_ end_ b.(b_data) b'.(b_data) → keeps b' lo hi w p.
Proof.
  intros H Hid Hc Hcap Hh Hat He Hch. destruct p as [ws|id ops]; unfold keeps in *; rewrite Hid; [|done].
  destruct H as (? & ? & ? & Hin & Hw & Hhd). rewrite Hc. split_and!; try done. rewrite <- Hw. assert (changes hi end_ b.(b_data) b'.(b_data)) as Hch'.
  { constructor; [apply Hch|]. intros j Hj. apply Hch. contradict Hj. eapply window_mono; [..|exact Hj]; lia. }
  eapply op_writes_stable; [exact Hin|done|done| |exact He|exact Hch']. lia.
Qed.

Lemma keeps_all_changes b b' lo works ps hi end_ :
  keeps_all b lo works ps hi → b'.(b_vmoid) = b.(b_vmoid) → b_capacity b' = b_capacity b → 0 < b_capacity b →
  hi ≤ end_ → end_ - lo ≤ b_capacity b → changes hi end_ b.(b_data) b'.(b_data) → keeps_all b' lo works ps hi.
Proof.
  intros H Hid Hc Hcap He Hlo Hch. revert lo ps H Hlo. induction works as [|w works IH]; intros lo [|p ps] H Hlo; cbn in *; try done.
  destruct H as (mid & Hm & Hw & H). pose proof (keeps_all_le _ _ _ _ _ H). exists mid. split_and!; [done| |apply IH; [done|lia]].
  eapply keeps_changes; [exact Hw|done|done|done| | | |exact Hch]; lia.
Qed.

(** The same VMO, with the same number of blocks. *)
Definition same_vmo (b b' : Buffer) : Prop :=
  b'.(b_vmo) = b.(b_vmo) ∧ b'.(b_vmoid) = b.(b_vmoid) ∧ b_capacity b' = b_capacity b.

(** A transaction of the caller's VMOs is copied, or has to wait for space. *)
Lemma Enqueue_copies v q base ps w :
  queue_ok q base ps → w.(transaction_).(vmoid_) = VMOID_INVALID →
  Forall (copyable v q.(buffer_)) w.(transaction_).(operations_) → w.(transaction_).(block_count_) = blocks w.(transaction_).(operations_) →
  blocks w.(transaction_).(operations_) ≤ b_capacity q.(buffer_) →
  if q.(buffer_).(b_length) + blocks w.(transaction_).(operations_) <=? b_capacity q.(buffer_)
  then ∃ q', Queue_Enqueue v q w = Returns (Some (ZX_OK, q')) ∧
    queue_ok q' base (ps ++ [Captured (flat_map (vmo_writes v) w.(transaction_).(operations_))]) ∧ same_vmo q.(buffer_) q'.(buffer_)
  else Queue_Enqueue v q w = Returns None.
Proof.
  intros [Hb Hdev Hst Hw] Hid Hops Hcnt Hmax. pose proof (copyable_blocks _ _ _ Hops) as Hn. pose proof Hb as [Hcap _ _ Hlen Hbid].
  unfold Queue_Enqueue, IsReadOnly. rewrite Hst. cbn [bool_decide]. rewrite bool_decide_false by done.
  unfold IsBuffered. rewrite Hid. cbn [Z.eqb negb VMOID_INVALID]. rewrite bool_decide_true by done.
  unfold IsSpaceAvailable, BlkCount, ZX_DEBUG_ASSERT, ZX_ASSERT. rewrite Hcnt. unwrap. ztest. cbn [mbind outcome_bind].
  set (ops := operations_ (transaction_ w)) in *. destruct (Z.leb_spec (b_length (buffer_ q) + blocks ops) (b_capacity (buffer_ q))) as [Hfit|Hfit]; [|done].
  cbn [negb]. unfold CopyTransaction, IsBuffered. rewrite Hid. cbn [Z.eqb negb VMOID_INVALID ZX_DEBUG_ASSERT mbind outcome_bind]. fold ops.
  destruct (copy_ops_ok v _ base ops Hb Hops Hfit) as (b' & os & -> & Hcp). cbn [mbind outcome_bind].
  destruct (copied_buffer v _ base ops b' os Hb Hn Hfit Hcp) as (Hb' & Hc' & Hlen' & Hvmo' & Hid' & _).
  unfold SetBuffer. cbn [vmoid_]. rewrite Hid'. cbn [Z.eqb VMOID_INVALID orb ZX_DEBUG_ASSERT mbind outcome_bind].
  rewrite (proj2 (Z.eqb_neq _ _) Hbid). cbn [negb ZX_DEBUG_ASSERT mbind outcome_bind]. eexists. split; [done|]. split; [|done]. constructor; cbn; [done|by rewrite Hc'|done|].
  destruct Hcp as (data & -> & Hch & Hws & Hin & _ & Hhd). cbn [b_length with_used with_data b_data] in *. rewrite Z.add_assoc.
  eapply keeps_all_snoc; [eapply keeps_all_changes; [exact Hw|done|done|lia| | |exact Hch]; lia|lia|].
  unfold keeps. cbn [transaction_ with_transaction vmoid_ block_count_ operations_ b_vmoid with_used with_data b_data]. rewrite Hc'.
  split_and!; [done|lia|lia|done|done|]. intros Hpos. destruct ops as [|o ops']; [cbn in Hpos; lia|]. by apply (Hhd o ops').
Qed.

(** A transaction of another buffer is queued as it is. *)
Lemma Enqueue_live v q base ps w ops :
  queue_ok q base ps → w.(transaction_).(vmoid_) ≠ VMOID_INVALID → w.(transaction_).(vmoid_) ≠ q.(buffer_).(b_vmoid) →
  w.(transaction_).(operations_) = ops → Forall (λ o, op_fits o ∧ o.(u_op).(Operations.length_) * k < UINT32_MAX) ops →
  ∃ q', Queue_Enqueue v q w = Returns (Some (ZX_OK, q')) ∧ queue_ok q' base (ps ++ [Live w.(transaction_).(vmoid_) ops]) ∧ q'.(buffer_) = q.(buffer_).
Proof.
  intros [Hb Hdev Hst Hw] Hid Hne Hops Hfit. unfold Queue_Enqueue, IsReadOnly, IsBuffered. rewrite Hst, bool_decide_false by done.
  rewrite (proj2 (Z.eqb_neq _ _) Hid). cbn [negb]. eexists. split; [done|]. split; [|done]. constructor; cbn; [done|done|done|].
  eapply keeps_all_snoc; [exact Hw|lia|]. by split_and!.
Qed.

Lemma keeps_fits q base ps lo hi w p : queue_ok q base ps → keeps q.(buffer_) lo hi w p →
  Forall (λ o, op_fits o ∧ o.(u_op).(Operations.length_) * k < UINT32_MAX) w.(transaction_).(operations_).
Proof.
  intros [Hb (Hk & Hc & Hck) _ _] H. destruct p as [ws|id ops]; cbn in H.
  - destruct H as (_ & _ & _ & Hin & _). eapply Forall_impl; [exact Hin|]. intros o ((Ht & Hv & ?) & Hl & _). split; [done|]. nia.
  - by destruct H as (_ & _ & -> & _ & _ & ?).
Qed.

Lemma keeps_verify q base ps mid w p : queue_ok q base ps → base ≤ mid ≤ base + q.(buffer_).(b_length) → keeps q.(buffer_) base mid w p →
  VerifyTransaction q.(buffer_) w.(transaction_) = Returns (match p with Captured _ => true | Live _ _ => false end) ∧
  IsBuffered w.(transaction_) = true.
Proof.
  intros [Hb _ _ _] Hm H. pose proof Hb as [_ _ Hst _ Hbid]. unfold VerifyTransaction, CheckBuffer, IsBuffered, BlkCount. destruct p as [ws|id ops]; cbn in H.
  - destruct H as (Hid & Hcnt & Hpos & _ & _ & Hhd). rewrite Hid, Hcnt, Z.eqb_refl, (proj2 (Z.eqb_neq _ _) Hbid). split; [|done].
    destruct (Z.ltb_spec 0 (mid - base)) as [Hlt|]; [|done]. destruct (Hhd Hlt) as (o & os & Ho & Hoff).
    unfold BlkStart, IsBuffered. rewrite Hid, (proj2 (Z.eqb_neq _ _) Hbid), Ho. cbn [negb ZX_DEBUG_ASSERT mbind outcome_bind].
    unfold ZX_ASSERT. rewrite Hoff, Hst, Z.eqb_refl. cbn [mbind outcome_bind]. ztest. done.
  - destruct H as (_ & -> & _ & Hne & Hnz & _). by rewrite (proj2 (Z.eqb_neq _ _) Hne), (proj2 (Z.eqb_neq _ _) Hnz).
Qed.

(** The thread writes what the first work promised. *)
Lemma Thread_ok dev others call q st base p ps :
  queue_ok q base (p :: ps) → dev.(per_block) = k → dev.(device_status) st.(transactions) = ZX_OK →
  (∀ w rest, q.(work_queue_) = w :: rest → fst (IsReady call w) = true) →
  ∃ q' base' w rest, q.(work_queue_) = w :: rest ∧ WritebackThread dev others call q st =
      Returns (Some (q', {| disk := write_all st.(disk) (resolve others p); transactions := S st.(transactions) |}, ZX_OK, w.(sync_cb_))) ∧
    q'.(work_queue_) = rest ∧ queue_ok q' base' ps ∧ same_vmo q.(buffer_) q'.(buffer_).
Proof.
  intros Hq Hk Hst Hready. pose proof Hq as [Hb Hdev Hrun Hw]. destruct q as [b [|w rest] s]; cbn [work_queue_ keeps_all buffer_ state_] in *; [done|].
  destruct Hw as (mid & Hm & Hkp & Hall). pose proof (keeps_all_le _ _ _ _ _ Hall) as Hle. specialize (Hready w rest eq_refl).
  destruct (keeps_verify _ _ _ mid _ _ Hq (conj Hm Hle) Hkp) as [Hv Hbuf]. pose proof (keeps_fits _ _ _ _ _ _ _ Hq Hkp) as Hfits.
  unfold WritebackThread, IsReadOnly. cbn [work_queue_ state_ buffer_] in *. rewrite Hrun, bool_decide_false by done.
  destruct (IsReady call w) as [ready w'] eqn:Er. cbn in Hready. subst ready. cbn [negb].
  assert (transaction_ w' = transaction_ w ∧ sync_cb_ w' = sync_cb_ w) as [-> Hcb].
  { unfold IsReady in Er. destruct (ready_cb_ w); [destruct (call _)|]; by simplify_eq. }
  rewrite Hv, Hbuf. cbn [ZX_DEBUG_ASSERT mbind outcome_bind]. unfold Flush. rewrite Hbuf. cbn [ZX_ASSERT mbind outcome_bind]. rewrite Hk.
  set (vmos := λ id, if id =? b_vmoid b then b_data b else others id).
  destruct (flush_requests_ok k (vmoid_ (transaction_ w)) _ (vmos (vmoid_ (transaction_ w))) (proj1 Hdev) Hfits) as (rs & -> & Hrs & Hws).
  cbn [mbind outcome_bind]. unfold Transaction. rewrite Hst, failed_ok, Hk. cbn [snd MarkCompleted]. rewrite Hcb.
  assert (flat_map (λ r, request_writes k (vmos (req_vmoid r)) r) rs = resolve others p) as ->.
  { etransitivity; [|etransitivity; [exact Hws|]].
    - clear -Hrs. induction Hrs as [|r rs Hr _ IH]; [done|]. cbn. by rewrite Hr, IH.
    - destruct p as [ws|id ops]; cbn in Hkp; unfold vmos.
      + destruct Hkp as (-> & _ & _ & _ & <- & _). by rewrite Z.eqb_refl.
      + destruct Hkp as (_ & -> & -> & Hne & _). by rewrite (proj2 (Z.eqb_neq _ _) Hne). }
  pose proof Hb as [Hcap Hbase Hstart Hlen Hbid]. destruct p as [ws|id ops]; cbn in Hkp.
  - destruct Hkp as (_ & Hcnt & Hpos & _). unfold FreeSpace, BlkCount, ZX_DEBUG_ASSERT, ZX_ASSERT. rewrite Hcnt. ztest. cbn [negb mbind outcome_bind].
    pose proof (Z.mod_pos_bound base (b_capacity b) ltac:(lia)). unwrap. eexists _, mid, w, rest. split_and!; [done|done|done| |done].
    assert (((b_start b + (mid - base)) mod b_capacity b) = mid mod b_capacity b) as Hmid.
    { rewrite Hstart, Zplus_mod_idemp_l. f_equal. lia. }
    constructor; cbn; [constructor; cbn; [done|lia|by rewrite Hmid|change (b_capacity (with_used _ _ _)) with (b_capacity b); lia|done]|done|done|].
    replace (mid + (b_length b - (mid - base))) with (base + b_length b) by lia.
    eapply keeps_all_changes; [exact Hall|done|done|lia|reflexivity|lia|apply changes_refl].
  - destruct Hkp as (<- & _). cbn [mbind outcome_bind]. eexists _, base, w, rest. split_and!; [done|done|done| |done]. by constructor.
Qed.

End queue.

(** ** Histories *)

Section histories.
Context {C : Type} (dev : Device).

(** A work that a client can queue: writes of its own VMOs, at most as many blocks as the buffer has. *)
Definition submittable (v : Vmos block) (q : WritebackQueue C) (w : WritebackWork C) : Prop :=
  w.(ready_cb_) = None ∧ w.(transaction_).(vmoid_) = VMOID_INVALID ∧
  Forall (copyable v q.(buffer_)) w.(transaction_).(operations_) ∧
  w.(transaction_).(block_count_) = blocks w.(transaction_).(operations_) ∧
  blocks w.(transaction_).(operations_) ≤ b_capacity q.(buffer_).

(** The queue and the device, what the accepted works had to write when they were
    queued, and how many of them the thread has completed. *)
Inductive wb_step : WritebackQueue C * Store * list (list (Z * block)) * nat →
    WritebackQueue C * Store * list (list (Z * block)) * nat → Prop :=
| wb_submit v w q st sub n q' : submittable v q w → Queue_Enqueue v q w = Returns (Some (ZX_OK, q')) →
    wb_step (q, st, sub, n) (q', st, sub ++ [flat_map (vmo_writes v) w.(transaction_).(operations_)], n)
| wb_run others call q st sub n q' st' status cbs :
    WritebackThread dev others call q st = Returns (Some (q', st', status, cbs)) →
    wb_step (q, st, sub, n) (q', st', sub, S n).

Definition wb_ok (d : list block) (x : WritebackQueue C * Store * list (list (Z * block)) * nat) : Prop :=
  let '(q, st, sub, n) := x in
  (∃ base, queue_ok dev.(per_block) q base (map Captured (drop n sub))) ∧ Forall (λ w, w.(ready_cb_) = None) q.(work_queue_) ∧
  (n ≤ length sub)%nat ∧ st.(disk) = write_all d (concat (take n sub)).

Lemma keeps_all_length (k : Z) (b : Buffer) lo (works : list (WritebackWork C)) ps hi : keeps_all k b lo works ps hi → length works = length ps.
Proof.
  revert lo ps. induction works as [|w works IH]; intros lo [|p ps] H; cbn in H; try done. destruct H as (mid & _ & _ & H). cbn. by rewrite (IH _ _ H).
Qed.

Lemma run_ok d others call q st sub n : (∀ m, dev.(device_status) m = ZX_OK) → wb_ok d (q, st, sub, n) → q.(work_queue_) ≠ [] →
  ∃ q' st' cbs, WritebackThread dev others call q st = Returns (Some (q', st', ZX_OK, cbs)) ∧ wb_ok d (q', st', sub, S n).
Proof.
  intros Hdev ([base Hq] & Hr & Hn & Hd) Hne. pose proof (keeps_all_length _ _ _ _ _ _ (qk_works _ _ _ _ Hq)) as Hlen. rewrite length_map in Hlen.
  destruct (drop n sub) as [|ws rest] eqn:Edrop; [by destruct (work_queue_ q)|]. cbn [map] in Hq.
  destruct (Thread_ok _ dev others call q st base _ _ Hq eq_refl (Hdev _)) as (q' & base' & w & works & Hwq & E & Hwq' & Hq' & _).
  { intros w works Hw. rewrite Hw in Hr. apply Forall_cons in Hr as [Hr _]. unfold IsReady. by rewrite Hr. }
  cbn [resolve] in E. eexists _, _, _. split; [exact E|]. assert (sub !! n = Some ws) as Hws.
  { rewrite <- (Nat.add_0_r n), <- lookup_drop, Edrop. done. }
  split_and!.
  - exists base'. rewrite <- Nat.add_1_r, <- drop_drop, Edrop. exact Hq'.
  - rewrite Hwq in Hr. apply Forall_cons in Hr as [_ Hr]. by rewrite Hwq'.
  - apply lookup_lt_Some in Hws. lia.
  - cbn. rewrite Hd, (take_S_r _ _ _ Hws), concat_app. unfold write_all. rewrite foldl_app. cbn. by rewrite app_nil_r.
Qed.

Lemma wb_step_ok d x y : (∀ m, dev.(device_status) m = ZX_OK) → wb_step x y → wb_ok d x → wb_ok d y.
Proof.
  intros Hdev Hstep Hok. destruct Hstep as [v w q st sub n q' (Hrd & Hid & Hops & Hcnt & Hmax) E|others call q st sub n q' st' status cbs E].
  - destruct Hok as ([base Hq] & Hr & Hn & Hd). pose proof (Enqueue_copies _ v q base _ w Hq Hid Hops Hcnt Hmax) as H.
    destruct (_ <=? _); [|rewrite H in E; done]. destruct H as (q1 & E1 & Hq1 & _). rewrite E1 in E. injection E as <-. split_and!.
    + exists base. rewrite drop_app_le, map_app by done. exact Hq1.
    + unfold Queue_Enqueue in E1. destruct (IsReadOnly q); [done|]. destruct (negb _); [|injection E1 as <-; cbn; apply Forall_app; by split; [|apply Forall_singleton]].
      destruct (ZX_DEBUG_ASSERT _); [|done..]. cbn [mbind outcome_bind] in E1. destruct (IsSpaceAvailable _ _) as [[]| |]; [|done..].
      cbn [mbind outcome_bind negb] in E1. destruct (CopyTransaction _ _ _) as [[b t]| |]; [|done..]. injection E1 as <-. cbn.
      apply Forall_app. by split; [|apply Forall_singleton].
    + rewrite length_app. lia.
    + by rewrite take_app_le.
  - destruct (decide (work_queue_ q = [])) as [He|Hne]; [unfold WritebackThread in E; rewrite He in E; done|].
    destruct (run_ok d others call q st sub n Hdev Hok Hne) as (q1 & st1 & cbs1 & E1 & Hok1). rewrite E1 in E. by injection E as <- <- _ _.
Qed.

Lemma wb_steps_ok d x y : (∀ m, dev.(device_status) m = ZX_OK) → rtc wb_step x y → wb_ok d x → wb_ok d y.
Proof. intros Hdev. induction 1 as [|x y z Hxy _ IH]; [done|]. intros. apply IH. by eapply wb_step_ok. Qed.

End histories.

(** ** Claims *)

Definition fresh_queue (C : Type) (b : Buffer) : WritebackQueue C := {| buffer_ := b; work_queue_ := []; state_ := kRunning |}.

Lemma Enqueue_ok (t : WriteTxn) (h rel abs n : Z) :
  IsBuffered t = false → h ≠ ZX_HANDLE_INVALID → Forall op_fits t.(WriteTxn.operations_) → op_fits (write_op h rel abs n) →
  t.(WriteTxn.block_count_) = blocks t.(WriteTxn.operations_) → blocks t.(WriteTxn.operations_) + n < 2 ^ 64 →
  Forall (λ o, o.(vmo) = h → o.(u_op).(vmo_offset) = rel → o.(u_op).(dev_offset) = abs) t.(WriteTxn.operations_) →
  ∃ t', Enqueue t h rel abs n = Returns t' ∧ IsBuffered t' = false ∧ Forall op_fits t'.(WriteTxn.operations_) ∧
    t'.(WriteTxn.block_count_) = blocks t'.(WriteTxn.operations_) ∧
    blocks t.(WriteTxn.operations_) ≤ blocks t'.(WriteTxn.operations_) ≤ blocks t.(WriteTxn.operations_) + n ∧
    ∀ x, in_ops t'.(WriteTxn.operations_) x = in_ops t.(WriteTxn.operations_) x || in_op (write_op h rel abs n) x.
Proof.
  intros Hb Hh Hops Hnew Hcnt Hmax Hsame. unfold Enqueue. rewrite (proj2 (Z.eqb_neq _ _) Hh), Hb. cbn [negb ZX_DEBUG_ASSERT mbind outcome_bind].
  pose proof (enqueue_loop_ok _ h rel abs n Hops Hnew Hsame) as H. pose proof Hnew as (_ & _ & _ & Hn & _). cbn in Hn.
  assert (0 ≤ blocks (WriteTxn.operations_ t)) as Hpos by (clear -Hops; induction Hops as [|o ops (_ & _ & _ & ? & _) _ IH]; cbn; [done|unfold blocks in IH; lia]).
  eexists. split; [done|]. rewrite Hcnt. destruct (enqueue_loop _ h rel abs n) as [[ops' added]|]; cbn [WriteTxn.operations_ WriteTxn.block_count_].
  - destruct H as (H1 & H2 & H3 & H4). unwrap. split_and!; done || lia.
  - assert (blocks (WriteTxn.operations_ t ++ [write_op h rel abs n]) = blocks (WriteTxn.operations_ t) + n) as Hsum.
    { unfold blocks. rewrite foldr_app. cbn. clear. induction (WriteTxn.operations_ t); cbn; lia. }
    unfold write_op in Hsum. unwrap. rewrite Hsum. split_and!; [done|apply Forall_app; by split; [|apply Forall_singleton]|lia..|].
    + intros x. unfold in_ops. rewrite existsb_app. cbn. by rewrite orb_false_r.
Qed.

(** Adding blocks to a transaction, by appending an operation or by making one longer, makes it
    write exactly what it wrote before and the new blocks, keeps its operations well formed and its
    block count their sum. The merge looks at the offset in the VMO only, so this needs that a block of
    the VMO is always written to the same block of the device. *)
Theorem txn_enqueue_exact (t : WriteTxn) (h rel abs n : Z) :
  IsBuffered t = false → h ≠ ZX_HANDLE_INVALID → Forall op_fits t.(WriteTxn.operations_) → op_fits (write_op h rel abs n) →
  t.(WriteTxn.block_count_) = blocks t.(WriteTxn.operations_) → blocks t.(WriteTxn.operations_) + n < 2 ^ 64 →
  Forall (λ o, o.(vmo) = h → o.(u_op).(vmo_offset) = rel → o.(u_op).(dev_offset) = abs) t.(WriteTxn.operations_) →
  ∃ t', Enqueue t h rel abs n = Returns t' ∧ IsBuffered t' = false ∧ Forall op_fits t'.(WriteTxn.operations_) ∧
    t'.(WriteTxn.block_count_) = blocks t'.(WriteTxn.operations_) ∧
    ∀ x, in_ops t'.(WriteTxn.operations_) x = in_ops t.(WriteTxn.operations_) x || in_op (write_op h rel abs n) x.
Proof.
  intros Hb Hh Hops Hnew Hcnt Hmax Hsame. destruct (Enqueue_ok t h rel abs n Hb Hh Hops Hnew Hcnt Hmax Hsame) as (t' & E & H1 & H2 & H3 & _ & H4). eauto 10.
Qed.


(** A device that does not fail, VMOs whose blocks say where they are from, a buffer of four blocks. *)
Definition good_device : Device := {| per_block := 16; device_status := λ _, ZX_OK; device_torn := λ _ d, d |}.
Definition named_vmos : Vmos block := {| vmo_block := λ h a, [h; a / kBlobfsBlockSize]; vmo_read_status := λ _ _ _, ZX_OK |}.
Definition four_blocks : Buffer := {| b_vmo := 1; b_vmoid := 5; b_data := replicate 4 []; b_start := 0; b_length := 0 |}.
Definition write_work (h voff doff len : Z) : WritebackWork unit :=
  {| transaction_ := {| vmoid_ := VMOID_INVALID; operations_ := [write_op h voff doff len]; block_count_ := len |};
     ready_cb_ := None; sync_cb_ := [] |}.

Ltac wb_submits h voff doff len :=
  eapply rtc_l; [eapply (wb_submit _ named_vmos (write_work h voff doff len));
    [split; [done|]; split; [done|]; split; [|split; done]; cbn; constructor; [|constructor];
     split; [vm_compute; done|]; split; [intros ? ?; reflexivity|]; split_and!; done
    |vm_compute; reflexivity]|cbn [app]].
Ltac wb_runs := eapply rtc_l; [eapply (wb_run _ (λ _, []) (λ _ : unit, true)); vm_compute; reflexivity|].

(** Three works, the last of which goes around the end of the buffer. *)
Lemma example_history : ∃ q st, rtc (wb_step good_device)
    (fresh_queue unit four_blocks, {| disk := replicate 8 []; transactions := 0 |}, [], 0%nat)
    (q, st, [[(2, [9; 0]); (3, [9; 1])]; [(3, [8; 7])]; [(5, [9; 4]); (6, [9; 5]); (7, [9; 6])]], 3%nat) ∧ q.(work_queue_) = [].
Proof.
  eexists _, _. split.
  - wb_submits 9 0 2 2. wb_submits 8 7 3 1. wb_runs. wb_submits 9 4 5 3. wb_runs. wb_runs. apply rtc_refl.
  - reflexivity.
Qed.

