(* ===== verification/Journal.v ===== *)
(** * The journal: loading and replaying (ulib/blobfs/journal.cpp)

    The journal holds metadata blocks on their way to their place on the device, in
    entries of a header, data blocks and a commit block. When the file system is mounted, the
    entries are loaded from the device and written to their places. *)

From S2P Require Import Prelude RawBitmap MerkleTree Format Superblock Operations RingBuffer WriteTxn.

(** ** Format *)

Definition kEntryHeaderMagic : Z := 0x776f7768656c6c6f.
Definition kEntryCommitMagic : Z := 0x7472696369612331.

(** [JournalInfo] *)
Definition info_magic : field := Field 0 0 64.
Definition info_start_block : field := Field 1 0 64.
Definition info_num_blocks : field := Field 2 0 64.
Definition info_timestamp : field := Field 3 0 64.
Definition info_checksum : field := Field 4 0 32.
Definition kInfoWords : nat := 5.

(** [HeaderBlock] *)
Definition header_magic : field := Field 0 0 64.
Definition header_timestamp : field := Field 1 0 64.
Definition header_num_blocks : field := Field 3 0 64.
Definition target_block (i : Z) : field := Field (4 + Z.to_nat i) 0 64.

(** [CommitBlock] *)
Definition commit_magic : field := Field 0 0 64.
Definition commit_timestamp : field := Field 1 0 64.
Definition commit_checksum : field := Field 2 0 32.

(** ** State *)

(** The journal with what it works on: the write-back queue of the file system and the device. [info_]
    is the contents of the buffer of the info block, and [info_vmo] its VMO. [calls] and [clock] count
    the calls of [EnqueueWork] and of [zx_ticks_get]. *)
Record Journal := {
  start_block_ : Z;
  info_vmo : Z;
  info_ : block;
  entries_ : Buffer;
  j_state : WritebackState;
  queue : WritebackQueue unit;
  store : Store;
  calls : nat;
  clock : nat;
}.

Definition with_info (j : Journal) (info : block) : Journal := {|
  start_block_ := j.(start_block_); info_vmo := j.(info_vmo); info_ := info; entries_ := j.(entries_); j_state := j.(j_state);
  queue := j.(queue); store := j.(store); calls := j.(calls); clock := j.(clock) |}.

Definition with_entries (j : Journal) (b : Buffer) : Journal := {|
  start_block_ := j.(start_block_); info_vmo := j.(info_vmo); info_ := j.(info_); entries_ := b; j_state := j.(j_state);
  queue := j.(queue); store := j.(store); calls := j.(calls); clock := j.(clock) |}.

Definition with_state (j : Journal) (s : WritebackState) : Journal := {|
  start_block_ := j.(start_block_); info_vmo := j.(info_vmo); info_ := j.(info_); entries_ := j.(entries_); j_state := s;
  queue := j.(queue); store := j.(store); calls := j.(calls); clock := j.(clock) |}.

Definition with_queue (j : Journal) (q : WritebackQueue unit) (st : Store) : Journal := {|
  start_block_ := j.(start_block_); info_vmo := j.(info_vmo); info_ := j.(info_); entries_ := j.(entries_); j_state := j.(j_state);
  queue := q; store := st; calls := j.(calls); clock := j.(clock) |}.

Definition with_counts (j : Journal) (c k : nat) : Journal := {|
  start_block_ := j.(start_block_); info_vmo := j.(info_vmo); info_ := j.(info_); entries_ := j.(entries_); j_state := j.(j_state);
  queue := j.(queue); store := j.(store); calls := c; clock := k |}.

(** [dev] is the device and [crc32] the checksum, on words; [sched] says how many works the
    write-back thread completes after each call of [EnqueueWork], before the caller goes on, and [ticks]
    is what each call of [zx_ticks_get] gives. *)
Section journal.
Context (dev : Device) (crc32 : Z → list Z → Z) (sched : nat → nat) (ticks : nat → Z).

(** ** The write-back queue as the journal sees it *)

(** The VMOs of the journal, by handle and, for the device, by id. *)
Definition journal_vmos (j : Journal) : Vmos block := {|
  vmo_block h a :=
    if h =? j.(info_vmo) then j.(info_)
    else default zero_block (j.(entries_).(b_data) !! Z.to_nat (a / kBlobfsBlockSize));
  vmo_read_status _ _ _ := ZX_OK |}.

Definition attached (j : Journal) (vmoid : Z) : list block :=
  if vmoid =? j.(entries_).(b_vmoid) then j.(entries_).(b_data) else [].

(** The thread completes one work, if there is one. *)
Definition thread_round (j : Journal) : outcome Journal :=
  r ← WritebackThread dev (attached j) (λ _, true) j.(queue) j.(store);
  Returns
    match r with
    | None => j
    | Some (q, st, _, _) => with_queue j q st
    end.

Fixpoint thread_rounds (n : nat) (j : Journal) : outcome Journal :=
  match n with
  | O => Returns j
  | S n => j ← thread_round j; thread_rounds n j
  end.

(** Waits for space as long as the thread has works to complete. *)
Fixpoint enqueue_wait (fuel : nat) (j : Journal) (w : WritebackWork unit) : outcome (zx_status * Journal) :=
  match fuel with
  | O => Diverges
  | S fuel =>
    r ← Queue_Enqueue (journal_vmos j) j.(queue) w;
    match r with
    | Some (status, q) => Returns (status, with_queue j q j.(store))
    | None => j ← thread_round j; enqueue_wait fuel j w
    end
  end.

Definition EnqueueWork (j : Journal) (w : WritebackWork unit) : outcome (zx_status * Journal) :=
  p ← enqueue_wait (S (length j.(queue).(work_queue_))) j w;
  let '(status, j) := (p : zx_status * Journal) in
  j' ← thread_rounds (sched j.(calls)) j;
  Returns (status, with_counts j' (S j.(calls)) j'.(clock)).

Definition EnqueueEntryWork (j : Journal) (w : WritebackWork unit) : outcome (zx_status * Journal) :=
  t ← ValidateTransaction j.(entries_) w.(transaction_);
  EnqueueWork j (with_transaction w t).

(** ** Checking an entry *)

(** The words of [n] blocks of the buffer. *)
Definition block_words (b : Buffer) (index n : Z) : list Z :=
  concat (take (Z.to_nat n) (drop (Z.to_nat index) b.(b_data))).

Definition GenerateChecksum (b : Buffer) (header_index commit_index : Z) : outcome Z :=
  _ ← ZX_DEBUG_ASSERT (negb (commit_index =? header_index));
  let first_length := if commit_index <? header_index then b_capacity b ⊟ header_index else commit_index ⊟ header_index in
  _ ← ZX_DEBUG_ASSERT (0 <? first_length);
  _ ← ZX_DEBUG_ASSERT (header_index <? b_capacity b);
  _ ← ZX_ASSERT (header_index + first_length <=? b_capacity b);
  let checksum := crc32 0 (block_words b header_index first_length) in
  Returns (if commit_index <? header_index then crc32 checksum (block_words b 0 commit_index) else checksum).

Definition VerifyEntryMetadata (b : Buffer) (header_index last_timestamp : Z) : outcome bool :=
  header ← BlockAt b header_index;
  if negb (field_get header_magic header =? kEntryHeaderMagic) || (field_get header_timestamp header <=? last_timestamp) then
    Returns false
  else
    let commit_index := (header_index ⊞ field_get header_num_blocks header ⊞ 1) mod b_capacity b in
    commit ← BlockAt b commit_index;
    if negb (field_get commit_magic commit =? kEntryCommitMagic) then Returns false
    else if negb (field_get commit_timestamp commit =? field_get header_timestamp header) then Returns false
    else
      checksum ← GenerateChecksum b header_index commit_index;
      Returns (field_get commit_checksum commit =? checksum).

(** ** Replay *)

(** The loop over the blocks of an entry; [target_blocks] has [kMaxEntryDataBlocks] elements. *)
Fixpoint replay_blocks (fuel : nat) (b : Buffer) (header : block) (header_index i : Z) (t : WriteTxn) : outcome WriteTxn :=
  match fuel with
  | O => Diverges
  | S fuel =>
    if negb (i <? field_get header_num_blocks header) then Returns t
    else if kMaxEntryDataBlocks <=? i then Aborts
    else
      let vmo_block := (header_index ⊞ i ⊞ 1) mod b_capacity b in
      t ← AddTransaction b vmo_block (field_get (target_block i) header) 1 t;
      replay_blocks fuel b header header_index (i + 1) t
  end.

(** The status, the journal, and the blocks and the timestamp of the entry. *)
Definition ReplayEntry (j : Journal) (header_index remaining_length timestamp : Z)
    : outcome (zx_status * Journal * Z * Z) :=
  _ ← ZX_DEBUG_ASSERT (bool_decide (j.(j_state) = kInit));
  valid ← VerifyEntryMetadata j.(entries_) header_index timestamp;
  if negb valid then Returns (ZX_ERR_OUT_OF_RANGE, j, 0, timestamp)
  else
    header ← BlockAt j.(entries_) header_index;
    let timestamp := field_get header_timestamp header in
    let entry_blocks := field_get header_num_blocks header ⊞ 2 in
    _ ← ZX_DEBUG_ASSERT ((remaining_length =? 0) || (entry_blocks <=? remaining_length));
    t ← replay_blocks (S (S (Z.to_nat kMaxEntryDataBlocks))) j.(entries_) header header_index 0 NewWriteTxn;
    p ← EnqueueEntryWork j (with_transaction NewWork t);
    let '(status, j) := (p : zx_status * Journal) in
    Returns (status, j, entry_blocks, timestamp).

(** The status is [ZX_OK] when the loop ends at an entry that is not valid. *)
Fixpoint replay_loop (fuel : nat) (j : Journal) (start length total_entries total_blocks timestamp : Z)
    : outcome (zx_status * Journal * Z * Z * Z) :=
  match fuel with
  | O => Diverges
  | S fuel =>
    p ← ReplayEntry j start length timestamp;
    let '(status, j, entry_blocks, timestamp) := (p : zx_status * Journal * Z * Z) in
    if bool_decide (status = ZX_ERR_OUT_OF_RANGE) then Returns (ZX_OK, j, start, length, total_entries)
    else if failed status then Returns (status, j, start, length, total_entries)
    else
      let start := (start ⊞ entry_blocks) mod b_capacity j.(entries_) in
      let length := if negb (length =? 0) then length ⊟ entry_blocks else length in
      replay_loop fuel j start length (total_entries ⊞ 1) (total_blocks ⊞ entry_blocks) timestamp
  end.

(** The checksum of the info block, which is over its first words with the checksum itself zero. *)
Definition checksummed (info : block) : block :=
  let info := field_set info_checksum info 0 in
  field_set info_checksum info (crc32 0 (take kInfoWords info)).

Definition WriteInfo (j : Journal) (start length : Z) : outcome (zx_status * Journal) :=
  if (start =? field_get info_start_block j.(info_)) && (length =? field_get info_num_blocks j.(info_)) then Returns (ZX_OK, j)
  else
    let info := field_set info_start_block j.(info_) start in
    let info := field_set info_num_blocks info length in
    let info := field_set info_timestamp info (ticks j.(clock)) in
    let j := with_counts (with_info j (checksummed info)) j.(calls) (S j.(clock)) in
    t ← Enqueue NewWriteTxn j.(info_vmo) 0 j.(start_block_) 1;
    EnqueueWork j (with_transaction NewWork t).

Definition CommitReplay (j : Journal) : outcome (zx_status * Journal) :=
  _ ← ZX_DEBUG_ASSERT (bool_decide (j.(j_state) = kInit));
  entries ← SetBlockAt j.(entries_) 0 zero_block;
  let j := with_entries j entries in
  t ← AddTransaction j.(entries_) 0 (j.(start_block_) ⊞ 1) 1 NewWriteTxn;
  p ← EnqueueEntryWork j (with_transaction NewWork t);
  let '(status, j) := (p : zx_status * Journal) in
  if failed status then Returns (status, j)
  else
    p ← WriteInfo j j.(entries_).(b_start) j.(entries_).(b_length);
    let '(status, j) := (p : zx_status * Journal) in
    if failed status then Returns (status, j)
    else
      p ← EnqueueEntryWork j (SetSyncCallback NewWork tt);
      let '(status, j) := (p : zx_status * Journal) in
      if failed status then Returns (status, j)
      else
        (* waits for the callback of the work just queued, which is the last of the queue *)
        j ← thread_rounds (length j.(queue).(work_queue_)) j;
        Returns (ZX_OK, j).

Definition Replay (fuel : nat) (j : Journal) : outcome (zx_status * Journal) :=
  _ ← ZX_DEBUG_ASSERT (bool_decide (j.(j_state) = kInit));
  p ← replay_loop fuel j (field_get info_start_block j.(info_)) (field_get info_num_blocks j.(info_)) 0 0 0;
  let '(status, j, start, length, total_entries) := p in
  if failed status then Returns (status, j)
  else if negb (0 <? total_entries) && (start =? 0) && (length =? 0) then Returns (ZX_OK, with_state j kReady)
  else
    p ← CommitReplay j;
    let '(status, j) := (p : zx_status * Journal) in
    if failed status then Returns (status, j) else Returns (ZX_OK, with_state j kReady).

(** ** Loading *)

(** [read_status] is the status of the read of the device. *)
Definition Load (read_status : zx_status) (j : Journal) : outcome (zx_status * Journal) :=
  _ ← ZX_DEBUG_ASSERT (bool_decide (j.(j_state) = kInit));
  if failed read_status then Returns (read_status, j)
  else
    info ← array_get j.(store).(disk) j.(start_block_);
    _ ← ZX_ASSERT (j.(start_block_) + 1 + b_capacity j.(entries_) <=? Z.of_nat (length j.(store).(disk)));
    let data := take (length j.(entries_).(b_data)) (drop (Z.to_nat (j.(start_block_) + 1)) j.(store).(disk)) in
    let j := with_entries (with_info j info) (with_data j.(entries_) data) in
    if negb (field_get info_magic info =? kJournalMagic) then Returns (ZX_ERR_BAD_STATE, j)
    else if (0 <? field_get info_start_block info) || (0 <? field_get info_num_blocks info) || (0 <? field_get info_timestamp info) then
      let old_checksum := field_get info_checksum info in
      let j := with_info j (checksummed info) in
      if negb (old_checksum =? field_get info_checksum j.(info_)) then Returns (ZX_ERR_BAD_STATE, j) else Returns (ZX_OK, j)
    else Returns (ZX_OK, j).

End journal.
