(* ===== verification/JournalReplay.v ===== *)
(** * Replaying the journal: termination, and what reaches the device *)

From S2P Require Import Prelude RawBitmap MerkleTree Format Superblock Operations RingBuffer RingCopy WriteTxn Writeback Journal.

(** ** Termination, whatever the journal holds and the device does *)

Section termination.
Context (dev : Device) (crc32 : Z → list Z → Z) (sched : nat → nat).
Implicit Types j : Journal.

(** A call that ends and keeps the entries of the journal. *)
Definition ends {A} (get : A → Journal) j (m : outcome A) : Prop :=
  match m with
  | Returns a => (get a).(entries_) = j.(entries_)
  | Aborts => True
  | Diverges => False
  end.

Definition terminates {A} (m : outcome A) : Prop := match m with Diverges => False | _ => True end.

Lemma terminates_bind {A B} (m : outcome A) (f : A → outcome B) :
  terminates m → (∀ a, m = Returns a → terminates (f a)) → terminates (m ≫= f).
Proof. destruct m; cbn; auto. Qed.

Lemma terminates_assert b : terminates (ZX_DEBUG_ASSERT b).
Proof. by destruct b. Qed.

Lemma terminates_flush k id ops : terminates (flush_requests k id ops).
Proof.
  induction ops as [|o ops IH]; cbn [flush_requests]; [done|]. apply terminates_bind; [by unfold ZX_ASSERT; destruct (_ <? _)|].
  intros _ _. by apply terminates_bind.
Qed.

Lemma ends_bind {A B} (getA : A → Journal) (getB : B → Journal) j (m : outcome A) (f : A → outcome B) :
  ends getA j m → (∀ a, m = Returns a → (getA a).(entries_) = j.(entries_) → ends getB j (f a)) → ends getB j (m ≫= f).
Proof. destruct m; cbn; auto. Qed.

Lemma ends_pure {A B} (getB : B → Journal) j (m : outcome A) (f : A → outcome B) :
  terminates m → (∀ a, m = Returns a → ends getB j (f a)) → ends getB j (m ≫= f).
Proof. destruct m; cbn; auto. Qed.

Lemma terminates_thread others call (q : WritebackQueue unit) st : terminates (WritebackThread dev others call q st).
Proof.
  unfold WritebackThread. destruct (work_queue_ q) as [|w rest]; [done|]. destruct (if IsReadOnly q then _ else _) as [ready w'].
  destruct ready; [|done]. cbn [negb]. apply terminates_bind.
  { unfold VerifyTransaction. destruct (CheckBuffer _ _); [|done]. apply terminates_bind; [|done]. destruct (0 <? _); [|done].
    apply terminates_bind; [unfold BlkStart; apply terminates_bind; [apply terminates_assert|by destruct (WriteTxn.operations_ _)]|].
    intros s _. unfold ZX_ASSERT. by destruct (_ =? _), (_ <=? _). }
  intros ours _. apply terminates_bind.
  { destruct (IsReadOnly q); [done|]. apply terminates_bind; [apply terminates_assert|]. intros _ _. apply terminates_bind; [|by intros []].
    unfold Flush. apply terminates_bind; [by unfold ZX_ASSERT; destruct (IsBuffered _)|]. intros _ _. apply terminates_bind; [apply terminates_flush|done]. }
  intros [status st'] _. apply terminates_bind; [|done]. destruct ours; [|done]. unfold FreeSpace, ZX_DEBUG_ASSERT, ZX_ASSERT.
  by destruct (_ <=? _), (negb _).
Qed.

Lemma ends_thread_rounds n j : ends id j (thread_rounds dev n j).
Proof.
  assert (∀ j, ends id j (thread_round dev j)) as Hone.
  { intros i. unfold thread_round. apply ends_pure; [apply terminates_thread|]. by intros [[[[q st] status] cbs]|] _. }
  revert j. induction n as [|n IH]; intros j; cbn [thread_rounds]; [done|]. apply (ends_bind id); [apply Hone|].
  intros j1 _ Hj1. specialize (IH j1). unfold ends in *. destruct (thread_rounds dev n j1); [|done..]. by rewrite IH.
Qed.

(** A work that is in a buffer already never waits. *)
Lemma ends_EnqueueWork j w : IsBuffered w.(transaction_) = true → ends snd j (EnqueueWork dev sched j w).
Proof.
  intros Hb. unfold EnqueueWork. cbn [enqueue_wait]. assert (∃ status q, Queue_Enqueue (journal_vmos j) (queue j) w = Returns (Some (status, q))) as (status & q & ->).
  { unfold Queue_Enqueue. rewrite Hb. cbn [negb]. destruct (IsReadOnly _); eauto. }
  cbn [mbind outcome_bind]. set (j1 := with_queue j q (store j)). pose proof (ends_thread_rounds (sched (calls j1)) j1) as H.
  unfold ends in *. destruct (thread_rounds dev _ j1); cbn; [|done..]. exact H.
Qed.

Lemma ends_EnqueueEntryWork j w : ends snd j (EnqueueEntryWork dev sched j w).
Proof.
  unfold EnqueueEntryWork. apply ends_pure.
  - unfold ValidateTransaction. destruct (IsBuffered _); [by unfold ZX_DEBUG_ASSERT; destruct (CheckBuffer _ _)|].
    unfold SetBuffer, ZX_DEBUG_ASSERT. by destruct (forallb _ _), (_ || _), (negb _).
  - intros t Ht. apply ends_EnqueueWork. cbn [transaction_ with_transaction]. unfold ValidateTransaction in Ht. destruct (IsBuffered (transaction_ w)) eqn:Hb.
    + destruct (ZX_DEBUG_ASSERT _); [|done..]. cbn in Ht. by injection Ht as <-.
    + destruct (ZX_DEBUG_ASSERT _); [|done..]. cbn in Ht. unfold SetBuffer, ZX_DEBUG_ASSERT in Ht.
      destruct (_ || _); [|done]. cbn in Ht. destruct (negb _) eqn:Hid; [|done]. cbn in Ht. by injection Ht as <-.
Qed.

Lemma terminates_replay_blocks fuel b header h i t :
  i ≤ kMaxEntryDataBlocks → kMaxEntryDataBlocks + 1 ≤ i + Z.of_nat fuel → terminates (replay_blocks fuel b header h i t).
Proof.
  revert i t. induction fuel as [|fuel IH]; intros i t Hi Hf; cbn [replay_blocks]; [lia|]. destruct (negb _); [done|].
  destruct (Z.leb_spec kMaxEntryDataBlocks i); [done|]. apply terminates_bind; [|intros; apply IH; lia].
  unfold AddTransaction, Enqueue, ZX_DEBUG_ASSERT. by destruct (0 <? 1), (_ <=? _), (negb _), (negb _).
Qed.

Lemma terminates_at b i : terminates (BlockAt b i).
Proof.
  unfold BlockAt. apply terminates_bind; [apply terminates_assert|]. intros _ _. unfold array_get. destruct (i <? 0); [done|]. by destruct (_ !! _).
Qed.

Lemma terminates_verify b h ts : terminates (VerifyEntryMetadata crc32 b h ts).
Proof.
  unfold VerifyEntryMetadata. apply terminates_bind; [apply terminates_at|]. intros header _. destruct (_ || _); [done|].
  apply terminates_bind; [apply terminates_at|]. intros commit _. destruct (negb _); [done|]. destruct (negb _); [done|].
  apply terminates_bind; [|done]. unfold GenerateChecksum, ZX_DEBUG_ASSERT, ZX_ASSERT.
  destruct (negb _); [|done]. cbn. destruct (0 <? _); [|done]. cbn. destruct (_ <? b_capacity b); [|done]. cbn. by destruct (_ <=? _).
Qed.

(** A valid entry is newer than the one before, and its header is in the buffer. *)
Lemma verify_newer b h ts : VerifyEntryMetadata crc32 b h ts = Returns true →
  ∃ header, BlockAt b h = Returns header ∧ ts < field_get header_timestamp header.
Proof.
  unfold VerifyEntryMetadata. destruct (BlockAt b h) as [header| |]; [|done..]. cbn [mbind outcome_bind]. intros H. exists header. split; [done|].
  destruct (Z.leb_spec (field_get header_timestamp header) ts) as [|]; [|done]. rewrite orb_true_r in H. done.
Qed.

(** The blocks of the buffer that would be newer than [ts] as headers. *)
Definition newer (ts : Z) (b : Buffer) : nat := length (filter (λ x, ts < field_get header_timestamp x) b.(b_data)).

Lemma newer_drops b h ts header : BlockAt b h = Returns header → ts < field_get header_timestamp header →
  (newer (field_get header_timestamp header) b < newer ts b)%nat.
Proof.
  unfold BlockAt, ZX_DEBUG_ASSERT. destruct (_ <? _); [|done]. cbn [mbind outcome_bind]. intros [_ Hat]%array_get_returns Hts.
  assert (header ∈ b.(b_data)) as Hin by (by eapply list_elem_of_lookup_2).
  unfold newer. apply list_elem_of_split in Hin as (l1 & l2 & ->). rewrite !filter_app, !filter_cons, !length_app.
  rewrite decide_False by lia. rewrite decide_True by done. cbn [length].
  assert (∀ l : list block, Nat.le (length (filter (λ x, field_get header_timestamp header < field_get header_timestamp x) l))
    (length (filter (λ x, ts < field_get header_timestamp x) l))) as Hle.
  { intros l. induction l as [|x l IH]; [done|]. rewrite !filter_cons.
    destruct (decide (field_get header_timestamp header < _)), (decide (ts < _)); cbn [length]; unfold block in *; lia. }
  pose proof (Hle l1). pose proof (Hle l2). unfold block in *. lia.
Qed.

Lemma ends_ReplayEntry j h len ts : ends (λ p, snd (fst (fst p))) j (ReplayEntry dev crc32 sched j h len ts).
Proof.
  unfold ReplayEntry. apply ends_pure; [apply terminates_assert|]. intros _ _. apply ends_pure; [apply terminates_verify|]. intros [] _; [|done]. cbn [negb].
  apply ends_pure; [apply terminates_at|]. intros header _.
  apply ends_pure; [apply terminates_assert|]. intros _ _. apply ends_pure; [apply terminates_replay_blocks; unfold kMaxEntryDataBlocks; lia|]. intros t _.
  apply (ends_bind snd); [apply ends_EnqueueEntryWork|]. by intros [status j'] _ Hj.
Qed.

Lemma ReplayEntry_newer j h len ts status j' n ts' : ReplayEntry dev crc32 sched j h len ts = Returns (status, j', n, ts') →
  status ≠ ZX_ERR_OUT_OF_RANGE → ∃ header, BlockAt j.(entries_) h = Returns header ∧ ts < ts' ∧ ts' = field_get header_timestamp header.
Proof.
  unfold ReplayEntry. destruct (ZX_DEBUG_ASSERT _); [|done..]. cbn [mbind outcome_bind]. destruct (VerifyEntryMetadata _ _ _ _) as [[]| |] eqn:Hv; [|intros [= <- _ _ _]; done|done..].
  cbn [mbind outcome_bind negb]. destruct (verify_newer _ _ _ Hv) as (header & -> & Hts). cbn [mbind outcome_bind].
  destruct (ZX_DEBUG_ASSERT _); [|done..]. cbn [mbind outcome_bind]. destruct (replay_blocks _ _ _ _ _ _) as [t| |]; [|done..]. cbn [mbind outcome_bind].
  destruct (EnqueueEntryWork _ _ _ _) as [[st j1]| |]; [|done..]. cbn [mbind outcome_bind]. intros [= <- <- <- <-] _. eauto.
Qed.

Lemma terminates_replay_loop fuel j start len te tb ts : (newer ts j.(entries_) < fuel)%nat →
  terminates (replay_loop dev crc32 sched fuel j start len te tb ts).
Proof.
  revert j start len te tb ts. induction fuel as [|fuel IH]; intros j start len te tb ts Hf; cbn [replay_loop]; [lia|].
  pose proof (ends_ReplayEntry j start len ts) as He. destruct (ReplayEntry dev crc32 sched j start len ts) as [[[[status j'] n] ts']| |] eqn:E; cbn in *; [|done..].
  case_bool_decide as Hs; [done|]. destruct (failed status); [done|].
  destruct (ReplayEntry_newer _ _ _ _ _ _ _ _ E Hs) as (header & Hat & Hlt & ->). apply IH. rewrite He.
  pose proof (newer_drops _ _ _ _ Hat Hlt). lia.
Qed.

End termination.

(** ** The works of the replay *)

Lemma chained_fits cap v ops v' : chained cap v ops v' → Forall (λ o, op_fits o ∧ o.(u_op).(Operations.length_) ≤ v' - v) ops.
Proof.
  revert v. induction ops as [|o ops IH]; intros v; cbn; [constructor|]. intros (_ & Hf & _ & H). pose proof (chained_le _ _ _ _ H).
  constructor; [split; [done|lia]|]. eapply Forall_impl; [by apply IH|]. intros x [? ?]. split; [done|]. destruct Hf as (_ & _ & _ & ? & _). lia.
Qed.

Lemma mod_ne cap a b : 0 < b - a < cap → a mod cap ≠ b mod cap.
Proof.
  intros Hab He. assert ((b - a) mod cap = 0) as Hd by (by rewrite Zminus_mod, He, Z.sub_diag).
  rewrite Z.mod_small in Hd; lia.
Qed.

Lemma op_writes_app data o abs : op_fits o →
  let len := o.(u_op).(Operations.length_) in
  o.(u_op).(dev_offset) + len = abs →
  op_writes data (with_length o (len + 1)) =
    op_writes data o ++ [(abs, default zero_block (data !! Z.to_nat (o.(u_op).(vmo_offset) + len)))].
Proof.
  intros (_ & _ & _ & Hl & _) len Ha. unfold op_writes. cbn. fold len. rewrite map_seqZ_split by lia. f_equal.
  change (seqZ 0 1) with [0]. cbn [map]. by rewrite Z.add_0_r, Ha.
Qed.

Lemma op_writes_one data h v abs : op_writes data (write_op h v abs 1) = [(abs, default zero_block (data !! Z.to_nat v))].
Proof. unfold op_writes, write_op. cbn [u_op Operations.length_ dev_offset vmo_offset]. change (seqZ 0 1) with [0]. cbn [map]. by rewrite !Z.add_0_r. Qed.

(** One more block, the next one of the buffer, makes the last operation longer or is a new one. *)
Lemma enqueue_next cap data h abs : 0 < cap ≤ 2 ^ 40 → 0 ≤ abs < 2 ^ 40 →
  ∀ ops v v', 0 ≤ v → chained cap v ops v' → v' - v < cap → Forall (λ o, o.(vmo) = h) ops →
  let new := write_op h (v' mod cap) abs 1 in
  let ops' := match enqueue_loop ops h (v' mod cap) abs 1 with Some (ops', _) => ops' | None => ops ++ [new] end in
  chained cap v ops' (v' + 1) ∧ Forall (λ o, o.(vmo) = h) ops' ∧
  flat_map (op_writes data) ops' = flat_map (op_writes data) ops ++ [(abs, default zero_block (data !! Z.to_nat (v' mod cap)))].
Proof.
  intros Hcap Habs. induction ops as [|o ops IH]; intros v v' Hv Hch Hlt Hh.
  { cbn in Hch. subst v'. cbn [enqueue_loop app flat_map chained]. rewrite op_writes_one. pose proof (Z.mod_pos_bound v cap).
    split_and!; [done|repeat split; cbn; lia|cbn; lia|done|by constructor|done]. }
  cbn [chained] in Hch. destruct Hch as (Hoff & Hfit & Hcapo & Hch). apply Forall_cons in Hh as [Ho Hh]. pose proof (chained_le _ _ _ _ Hch) as Hle.
  pose proof Hfit as (_ & Hv0 & Hd0 & Hl & Hvl & Hdl). cbn zeta in *.
  specialize (IH (v + Operations.length_ (u_op o)) v' ltac:(lia) Hch ltac:(lia) Hh). cbn [enqueue_loop]. rewrite Ho, Z.eqb_refl. cbn [negb].
  assert (vmo_offset (u_op o) ≠ v' mod cap) as Hne by (rewrite Hoff; apply mod_ne; lia). rewrite (proj2 (Z.eqb_neq _ _) Hne). unwrap.
  destruct (Z.eqb_spec (vmo_offset (u_op o) + Operations.length_ (u_op o)) (v' mod cap)) as [He|]; cbn [andb].
  - assert (ops = []) as ->.
    { destruct ops as [|o2 ops]; [done|]. exfalso. cbn in Hch. destruct Hch as (_ & (_ & _ & _ & ? & _) & _ & H2%chained_le).
      apply (mod_ne cap (v + Operations.length_ (u_op o)) v'); [lia|]. rewrite <- (Zmod_mod v' cap), <- He, Hoff, Zplus_mod_idemp_l. done. }
    cbn in Hch. destruct (Z.eqb_spec (dev_offset (u_op o) + Operations.length_ (u_op o)) abs) as [Ha|].
    + cbn [chained with_length u_op vmo_offset dev_offset Operations.length_ flat_map]. rewrite !app_nil_r, (op_writes_app _ _ abs), He by done.
      pose proof (Z.mod_pos_bound v' cap). split_and!; [done|repeat split; cbn; (apply Hfit || lia)|lia|lia|by constructor|done].
    + cbn [enqueue_loop app flat_map] in IH |- *. destruct IH as (H1 & H2 & H3). cbn [chained] in H1 |- *.
      split; [tauto|]. split; [by constructor|]. rewrite H3. by rewrite app_nil_r.
  - destruct (enqueue_loop ops h (v' mod cap) abs 1) as [[ops1 added]|]; cbn [chained flat_map app]; destruct IH as (H1 & H2 & H3);
      (split_and!; [done|done|done|done|by constructor|rewrite H3; by rewrite app_assoc]).
Qed.

(** ** Entries *)

(** What an entry with its header at block [h] writes: its blocks to their targets. *)
Definition entry_writes (header : block) (data : list block) (h : Z) : list (Z * block) :=
  map (λ i, (field_get (target_block i) header, default zero_block (data !! Z.to_nat ((h + 1 + i) mod Z.of_nat (length data)))))
    (seqZ 0 (field_get header_num_blocks header)).

(** A header whose blocks fit the buffer, with targets on a device of up to 2^40 blocks. *)
Record header_ok (cap : Z) (header : block) : Prop := {
  hd_num : 0 ≤ field_get header_num_blocks header ≤ kMaxEntryDataBlocks;
  hd_cap : field_get header_num_blocks header + 2 ≤ cap;
  hd_targets : ∀ i, 0 ≤ i < field_get header_num_blocks header → 0 ≤ field_get (target_block i) header < 2 ^ 40;
}.

Lemma replay_blocks_ok fuel b header h i t :
  0 < b_capacity b ≤ 2 ^ 40 → b.(b_vmo) ≠ ZX_HANDLE_INVALID → 0 ≤ h < b_capacity b → header_ok (b_capacity b) header →
  let cap := b_capacity b in let num := field_get header_num_blocks header in
  0 ≤ i ≤ num → num < i + Z.of_nat fuel →
  t.(WriteTxn.vmoid_) = VMOID_INVALID → Forall (λ o, o.(vmo) = b.(b_vmo)) t.(WriteTxn.operations_) → chained cap (h + 1) t.(WriteTxn.operations_) (h + 1 + i) →
  ∃ t', replay_blocks fuel b header h i t = Returns t' ∧ t'.(WriteTxn.vmoid_) = VMOID_INVALID ∧
    Forall (λ o, o.(vmo) = b.(b_vmo)) t'.(WriteTxn.operations_) ∧ chained cap (h + 1) t'.(WriteTxn.operations_) (h + 1 + num) ∧
    ∀ data, flat_map (op_writes data) t'.(WriteTxn.operations_) = flat_map (op_writes data) t.(WriteTxn.operations_) ++
      map (λ k, (field_get (target_block k) header, default zero_block (data !! Z.to_nat ((h + 1 + k) mod cap)))) (seqZ i (num - i)).
Proof.
  intros Hcap Hvmo Hh [Hnum Hnc Htg] cap num. revert i t. fold num in Hnum, Hnc, Htg. fold cap in Hcap, Hh, Hnc. unfold kMaxEntryDataBlocks in Hnum.
  induction fuel as [|fuel IH]; intros i t Hi Hf Hid Hv Hch; cbn [replay_blocks]; [lia|]. fold num.
  destruct (Z.ltb_spec i num) as [Hlt|]; cbn [negb].
  2: { exists t. replace i with num in * by lia. rewrite Z.sub_diag. split_and!; [done..|]. intros data. by rewrite app_nil_r. }
  unfold kMaxEntryDataBlocks. ztest. fold cap. unwrap. replace (h + i + 1) with (h + 1 + i) by lia.
  pose proof (Z.mod_pos_bound (h + 1 + i) cap ltac:(lia)) as Hm. unfold AddTransaction, Enqueue, IsBuffered, ZX_DEBUG_ASSERT. fold cap. rewrite Hid. unwrap.
  ztest. cbn [negb Z.eqb VMOID_INVALID mbind outcome_bind Z.ltb Z.compare].
  set (abs := field_get (target_block i) header).
  assert (0 ≤ abs < 2 ^ 40) as Habs by (apply Htg; lia).
  pose proof (λ data, enqueue_next cap data (b_vmo b) abs Hcap Habs _ (h + 1) (h + 1 + i) ltac:(lia) Hch ltac:(lia) Hv) as Hnext. cbn zeta in Hnext.
  set (ops' := match enqueue_loop _ _ _ _ _ with Some _ => _ | None => _ end) in Hnext.
  match goal with |- context [replay_blocks fuel b header h (i + 1) ?x] => set (t1 := x) end.
  assert (WriteTxn.vmoid_ t1 = VMOID_INVALID ∧ WriteTxn.operations_ t1 = ops') as [Hid1 Hops1].
  { unfold t1, ops'. by destruct (enqueue_loop _ _ _ _ _) as [[? ?]|]. }
  destruct (IH (i + 1) t1) as (t' & -> & Hid' & Hv' & Hch' & Hw'); [lia|lia|done|rewrite Hops1; by apply (Hnext [])|rewrite Hops1, Z.add_assoc; apply (Hnext [])|].
  exists t'. split_and!; [done..|]. intros data. rewrite Hw', Hops1. destruct (Hnext data) as (_ & _ & ->). rewrite <- app_assoc. f_equal.
  rewrite (seqZ_cons i (num - i)) by lia. cbn [map app]. unfold abs. do 2 f_equal. f_equal; lia.
Qed.

Lemma replay_entry_txn b header h : 0 < b_capacity b ≤ 2 ^ 40 → b.(b_vmo) ≠ ZX_HANDLE_INVALID → 0 ≤ h < b_capacity b →
  header_ok (b_capacity b) header →
  ∃ t, replay_blocks (S (S (Z.to_nat kMaxEntryDataBlocks))) b header h 0 NewWriteTxn = Returns t ∧ t.(WriteTxn.vmoid_) = VMOID_INVALID ∧
    Forall (λ o, o.(vmo) = b.(b_vmo)) t.(WriteTxn.operations_) ∧
    chained (b_capacity b) (h + 1) t.(WriteTxn.operations_) (h + 1 + field_get header_num_blocks header) ∧
    ∀ data, length data = length b.(b_data) → flat_map (op_writes data) t.(WriteTxn.operations_) = entry_writes header data h.
Proof.
  intros Hcap Hvmo Hh Hok. pose proof Hok as [Hnum _ _].
  destruct (replay_blocks_ok (S (S (Z.to_nat kMaxEntryDataBlocks))) b header h 0 NewWriteTxn) as (t & E & Hid & Hv & Hch & Hw); try done.
  { lia. }
  { unfold kMaxEntryDataBlocks in *. lia. }
  { cbn. lia. }
  exists t. split_and!; [done..|]. intros data Hlen. rewrite Hw. unfold entry_writes. by rewrite Hlen, Z.sub_0_r.
Qed.

(** ** The journal and its write-back queue *)

Section replay.
Context (dev : Device) (crc32 : Z → list Z → Z) (sched : nat → nat) (ticks : nat → Z).
Context (Hdev : ∀ m, dev.(device_status) m = ZX_OK).
Implicit Types j : Journal.

(** The queue keeps the promises [ps]; the VMOs are distinct, and the journal is on the device. *)
Record journal_ok j (ps : list promise) : Prop := {
  jk_queue : ∃ base, queue_ok dev.(per_block) j.(queue) base ps;
  jk_entries : 0 < b_capacity j.(entries_) ≤ 2 ^ 32;
  jk_vmo : j.(entries_).(b_vmo) ≠ ZX_HANDLE_INVALID;
  jk_vmoid : j.(entries_).(b_vmoid) ≠ VMOID_INVALID ∧ j.(entries_).(b_vmoid) ≠ j.(queue).(buffer_).(b_vmoid);
  jk_info : j.(info_vmo) ≠ ZX_HANDLE_INVALID ∧ j.(info_vmo) ≠ j.(queue).(buffer_).(b_vmo);
  jk_room : 1 < b_capacity j.(queue).(buffer_);
  jk_start : 0 ≤ j.(start_block_) < 2 ^ 39;
}.

(** The two journals differ in the queue, the device and the counts only. *)
Definition same_rest j j' : Prop :=
  j'.(start_block_) = j.(start_block_) ∧ j'.(info_vmo) = j.(info_vmo) ∧ j'.(info_) = j.(info_) ∧
  j'.(entries_) = j.(entries_) ∧ j'.(j_state) = j.(j_state) ∧ j'.(clock) = j.(clock).

(** Of the works [L] queued since the device held [d], the first [n] are on the device. *)
Definition progress j (d : list block) (L : list promise) (n : nat) : Prop :=
  journal_ok j (drop n L) ∧ (n ≤ length L)%nat ∧ j.(store).(disk) = write_all d (flat_map (resolve (attached j)) (take n L)).

Lemma same_rest_trans j j' j'' : same_rest j j' → same_rest j' j'' → same_rest j j''.
Proof. unfold same_rest. intros (-> & -> & -> & -> & -> & ->). done. Qed.

Lemma attached_same j j' : same_rest j j' → attached j' = attached j.
Proof. unfold attached. by intros (_ & _ & _ & -> & _). Qed.

Lemma write_all_app d a b : write_all d (a ++ b) = write_all (write_all d a) b.
Proof. apply foldl_app. Qed.

Lemma journal_ok_same j j' ps ps' : journal_ok j ps → same_rest j j' → same_vmo j.(queue).(buffer_) j'.(queue).(buffer_) →
  (∃ base, queue_ok dev.(per_block) j'.(queue) base ps') → journal_ok j' ps'.
Proof.
  intros [_ ? ? ? ? ? ?] (E1 & E2 & _ & E4 & _ & _) (V1 & V2 & V3) Hq. constructor; rewrite ?E1, ?E2, ?E4, ?V1, ?V2, ?V3; done.
Qed.

(** The thread writes the next work, if there is one. *)
Lemma thread_round_ok j d L n : progress j d L n →
  ∃ j', thread_round dev j = Returns j' ∧ progress j' d L (S n `min` length L) ∧ same_rest j j' ∧ j'.(calls) = j.(calls).
Proof.
  intros (Hok & Hn & Hd). destruct (drop n L) as [|p ps] eqn:Edrop.
  - assert (n = length L) as -> by (apply (f_equal length) in Edrop; rewrite length_drop in Edrop; cbn in Edrop; lia).
    exists j. pose proof Hok as [[base Hq] _ _ _ _ _ _]. pose proof (keeps_all_length _ _ _ _ _ _ (qk_works _ _ _ _ Hq)) as Hlen.
    assert (work_queue_ (queue j) = []) as He by (by destruct (work_queue_ (queue j))). rewrite Nat.min_r by lia.
    split; [unfold thread_round, WritebackThread; by rewrite He|]. split; [|done]. split; [by rewrite Edrop|done].
  - assert (L !! n = Some p) as Hp by (rewrite <- (Nat.add_0_r n), <- lookup_drop, Edrop; done). pose proof (lookup_lt_Some _ _ _ Hp) as Hlt.
    assert (drop (S n) L = ps) as HdropS by (rewrite <- Nat.add_1_r, <- drop_drop, Edrop; done).
    pose proof Hok as [[base Hq] _ _ _ _ _ _].
    destruct (Thread_ok _ dev (attached j) (λ _, true) (queue j) (store j) base p ps Hq eq_refl (Hdev _)) as (q' & base' & w & rest & _ & E & _ & Hq' & Hsame).
    { intros w rest _. unfold IsReady. by destruct (ready_cb_ w). }
    unfold thread_round. rewrite E. cbn [mbind outcome_bind]. eexists. split; [done|]. rewrite Nat.min_l by lia.
    split; [split; [|split; [lia|]]|done].
    + eapply journal_ok_same; [exact Hok|done|done|]. exists base'. by rewrite HdropS.
    + cbn [store with_queue disk]. rewrite Hd, (take_S_r _ _ _ Hp), flat_map_app, write_all_app. cbn [flat_map]. by rewrite app_nil_r.
Qed.

Lemma thread_rounds_ok m j d L n : progress j d L n →
  ∃ j', thread_rounds dev m j = Returns j' ∧ progress j' d L ((n + m) `min` length L) ∧ same_rest j j' ∧ j'.(calls) = j.(calls).
Proof.
  revert j n. induction m as [|m IH]; intros j n Hp; cbn [thread_rounds].
  { exists j. split_and!; try done. rewrite Nat.add_0_r, Nat.min_l; [done|apply Hp]. }
  destruct (thread_round_ok _ _ _ _ Hp) as (j1 & -> & Hp1 & Hs1 & Hc1). cbn [mbind outcome_bind].
  destruct (IH _ _ Hp1) as (j2 & -> & Hp2 & Hs2 & Hc2). exists j2. split_and!; [done| |by eapply same_rest_trans|congruence].
  replace ((n + S m) `min` length L)%nat with ((S n `min` length L + m) `min` length L)%nat by lia. done.
Qed.

(** Once the queue has accepted a work, the thread runs as long as it is scheduled. *)
Lemma after_enqueue j d L n p q' status : progress j d L n → (∃ base, queue_ok dev.(per_block) q' base (drop n L ++ [p])) →
  same_vmo j.(queue).(buffer_) q'.(buffer_) →
  ∃ j' n', (j'' ← thread_rounds dev (sched j.(calls)) (with_queue j q' j.(store)); Returns (status, with_counts j'' (S j.(calls)) j''.(clock))) = Returns (status : zx_status, j') ∧
    progress j' d (L ++ [p]) n' ∧ same_rest j j' ∧ (sched j.(calls) = 0%nat → n' = n).
Proof.
  intros (Hok & Hn & Hd) Hq Hsame. set (j1 := with_queue j q' (store j)).
  assert (progress j1 d (L ++ [p]) n) as Hp1.
  { split_and!; [|rewrite length_app; lia|by rewrite take_app_le]. rewrite drop_app_le by done. eapply journal_ok_same; [exact Hok|done|done|done]. }
  destruct (thread_rounds_ok (sched (calls j)) _ _ _ _ Hp1) as (j2 & -> & Hp2 & Hs2 & Hc2). cbn [mbind outcome_bind].
  eexists _, ((n + sched (calls j)) `min` length (L ++ [p]))%nat. split; [done|]. split; [|split; [done|intros ->; rewrite length_app; lia]].
  destruct Hp2 as ([? ? ? ? ? ? ?] & ? & ?). split_and!; [|done|done]. by constructor.
Qed.

(** A work of the journal's buffer is queued at once. *)
Lemma EnqueueEntryWork_ok j d L n w :
  progress j d L n → w.(transaction_).(WriteTxn.vmoid_) = VMOID_INVALID →
  Forall (λ o, o.(vmo) = j.(entries_).(b_vmo)) w.(transaction_).(WriteTxn.operations_) →
  Forall (λ o, op_fits o ∧ o.(u_op).(Operations.length_) ≤ 2 ^ 10) w.(transaction_).(WriteTxn.operations_) →
  ∃ j' n' ops, EnqueueEntryWork dev sched j w = Returns (ZX_OK, j') ∧ progress j' d (L ++ [Live j.(entries_).(b_vmoid) ops]) n' ∧ same_rest j j' ∧
    (sched j.(calls) = 0%nat → n' = n) ∧ ∀ data, flat_map (op_writes data) ops = flat_map (op_writes data) w.(transaction_).(WriteTxn.operations_).
Proof.
  intros Hp Hid Hv Hfit. pose proof Hp as (Hok & _). pose proof Hok as [[base Hq] _ _ [Hvmoid Hne] _ _ _]. pose proof Hq as [_ (Hk & _) _ _].
  unfold EnqueueEntryWork, ValidateTransaction, IsBuffered. rewrite Hid. cbn [Z.eqb VMOID_INVALID negb].
  assert (forallb (λ o, vmo o =? b_vmo (entries_ j)) (WriteTxn.operations_ (transaction_ w)) = true) as ->.
  { apply forallb_forall. intros o Ho%list_elem_of_In. apply Z.eqb_eq. by apply (proj1 (Forall_forall _ _) Hv). }
  cbn [ZX_DEBUG_ASSERT mbind outcome_bind]. unfold SetBuffer. cbn [WriteTxn.vmoid_ Z.eqb VMOID_INVALID orb ZX_DEBUG_ASSERT mbind outcome_bind].
  rewrite (proj2 (Z.eqb_neq _ _) Hvmoid). cbn [negb ZX_DEBUG_ASSERT mbind outcome_bind WriteTxn.operations_ WriteTxn.block_count_].
  set (ops := map _ (WriteTxn.operations_ (transaction_ w))). unfold EnqueueWork. cbn [enqueue_wait].
  match goal with |- context [Queue_Enqueue ?v ?q ?w'] => destruct (Enqueue_live (dev.(per_block)) v q base _ w' ops Hq) as (q' & -> & Hq' & Hbuf) end; [done|done|done| |].
  { unfold ops. apply Forall_map. eapply Forall_impl; [exact Hfit|]. intros o [Ho Hl]. split; [done|]. cbn. unfold UINT32_MAX. nia. }
  cbn [mbind outcome_bind]. cbn [transaction_ with_transaction WriteTxn.vmoid_] in Hq'.
  destruct (after_enqueue j d L n (Live (b_vmoid (entries_ j)) ops) q' ZX_OK Hp) as (j' & n' & E & Hp' & Hs' & Hz'); [by exists base|by rewrite Hbuf|].
  exists j', n', ops. split_and!; [exact E|done|done|done|]. intros data. unfold ops. rewrite flat_map_concat_map, map_map, <- flat_map_concat_map. done.
Qed.

(** The info block is copied, after a wait for space if need be. *)
Lemma enqueue_wait_ok j d L n w fuel :
  progress j d L n → w.(transaction_) = {| WriteTxn.vmoid_ := VMOID_INVALID; WriteTxn.operations_ := [write_op j.(info_vmo) 0 j.(start_block_) 1]; WriteTxn.block_count_ := 1 |} →
  (length L - n < fuel)%nat →
  ∃ j1 n1 q', enqueue_wait dev fuel j w = Returns (ZX_OK, with_queue j1 q' j1.(store)) ∧ progress j1 d L n1 ∧ same_rest j j1 ∧ j1.(calls) = j.(calls) ∧
    (∃ base, queue_ok dev.(per_block) q' base (drop n1 L ++ [Captured [(j.(start_block_), j.(info_))]])) ∧ same_vmo j1.(queue).(buffer_) q'.(buffer_).
Proof.
  revert j n. induction fuel as [|fuel IH]; intros j n Hp Hw Hf; [lia|]. cbn [enqueue_wait]. pose proof Hp as (Hok & Hn & _).
  pose proof Hok as [[base Hq] _ _ _ [Hi1 Hi2] Hroom Hst]. pose proof (Enqueue_copies dev.(per_block) (journal_vmos j) (queue j) base _ w Hq) as H. rewrite Hw in H.
  cbn [WriteTxn.vmoid_ WriteTxn.operations_ WriteTxn.block_count_] in H. assert (blocks [write_op (info_vmo j) 0 (start_block_ j) 1] = 1) as Eb by done. rewrite Eb in H.
  specialize (H eq_refl). assert (copyable (journal_vmos j) (buffer_ (queue j)) (write_op (info_vmo j) 0 (start_block_ j) 1)) as Hcp.
  { split_and!; [repeat split; cbn; lia|done|done|done|exact Hroom]. }
  specialize (H (proj2 (Forall_singleton _ _) Hcp) eq_refl ltac:(lia)).
  destruct (Z.leb_spec (b_length (buffer_ (queue j)) + 1) (b_capacity (buffer_ (queue j)))) as [Hle|Hgt].
  - destruct H as (q' & -> & Hq' & Hsame). cbn [mbind outcome_bind]. exists j, n, q'. split_and!; try done. exists base.
    cbn [flat_map app] in Hq'. replace (vmo_writes _ _ ++ []) with [(start_block_ j, info_ j)] in Hq'; [done|].
    rewrite app_nil_r. unfold vmo_writes, write_op. cbn [u_op Operations.length_ dev_offset vmo_offset vmo]. change (seqZ 0 1) with [0]. cbn [map].
    unfold journal_vmos. cbn [vmo_block]. by rewrite Z.eqb_refl, Z.add_0_r.
  - rewrite H. cbn [mbind outcome_bind]. destruct (decide (n = length L)) as [->|Hnl].
    { exfalso. rewrite drop_ge in Hq by done. pose proof (qk_works _ _ _ _ Hq) as Hk. destruct (work_queue_ (queue j)); [cbn in Hk; lia|done]. }
    destruct (thread_round_ok _ _ _ _ Hp) as (j1 & -> & Hp1 & Hs1 & Hc1). cbn [mbind outcome_bind].
    pose proof Hs1 as (E1 & E2 & E3 & _). destruct (IH j1 (S n `min` length L)%nat Hp1) as (j2 & n2 & q' & E & Hp2 & Hs2 & Hc2 & Hq2 & Hv2); [by rewrite E1, E2|lia|].
    exists j2, n2, q'. rewrite E1, E3 in Hq2. split_and!; [done|done|by eapply same_rest_trans|congruence|done|done].
Qed.

Lemma EnqueueWork_info j d L n w :
  progress j d L n → w.(transaction_) = {| WriteTxn.vmoid_ := VMOID_INVALID; WriteTxn.operations_ := [write_op j.(info_vmo) 0 j.(start_block_) 1]; WriteTxn.block_count_ := 1 |} →
  ∃ j' n', EnqueueWork dev sched j w = Returns (ZX_OK, j') ∧ progress j' d (L ++ [Captured [(j.(start_block_), j.(info_))]]) n' ∧ same_rest j j'.
Proof.
  intros Hp Hw. pose proof Hp as ([[base Hq] _ _ _ _ _ _] & Hn & _). pose proof (keeps_all_length _ _ _ _ _ _ (qk_works _ _ _ _ Hq)) as Hlen. rewrite length_drop in Hlen.
  destruct (enqueue_wait_ok j d L n w (S (length (work_queue_ (queue j)))) Hp Hw ltac:(lia)) as (j1 & n1 & q' & E & Hp1 & Hs1 & Hc1 & Hq1 & Hv1).
  unfold EnqueueWork. rewrite E. cbn [mbind outcome_bind].
  destruct (after_enqueue j1 d L n1 _ q' ZX_OK Hp1 Hq1 Hv1) as (j' & n' & E' & Hp' & Hs' & _). exists j', n'. split_and!; [exact E'|done|by eapply same_rest_trans].
Qed.

(** ** The loop over the entries *)

(** The entries from block [start] on, each newer than the one before, up to one that is not valid;
    [len] is what is left of the length that the info block gives. *)
Inductive entries_from (b : Buffer) : Z → Z → Z → list (Z * block) → Z → Z → Prop :=
| ef_stop start len ts : VerifyEntryMetadata crc32 b start ts = Returns false → entries_from b start len ts [] start len
| ef_entry start len ts header hs e el :
    VerifyEntryMetadata crc32 b start ts = Returns true → b.(b_data) !! Z.to_nat start = Some header → header_ok (b_capacity b) header →
    let n := field_get header_num_blocks header + 2 in
    (len = 0 ∨ n ≤ len) →
    entries_from b ((start + n) mod b_capacity b) (if len =? 0 then 0 else len - n) (field_get header_timestamp header) hs e el →
    entries_from b start len ts ((start, header) :: hs) e el.

(** The work that replays an entry. *)
Definition replays (b : Buffer) (x : Z * block) (p : promise) : Prop :=
  ∃ ops, p = Live b.(b_vmoid) ops ∧
    ∀ data, length data = length b.(b_data) → flat_map (op_writes data) ops = entry_writes (snd x) data (fst x).

Lemma entries_from_newer b start len ts hs e el : entries_from b start len ts hs e el → (length hs ≤ newer ts b)%nat.
Proof.
  induction 1 as [|start len ts header hs e el Hv Hat Hok n Hlen _ IH]; cbn [length]; [lia|].
  destruct (verify_newer _ _ _ _ Hv) as (header' & Hat' & Hts). pose proof (newer_drops _ _ _ _ Hat' Hts).
  unfold BlockAt, ZX_DEBUG_ASSERT in Hat'. destruct (_ <? _); [|done]. cbn [mbind outcome_bind] in Hat'. apply array_get_returns in Hat' as [_ Hat'].
  assert (header' = header) as -> by congruence. lia.
Qed.

Lemma ReplayEntry_ok j d L n start header len ts :
  progress j d L n → j.(j_state) = kInit → 0 ≤ start < b_capacity j.(entries_) →
  VerifyEntryMetadata crc32 j.(entries_) start ts = Returns true → j.(entries_).(b_data) !! Z.to_nat start = Some header →
  header_ok (b_capacity j.(entries_)) header → (len = 0 ∨ field_get header_num_blocks header + 2 ≤ len) →
  ∃ j' n' p, ReplayEntry dev crc32 sched j start len ts =
      Returns (ZX_OK, j', field_get header_num_blocks header + 2, field_get header_timestamp header) ∧
    progress j' d (L ++ [p]) n' ∧ same_rest j j' ∧ replays j.(entries_) (start, header) p ∧ ((∀ c, sched c = 0%nat) → n' = n).
Proof.
  intros Hp Hst Hs Hv Hat Hok Hlen. pose proof Hp as ([_ Hcap Hvmo _ _ _ _] & _). pose proof Hok as [Hnum Hnc _]. unfold kMaxEntryDataBlocks in Hnum.
  unfold ReplayEntry. rewrite Hst, bool_decide_true by done. cbn [ZX_DEBUG_ASSERT mbind outcome_bind]. rewrite Hv. cbn [mbind outcome_bind negb].
  assert (BlockAt (entries_ j) start = Returns header) as ->.
  { unfold BlockAt, ZX_DEBUG_ASSERT. ztest. cbn [mbind outcome_bind]. apply array_get_returns. split; [lia|done]. }
  cbn [mbind outcome_bind]. unwrap. assert ((len =? 0) || (field_get header_num_blocks header + 2 <=? len) = true) as ->.
  { destruct Hlen as [->|Hl]; [done|]. apply orb_true_iff. right. by apply Z.leb_le. }
  cbn [ZX_DEBUG_ASSERT mbind outcome_bind].
  destruct (replay_entry_txn (entries_ j) header start ltac:(lia) Hvmo Hs Hok) as (t & -> & Hid & Hvm & Hch & Hw). cbn [mbind outcome_bind].
  destruct (EnqueueEntryWork_ok j d L n (with_transaction NewWork t) Hp Hid Hvm) as (j' & n' & ops & -> & Hp' & Hs' & Hz' & Hops).
  { eapply Forall_impl; [exact (chained_fits _ _ _ _ Hch)|]. intros o [? ?]. split; [done|]. lia. }
  cbn [mbind outcome_bind]. exists j', n', (Live (b_vmoid (entries_ j)) ops). split_and!; [done|done|done| |auto]. exists ops. split; [done|].
  intros data Hd. rewrite Hops. by apply Hw.
Qed.

Lemma replay_loop_ok fuel j d L n start len ts hs e el te tb :
  entries_from j.(entries_) start len ts hs e el → progress j d L n → j.(j_state) = kInit →
  0 ≤ start < b_capacity j.(entries_) → 0 ≤ len < 2 ^ 64 → (length hs < fuel)%nat → 0 ≤ te → te + Z.of_nat (length hs) < 2 ^ 64 →
  ∃ j' n' ps, replay_loop dev crc32 sched fuel j start len te tb ts = Returns (ZX_OK, j', e, el, te + Z.of_nat (length hs)) ∧
    progress j' d (L ++ ps) n' ∧ same_rest j j' ∧ Forall2 (replays j.(entries_)) hs ps ∧ ((∀ c, sched c = 0%nat) → n' = n).
Proof.
  intros H. remember j.(entries_) as b eqn:Eb. revert j n L fuel te tb Eb.
  induction H as [start len ts Hv|start len ts header hs e el Hv Hat Hok nb Hlen Hrest IH]; intros j n L fuel te tb Eb Hp Hst Hs Hl Hf Hte Hmax;
    (destruct fuel as [|fuel]; [cbn in Hf; lia|]); cbn [replay_loop]; subst b.
  - unfold ReplayEntry. rewrite Hst, bool_decide_true by done. cbn [ZX_DEBUG_ASSERT mbind outcome_bind]. rewrite Hv. cbn [mbind outcome_bind negb].
    rewrite bool_decide_true by done. exists j, n, []. rewrite app_nil_r. cbn [length]. rewrite Z.add_0_r. split_and!; done.
  - pose proof Hok as [Hnum Hnc _]. unfold kMaxEntryDataBlocks in Hnum.
    destruct (ReplayEntry_ok j d L n start header len ts Hp Hst Hs Hv Hat Hok Hlen) as (j1 & n1 & p & -> & Hp1 & Hs1 & Hr & Hz1). cbn [mbind outcome_bind].
    rewrite bool_decide_false, failed_ok by done. fold nb. cbn [length] in *. pose proof Hp as ([_ Hcap _ _ _ _ _] & _).
    pose proof Hs1 as (_ & _ & _ & Eent & Est & _). rewrite Eent. assert (0 ≤ nb) by (unfold nb; lia).
    replace (if negb (len =? 0) then len ⊟ nb else len) with (if len =? 0 then 0 else len - nb); [|destruct (Z.eqb_spec len 0); cbn [negb]; [lia|destruct Hlen; [lia|]; by unwrap]].
    unwrap. destruct (IH j1 n1 (L ++ [p]) fuel (te + 1) (tb ⊞ nb)) as (j' & n' & ps & E & Hp' & Hs' & Hrs & Hz'); try done; try lia.
    + by rewrite Est.
    + apply Z.mod_pos_bound. lia.
    + destruct (Z.eqb_spec len 0); [lia|]. destruct Hlen; lia.
    + exists j', n', (p :: ps). rewrite <- app_assoc in Hp'. split_and!; [|exact Hp'|by eapply same_rest_trans|by constructor|intros Hz; rewrite Hz', Hz1; done].
      rewrite E. do 2 f_equal. lia.
Qed.

(** ** Resetting the journal *)

(** The buffer of entries with its first block cleared. *)
Definition cleared (b : Buffer) : Buffer := with_data b (<[0%nat := zero_block]> b.(b_data)).

(** The info block that the journal has after the replay, and whether it is written. *)
Definition reset_info j : block :=
  let info := field_set info_start_block j.(info_) j.(entries_).(b_start) in
  let info := field_set info_num_blocks info j.(entries_).(b_length) in
  checksummed crc32 (field_set info_timestamp info (ticks j.(clock))).

Definition info_is_reset j : bool :=
  (j.(entries_).(b_start) =? field_get info_start_block j.(info_)) && (j.(entries_).(b_length) =? field_get info_num_blocks j.(info_)).

Definition reset_writes j : list (Z * block) :=
  (j.(start_block_) + 1, zero_block) :: if info_is_reset j then [] else [(j.(start_block_), reset_info j)].

Lemma progress_restart j d L n b : progress j d L n → same_vmo j.(entries_) b →
  progress (with_entries j b) j.(store).(disk) (drop n L) 0.
Proof.
  intros ([Hq Hcap Hvmo Hid Hinfo Hroom Hst] & _ & _) (V1 & V2 & V3). split_and!; [|lia|done].
  rewrite drop_0. constructor; cbn [entries_ with_entries queue info_vmo start_block_]; rewrite ?V1, ?V2, ?V3; done.
Qed.

Lemma WriteInfo_ok j d L n : progress j d L n →
  ∃ j' n', WriteInfo dev crc32 sched ticks j j.(entries_).(b_start) j.(entries_).(b_length) = Returns (ZX_OK, j') ∧
    progress j' d (L ++ if info_is_reset j then [] else [Captured [(j.(start_block_), reset_info j)]]) n' ∧
    j'.(entries_) = j.(entries_) ∧ j'.(j_state) = j.(j_state) ∧ j'.(start_block_) = j.(start_block_) ∧
    j'.(info_) = if info_is_reset j then j.(info_) else reset_info j.
Proof.
  intros Hp. unfold WriteInfo. fold (info_is_reset j). destruct (info_is_reset j); [exists j, n; rewrite app_nil_r; by split_and!|].
  fold (reset_info j). set (j1 := with_counts _ _ _). assert (progress j1 d L n) as Hp1.
  { destruct Hp as ([? ? ? ? ? ? ?] & ? & ?). split_and!; [by constructor|done|done]. }
  pose proof Hp1 as ([_ _ _ _ [Hi _] _ _] & _). unfold Enqueue. rewrite (proj2 (Z.eqb_neq _ _) Hi). cbn [negb IsBuffered NewWriteTxn WriteTxn.vmoid_ VMOID_INVALID Z.eqb ZX_DEBUG_ASSERT mbind outcome_bind enqueue_loop WriteTxn.operations_ app WriteTxn.block_count_].
  destruct (EnqueueWork_info j1 d L n (with_transaction NewWork {| WriteTxn.vmoid_ := VMOID_INVALID; WriteTxn.operations_ := [write_op j1.(info_vmo) 0 j1.(start_block_) 1]; WriteTxn.block_count_ := 1 |}) Hp1 eq_refl)
    as (j' & n' & E & Hp' & (Hs1 & Hs2 & Hs3 & Hs4 & Hs5 & Hs6)).
  exists j', n'. split_and!; [exact E|exact Hp'|exact Hs4|exact Hs5|exact Hs1|exact Hs3].
Qed.

Lemma CommitReplay_ok j d L n : progress j d L n → j.(j_state) = kInit →
  ∃ j', CommitReplay dev crc32 sched ticks j = Returns (ZX_OK, j') ∧ journal_ok j' [] ∧ j'.(entries_) = cleared j.(entries_) ∧
    j'.(start_block_) = j.(start_block_) ∧ j'.(info_) = (if info_is_reset j then j.(info_) else reset_info j) ∧
    j'.(store).(disk) = write_all j.(store).(disk)
      (flat_map (resolve (attached (with_entries j (cleared j.(entries_))))) (drop n L) ++ reset_writes j).
Proof.
  intros Hp Hst. pose proof Hp as ([_ Hcap Hvmo [Hid _] _ _ Hs] & _). unfold CommitReplay. rewrite Hst, bool_decide_true by done. unfold SetBlockAt, ZX_DEBUG_ASSERT at 1 2. ztest. cbn [mbind outcome_bind].
  change (Z.to_nat 0) with 0%nat. fold (cleared (entries_ j)). assert (same_vmo (entries_ j) (cleared (entries_ j))) as Hsv by (split_and!; [done|done|unfold b_capacity; cbn; by rewrite length_insert]).
  pose proof (progress_restart _ _ _ _ _ Hp Hsv) as Hp1. set (j1 := with_entries j (cleared (entries_ j))) in *.
  assert (b_capacity (entries_ j1) = b_capacity (entries_ j)) as Hc1 by apply Hsv.
  unfold AddTransaction, Enqueue, ZX_DEBUG_ASSERT. rewrite Hc1. change (start_block_ j1) with (start_block_ j). change (b_vmo (entries_ j1)) with (b_vmo (entries_ j)). unwrap. ztest.
  cbn [negb IsBuffered NewWriteTxn WriteTxn.vmoid_ VMOID_INVALID Z.eqb Z.ltb Z.compare mbind outcome_bind enqueue_loop WriteTxn.operations_ app WriteTxn.block_count_].
  match goal with |- context [EnqueueEntryWork dev sched j1 ?w] => destruct (EnqueueEntryWork_ok j1 _ _ _ w Hp1 eq_refl) as (j2 & n2 & ops & -> & Hp2 & Hs2 & _ & Hops) end;
    [by apply Forall_singleton|apply Forall_singleton; split; [repeat split; cbn; lia|cbn; lia]|].
  cbn [mbind outcome_bind]. rewrite failed_ok. pose proof Hs2 as (Es2 & _ & Ei2 & Ee2 & Est2 & Ec2).
  destruct (WriteInfo_ok _ _ _ _ Hp2) as (j3 & n3 & -> & Hp3 & Ee3 & Est3 & Es3 & Ei3). cbn [mbind outcome_bind]. rewrite failed_ok.
  destruct (EnqueueEntryWork_ok j3 _ _ _ (SetSyncCallback NewWork tt) Hp3 eq_refl) as (j4 & n4 & ops4 & -> & Hp4 & Hs4 & _ & Hops4); [constructor|constructor|].
  cbn [mbind outcome_bind]. rewrite failed_ok. destruct (thread_rounds_ok (length (work_queue_ (queue j4))) _ _ _ _ Hp4) as (j5 & -> & Hp5 & Hs5 & _).
  cbn [mbind outcome_bind]. exists j5. split; [done|].
  pose proof Hs4 as (Es4 & _ & Ei4 & Ee4 & _). pose proof Hs5 as (Es5 & _ & Ei5 & Ee5 & _).
  pose proof Hp4 as ([[base4 Hq4] _ _ _ _ _ _] & Hn4 & _). pose proof (keeps_all_length _ _ _ _ _ _ (qk_works _ _ _ _ Hq4)) as Hlen. rewrite length_drop in Hlen.
  set (L4 := (_ ++ _) ++ [Live _ ops4]) in *. replace ((n4 + _) `min` _)%nat with (length L4) in Hp5 by lia. destruct Hp5 as (Hok5 & _ & Hd5).
  rewrite drop_all in Hok5. rewrite firstn_all in Hd5. assert (entries_ j5 = cleared (entries_ j)) as Ee by (rewrite Ee5, Ee4, Ee3, Ee2; done).
  assert (info_is_reset j2 = info_is_reset j ∧ reset_info j2 = reset_info j) as [Er1 Er2] by (unfold info_is_reset, reset_info; rewrite Ee2, Ei2, Ec2; done).
  split_and!; [done|done|by rewrite Es5, Es4, Es3, Es2|rewrite Ei5, Ei4, Ei3, Er1, Er2, Ei2; done|].
  rewrite Hd5. assert (attached j5 = attached j1) as -> by (unfold attached; rewrite Ee; done).
  unfold L4. rewrite !flat_map_app, <- !app_assoc. do 2 f_equal. cbn [flat_map resolve]. rewrite Hops, Hops4, Er1, Er2, Es2.
  cbn [transaction_ with_transaction SetSyncCallback NewWork NewWriteTxn WriteTxn.operations_ flat_map]. rewrite !app_nil_r.
  unfold reset_writes, op_writes. cbn [u_op Operations.length_ dev_offset vmo_offset]. change (seqZ 0 1) with [0]. cbn [map app].
  unfold attached. change (b_vmoid (entries_ j1)) with (b_vmoid (entries_ j)). rewrite Z.eqb_refl, !Z.add_0_r. cbn [entries_ j1 with_entries cleared b_data with_data].
  rewrite list_lookup_insert_eq by (unfold b_capacity in Hcap; lia). cbn [default]. f_equal. by destruct (info_is_reset j).
Qed.

(** ** The whole replay *)

(** What the entries write, with the data of [b]. *)
Definition entries_write (b : Buffer) (hs : list (Z * block)) : list (Z * block) :=
  flat_map (λ x, entry_writes (snd x) b.(b_data) (fst x)) hs.

Lemma replays_resolve b others hs ps : Forall2 (replays b) hs ps → length (others b.(b_vmoid)) = length b.(b_data) →
  flat_map (resolve others) ps = flat_map (λ x, entry_writes (snd x) (others b.(b_vmoid)) (fst x)) hs.
Proof. intros H Hl. induction H as [|x p hs ps (ops & -> & Hw) _ IH]; [done|]. cbn [flat_map resolve]. by rewrite IH, Hw. Qed.

Lemma newer_length b ts : (newer ts b ≤ length b.(b_data))%nat.
Proof. unfold newer. apply length_filter. Qed.

Lemma Replay_ok fuel j hs e el :
  let start := field_get info_start_block j.(info_) in let len := field_get info_num_blocks j.(info_) in
  journal_ok j [] → j.(j_state) = kInit → 0 ≤ start < b_capacity j.(entries_) → 0 ≤ len < 2 ^ 64 →
  entries_from j.(entries_) start len 0 hs e el → (length j.(entries_).(b_data) < fuel)%nat →
  ∃ j', Replay dev crc32 sched ticks fuel j = Returns (ZX_OK, j') ∧ j'.(j_state) = kReady ∧ journal_ok j' [] ∧ j'.(start_block_) = j.(start_block_) ∧
    if bool_decide (hs = []) && (e =? 0) && (el =? 0) then j'.(store) = j.(store) ∧ j'.(entries_) = j.(entries_) ∧ j'.(info_) = j.(info_)
    else j'.(entries_) = cleared j.(entries_) ∧ j'.(info_) = (if info_is_reset j then j.(info_) else reset_info j) ∧
      ∃ m, ((∀ c, sched c = 0%nat) → m = 0%nat) ∧
        j'.(store).(disk) = write_all j.(store).(disk)
          (entries_write j.(entries_) (take m hs) ++ entries_write (cleared j.(entries_)) (drop m hs) ++ reset_writes j).
Proof.
  intros start len Hok Hst Hs Hl Hent Hfuel. pose proof (entries_from_newer _ _ _ _ _ _ _ Hent) as Hn. pose proof (newer_length j.(entries_) 0) as Hn2.
  pose proof Hok as [_ Hcap _ _ _ _ _]. unfold b_capacity in Hcap.
  assert (progress j j.(store).(disk) [] 0) as Hp by (split_and!; done).
  destruct (replay_loop_ok fuel j _ [] 0 start len 0 hs e el 0 0 Hent Hp Hst Hs Hl) as (j1 & n & ps & E & Hp1 & Hs1 & Hrs & Hz); [lia|lia|lia|].
  unfold Replay. rewrite Hst, bool_decide_true by done. cbn [ZX_DEBUG_ASSERT mbind outcome_bind]. fold start len. rewrite E. cbn [mbind outcome_bind]. rewrite failed_ok.
  pose proof Hs1 as (Es & Ev & Ei & Ee & Est & Ec). cbn [app] in Hp1. rewrite Z.add_0_l. assert (negb (0 <? Z.of_nat (length hs)) = bool_decide (hs = [])) as ->.
  { destruct hs; [done|]. cbn [length]. by ztest. }
  destruct (bool_decide (hs = []) && (e =? 0) && (el =? 0)) eqn:Enone.
  - apply andb_true_iff in Enone as [[Ehs _]%andb_true_iff _]. apply bool_decide_eq_true in Ehs. subst hs. inversion Hrs; subst ps.
    exists (with_state j1 kReady). unfold replay_loop, ReplayEntry in E. destruct fuel as [|fuel]; [lia|]. inversion Hent as [? ? ? Hv|]; subst.
    cbn [replay_loop] in E. unfold ReplayEntry in E. rewrite Hst, bool_decide_true in E by done. cbn [ZX_DEBUG_ASSERT mbind outcome_bind] in E.
    rewrite Hv in E. cbn [mbind outcome_bind negb] in E. rewrite bool_decide_true in E by done. injection E as <-. split_and!; try done. by destruct Hok.
  - destruct (CommitReplay_ok j1 _ _ _ Hp1) as (j2 & -> & Hok2 & Ee2 & Es2 & Ei2 & Hd2); [by rewrite Est|]. cbn [mbind outcome_bind]. rewrite failed_ok.
    exists (with_state j2 kReady). split_and!; [done|done|by destruct Hok2|by rewrite <- Es|by rewrite <- Ee|cbn [info_ with_state]; rewrite Ei2; unfold info_is_reset, reset_info; by rewrite Ee, Ei, Ec|].
    exists n. split; [done|]. cbn [store with_state]. rewrite Hd2. destruct Hp1 as (_ & _ & ->). rewrite <- write_all_app. f_equal.
    assert (reset_writes j1 = reset_writes j) as -> by (unfold reset_writes, info_is_reset, reset_info; by rewrite Es, Ee, Ei, Ec). f_equal; [|f_equal].
    + unfold entries_write. rewrite (replays_resolve (entries_ j) (attached j1) (take n hs)); [|by apply Forall2_take|unfold attached; by rewrite Ee, Z.eqb_refl].
      unfold attached. by rewrite Ee, Z.eqb_refl.
    + unfold entries_write. rewrite Ee. rewrite (replays_resolve (entries_ j) _ (drop n hs)); [|by apply Forall2_drop|].
      * unfold attached. cbn [entries_ with_entries cleared with_data b_vmoid b_data]. by rewrite Z.eqb_refl.
      * unfold attached. cbn [entries_ with_entries cleared with_data b_vmoid b_data]. by rewrite Z.eqb_refl, length_insert.
Qed.

End replay.

(** The data of an entry is not in the first block of the buffer. *)
Definition away (cap : Z) (x : Z * block) : Prop := ∀ i, 0 ≤ i < field_get header_num_blocks (snd x) → (fst x + 1 + i) mod cap ≠ 0.

Lemma entries_write_cleared b hs m : 0 < b_capacity b → Forall (away (b_capacity b)) hs →
  entries_write b (take m hs) ++ entries_write (cleared b) (drop m hs) = entries_write b hs.
Proof.
  intros Hcap Haway. rewrite <- (take_drop m hs) at 3. unfold entries_write. rewrite flat_map_app. f_equal.
  assert (Forall (away (b_capacity b)) (drop m hs)) as Hd by (by apply Forall_drop).
  induction Hd as [|x l Hx _ IH]; [done|]. cbn [flat_map]. rewrite IH. f_equal. unfold entry_writes. apply map_ext_in.
  intros i Hi%list_elem_of_In%elem_of_seqZ. cbn [cleared with_data b_data]. rewrite length_insert. do 2 f_equal. apply list_lookup_insert_ne.
  rewrite Z.add_0_l in Hi. specialize (Hx i Hi). unfold b_capacity in *. pose proof (Z.mod_pos_bound (fst x + 1 + i) (Z.of_nat (length (b_data b)))). unfold block in *. lia.
Qed.

(** ** Claims *)

(** The loop of [Replay] ends for every content of the journal, valid or not, and for every
    device and schedule, after at most as many entries as the journal has blocks: every entry has to
    be newer than the one before, so that no header is replayed twice. *)
Theorem journal_replay_terminates (dev : Device) (crc32 : Z → list Z → Z) (sched : nat → nat) (j : Journal) (start len te tb ts : Z) :
  replay_loop dev crc32 sched (S (length j.(entries_).(b_data))) j start len te tb ts ≠ Diverges.
Proof.
  pose proof (terminates_replay_loop dev crc32 sched (S (length (b_data (entries_ j)))) j start len te tb ts) as H. intros E.
  rewrite E in H. apply H. pose proof (newer_length j.(entries_) ts). lia.
Qed.


(** A journal with its buffers, the entries [data], and a device of 24 blocks; the journal is at block 8. *)
Definition example_journal (start : Z) (data : list block) : Journal := {|
  start_block_ := 8; info_vmo := 3; info_ := [kJournalMagic; start; 0; 0; 0];
  entries_ := {| b_vmo := 2; b_vmoid := 6; b_data := data; b_start := 0; b_length := 0 |};
  j_state := kInit;
  queue := {| buffer_ := {| b_vmo := 1; b_vmoid := 5; b_data := replicate 4 []; b_start := 0; b_length := 0 |}; work_queue_ := []; state_ := kRunning |};
  store := {| disk := replicate 24 []; transactions := 0 |}; calls := 0; clock := 0 |}.

Definition no_checksum : Z → list Z → Z := λ _ _, 0.

(** A header and a commit block of time [ts]. *)
Definition header_at (ts : Z) (targets : list Z) : block := [kEntryHeaderMagic; ts; 0; Z.of_nat (length targets)] ++ targets.
Definition commit_at (ts : Z) : block := [kEntryCommitMagic; ts; 0].

Lemma header_at_num ts targets : Z.of_nat (length targets) < 2 ^ 64 → field_get header_num_blocks (header_at ts targets) = Z.of_nat (length targets).
Proof. intros H. unfold field_get, header_at. cbn [f_word f_off f_bits header_num_blocks app lookup list_lookup from_option id]. rewrite Z.shiftr_0_r, land_ones_id; [done|lia]. Qed.

Lemma header_at_ok cap ts targets : (length targets ≤ 64)%nat → Z.of_nat (length targets) + 2 ≤ cap → Forall (λ t, 0 ≤ t < 2 ^ 40) targets →
  header_ok cap (header_at ts targets).
Proof.
  intros Hl Hc Ht. constructor; rewrite header_at_num by lia; [unfold kMaxEntryDataBlocks; lia|done|]. intros i Hi.
  destruct (lookup_lt_is_Some_2 targets (Z.to_nat i)) as [t Hti]; [lia|]. pose proof (Forall_lookup_1 _ _ _ _ Ht Hti) as Hb. cbn in Hb.
  unfold field_get, target_block, header_at. cbn [f_word f_off f_bits]. rewrite lookup_app_r by (cbn; lia).
  replace (4 + Z.to_nat i - length _)%nat with (Z.to_nat i) by (cbn; lia). rewrite Hti. cbn [from_option id]. rewrite Z.shiftr_0_r, land_ones_id by lia. done.
Qed.

Lemma example_journal_ok start data : 0 < Z.of_nat (length data) ≤ 2 ^ 32 → journal_ok good_device (example_journal start data) [].
Proof.
  intros H. constructor; [|done|done|done|done|done|cbn; lia]. exists 0. constructor; [|by repeat split|done|done].
  constructor; cbn; [unfold b_capacity; cbn; lia|done|done|unfold b_capacity; cbn; lia|done].
Qed.


(** C37. A race. [CommitReplay] clears the first block of the buffer in memory while the works that
    replay the entries may still be in the write-back queue, and they read the buffer only when they
    are written. If the thread has not run by then, the device gets the data of the entries as it is
    with that block cleared: the block of an entry that goes around the end of the buffer and
    has data in the first block is written as zeros to its target, and [Replay] returns [ZX_OK]. *)
Theorem journal_replay_zeroes_block (dev : Device) (crc32 : Z → list Z → Z) (sched : nat → nat) (ticks : nat → Z) (j : Journal) hs e el :
  (∀ m, dev.(device_status) m = ZX_OK) → journal_ok dev j [] → j.(j_state) = kInit →
  0 ≤ field_get info_start_block j.(info_) < b_capacity j.(entries_) → 0 ≤ field_get info_num_blocks j.(info_) < 2 ^ 64 →
  entries_from crc32 j.(entries_) (field_get info_start_block j.(info_)) (field_get info_num_blocks j.(info_)) 0 hs e el →
  hs ≠ [] → (∀ c, sched c = 0%nat) →
  ∃ j', Replay dev crc32 sched ticks (S (length j.(entries_).(b_data))) j = Returns (ZX_OK, j') ∧ j'.(j_state) = kReady ∧
    j'.(store).(disk) = write_all j.(store).(disk) (entries_write (cleared j.(entries_)) hs ++ reset_writes crc32 ticks j).
Proof.
  intros Hdev Hok Hst Hs Hl Hent Hne Hz.
  destruct (Replay_ok dev crc32 sched ticks Hdev (S (length j.(entries_).(b_data))) j hs e el Hok Hst Hs Hl Hent ltac:(lia)) as (j' & E & Hst' & _ & _ & H).
  exists j'. split; [done|]. split; [done|]. rewrite bool_decide_false in H by done. destruct H as (_ & _ & m & Hm & ->). by rewrite (Hm Hz).
Qed.

(** An entry with its header at block 2 of 4, whose second block is block 0: zeros on the device
    instead of [3]; with a thread that runs at once it is [3]. *)
Lemma journal_replay_zeroes_block_witness :
  let j := example_journal 2 [[3]; commit_at 1; header_at 1 [20; 21]; [2]] in
  (∃ j', Replay good_device no_checksum (λ _, 0%nat) (λ _, 9) 5 j = Returns (ZX_OK, j') ∧
    j'.(store).(disk) !! 20%nat = Some [2] ∧ j'.(store).(disk) !! 21%nat = Some zero_block) ∧
  (∃ j', Replay good_device no_checksum (λ _, 1%nat) (λ _, 9) 5 j = Returns (ZX_OK, j') ∧
    j'.(store).(disk) !! 20%nat = Some [2] ∧ j'.(store).(disk) !! 21%nat = Some [3]).
Proof.
  cbn zeta. split; [|eexists; split; [vm_compute; reflexivity|split; reflexivity]].
  edestruct (journal_replay_zeroes_block good_device no_checksum (λ _, 0%nat) (λ _, 9) (example_journal 2 [[3]; commit_at 1; header_at 1 [20; 21]; [2]])) as (j' & E & _ & Hd).
  - done.
  - apply example_journal_ok. cbn. lia.
  - done.
  - vm_compute. done.
  - vm_compute. done.
  - eapply (ef_entry _ _ _ _ _ (header_at 1 [20; 21])); [vm_compute; reflexivity|reflexivity|apply header_at_ok; cbn; [lia|unfold b_capacity; cbn; lia|by repeat constructor]|by left|].
    apply ef_stop. vm_compute. reflexivity.
  - done.
  - done.
  - exists j'. split; [exact E|]. rewrite Hd. split_and!; vm_compute; reflexivity.
Defined.
