(* ===== verification/JournalEntry.v ===== *)
(** * Entries of the journal (ulib/blobfs/journal-entry.cpp, journal.cpp)

    How a transaction becomes an entry: its blocks are copied to the buffer of the journal between a
    header and a commit block, which are filled in later, and the entry is written to
    the journal on the device, and cleared there when it is no longer needed. *)

From S2P Require Import Prelude RawBitmap MerkleTree Format Superblock Operations RingBuffer RingCopy WriteTxn Writeback Journal JournalReplay.

(** ** Definitions *)

Inductive EntryStatus := EkSync | EkInit | EkWaiting | EkPersisted | EkError.

#[export] Instance EntryStatus_eq_dec : EqDecision EntryStatus.
Proof. solve_decision. Defined.

Record JournalEntry (C : Type) := {
  status_ : EntryStatus;
  je_block_count : Z;
  header_block_ : list Z;
  commit_block_ : list Z;
  header_index_ : Z;
  commit_index_ : Z;
  work_ : option (WritebackWork C);
}.
Arguments status_ {C}.
Arguments je_block_count {C}.
Arguments header_block_ {C}.
Arguments commit_block_ {C}.
Arguments header_index_ {C}.
Arguments commit_index_ {C}.
Arguments work_ {C}.

(** The words of a [HeaderBlock] and of a [CommitBlock]. *)
Definition kHeaderWords : nat := 68.
Definition kCommitWords : nat := 3.

(** The blocks of the device that the operations write. *)
Definition op_targets (ops : list UnbufferedOperation) : list Z :=
  flat_map (λ o, seqZ o.(u_op).(dev_offset) ((o.(u_op).(dev_offset) ⊞ o.(u_op).(Operations.length_)) - o.(u_op).(dev_offset))) ops.

(** [target_blocks[block_count_++] = j] for each of them. *)
Fixpoint fill_targets (header : list Z) (i : Z) (targets : list Z) : outcome (list Z) :=
  match targets with
  | [] => Returns header
  | t :: targets => if kMaxEntryDataBlocks <=? i then Aborts else fill_targets (field_set (target_block i) header t) (i + 1) targets
  end.

Section entry.
Context {C : Type} (crc32 : Z → list Z → Z).

(** [header] and [commit] are what is in the memory of the new object; [now] is [zx_ticks_get]. *)
Definition NewJournalEntry (header commit : list Z) (now : Z) (status : EntryStatus) (header_index commit_index : Z) (work : WritebackWork C)
    : outcome (JournalEntry C) :=
  let entry n h c := {| status_ := status; je_block_count := n; header_block_ := h; commit_block_ := c;
                        header_index_ := header_index; commit_index_ := commit_index; work_ := Some work |} in
  if negb (bool_decide (status = EkInit)) then
    _ ← ZX_DEBUG_ASSERT (bool_decide (status = EkSync) || bool_decide (status = EkError));
    Returns (entry 0 header commit)
  else
    let work_blocks := BlkCount work.(transaction_) in
    _ ← ZX_DEBUG_ASSERT (0 <? work_blocks);
    _ ← ZX_DEBUG_ASSERT (IsBuffered work.(transaction_));
    _ ← ZX_DEBUG_ASSERT (work_blocks <=? kMaxEntryDataBlocks);
    let targets := op_targets work.(transaction_).(WriteTxn.operations_) in
    h ← fill_targets header 0 targets;
    let block_count := Z.of_nat (length targets) in
    _ ← ZX_DEBUG_ASSERT (work_blocks =? block_count);
    let h := field_set header_magic h kEntryHeaderMagic in
    let h := field_set header_num_blocks h block_count in
    let h := field_set header_timestamp h now in
    let c := field_set commit_magic commit kEntryCommitMagic in
    let c := field_set commit_timestamp c (field_get header_timestamp h) in
    let c := field_set commit_checksum c 0 in
    Returns (entry block_count h c).

(** Blocks of the entry in the journal. *)
Definition BlockCount (e : JournalEntry C) : Z :=
  if e.(commit_index_) =? e.(header_index_) then 0 else e.(je_block_count) + kEntryMetadataBlocks.

Definition SetChecksum (e : JournalEntry C) (checksum : Z) : JournalEntry C := {|
  status_ := e.(status_); je_block_count := e.(je_block_count); header_block_ := e.(header_block_);
  commit_block_ := field_set commit_checksum e.(commit_block_) checksum;
  header_index_ := e.(header_index_); commit_index_ := e.(commit_index_); work_ := e.(work_) |}.

(** The check that an entry without blocks has no place in the buffer. *)
Definition no_place (b : Buffer) (e : JournalEntry C) : outcome unit :=
  _ ← ZX_DEBUG_ASSERT (e.(header_index_) =? b_capacity b);
  ZX_DEBUG_ASSERT (e.(commit_index_) =? b_capacity b).

(** Writes the header, the checksum and the commit block. *)
Definition PrepareBuffer (b : Buffer) (e : JournalEntry C) : outcome (Buffer * JournalEntry C) :=
  if BlockCount e =? 0 then _ ← no_place b e; Returns (b, e)
  else
    b ← SetBlockAt b e.(header_index_) (overlay e.(header_block_) zero_block);
    checksum ← GenerateChecksum crc32 b e.(header_index_) e.(commit_index_);
    let e := SetChecksum e checksum in
    b ← SetBlockAt b e.(commit_index_) (overlay e.(commit_block_) zero_block);
    Returns (b, e).

(** Clears the header and the commit block; [start_block] is where the journal is on the device. *)
Definition PrepareDelete (b : Buffer) (start_block : Z) (e : JournalEntry C) (t : WriteTxn) : outcome (Buffer * WriteTxn) :=
  if BlockCount e =? 0 then _ ← no_place b e; Returns (b, t)
  else
    b ← SetBlockAt b e.(header_index_) zero_block;
    b ← SetBlockAt b e.(commit_index_) zero_block;
    t ← AddTransaction b e.(header_index_) (start_block ⊞ 1 ⊞ e.(header_index_)) 1 t;
    t ← AddTransaction b e.(commit_index_) (start_block ⊞ 1 ⊞ e.(commit_index_)) 1 t;
    Returns (b, t).

(** The blocks of the entry go to their place in the journal, in two parts when they go around the end. *)
Definition AddEntryTransaction (b : Buffer) (start_block start length : Z) (t : WriteTxn) : outcome WriteTxn :=
  _ ← ZX_DEBUG_ASSERT (start <? b_capacity b);
  _ ← ZX_DEBUG_ASSERT (0 <? length);
  _ ← ZX_DEBUG_ASSERT (length <? b_capacity b);
  let first_length := if b_capacity b <? start ⊞ length then b_capacity b ⊟ start else length in
  _ ← ZX_DEBUG_ASSERT (0 <? first_length);
  let disk_start := start_block ⊞ 1 in
  t ← AddTransaction b start (disk_start ⊞ start) first_length t;
  if first_length <? length then AddTransaction b 0 disk_start (length ⊟ first_length) t else Returns t.

(** The part of [Journal::Enqueue] that has found space: places for the header and the commit block, and the
    blocks copied in between. *)
Definition CopyEntry (v : Vmos block) (b : Buffer) (t : WriteTxn) : outcome (Z * Z * Buffer * WriteTxn) :=
  let blocks := BlkCount t ⊞ 2 in
  p ← ReserveIndex b;
  let '(header_index, b) := (p : Z * Buffer) in
  p ← CopyTransaction v b t;
  let '(b, t) := (p : Buffer * WriteTxn) in
  p ← ReserveIndex b;
  let '(commit_index, b) := (p : Z * Buffer) in
  _ ← ZX_DEBUG_ASSERT (commit_index =? (header_index ⊞ blocks ⊟ 1) mod b_capacity b);
  Returns (header_index, commit_index, b, t).

End entry.

(** ** Headers *)

Lemma op_targets_writes data os : Forall op_fits os → op_targets os = map fst (flat_map (op_writes data) os).
Proof.
  induction 1 as [|o os (_ & _ & Hd & Hl & _ & Hdl) _ IH]; [done|]. cbn [op_targets flat_map]. rewrite map_app, <- IH. f_equal.
  unfold op_writes. rewrite map_map. cbn [fst]. unwrap. rewrite Z.add_simpl_l.
  rewrite <- (Z.add_0_r (dev_offset (u_op o))) at 1. by rewrite <- fmap_add_seqZ.
Qed.

Lemma op_targets_small os : Forall op_fits os → Forall (λ t, 0 ≤ t < 2 ^ 40) (op_targets os).
Proof.
  intros Hfit. apply Forall_flat_map. eapply Forall_impl; [exact Hfit|]. intros o (_ & _ & Hd & Hlo & _ & Hdl). unwrap. apply Forall_seqZ. intros x Hx. lia.
Qed.

(** The operations of a chain read consecutive blocks of the buffer. *)
Lemma chained_reads data os v v' : 0 < Z.of_nat (length data) → 0 ≤ v → chained (Z.of_nat (length data)) v os v' →
  map snd (flat_map (op_writes data) os) = map (λ i, default zero_block (data !! Z.to_nat ((v + i) mod Z.of_nat (length data)))) (seqZ 0 (v' - v)).
Proof.
  intros Hcap. revert v. induction os as [|o os IH]; intros v Hv Hch; cbn [chained flat_map] in *; [subst v'; by rewrite Z.sub_diag|].
  destruct Hch as (Hoff & (_ & _ & _ & Hl & _) & Hc & Hch). pose proof (chained_le _ _ _ _ Hch). rewrite map_app, (IH (v + Operations.length_ (u_op o)) ltac:(lia) Hch).
  set (len := Operations.length_ (u_op o)) in *. replace (v' - v) with (len + (v' - (v + len))) by lia. rewrite map_seqZ_split by lia. f_equal.
  - unfold op_writes. rewrite map_map. cbn [snd]. fold len. apply map_ext_in. intros i Hi%list_elem_of_In%elem_of_seqZ. do 3 f_equal.
    rewrite Hoff in *. pose proof (Z.mod_pos_bound v (Z.of_nat (length data)) Hcap). rewrite <- (Zplus_mod_idemp_l v i), (Z.mod_small (_ + i)); lia.
  - apply map_ext. intros i. do 4 f_equal. lia.
Qed.

Lemma fill_targets_ok ts header i : length header = kHeaderWords → 0 ≤ i → i + Z.of_nat (length ts) ≤ kMaxEntryDataBlocks → Forall (λ t, 0 ≤ t < 2 ^ 40) ts →
  ∃ h, fill_targets header i ts = Returns h ∧ length h = kHeaderWords ∧
    (∀ k t, ts !! k = Some t → field_get (target_block (i + Z.of_nat k)) h = t) ∧
    (∀ k, 0 ≤ k < i → field_get (target_block k) h = field_get (target_block k) header).
Proof.
  intros Hlen Hi Hmax Hts. unfold kMaxEntryDataBlocks in *. revert header i Hlen Hi Hmax. induction Hts as [|t ts Ht _ IH]; intros header i Hlen Hi Hmax; cbn [fill_targets].
  { exists header. split_and!; [done|done|intros k t; by rewrite lookup_nil|done]. }
  cbn [length] in Hmax. unfold kMaxEntryDataBlocks. ztest. set (h1 := field_set _ _ _).
  destruct (IH h1 (i + 1)) as (h & -> & Hl & Hget & Hold); [by unfold h1; rewrite length_field_set|lia|lia|].
  exists h. split_and!; [done|done| |].
  - intros [|k] t' Hk; cbn in Hk; [injection Hk as <-|].
    + rewrite Z.add_0_r, Hold by lia. unfold h1. apply field_get_set; [done|rewrite Hlen; unfold kHeaderWords; cbn [f_word target_block]; lia|cbn [f_bits target_block]; lia].
    + rewrite <- (Hget k t' Hk). do 2 f_equal. lia.
  - intros k Hk. rewrite Hold by lia. unfold h1. apply field_get_set_ne; [done|done|]. unfold field_disjoint. cbn [f_word target_block].
    destruct (Nat.eqb_spec (4 + Z.to_nat i) (4 + Z.to_nat k)); [lia|done].
Qed.

Lemma overlay_get f words rest : (f.(f_word) < length words)%nat → field_get f (overlay words rest) = field_get f words.
Proof. intros H. unfold field_get, overlay. by rewrite lookup_app_l. Qed.

(** What the constructor makes of a transaction that is in the buffer. *)
Lemma NewJournalEntry_ok {C} header commit now hi ci (work : WritebackWork C) :
  let t := work.(transaction_) in let ops := t.(WriteTxn.operations_) in
  length header = kHeaderWords → length commit = kCommitWords → 0 ≤ now < 2 ^ 64 →
  t.(WriteTxn.vmoid_) ≠ VMOID_INVALID → Forall op_fits ops → t.(WriteTxn.block_count_) = Z.of_nat (length (op_targets ops)) →
  0 < t.(WriteTxn.block_count_) ≤ kMaxEntryDataBlocks →
  ∃ e, NewJournalEntry header commit now EkInit hi ci work = Returns e ∧ e.(header_index_) = hi ∧ e.(commit_index_) = ci ∧
    e.(je_block_count) = t.(WriteTxn.block_count_) ∧ e.(status_) = EkInit ∧ e.(work_) = Some work ∧
    length e.(header_block_) = kHeaderWords ∧ length e.(commit_block_) = kCommitWords ∧
    field_get header_magic e.(header_block_) = kEntryHeaderMagic ∧ field_get header_timestamp e.(header_block_) = now ∧
    field_get header_num_blocks e.(header_block_) = t.(WriteTxn.block_count_) ∧
    (∀ k x, op_targets ops !! k = Some x → field_get (target_block (Z.of_nat k)) e.(header_block_) = x) ∧
    field_get commit_magic e.(commit_block_) = kEntryCommitMagic ∧ field_get commit_timestamp e.(commit_block_) = now.
Proof.
  intros t ops Hh Hc Hnow Hid Hfit Hcnt Hmax. unfold NewJournalEntry, IsBuffered, BlkCount. fold t ops. rewrite bool_decide_true by done.
  rewrite (proj2 (Z.eqb_neq _ _) Hid). unfold ZX_DEBUG_ASSERT. ztest. cbn [negb mbind outcome_bind].
  destruct (fill_targets_ok (op_targets ops) header 0 Hh) as (h & -> & Hl & Hget & _); [lia|lia|by apply op_targets_small|].
  cbn [mbind outcome_bind]. rewrite <- Hcnt. unfold kEntryHeaderMagic, kEntryCommitMagic, kMaxEntryDataBlocks, kHeaderWords, kCommitWords in *.
  eexists. split; [done|]. cbn [header_index_ commit_index_ je_block_count status_ work_ header_block_ commit_block_]. rewrite !length_field_set.
  split_and!; try done.
  - fields. done.
  - fields. done.
  - fields. done.
  - intros k x Hk. rewrite !field_get_set_ne by done. exact (Hget k x Hk).
  - fields. done.
  - fields. done.
Qed.

(** ** The entry in the buffer *)

Lemma BlockAt_ok b i x : 0 ≤ i → b.(b_data) !! Z.to_nat i = Some x → BlockAt b i = Returns x.
Proof.
  intros Hi Hx. pose proof (lookup_lt_Some _ _ _ Hx). unfold BlockAt, ZX_DEBUG_ASSERT, b_capacity. ztest. cbn [mbind outcome_bind]. by apply array_get_returns.
Qed.

Lemma SetBlockAt_ok b i x : i < b_capacity b → SetBlockAt b i x = Returns (with_data b (<[Z.to_nat i := x]> b.(b_data))).
Proof. intros Hi. unfold SetBlockAt, ZX_DEBUG_ASSERT. by ztest. Qed.

(** The checksum is not over the commit block. *)
Lemma GenerateChecksum_commit crc32 b hi ci x : 0 ≤ hi < b_capacity b → 0 ≤ ci < b_capacity b → b_capacity b ≤ 2 ^ 40 →
  GenerateChecksum crc32 (with_data b (<[Z.to_nat ci := x]> b.(b_data))) hi ci = GenerateChecksum crc32 b hi ci.
Proof.
  intros Hh Hc Hcap. unfold GenerateChecksum. assert (b_capacity (with_data b (<[Z.to_nat ci := x]> b.(b_data))) = b_capacity b) as ->
    by (unfold b_capacity; cbn; by rewrite length_insert).
  unfold block_words. cbn [b_data with_data]. destruct (Z.eqb_spec ci hi); [done|]. cbn [negb ZX_DEBUG_ASSERT mbind outcome_bind].
  destruct (Z.ltb_spec ci hi); unwrap.
  - rewrite drop_insert_lt by lia. change (Z.to_nat 0) with 0%nat. rewrite !drop_0, take_insert_ge by lia. done.
  - rewrite drop_insert_ge, take_insert_ge by lia. done.
Qed.

Lemma GenerateChecksum_total crc32 b hi ci : 0 ≤ hi < b_capacity b → 0 ≤ ci < b_capacity b → b_capacity b ≤ 2 ^ 40 → ci ≠ hi →
  (∀ s ws, 0 ≤ crc32 s ws < 2 ^ 32) → ∃ sum, GenerateChecksum crc32 b hi ci = Returns sum ∧ 0 ≤ sum < 2 ^ 32.
Proof.
  intros Hh Hc Hcap Hne Hcrc. unfold GenerateChecksum, ZX_DEBUG_ASSERT, ZX_ASSERT. rewrite (proj2 (Z.eqb_neq _ _) Hne). cbn [negb mbind outcome_bind].
  destruct (Z.ltb_spec ci hi); unwrap; ztest; cbn [mbind outcome_bind]; by eexists.
Qed.

(** The entry that [PrepareBuffer] leaves in the buffer is valid, and the rest of the buffer is as it was. *)
Lemma PrepareBuffer_ok {C} crc32 b (e : JournalEntry C) now :
  let hi := e.(header_index_) in let ci := e.(commit_index_) in let num := e.(je_block_count) in
  (∀ s ws, 0 ≤ crc32 s ws < 2 ^ 32) → 0 ≤ hi < b_capacity b → b_capacity b ≤ 2 ^ 40 → 0 ≤ num → num + 2 ≤ b_capacity b → ci = (hi + num + 1) mod b_capacity b →
  length e.(header_block_) = kHeaderWords → length e.(commit_block_) = kCommitWords →
  field_get header_magic e.(header_block_) = kEntryHeaderMagic → field_get header_timestamp e.(header_block_) = now →
  field_get header_num_blocks e.(header_block_) = num →
  field_get commit_magic e.(commit_block_) = kEntryCommitMagic → field_get commit_timestamp e.(commit_block_) = now →
  ∃ x e', let data := <[Z.to_nat ci := x]> (<[Z.to_nat hi := overlay e.(header_block_) zero_block]> b.(b_data)) in
    PrepareBuffer crc32 b e = Returns (with_data b data, e') ∧ BlockCount e' = num + 2 ∧ ci ≠ hi ∧ 0 ≤ ci < b_capacity b ∧
    ∀ ts, ts < now → VerifyEntryMetadata crc32 (with_data b data) hi ts = Returns true.
Proof.
  intros hi ci num Hcrc Hh Hcap Hn Hnc Hci Hlh Hlc Hhm Hht Hhn Hcm Hct. unfold kHeaderWords, kCommitWords in *.
  assert (0 ≤ ci < b_capacity b) as Hcb by (rewrite Hci; apply Z.mod_pos_bound; lia).
  assert (hi ≠ ci) as Hne by (rewrite Hci, <- (Z.mod_small hi (b_capacity b)) at 1 by lia; apply mod_ne; lia).
  unfold PrepareBuffer, BlockCount, kEntryMetadataBlocks. fold hi ci num. rewrite (proj2 (Z.eqb_neq ci hi)) by done. ztest.
  rewrite (SetBlockAt_ok b hi) by lia. cbn [mbind outcome_bind]. set (header := overlay e.(header_block_) zero_block).
  set (b1 := with_data b (<[Z.to_nat hi := header]> b.(b_data))). assert (b_capacity b1 = b_capacity b) as Hc1 by (unfold b_capacity; cbn; by rewrite length_insert).
  destruct (GenerateChecksum_total crc32 b1 hi ci) as (sum & Hsum & Hrange); [by rewrite Hc1|by rewrite Hc1|by rewrite Hc1|done|done|].
  rewrite Hsum. cbn [mbind outcome_bind SetChecksum commit_index_ commit_block_]. fold ci. rewrite (SetBlockAt_ok b1 ci) by lia. cbn [mbind outcome_bind].
  set (commit := overlay _ zero_block). eexists commit, _. cbn zeta. split; [done|].
  split; [unfold BlockCount; cbn; fold hi ci num; by rewrite (proj2 (Z.eqb_neq ci hi))|]. split; [done|]. split; [done|]. intros ts Hts.
  set (b2 := with_data b _). assert (b_capacity b2 = b_capacity b) as Hc2 by (unfold b_capacity; cbn; by rewrite !length_insert).
  assert (GenerateChecksum crc32 b2 hi ci = Returns sum) as Hs2 by (rewrite <- Hsum; apply (GenerateChecksum_commit crc32 b1); by rewrite Hc1).
  pose proof Hh as Hh'. pose proof Hcb as Hcb'. unfold b_capacity in Hh', Hcb'. unfold VerifyEntryMetadata. rewrite (BlockAt_ok b2 hi header), Hc2; [|lia|cbn; rewrite list_lookup_insert_ne, list_lookup_insert_eq by lia; done].
  cbn [mbind outcome_bind]. unfold header. rewrite !overlay_get by (rewrite Hlh; cbn; lia). rewrite Hhm, Hht, Hhn, Z.eqb_refl. ztest. cbn [negb orb].
  unwrap. rewrite <- Hci, (BlockAt_ok b2 ci commit); [|lia|cbn; rewrite list_lookup_insert_eq by (rewrite length_insert; lia); done].
  cbn [mbind outcome_bind]. unfold commit. rewrite !overlay_get by (rewrite length_field_set, Hlc; cbn; lia).
  rewrite !(field_get_set_ne commit_checksum) by done. rewrite Hcm, Hct, !Z.eqb_refl. cbn [negb]. rewrite Hs2. cbn [mbind outcome_bind].
  rewrite field_get_set, Z.eqb_refl; [done|done|rewrite Hlc; cbn; lia|done].
Qed.

Lemma ReserveIndex_ok b base : buffer_ok b base → b.(b_length) < b_capacity b →
  ReserveIndex b = Returns ((base + b.(b_length)) mod b_capacity b, with_used b b.(b_start) (b.(b_length) + 1)) ∧
  buffer_ok (with_used b b.(b_start) (b.(b_length) + 1)) base.
Proof.
  intros Hb Hl. pose proof Hb as [Hcap Hbase Hst Hlen Hid]. destruct (free_part b base 1 Hb ltac:(lia) ltac:(lia)) as (Hoff & _).
  unfold ReserveIndex, ZX_ASSERT. rewrite (proj2 (Z.eqb_neq (b_capacity b) 0)) by lia. cbn [negb mbind outcome_bind]. rewrite Hoff. unwrap.
  split; [done|]. constructor; cbn; [done|done|done|unfold b_capacity in *; cbn; lia|done].
Qed.

(** The data of the entry is in the buffer, after a block for the header and before one for the commit block. *)
Lemma CopyEntry_ok v b base t :
  let ops := t.(WriteTxn.operations_) in let n := blocks ops in let p := base + b.(b_length) in let cap := b_capacity b in
  buffer_ok b base → t.(WriteTxn.vmoid_) = VMOID_INVALID → Forall (copyable v b) ops → t.(WriteTxn.block_count_) = n → b.(b_length) + n + 2 ≤ cap →
  ∃ data os, CopyEntry v b t = Returns (p mod cap, (p + 1 + n) mod cap, with_used (with_data b data) b.(b_start) (b.(b_length) + n + 2),
      {| WriteTxn.vmoid_ := b.(b_vmoid); WriteTxn.operations_ := os; WriteTxn.block_count_ := n |}) ∧
    changes (p + 1) (p + 1 + n) b.(b_data) data ∧ flat_map (op_writes data) os = flat_map (vmo_writes v) ops ∧ chained cap (p + 1) os (p + 1 + n).
Proof.
  intros ops n p cap Hb Hid Hops Hcnt Hfit. pose proof (copyable_blocks _ _ _ Hops) as Hn. fold n in Hn. pose proof Hb as [Hcap Hbase _ Hlen Hbid]. fold cap in Hcap.
  destruct (ReserveIndex_ok b base Hb ltac:(lia)) as [E1 Hb1]. unfold CopyEntry, BlkCount. rewrite Hcnt, E1. cbn [mbind outcome_bind].
  set (b1 := with_used _ _ _) in *. unfold CopyTransaction, IsBuffered. rewrite Hid. cbn [Z.eqb negb VMOID_INVALID ZX_DEBUG_ASSERT mbind outcome_bind]. fold ops.
  assert (b_capacity b1 = cap ∧ b_length b1 = b_length b + 1) as [Hc1 Hl1] by done.
  destruct (copy_ops_ok v b1 base ops Hb1) as (b2 & os & -> & Hcp); [done|fold n; lia|]. cbn [mbind outcome_bind].
  destruct (copied_buffer v b1 base ops b2 os Hb1 Hn ltac:(lia) Hcp) as (Hb2 & Hc2 & Hl2 & _ & Hid2 & _). fold n in Hl2.
  unfold SetBuffer. cbn [WriteTxn.vmoid_]. rewrite Hid2. change (b_vmoid b1) with (b_vmoid b). cbn [Z.eqb VMOID_INVALID orb ZX_DEBUG_ASSERT mbind outcome_bind].
  rewrite (proj2 (Z.eqb_neq _ _) Hbid). cbn [negb ZX_DEBUG_ASSERT mbind outcome_bind WriteTxn.operations_ WriteTxn.block_count_].
  destruct (ReserveIndex_ok b2 base Hb2 ltac:(lia)) as [-> _]. cbn [mbind outcome_bind]. destruct Hcp as (data & -> & Hch & Hw & _ & Hcd & _).
  fold n in Hch, Hcd. assert (base + b_length b1 = p + 1) as Hp1 by (unfold p; lia). change (b_data b1) with (b_data b) in Hch. rewrite Hp1 in Hch, Hcd. rewrite Hc1 in Hcd.
  assert (∀ s l s' l', b_capacity (with_used (with_used (with_data b1 data) s l) s' l') = cap) as Hcd2 by (intros; unfold cap, b_capacity; cbn; by rewrite (ch_length _ _ _ _ Hch)).
  change (b_capacity (with_used (with_data b1 data) _ _)) with (b_capacity (with_used (with_used (with_data b1 data) 0 0) 0 0)).
  exists data, os. rewrite !Hcd2. fold cap p n. cbn [b_length b_start with_used with_data b1]. replace (base + (b_length b + 1 + n)) with (p + 1 + n) by (unfold p; lia).
  pose proof (Z.mod_pos_bound p cap ltac:(lia)). unwrap. replace (p mod cap + (n + 2) - 1) with (p mod cap + (1 + n)) by lia.
  rewrite (Zplus_mod_idemp_l p), Z.add_assoc, Z.eqb_refl. cbn [ZX_DEBUG_ASSERT mbind outcome_bind]. rewrite Hcnt. split_and!; [|done..].
  do 3 f_equal. unfold with_used. cbn. f_equal. lia.
Qed.

(** ** What an entry replays *)

Lemma pairs_ext {A B} (l l' : list (A * B)) : map fst l = map fst l' → map snd l = map snd l' → l = l'.
Proof.
  revert l'. induction l as [|[a b] l IH]; intros [|[a' b'] l']; cbn; try done. intros [= -> H1] [= -> H2]. f_equal. by apply IH.
Qed.

Lemma map_seqZ_is {A} (f : Z → A) ts : (∀ k x, ts !! k = Some x → f (Z.of_nat k) = x) → map f (seqZ 0 (Z.of_nat (length ts))) = ts.
Proof.
  intros H. apply list_eq_same_length with (length ts); [done|rewrite length_map, length_seqZ; lia|]. intros k x y Hk Hx Hy. specialize (H k y Hy).
  apply list_lookup_fmap_Some in Hx as (i & -> & [Hi _]%lookup_seqZ). rewrite Hi, Z.add_0_l. done.
Qed.

Lemma entry_writes_chained header data data' p os n :
  0 < Z.of_nat (length data) → length data' = length data → 0 ≤ p → chained (Z.of_nat (length data)) (p + 1) os (p + 1 + n) →
  field_get header_num_blocks header = n → Z.of_nat (length (op_targets os)) = n →
  (∀ k x, op_targets os !! k = Some x → field_get (target_block (Z.of_nat k)) header = x) →
  (∀ i, 0 ≤ i < n → data' !! Z.to_nat ((p + 1 + i) mod Z.of_nat (length data)) = data !! Z.to_nat ((p + 1 + i) mod Z.of_nat (length data))) →
  entry_writes header data' (p mod Z.of_nat (length data)) = flat_map (op_writes data) os.
Proof.
  intros Hcap Hlen Hp Hch Hnum Hcnt Htg Hsame. assert (Forall op_fits os) as Hfit by (eapply Forall_impl; [exact (chained_fits _ _ _ _ Hch)|]; by intros o [? _]).
  unfold entry_writes. rewrite Hnum. apply pairs_ext.
  - rewrite <- op_targets_writes, map_map, <- Hcnt by done. cbn [fst]. by apply map_seqZ_is.
  - rewrite (chained_reads data os (p + 1) (p + 1 + n) Hcap ltac:(lia) Hch), map_map, Hlen. cbn [snd]. replace (p + 1 + n - (p + 1)) with n by lia.
    apply map_ext_in. intros i Hi%list_elem_of_In%elem_of_seqZ. rewrite <- Hsame by lia. do 3 f_equal. rewrite <- !Z.add_assoc. apply Zplus_mod_idemp_l.
Qed.

Lemma op_targets_length (data : list block) os cap v v' : Z.of_nat (length data) = cap → 0 < cap → 0 ≤ v → chained cap v os v' → Z.of_nat (length (op_targets os)) = v' - v.
Proof.
  intros <- Hcap Hv Hch. pose proof (chained_le _ _ _ _ Hch). assert (Forall op_fits os) as Hfit by (eapply Forall_impl; [exact (chained_fits _ _ _ _ Hch)|]; by intros o [? _]).
  rewrite (op_targets_writes data) by done. pose proof (f_equal length (chained_reads data os v v' Hcap Hv Hch)) as Hr. rewrite length_map in Hr |- *. rewrite length_map, length_seqZ in Hr. lia.
Qed.

Lemma new_header_ok cap header os n : 0 ≤ n ≤ kMaxEntryDataBlocks → n + 2 ≤ cap → Forall op_fits os → Z.of_nat (length (op_targets os)) = n →
  field_get header_num_blocks header = n → (∀ k x, op_targets os !! k = Some x → field_get (target_block (Z.of_nat k)) header = x) → header_ok cap header.
Proof.
  intros Hn Hc Hfit Hl Hnum Htg. constructor; rewrite Hnum; [done|done|]. intros i Hi.
  destruct (lookup_lt_is_Some_2 (op_targets os) (Z.to_nat i)) as [x Hx]; [lia|]. pose proof (Htg _ _ Hx) as Hg. rewrite Z2Nat.id in Hg by lia. rewrite Hg.
  exact (Forall_lookup_1 _ _ _ _ (op_targets_small os Hfit) Hx).
Qed.

(** When there is space for a transaction, its blocks are copied to the buffer between a place
    for the header and one for the commit block, and after [PrepareBuffer] there is an entry that is valid after
    any older one, and that writes what the transaction would have written. *)
Lemma entry_written {C} (crc32 : Z → list Z → Z) (v : Vmos block) (b : Buffer) (base : Z) (t : WriteTxn) (header commit : list Z) (now : Z) :
  let ops := t.(WriteTxn.operations_) in let n := blocks ops in let p := base + b.(b_length) in
  (∀ s ws, 0 ≤ crc32 s ws < 2 ^ 32) → buffer_ok b base → t.(WriteTxn.vmoid_) = VMOID_INVALID → Forall (copyable v b) ops →
  t.(WriteTxn.block_count_) = n → 0 < n ≤ kMaxEntryDataBlocks → b.(b_length) + n + 2 ≤ b_capacity b →
  length header = kHeaderWords → length commit = kCommitWords → 0 ≤ now < 2 ^ 64 →
  ∃ hi ci b1 t1 e b2 e2 header', CopyEntry v b t = Returns (hi, ci, b1, t1) ∧
    NewJournalEntry header commit now EkInit hi ci (with_transaction (@NewWork C) t1) = Returns e ∧ PrepareBuffer crc32 b1 e = Returns (b2, e2) ∧
    (∀ ts, ts < now → VerifyEntryMetadata crc32 b2 hi ts = Returns true) ∧
    b2.(b_data) !! Z.to_nat hi = Some header' ∧ header_ok (b_capacity b2) header' ∧ field_get header_timestamp header' = now ∧
    entry_writes header' b2.(b_data) hi = flat_map (vmo_writes v) ops ∧
    hi = p mod b_capacity b ∧ BlockCount e2 = n + 2 ∧ b2.(b_vmo) = b.(b_vmo) ∧ field_get header_num_blocks header' = n ∧
    b2.(b_length) = b.(b_length) + n + 2 ∧ changes p (p + n + 2) b.(b_data) b2.(b_data).
Proof.
  intros ops n p Hcrc Hb Hid Hops Hcnt Hn Hfit Hlh Hlc Hnow. pose proof Hb as [Hcap Hbase _ Hlen Hbid].
  destruct (CopyEntry_ok v b base t Hb Hid Hops Hcnt Hfit) as (data & os & -> & Hch & Hw & Hcd). fold ops n p in Hch, Hw, Hcd |- *.
  set (cap := b_capacity b) in *. assert (Z.of_nat (length data) = cap) as Hdl by (unfold cap, b_capacity; by rewrite (ch_length _ _ _ _ Hch)).
  pose proof (op_targets_length data os cap (p + 1) (p + 1 + n) Hdl ltac:(lia) ltac:(lia) Hcd) as Htl.
  assert (Forall op_fits os) as Hfits by (eapply Forall_impl; [exact (chained_fits _ _ _ _ Hcd)|]; by intros o [? _]).
  set (t1 := {| WriteTxn.vmoid_ := _ |}). set (b1 := with_used _ _ _). assert (b_capacity b1 = cap) as Hc1 by exact Hdl.
  destruct (NewJournalEntry_ok header commit now (p mod cap) ((p + 1 + n) mod cap) (with_transaction (@NewWork C) t1) Hlh Hlc Hnow Hbid Hfits) as
    (e & Ee & Ehi & Eci & Enum & _ & _ & Elh & Elc & Ehm & Eht & Ehn & Etg & Ecm & Ect); [change (n = Z.of_nat (length (op_targets os))); lia|done|].
  change (je_block_count e = n) in Enum. change (field_get header_num_blocks e.(header_block_) = n) in Ehn.
  destruct (PrepareBuffer_ok crc32 b1 e now Hcrc) as (x & e' & Eprep & Hbc & Hne & Hcib & Hver); rewrite ?Ehi, ?Eci, ?Enum, ?Hc1; try done; try lia.
  { apply Z.mod_pos_bound. lia. }
  { rewrite <- (Z.add_assoc (p mod cap)), Zplus_mod_idemp_l. f_equal. lia. }
  cbn zeta in Eprep, Hver. rewrite Ehi, Eci in Eprep, Hne, Hver. set (data2 := <[_ := x]> _) in *. pose proof (Z.mod_pos_bound p cap ltac:(lia)) as Hpm.
  assert (∀ k, k ≠ Z.to_nat (p mod cap) → k ≠ Z.to_nat ((p + 1 + n) mod cap) → data2 !! k = data !! k) as Hd2.
  { intros k Hk1 Hk2. unfold data2. by rewrite !list_lookup_insert_ne. }
  assert (length data2 = length data) as Hl2 by (unfold data2; by rewrite !length_insert). pose proof (Z.mod_pos_bound (p + 1 + n) cap ltac:(lia)) as Hcm.
  assert (∀ f, (f.(f_word) < 68)%nat → field_get f (overlay e.(header_block_) zero_block) = field_get f e.(header_block_)) as Hov by (intros f Hf; apply overlay_get; by rewrite Elh).
  exists (p mod cap), ((p + 1 + n) mod cap), b1, t1, e, (with_data b1 data2), e', (overlay e.(header_block_) zero_block).
  assert (b_capacity (with_data b1 data2) = cap) as Hc2 by (unfold b_capacity; cbn; by rewrite Hl2).
  split; [done|]. split; [done|]. split; [done|]. split; [done|]. split; [cbn; unfold data2; rewrite list_lookup_insert_ne, list_lookup_insert_eq by (cbn; lia); done|].
  split; [|split; [by rewrite Hov by (cbn; lia)|split; [|split; [done|split; [by rewrite Hbc, Enum|split; [done|split; [by rewrite Hov by (cbn; lia)|split; [cbn; lia|]]]]]]]].
  - rewrite Hc2. apply (new_header_ok _ _ os n); rewrite ?Hov by (cbn; lia); try done; try lia. intros k y Hk. pose proof (lookup_lt_Some _ _ _ Hk).
    unfold kMaxEntryDataBlocks in Hn. rewrite Hov by (cbn; lia). by apply Etg.
  - rewrite <- Hw, <- Hdl. apply (entry_writes_chained _ _ _ _ os n); rewrite ?Hdl, ?Hov by (cbn; lia); try done; try lia.
    + intros k y Hk. pose proof (lookup_lt_Some _ _ _ Hk). unfold kMaxEntryDataBlocks in Hn. rewrite Hov by (cbn; lia). by apply Etg.
    + intros i Hi. pose proof (Z.mod_pos_bound (p + 1 + i) cap ltac:(lia)).
      apply Hd2; [pose proof (mod_ne cap p (p + 1 + i) ltac:(lia))|pose proof (mod_ne cap (p + 1 + i) (p + 1 + n) ltac:(lia))]; lia.
  - constructor; [cbn; rewrite Hl2; apply Hch|]. intros k Hk. change (Z.of_nat (length (b_data b))) with cap in Hk. cbn. rewrite Hd2.
    + apply Hch. contradict Hk. eapply window_mono; [..|exact Hk]; lia.
    + contradict Hk. exists p. split; [lia|]. rewrite Z.add_0_l. lia.
    + contradict Hk. exists (p + 1 + n). split; [lia|]. rewrite Z.add_0_l. lia.
Qed.
