(* ===== verification/JournalRecovery.v ===== *)
(** * From a transaction to the device through the journal, and a crash *)

From S2P Require Import Prelude RawBitmap MerkleTree Format Superblock Operations RingBuffer RingCopy WriteTxn Writeback Journal JournalReplay JournalEntry.

(** ** Entries depend on their blocks only *)

(** The buffers have the same blocks from [lo] to [hi], counted without going around. *)
Definition same_blocks (lo hi : Z) (data data' : list block) : Prop :=
  length data' = length data ∧
  ∀ i, lo ≤ i < hi → data' !! Z.to_nat (i mod Z.of_nat (length data)) = data !! Z.to_nat (i mod Z.of_nat (length data)).

Lemma take_drop_same {A} (data data' : list A) at_ n :
  (∀ i, (at_ ≤ i < at_ + n)%nat → data' !! i = data !! i) → take n (drop at_ data') = take n (drop at_ data).
Proof.
  intros H. apply list_eq. intros i. destruct (decide (i < n)%nat).
  - rewrite !lookup_take_lt, !lookup_drop by done. apply H. lia.
  - by rewrite !lookup_take_ge by lia.
Qed.

Lemma BlockAt_same b b' i : b'.(b_data) !! Z.to_nat i = b.(b_data) !! Z.to_nat i → b_capacity b' = b_capacity b → BlockAt b' i = BlockAt b i.
Proof. intros H Hc. unfold BlockAt, array_get. by rewrite Hc, H. Qed.

Lemma verify_same crc32 b b' hi ts header :
  0 ≤ hi < b_capacity b → b_capacity b ≤ 2 ^ 40 → b.(b_data) !! Z.to_nat hi = Some header → field_get header_num_blocks header + 2 ≤ b_capacity b →
  same_blocks hi (hi + field_get header_num_blocks header + 2) b.(b_data) b'.(b_data) →
  VerifyEntryMetadata crc32 b' hi ts = VerifyEntryMetadata crc32 b hi ts.
Proof.
  intros Hh Hcap Hat Hn [Hlen Hsame]. set (num := field_get header_num_blocks header) in *.
  assert (0 ≤ num) as Hn0 by (apply field_get_range; done). assert (b_capacity b' = b_capacity b) as Hc by (unfold b_capacity; by rewrite Hlen).
  change (Z.of_nat (length b.(b_data))) with (b_capacity b) in Hsame. set (cap := b_capacity b) in *.
  assert (∀ i, hi ≤ i < cap → i < hi + num + 2 → b'.(b_data) !! Z.to_nat i = b.(b_data) !! Z.to_nat i) as Hlow.
  { intros i Hi Hi2. rewrite <- (Z.mod_small i cap) by lia. apply Hsame. lia. }
  unfold VerifyEntryMetadata. rewrite (BlockAt_same b b' hi (Hlow hi ltac:(lia) ltac:(lia)) Hc), (BlockAt_ok b hi header) by (done || lia). cbn [mbind outcome_bind].
  destruct (_ || _); [done|]. fold num. rewrite Hc. fold cap. unwrap. set (ci := (hi + num + 1) mod cap).
  assert (0 ≤ ci < cap) as Hci by (apply Z.mod_pos_bound; lia). rewrite (BlockAt_same b b' ci) by (done || (apply Hsame; lia)).
  destruct (BlockAt b ci) as [commit| |]; [|done..]. cbn [mbind outcome_bind]. do 2 (destruct (negb _); [done|]). f_equal.
  unfold GenerateChecksum. rewrite Hc. fold cap. destruct (Z.eqb_spec ci hi); [done|]. cbn [negb ZX_DEBUG_ASSERT mbind outcome_bind].
  assert (ci = hi + num + 1 ∨ ci = hi + num + 1 - cap) as Hcase.
  { unfold ci. destruct (Z_lt_le_dec (hi + num + 1) cap); [left; apply Z.mod_small; lia|right].
    replace (hi + num + 1) with (hi + num + 1 - cap + 1 * cap) by lia. rewrite Z.mod_add, Z.mod_small; lia. }
  destruct (Z.ltb_spec ci hi); unwrap; unfold block_words.
  - rewrite (take_drop_same b.(b_data) b'.(b_data) (Z.to_nat hi)).
    2: { intros i Hi. rewrite <- (Nat2Z.id i). apply Hlow; lia. }
    rewrite (take_drop_same b.(b_data) b'.(b_data) (Z.to_nat 0)); [done|]. intros i Hi. rewrite <- (Nat2Z.id i), <- (Z.mod_small (Z.of_nat i) cap) by lia.
    rewrite <- (Z_mod_plus_full (Z.of_nat i) 1 cap). apply Hsame. lia.
  - rewrite (take_drop_same b.(b_data) b'.(b_data) (Z.to_nat hi)); [done|]. intros i Hi. rewrite <- (Nat2Z.id i). apply Hlow; lia.
Qed.

Lemma entry_writes_same header data data' hi : 0 ≤ hi →
  same_blocks hi (hi + field_get header_num_blocks header + 2) data data' → entry_writes header data' hi = entry_writes header data hi.
Proof.
  intros Hh [Hlen Hsame]. unfold entry_writes. rewrite Hlen. apply map_ext_in. intros i Hi%list_elem_of_In%elem_of_seqZ. by rewrite Hsame by lia.
Qed.

(** ** The entry on the device *)

(** Where the blocks from [hi] on go, in a journal at block [s] of the device. *)
Definition place (s cap hi i : Z) : Z := s + 1 + (hi + i) mod cap.

(** The blocks of one operation, which does not go around the end. *)
Lemma piece_writes data cap s h v k l :
  (∀ i, 0 ≤ i < l → (k + i) mod cap = v + i) →
  op_writes data (write_op h v (s + 1 + v) l) =
    map (λ i, (place s cap k i, default zero_block (data !! Z.to_nat ((k + i) mod cap)))) (seqZ 0 l).
Proof.
  intros H. unfold op_writes, place. cbn [u_op Operations.length_ dev_offset vmo_offset write_op]. apply map_ext_in.
  intros i Hi%list_elem_of_In%elem_of_seqZ. rewrite H by lia. by rewrite Z.add_assoc.
Qed.

Lemma AddEntryTransaction_ok b s hi len : b_capacity b ≤ 2 ^ 38 → 0 ≤ s < 2 ^ 38 → 0 ≤ hi < b_capacity b → 0 < len < b_capacity b → b.(b_vmo) ≠ ZX_HANDLE_INVALID →
  ∃ t, AddEntryTransaction b s hi len NewWriteTxn = Returns t ∧
    ∀ data, flat_map (op_writes data) t.(WriteTxn.operations_) =
      map (λ i, (place s (b_capacity b) hi i, default zero_block (data !! Z.to_nat ((hi + i) mod b_capacity b)))) (seqZ 0 len).
Proof.
  intros Hcap Hs Hh Hl Hv. set (cap := b_capacity b) in *. unfold AddEntryTransaction, AddTransaction, Enqueue, ZX_DEBUG_ASSERT. fold cap.
  rewrite (proj2 (Z.eqb_neq _ _) Hv). unwrap. ztest. cbn [mbind outcome_bind].
  destruct (Z.ltb_spec cap (hi + len)) as [Hw|Hw]; unwrap; ztest;
    cbn [mbind outcome_bind enqueue_loop NewWriteTxn WriteTxn.operations_ app WriteTxn.vmoid_ WriteTxn.block_count_ IsBuffered negb Z.eqb VMOID_INVALID vmo u_op vmo_offset dev_offset Operations.length_].
  - rewrite Z.eqb_refl. unwrap. ztest. cbn [negb andb]. eexists. split; [done|]. intros data. cbn [WriteTxn.operations_ app flat_map]. fold (write_op (b_vmo b) hi (s + 1 + hi) (cap - hi)).
    replace (s + 1) with (s + 1 + 0) at 2 by lia. fold (write_op (b_vmo b) 0 (s + 1 + 0) (len - (cap - hi))).
    rewrite (piece_writes data cap s _ hi hi), (piece_writes data cap s _ 0 (hi + (cap - hi))), app_nil_r.
    + replace len with (cap - hi + (len - (cap - hi))) at 2 by lia. rewrite map_seqZ_split by lia. f_equal. apply map_ext. intros i. unfold place. by rewrite !Z.add_assoc.
    + intros i Hi. replace (hi + (cap - hi) + i) with (i + 1 * cap) by lia. rewrite Z_mod_plus_full, Z.mod_small; lia.
    + intros i Hi. rewrite Z.mod_small; lia.
  - eexists. split; [done|]. intros data. cbn [WriteTxn.operations_ app flat_map]. rewrite app_nil_r. apply piece_writes.
    intros i Hi. rewrite Z.mod_small; lia.
Qed.

Lemma length_write_all ws d : length (write_all d ws) = length d.
Proof. revert d. induction ws as [|w ws IH]; intros d; [done|]. cbn. fold (write_all (<[Z.to_nat w.1 := w.2]> d) ws). by rewrite IH, length_insert. Qed.

Lemma write_all_other ws d a : Forall (λ w, Z.to_nat (fst w) ≠ a) ws → write_all d ws !! a = d !! a.
Proof.
  intros H. revert d. induction H as [|w ws Hw _ IH]; intros d; [done|]. cbn. fold (write_all (<[Z.to_nat w.1 := w.2]> d) ws).
  by rewrite IH, list_lookup_insert_ne.
Qed.

(** Each block is what was written to it, when no block is written twice. *)
Lemma write_all_at (g : Z → Z) (f : Z → block) d len i :
  (∀ k k', 0 ≤ k < k' → k' < len → Z.to_nat (g k) ≠ Z.to_nat (g k')) → 0 ≤ i < len → (Z.to_nat (g i) < length d)%nat →
  write_all d (map (λ i, (g i, f i)) (seqZ 0 len)) !! Z.to_nat (g i) = Some (f i).
Proof.
  intros Hinj Hi Hlt. replace len with (i + (1 + (len - i - 1))) by lia. rewrite !map_seqZ_split, !write_all_app by lia.
  rewrite write_all_other.
  - change (seqZ 0 1) with [0]. cbn [map write_all foldl fst snd]. rewrite Z.add_0_r, list_lookup_insert_eq; [done|by rewrite length_write_all].
  - apply Forall_map, Forall_seqZ. intros k Hk. cbn [fst]. apply not_eq_sym, Hinj; lia.
Qed.

(** What the journal at block [start_block_] of the device [d] holds, after the info block. *)
Definition region (j : Journal) (d : list block) : list block := take (length j.(entries_).(b_data)) (drop (Z.to_nat (j.(start_block_) + 1)) d).

Lemma region_lookup j d k : (k < length j.(entries_).(b_data))%nat → 0 ≤ j.(start_block_) → region j d !! k = d !! Z.to_nat (j.(start_block_) + 1 + Z.of_nat k).
Proof. intros Hk Hs. unfold region. rewrite lookup_take_lt, lookup_drop by done. f_equal. lia. Qed.

(** An info block that is accepted. *)
Definition info_ok (crc32 : Z → list Z → Z) (info : block) : Prop :=
  field_get info_magic info = kJournalMagic ∧ field_get info_checksum info = field_get info_checksum (checksummed crc32 info).

Lemma checksummed_get crc32 info f : field_valid f = true → field_disjoint info_checksum f = true → field_get f (checksummed crc32 info) = field_get f info.
Proof. intros Hv Hd. unfold checksummed. by rewrite !field_get_set_ne. Qed.

Lemma Load_ok crc32 (j : Journal) info : let d := j.(store).(disk) in
  j.(j_state) = kInit → 0 ≤ j.(start_block_) → d !! Z.to_nat j.(start_block_) = Some info → info_ok crc32 info →
  j.(start_block_) + 1 + b_capacity j.(entries_) ≤ Z.of_nat (length d) →
  ∃ info', Load crc32 ZX_OK j = Returns (ZX_OK, with_entries (with_info j info') (with_data j.(entries_) (region j d))) ∧
    ∀ f, field_valid f = true → field_disjoint info_checksum f = true → field_get f info' = field_get f info.
Proof.
  intros d Hst Hs Hinfo [Hm Hsum] Hlen. unfold Load. rewrite Hst, bool_decide_true, failed_ok by done. cbn [ZX_DEBUG_ASSERT mbind outcome_bind].
  rewrite (proj2 (array_get_returns _ _ info)) by done. unfold ZX_ASSERT. fold d. ztest. cbn [mbind outcome_bind]. rewrite Hm, Z.eqb_refl. cbn [negb]. fold (region j d).
  destruct (_ || _); [|by exists info]. exists (checksummed crc32 info). cbn [info_ with_info]. rewrite <- Hsum, Z.eqb_refl. split; [done|].
  intros f. apply checksummed_get.
Qed.

(** Once the work of the entry is on the device, the device has the blocks of the entry. *)
Lemma entry_on_device (j : Journal) (data d : list block) hi len :
  let cap := b_capacity j.(entries_) in
  Z.of_nat (length data) = cap → 0 ≤ j.(start_block_) → 0 ≤ hi < cap → len < cap → j.(start_block_) + 1 + cap ≤ Z.of_nat (length d) →
  same_blocks hi (hi + len) data
    (region j (write_all d (map (λ i, (place j.(start_block_) cap hi i, default zero_block (data !! Z.to_nat ((hi + i) mod cap)))) (seqZ 0 len)))).
Proof.
  intros cap Hd Hs Hh Hl Hlen. unfold b_capacity in cap. split.
  { unfold region. rewrite length_take, length_drop, length_write_all. lia. }
  rewrite Hd. intros i Hi. pose proof (Z.mod_pos_bound i cap ltac:(lia)) as Hm. rewrite region_lookup by lia. rewrite Z2Nat.id by lia.
  assert (j.(start_block_) + 1 + i mod cap = place j.(start_block_) cap hi (i - hi)) as -> by (unfold place; do 2 f_equal; lia).
  rewrite write_all_at; [|..|lia|unfold place; replace (hi + (i - hi)) with i by lia; lia].
  - replace (hi + (i - hi)) with i by lia. destruct (data !! Z.to_nat (i mod cap)) eqn:E; [done|]. apply lookup_ge_None in E. lia.
  - intros k k' Hk Hk'. unfold place. pose proof (mod_ne cap (hi + k) (hi + k') ltac:(lia)).
    pose proof (Z.mod_pos_bound (hi + k) cap ltac:(lia)). pose proof (Z.mod_pos_bound (hi + k') cap ltac:(lia)). lia.
Qed.

Lemma journal_ok_data dev j data info : journal_ok dev j [] → length data = length j.(entries_).(b_data) →
  journal_ok dev (with_entries (with_info j info) (with_data j.(entries_) data)) [].
Proof. intros [? Hc ? ? ? ? ?] Hl. constructor; try done. unfold b_capacity in *. cbn. by rewrite Hl. Qed.

(** The replay of entries that are away from the first block. *)
Lemma Replay_away dev crc32 sched ticks (j : Journal) x hs e el :
  (∀ m, dev.(device_status) m = ZX_OK) → journal_ok dev j [] → j.(j_state) = kInit →
  0 ≤ field_get info_start_block j.(info_) < b_capacity j.(entries_) →
  entries_from crc32 j.(entries_) (field_get info_start_block j.(info_)) (field_get info_num_blocks j.(info_)) 0 (x :: hs) e el →
  Forall (away (b_capacity j.(entries_))) (x :: hs) →
  ∃ j', Replay dev crc32 sched ticks (S (length j.(entries_).(b_data))) j = Returns (ZX_OK, j') ∧ j'.(j_state) = kReady ∧
    j'.(store).(disk) = write_all j.(store).(disk) (entries_write j.(entries_) (x :: hs) ++ reset_writes crc32 ticks j).
Proof.
  intros Hdev Hok Hst Hs Hent Haway. pose proof (field_get_range info_num_blocks j.(info_) ltac:(done)) as Hl.
  destruct (Replay_ok dev crc32 sched ticks Hdev (S (length j.(entries_).(b_data))) j (x :: hs) e el Hok Hst Hs Hl Hent ltac:(lia)) as (j' & E & Hst' & _ & _ & H).
  exists j'. split; [done|]. split; [done|]. rewrite bool_decide_false in H by done. destruct H as (_ & _ & m & _ & ->).
  destruct Hok as [_ Hcap _ _ _ _ _]. rewrite app_assoc, entries_write_cleared; [done|lia|done].
Qed.


(** An entry of one block at the end of a journal of 6 blocks, whose commit block is the first block; the entry
    was made in memory with other contents. *)
Definition word_sum (s : Z) (ws : list Z) : Z := foldr Z.add s ws mod 2 ^ 32.
Definition six_blocks : Buffer := {| b_vmo := 2; b_vmoid := 6; b_data := replicate 6 []; b_start := 4; b_length := 0 |}.
Definition one_block : WriteTxn := {| WriteTxn.vmoid_ := VMOID_INVALID; WriteTxn.operations_ := [write_op 9 3 20 1]; WriteTxn.block_count_ := 1 |}.

Definition example_entry : outcome (Buffer * WriteTxn) :=
  p ← CopyEntry named_vmos six_blocks one_block;
  let '(hi, ci, b1, t1) := (p : Z * Z * Buffer * WriteTxn) in
  e ← NewJournalEntry (replicate kHeaderWords 5) (replicate kCommitWords 5) 7 EkInit hi ci (with_transaction (@NewWork unit) t1);
  p ← PrepareBuffer word_sum b1 e;
  let '(b2, e2) := (p : Buffer * JournalEntry unit) in
  w ← AddEntryTransaction b2 8 hi (BlockCount e2) NewWriteTxn;
  Returns (b2, w).

Definition example_info : block := checksummed word_sum [kJournalMagic; 4; 0; 0; 0].
Definition example_before : list block := <[8%nat := example_info]> (replicate 24 []).

Definition example_crashed : Journal :=
  let j := example_journal 0 (replicate 6 []) in
  with_queue j j.(queue)
    {| disk := match example_entry with
               | Returns (b, w) => write_all example_before (flat_map (op_writes b.(b_data)) w.(WriteTxn.operations_))
               | _ => []
               end;
       transactions := 0 |}.


(** ** Entries of an earlier mount *)

Lemma verify_other_ts crc32 b h ts ts' header : VerifyEntryMetadata crc32 b h ts = Returns true → 0 ≤ h → b.(b_data) !! Z.to_nat h = Some header →
  ts' < field_get header_timestamp header → VerifyEntryMetadata crc32 b h ts' = Returns true.
Proof.
  intros Hv Hh Hat Hts. unfold VerifyEntryMetadata in *. rewrite (BlockAt_ok b h header) in * by done. cbn [mbind outcome_bind] in *.
  destruct (negb (field_get header_magic header =? kEntryHeaderMagic)); [done|]. cbn [orb] in *. ztest. by destruct (_ <=? ts).
Qed.

(** Changes of the blocks before [q], and of none after. *)
Lemma changes_before q hi data data' : 0 ≤ q → q ≤ hi ≤ Z.of_nat (length data) → changes 0 q data data' → same_blocks q hi data data'.
Proof.
  intros Hq Hhi [Hl Hf]. split; [done|]. intros i Hi. apply Hf. intros (k & Hk & He). rewrite Z2Nat.id in He by (apply Z.mod_pos_bound; lia).
  rewrite !Z.mod_small in He by lia. lia.
Qed.

Lemma changes_cleared b0 b q : 0 < q → changes 0 q (cleared b0).(b_data) b.(b_data) → changes 0 q b0.(b_data) b.(b_data).
Proof.
  cbn [cleared with_data b_data]. intros Hq [Hl Hf]. rewrite length_insert in Hl, Hf. constructor; [done|]. intros j Hj. rewrite Hf by done. apply list_lookup_insert_ne.
  intros <-. apply Hj. exists 0. split; [lia|]. by rewrite Zmod_0_l.
Qed.

(** C38. Entries of an earlier mount can come back. [CommitReplay] clears only the first block of the
    journal, and the timestamps are ticks, which start again when the machine does. If [b0] held
    an entry right after where the first entry of the new mount ends, that entry is still in the buffer, and
    while its timestamp is later it is valid after the new one: the next replay writes the new transaction and then
    the old blocks, over what has been written since. *)
Theorem journal_replays_stale_entry {C} (dev : Device) (crc32 : Z → list Z → Z) (sched : nat → nat) (ticks : nat → Z)
    (v : Vmos block) (b0 : Buffer) (t : WriteTxn) (header commit : list Z) (now ts0 : Z) (old : block) :
  let ops := t.(WriteTxn.operations_) in let n := blocks ops in let b := cleared b0 in let cap := b_capacity b0 in
  let q := n + 2 in let m := field_get header_num_blocks old in
  (∀ s ws, 0 ≤ crc32 s ws < 2 ^ 32) → (∀ m, dev.(device_status) m = ZX_OK) →
  buffer_ok b 0 → b.(b_length) = 0 → t.(WriteTxn.vmoid_) = VMOID_INVALID → Forall (copyable v b) ops → t.(WriteTxn.block_count_) = n →
  0 < n ≤ kMaxEntryDataBlocks → length header = kHeaderWords → length commit = kCommitWords → 0 < now < 2 ^ 64 →
  b0.(b_data) !! Z.to_nat q = Some old → VerifyEntryMetadata crc32 b0 q ts0 = Returns true → header_ok cap old → q + m + 2 ≤ cap →
  now < field_get header_timestamp old →
  ∃ ci b1 t1 e b2 e2, CopyEntry v b t = Returns (0, ci, b1, t1) ∧
    NewJournalEntry header commit now EkInit 0 ci (with_transaction (@NewWork C) t1) = Returns e ∧ PrepareBuffer crc32 b1 e = Returns (b2, e2) ∧
    ∀ j, journal_ok dev j [] → j.(j_state) = kInit → j.(entries_).(b_data) = b2.(b_data) →
      field_get info_start_block j.(info_) = 0 → field_get info_num_blocks j.(info_) = 0 →
      VerifyEntryMetadata crc32 j.(entries_) ((q + (m + 2)) mod cap) (field_get header_timestamp old) = Returns false →
      ∃ j', Replay dev crc32 sched ticks (S (length j.(entries_).(b_data))) j = Returns (ZX_OK, j') ∧ j'.(j_state) = kReady ∧
        j'.(store).(disk) = write_all j.(store).(disk)
          (flat_map (vmo_writes v) ops ++ entry_writes old b0.(b_data) q ++ reset_writes crc32 ticks j).
Proof.
  intros ops n b cap q m Hcrc Hdev Hb Hbl0 Hid Hops Hcnt Hn Hlh Hlc Hnow Hat0 Hver0 Hhd0 Hq Hold. pose proof Hb as [Hcap _ _ _ _].
  assert (b_capacity b = cap) as Hcb by (unfold cap, b_capacity; cbn; by rewrite length_insert). rewrite Hcb in Hcap. pose proof Hhd0 as [Hm _ _]. fold m in Hm.
  destruct (@entry_written C crc32 v b 0 t header commit now Hcrc Hb Hid Hops Hcnt Hn) as
    (hi & ci & b1 & t1 & e & b2 & e2 & header' & E1 & E2 & E3 & Hver & Hat & Hhd & Hts & Hew & Hhi & _ & _ & Hnum & _ & Hch); [fold ops n; lia|done|done|lia|].
  fold ops n in Hew, Hnum, Hch. rewrite Hbl0, Z.add_0_r, Z.mod_0_l in Hhi by lia. subst hi. exists ci, b1, t1, e, b2, e2. split; [done|]. split; [done|]. split; [done|].
  intros j Hj Hst Hdata His Hin Hstop. rewrite Hbl0, !Z.add_0_l in Hch. fold q in Hch. apply (changes_cleared b0 b2 q ltac:(lia)) in Hch.
  pose proof (changes_before q (q + m + 2) b0.(b_data) b2.(b_data) ltac:(lia) ltac:(change (Z.of_nat (length b0.(b_data))) with cap; lia) Hch) as Hsame.
  assert (b_capacity (entries_ j) = cap ∧ b_capacity b2 = cap) as [Hcj Hc2] by (unfold cap, b_capacity; by rewrite Hdata, (ch_length _ _ _ _ Hch)).
  assert (b2.(b_data) !! Z.to_nat q = Some old) as Hat2.
  { pose proof (proj2 Hsame q ltac:(lia)) as H. change (Z.of_nat (length b0.(b_data))) with cap in H. rewrite Z.mod_small in H by lia. by rewrite H. }
  edestruct (Replay_away dev crc32 sched ticks j (0, header') [(q, old)] ((q + (m + 2)) mod cap)) as (j' & ER & Hst' & Hd); [done|done|done|rewrite His, Hcj; lia| | |].
  - rewrite His, Hin. eapply ef_entry; rewrite ?Hdata, ?Hcj.
    + rewrite (verify_same crc32 b2 _ 0 0 header'); [apply Hver; lia|lia|lia|done|lia|by split; rewrite Hdata].
    + done.
    + by rewrite <- Hc2.
    + by left.
    + rewrite Hnum, Hts. cbn [Z.eqb]. fold q. rewrite Z.add_0_l, Z.mod_small by lia. eapply ef_entry; rewrite ?Hdata, ?Hcj.
      * apply (verify_other_ts _ _ _ ts0 _ old); [|lia|rewrite Hdata; exact Hat2|done].
        rewrite (verify_same crc32 b0 _ q ts0 old); [done|fold cap; lia|fold cap; lia|done|fold m cap; lia|fold m; by rewrite Hdata].
      * exact Hat2.
      * done.
      * by left.
      * by apply ef_stop.
  - repeat apply Forall_cons_2; [..|apply Forall_nil_2]; unfold away; cbn [fst snd]; rewrite Hcj; [rewrite Hnum|fold m]; intros i Hi; rewrite Z.mod_small; lia.
  - exists j'. split; [done|]. split; [done|]. rewrite Hd. unfold entries_write. cbn [flat_map fst snd]. rewrite Hdata, Hew, app_nil_r, <- app_assoc.
    do 3 f_equal. apply entry_writes_same; [lia|done].
Qed.

(** An entry of time 100 after one that was replayed with it, and a new one of time 7: the old block [4] is written to
    block 21 of the device again. *)
Definition replayed_blocks : Buffer :=
  {| b_vmo := 2; b_vmoid := 6; b_data := [header_at 99 [20]; [1]; commit_at 99; header_at 100 [21]; [4]; commit_at 100; []]; b_start := 0; b_length := 0 |}.

Definition stale_entry : outcome (Buffer * JournalEntry unit) :=
  p ← CopyEntry named_vmos (cleared replayed_blocks) one_block;
  let '(hi, ci, b1, t1) := (p : Z * Z * Buffer * WriteTxn) in
  e ← NewJournalEntry (replicate kHeaderWords 5) (replicate kCommitWords 5) 7 EkInit hi ci (with_transaction NewWork t1);
  PrepareBuffer no_checksum b1 e.

Lemma journal_replays_stale_entry_witness :
  let j := example_journal 0 (match stale_entry with Returns (b, _) => b.(b_data) | _ => [] end) in
  ∃ j', Replay good_device no_checksum (λ n, n) (λ _, 9) (S (length j.(entries_).(b_data))) j = Returns (ZX_OK, j') ∧
    j'.(store).(disk) !! 20%nat = Some [9; 3] ∧ j'.(store).(disk) !! 21%nat = Some [4].
Proof.
  intros j. destruct (@journal_replays_stale_entry unit good_device no_checksum (λ n, n) (λ _, 9) named_vmos replayed_blocks one_block
    (replicate kHeaderWords 5) (replicate kCommitWords 5) 7 0 (header_at 100 [21])) as (ci & b1 & t1 & e & b2 & e2 & E1 & E2 & E3 & H).
  - intros s ws. unfold no_checksum. lia.
  - reflexivity.
  - constructor; vm_compute; (done || (split; done)).
  - reflexivity.
  - reflexivity.
  - apply Forall_singleton. split; [repeat split; cbn; lia|]. split_and!; done.
  - reflexivity.
  - vm_compute. done.
  - reflexivity.
  - reflexivity.
  - lia.
  - reflexivity.
  - vm_compute. reflexivity.
  - apply header_at_ok; [cbn; lia|vm_compute; done|by repeat constructor].
  - vm_compute. done.
  - vm_compute. done.
  - assert (stale_entry = Returns (b2, e2)) as Ex by (unfold stale_entry; rewrite E1; cbn [mbind outcome_bind]; rewrite E2; exact E3).
    destruct (H j) as (j' & ER & _ & Hd).
    + apply example_journal_ok. vm_compute. split; done.
    + reflexivity.
    + unfold j. by rewrite Ex.
    + reflexivity.
    + reflexivity.
    + vm_compute. reflexivity.
    + exists j'. split; [exact ER|]. rewrite Hd. split; vm_compute; reflexivity.
Defined.
