(* ===== verification/Crc32.v ===== *)
(** * CRC-32 (third_party/ulib/cksum/crc32.c)

    The table-driven checksum with its unrolled loops, and the combination of two checksums by powers of a
    matrix over GF(2). Bytes are integers of [0, 256); a buffer is a list of them, and a read outside of it
    aborts. *)

From S2P Require Import Prelude.

(** ** crc32.c *)

(** The table of crc32.h. *)
Definition crc_table : list Z :=
  [0x00000000; 0x77073096; 0xee0e612c; 0x990951ba; 0x076dc419; 0x706af48f; 0xe963a535; 0x9e6495a3;
   0x0edb8832; 0x79dcb8a4; 0xe0d5e91e; 0x97d2d988; 0x09b64c2b; 0x7eb17cbd; 0xe7b82d07; 0x90bf1d91;
   0x1db71064; 0x6ab020f2; 0xf3b97148; 0x84be41de; 0x1adad47d; 0x6ddde4eb; 0xf4d4b551; 0x83d385c7;
   0x136c9856; 0x646ba8c0; 0xfd62f97a; 0x8a65c9ec; 0x14015c4f; 0x63066cd9; 0xfa0f3d63; 0x8d080df5;
   0x3b6e20c8; 0x4c69105e; 0xd56041e4; 0xa2677172; 0x3c03e4d1; 0x4b04d447; 0xd20d85fd; 0xa50ab56b;
   0x35b5a8fa; 0x42b2986c; 0xdbbbc9d6; 0xacbcf940; 0x32d86ce3; 0x45df5c75; 0xdcd60dcf; 0xabd13d59;
   0x26d930ac; 0x51de003a; 0xc8d75180; 0xbfd06116; 0x21b4f4b5; 0x56b3c423; 0xcfba9599; 0xb8bda50f;
   0x2802b89e; 0x5f058808; 0xc60cd9b2; 0xb10be924; 0x2f6f7c87; 0x58684c11; 0xc1611dab; 0xb6662d3d;
   0x76dc4190; 0x01db7106; 0x98d220bc; 0xefd5102a; 0x71b18589; 0x06b6b51f; 0x9fbfe4a5; 0xe8b8d433;
   0x7807c9a2; 0x0f00f934; 0x9609a88e; 0xe10e9818; 0x7f6a0dbb; 0x086d3d2d; 0x91646c97; 0xe6635c01;
   0x6b6b51f4; 0x1c6c6162; 0x856530d8; 0xf262004e; 0x6c0695ed; 0x1b01a57b; 0x8208f4c1; 0xf50fc457;
   0x65b0d9c6; 0x12b7e950; 0x8bbeb8ea; 0xfcb9887c; 0x62dd1ddf; 0x15da2d49; 0x8cd37cf3; 0xfbd44c65;
   0x4db26158; 0x3ab551ce; 0xa3bc0074; 0xd4bb30e2; 0x4adfa541; 0x3dd895d7; 0xa4d1c46d; 0xd3d6f4fb;
   0x4369e96a; 0x346ed9fc; 0xad678846; 0xda60b8d0; 0x44042d73; 0x33031de5; 0xaa0a4c5f; 0xdd0d7cc9;
   0x5005713c; 0x270241aa; 0xbe0b1010; 0xc90c2086; 0x5768b525; 0x206f85b3; 0xb966d409; 0xce61e49f;
   0x5edef90e; 0x29d9c998; 0xb0d09822; 0xc7d7a8b4; 0x59b33d17; 0x2eb40d81; 0xb7bd5c3b; 0xc0ba6cad;
   0xedb88320; 0x9abfb3b6; 0x03b6e20c; 0x74b1d29a; 0xead54739; 0x9dd277af; 0x04db2615; 0x73dc1683;
   0xe3630b12; 0x94643b84; 0x0d6d6a3e; 0x7a6a5aa8; 0xe40ecf0b; 0x9309ff9d; 0x0a00ae27; 0x7d079eb1;
   0xf00f9344; 0x8708a3d2; 0x1e01f268; 0x6906c2fe; 0xf762575d; 0x806567cb; 0x196c3671; 0x6e6b06e7;
   0xfed41b76; 0x89d32be0; 0x10da7a5a; 0x67dd4acc; 0xf9b9df6f; 0x8ebeeff9; 0x17b7be43; 0x60b08ed5;
   0xd6d6a3e8; 0xa1d1937e; 0x38d8c2c4; 0x4fdff252; 0xd1bb67f1; 0xa6bc5767; 0x3fb506dd; 0x48b2364b;
   0xd80d2bda; 0xaf0a1b4c; 0x36034af6; 0x41047a60; 0xdf60efc3; 0xa867df55; 0x316e8eef; 0x4669be79;
   0xcb61b38c; 0xbc66831a; 0x256fd2a0; 0x5268e236; 0xcc0c7795; 0xbb0b4703; 0x220216b9; 0x5505262f;
   0xc5ba3bbe; 0xb2bd0b28; 0x2bb45a92; 0x5cb36a04; 0xc2d7ffa7; 0xb5d0cf31; 0x2cd99e8b; 0x5bdeae1d;
   0x9b64c2b0; 0xec63f226; 0x756aa39c; 0x026d930a; 0x9c0906a9; 0xeb0e363f; 0x72076785; 0x05005713;
   0x95bf4a82; 0xe2b87a14; 0x7bb12bae; 0x0cb61b38; 0x92d28e9b; 0xe5d5be0d; 0x7cdcefb7; 0x0bdbdf21;
   0x86d3d2d4; 0xf1d4e242; 0x68ddb3f8; 0x1fda836e; 0x81be16cd; 0xf6b9265b; 0x6fb077e1; 0x18b74777;
   0x88085ae6; 0xff0f6a70; 0x66063bca; 0x11010b5c; 0x8f659eff; 0xf862ae69; 0x616bffd3; 0x166ccf45;
   0xa00ae278; 0xd70dd2ee; 0x4e048354; 0x3903b3c2; 0xa7672661; 0xd06016f7; 0x4969474d; 0x3e6e77db;
   0xaed16a4a; 0xd9d65adc; 0x40df0b66; 0x37d83bf0; 0xa9bcae53; 0xdebb9ec5; 0x47b2cf7f; 0x30b5ffe9;
   0xbdbdf21c; 0xcabac28a; 0x53b39330; 0x24b4a3a6; 0xbad03605; 0xcdd70693; 0x54de5729; 0x23d967bf;
   0xb3667a2e; 0xc4614ab8; 0x5d681b02; 0x2a6f2b94; 0xb40bbe37; 0xc30c8ea1; 0x5a05df1b; 0x2d02ef8d].

(** The pattern of the polynomial, from its terms, and the generation of the table. *)
Definition poly_terms : list Z := [0; 1; 2; 4; 5; 7; 8; 10; 11; 12; 16; 22; 23; 26].
Definition poly : Z := foldl (λ poly n, Z.lor poly (Z.shiftl 1 (31 - n))) 0 poly_terms.

Definition crc_shift (c : Z) : Z :=
  if negb (Z.land c 1 =? 0) then Z.lxor poly (Z.shiftr c 1) else Z.shiftr c 1.

Definition make_crc_table : list Z := map (λ n, Nat.iter 8 crc_shift (Z.of_nat n)) (seq 0 256).

(** One byte; [crc] and the position in the buffer. *)
Definition DO1 (buf : list Z) (s : Z * Z) : outcome (Z * Z) :=
  let '(crc, pos) := s in
  b ← array_get buf pos;
  t ← array_get crc_table (Z.land (Z.lxor crc b) 0xff);
  Returns (Z.lxor t (Z.shiftr crc 8), pos + 1).

Definition DO8 (buf : list Z) (s : Z * Z) : outcome (Z * Z) :=
  s ← DO1 buf s; s ← DO1 buf s; s ← DO1 buf s; s ← DO1 buf s;
  s ← DO1 buf s; s ← DO1 buf s; s ← DO1 buf s; DO1 buf s.

Fixpoint crc32_by8 (fuel : nat) (buf : list Z) (len : Z) (s : Z * Z) : outcome (Z * (Z * Z)) :=
  match fuel with
  | O => Diverges
  | S fuel =>
    if 8 <=? len then s ← DO8 buf s; crc32_by8 fuel buf (len ⊟ 8) s
    else Returns (len, s)
  end.

(** [do ... while (--len)] *)
Fixpoint crc32_by1 (fuel : nat) (buf : list Z) (len : Z) (s : Z * Z) : outcome (Z * Z) :=
  match fuel with
  | O => Diverges
  | S fuel =>
    s ← DO1 buf s;
    let len := len ⊟ 1 in
    if negb (len =? 0) then crc32_by1 fuel buf len s else Returns s
  end.

Definition crc32 (crc : Z) (buf : option (list Z)) (len : Z) : outcome Z :=
  match buf with
  | None => Returns 0
  | Some buf =>
    let crc := Z.lxor crc 0xffffffff in
    p ← crc32_by8 (S (Z.to_nat len)) buf len (crc, 0);
    let '(len, s) := (p : Z * (Z * Z)) in
    s ← (if negb (len =? 0) then crc32_by1 (S (Z.to_nat len)) buf len s else Returns s);
    Returns (Z.lxor (fst s) 0xffffffff)
  end.

(** *** crc32_combine *)

Definition GF2_DIM : nat := 32.

(** [mat] is what is left of the matrix. *)
Fixpoint gf2_matrix_times_loop (fuel : nat) (mat : list Z) (vec sum : Z) : outcome Z :=
  match fuel with
  | O => Diverges
  | S fuel =>
    if negb (vec =? 0) then
      sum ← (if negb (Z.land vec 1 =? 0) then m ← array_get mat 0; Returns (Z.lxor sum m) else Returns sum);
      gf2_matrix_times_loop fuel (tail mat) (Z.shiftr vec 1) sum
    else Returns sum
  end.

Definition gf2_matrix_times (mat : list Z) (vec : Z) : outcome Z := gf2_matrix_times_loop 33 mat vec 0.

Fixpoint gf2_matrix_rows (mat : list Z) (rows : list Z) : outcome (list Z) :=
  match rows with
  | [] => Returns []
  | row :: rows => x ← gf2_matrix_times mat row; xs ← gf2_matrix_rows mat rows; Returns (x :: xs)
  end.

(** The square of [mat]; what [square] held before is overwritten. *)
Definition gf2_matrix_square (mat : list Z) : outcome (list Z) := gf2_matrix_rows mat (take GF2_DIM mat).

(** The operator for one zero bit. *)
Definition odd_init : list Z := 0xedb88320 :: map (λ n, u32 (Z.shiftl 1 (Z.of_nat n))) (seq 0 (GF2_DIM - 1)).

Fixpoint combine_loop (fuel : nat) (odd : list Z) (crc1 len2 : Z) : outcome Z :=
  match fuel with
  | O => Diverges
  | S fuel =>
    even ← gf2_matrix_square odd;
    crc1 ← (if negb (Z.land len2 1 =? 0) then gf2_matrix_times even crc1 else Returns crc1);
    let len2 := Z.shiftr len2 1 in
    if len2 =? 0 then Returns crc1
    else
      odd ← gf2_matrix_square even;
      crc1 ← (if negb (Z.land len2 1 =? 0) then gf2_matrix_times odd crc1 else Returns crc1);
      let len2 := Z.shiftr len2 1 in
      if negb (len2 =? 0) then combine_loop fuel odd crc1 len2 else Returns crc1
  end.

Definition crc32_combine (crc1 crc2 len2 : Z) : outcome Z :=
  if len2 <=? 0 then Returns crc1
  else
    even ← gf2_matrix_square odd_init;
    odd ← gf2_matrix_square even;
    crc1 ← combine_loop 33 odd crc1 len2;
    Returns (Z.lxor crc1 crc2).

(** ** The shift register, one bit at a time *)

Definition byte_bits (b : Z) : list bool := map (λ i, Z.testbit b (Z.of_nat i)) (seq 0 8).
Definition bits_of (bytes : list Z) : list bool := flat_map byte_bits bytes.

Definition crc_register (c : Z) (bits : list bool) : Z := foldl (λ c b, crc_shift (Z.lxor c (Z.b2z b))) c bits.

Definition crc32_spec (crc : Z) (bytes : list Z) : Z :=
  Z.lxor (crc_register (Z.lxor crc 0xffffffff) (bits_of bytes)) 0xffffffff.

(** ** Linearity *)

Abbreviation word32 c := (0 ≤ c < 2 ^ 32).
Abbreviation byte b := (0 ≤ b < 2 ^ 8).

Lemma poly_value : poly = 0xedb88320.
Proof. reflexivity. Qed.

Lemma crc_table_made : crc_table = make_crc_table.
Proof. vm_compute. reflexivity. Qed.

Lemma crc_shift_lxor c : crc_shift c = Z.lxor (if Z.testbit c 0 then poly else 0) (Z.shiftr c 1).
Proof.
  unfold crc_shift. replace (Z.land c 1) with (Z.b2z (Z.testbit c 0)); [by destruct (Z.testbit c 0)|].
  change 1 with (Z.ones 1). rewrite Z.land_ones by lia. change (2 ^ 1) with 2. by rewrite <- Z.bit0_mod.
Qed.

Lemma lxor_range w x y : 0 ≤ w → 0 ≤ x < 2 ^ w → 0 ≤ y < 2 ^ w → 0 ≤ Z.lxor x y < 2 ^ w.
Proof.
  intros Hw Hx Hy. assert (0 ≤ Z.lxor x y) by (apply Z.lxor_nonneg; lia). split; [done|]. apply bits_bound; [done|done|].
  intros i Hi. by rewrite Z.lxor_spec, !(testbit_high w) by lia.
Qed.

Lemma crc_shift_range c : word32 c → word32 (crc_shift c).
Proof.
  intros Hc. rewrite crc_shift_lxor. apply lxor_range; [done| |].
  - destruct (Z.testbit c 0); [vm_compute; split; congruence|lia].
  - rewrite Z.shiftr_div_pow2 by lia. zlia.
Qed.

Lemma crc_shift_linear a b : crc_shift (Z.lxor a b) = Z.lxor (crc_shift a) (crc_shift b).
Proof.
  rewrite !crc_shift_lxor, Z.lxor_spec, Z.shiftr_lxor. apply Z.bits_inj'. intros i _. rewrite !Z.lxor_spec.
  destruct (Z.testbit a 0), (Z.testbit b 0); cbn [xorb]; rewrite ?Z.bits_0; btauto.
Qed.

Lemma crc_shift_zero : crc_shift 0 = 0.
Proof. reflexivity. Qed.

(** The lowest bit of a register is gone after a step, and comes back as the highest bit of the polynomial. *)
Lemma crc_shift_nonzero c : word32 c → crc_shift c = 0 → c = 0.
Proof.
  intros Hc. rewrite crc_shift_lxor. intros E. apply Z.lxor_eq in E. destruct (Z.testbit c 0) eqn:Eb.
  - exfalso. assert (Z.shiftr c 1 < 2 ^ 31) by (rewrite Z.shiftr_div_pow2 by lia; zlia). rewrite <- E in *. vm_compute in H. congruence.
  - apply (word_ext 32); [lia|done|lia|]. intros i Hi. rewrite Z.bits_0. destruct (decide (i = 0)) as [->|]; [done|].
    replace i with (i - 1 + 1) by lia. rewrite <- Z.shiftr_spec, <- E by lia. apply Z.bits_0.
Qed.

(** ** Several steps *)

Definition shifts (n : nat) (c : Z) : Z := Nat.iter n crc_shift c.

Lemma shifts_S n c : shifts (S n) c = shifts n (crc_shift c).
Proof. apply Nat.iter_succ_r. Qed.

Lemma shifts_add n m c : shifts (n + m) c = shifts n (shifts m c).
Proof. apply Nat.iter_add. Qed.

Lemma shifts_range n c : word32 c → word32 (shifts n c).
Proof. intros Hc. induction n as [|n IH]; [done|]. by apply crc_shift_range. Qed.

Lemma shifts_linear n a b : shifts n (Z.lxor a b) = Z.lxor (shifts n a) (shifts n b).
Proof. revert a b. induction n as [|n IH]; intros a b; [done|]. by rewrite !shifts_S, crc_shift_linear, IH. Qed.

Lemma shifts_nonzero n c : word32 c → shifts n c = 0 → c = 0.
Proof.
  intros Hc. revert c Hc. induction n as [|n IH]; intros c Hc; [done|]. rewrite shifts_S. intros E%IH; [|by apply crc_shift_range]. by apply crc_shift_nonzero.
Qed.

Lemma shifts_shiftl n y : shifts n (Z.shiftl y (Z.of_nat n)) = y.
Proof.
  induction n as [|n IH]; [apply Z.shiftl_0_r|]. rewrite shifts_S, crc_shift_lxor, Z.shiftl_spec_low by lia. cbn [Z.lxor].
  by replace (Z.shiftr (Z.shiftl y (Z.of_nat (S n))) 1) with (Z.shiftl y (Z.of_nat n)) by (rewrite Z.shiftr_shiftl_l by lia; f_equal; lia).
Qed.

(** Bits as an integer, the first one lowest. *)
Fixpoint bits_value (bits : list bool) : Z :=
  match bits with [] => 0 | b :: bits => Z.b2z b + 2 * bits_value bits end.

Lemma bits_value_range bits : 0 ≤ bits_value bits < 2 ^ Z.of_nat (length bits).
Proof. induction bits as [|b bits IH]; cbn [bits_value length]; [lia|]. rewrite Nat2Z.inj_succ, Z.pow_succ_r by lia. destruct b; cbn [Z.b2z]; lia. Qed.

Lemma bits_value_inj x y : length x = length y → bits_value x = bits_value y → x = y.
Proof.
  revert y. induction x as [|a x IH]; intros [|b y] Hlen E; try done. cbn [bits_value length] in *.
  assert (a = b) as -> by (destruct a, b; cbn [Z.b2z] in E; done || lia). f_equal. apply IH; lia.
Qed.

Lemma b2z_lxor b x : Z.b2z b + 2 * x = Z.lxor (Z.b2z b) (Z.shiftl x 1).
Proof.
  rewrite Z.shiftl_mul_pow2 by lia. change (2 ^ 1) with 2. rewrite (Z.mul_comm x). symmetry. rewrite <- Z.add_nocarry_lxor; [done|]. apply Z.bits_inj'. intros i Hi. rewrite Z.land_spec, Z.bits_0.
  destruct (decide (i = 0)) as [->|]; [by rewrite Z.testbit_even_0, andb_false_r|]. destruct b; cbn [Z.b2z]; [by rewrite (testbit_high 1 1) by lia|by rewrite Z.bits_0].
Qed.

(** Bits that are fed one after the other may as well be added first. *)
Lemma crc_register_shifts c bits : crc_register c bits = shifts (length bits) (Z.lxor c (bits_value bits)).
Proof.
  revert c. induction bits as [|b bits IH]; intros c; cbn [length bits_value]; [by rewrite Z.lxor_0_r|]. unfold crc_register in *. cbn [foldl]. rewrite IH, shifts_S. f_equal.
  rewrite b2z_lxor, <- Z.lxor_assoc, (crc_shift_linear (Z.lxor c _)). f_equal. symmetry. apply (shifts_shiftl 1).
Qed.

Lemma crc_register_app c x y : crc_register c (x ++ y) = crc_register (crc_register c x) y.
Proof. apply foldl_app. Qed.

Lemma crc_register_range c bits : word32 c → word32 (crc_register c bits).
Proof.
  revert c. induction bits as [|b bits IH]; intros c Hc; [done|]. apply IH, crc_shift_range, lxor_range; [done|done|]. destruct b; cbn [Z.b2z]; lia.
Qed.

Lemma crc_register_lxor a c bits : crc_register (Z.lxor a c) bits = Z.lxor (shifts (length bits) a) (crc_register c bits).
Proof. by rewrite !crc_register_shifts, Z.lxor_assoc, shifts_linear. Qed.

(** ** The code computes the register *)

(** What holds of all bytes can be tested. *)
Lemma for_bytes (P : Z → bool) b : forallb P (map Z.of_nat (seq 0 256)) = true → byte b → P b = true.
Proof.
  intros HP Hb. apply (proj1 (forallb_forall _ _) HP). replace b with (Z.of_nat (Z.to_nat b)) by lia. apply in_map, in_seq. lia.
Qed.

Lemma byte_bits_value b : byte b → bits_value (byte_bits b) = b.
Proof. intros Hb. apply Z.eqb_eq. by apply (for_bytes (λ b, bits_value (byte_bits b) =? b)). Qed.

Lemma crc_table_get k : byte k → array_get crc_table k = Returns (shifts 8 k).
Proof.
  intros Hk. rewrite crc_table_made. apply array_get_returns. split; [lia|]. unfold make_crc_table. rewrite list_lookup_fmap, lookup_seq_lt by lia. cbn [fmap option_fmap option_map Nat.add]. by rewrite Z2Nat.id by lia.
Qed.

Lemma split_low x : x = Z.lxor (Z.land x 0xff) (Z.shiftl (Z.shiftr x 8) 8).
Proof.
  apply Z.bits_inj'. intros i Hi. rewrite Z.lxor_spec. change 0xff with (Z.ones 8). rewrite Z.land_spec. destruct (Z.lt_ge_cases i 8).
  - rewrite Z.ones_spec_low, Z.shiftl_spec_low by lia. by rewrite andb_true_r, xorb_false_r.
  - rewrite Z.ones_spec_high, Z.shiftl_spec, Z.shiftr_spec by lia. rewrite andb_false_r. by replace (i - 8 + 8) with i by lia.
Qed.

Lemma DO1_ok buf c pos b : word32 c → 0 ≤ pos → buf !! Z.to_nat pos = Some b → byte b →
  DO1 buf (c, pos) = Returns (crc_register c (byte_bits b), pos + 1).
Proof.
  intros Hc Hpos Hb Hbyte. unfold DO1. rewrite (proj2 (array_get_returns _ _ _) (conj Hpos Hb)). cbn [mbind outcome_bind].
  assert (0 ≤ Z.lxor c b) as Hx by (apply Z.lxor_nonneg; lia). rewrite crc_table_get.
  2: { change 0xff with (Z.ones 8). rewrite Z.land_ones by lia. apply Z.mod_pos_bound. lia. }
  cbn [mbind outcome_bind]. rewrite crc_register_shifts, byte_bits_value by done. do 2 f_equal. change (length (byte_bits b)) with 8%nat. rewrite (split_low (Z.lxor c b)) at 2. rewrite shifts_linear, (shifts_shiftl 8).
  f_equal. rewrite Z.shiftr_lxor, (Z.shiftr_div_pow2 b) by lia. rewrite (Z.div_small b) by lia. by rewrite Z.lxor_0_r.
Qed.

(** The register after some bytes of a buffer. *)
Definition fed (c : Z) (buf : list Z) (pos n : Z) : Z := crc_register c (bits_of (take (Z.to_nat n) (drop (Z.to_nat pos) buf))).

Section loops.
Context (buf : list Z) (Hbuf : Forall (λ b, byte b) buf).

Lemma fed_0 c pos : fed c buf pos 0 = c.
Proof. reflexivity. Qed.

Lemma fed_add c pos n m : 0 ≤ pos → 0 ≤ n → 0 ≤ m → fed (fed c buf pos n) buf (pos + n) m = fed c buf pos (n + m).
Proof.
  intros Hp Hn Hm. unfold fed. rewrite <- crc_register_app. unfold bits_of. rewrite <- flat_map_app, Z2Nat.inj_add, <- drop_drop, Z2Nat.inj_add by lia.
  by rewrite take_take_drop.
Qed.

Lemma fed_range c pos n : word32 c → word32 (fed c buf pos n).
Proof. apply crc_register_range. Qed.

Lemma DO1_fed c pos : word32 c → 0 ≤ pos < Z.of_nat (length buf) → DO1 buf (c, pos) = Returns (fed c buf pos 1, pos + 1).
Proof.
  intros Hc Hp. destruct (lookup_lt_is_Some_2 buf (Z.to_nat pos)) as [b Hb]; [lia|]. rewrite (DO1_ok _ _ _ b); [|done|lia|done|by eapply (proj1 (Forall_lookup _ _) Hbuf)].
  unfold fed. by rewrite (drop_S _ _ _ Hb).
Qed.

Lemma DO1_next c pos n : word32 c → 0 ≤ pos → 0 ≤ n → pos + n < Z.of_nat (length buf) →
  DO1 buf (fed c buf pos n, pos + n) = Returns (fed c buf pos (Z.succ n), pos + Z.succ n).
Proof. intros Hc Hp Hn Hl. rewrite DO1_fed by (lia || by apply fed_range). rewrite fed_add by lia. by replace (pos + n + 1) with (pos + Z.succ n) by lia. Qed.

Lemma DO8_fed c pos : word32 c → 0 ≤ pos → pos + 8 ≤ Z.of_nat (length buf) → DO8 buf (c, pos) = Returns (fed c buf pos 8, pos + 8).
Proof.
  intros Hc Hp Hl. replace (c, pos) with (fed c buf pos 0, pos + 0) by (by rewrite fed_0, Z.add_0_r). unfold DO8.
  do 7 (rewrite DO1_next by (done || lia); cbn [mbind outcome_bind]). by rewrite DO1_next by (done || lia).
Qed.

Lemma by8_ok fuel c pos len : word32 c → 0 ≤ pos → 0 ≤ len < 2 ^ 64 → pos + len ≤ Z.of_nat (length buf) → (Z.to_nat len < fuel)%nat →
  let n := len - len mod 8 in crc32_by8 fuel buf len (c, pos) = Returns (len mod 8, (fed c buf pos n, pos + n)).
Proof.
  revert c pos len. induction fuel as [|fuel IH]; intros c pos len Hc Hp Hlen Hl Hf; [lia|]. cbn [crc32_by8]. destruct (Z.leb_spec 8 len).
  - rewrite DO8_fed by (done || lia). cbn [mbind outcome_bind]. unwrap. rewrite IH; [|by apply fed_range|lia..]. cbv zeta. rewrite fed_add by zlia.
    replace ((len - 8) mod 8) with (len mod 8) by zlia. replace (8 + (len - 8 - len mod 8)) with (len - len mod 8) by lia.
    by replace (pos + 8 + (len - 8 - len mod 8)) with (pos + (len - len mod 8)) by lia.
  - cbv zeta. rewrite Z.mod_small by lia. rewrite Z.sub_diag. by rewrite Z.add_0_r.
Qed.

Lemma by1_ok fuel c pos len : word32 c → 0 ≤ pos → 0 < len < 2 ^ 64 → pos + len ≤ Z.of_nat (length buf) → (Z.to_nat len < fuel)%nat →
  crc32_by1 fuel buf len (c, pos) = Returns (fed c buf pos len, pos + len).
Proof.
  revert c pos len. induction fuel as [|fuel IH]; intros c pos len Hc Hp Hlen Hl Hf; [lia|]. cbn [crc32_by1]. rewrite DO1_fed by (done || lia). cbn [mbind outcome_bind]. unwrap.
  destruct (Z.eqb_spec (len - 1) 0); cbn [negb].
  - by replace len with 1 by lia.
  - rewrite IH; [|by apply fed_range|lia..]. rewrite fed_add by lia. replace (1 + (len - 1)) with len by lia. by replace (pos + 1 + (len - 1)) with (pos + len) by lia.
Qed.

Lemma crc32_prefix c len : word32 c → 0 ≤ len < 2 ^ 64 → len ≤ Z.of_nat (length buf) →
  crc32 c (Some buf) len = Returns (crc32_spec c (take (Z.to_nat len) buf)).
Proof.
  intros Hc Hlen Hl. unfold crc32. assert (word32 (Z.lxor c 0xffffffff)) as Hc' by (apply lxor_range; lia). rewrite by8_ok by (done || lia). cbn [mbind outcome_bind].
  destruct (Z.eqb_spec (len mod 8) 0) as [E|E]; cbn [negb mbind outcome_bind fst].
  - rewrite E, Z.sub_0_r. done.
  - rewrite by1_ok; [|by apply fed_range|zlia..]. cbn [mbind outcome_bind fst]. rewrite fed_add by zlia. by replace (len - len mod 8 + len mod 8) with len by lia.
Qed.

End loops.

(** ** Matrices over GF(2) *)

(** The columns of a linear map: the values at single bits. *)
Definition is_matrix (f : Z → Z) (mat : list Z) : Prop :=
  length mat = GF2_DIM ∧ ∀ i, (i < GF2_DIM)%nat → mat !! i = Some (f (2 ^ Z.of_nat i)).

Definition linear (f : Z → Z) : Prop := f 0 = 0 ∧ (∀ a b, f (Z.lxor a b) = Z.lxor (f a) (f b)) ∧ (∀ a, word32 a → word32 (f a)).

Lemma shifts_are_linear n : linear (shifts n).
Proof.
  split; [|split; [apply shifts_linear|intros a; apply shifts_range]]. induction n as [|n IH]; [done|]. by rewrite shifts_S, crc_shift_zero.
Qed.

Lemma split_bit vec k : Z.shiftl vec k = Z.lxor (Z.shiftl (Z.b2z (Z.testbit vec 0)) k) (Z.shiftl (Z.shiftl (Z.shiftr vec 1) 1) k).
Proof.
  rewrite <- Z.shiftl_lxor, <- b2z_lxor, Z.bit0_mod, Z.shiftr_div_pow2 by lia. f_equal. change (2 ^ 1) with 2. zlia.
Qed.

Lemma times_loop_S fuel mat vec sum : gf2_matrix_times_loop (S fuel) mat vec sum =
  if negb (vec =? 0) then
    sum ← (if negb (Z.land vec 1 =? 0) then m ← array_get mat 0; Returns (Z.lxor sum m) else Returns sum);
    gf2_matrix_times_loop fuel (tail mat) (Z.shiftr vec 1) sum
  else Returns sum.
Proof. reflexivity. Qed.

Lemma times_loop_ok f mat k n vec sum : linear f → is_matrix f mat → (k + n = GF2_DIM)%nat → 0 ≤ vec < 2 ^ Z.of_nat n →
  gf2_matrix_times_loop (S n) (drop k mat) vec sum = Returns (Z.lxor sum (f (Z.shiftl vec (Z.of_nat k)))).
Proof.
  intros (Hf0 & Hf & _) [Hlen Hmat]. revert k vec sum. induction n as [|n IH]; intros k vec sum Hk Hv; rewrite times_loop_S;
    (destruct (Z.eqb_spec vec 0) as [->|Hnz]; cbn [negb]; [by rewrite Z.shiftl_0_l, Hf0, Z.lxor_0_r|]); [cbn in Hv; lia|].
  assert (0 ≤ Z.shiftr vec 1 < 2 ^ Z.of_nat n) as Hv' by (rewrite Z.shiftr_div_pow2 by lia; rewrite Nat2Z.inj_succ, Z.pow_succ_r in Hv by lia; zlia).
  rewrite (split_bit vec), Hf, Z.shiftl_shiftl by lia. replace (1 + Z.of_nat k) with (Z.of_nat (S k)) by lia.
  assert (Z.land vec 1 = Z.b2z (Z.testbit vec 0)) as -> by (change 1 with (Z.ones 1) at 1; rewrite Z.land_ones by lia; by rewrite Z.bit0_mod).
  rewrite (drop_S mat _ k) by (apply Hmat; lia). cbn [tail].
  assert (∀ x l, array_get (x :: l) 0 = Returns (x : Z)) as -> by done.
  destruct (Z.testbit vec 0); cbn [Z.b2z Z.eqb negb mbind outcome_bind]; rewrite IH by (done || lia); f_equal.
  - by rewrite Z.shiftl_1_l, Z.lxor_assoc.
  - by rewrite Z.shiftl_0_l, Hf0, Z.lxor_0_l.
Qed.

Lemma matrix_times_ok f mat vec : linear f → is_matrix f mat → word32 vec → gf2_matrix_times mat vec = Returns (f vec).
Proof. intros Hf Hm Hv. unfold gf2_matrix_times. rewrite <- (drop_0 mat), (times_loop_ok f) by done. by rewrite Z.shiftl_0_r, Z.lxor_0_l. Qed.

Lemma matrix_rows_ok f mat rows : linear f → is_matrix f mat → Forall (λ v, word32 v) rows → gf2_matrix_rows mat rows = Returns (map f rows).
Proof.
  intros Hf Hm Hr. induction Hr as [|row rows Hrow _ IH]; [done|]. cbn [gf2_matrix_rows]. rewrite (matrix_times_ok f) by done. cbn [mbind outcome_bind]. by rewrite IH.
Qed.

Lemma matrix_square_ok f mat : linear f → is_matrix f mat → ∃ mat', gf2_matrix_square mat = Returns mat' ∧ is_matrix (λ v, f (f v)) mat'.
Proof.
  intros Hf Hm. pose proof Hf as (_ & _ & Hr). pose proof Hm as [Hlen Hi]. unfold gf2_matrix_square. rewrite take_ge by lia. exists (map f mat). split.
  - apply matrix_rows_ok; [done|done|]. apply Forall_lookup. intros i v Hv. pose proof (lookup_lt_Some _ _ _ Hv) as Hlt. rewrite Hi in Hv by lia. injection Hv as <-. apply Hr.
    split; [apply Z.pow_nonneg; lia|]. apply Z.pow_lt_mono_r; unfold GF2_DIM in *; lia.
  - split; [by rewrite length_map|]. intros i Hlt. by rewrite list_lookup_fmap, Hi.
Qed.

Lemma odd_init_ok : is_matrix (shifts 1) odd_init.
Proof.
  split; [done|]. intros i Hi. assert (Forall (λ i, odd_init !! i = Some (shifts 1 (2 ^ Z.of_nat i))) (seq 0 GF2_DIM)) as Hall by repeat constructor.
  apply (proj1 (Forall_forall _ _) Hall), elem_of_seq. lia.
Qed.

Lemma square_shifts n mat : is_matrix (shifts n) mat → ∃ mat', gf2_matrix_square mat = Returns mat' ∧ is_matrix (shifts (n + n)) mat'.
Proof.
  intros Hm. destruct (matrix_square_ok _ _ (shifts_are_linear n) Hm) as (mat' & E & Hlen & Hi). exists mat'. split; [done|]. split; [done|]. intros i Hlt. by rewrite Hi, shifts_add.
Qed.

Lemma times_if n mat c len : is_matrix (shifts n) mat → word32 c → 0 ≤ len →
  (if negb (Z.land len 1 =? 0) then gf2_matrix_times mat c else Returns c) = Returns (shifts (n * Z.to_nat (len mod 2)) c).
Proof.
  intros Hm Hc Hl. change 1 with (Z.ones 1). rewrite Z.land_ones by lia. change (2 ^ 1) with 2. destruct (Z.eqb_spec (len mod 2) 0) as [E|E]; cbn [negb].
  - by rewrite E, Nat.mul_0_r.
  - rewrite (matrix_times_ok _ _ _ (shifts_are_linear n)) by done. replace (len mod 2) with 1 by zlia. by rewrite Nat.mul_1_r.
Qed.

(** The first matrix of a round is that of [k] zero bits. *)
Lemma combine_loop_ok fuel k odd crc1 len2 : is_matrix (shifts k) odd → word32 crc1 → 0 < len2 < 4 ^ Z.of_nat fuel →
  combine_loop fuel odd crc1 len2 = Returns (shifts ((k + k) * Z.to_nat len2) crc1).
Proof.
  revert k odd crc1 len2. induction fuel as [|fuel IH]; intros k odd crc1 len2 Hm Hc Hl; [cbn in Hl; lia|]. cbn [combine_loop].
  destruct (square_shifts _ _ Hm) as (even & -> & He). cbn [mbind outcome_bind]. rewrite (times_if _ _ _ _ He Hc) by lia. cbn [mbind outcome_bind]. rewrite !Z.shiftr_div_pow2 by lia. change (2 ^ 1) with 2.
  rewrite Nat2Z.inj_succ, Z.pow_succ_r in Hl by lia. set (c1 := shifts _ crc1). assert (word32 c1) as Hc1 by by apply shifts_range.
  destruct (Z.eqb_spec (len2 / 2) 0) as [E|E]; [subst c1; by replace (len2 mod 2) with len2 by zlia|].
  destruct (square_shifts _ _ He) as (odd' & -> & Ho). cbn [mbind outcome_bind]. rewrite (times_if _ _ _ _ Ho Hc1) by zlia. cbn [mbind outcome_bind]. subst c1. rewrite <- shifts_add.
  destruct (Z.eqb_spec (len2 / 2 / 2) 0) as [E2|E2]; cbn [negb].
  - do 2 f_equal. replace len2 with (len2 mod 2 + 2 * ((len2 / 2) mod 2)) at 3 by zlia. rewrite Z2Nat.inj_add, Z2Nat.inj_mul by zlia. change (Z.to_nat 2) with 2%nat. lia.
  - rewrite (IH _ _ _ _ Ho); [|by apply shifts_range|zlia]. rewrite <- shifts_add. do 2 f_equal.
    replace len2 with (len2 mod 2 + 2 * ((len2 / 2) mod 2) + 4 * (len2 / 2 / 2)) at 4 by zlia. rewrite !Z2Nat.inj_add, !Z2Nat.inj_mul by zlia. change (Z.to_nat 2) with 2%nat. change (Z.to_nat 4) with 4%nat. lia.
Qed.

Lemma combine_ok crc1 crc2 len2 : word32 crc1 → 0 < len2 < 2 ^ 64 → crc32_combine crc1 crc2 len2 = Returns (Z.lxor (shifts (8 * Z.to_nat len2) crc1) crc2).
Proof.
  intros Hc Hl. unfold crc32_combine. ztest. destruct (square_shifts _ _ odd_init_ok) as (even & -> & He). cbn [mbind outcome_bind]. destruct (square_shifts _ _ He) as (odd & -> & Ho).
  cbn [mbind outcome_bind]. by rewrite (combine_loop_ok 33 _ _ _ _ Ho Hc) by (cbn; lia).
Qed.

(** ** The checksum *)

Lemma bits_of_app a b : bits_of (a ++ b) = bits_of a ++ bits_of b.
Proof. apply flat_map_app. Qed.

Lemma bits_of_length bytes : length (bits_of bytes) = (8 * length bytes)%nat.
Proof. induction bytes as [|b bytes IH]; [done|]. cbn [bits_of flat_map]. rewrite length_app. change (length (byte_bits b)) with 8%nat. unfold bits_of in IH. cbn [length]. lia. Qed.

Lemma crc32_spec_range c bytes : word32 c → word32 (crc32_spec c bytes).
Proof. intros Hc. apply lxor_range; [done| |lia]. apply crc_register_range, lxor_range; lia. Qed.

Lemma crc32_spec_app c a b : crc32_spec (crc32_spec c a) b = crc32_spec c (a ++ b).
Proof. unfold crc32_spec. by rewrite bits_of_app, crc_register_app, Z.lxor_assoc, Z.lxor_nilpotent, Z.lxor_0_r. Qed.

(** The bits after a difference shift it, and cannot undo it. *)
Lemma crc_register_burst c pre x y post : word32 c → length x = length y → (length x ≤ 32)%nat → x ≠ y →
  crc_register c (pre ++ x ++ post) ≠ crc_register c (pre ++ y ++ post).
Proof.
  intros Hc Hlen Hmax Hne E. apply Hne, bits_value_inj; [done|]. apply Z.lxor_eq. rewrite !crc_register_app in E. set (d := crc_register c pre) in E.
  apply (shifts_nonzero (length post + length x)).
  - pose proof (bits_value_range x). pose proof (bits_value_range y). rewrite <- Hlen in *. assert (2 ^ Z.of_nat (length x) ≤ 2 ^ 32) by (apply Z.pow_le_mono_r; lia). apply lxor_range; lia.
  - rewrite shifts_add, shifts_linear. apply Z.lxor_eq_0_iff in E. rewrite !(crc_register_shifts _ post), !crc_register_shifts, <- Hlen, <- shifts_linear in E. rewrite <- E. f_equal.
    rewrite !shifts_linear. apply Z.bits_inj'. intros i _. rewrite !Z.lxor_spec. btauto.
Qed.

Definition len (bytes : list Z) : Z := Z.of_nat (length bytes).

Lemma crc32_whole c bytes : word32 c → Forall (λ b, byte b) bytes → len bytes < 2 ^ 64 → crc32 c (Some bytes) (len bytes) = Returns (crc32_spec c bytes).
Proof. intros Hc Hb Hl. unfold len in *. rewrite crc32_prefix by (done || lia). by rewrite Nat2Z.id, firstn_all. Qed.

(** C35. The table of crc32.h is the one that make_crc_table generates, and crc32, with its table and its unrolled
    loops, gives the contents of the shift register that is fed bit by bit; the checksum of a buffer can be
    computed piece by piece. *)
Theorem crc32_exact c a b :
  word32 c → Forall (λ b, byte b) (a ++ b) → len (a ++ b) < 2 ^ 64 →
  crc_table = make_crc_table ∧ crc32 c (Some (a ++ b)) (len (a ++ b)) = Returns (crc32_spec c (a ++ b)) ∧
  ∃ ca, crc32 c (Some a) (len a) = Returns ca ∧ crc32 ca (Some b) (len b) = Returns (crc32_spec c (a ++ b)).
Proof.
  intros Hc Hb Hl. split; [exact crc_table_made|]. split; [by apply crc32_whole|]. apply Forall_app in Hb as [Ha Hb]. unfold len in *. rewrite length_app in Hl.
  exists (crc32_spec c a). split; [apply crc32_whole; unfold len; done || lia|]. rewrite crc32_whole; [|by apply crc32_spec_range|done|unfold len; lia]. by rewrite crc32_spec_app.
Qed.

(** The digits 1 to 9, whose checksum is the usual check value. *)
Lemma crc32_exact_witness : ∃ ca, crc32 0 (Some [49; 50; 51; 52; 53]) 5 = Returns ca ∧ crc32 ca (Some [54; 55; 56; 57]) 4 = Returns 0xcbf43926.
Proof.
  destruct (crc32_exact 0 [49; 50; 51; 52; 53] [54; 55; 56; 57]) as (_ & _ & H).
  - lia.
  - repeat apply Forall_cons_2; lia || apply Forall_nil_2.
  - reflexivity.
  - exact H.
Defined.

(** Two buffers that differ, but only inside of 32 consecutive bits, have different checksums. *)
Theorem crc32_detects_burst c a b pre x y post :
  word32 c → Forall (λ b, byte b) a → Forall (λ b, byte b) b → len a < 2 ^ 64 → len b < 2 ^ 64 →
  bits_of a = pre ++ x ++ post → bits_of b = pre ++ y ++ post → length x = length y → (length x ≤ 32)%nat → x ≠ y →
  ∃ ca cb, crc32 c (Some a) (len a) = Returns ca ∧ crc32 c (Some b) (len b) = Returns cb ∧ ca ≠ cb.
Proof.
  intros Hc Ha Hb Hla Hlb Ea Eb Hlen Hmax Hne. exists (crc32_spec c a), (crc32_spec c b). split_and!; [by apply crc32_whole..|]. unfold crc32_spec. rewrite Ea, Eb. intros E.
  apply (crc_register_burst (Z.lxor c 0xffffffff) pre x y post); [apply lxor_range; lia|done..|]. apply (f_equal (λ v, Z.lxor v 0xffffffff)) in E.
  by rewrite !Z.lxor_assoc, Z.lxor_nilpotent, !Z.lxor_0_r in E.
Qed.

(** crc32_combine computes the checksum of two buffers, one after the other, from their checksums and the
    length of the second, in as many squarings of a matrix as the length has bits. *)
Theorem crc32_combine_exact a b :
  Forall (λ b, byte b) (a ++ b) → len (a ++ b) < 2 ^ 64 →
  ∃ ca cb cab, crc32 0 (Some a) (len a) = Returns ca ∧ crc32 0 (Some b) (len b) = Returns cb ∧ crc32 0 (Some (a ++ b)) (len (a ++ b)) = Returns cab ∧
    crc32_combine ca cb (len b) = Returns cab.
Proof.
  intros Hb Hl. exists (crc32_spec 0 a), (crc32_spec 0 b), (crc32_spec 0 (a ++ b)). pose proof Hb as [Ha Hb']%Forall_app. unfold len in *. rewrite length_app in *.
  split_and!; [apply crc32_whole; unfold len; done || lia..|rewrite <- length_app; apply crc32_whole; unfold len; rewrite ?length_app; done || lia|].
  destruct b as [|b0 b]; [by rewrite app_nil_r|]. rewrite combine_ok; [|by apply crc32_spec_range|cbn [length] in *; lia]. f_equal. rewrite Nat2Z.id, <- bits_of_length.
  unfold crc32_spec at 3. rewrite bits_of_app, crc_register_app. set (r := crc_register _ (bits_of a)). change (Z.lxor 0 0xffffffff) with 0xffffffff in *.
  replace r with (Z.lxor (crc32_spec 0 a) 0xffffffff) by (unfold crc32_spec; by rewrite Z.lxor_assoc, Z.lxor_nilpotent, Z.lxor_0_r).
  by rewrite crc_register_lxor, Z.lxor_assoc.
Qed.

