(* ===== verification/Crc16.v ===== *)
(** * CRC-16 of CCITT (third_party/ulib/cksum/crc16.c)

    The checksum of the polynomial X^16 + X^12 + X^5 + 1, computed a byte at a time
    without a table. *)

From S2P Require Import Prelude Crc32.

Definition CRC16_INIT_VALUE : Z := 0xffff.

(** The body of the loop, for the byte [b]; [crc16_mix] is what follows after the bytes of the register are swapped
    and [b] is added. *)
Definition crc16_mix (crc : Z) : Z :=
  let crc := u16 (Z.lxor crc (Z.shiftr (u8 (Z.land crc 0xff)) 4)) in
  let crc := u16 (Z.lxor crc (Z.shiftl (Z.shiftl crc 8) 4)) in
  u16 (Z.lxor crc (Z.shiftl (Z.shiftl (Z.land crc 0xff) 4) 1)).

Definition crc16_byte (crc b : Z) : Z :=
  let crc := u16 (Z.lor (u8 (Z.shiftr crc 8)) (Z.shiftl crc 8)) in
  let crc := u16 (Z.lxor crc b) in
  crc16_mix crc.

(** The index [i] has 32 bits. *)
Fixpoint crc16_loop (fuel : nat) (buf : list Z) (length i crc : Z) : outcome Z :=
  match fuel with
  | O => Diverges
  | S fuel =>
    if i <? length then
      b ← array_get buf i;
      crc16_loop fuel buf length (u32 (i + 1)) (crc16_byte crc b)
    else Returns crc
  end.

Definition update_crc16 (crc : Z) (buf : list Z) (length : Z) : outcome Z := crc16_loop (S (Z.to_nat length)) buf length 0 crc.

Definition crc16 (buf : list Z) (length : Z) : outcome Z := update_crc16 CRC16_INIT_VALUE buf length.

(** ** The shift register, one bit at a time *)

Definition ccitt_shift (c : Z) : Z := u16 (Z.lxor (Z.shiftl c 1) (if Z.testbit c 15 then 0x1021 else 0)).
Definition ccitt_shifts (c : Z) : Z := Nat.iter 8 ccitt_shift c.
Definition ccitt_byte (c b : Z) : Z := ccitt_shifts (Z.lxor c (Z.shiftl b 8)).
Definition crc16_spec (c : Z) (bytes : list Z) : Z := foldl ccitt_byte c bytes.

Abbreviation word16 c := (0 ≤ c < 2 ^ 16).

Lemma testbit_u16 x i : 0 ≤ i → Z.testbit (u16 x) i = (i <? 16) && Z.testbit x i.
Proof.
  intros Hi. unfold u16. destruct (Z.ltb_spec i 16); [by rewrite Z.mod_pow2_bits_low by lia|by rewrite Z.mod_pow2_bits_high by lia].
Qed.

Lemma u16_lxor a b : u16 (Z.lxor a b) = Z.lxor (u16 a) (u16 b).
Proof. apply Z.bits_inj'. intros i Hi. rewrite Z.lxor_spec, !testbit_u16, Z.lxor_spec by lia. btauto. Qed.

Lemma ccitt_shift_linear a b : ccitt_shift (Z.lxor a b) = Z.lxor (ccitt_shift a) (ccitt_shift b).
Proof.
  unfold ccitt_shift. rewrite <- u16_lxor, Z.shiftl_lxor, Z.lxor_spec. f_equal. apply Z.bits_inj'. intros i Hi. rewrite !Z.lxor_spec.
  destruct (Z.testbit a 15), (Z.testbit b 15); cbn [xorb]; rewrite ?Z.bits_0; btauto.
Qed.

Lemma ccitt_shifts_linear a b : ccitt_shifts (Z.lxor a b) = Z.lxor (ccitt_shifts a) (ccitt_shifts b).
Proof.
  unfold ccitt_shifts. generalize 8%nat; intros n; induction n as [|n IH]; [done|]. change (ccitt_shift (Nat.iter n ccitt_shift (Z.lxor a b)) = Z.lxor (ccitt_shift (Nat.iter n ccitt_shift a)) (ccitt_shift (Nat.iter n ccitt_shift b))).
  by rewrite IH, ccitt_shift_linear.
Qed.

(** ** The byte step *)

Lemma mix_byte x : 0 ≤ x < 2 ^ 8 → crc16_mix x = ccitt_shifts (Z.shiftl x 8).
Proof. intros Hx. apply Z.eqb_eq. by apply (for_bytes (λ x, crc16_mix x =? ccitt_shifts (Z.shiftl x 8))). Qed.

Lemma ccitt_low l : 0 ≤ l < 2 ^ 8 → ccitt_shifts l = Z.shiftl l 8.
Proof. intros Hx. apply Z.eqb_eq. by apply (for_bytes (λ l, ccitt_shifts l =? Z.shiftl l 8)). Qed.

Lemma land_high h z : Z.land (Z.lxor (Z.shiftl h 8) z) 0xff = Z.land z 0xff.
Proof.
  change 0xff with (Z.ones 8). apply Z.bits_inj'. intros i Hi. rewrite !Z.land_spec, Z.lxor_spec, Z.testbit_ones_nonneg by lia. destruct (Z.ltb_spec i 8); [|by rewrite !andb_false_r].
  by rewrite Z.shiftl_spec_low by lia.
Qed.

(** Each step adds something that depends on the low half only. *)
Lemma fold_high (g : Z → Z) h z : 0 ≤ h < 2 ^ 8 → u16 (g (Z.lxor (Z.shiftl h 8) z)) = u16 (g z) →
  u16 (Z.lxor (Z.lxor (Z.shiftl h 8) z) (g (Z.lxor (Z.shiftl h 8) z))) = Z.lxor (Z.shiftl h 8) (u16 (Z.lxor z (g z))).
Proof.
  intros Hh Hg. rewrite !u16_lxor, Hg, Z.lxor_assoc. f_equal. apply u16_small. rewrite Z.shiftl_mul_pow2 by lia. lia.
Qed.

Lemma mix_high h x : 0 ≤ h < 2 ^ 8 → crc16_mix (Z.lxor (Z.shiftl h 8) x) = Z.lxor (Z.shiftl h 8) (crc16_mix x).
Proof.
  intros Hh. unfold crc16_mix. cbv zeta. pose proof (fold_high (λ c, Z.shiftr (u8 (Z.land c 0xff)) 4) h x Hh) as E1. cbn beta in E1. rewrite land_high in E1. rewrite land_high, E1 by done.
  set (y := u16 (Z.lxor x _)). pose proof (fold_high (λ c, Z.shiftl (Z.shiftl c 8) 4) h y Hh) as E2. cbn beta in E2. rewrite E2.
  - set (z := u16 (Z.lxor y _)). pose proof (fold_high (λ c, Z.shiftl (Z.shiftl (Z.land c 0xff) 4) 1) h z Hh) as E3. cbn beta in E3. rewrite land_high in E3. by rewrite land_high, E3.
  - apply Z.bits_inj'. intros i Hi. rewrite !testbit_u16, !Z.shiftl_shiftl by lia. destruct (Z.ltb_spec i 16); [cbn [andb]|done]. rewrite !Z.shiftl_spec, Z.lxor_spec by lia.
    destruct (Z.lt_ge_cases (i - (8 + 4)) 8); [|lia]. destruct (Z.lt_ge_cases (i - (8 + 4)) 0); [by rewrite !Z.testbit_neg_r by lia|]. by rewrite Z.shiftl_spec_low by lia.
Qed.

Lemma crc16_byte_ok c b : word16 c → 0 ≤ b < 2 ^ 8 → crc16_byte c b = ccitt_byte c b.
Proof.
  intros Hc Hb. set (h := Z.shiftr c 8). set (l := Z.land c 0xff). assert (0 ≤ h < 2 ^ 8) as Hh by (unfold h; rewrite Z.shiftr_div_pow2 by lia; zlia).
  assert (0 ≤ l < 2 ^ 8) as Hl by (unfold l; change 0xff with (Z.ones 8); rewrite Z.land_ones by lia; apply Z.mod_pos_bound; lia).
  assert (0 ≤ Z.lxor h b < 2 ^ 8) as Hx by by apply lxor_range.
  assert (c = Z.lxor l (Z.shiftl h 8)) as Ec by apply split_low.
  assert (ccitt_byte c b = Z.lxor (Z.shiftl l 8) (ccitt_shifts (Z.shiftl (Z.lxor h b) 8))) as ->.
  { unfold ccitt_byte. rewrite Ec at 1. rewrite Z.lxor_assoc, <- Z.shiftl_lxor, ccitt_shifts_linear, (ccitt_low l Hl). reflexivity. }
  rewrite <- (mix_byte _ Hx), <- (mix_high l _ Hl). unfold crc16_byte. apply (f_equal crc16_mix). fold h.
  apply Z.bits_inj'. intros i Hi. rewrite testbit_u16, !Z.lxor_spec, testbit_u16, Z.lor_spec by lia. unfold u8. rewrite (Z.mod_small h) by lia.
  destruct (Z.lt_ge_cases i 8).
  - rewrite !(Z.shiftl_spec_low _ 8) by lia. destruct (Z.ltb_spec i 16); [|lia]. cbn [andb]. by rewrite orb_false_r, xorb_false_l.
  - rewrite (testbit_high 8 h), (testbit_high 8 b), !Z.shiftl_spec by lia. unfold l. rewrite Z.land_spec. change 0xff with (Z.ones 8). rewrite Z.testbit_ones_nonneg by lia.
    destruct (Z.ltb_spec i 16), (Z.ltb_spec (i - 8) 8); try lia; cbn [andb orb]; by rewrite ?andb_true_r, ?andb_false_r, ?xorb_false_r.
Qed.

Lemma ccitt_byte_range c b : word16 (ccitt_byte c b).
Proof. apply u16_range. Qed.

Lemma crc16_loop_ok fuel buf n i c : Forall (λ b, 0 ≤ b < 2 ^ 8) buf → word16 c → 0 ≤ i ≤ n → n < 2 ^ 32 → n ≤ Z.of_nat (length buf) → (Z.to_nat (n - i) < fuel)%nat →
  crc16_loop fuel buf n i c = Returns (crc16_spec c (take (Z.to_nat (n - i)) (drop (Z.to_nat i) buf))).
Proof.
  intros Hb. revert i c. induction fuel as [|fuel IH]; intros i c Hc Hi Hn Hl Hf; [lia|]. cbn [crc16_loop]. destruct (Z.ltb_spec i n).
  2: { by replace (Z.to_nat (n - i)) with 0%nat by lia. }
  destruct (lookup_lt_is_Some_2 buf (Z.to_nat i)) as [b Hi']; [lia|]. rewrite (proj2 (array_get_returns buf i b)) by (split; [lia|done]). cbn [mbind outcome_bind]. unwrap.
  rewrite crc16_byte_ok by (done || by eapply (proj1 (Forall_lookup _ _) Hb)). rewrite IH by (lia || apply ccitt_byte_range). rewrite (drop_S _ _ _ Hi').
  replace (Z.to_nat (n - i)) with (S (Z.to_nat (n - (i + 1)))) by lia. by replace (Z.to_nat (i + 1)) with (S (Z.to_nat i)) by lia.
Qed.

(** The index never reaches a length that does not fit 32 bits. *)
Lemma crc16_loop_long fuel buf n i c r : 2 ^ 32 ≤ n → 0 ≤ i < 2 ^ 32 → crc16_loop fuel buf n i c ≠ Returns r.
Proof.
  intros Hn. revert i c. induction fuel as [|fuel IH]; intros i c Hi; [done|]. cbn [crc16_loop]. ztest. destruct (array_get buf i); [|done..]. apply IH, u32_range.
Qed.

(** update_crc16 and crc16 give the contents of the shift register of the polynomial X^16 + X^12 + X^5 + 1 that is
    fed bit by bit, for buffers shorter than 2^32 bytes, and never return for longer ones. *)
Theorem crc16_exact c buf n : Forall (λ b, 0 ≤ b < 2 ^ 8) buf → word16 c → 0 ≤ n ≤ Z.of_nat (length buf) →
  if n <? 2 ^ 32 then update_crc16 c buf n = Returns (crc16_spec c (take (Z.to_nat n) buf)) ∧ crc16 buf n = Returns (crc16_spec 0xffff (take (Z.to_nat n) buf))
  else ∀ r, update_crc16 c buf n ≠ Returns r.
Proof.
  intros Hb Hc Hn. destruct (Z.ltb_spec n (2 ^ 32)).
  - unfold crc16, update_crc16, CRC16_INIT_VALUE. rewrite !crc16_loop_ok, Z.sub_0_r by (done || lia). done.
  - intros r. by apply crc16_loop_long.
Qed.

