(* ===== verification/Adler32.v ===== *)
(** * Adler-32 (third_party/ulib/cksum/adler32.c)

    Two running sums modulo the largest prime below 2^16, with the remainders taken only every
    [NMAX] bytes; and the checksum of two buffers from those of the parts. *)

From S2P Require Import Prelude.

Definition BASE : Z := 65521.
Definition NMAX : Z := 5552.

(** The sums [adler] and [sum2]. *)
Definition sums : Type := Z * Z.

Definition adler_DO1 (buf : list Z) (i : Z) (s : sums) : outcome sums :=
  let '(adler, sum2) := s in
  b ← array_get buf i;
  let adler := u32 (adler + b) in
  Returns (adler, u32 (sum2 + adler)).

Definition adler_DO2 buf i s := s ← adler_DO1 buf i s; adler_DO1 buf (i + 1) s.
Definition adler_DO4 buf i s := s ← adler_DO2 buf i s; adler_DO2 buf (i + 2) s.
Definition adler_DO8 buf i s := s ← adler_DO4 buf i s; adler_DO4 buf (i + 4) s.
Definition adler_DO16 buf i s := s ← adler_DO8 buf i s; adler_DO8 buf (i + 8) s.

(** The loop over [n] groups of 16 bytes, [do ... while (--n)]; gives the sums and the position. *)
Fixpoint adler_groups (fuel : nat) (buf : list Z) (n pos : Z) (s : sums) : outcome (sums * Z) :=
  match fuel with
  | O => Diverges
  | S fuel =>
    s ← adler_DO16 buf pos s;
    let pos := pos + 16 in
    let n := u32 (n - 1) in
    if negb (n =? 0) then adler_groups fuel buf n pos s else Returns (s, pos)
  end.

Definition MOD (a : Z) : Z := a mod BASE.

Fixpoint adler_chunks (fuel : nat) (buf : list Z) (len pos : Z) (s : sums) : outcome (Z * Z * sums) :=
  match fuel with
  | O => Diverges
  | S fuel =>
    if NMAX <=? len then
      let len := len ⊟ NMAX in
      p ← adler_groups 348 buf (NMAX / 16) pos s;
      let '((adler, sum2), pos) := (p : sums * Z) in
      adler_chunks fuel buf len pos (MOD adler, MOD sum2)
    else Returns (len, pos, s)
  end.

Fixpoint adler_by16 (fuel : nat) (buf : list Z) (len pos : Z) (s : sums) : outcome (Z * Z * sums) :=
  match fuel with
  | O => Diverges
  | S fuel =>
    if 16 <=? len then
      s ← adler_DO16 buf pos s;
      adler_by16 fuel buf (len ⊟ 16) (pos + 16) s
    else Returns (len, pos, s)
  end.

(** [while (len--)] *)
Fixpoint adler_by1 (fuel : nat) (buf : list Z) (len pos : Z) (s : sums) : outcome sums :=
  match fuel with
  | O => Diverges
  | S fuel =>
    if negb (len =? 0) then
      s ← adler_DO1 buf pos s;
      adler_by1 fuel buf (len ⊟ 1) (pos + 1) s
    else Returns s
  end.

Definition recombine (s : sums) : Z := Z.lor (fst s) (u32 (Z.shiftl (snd s) 16)).

Definition adler32 (adler : Z) (buf : option (list Z)) (len : Z) : outcome Z :=
  let sum2 := Z.land (Z.shiftr adler 16) 0xffff in
  let adler := Z.land adler 0xffff in
  if len =? 1 then
    match buf with
    | None => Aborts
    | Some buf =>
      b ← array_get buf 0;
      let adler := u32 (adler + b) in
      let adler := if BASE <=? adler then adler - BASE else adler in
      let sum2 := u32 (sum2 + adler) in
      let sum2 := if BASE <=? sum2 then sum2 - BASE else sum2 in
      Returns (recombine (adler, sum2))
    end
  else
    match buf with
    | None => Returns 1
    | Some buf =>
      if len <? 16 then
        s ← adler_by1 (S (Z.to_nat len)) buf len 0 (adler, sum2);
        let '(adler, sum2) := (s : sums) in
        let adler := if BASE <=? adler then adler - BASE else adler in
        Returns (recombine (adler, MOD sum2))
      else
        p ← adler_chunks (S (Z.to_nat len)) buf len 0 (adler, sum2);
        let '(len, pos, s) := (p : Z * Z * sums) in
        s ← (if negb (len =? 0) then
               p ← adler_by16 (S (Z.to_nat len)) buf len pos s;
               let '(len, pos, s) := (p : Z * Z * sums) in
               s ← adler_by1 (S (Z.to_nat len)) buf len pos s;
               Returns (MOD (fst s), MOD (snd s))
             else Returns s);
        Returns (recombine s)
    end.

Definition adler32_combine (adler1 adler2 len2 : Z) : Z :=
  let rem := len2 mod BASE in
  let sum1 := Z.land adler1 0xffff in
  let sum2 := MOD (u32 (rem * sum1)) in
  let sum1 := u32 (sum1 + (u32 (u32 (Z.land adler2 0xffff + BASE) - 1))) in
  let sum2 := u32 (sum2 + u32 (u32 (u32 (Z.land (Z.shiftr adler1 16) 0xffff + Z.land (Z.shiftr adler2 16) 0xffff) + BASE) - rem)) in
  let sum1 := if BASE <=? sum1 then sum1 - BASE else sum1 in
  let sum1 := if BASE <=? sum1 then sum1 - BASE else sum1 in
  let sum2 := if Z.shiftl BASE 1 <=? sum2 then sum2 - Z.shiftl BASE 1 else sum2 in
  let sum2 := if BASE <=? sum2 then sum2 - BASE else sum2 in
  recombine (sum1, sum2).

(** ** The definition *)

Definition adler_step (s : sums) (b : Z) : sums := let a := (fst s + b) mod BASE in (a, (snd s + a) mod BASE).
Definition adler_spec (s : sums) (bytes : list Z) : sums := foldl adler_step s bytes.

(** ** Sums without remainders *)

Definition raw_step (s : sums) (b : Z) : sums := (fst s + b, snd s + (fst s + b)).
Definition raw (s : sums) (bytes : list Z) : sums := foldl raw_step s bytes.

Abbreviation bytes_ok l := (Forall (λ b, 0 ≤ b < 2 ^ 8) l).

Lemma raw_app s l k : raw s (l ++ k) = raw (raw s l) k.
Proof. apply foldl_app. Qed.

Lemma raw_bound s l : bytes_ok l → let n := Z.of_nat (length l) in
  fst s ≤ fst (raw s l) ≤ fst s + 255 * n ∧ (0 ≤ fst s → snd s ≤ snd (raw s l) ∧ 2 * snd (raw s l) ≤ 2 * snd s + 2 * n * fst s + 255 * n * (n + 1)).
Proof.
  intros Hl. revert s. induction Hl as [|b l Hb _ IH]; intros s n; [subst n; cbn; lia|]. specialize (IH (raw_step s b)). cbv zeta in IH.
  change (raw s (b :: l)) with (raw (raw_step s b) l). subst n. cbn [length]. rewrite Nat2Z.inj_succ. set (n := Z.of_nat (length l)) in *. cbn [raw_step fst snd] in *.
  destruct IH as [IH1 IH2]. split; [lia|]. intros H0. destruct IH2 as [IH2 IH3]; [lia|]. split; [lia|]. assert (0 ≤ n) by (subst n; lia). nia.
Qed.

Lemma raw_mod s t l : fst s mod BASE = fst t mod BASE → snd s mod BASE = snd t mod BASE →
  fst (raw s l) mod BASE = fst (adler_spec t l) mod BASE ∧ snd (raw s l) mod BASE = snd (adler_spec t l) mod BASE.
Proof.
  revert s t. induction l as [|b l IH]; intros s t E1 E2; [done|]. apply (IH (raw_step s b) (adler_step t b)); unfold raw_step, adler_step; cbn [fst snd];
    rewrite Zmod_mod; [by rewrite Z.add_mod, E1, <- Z.add_mod by done|].
  rewrite Zplus_mod_idemp_r, Z.add_mod, E2, (Z.add_mod (fst s) b), E1, <- (Z.add_mod (fst t)), <- Z.add_mod by done. done.
Qed.

Lemma adler_spec_range s l : 0 ≤ fst s < BASE → 0 ≤ snd s < BASE → 0 ≤ fst (adler_spec s l) < BASE ∧ 0 ≤ snd (adler_spec s l) < BASE.
Proof.
  revert s. induction l as [|b l IH]; intros s H1 H2; [done|]. apply (IH (adler_step s b)); cbn; apply Z.mod_pos_bound; done.
Qed.

(** ** The loops *)

Section loops.
Context (buf : list Z) (Hbuf : bytes_ok buf).

Definition segment (pos n : Z) : list Z := take (Z.to_nat n) (drop (Z.to_nat pos) buf).

Lemma segment_add pos n m : 0 ≤ pos → 0 ≤ n → 0 ≤ m → segment pos (n + m) = segment pos n ++ segment (pos + n) m.
Proof. intros Hp Hn Hm. unfold segment. rewrite !Z2Nat.inj_add, <- drop_drop by lia. by rewrite take_take_drop. Qed.

Lemma segment_bytes pos n : bytes_ok (segment pos n).
Proof. by apply Forall_take, Forall_drop. Qed.

Lemma segment_length pos n : 0 ≤ pos → 0 ≤ n → pos + n ≤ Z.of_nat (length buf) → Z.of_nat (length (segment pos n)) = n.
Proof. intros. unfold segment. rewrite length_take, length_drop. lia. Qed.

Definition small (s : sums) : Prop := 0 ≤ fst s < 2 ^ 32 ∧ 0 ≤ snd s < 2 ^ 32.

(** [m] adds [n] bytes from [pos], as long as the sums fit 32 bits. *)
Definition adds (m : sums → outcome sums) (pos n : Z) : Prop :=
  ∀ s, 0 ≤ fst s → 0 ≤ snd s → small (raw s (segment pos n)) → m s = Returns (raw s (segment pos n)).

Lemma adds_DO1 pos : 0 ≤ pos < Z.of_nat (length buf) → adds (adler_DO1 buf pos) pos 1.
Proof.
  intros Hp [a c] Ha Hc Hs. destruct (lookup_lt_is_Some_2 buf (Z.to_nat pos)) as [b Hb]; [lia|]. assert (segment pos 1 = [b]) as E by (unfold segment; by rewrite (drop_S _ _ _ Hb)).
  rewrite E in *. cbn [raw foldl raw_step fst snd] in *. destruct Hs as [Hs1 Hs2]. unfold adler_DO1. rewrite (proj2 (array_get_returns buf pos b)) by (split; [lia|done]).
  unfold raw_step in *. cbn [mbind outcome_bind fst snd] in *. by unwrap.
Qed.

Lemma adds_seq m1 m2 pos n k : 0 ≤ pos → 0 ≤ n → 0 ≤ k → adds m1 pos n → adds m2 (pos + n) k → adds (λ s, s ← m1 s; m2 s) pos (n + k).
Proof.
  intros Hp Hn Hk H1 H2 s Ha Hc. rewrite segment_add, raw_app by lia. intros Hs. pose proof (raw_bound s _ (segment_bytes pos n)) as [B1 B2]. specialize (B2 Ha).
  set (s' := raw s _) in *. pose proof (raw_bound s' _ (segment_bytes (pos + n) k)) as [B3 B4]. specialize (B4 ltac:(lia)). destruct Hs as [[? ?] [? ?]].
  rewrite H1; [|done|done|fold s'; unfold small; lia]. fold s'. cbn [mbind outcome_bind]. apply H2; [lia|lia|]. unfold small. lia.
Qed.

Lemma adds_DO16 pos : 0 ≤ pos → pos + 16 ≤ Z.of_nat (length buf) → adds (adler_DO16 buf pos) pos 16.
Proof.
  assert (∀ p, 0 ≤ p → p + 2 ≤ Z.of_nat (length buf) → adds (adler_DO2 buf p) p 2) as H2 by (intros; apply (adds_seq _ _ _ 1 1); try apply adds_DO1; lia).
  assert (∀ p, 0 ≤ p → p + 4 ≤ Z.of_nat (length buf) → adds (adler_DO4 buf p) p 4) as H4 by (intros; apply (adds_seq _ _ _ 2 2); try apply H2; lia).
  assert (∀ p, 0 ≤ p → p + 8 ≤ Z.of_nat (length buf) → adds (adler_DO8 buf p) p 8) as H8 by (intros; apply (adds_seq _ _ _ 4 4); try apply H4; lia).
  intros. apply (adds_seq _ _ _ 8 8); try apply H8; lia.
Qed.

(** Sums that start below [BASE] fit for [NMAX] bytes. *)
Lemma raw_small s pos n : 0 ≤ fst s < BASE → 0 ≤ snd s < BASE → 0 ≤ pos → 0 ≤ n ≤ NMAX → pos + n ≤ Z.of_nat (length buf) → small (raw s (segment pos n)).
Proof.
  intros Ha Hc Hp Hn Hl. pose proof (raw_bound s _ (segment_bytes pos n)) as [B1 B2]. rewrite segment_length in * by lia. specialize (B2 ltac:(lia)). unfold small, BASE, NMAX in *. split; nia.
Qed.

Lemma groups_ok fuel n pos : 0 < n < 2 ^ 28 → 0 ≤ pos → pos + 16 * n ≤ Z.of_nat (length buf) → (Z.to_nat n < fuel)%nat →
  ∀ s, 0 ≤ fst s → 0 ≤ snd s → small (raw s (segment pos (16 * n))) → adler_groups fuel buf n pos s = Returns (raw s (segment pos (16 * n)), pos + 16 * n).
Proof.
  revert n pos. induction fuel as [|fuel IH]; intros n pos Hn Hp Hl Hf s Ha Hc Hs; [lia|]. cbn [adler_groups].
  replace (16 * n) with (16 + 16 * (n - 1)) in * by lia. rewrite segment_add, raw_app in Hs |- * by lia.
  pose proof (raw_bound s _ (segment_bytes pos 16)) as [B1 B2]. specialize (B2 Ha). set (s' := raw s (segment pos 16)) in *.
  pose proof (raw_bound s' _ (segment_bytes (pos + 16) (16 * (n - 1)))) as [B3 B4]. specialize (B4 ltac:(lia)). pose proof Hs as [[? ?] [? ?]].
  rewrite (adds_DO16 pos) by (lia || (fold s'; unfold small; lia)). fold s'. cbn [mbind outcome_bind]. unwrap. destruct (Z.eqb_spec (n - 1) 0) as [E|E]; cbn [negb].
  - by rewrite E.
  - rewrite IH by (done || lia). by replace (pos + 16 + 16 * (n - 1)) with (pos + (16 + 16 * (n - 1))) by lia.
Qed.

Lemma by1_sums fuel len pos : 0 ≤ len < 2 ^ 64 → 0 ≤ pos → pos + len ≤ Z.of_nat (length buf) → (Z.to_nat len < fuel)%nat →
  adds (adler_by1 fuel buf len pos) pos len.
Proof.
  revert len pos. induction fuel as [|fuel IH]; intros len pos Hn Hp Hl Hf s Ha Hc Hs; [lia|]. cbn [adler_by1]. destruct (Z.eqb_spec len 0) as [->|E]; cbn [negb]; [done|].
  unwrap. replace len with (1 + (len - 1)) in Hs |- * by lia. replace (1 + (len - 1) - 1) with (len - 1) by lia.
  apply (adds_seq (adler_DO1 buf pos) (adler_by1 fuel buf (len - 1) (pos + 1))); [lia..|apply adds_DO1; lia|apply IH; lia|done|done|done].
Qed.

Lemma by16_sums fuel len pos s : 0 ≤ len < 2 ^ 64 → 0 ≤ pos → pos + len ≤ Z.of_nat (length buf) → (Z.to_nat len < fuel)%nat →
  0 ≤ fst s → 0 ≤ snd s → let n := len - len mod 16 in small (raw s (segment pos n)) →
  adler_by16 fuel buf len pos s = Returns (len mod 16, pos + n, raw s (segment pos n)).
Proof.
  revert len pos s. induction fuel as [|fuel IH]; intros len pos s Hn Hp Hl Hf Ha Hc n Hs; [lia|]. cbn [adler_by16]. destruct (Z.leb_spec 16 len).
  2: { subst n. rewrite Z.mod_small, Z.sub_diag, Z.add_0_r by lia. done. }
  unwrap. assert (n = 16 + (len - 16 - (len - 16) mod 16)) as En by (subst n; zlia). clearbody n. subst n. set (k := len - 16 - (len - 16) mod 16) in *. assert (0 ≤ k ≤ len - 16) by (subst k; zlia).
  rewrite segment_add, raw_app in Hs |- * by lia. pose proof (raw_bound s _ (segment_bytes pos 16)) as [B1 B2]. specialize (B2 Ha). set (s' := raw s (segment pos 16)) in *.
  pose proof (raw_bound s' _ (segment_bytes (pos + 16) k)) as [B3 B4]. specialize (B4 ltac:(lia)). pose proof Hs as [[? ?] [? ?]].
  rewrite (adds_DO16 pos) by (lia || (fold s'; unfold small; lia)). fold s'. cbn [mbind outcome_bind]. rewrite IH by (done || lia). fold k.
  replace (len mod 16) with ((len - 16) mod 16) by zlia. by replace (pos + 16 + k) with (pos + (16 + k)) by lia.
Qed.

Lemma MOD_raw s l : 0 ≤ fst s < BASE → 0 ≤ snd s < BASE → (MOD (fst (raw s l)), MOD (snd (raw s l))) = adler_spec s l.
Proof.
  intros H1 H2. destruct (raw_mod s s l eq_refl eq_refl) as [E1 E2]. destruct (adler_spec_range s l H1 H2) as [R1 R2]. unfold MOD. rewrite E1, E2, !Z.mod_small by lia. by destruct (adler_spec s l).
Qed.

Lemma chunks_ok fuel len pos s : 0 ≤ len < 2 ^ 64 → 0 ≤ pos → pos + len ≤ Z.of_nat (length buf) → (Z.to_nat len < fuel)%nat → 0 ≤ fst s < BASE → 0 ≤ snd s < BASE →
  let n := len - len mod NMAX in adler_chunks fuel buf len pos s = Returns (len mod NMAX, pos + n, adler_spec s (segment pos n)).
Proof.
  revert len pos s. induction fuel as [|fuel IH]; intros len pos s Hn Hp Hl Hf Ha Hc n; [lia|]. cbn [adler_chunks]. destruct (Z.leb_spec NMAX len) as [Hge|Hlt].
  2: { subst n. rewrite Z.mod_small, Z.sub_diag, Z.add_0_r by lia. done. }
  pose proof (raw_small s pos NMAX Ha Hc Hp ltac:(unfold NMAX; lia) ltac:(lia)) as Hs. change NMAX with (16 * (NMAX / 16)) in Hs at 1.
  rewrite (groups_ok 348 (NMAX / 16) pos); [|split; reflexivity|done|change (16 * (NMAX / 16)) with NMAX; lia|vm_compute; lia|lia|lia|exact Hs]. cbn [mbind outcome_bind].
  change (16 * (NMAX / 16)) with NMAX. rewrite (surjective_pairing (raw s _)), MOD_raw by done. destruct (adler_spec_range s (segment pos NMAX) Ha Hc) as [R1 R2]. rewrite (u64_small (len - NMAX)) by (unfold NMAX in *; lia).
  rewrite IH by (done || (unfold NMAX in *; lia)). cbv zeta. assert (n = NMAX + (len - NMAX - (len - NMAX) mod NMAX)) as En by (subst n; unfold NMAX; zlia). clearbody n. subst n.
  set (k := len - NMAX - _) in *. assert (0 ≤ k) by (subst k; unfold NMAX in *; zlia). rewrite (segment_add pos NMAX k) by (unfold NMAX; lia). unfold adler_spec. rewrite foldl_app.
  replace (len mod NMAX) with ((len - NMAX) mod NMAX) by (unfold NMAX; zlia). by rewrite Z.add_assoc.
Qed.

End loops.

(** ** The checksum *)

Lemma recombine_add s : 0 ≤ fst s < 2 ^ 16 → 0 ≤ snd s < 2 ^ 16 → recombine s = fst s + 65536 * snd s.
Proof.
  intros H1 H2. unfold recombine. rewrite Z.shiftl_mul_pow2 by lia. unwrap. rewrite <- Z.lxor_lor, <- Z.add_nocarry_lxor; [lia|..];
    (apply Z.bits_inj'; intros i Hi; rewrite Z.land_spec, Z.bits_0; rewrite <- Z.shiftl_mul_pow2 by lia; destruct (Z.lt_ge_cases i 16);
     [by rewrite Z.shiftl_spec_low, andb_false_r by lia|by rewrite (testbit_high 16) by lia]).
Qed.

Lemma low_half s : 0 ≤ fst s < 2 ^ 16 → 0 ≤ snd s < 2 ^ 16 → Z.land (recombine s) 0xffff = fst s.
Proof. intros H1 H2. rewrite recombine_add by done. change 0xffff with (Z.ones 16). rewrite Z.land_ones by lia. zlia. Qed.

Lemma high_half s : 0 ≤ fst s < 2 ^ 16 → 0 ≤ snd s < 2 ^ 16 → Z.land (Z.shiftr (recombine s) 16) 0xffff = snd s.
Proof. intros H1 H2. rewrite recombine_add by done. change 0xffff with (Z.ones 16). rewrite Z.land_ones, Z.shiftr_div_pow2 by lia. zlia. Qed.

Lemma below_base x y : 0 ≤ x < 2 * BASE → x mod BASE = y → (if BASE <=? x then x - BASE else x) = y.
Proof. intros Hx <-. destruct (Z.leb_spec BASE x); [|by rewrite Z.mod_small by lia]. rewrite <- (Z.mod_small (x - BASE) BASE) by lia. rewrite <- (Z_mod_plus_full _ 1). f_equal. lia. Qed.

Section adler32.
Context (buf : list Z) (Hbuf : bytes_ok buf).

(** The last bytes, fewer than [NMAX], with the remainders at the end. *)
Lemma last_bytes s len pos : 0 ≤ fst s < BASE → 0 ≤ snd s < BASE → 0 ≤ len < NMAX → 0 ≤ pos → pos + len ≤ Z.of_nat (length buf) →
  (p ← adler_by16 (S (Z.to_nat len)) buf len pos s;
   let '(len, pos, s) := (p : Z * Z * sums) in
   s ← adler_by1 (S (Z.to_nat len)) buf len pos s;
   Returns (MOD (fst s), MOD (snd s))) = Returns (adler_spec s (segment buf pos len)).
Proof.
  intros H1 H2 Hlen Hp Hl. unfold NMAX in Hlen. pose proof (raw_small buf Hbuf s pos len H1 H2 Hp ltac:(unfold NMAX; lia) Hl) as Hs. set (n := len - len mod 16).
  assert (0 ≤ n ∧ 0 ≤ len mod 16 ∧ len = n + len mod 16) as (Hn & Hm & E) by (subst n; zlia). assert (segment buf pos len = segment buf pos n ++ segment buf (pos + n) (len mod 16)) as Es by (rewrite E at 1; by apply segment_add).
  rewrite Es, raw_app in Hs. pose proof (raw_bound s _ (segment_bytes buf Hbuf pos n)) as [B1 B2]. specialize (B2 ltac:(lia)). set (s' := raw s (segment buf pos n)) in *.
  pose proof (raw_bound s' _ (segment_bytes buf Hbuf (pos + n) (len mod 16))) as [B3 B4]. specialize (B4 ltac:(lia)). pose proof Hs as [[? ?] [? ?]].
  rewrite by16_sums by (lia || (fold n s'; unfold small; lia) || done). fold n s'. cbn [mbind outcome_bind].
  rewrite (by1_sums buf Hbuf (S (Z.to_nat (len mod 16))) (len mod 16) (pos + n)) by (done || lia). cbn [mbind outcome_bind]. subst s'. rewrite <- raw_app, <- Es. f_equal. by apply MOD_raw.
Qed.

Lemma adler32_ok s len : 0 ≤ fst s < BASE → 0 ≤ snd s < BASE → 0 ≤ len < 2 ^ 64 → len ≤ Z.of_nat (length buf) →
  adler32 (recombine s) (Some buf) len = Returns (recombine (adler_spec s (segment buf 0 len))).
Proof.
  intros H1 H2 Hlen Hl. unfold adler32. rewrite low_half, high_half by (unfold BASE in *; lia). rewrite <- surjective_pairing. destruct (Z.eqb_spec len 1) as [->|Hne].
  { destruct buf as [|b l] eqn:Eb; [cbn in Hl; lia|]. apply Forall_cons in Hbuf as [Hb _]. change (array_get (b :: l) 0) with (Returns b). cbn [mbind outcome_bind]. f_equal.
    change (segment (b :: l) 0 1) with [b]. cbn [adler_spec foldl]. unfold adler_step. set (a := (fst s + b) mod BASE). assert (0 ≤ a < BASE) by (apply Z.mod_pos_bound; done).
    rewrite (u32_small (fst s + b)), (below_base (fst s + b) a) by (done || (unfold BASE in *; lia)). f_equal. f_equal.
    rewrite u32_small by (unfold BASE in *; lia). apply below_base; [lia|done]. }
  destruct (Z.ltb_spec len 16).
  - pose proof (raw_small buf Hbuf s 0 len H1 H2 ltac:(lia) ltac:(unfold NMAX; lia) ltac:(lia)) as Hs. rewrite (by1_sums buf Hbuf (S (Z.to_nat len)) len 0) by (done || lia). cbn [mbind outcome_bind].
    pose proof (raw_bound s _ (segment_bytes buf Hbuf 0 len)) as [B1 _]. rewrite segment_length in B1 by lia. rewrite (surjective_pairing (raw s _)). do 2 f_equal. rewrite <- (MOD_raw s (segment buf 0 len)) by done. f_equal.
    apply below_base; [unfold BASE in *; lia|done].
  - rewrite chunks_ok by (done || lia). cbn [mbind outcome_bind]. set (n := len - len mod NMAX). rewrite Z.add_0_l.
    assert (0 ≤ n ∧ 0 ≤ len mod NMAX < NMAX ∧ len = n + len mod NMAX) as (Hn & Hm & E) by (subst n; unfold NMAX; zlia).
    destruct (adler_spec_range s (segment buf 0 n) H1 H2) as [R1 R2]. assert (adler_spec s (segment buf 0 len) = adler_spec (adler_spec s (segment buf 0 n)) (segment buf n (len mod NMAX))) as ->.
    { rewrite E at 1. rewrite segment_add, Z.add_0_l by lia. apply foldl_app. }
    destruct (Z.eqb_spec (len mod NMAX) 0) as [E0|E0]; cbn [negb].
    + by rewrite E0.
    + by rewrite last_bytes by (done || lia).
Qed.

End adler32.

(** ** Combination *)

Lemma raw_shift s d e l : raw (fst s + d, snd s + e) l = (fst (raw s l) + d, snd (raw s l) + Z.of_nat (length l) * d + e).
Proof.
  revert s e. induction l as [|b l IH]; intros [a c] e; [cbn; f_equal; lia|]. change (raw ?s (b :: l)) with (raw (raw_step s b) l). unfold raw_step at 1. cbn [fst snd length].
  rewrite Nat2Z.inj_succ. specialize (IH (raw_step (a, c) b) (e + d)). unfold raw_step at 1 2 in IH. cbn [fst snd] in IH.
  replace (a + d + b) with (a + b + d) by lia. replace (c + e + (a + b + d)) with (c + (a + b) + (e + d)) by lia. rewrite IH. f_equal. lia.
Qed.

(** The sums of the second part, from those that it has on its own. *)
Lemma adler_spec_shift s l : 0 ≤ fst s < BASE → 0 ≤ snd s < BASE → let t := adler_spec (1, 0) l in
  adler_spec s l = ((fst t + fst s - 1) mod BASE, (snd t + Z.of_nat (length l) * (fst s - 1) + snd s) mod BASE).
Proof.
  intros H1 H2 t. rewrite <- (MOD_raw s l) by done. unfold MOD. replace s with (1 + (fst s - 1), 0 + snd s) at 1 2 by (destruct s; cbn [fst snd]; f_equal; lia).
  pose proof (raw_shift (1, 0) (fst s - 1) (snd s) l) as E. cbn [fst snd] in E. rewrite E. cbn [fst snd]. destruct (raw_mod (1, 0) (1, 0) l eq_refl eq_refl) as [E1 E2]. fold t in E1, E2. f_equal.
  - rewrite Z.add_mod, E1, <- Z.add_mod by done. f_equal. lia.
  - rewrite <- Z.add_assoc, Z.add_mod, E2, <- Z.add_mod by done. f_equal. lia.
Qed.

Lemma below_2base x y : 0 ≤ x < 4 * BASE → x mod BASE = y → (let x := if Z.shiftl BASE 1 <=? x then x - Z.shiftl BASE 1 else x in if BASE <=? x then x - BASE else x) = y.
Proof.
  intros Hx <-. change (Z.shiftl BASE 1) with (2 * BASE). cbv zeta. apply below_base; [destruct (Z.leb_spec (2 * BASE) x); lia|]. destruct (Z.leb_spec (2 * BASE) x); [|done].
  rewrite <- (Z_mod_plus_full (x - 2 * BASE) 2). f_equal. lia.
Qed.

Lemma combine_spec s1 s2 len2 : 0 ≤ fst s1 < BASE → 0 ≤ snd s1 < BASE → 0 ≤ fst s2 < BASE → 0 ≤ snd s2 < BASE → 0 ≤ len2 →
  adler32_combine (recombine s1) (recombine s2) len2 = recombine ((fst s2 + fst s1 - 1) mod BASE, (snd s2 + len2 * (fst s1 - 1) + snd s1) mod BASE).
Proof.
  intros A1 B1 A2 B2 Hl. unfold adler32_combine. rewrite !low_half, !high_half by (unfold BASE in *; lia). set (rem := len2 mod BASE). assert (0 ≤ rem < BASE) as Hrem by (apply Z.mod_pos_bound; done).
  assert (0 ≤ rem * fst s1 < 2 ^ 32) as Hp by (unfold BASE in *; nia). rewrite (u32_small (rem * fst s1)) by done. unfold MOD. set (m := (rem * fst s1) mod BASE). assert (0 ≤ m < BASE) as Hm by (apply Z.mod_pos_bound; done).
  rewrite (u32_small (fst s2 + BASE)), (u32_small (fst s2 + BASE - 1)), (u32_small (fst s1 + _)), (u32_small (snd s1 + snd s2)), (u32_small (snd s1 + snd s2 + BASE)), (u32_small (_ - rem)), (u32_small (m + _)) by (unfold BASE in *; lia).
  f_equal. f_equal.
  - set (x := fst s1 + _). apply below_base; [destruct (Z.leb_spec BASE x); subst x; lia|]. replace (fst s2 + fst s1 - 1) with (x - BASE) by (subst x; lia).
    destruct (Z.leb_spec BASE x); [done|]. rewrite <- (Z_mod_plus_full (x - BASE) 1). f_equal. lia.
  - apply below_2base; [lia|]. rewrite <- (Z_mod_plus_full (snd s2 + _ + _) (1 - rem * fst s1 / BASE - len2 / BASE * fst s1 + len2 / BASE)). f_equal.
    subst m. rewrite (Z.mod_eq (rem * fst s1)) by done. assert (rem = len2 - BASE * (len2 / BASE)) as E by by apply Z.mod_eq. nia.
Qed.

Definition len (bytes : list Z) : Z := Z.of_nat (length bytes).

Lemma adler32_whole s buf : bytes_ok buf → len buf < 2 ^ 64 → 0 ≤ fst s < BASE → 0 ≤ snd s < BASE → adler32 (recombine s) (Some buf) (len buf) = Returns (recombine (adler_spec s buf)).
Proof.
  intros Hb Hl H1 H2. unfold len in *. rewrite adler32_ok by (done || lia). unfold segment. by rewrite Nat2Z.id, drop_0, firstn_all.
Qed.

(** C36. adler32, which takes remainders only every [NMAX] bytes, computes the two sums modulo [BASE] of its
    definition: no sum exceeds 32 bits in between. adler32_combine gives the checksum of two buffers, one after the other. *)
Theorem adler32_exact s a b :
  bytes_ok (a ++ b) → len (a ++ b) < 2 ^ 64 → 0 ≤ fst s < BASE → 0 ≤ snd s < BASE →
  adler32 (recombine s) (Some (a ++ b)) (len (a ++ b)) = Returns (recombine (adler_spec s (a ++ b))) ∧
  ∃ ca cb, adler32 1 (Some a) (len a) = Returns ca ∧ adler32 1 (Some b) (len b) = Returns cb ∧
    adler32 1 (Some (a ++ b)) (len (a ++ b)) = Returns (adler32_combine ca cb (len b)).
Proof.
  intros Hb Hl H1 H2. split; [by apply adler32_whole|]. pose proof Hb as [Ha Hb']%Forall_app. pose proof Hl as Hl'. unfold len in Hl'. rewrite length_app in Hl'. change 1 with (recombine (1, 0)).
  destruct (adler_spec_range (1, 0) a) as [A1 A2]; [done..|]. destruct (adler_spec_range (1, 0) b) as [B1 B2]; [done..|].
  exists (recombine (adler_spec (1, 0) a)), (recombine (adler_spec (1, 0) b)). split_and!; [apply adler32_whole; done || unfold len; lia..|]. rewrite adler32_whole by done.
  rewrite combine_spec by (done || unfold len; lia). unfold adler_spec at 1. rewrite foldl_app. f_equal. f_equal. by apply adler_spec_shift.
Qed.

Lemma adler32_exact_witness : ∃ ca cb, adler32 1 (Some [87; 105; 107; 105]) 4 = Returns ca ∧ adler32 1 (Some [112; 101; 100; 105; 97]) 5 = Returns cb ∧
  Returns 0x11e60398 = Returns (adler32_combine ca cb 5).
Proof.
  destruct (adler32_exact (1, 0) [87; 105; 107; 105] [112; 101; 100; 105; 97]) as (_ & H).
  - repeat apply Forall_cons_2; lia || apply Forall_nil_2.
  - reflexivity.
  - split; reflexivity || discriminate.
  - split; reflexivity || discriminate.
  - exact H.
Defined.
