(* ===== verification/JournalChecksum.v ===== *)
(** * The checksum of journal entries

    The journal with the CRC-32 of [Crc32]: which changes of an entry on the device the replay
    detects. *)

From S2P Require Import Prelude RawBitmap MerkleTree Format Superblock Operations RingBuffer WriteTxn Journal JournalEntry Crc32.

(** ** Words as bytes *)

(** The bytes of a 64-bit word in memory, the lowest first. *)
Definition word_bytes (w : Z) : list Z := map (λ i, Z.land (Z.shiftr w (8 * Z.of_nat i)) 0xff) (seq 0 8).
Definition bytes_of (ws : list Z) : list Z := flat_map word_bytes ws.

(** The checksum that the journal computes over blocks, which are lists of words. *)
Definition crc32_words (c : Z) (ws : list Z) : Z := crc32_spec (u32 c) (bytes_of ws).

Lemma bytes_of_byte ws : Forall (λ b, 0 ≤ b < 2 ^ 8) (bytes_of ws).
Proof.
  apply Forall_forall. intros b (w & _ & (i & <- & _)%in_map_iff)%list_elem_of_In%in_flat_map. change 0xff with (Z.ones 8). rewrite Z.land_ones by lia. apply Z.mod_pos_bound. lia.
Qed.

Lemma bytes_of_app a b : bytes_of (a ++ b) = bytes_of a ++ bytes_of b.
Proof. apply flat_map_app. Qed.

Lemma bytes_of_length ws : length (bytes_of ws) = (8 * length ws)%nat.
Proof. induction ws as [|w ws IH]; [done|]. cbn [bytes_of flat_map]. rewrite length_app. change (length (word_bytes w)) with 8%nat. unfold bytes_of in IH. cbn [length]. lia. Qed.

(** [crc32] of the buffer that holds the words gives it. *)
Lemma crc32_words_code c ws : Z.of_nat (length ws) < 2 ^ 61 → crc32 (u32 c) (Some (bytes_of ws)) (len (bytes_of ws)) = Returns (crc32_words c ws).
Proof. intros Hl. apply crc32_whole; [apply u32_range|apply bytes_of_byte|]. unfold len. rewrite bytes_of_length. lia. Qed.

Lemma crc32_words_range c ws : 0 ≤ crc32_words c ws < 2 ^ 32.
Proof. apply crc32_spec_range, u32_range. Qed.

Lemma crc32_words_app c a b : crc32_words (crc32_words c a) b = crc32_words c (a ++ b).
Proof.
  unfold crc32_words at 1. rewrite u32_small by apply crc32_words_range. unfold crc32_words. by rewrite crc32_spec_app, bytes_of_app.
Qed.

(** ** The words of an entry *)

(** The blocks of an entry whose header is at [hi] and whose commit block is at [ci], without the commit block. *)
Definition in_entry (hi ci k : Z) : Prop := if ci <? hi then hi ≤ k ∨ k < ci else hi ≤ k < ci.

Definition entry_words (b : Buffer) (hi ci : Z) : list Z :=
  if ci <? hi then block_words b hi (b_capacity b - hi) ++ block_words b 0 ci else block_words b hi (ci - hi).

Lemma GenerateChecksum_words b hi ci : b_capacity b ≤ 2 ^ 40 → 0 ≤ hi < b_capacity b → 0 ≤ ci < b_capacity b → ci ≠ hi →
  GenerateChecksum crc32_words b hi ci = Returns (crc32_words 0 (entry_words b hi ci)).
Proof.
  intros Hcap Hh Hc Hne. unfold GenerateChecksum, entry_words. rewrite (proj2 (Z.eqb_neq _ _) Hne). cbn [negb ZX_DEBUG_ASSERT mbind outcome_bind].
  destruct (Z.ltb_spec ci hi); unwrap; unfold ZX_DEBUG_ASSERT, ZX_ASSERT; ztest; cbn [mbind outcome_bind]; [by rewrite crc32_words_app|done].
Qed.

(** A block of a range of blocks is replaced. *)
Lemma concat_insert {A} (l : list (list A)) j x y : l !! j = Some x →
  ∃ pre post, concat l = pre ++ x ++ post ∧ concat (<[j := y]> l) = pre ++ y ++ post.
Proof.
  intros Hx. exists (concat (take j l)), (concat (drop (S j) l)). pose proof (lookup_lt_Some _ _ _ Hx). split.
  - rewrite <- (take_drop_middle l j x Hx) at 1. by rewrite concat_app.
  - rewrite insert_take_drop by done. by rewrite concat_app.
Qed.

Lemma block_words_insert b k x y lo n : 0 ≤ lo → lo ≤ k < lo + n → b.(b_data) !! Z.to_nat k = Some x →
  ∃ pre post, block_words b lo n = pre ++ x ++ post ∧ block_words (with_data b (<[Z.to_nat k := y]> b.(b_data))) lo n = pre ++ y ++ post.
Proof.
  intros Hlo Hk Hx. unfold block_words. cbn [b_data with_data]. rewrite drop_insert_ge, take_insert_lt by lia. apply concat_insert.
  rewrite lookup_take_lt, lookup_drop by lia. by replace (Z.to_nat lo + (Z.to_nat k - Z.to_nat lo))%nat with (Z.to_nat k) by lia.
Qed.

Lemma block_words_other b k y lo n : 0 ≤ lo → 0 ≤ n → 0 ≤ k → (k < lo ∨ lo + n ≤ k) → block_words (with_data b (<[Z.to_nat k := y]> b.(b_data))) lo n = block_words b lo n.
Proof.
  intros Hlo Hn Hk Hout. unfold block_words. cbn [b_data with_data]. destruct Hout; [by rewrite drop_insert_lt by lia|]. rewrite drop_insert_ge by lia. by rewrite take_insert_ge by lia.
Qed.

Lemma entry_words_insert b k x y hi ci : 0 ≤ hi < b_capacity b → 0 ≤ ci < b_capacity b → 0 ≤ k < b_capacity b → in_entry hi ci k → b.(b_data) !! Z.to_nat k = Some x →
  ∃ pre post, entry_words b hi ci = pre ++ x ++ post ∧ entry_words (with_data b (<[Z.to_nat k := y]> b.(b_data))) hi ci = pre ++ y ++ post.
Proof.
  intros Hh Hc Hk Hin Hx. unfold entry_words, in_entry in *. assert (b_capacity (with_data b (<[Z.to_nat k:=y]> b.(b_data))) = b_capacity b) as -> by (unfold b_capacity; cbn; by rewrite length_insert).
  destruct (Z.ltb_spec ci hi).
  - destruct (Z_lt_le_dec k hi).
    + rewrite block_words_other by lia. destruct (block_words_insert b k x y 0 ci) as (pre & post & -> & ->); [lia|lia|done|]. exists (block_words b hi (b_capacity b - hi) ++ pre), post. by rewrite !app_assoc.
    + rewrite (block_words_other b k y 0) by lia. destruct (block_words_insert b k x y hi (b_capacity b - hi)) as (pre & post & -> & ->); [lia|lia|done|].
      exists pre, (post ++ block_words b 0 ci). by rewrite <- !app_assoc.
  - apply block_words_insert; [lia|lia|done].
Qed.

(** ** What the replay detects *)

Definition bits_of_words (ws : list Z) : list bool := bits_of (bytes_of ws).

Lemma bits_of_words_app a b : bits_of_words (a ++ b) = bits_of_words a ++ bits_of_words b.
Proof. unfold bits_of_words. by rewrite bytes_of_app, bits_of_app. Qed.

Lemma crc32_words_burst c pre x y post p q u v : bits_of_words x = p ++ u ++ q → bits_of_words y = p ++ v ++ q → length u = length v → (length u ≤ 32)%nat → u ≠ v →
  crc32_words c (pre ++ x ++ post) ≠ crc32_words c (pre ++ y ++ post).
Proof.
  intros Ex Ey Hlen Hmax Hne. unfold crc32_words, crc32_spec. fold (bits_of_words (pre ++ x ++ post)) (bits_of_words (pre ++ y ++ post)). rewrite !bits_of_words_app, Ex, Ey. intros E.
  apply (crc_register_burst (Z.lxor (u32 c) 0xffffffff) (bits_of_words pre ++ p) u v (q ++ bits_of_words post)); [apply lxor_range; [lia|apply u32_range|lia]|done..|].
  apply (f_equal (λ v, Z.lxor v 0xffffffff)) in E. rewrite !Z.lxor_assoc, Z.lxor_nilpotent, !Z.lxor_0_r in E. by rewrite <- !app_assoc in *.
Qed.


(** An entry that goes around the end of the journal: its header is the last block. *)
Definition example_header : block := [kEntryHeaderMagic; 5; 0; 2; 30; 31].
Definition example_commit : block := [kEntryCommitMagic; 5; crc32_words 0 (example_header ++ [7; 8] ++ [9; 10])].
Definition example_entry : Buffer := {| b_vmo := 2; b_vmoid := 6; b_data := [[7; 8]; [9; 10]; example_commit; []; example_header]; b_start := 4; b_length := 4 |}.

