(* ===== verification/JournalProcessor.v ===== *)
(** * The journal while it runs (ulib/blobfs/journal.cpp, journal-entry.cpp)

    Entries go from the work queue of the journal through the queues of the
    [JournalProcessor], which is run by the journal thread; the write-back thread calls back when
    the blocks of an entry are written. The threads are interleaved: each of [Enqueue_step],
    [journal_step], [data_step] and [writeback_step] is what one thread does between two points at
    which another one can be noticed. *)

From stdpp Require Import gmap.
From S2P Require Import Prelude RawBitmap MerkleTree Format Superblock Operations RingBuffer RingCopy WriteTxn Writeback Journal JournalReplay JournalEntry.

(** ** State *)

(** The callbacks of works: of the entry [id], which is the pointer that they capture, and of the client. *)
Inductive callback := Ready (id : nat) | Result (id : nat) | Client (c : nat).

Inductive ProcessResult := PkContinue | PkWait | PkRemove.

Inductive ProcessorContext := CkWork | CkWait | CkDelete | CkSync | CkDefault.

#[export] Instance ProcessorContext_eq_dec : EqDecision ProcessorContext.
Proof. solve_decision. Defined.

#[global] Abbreviation Entry := (JournalEntry callback).
#[global] Abbreviation Work := (WritebackWork callback).

Record JournalProcessor := {
  error_ : bool;
  dummy_ : option Work;
  blocks_processed_ : Z;
  context_ : ProcessorContext;
  wait_queue_ : list nat;
  delete_queue_ : list nat;
  sync_queue_ : list nat;
}.

(** Where the journal thread is in [ProcessQueues]: in the loop over the work queue, with an entry whose
    status it has read, or not; before the dummy work is queued; in the loop over one of the other queues;
    before space is freed, and after, with the new start and length; and at the end. *)
Inductive Pc :=
| PcWork
| PcWorkEntry (id : nat) (status : EntryStatus)
| PcKick
| PcQueue (c : ProcessorContext)
| PcQueueEntry (c : ProcessorContext) (status : EntryStatus)
| PcFree
| PcInfo (start length : Z)
| PcLoop.

(** [heap] has the entries that exist; [next_id] is the next pointer; [called] are the callbacks of clients that
    were called. *)
Record System := {
  s_entries : Buffer;
  s_info : block;
  s_state : WritebackState;
  consumer_signalled_ : bool;
  heap : gmap nat Entry;
  next_id : nat;
  s_work_queue : list nat;
  s_queue : WritebackQueue callback;
  s_store : Store;
  s_clock : nat;
  proc : JournalProcessor;
  pc : Pc;
  called : list (nat * zx_status);
}.

Definition set_entries (s : System) (b : Buffer) : System := {|
  s_entries := b; s_info := s.(s_info); s_state := s.(s_state); consumer_signalled_ := s.(consumer_signalled_); heap := s.(heap);
  next_id := s.(next_id); s_work_queue := s.(s_work_queue); s_queue := s.(s_queue); s_store := s.(s_store); s_clock := s.(s_clock);
  proc := s.(proc); pc := s.(pc); called := s.(called) |}.

Definition set_info (s : System) (info : block) : System := {|
  s_entries := s.(s_entries); s_info := info; s_state := s.(s_state); consumer_signalled_ := s.(consumer_signalled_); heap := s.(heap);
  next_id := s.(next_id); s_work_queue := s.(s_work_queue); s_queue := s.(s_queue); s_store := s.(s_store); s_clock := S s.(s_clock);
  proc := s.(proc); pc := s.(pc); called := s.(called) |}.

Definition set_clock (s : System) : System := set_info s s.(s_info).

Definition set_state (s : System) (st : WritebackState) (signalled : bool) : System := {|
  s_entries := s.(s_entries); s_info := s.(s_info); s_state := st; consumer_signalled_ := signalled; heap := s.(heap);
  next_id := s.(next_id); s_work_queue := s.(s_work_queue); s_queue := s.(s_queue); s_store := s.(s_store); s_clock := s.(s_clock);
  proc := s.(proc); pc := s.(pc); called := s.(called) |}.

Definition set_heap (s : System) (h : gmap nat Entry) : System := {|
  s_entries := s.(s_entries); s_info := s.(s_info); s_state := s.(s_state); consumer_signalled_ := s.(consumer_signalled_); heap := h;
  next_id := s.(next_id); s_work_queue := s.(s_work_queue); s_queue := s.(s_queue); s_store := s.(s_store); s_clock := s.(s_clock);
  proc := s.(proc); pc := s.(pc); called := s.(called) |}.

Definition set_work_queue (s : System) (next : nat) (ids : list nat) : System := {|
  s_entries := s.(s_entries); s_info := s.(s_info); s_state := s.(s_state); consumer_signalled_ := s.(consumer_signalled_); heap := s.(heap);
  next_id := next; s_work_queue := ids; s_queue := s.(s_queue); s_store := s.(s_store); s_clock := s.(s_clock);
  proc := s.(proc); pc := s.(pc); called := s.(called) |}.

Definition set_queue (s : System) (q : WritebackQueue callback) (st : Store) : System := {|
  s_entries := s.(s_entries); s_info := s.(s_info); s_state := s.(s_state); consumer_signalled_ := s.(consumer_signalled_); heap := s.(heap);
  next_id := s.(next_id); s_work_queue := s.(s_work_queue); s_queue := q; s_store := st; s_clock := s.(s_clock);
  proc := s.(proc); pc := s.(pc); called := s.(called) |}.

Definition set_proc (s : System) (p : JournalProcessor) : System := {|
  s_entries := s.(s_entries); s_info := s.(s_info); s_state := s.(s_state); consumer_signalled_ := s.(consumer_signalled_); heap := s.(heap);
  next_id := s.(next_id); s_work_queue := s.(s_work_queue); s_queue := s.(s_queue); s_store := s.(s_store); s_clock := s.(s_clock);
  proc := p; pc := s.(pc); called := s.(called) |}.

Definition set_pc (s : System) (k : Pc) : System := {|
  s_entries := s.(s_entries); s_info := s.(s_info); s_state := s.(s_state); consumer_signalled_ := s.(consumer_signalled_); heap := s.(heap);
  next_id := s.(next_id); s_work_queue := s.(s_work_queue); s_queue := s.(s_queue); s_store := s.(s_store); s_clock := s.(s_clock);
  proc := s.(proc); pc := k; called := s.(called) |}.

Definition add_called (s : System) (c : nat) (status : zx_status) : System := {|
  s_entries := s.(s_entries); s_info := s.(s_info); s_state := s.(s_state); consumer_signalled_ := s.(consumer_signalled_); heap := s.(heap);
  next_id := s.(next_id); s_work_queue := s.(s_work_queue); s_queue := s.(s_queue); s_store := s.(s_store); s_clock := s.(s_clock);
  proc := s.(proc); pc := s.(pc); called := s.(called) ++ [(c, status)] |}.

(** ** Entries *)

Definition with_status (e : Entry) (st : EntryStatus) : Entry := {|
  status_ := st; je_block_count := e.(je_block_count); header_block_ := e.(header_block_); commit_block_ := e.(commit_block_);
  header_index_ := e.(header_index_); commit_index_ := e.(commit_index_); work_ := e.(work_) |}.

Definition with_work (e : Entry) (w : option Work) : Entry := {|
  status_ := e.(status_); je_block_count := e.(je_block_count); header_block_ := e.(header_block_); commit_block_ := e.(commit_block_);
  header_index_ := e.(header_index_); commit_index_ := e.(commit_index_); work_ := w |}.

(** The object that a pointer points to, if it still exists. *)
Definition entry_at (s : System) (id : nat) : outcome Entry :=
  match s.(heap) !! id with
  | Some e => Returns e
  | None => Aborts
  end.

Definition update_entry (s : System) (id : nat) (e : Entry) : System := set_heap s (<[id := e]> s.(heap)).

(** Gives the status before. *)
Definition SetStatus (s : System) (id : nat) (st : EntryStatus) : outcome (EntryStatus * System) :=
  e ← entry_at s id;
  Returns (e.(status_), update_entry s id (with_status e st)).

(** [start_block] is where the journal is on the device and [info_vmo_] the VMO of the info block. *)
Section processor.
Context (dev : Device) (crc32 : Z → list Z → Z) (ticks : nat → Z) (start_block info_vmo_ : Z).
Implicit Types s : System.

Definition TakeWork s (id : nat) : outcome (Work * System) :=
  e ← entry_at s id;
  match e.(work_) with
  | None => Aborts
  | Some w =>
    let w := if negb (e.(header_index_) =? e.(commit_index_)) then SetSyncCallback w (Result id) else w in
    Returns (w, update_entry s id (with_work e None))
  end.

(** Calls the callbacks of a work; those of entries need the entry to exist. *)
Definition SetStatusFromResult s (result : zx_status) (id : nat) : outcome System :=
  p ← SetStatus s id (if failed result then EkError else EkPersisted);
  let '(last_status, s) := (p : EntryStatus * System) in
  _ ← (if failed result then Returns tt else ZX_DEBUG_ASSERT (bool_decide (last_status = EkWaiting)));
  Returns s.

Definition SendSignalLocked s (status : zx_status) : outcome System :=
  if failed status then Returns (set_state s kReadOnly true)
  else
    _ ← ZX_ASSERT (negb (bool_decide (s.(s_state) = kReadOnly)));
    Returns (set_state s s.(s_state) true).

Definition ProcessEntryResult s (result : zx_status) (id : nat) : outcome System :=
  s ← SetStatusFromResult s result id;
  SendSignalLocked s result.

Fixpoint call_all s (status : zx_status) (cbs : list callback) : outcome System :=
  match cbs with
  | [] => Returns s
  | cb :: cbs =>
    s ← match cb with
        | Ready _ => Aborts  (* not a callback for completion *)
        | Result id => ProcessEntryResult s status id
        | Client c => Returns (add_called s c status)
        end;
    call_all s status cbs
  end.

Definition ForceReset s (id : nat) : outcome System :=
  e ← entry_at s id;
  match e.(work_) with
  | None => Returns s
  | Some w =>
    let '(w, cbs) := MarkCompleted w in
    call_all (update_entry s id (with_work e (Some w))) ZX_ERR_BAD_STATE cbs
  end.

(** ** The journal as the processor uses it *)

(** The VMOs that works of the journal are copied from. *)
Definition info_vmos s : Vmos block := {|
  vmo_block h _ := if h =? info_vmo_ then s.(s_info) else zero_block;
  vmo_read_status _ _ _ := ZX_OK |}.

Definition attached_vmos s (vmoid : Z) : list block :=
  if vmoid =? s.(s_entries).(b_vmoid) then s.(s_entries).(b_data) else [].

(** Works of the buffer of the journal never wait for space. *)
Definition EnqueueEntry s (w : Work) : outcome (zx_status * System) :=
  t ← ValidateTransaction s.(s_entries) w.(transaction_);
  r ← Queue_Enqueue (info_vmos s) s.(s_queue) (with_transaction w t);
  match r with
  | None => Diverges
  | Some (status, q) => Returns (status, set_queue s q s.(s_store))
  end.

Definition PrepareBuffer_of s (id : nat) : outcome System :=
  e ← entry_at s id;
  p ← PrepareBuffer crc32 s.(s_entries) e;
  let '(b, e) := (p : Buffer * Entry) in
  Returns (update_entry (set_entries s b) id e).

(** [None] when the work has to wait for space in the write-back queue. *)
Definition WriteInfo_step s (start length : Z) : outcome (option System) :=
  if (start =? field_get info_start_block s.(s_info)) && (length =? field_get info_num_blocks s.(s_info)) then Returns (Some s)
  else
    let info := field_set info_start_block s.(s_info) start in
    let info := field_set info_num_blocks info length in
    let info := field_set info_timestamp info (ticks s.(s_clock)) in
    let s := set_info s (checksummed crc32 info) in
    t ← Enqueue NewWriteTxn info_vmo_ 0 start_block 1;
    r ← Queue_Enqueue (info_vmos s) s.(s_queue) (with_transaction NewWork t);
    Returns
      match r with
      | None => None
      | Some (_, q) => Some (set_queue s q s.(s_store))
      end.

(** ** Enqueue *)

Definition CreateEntry s (header commit : list Z) (header_index commit_index : Z) (work : Work) : outcome Entry :=
  let status :=
    if BlkCount work.(transaction_) =? 0 then EkSync
    else if bool_decide (s.(s_state) = kReadOnly) then EkError
    else EkInit in
  NewJournalEntry header commit (ticks s.(s_clock)) status header_index commit_index work.

(** The work that writes the entry to the journal; none for an entry without blocks. *)
Definition PrepareWork s (id : nat) (e : Entry) : outcome (option Work) :=
  let block_count := BlockCount e in
  if block_count =? 0 then _ ← no_place s.(s_entries) e; Returns None
  else
    t ← AddEntryTransaction s.(s_entries) start_block e.(header_index_) block_count NewWriteTxn;
    w ← SetReadyCallback (with_transaction NewWork t) (Ready id);
    Returns (Some (SetSyncCallback w (Result id))).

(** A client calls [Enqueue] with a work on the VMOs [v]; [header] and [commit] are what is in the memory of
    the new entry. [None] when [EnsureSpaceLocked] has to wait, which is when the lock is released. *)
Definition Enqueue_step (v : Vmos block) (header commit : list Z) (work : Work) s : outcome (option (zx_status * System)) :=
  _ ← ZX_DEBUG_ASSERT (negb (IsBuffered work.(transaction_)));
  let blocks := BlkCount work.(transaction_) in
  let cap := b_capacity s.(s_entries) in
  r ← (if bool_decide (s.(s_state) = kReadOnly) then Returns (Some (ZX_ERR_BAD_STATE, cap, cap, s, work))
       else if negb (blocks =? 0) then
         _ ← ZX_DEBUG_ASSERT (bool_decide (s.(s_state) = kRunning));
         space ← IsSpaceAvailable s.(s_entries) (blocks ⊞ 2);
         if negb (space : bool) then Returns None
         else
           p ← CopyEntry v s.(s_entries) work.(transaction_);
           let '(header_index, commit_index, b, t) := (p : Z * Z * Buffer * WriteTxn) in
           Returns (Some (ZX_OK, header_index, commit_index, set_entries s b, with_transaction work t))
       else Returns (Some (ZX_OK, cap, cap, s, work)));
  match r with
  | None => Returns None
  | Some (status, header_index, commit_index, s, work) =>
    let id := s.(next_id) in
    e ← CreateEntry s header commit header_index commit_index work;
    let s := update_entry (set_clock s) id e in
    p ← (if bool_decide (e.(status_) = EkInit) then
           if negb (failed status) then
             w ← PrepareWork s id e;
             match w with
             | None => Aborts
             | Some w => EnqueueEntry s w
             end
           else Returns (status, update_entry s id (with_status e EkError))
         else Returns (status, s));
    let '(status, s) := (p : zx_status * System) in
    s ← SendSignalLocked (set_work_queue s (S id) (s.(s_work_queue) ++ [id])) status;
    Returns (Some (status, s))
  end.

(** ** The processor *)

Definition with_error s : System := set_proc s {|
  error_ := true; dummy_ := s.(proc).(dummy_); blocks_processed_ := s.(proc).(blocks_processed_); context_ := s.(proc).(context_);
  wait_queue_ := s.(proc).(wait_queue_); delete_queue_ := s.(proc).(delete_queue_); sync_queue_ := s.(proc).(sync_queue_) |}.

Definition with_dummy s (w : option Work) : System := set_proc s {|
  error_ := s.(proc).(error_); dummy_ := w; blocks_processed_ := s.(proc).(blocks_processed_); context_ := s.(proc).(context_);
  wait_queue_ := s.(proc).(wait_queue_); delete_queue_ := s.(proc).(delete_queue_); sync_queue_ := s.(proc).(sync_queue_) |}.

Definition with_processed s (n : Z) : System := set_proc s {|
  error_ := s.(proc).(error_); dummy_ := s.(proc).(dummy_); blocks_processed_ := n; context_ := s.(proc).(context_);
  wait_queue_ := s.(proc).(wait_queue_); delete_queue_ := s.(proc).(delete_queue_); sync_queue_ := s.(proc).(sync_queue_) |}.

Definition with_context s (c : ProcessorContext) : System := set_proc s {|
  error_ := s.(proc).(error_); dummy_ := s.(proc).(dummy_); blocks_processed_ := 0; context_ := c;
  wait_queue_ := s.(proc).(wait_queue_); delete_queue_ := s.(proc).(delete_queue_); sync_queue_ := s.(proc).(sync_queue_) |}.

Definition with_queues s (wait delete sync : list nat) : System := set_proc s {|
  error_ := s.(proc).(error_); dummy_ := s.(proc).(dummy_); blocks_processed_ := s.(proc).(blocks_processed_); context_ := s.(proc).(context_);
  wait_queue_ := wait; delete_queue_ := delete; sync_queue_ := sync |}.

Definition SetContext s (context : ProcessorContext) : outcome System :=
  let c := s.(proc).(context_) in
  if bool_decide (c = context) then Returns s
  else
    _ ← ZX_DEBUG_ASSERT (negb (bool_decide (c = CkSync)) || bool_decide (s.(proc).(sync_queue_) = []));
    _ ← ZX_DEBUG_ASSERT
      match context with
      | CkDefault => bool_decide (c = CkSync)
      | CkWork => bool_decide (c = CkDefault) || bool_decide (c = CkSync)
      | CkWait => negb (bool_decide (c = CkDelete))
      | CkDelete => bool_decide (c = CkWait)
      | CkSync => bool_decide (c = CkDelete)
      end;
    _ ← ZX_DEBUG_ASSERT (match s.(proc).(dummy_) with None => true | Some _ => false end);
    Returns (with_context s context).

Definition CreateWork : Work := NewWork.

Definition ResetWork s : outcome System :=
  match s.(proc).(dummy_) with
  | None => Returns s
  | Some w => s ← call_all s ZX_ERR_BAD_STATE (snd (MarkCompleted w)); Returns (with_dummy s None)
  end.

Definition EnqueueWork_of s : outcome System :=
  match s.(proc).(dummy_) with
  | None => Returns s
  | Some w => p ← EnqueueEntry (with_dummy s None) w; Returns (snd p)
  end.

Definition ProcessWorkDefault s (id : nat) : outcome (ProcessResult * System) :=
  s ← PrepareBuffer_of s id;
  p ← SetStatus s id EkWaiting;
  let '(last_status, s) := (p : EntryStatus * System) in
  if bool_decide (last_status = EkError) then
    p ← SetStatus (with_error s) id EkError;
    Returns (PkContinue, snd p)
  else
    _ ← ZX_DEBUG_ASSERT (bool_decide (last_status = EkInit));
    Returns (PkContinue, match s.(proc).(dummy_) with None => with_dummy s (Some CreateWork) | Some _ => s end).

Definition ProcessWaitDefault s (id : nat) : outcome (ProcessResult * System) :=
  p ← SetStatus s id EkWaiting;
  let '(last_status, s) := (p : EntryStatus * System) in
  _ ← ZX_DEBUG_ASSERT (bool_decide (last_status = EkPersisted));
  p ← TakeWork s id;
  let '(w, s) := (p : Work * System) in
  p ← EnqueueEntry s w;
  Returns (PkContinue, snd p).

Definition ProcessDeleteDefault s (id : nat) : outcome (ProcessResult * System) :=
  let w := match s.(proc).(dummy_) with None => CreateWork | Some w => w end in
  e ← entry_at s id;
  p ← PrepareDelete s.(s_entries) start_block e w.(transaction_);
  let '(b, t) := (p : Buffer * WriteTxn) in
  let s := with_dummy (set_entries s b) (Some (with_transaction w t)) in
  Returns (PkRemove, with_processed s (s.(proc).(blocks_processed_) ⊞ BlockCount e)).

Definition ProcessSyncDefault s (id : nat) : outcome (ProcessResult * System) :=
  e ← entry_at s id;
  _ ← ZX_DEBUG_ASSERT (BlockCount e =? 0);
  _ ← no_place s.(s_entries) e;
  Returns (PkContinue, s).

Definition ProcessSyncComplete s (id : nat) : outcome (ProcessResult * System) :=
  _ ← ProcessSyncDefault s id;
  p ← TakeWork s id;
  let '(w, s) := (p : Work * System) in
  p ← EnqueueEntry s w;
  Returns (PkRemove, snd p).

Definition ProcessErrorDefault s : outcome (ProcessResult * System) := Returns (PkContinue, with_error s).

Definition ProcessErrorComplete s (id : nat) : outcome (ProcessResult * System) :=
  s ← ForceReset s id;
  Returns (PkRemove, with_error s).

Definition ProcessUnsupported : outcome (ProcessResult * System) := Aborts.

(** [entry_status] is what [GetStatus] gave. *)
Definition ProcessEntry s (id : nat) (entry_status : EntryStatus) : outcome (ProcessResult * System) :=
  if bool_decide (entry_status = EkWaiting) then Returns (PkWait, s)
  else
    let entry_status := if s.(proc).(error_) && negb (bool_decide (entry_status = EkSync)) then EkError else entry_status in
    match entry_status, s.(proc).(context_) with
    | EkInit, CkWork => ProcessWorkDefault s id
    | EkPersisted, CkWait => ProcessWaitDefault s id
    | EkPersisted, CkDelete => ProcessDeleteDefault s id
    | EkSync, CkSync => ProcessSyncComplete s id
    | EkSync, (CkWork | CkWait | CkDelete) => ProcessSyncDefault s id
    | EkError, CkWork => ProcessErrorDefault s
    | EkError, (CkWait | CkDelete) => ProcessErrorComplete s id
    | _, _ => ProcessUnsupported
    end.

(** ** The threads *)

Definition queue_of s (c : ProcessorContext) : list nat :=
  match c with
  | CkWait => s.(proc).(wait_queue_)
  | CkDelete => s.(proc).(delete_queue_)
  | CkSync => s.(proc).(sync_queue_)
  | _ => []
  end.

(** The first entry of the queue goes to the next one. *)
Definition to_next s (c : ProcessorContext) (id : nat) : outcome System :=
  let p := s.(proc) in
  match c with
  | CkWait => Returns (with_queues s (tail p.(wait_queue_)) (p.(delete_queue_) ++ [id]) p.(sync_queue_))
  | CkDelete => Returns (with_queues s p.(wait_queue_) (tail p.(delete_queue_)) (p.(sync_queue_) ++ [id]))
  | _ => Aborts
  end.

(** The first entry of the queue is destroyed. *)
Definition remove s (c : ProcessorContext) (id : nat) : System :=
  let p := s.(proc) in
  set_heap
    match c with
    | CkWait => with_queues s (tail p.(wait_queue_)) p.(delete_queue_) p.(sync_queue_)
    | CkDelete => with_queues s p.(wait_queue_) (tail p.(delete_queue_)) p.(sync_queue_)
    | CkSync => with_queues s p.(wait_queue_) p.(delete_queue_) (tail p.(sync_queue_))
    | _ => s
    end (delete id s.(heap)).

Definition start_queue s (c : ProcessorContext) : outcome (option System) :=
  s ← SetContext s c;
  Returns (Some (set_pc s (PcQueue c))).

(** After the loop over a queue. *)
Definition end_queue s (c : ProcessorContext) : outcome (option System) :=
  match c with
  | CkWait => start_queue s CkDelete
  | CkDelete => Returns (Some (set_pc s PcFree))
  | _ => Returns (Some (set_pc s PcLoop))
  end.

(** What the journal thread does next in [ProcessQueues] and [ProcessLoop]; [None] when it has to wait. *)
Definition journal_step s : outcome (option System) :=
  match s.(pc) with
  | PcWork =>
    match s.(s_work_queue) with
    | [] => Returns (Some (set_pc s PcKick))
    | id :: rest =>
      s ← SetContext (set_work_queue s s.(next_id) rest) CkWork;
      e ← entry_at s id;
      Returns (Some (set_pc s (PcWorkEntry id e.(status_))))
    end
  | PcWorkEntry id status =>
    p ← ProcessEntry s id status;
    let '(result, s) := (p : ProcessResult * System) in
    match result with
    | PkContinue =>
      let p := s.(proc) in
      Returns (Some (set_pc (with_queues s (p.(wait_queue_) ++ [id]) p.(delete_queue_) p.(sync_queue_)) PcWork))
    | _ => Aborts
    end
  | PcKick => s ← EnqueueWork_of s; start_queue s CkWait
  | PcQueue c =>
    match queue_of s c with
    | [] => end_queue s c
    | id :: _ => e ← entry_at s id; Returns (Some (set_pc s (PcQueueEntry c e.(status_))))
    end
  | PcQueueEntry c status =>
    match queue_of s c with
    | [] => Aborts
    | id :: _ =>
      p ← ProcessEntry s id status;
      let '(result, s) := (p : ProcessResult * System) in
      match result with
      | PkWait => end_queue s c
      | PkContinue => s ← to_next s c id; Returns (Some (set_pc s (PcQueue c)))
      | PkRemove => Returns (Some (set_pc (remove s c id) (PcQueue c)))
      end
    end
  | PcFree =>
    if s.(proc).(error_) then
      b ← FreeAllSpace s.(s_entries);
      s ← ResetWork (set_entries (set_state s kReadOnly s.(consumer_signalled_)) b);
      start_queue s CkSync
    else if 0 <? s.(proc).(blocks_processed_) then
      b ← FreeSpace s.(s_entries) s.(proc).(blocks_processed_);
      Returns (Some (set_pc (set_entries s b) (PcInfo b.(b_start) b.(b_length))))
    else start_queue s CkSync
  | PcInfo start length =>
    r ← WriteInfo_step s start length;
    match r with
    | None => Returns None
    | Some s => s ← EnqueueWork_of s; start_queue s CkSync
    end
  | PcLoop =>
    if s.(consumer_signalled_) then Returns (Some (set_pc (set_state s s.(s_state) false) PcWork))
    else Returns None
  end.

(** The answer of a ready callback. *)
Definition is_waiting s (cb : callback) : bool :=
  match cb with
  | Ready id =>
    match s.(heap) !! id with
    | Some e => bool_decide (e.(status_) = EkWaiting)
    | None => false
    end
  | _ => false
  end.

(** The ready callback that the write-back thread calls needs its entry. *)
Definition ready_exists s : bool :=
  match s.(s_queue).(work_queue_) with
  | w :: _ =>
    match w.(ready_cb_) with
    | Some (Ready id) => IsReadOnly s.(s_queue) || bool_decide (is_Some (s.(heap) !! id))
    | _ => true
    end
  | [] => true
  end.

(** One round of the write-back thread, with its callbacks; [None] when it has to wait. *)
Definition writeback_step s : outcome (option System) :=
  _ ← ZX_ASSERT (ready_exists s);
  r ← WritebackThread dev (attached_vmos s) (is_waiting s) s.(s_queue) s.(s_store);
  match r with
  | None => Returns None
  | Some (q, st, status, cbs) => s ← call_all (set_queue s q st) status cbs; Returns (Some s)
  end.

(** A client queues data, which does not go through the journal. *)
Definition data_step (v : Vmos block) (w : Work) s : outcome (option System) :=
  r ← Queue_Enqueue v s.(s_queue) w;
  Returns
    match r with
    | None => None
    | Some (_, q) => Some (set_queue s q s.(s_store))
    end.

(** Who runs next. *)
Inductive action :=
| Submit (v : Vmos block) (header commit : list Z) (w : Work)
| SubmitData (v : Vmos block) (w : Work)
| RunJournal
| RunWriteback.

Definition step (a : action) s : outcome (option System) :=
  match a with
  | Submit v header commit w => r ← Enqueue_step v header commit w s; Returns (snd <$> (r : option (zx_status * System)))
  | SubmitData v w => data_step v w s
  | RunJournal => journal_step s
  | RunWriteback => writeback_step s
  end.

End processor.

(** A journal whose threads have just been started. *)
Definition started (b : Buffer) (info : block) (q : WritebackQueue callback) (st : Store) : System := {|
  s_entries := b; s_info := info; s_state := kRunning; consumer_signalled_ := false; heap := ∅; next_id := 0; s_work_queue := [];
  s_queue := q; s_store := st; s_clock := 0;
  proc := {| error_ := false; dummy_ := None; blocks_processed_ := 0; context_ := CkDefault; wait_queue_ := []; delete_queue_ := []; sync_queue_ := [] |};
  pc := PcWork; called := [] |}.
