(* ===== verification/JournalProtocol.v ===== *)
(** * The protocol of the journal: every interleaving of its threads

    The invariant of [System] while the device does not fail, that every step of every thread
    keeps it and fails no assertion, and what it says of the order of writes; and what
    goes wrong when a write fails. *)

From stdpp Require Import gmap.
From S2P Require Import Prelude RawBitmap MerkleTree Format Superblock Operations RingBuffer RingCopy WriteTxn Writeback Journal JournalReplay JournalEntry JournalRecovery JournalProcessor.

(** ** Histories *)

(** The work that an action completes. *)
Definition completes (a : action) (s : System) (r : option System) : list Work :=
  match a, r with
  | RunWriteback, Some _ => take 1 s.(s_queue).(work_queue_)
  | _, _ => []
  end.

(** The system after the actions, and the works that the write-back thread has completed, in order. *)
Fixpoint history dev crc32 ticks start_block info_vmo_ (actions : list action) (s : System) : outcome (System * list Work) :=
  match actions with
  | [] => Returns (s, [])
  | a :: actions =>
    r ← step dev crc32 ticks start_block info_vmo_ a s;
    p ← history dev crc32 ticks start_block info_vmo_ actions (default s r);
    Returns (fst p, completes a s r ++ snd p)
  end.

(** The work that writes the entry [id] to the journal, and the one that writes its transaction. *)
Definition writes_entry (id : nat) (w : Work) : Prop := w.(ready_cb_) = Some (Ready id) ∧ Result id ∈ w.(sync_cb_).
Definition writes_data (id : nat) (w : Work) : Prop := w.(ready_cb_) = None ∧ Result id ∈ w.(sync_cb_).

Definition journaled (H : list Work) (id : nat) : Prop := ∃ w, w ∈ H ∧ writes_entry id w.
Definition applied (H : list Work) (id : nat) : Prop := ∃ w, w ∈ H ∧ writes_data id w.

(** ** The invariant *)

Section protocol.
Context (dev : Device) (crc32 : Z → list Z → Z) (ticks : nat → Z) (start_block info_vmo_ : Z).
Context (Hdev : ∀ m, dev.(device_status) m = ZX_OK) (Hticks : ∀ n, 0 ≤ ticks n < 2 ^ 64).
Context (Hstart : 0 ≤ start_block < 2 ^ 38) (Hcrc : ∀ c ws, 0 ≤ crc32 c ws < 2 ^ 32).
Implicit Types (s : System) (e : Entry) (w : Work) (H : list Work).

Definition clients (cbs : list callback) : Prop := Forall (λ cb, ∃ c, cb = Client c) cbs.

(** Operations on the buffer of the journal. *)
Definition inside (b : Buffer) (ops : list UnbufferedOperation) : Prop :=
  Forall (λ o, op_fits o ∧ o.(u_op).(vmo_offset) + o.(u_op).(Operations.length_) ≤ b_capacity b) ops.

(** An operation that writes blocks of the buffer to their places in the journal. *)
Definition in_region (b : Buffer) (o : UnbufferedOperation) : Prop :=
  o.(vmo) = b.(b_vmo) ∧ o.(u_op).(type) = kWrite ∧ 0 ≤ o.(u_op).(vmo_offset) ∧ 0 < o.(u_op).(Operations.length_) ∧
  o.(u_op).(vmo_offset) + o.(u_op).(Operations.length_) ≤ b_capacity b ∧ o.(u_op).(dev_offset) = start_block + 1 + o.(u_op).(vmo_offset).

(** The queue can be used by the journal, whose buffer is [b]. *)
Record queue_of_ok (b : Buffer) (q : WritebackQueue callback) : Prop := {
  qo_queue : ∃ base ps, queue_ok dev.(per_block) q base ps;
  qo_vmo : b.(b_vmo) ≠ ZX_HANDLE_INVALID;
  qo_vmoid : b.(b_vmoid) ≠ VMOID_INVALID ∧ b.(b_vmoid) ≠ q.(buffer_).(b_vmoid);
  qo_info : info_vmo_ ≠ ZX_HANDLE_INVALID ∧ info_vmo_ ≠ q.(buffer_).(b_vmo);
  qo_room : 1 < b_capacity q.(buffer_);
  qo_cap : 0 < b_capacity b ≤ 2 ^ 32 ∧ b_capacity b * dev.(per_block) < UINT32_MAX;
}.

(** A work of the queue, and the entry that it calls back: it writes the entry to the journal, or the
    transaction of an entry that is in the journal. *)
Definition called_back H (h : gmap nat Entry) w (id : nat) : Prop :=
  ∃ e, h !! id = Some e ∧
    ((w.(ready_cb_) = Some (Ready id) ∧ (e.(status_) = EkInit ∨ e.(status_) = EkWaiting) ∧ is_Some e.(work_)) ∨
     (w.(ready_cb_) = None ∧ e.(status_) = EkWaiting ∧ e.(work_) = None ∧ journaled H id)).

Definition work_ok H (h : gmap nat Entry) w : Prop :=
  (w.(ready_cb_) = None ∧ clients w.(sync_cb_)) ∨
  (∃ id cs, w.(sync_cb_) = Result id :: cs ∧ clients cs ∧ called_back H h w id).

Definition result_of w : option nat := match w.(sync_cb_) with Result id :: _ => Some id | _ => None end.

(** An entry with blocks [lo] to [hi] of the buffer, counted without going around. *)
Definition placed (cap : Z) e (lo hi : Z) : Prop :=
  let n := e.(je_block_count) in
  hi = lo + n + 2 ∧ 0 < n ≤ kMaxEntryDataBlocks ∧ n + 2 < cap ∧ e.(header_index_) = lo mod cap ∧ e.(commit_index_) = (lo + 1 + n) mod cap.

(** An entry without blocks. *)
Definition is_sync (b : Buffer) e : Prop :=
  e.(status_) = EkSync ∧ e.(header_index_) = b_capacity b ∧ e.(commit_index_) = b_capacity b ∧
  ∃ w, e.(work_) = Some w ∧ w.(ready_cb_) = None ∧ clients w.(sync_cb_) ∧
    w.(transaction_).(WriteTxn.vmoid_) = VMOID_INVALID ∧ w.(transaction_).(WriteTxn.operations_) = [].

(** The transaction of an entry, as long as it is kept with it. *)
Definition has_work (b : Buffer) e : Prop :=
  ∃ w, e.(work_) = Some w ∧ w.(ready_cb_) = None ∧ clients w.(sync_cb_) ∧
    w.(transaction_).(WriteTxn.vmoid_) = b.(b_vmoid) ∧ inside b w.(transaction_).(WriteTxn.operations_).

(** The queue in which an entry is: the work queue, the wait queue or the delete queue. *)
Inductive place_of := InWork | InWait | InDelete.

Definition entry_ok (b : Buffer) (l : place_of) e (lo hi : Z) : Prop :=
  (lo = hi ∧ is_sync b e) ∨
  (placed (b_capacity b) e lo hi ∧
   match l with
   | InWork => e.(status_) = EkInit ∧ has_work b e
   | InWait => (e.(status_) = EkWaiting ∨ e.(status_) = EkPersisted) ∧ has_work b e
   | InDelete => (e.(status_) = EkWaiting ∨ e.(status_) = EkPersisted) ∧ e.(work_) = None
   end).

(** The entries in order, from the oldest to the newest. *)
Definition current s : list nat := match s.(pc) with PcWorkEntry id _ => [id] | _ => [] end.

Definition line s : list (nat * place_of) :=
  map (λ id, (id, InDelete)) s.(proc).(delete_queue_) ++ map (λ id, (id, InWait)) s.(proc).(wait_queue_) ++
  map (λ id, (id, InWork)) (current s ++ s.(s_work_queue)).

(** They have consecutive parts of the buffer. *)
Fixpoint lays (b : Buffer) (h : gmap nat Entry) (lo : Z) (l : list (nat * place_of)) (hi : Z) : Prop :=
  match l with
  | [] => lo = hi
  | (id, p) :: l => ∃ e mid, h !! id = Some e ∧ lo ≤ mid ∧ entry_ok b p e lo mid ∧ lays b h mid l hi
  end.

(** Blocks of entries that are gone, and not yet given back. *)
Definition held s : Z :=
  match s.(pc) with
  | PcQueue CkDelete | PcQueueEntry CkDelete _ | PcFree => s.(proc).(blocks_processed_)
  | _ => 0
  end.

(** The work that is prepared for the queue: only to make the thread run, or to clear entries. *)
Definition plain s : Prop := s.(proc).(dummy_) = None ∨ s.(proc).(dummy_) = Some NewWork.

Definition clears s : Prop :=
  ∀ w, s.(proc).(dummy_) = Some w →
    w.(ready_cb_) = None ∧ w.(sync_cb_) = [] ∧ w.(transaction_).(WriteTxn.vmoid_) = VMOID_INVALID ∧
    Forall (in_region s.(s_entries)) w.(transaction_).(WriteTxn.operations_).

(** The status that the thread has read of the first entry of a queue is still its status, or was [kWaiting]. *)
Definition observed s (c : ProcessorContext) (status : EntryStatus) : Prop :=
  ∃ id rest e, queue_of s c = id :: rest ∧ s.(heap) !! id = Some e ∧ (status = EkWaiting ∨ status = e.(status_)).

Definition control s : Prop :=
  let p := s.(proc) in
  match s.(pc) with
  | PcWork | PcKick =>
    (((p.(context_) = CkDefault ∨ p.(context_) = CkSync) ∧ p.(dummy_) = None) ∨ (p.(context_) = CkWork ∧ plain s)) ∧ p.(sync_queue_) = []
  | PcWorkEntry id status => p.(context_) = CkWork ∧ plain s ∧ p.(sync_queue_) = [] ∧ ∃ e, s.(heap) !! id = Some e ∧ e.(status_) = status
  | PcQueue CkWait => p.(context_) = CkWait ∧ p.(dummy_) = None ∧ p.(sync_queue_) = []
  | PcQueueEntry CkWait status => p.(context_) = CkWait ∧ p.(dummy_) = None ∧ p.(sync_queue_) = [] ∧ observed s CkWait status
  | PcQueue CkDelete | PcFree => p.(context_) = CkDelete ∧ clears s ∧ (p.(dummy_) = None ∨ 0 < p.(blocks_processed_)) ∧ 0 ≤ p.(blocks_processed_)
  | PcQueueEntry CkDelete status =>
    p.(context_) = CkDelete ∧ clears s ∧ (p.(dummy_) = None ∨ 0 < p.(blocks_processed_)) ∧ 0 ≤ p.(blocks_processed_) ∧ observed s CkDelete status
  | PcInfo _ _ => p.(context_) = CkDelete ∧ clears s
  | PcQueue CkSync => p.(context_) = CkSync ∧ p.(dummy_) = None
  | PcQueueEntry CkSync status => p.(context_) = CkSync ∧ p.(dummy_) = None ∧ status = EkSync ∧ observed s CkSync status
  | PcLoop => p.(context_) = CkSync ∧ p.(dummy_) = None ∧ p.(sync_queue_) = []
  | _ => False
  end.

(** What has been written of an entry. *)
Definition persisted H (h : gmap nat Entry) : Prop :=
  ∀ id e, h !! id = Some e → e.(status_) = EkPersisted →
    match e.(work_) with Some _ => journaled H id | None => applied H id end.

(** An entry in the journal is kept until its transaction has been written. *)
Definition kept H (h : gmap nat Entry) : Prop :=
  ∀ id, journaled H id → applied H id ∨ ∃ e, h !! id = Some e ∧ e.(status_) ≠ EkSync.

Definition written H (h : gmap nat Entry) : Prop := persisted H h ∧ kept H h.

(** The buffers of the journal and of the queue at the start. *)
Context (b0 bq0 : Buffer).

(** Data is written after its entry. *)
Definition ordered H : Prop := ∀ k w id, H !! k = Some w → writes_data id w → ∃ k' w', (k' < k)%nat ∧ H !! k' = Some w' ∧ writes_entry id w'.

Record invariant H s : Prop := {
  iv_same : same_vmo b0 s.(s_entries) ∧ same_vmo bq0 s.(s_queue).(buffer_);
  iv_order : ordered H;
  iv_state : s.(s_state) = kRunning ∧ s.(proc).(error_) = false;
  iv_queue : queue_of_ok s.(s_entries) s.(s_queue);
  iv_works : Forall (work_ok H s.(heap)) s.(s_queue).(work_queue_);
  iv_results : NoDup (omap result_of s.(s_queue).(work_queue_));
  iv_ids : NoDup (map fst (line s) ++ s.(proc).(sync_queue_)) ∧ ∀ id, is_Some (s.(heap) !! id) → (id < s.(next_id))%nat ∧ id ∈ map fst (line s) ++ s.(proc).(sync_queue_);
  iv_buffer : ∃ base, buffer_ok s.(s_entries) base ∧ lays s.(s_entries) s.(heap) (base + held s) (line s) (base + s.(s_entries).(b_length));
  iv_sync : Forall (λ id, ∃ e, s.(heap) !! id = Some e ∧ is_sync s.(s_entries) e) s.(proc).(sync_queue_);
  iv_written : written H s.(heap);
  iv_control : control s;
}.

(** ** Works that are queued *)

Lemma region_inside b ops : b_capacity b ≤ 2 ^ 32 → Forall (in_region b) ops → inside b ops.
Proof.
  intros Hc Hr. eapply Forall_impl; [exact Hr|]. intros o (_ & Ht & Hv & Hl & Hcap & Hd). split; [|done]. repeat split; try done; lia.
Qed.

Lemma Enqueue_region b t v len : b.(b_vmo) ≠ ZX_HANDLE_INVALID → b_capacity b ≤ 2 ^ 32 → t.(WriteTxn.vmoid_) = VMOID_INVALID →
  Forall (in_region b) t.(WriteTxn.operations_) → 0 ≤ v → 0 < len → v + len ≤ b_capacity b →
  ∃ t', AddTransaction b v (start_block + 1 + v) len t = Returns t' ∧ t'.(WriteTxn.vmoid_) = VMOID_INVALID ∧ Forall (in_region b) t'.(WriteTxn.operations_).
Proof.
  intros Hvmo Hcap Hid Hops Hv Hl Hvl. unfold AddTransaction, Enqueue, IsBuffered, ZX_DEBUG_ASSERT. rewrite Hid, (proj2 (Z.eqb_neq _ _) Hvmo). unwrap. ztest.
  cbn [negb Z.eqb VMOID_INVALID mbind outcome_bind]. eexists. split; [done|].
  assert (match enqueue_loop t.(WriteTxn.operations_) b.(b_vmo) v (start_block + 1 + v) len with Some (ops, _) => Forall (in_region b) ops | None => True end) as Hloop.
  { clear Hid. induction Hops as [|o ops Ho Hops IH]; cbn [enqueue_loop]; [done|]. pose proof Ho as (Hb & Ht & Ho1 & Ho2 & Ho3 & Ho4). rewrite Hb, Z.eqb_refl. cbn [negb].
    destruct (Z.eqb_spec (vmo_offset (u_op o)) v) as [E|E].
    - destruct (_ <? _); [|by constructor]. constructor; [|done]. repeat split; cbn; (done || lia).
    - unwrap. destruct (Z.eqb_spec (vmo_offset (u_op o) + Operations.length_ (u_op o)) v) as [E2|E2]; cbn [andb].
      + ztest. constructor; [|done]. unwrap. repeat split; cbn; (done || lia).
      + destruct (enqueue_loop ops _ _ _ _) as [[ops' ?]|]; [by constructor|done]. }
  destruct (enqueue_loop _ _ _ _ _) as [[ops added]|]; cbn [WriteTxn.vmoid_ WriteTxn.operations_]; [done|]. split; [done|].
  apply Forall_app. split; [done|]. apply Forall_singleton. repeat split; cbn; (done || lia).
Qed.

Lemma AddEntryTransaction_region b v len : b.(b_vmo) ≠ ZX_HANDLE_INVALID → b_capacity b ≤ 2 ^ 32 → 0 ≤ v < b_capacity b → 0 < len < b_capacity b →
  ∃ t, AddEntryTransaction b start_block v len NewWriteTxn = Returns t ∧ t.(WriteTxn.vmoid_) = VMOID_INVALID ∧ Forall (in_region b) t.(WriteTxn.operations_).
Proof.
  intros Hvmo Hcap Hv Hl. unfold AddEntryTransaction, ZX_DEBUG_ASSERT. unwrap. ztest. cbn [mbind outcome_bind].
  destruct (Z.ltb_spec (b_capacity b) (v + len)); unwrap; ztest; cbn [mbind outcome_bind].
  - destruct (Enqueue_region b NewWriteTxn v (b_capacity b - v)) as (t & -> & Hid & Hr); try done; try lia. cbn [mbind outcome_bind].
    replace (start_block + 1) with (start_block + 1 + 0) by lia. apply Enqueue_region; done || lia.
  - destruct (Enqueue_region b NewWriteTxn v len) as (t & -> & Hid & Hr); try done; try lia. cbn [mbind outcome_bind]. eauto.
Qed.

Lemma Queue_Enqueue_pushes v (q q' : WritebackQueue callback) w status : Queue_Enqueue v q w = Returns (Some (status, q')) →
  ∃ t, q'.(work_queue_) = q.(work_queue_) ++ [with_transaction w t].
Proof.
  unfold Queue_Enqueue. assert (with_transaction w w.(transaction_) = w) as Hw by by destruct w.
  destruct (IsReadOnly q); [intros [= _ <-]; exists w.(transaction_); by rewrite Hw|].
  destruct (negb _); [|intros [= _ <-]; exists w.(transaction_); by rewrite Hw].
  destruct (ZX_DEBUG_ASSERT _); [|done..]. cbn [mbind outcome_bind]. destruct (IsSpaceAvailable _ _) as [[]| |]; [|done..]. cbn [mbind outcome_bind negb].
  destruct (CopyTransaction _ _ _) as [[b t]| |]; [|done..]. cbn [mbind outcome_bind]. intros [= _ <-]. by exists t.
Qed.

Lemma queue_of_ok_next b q q' : queue_of_ok b q → (∃ base ps, queue_ok dev.(per_block) q' base ps) → same_vmo q.(buffer_) q'.(buffer_) → queue_of_ok b q'.
Proof. intros [_ ? ? ? ? ?] Hq (V1 & V2 & V3). constructor; rewrite ?V1, ?V2, ?V3; done. Qed.

(** A work of the buffer of the journal is queued at once. *)
Lemma EnqueueEntry_ok s w :
  let b := s.(s_entries) in
  queue_of_ok b s.(s_queue) →
  (w.(transaction_).(WriteTxn.vmoid_) = b.(b_vmoid) ∧ inside b w.(transaction_).(WriteTxn.operations_) ∨
   w.(transaction_).(WriteTxn.vmoid_) = VMOID_INVALID ∧ Forall (in_region b) w.(transaction_).(WriteTxn.operations_)) →
  ∃ q' t, EnqueueEntry info_vmo_ s w = Returns (ZX_OK, set_queue s q' s.(s_store)) ∧ queue_of_ok b q' ∧ same_vmo s.(s_queue).(buffer_) q'.(buffer_) ∧
    q'.(work_queue_) = s.(s_queue).(work_queue_) ++ [with_transaction w t].
Proof.
  intros b Hq Hw. pose proof Hq as [(base & ps & Hok) Hvmo [Hid Hne] _ _ [Hcap Hk]]. pose proof Hok as [_ (Hk0 & _) _ _].
  assert (∃ t, ValidateTransaction b w.(transaction_) = Returns t ∧ t.(WriteTxn.vmoid_) = b.(b_vmoid) ∧ inside b t.(WriteTxn.operations_)) as (t & Et & Htid & Htin).
  { unfold ValidateTransaction, IsBuffered, CheckBuffer. destruct Hw as [[Hi Hin]|[Hi Hr]]; rewrite Hi.
    - rewrite (proj2 (Z.eqb_neq _ _) Hid), Z.eqb_refl. cbn [negb ZX_DEBUG_ASSERT mbind outcome_bind]. by exists w.(transaction_).
    - cbn [Z.eqb VMOID_INVALID negb]. assert (forallb (λ o, vmo o =? b_vmo b) (WriteTxn.operations_ (transaction_ w)) = true) as ->.
      { apply forallb_forall. intros o Ho%list_elem_of_In. apply Z.eqb_eq. by apply (proj1 (Forall_forall _ _) Hr o Ho). }
      unfold SetBuffer. cbn [ZX_DEBUG_ASSERT mbind outcome_bind WriteTxn.vmoid_ Z.eqb VMOID_INVALID orb]. rewrite (proj2 (Z.eqb_neq _ _) Hid).
      cbn [negb ZX_DEBUG_ASSERT mbind outcome_bind]. eexists. split; [done|]. split; [done|]. cbn [WriteTxn.operations_]. apply Forall_map.
      eapply Forall_impl; [exact (region_inside b _ ltac:(lia) Hr)|]. intros o Ho. exact Ho. }
  unfold EnqueueEntry. fold b. rewrite Et. cbn [mbind outcome_bind].
  destruct (Enqueue_live (dev.(per_block)) (info_vmos info_vmo_ s) s.(s_queue) base ps (with_transaction w t) t.(WriteTxn.operations_) Hok) as (q' & E & Hq' & Hbuf); cbn [transaction_ with_transaction].
  - by rewrite Htid.
  - by rewrite Htid.
  - done.
  - eapply Forall_impl; [exact Htin|]. intros o [Ho Hoc]. split; [done|]. destruct Ho as (_ & ? & _ & ? & _). nia.
  - rewrite E. cbn [mbind outcome_bind]. destruct (Queue_Enqueue_pushes _ _ _ _ _ E) as [t' Ht']. exists q', t'. split; [done|].
    split; [eapply queue_of_ok_next; [exact Hq|by eauto|by rewrite Hbuf]|]. split; [by rewrite Hbuf|]. rewrite Ht'. by destruct w.
Qed.

(** ** Entries and works *)

Lemma lays_app b h lo l1 l2 hi : lays b h lo (l1 ++ l2) hi ↔ ∃ mid, lays b h lo l1 mid ∧ lays b h mid l2 hi.
Proof.
  revert lo. induction l1 as [|[id p] l1 IH]; intros lo; cbn [lays app]; [naive_solver|]. setoid_rewrite IH. naive_solver.
Qed.

(** Entries may change as long as they fit their place. *)
Lemma lays_impl b b' h h' lo l hi :
  (∀ id p e lo hi, (id, p) ∈ l → h !! id = Some e → entry_ok b p e lo hi → ∃ e', h' !! id = Some e' ∧ entry_ok b' p e' lo hi) →
  lays b h lo l hi → lays b' h' lo l hi.
Proof.
  revert lo. induction l as [|[id p] l IH]; intros lo Himp; cbn [lays]; [done|]. intros (e & mid & He & Hm & Hok & Hl).
  destruct (Himp id p e lo mid) as (e' & He' & Hok'); [by left|done|done|]. exists e', mid. split_and!; [done|done|done|]. apply IH; [|done]. intros. eapply Himp; [by right|done|done].
Qed.

Lemma lays_le b h lo l hi : lays b h lo l hi → lo ≤ hi.
Proof. revert lo. induction l as [|[id p] l IH]; intros lo; cbn [lays]; [lia|]. intros (e & mid & _ & Hm & _ & Hl%IH). lia. Qed.

Lemma lays_in b h lo l hi id : lays b h lo l hi → id ∈ map fst l → ∃ p e lo' hi', (id, p) ∈ l ∧ h !! id = Some e ∧ entry_ok b p e lo' hi'.
Proof.
  revert lo. induction l as [|[id' p] l IH]; intros lo; cbn [lays map]; [by intros _ ?%not_elem_of_nil|].
  intros (e & mid & He & _ & Hok & Hl) [->|Hin]%elem_of_cons; [exists p, e, lo, mid; split_and!; [by left|done|done]|].
  destruct (IH _ Hl Hin) as (p' & e' & lo' & hi' & ? & ? & ?). exists p', e', lo', hi'. split_and!; [by right|done|done].
Qed.

Lemma inside_same b b' ops : same_vmo b b' → inside b ops → inside b' ops.
Proof. intros (_ & _ & Hc) Hin. unfold inside. by rewrite Hc. Qed.

Lemma is_sync_same b b' e : same_vmo b b' → is_sync b e → is_sync b' e.
Proof. intros (_ & _ & Hc). unfold is_sync. by rewrite Hc. Qed.

Lemma entry_ok_same b b' l e lo hi : same_vmo b b' → entry_ok b l e lo hi → entry_ok b' l e lo hi.
Proof.
  intros Hs [[? ?]|[Hp Hl]]; [left; split; [done|by eapply is_sync_same]|right]. pose proof Hs as (_ & Hid & Hc). rewrite Hc. split; [done|].
  assert (has_work b e → has_work b' e) as Hw by (intros (w & ? & ? & ? & Hv & ?); exists w; rewrite Hid; split_and!; try done; by eapply inside_same).
  destruct l; naive_solver.
Qed.

Lemma result_of_work H h w id : work_ok H h w → result_of w = Some id → called_back H h w id.
Proof.
  unfold result_of. intros [[_ Hc]|(id' & cs & -> & _ & Hcb)]; [|by intros [= <-]].
  destruct (sync_cb_ w) as [|cb cs]; [done|]. apply Forall_cons in Hc as [[c ->] _]. done.
Qed.

Lemma works_called H h works id : Forall (work_ok H h) works → id ∈ omap result_of works → ∃ e, h !! id = Some e ∧ (e.(status_) = EkInit ∨ e.(status_) = EkWaiting).
Proof.
  intros Hw (w & Hin & Hr)%list_elem_of_omap. pose proof (proj1 (Forall_forall _ _) Hw w Hin) as Hok.
  destruct (result_of_work _ _ _ _ Hok Hr) as (e & He & Hc). exists e. naive_solver.
Qed.

(** What a change of entries must keep for the works that call them back. *)
Definition still_called (h h' : gmap nat Entry) (id : nat) : Prop :=
  ∀ e, h !! id = Some e → ∃ e', h' !! id = Some e' ∧ e'.(work_) = e.(work_) ∧
    (e'.(status_) = e.(status_) ∨ e.(status_) = EkInit ∧ e'.(status_) = EkWaiting).

Lemma still_called_same h h' id : h' !! id = h !! id → still_called h h' id.
Proof. intros E e He. exists e. rewrite E. auto. Qed.

Lemma works_mono H H' h h' works :
  (∀ w, w ∈ H → w ∈ H') → (∀ id, id ∈ omap result_of works → still_called h h' id) → Forall (work_ok H h) works → Forall (work_ok H' h') works.
Proof.
  intros HH Hh Hw. apply Forall_forall. intros w Hin. pose proof (proj1 (Forall_forall _ _) Hw w Hin) as Hok.
  destruct Hok as [Hp|(id & cs & Hs & Hc & e & He & Hcb)]; [by left|right]. exists id, cs. split_and!; [done|done|].
  destruct (Hh id ltac:(apply list_elem_of_omap; exists w; unfold result_of; by rewrite Hs) e He) as (e' & He' & Hwk & Hst). exists e'. split; [done|]. rewrite Hwk.
  destruct Hcb as [(Hr & Hst0 & Hsome)|(Hr & Hst0 & Hnone & w' & Hj & Hj2)]; [left|right].
  - split_and!; [done| |done]. destruct Hst as [->|[_ ->]]; auto.
  - split_and!; [done|destruct Hst as [->|[Hi _]]; congruence|done|]. exists w'. auto.
Qed.

(** ** The write-back thread *)

Lemma call_clients H s status cbs : clients cbs → invariant H s → ∃ s', call_all s status cbs = Returns s' ∧ invariant H s'.
Proof.
  intros Hc. revert s. induction Hc as [|cb cbs [c ->] _ IH]; intros s Hs; cbn [call_all]; [by eauto|]. cbn [mbind outcome_bind]. apply IH.
  destruct Hs. by constructor.
Qed.

Lemma ordered_app H w : ordered H → (∀ id, writes_data id w → journaled H id) → ordered (H ++ [w]).
Proof.
  intros Ho Hw k w' id Hk Hd. apply lookup_app_Some in Hk as [Hk|[Hge Hk]].
  - destruct (Ho k w' id Hk Hd) as (k' & w'' & ? & ? & ?). exists k', w''. split_and!; [done|by apply lookup_app_l_Some|done].
  - destruct (k - length H)%nat eqn:E; [|done]. injection Hk as <-. destruct (Hw id Hd) as (w'' & (k' & Hk')%list_elem_of_lookup & ?).
    pose proof (lookup_lt_Some _ _ _ Hk'). exists k', w''. split_and!; [lia|by apply lookup_app_l_Some|done].
Qed.

Lemma writes_data_of H h w id : work_ok H h w → writes_data id w → journaled H id.
Proof.
  intros [[_ Hc]|(id' & cs & Hs & Hc & e & He & Hcb)] [Hr Hin].
  - exfalso. apply (proj1 (Forall_forall _ _) Hc) in Hin as [c Hin]. done.
  - rewrite Hs in Hin. apply elem_of_cons in Hin as [[= ->]|Hin].
    + destruct Hcb as [(? & _)|(_ & _ & _ & ?)]; [congruence|done].
    + exfalso. apply (proj1 (Forall_forall _ _) Hc) in Hin as [c Hin]. done.
Qed.

(** The entry of a work that is completed is persisted. *)
Lemma control_persisted s id e : control s → (∃ lo hi, lays s.(s_entries) s.(heap) lo (line s) hi) → s.(heap) !! id = Some e → e.(status_) = EkWaiting →
  control (update_entry s id (with_status e EkPersisted)).
Proof.
  intros Hc (lo & hi & Hl) He Hst.
  assert (∀ c st, observed s c st → observed (update_entry s id (with_status e EkPersisted)) c st) as Hobs.
  { intros c st (id' & rest & e' & Hq & He' & Hs). destruct (decide (id' = id)) as [->|Hne].
    - exists id, rest, (with_status e EkPersisted). split_and!; [by destruct c|apply lookup_insert_eq|]. left. naive_solver.
    - exists id', rest, e'. split_and!; [by destruct c|cbn [heap update_entry set_heap]; by rewrite lookup_insert_ne|done]. }
  unfold control in *. cbn [proc pc update_entry set_heap] in *. destruct (pc s) as [|id' st| |[]|[] st| | |] eqn:Epc; try exact Hc.
  2: { destruct Hc as (H1 & H2 & H3 & H4). split_and!; [exact H1|exact H2|exact H3|by apply Hobs]. }
  2: { destruct Hc as (H1 & H2 & H3 & H4 & H5). split_and!; [exact H1|exact H2|exact H3|exact H4|by apply Hobs]. }
  2: { destruct Hc as (H1 & H2 & H3 & H4). split_and!; [exact H1|exact H2|exact H3|by apply Hobs]. }
  destruct Hc as (? & ? & ? & e' & He' & Hs). split_and!; [done..|]. exists e'. split; [|done]. cbn [heap update_entry set_heap]. rewrite lookup_insert_ne; [done|]. intros ->.
  unfold line in Hl. apply lays_app in Hl as (? & _ & Hl). apply lays_app in Hl as (? & _ & Hl). unfold current in Hl. rewrite Epc in Hl. cbn [app map lays] in Hl.
  destruct Hl as (e2 & ? & He2 & _ & [[_ [Hsy _]]|[_ [Hi _]]] & _); congruence.
Qed.

Lemma journaled_mono H w id : journaled H id → journaled (H ++ [w]) id.
Proof. intros (x & Hx & ?). exists x. split; [apply elem_of_app; by left|done]. Qed.

Lemma applied_mono H w id : applied H id → applied (H ++ [w]) id.
Proof. intros (x & Hx & ?). exists x. split; [apply elem_of_app; by left|done]. Qed.

Lemma kept_impl H h h' : (∀ id e, h !! id = Some e → e.(status_) ≠ EkSync → applied H id ∨ ∃ e', h' !! id = Some e' ∧ e'.(status_) ≠ EkSync) → kept H h → kept H h'.
Proof. intros Hh Hk id [?|(e & He & Hst)]%Hk; [by left|by eapply Hh]. Qed.

Lemma kept_insert H h id e e' : h !! id = Some e → (e'.(status_) = EkSync → e.(status_) = EkSync) → kept H h → kept H (<[id := e']> h).
Proof.
  intros He Hst. apply kept_impl. intros id2 e2 He2 Hst2. right. destruct (decide (id2 = id)) as [->|]; [|exists e2; by rewrite lookup_insert_ne].
  exists e'. split; [apply lookup_insert_eq|]. intros ?. apply Hst2. rewrite He in He2. injection He2 as <-. auto.
Qed.

(** A work is completed that calls no entry back. *)
Lemma invariant_pop H s w rest q st : invariant H s → s.(s_queue).(work_queue_) = w :: rest → queue_of_ok s.(s_entries) q → same_vmo s.(s_queue).(buffer_) q.(buffer_) →
  q.(work_queue_) = rest → invariant (H ++ [w]) (set_queue s q st).
Proof.
  intros [[Hb Hbq] Ho ? ? Hw Hr ? ? ? Hwr ?] Ew Hq (V1 & V2 & V3) Erest. rewrite Ew in Hw, Hr. apply Forall_cons in Hw as [Hw1 Hw].
  assert (NoDup (omap result_of rest)) as Hr' by (cbn in Hr; destruct (result_of w); [by apply NoDup_cons in Hr as [_ Hr]|done]).
  constructor; cbn [s_entries s_queue set_queue heap s_state proc pc next_id]; try done.
  - destruct Hbq as (E1 & E2 & E3). split; [done|]. split_and!; congruence.
  - apply ordered_app; [done|]. intros id. by eapply writes_data_of.
  - rewrite Erest. eapply works_mono; [|intros id _; by apply still_called_same|exact Hw]. intros x Hx. apply elem_of_app. by left.
  - by rewrite Erest.
  - destruct Hwr as [Hp Hk]. split.
    + intros id e He Hs. specialize (Hp id e He Hs). destruct (work_ e); [by apply journaled_mono|by apply applied_mono].
    + intros id (x & [Hx|Hx]%elem_of_app & Hwe); [destruct (Hk id) as [?|?]; [by exists x|left; by apply applied_mono|by right]|]. apply list_elem_of_singleton in Hx as ->.
      right. destruct Hwe as [Hrd Hin]. destruct Hw1 as [[? _]|(id' & cs & _ & _ & e & He & [(Hrd' & Hst & _)|(? & _)])]; [congruence| |congruence].
      rewrite Hrd in Hrd'. injection Hrd' as <-. exists e. split; [done|]. destruct Hst; congruence.
Qed.

(** The entry of the work that was completed, which waits for it, is persisted. *)
Lemma invariant_persisted H s w id e : invariant (H ++ [w]) s → s.(heap) !! id = Some e → e.(status_) = EkWaiting → id ∉ omap result_of s.(s_queue).(work_queue_) →
  Result id ∈ w.(sync_cb_) → (w.(ready_cb_) = Some (Ready id) ∧ is_Some e.(work_) ∨ w.(ready_cb_) = None ∧ e.(work_) = None) →
  invariant (H ++ [w]) (set_state (update_entry s id (with_status e EkPersisted)) kRunning true).
Proof.
  intros Hs He Hst Hnin Hin Hcase. pose proof Hs as [? ? [? ?] ? Hw ? [? Hids] (base & Hb & Hl) Hsy Hwr Hc].
  constructor; cbn [s_entries s_queue set_state update_entry set_heap heap s_state proc pc next_id]; try done.
  - eapply works_mono; [done| |exact Hw]. intros id' Hid'. apply still_called_same. rewrite lookup_insert_ne; [done|]. by intros ->.
  - split; [done|]. intros id' Hid'. apply Hids. destruct (decide (id' = id)) as [->|]; [by eexists|by rewrite lookup_insert_ne in Hid'].
  - exists base. split; [done|]. change (held _) with (held s). change (line _) with (line s). eapply lays_impl; [|exact Hl]. intros id' p e' lo hi _ He' Hok.
    destruct (decide (id' = id)) as [->|]; [|exists e'; by rewrite lookup_insert_ne]. exists (with_status e EkPersisted). split; [apply lookup_insert_eq|].
    assert (e' = e) as -> by congruence. destruct Hok as [[_ [Hsync _]]|[Hp Hok]]; [congruence|right]. split; [done|]. destruct p; [destruct Hok; congruence|..]; split; (apply Hok || by right).
  - eapply Forall_impl; [exact Hsy|]. intros id' (e' & He' & Hsync). exists e'. split; [|done]. rewrite lookup_insert_ne; [done|]. intros ->. destruct Hsync. congruence.
  - split; [|eapply kept_insert; [exact He|done|apply Hwr]]. intros id' e' He' Hs'. destruct (decide (id' = id)) as [->|]; [|rewrite lookup_insert_ne in He' by done; by apply Hwr].
    rewrite lookup_insert_eq in He'. injection He' as <-. cbn [work_ with_status]. assert (w ∈ H ++ [w]) as HwH by (apply elem_of_app; right; by left).
    destruct Hcase as [[Hr [x ->]]|[Hr ->]]; by exists w.
  - change (control (update_entry s id (with_status e EkPersisted))). apply control_persisted; [done|by eauto|done|done].
Qed.

Lemma writeback_step_ok H s : invariant H s →
  ∃ r, writeback_step dev s = Returns r ∧ invariant (H ++ completes RunWriteback s r) (default s r).
Proof.
  intros Hs. pose proof Hs as [? ? [Hrun _] Hq Hw Hr _ _ _ _ _]. pose proof Hq as [(base & ps & Hok) _ _ _ _ _]. pose proof (qk_state _ _ _ _ Hok) as Hst.
  unfold writeback_step. destruct (work_queue_ (s_queue s)) as [|w rest] eqn:Ew.
  { exists None. unfold ready_exists, WritebackThread. rewrite Ew. cbn [ZX_ASSERT mbind outcome_bind completes default]. by rewrite app_nil_r. }
  apply Forall_cons in Hw as [Hw1 _].
  assert (ready_exists s = true) as ->.
  { unfold ready_exists. rewrite Ew. destruct (ready_cb_ w) as [[id| |]|] eqn:Er; try done. apply orb_true_iff. right. apply bool_decide_eq_true.
    destruct Hw1 as [[? _]|(id' & cs & _ & _ & e & He & [(Hr' & _)|(Hr' & _)])]; [congruence|rewrite Hr' in Er; injection Er as <-; by eexists|congruence]. }
  cbn [ZX_ASSERT mbind outcome_bind]. destruct (fst (IsReady (is_waiting s) w)) eqn:Erdy.
  2: { exists None. unfold WritebackThread, IsReadOnly. rewrite Ew, Hst, bool_decide_false by done. destruct (IsReady (is_waiting s) w) as [[] w']; [done|].
       cbn [negb mbind outcome_bind completes default]. by rewrite app_nil_r. }
  destruct ps as [|p ps]; [pose proof (keeps_all_length _ _ _ _ _ _ (qk_works _ _ _ _ Hok)) as Hlen; by rewrite Ew in Hlen|].
  destruct (Thread_ok _ dev (attached_vmos s) (is_waiting s) (s_queue s) (s_store s) base p ps Hok eq_refl (Hdev _)) as (q' & base' & w' & rest' & Ew' & -> & Erest & Hq' & Hsame).
  { intros w' rest' Ew'. rewrite Ew in Ew'. by injection Ew' as <- <-. }
  rewrite Ew in Ew'. injection Ew' as <- <-. cbn [mbind outcome_bind]. match goal with |- context [set_queue s q' ?x] => set (st' := x) end.
  pose proof (invariant_pop H s w rest q' st' Hs Ew (queue_of_ok_next _ _ _ Hq (ex_intro _ base' (ex_intro _ ps Hq')) Hsame) Hsame Erest) as Hs1.
  assert (∃ s', call_all (set_queue s q' st') ZX_OK (sync_cb_ w) = Returns s' ∧ invariant (H ++ [w]) s') as (s' & -> & Hs').
  { destruct Hw1 as [[_ Hc]|(id & cs & Hsync & Hc & e & He & Hcb)]; [by apply call_clients|]. rewrite Hsync. cbn [call_all].
    assert (e.(status_) = EkWaiting) as Hwait.
    { destruct Hcb as [(Hrc & _)|(_ & ? & _)]; [|done]. unfold IsReady in Erdy. rewrite Hrc in Erdy. cbn [is_waiting] in Erdy. rewrite He in Erdy.
      by destruct (bool_decide_reflect (status_ e = EkWaiting)). }
    unfold ProcessEntryResult, SetStatusFromResult, SetStatus, entry_at, SendSignalLocked. change (heap (set_queue s q' st')) with (heap s). rewrite He, failed_ok.
    cbn [mbind outcome_bind]. rewrite Hwait, bool_decide_true by done. cbn [ZX_DEBUG_ASSERT ZX_ASSERT mbind outcome_bind].
    change (s_state (update_entry _ _ _)) with (s_state s). rewrite Hrun, (bool_decide_false (kRunning = kReadOnly)) by done. cbn [negb ZX_ASSERT mbind outcome_bind].
    apply call_clients; [done|]. apply (invariant_persisted H (set_queue s q' st') w id e Hs1); [done|done| |rewrite Hsync; by left|].
    - cbn [s_queue set_queue]. rewrite Erest. cbn in Hr. unfold result_of in Hr at 1. rewrite Hsync in Hr. by apply NoDup_cons in Hr as [? _].
    - destruct Hcb as [(? & _ & ?)|(? & _ & ? & _)]; [by left|by right]. }
  cbn [mbind outcome_bind]. exists (Some s'). split; [done|]. cbn [completes default]. by rewrite Ew.
Qed.

(** ** The clients *)

(** What clients may ask for. *)
Definition valid (a : action) : Prop :=
  match a with
  | Submit v header commit w =>
    let ops := w.(transaction_).(WriteTxn.operations_) in
    length header = kHeaderWords ∧ length commit = kCommitWords ∧ w.(ready_cb_) = None ∧ clients w.(sync_cb_) ∧
    w.(transaction_).(WriteTxn.vmoid_) = VMOID_INVALID ∧ Forall (copyable v b0) ops ∧ w.(transaction_).(WriteTxn.block_count_) = blocks ops ∧
    blocks ops ≤ kMaxEntryDataBlocks ∧ blocks ops + 2 < b_capacity b0
  | SubmitData v w =>
    w.(ready_cb_) = None ∧ clients w.(sync_cb_) ∧ w.(transaction_).(WriteTxn.vmoid_) = VMOID_INVALID ∧
    Forall (copyable v bq0) w.(transaction_).(WriteTxn.operations_) ∧
    w.(transaction_).(WriteTxn.block_count_) = blocks w.(transaction_).(WriteTxn.operations_) ∧
    blocks w.(transaction_).(WriteTxn.operations_) ≤ b_capacity bq0
  | _ => True
  end.

(** The system after an entry was submitted. *)
Definition submitted s (b : Buffer) e (q : WritebackQueue callback) : System := {|
  s_entries := b; s_info := s.(s_info); s_state := s.(s_state); consumer_signalled_ := true; heap := <[s.(next_id) := e]> s.(heap);
  next_id := S s.(next_id); s_work_queue := s.(s_work_queue) ++ [s.(next_id)]; s_queue := q; s_store := s.(s_store); s_clock := S s.(s_clock);
  proc := s.(proc); pc := s.(pc); called := s.(called) |}.

Lemma fresh_id H s : invariant H s → s.(heap) !! s.(next_id) = None.
Proof.
  intros [_ _ _ _ _ _ [_ Hids] _ _ _ _]. destruct (heap s !! next_id s) eqn:E; [|done]. exfalso. destruct (Hids (next_id s) ltac:(by eexists)). lia.
Qed.

Lemma control_submit s b e q : control s → s.(heap) !! s.(next_id) = None → same_vmo s.(s_entries) b → control (submitted s b e q).
Proof.
  intros Hc Hf (V1 & _ & V3).
  assert (∀ id e', heap s !! id = Some e' → <[next_id s := e]> (heap s) !! id = Some e') as Hh by (intros id e' He'; rewrite lookup_insert_ne; [done|intros <-; congruence]).
  assert (∀ c st, observed s c st → observed (submitted s b e q) c st) as Hobs.
  { intros c st (id & rest & e' & ? & ? & ?). exists id, rest, e'. split_and!; [by destruct c|by apply Hh|done]. }
  assert (clears s → clears (submitted s b e q)) as Hcl.
  { intros Hcl w Hw. destruct (Hcl w Hw) as (? & ? & ? & Hr). split_and!; try done. cbn [s_entries submitted]. eapply Forall_impl; [exact Hr|]. intros o. unfold in_region. by rewrite V1, V3. }
  unfold control in *. cbn [proc pc submitted]. destruct (pc s) as [|id' st| |[]|[] st| | |] eqn:Epc; try exact Hc.
  - destruct Hc as (H1 & H2 & H3 & e' & He' & Hs). split_and!; [exact H1|exact H2|exact H3|]. exists e'. split; [by apply Hh|done].
  - destruct Hc as (H1 & H2 & H3 & H4). split_and!; [exact H1|by apply Hcl|exact H3|exact H4].
  - destruct Hc as (H1 & H2 & H3 & H4). split_and!; [exact H1|exact H2|exact H3|by apply Hobs].
  - destruct Hc as (H1 & H2 & H3 & H4 & H5). split_and!; [exact H1|by apply Hcl|exact H3|exact H4|by apply Hobs].
  - destruct Hc as (H1 & H2 & H3 & H4). split_and!; [exact H1|exact H2|exact H3|by apply Hobs].
  - destruct Hc as (H1 & H2 & H3 & H4). split_and!; [exact H1|by apply Hcl|exact H3|exact H4].
  - destruct Hc as (H1 & H2). split_and!; [exact H1|by apply Hcl].
Qed.

Lemma line_submit s b e q : line (submitted s b e q) = line s ++ [(s.(next_id), InWork)].
Proof. unfold line, current. cbn [proc pc s_work_queue submitted]. by rewrite app_assoc, !map_app, <- !app_assoc. Qed.

Lemma invariant_submit H s base b e q works : invariant H s → buffer_ok b base → same_vmo s.(s_entries) b →
  lays s.(s_entries) s.(heap) (base + held s) (line s) (base + s.(s_entries).(b_length)) → s.(s_entries).(b_length) ≤ b.(b_length) →
  entry_ok b InWork e (base + s.(s_entries).(b_length)) (base + b.(b_length)) → queue_of_ok b q → same_vmo s.(s_queue).(buffer_) q.(buffer_) →
  q.(work_queue_) = s.(s_queue).(work_queue_) ++ works →
  (works = [] ∨ ∃ w, works = [w] ∧ w.(ready_cb_) = Some (Ready s.(next_id)) ∧ w.(sync_cb_) = [Result s.(next_id)] ∧ e.(status_) = EkInit ∧ is_Some e.(work_)) →
  invariant H (submitted s b e q).
Proof.
  intros Hs Hb Hsame Hl Hle He Hq (V1 & V2 & V3) Ew Hworks. pose proof (fresh_id _ _ Hs) as Hf.
  pose proof Hs as [[(B1 & B2 & B3) (Q1 & Q2 & Q3)] ? ? _ Hw Hr [Hnd Hids] _ Hsy Hwr Hc]. pose proof Hsame as (W1 & W2 & W3).
  assert (∀ id e', heap s !! id = Some e' → <[next_id s := e]> (heap s) !! id = Some e') as Hh by (intros id e' He'; rewrite lookup_insert_ne; [done|intros <-; congruence]).
  assert (Forall (work_ok H (<[next_id s := e]> (heap s))) (work_queue_ (s_queue s))) as Hw'.
  { eapply works_mono; [done| |exact Hw]. intros id _ e' He'. exists e'. auto. }
  assert (∀ id, id ∈ omap result_of (work_queue_ (s_queue s)) → id ≠ next_id s) as Hne by (intros id (e' & He' & _)%(works_called _ _ _ _ Hw) ->; congruence).
  constructor; cbn [s_entries s_queue s_state proc next_id heap submitted]; try done.
  - split; split_and!; congruence.
  - rewrite Ew. apply Forall_app. split; [done|]. destruct Hworks as [->|(w & -> & Hr1 & Hs1 & Hst & Hwk)]; [done|]. apply Forall_singleton. right. exists (next_id s), []. split_and!; [done|constructor|].
    exists e. split; [apply lookup_insert_eq|]. left. split_and!; [done|by left|done].
  - rewrite Ew, omap_app. destruct Hworks as [->|(w & -> & Hr1 & Hs1 & _)]; [cbn; by rewrite app_nil_r|]. cbn. unfold result_of at 2. rewrite Hs1. apply NoDup_app.
    split_and!; [done|intros id Hid ->%list_elem_of_singleton; by apply (Hne _ Hid)|apply NoDup_singleton].
  - assert (next_id s ∉ map fst (line s) ++ sync_queue_ (proc s)) as Hnin.
    { intros [Hin|Hin]%elem_of_app; [destruct (lays_in _ _ _ _ _ _ Hl Hin) as (? & e' & _ & _ & _ & ? & _); congruence|].
      apply (proj1 (Forall_forall _ _) Hsy) in Hin as (e' & ? & _). congruence. }
    split.
    + rewrite line_submit, map_app, <- app_assoc. cbn [map app fst]. rewrite <- Permutation_middle. by apply NoDup_cons.
    + rewrite line_submit, map_app. intros id [e' He']. rewrite !elem_of_app. destruct (decide (id = next_id s)) as [->|]; [split; [lia|left; right; by left]|].
      rewrite lookup_insert_ne in He' by done. destruct (Hids id ltac:(by eexists)) as [? Hin%elem_of_app]. split; [lia|]. destruct Hin; auto.
  - exists base. split; [done|]. rewrite line_submit. apply lays_app. exists (base + b_length (s_entries s)). change (held (submitted s b e q)) with (held s). split.
    + eapply lays_impl; [|exact Hl]. intros id p e' lo hi _ He' Hok. exists e'. split; [by apply Hh|]. by eapply entry_ok_same.
    + cbn [lays]. exists e, (base + b_length b). split_and!; [apply lookup_insert_eq|lia|done|done].
  - eapply Forall_impl; [exact Hsy|]. intros id (e' & He' & Hsync). exists e'. split; [by apply Hh|by eapply is_sync_same].
  - split; [|eapply kept_impl; [|apply Hwr]; intros id e' He' ?; right; exists e'; auto]. intros id e' He' Hst. destruct (decide (id = next_id s)) as [->|]; [|rewrite lookup_insert_ne in He' by done; by apply Hwr].
    rewrite lookup_insert_eq in He'. injection He' as <-. destruct He as [[_ [Hx _]]|[_ [Hx _]]]; congruence.
  - by apply control_submit.
Qed.

Lemma copyable_none (v : Vmos block) b ops : Forall (copyable v b) ops → blocks ops = 0 → ops = [].
Proof.
  intros Hc Hz. destruct Hc as [|o ops ((_ & _ & _ & Hl & _) & _) Hc]; [done|]. pose proof (copyable_blocks _ _ _ Hc). cbn [blocks foldr] in Hz. unfold blocks in *. lia.
Qed.

Lemma chained_inside b v os v' : chained (b_capacity b) v os v' → inside b os.
Proof. revert v. induction os as [|o os IH]; intros v; cbn [chained]; [constructor|]. intros (_ & Hf & Hc & H). constructor; [done|by eapply IH]. Qed.

(** A work without blocks. *)
Lemma submit_sync H s v header commit w : invariant H s → valid (Submit v header commit w) → blocks w.(transaction_).(WriteTxn.operations_) = 0 →
  ∃ s', Enqueue_step ticks start_block info_vmo_ v header commit w s = Returns (Some (ZX_OK, s')) ∧ invariant H s'.
Proof.
  intros Hs (_ & _ & Hr & Hcl & Hid & Hops & Hcnt & _ & _) Hz. pose proof Hs as [_ _ [Hrun _] Hq _ _ _ (base & Hb & Hl) _ _ _].
  unfold Enqueue_step, IsBuffered, BlkCount. rewrite Hid, Hcnt, Hz, Hrun, !(bool_decide_false (kRunning = kReadOnly)) by done.
  cbn [Z.eqb VMOID_INVALID negb ZX_DEBUG_ASSERT mbind outcome_bind]. unfold CreateEntry, NewJournalEntry, BlkCount. rewrite Hcnt, Hz. cbn [Z.eqb].
  rewrite (bool_decide_false (EkSync = EkInit)), (bool_decide_true (EkSync = EkSync)) by done. cbn [negb orb ZX_DEBUG_ASSERT mbind outcome_bind status_].
  rewrite (bool_decide_false (EkSync = EkInit)) by done. cbn [mbind outcome_bind]. unfold SendSignalLocked. rewrite failed_ok. change (s_state (set_work_queue _ _ _)) with (s_state s).
  rewrite Hrun, (bool_decide_false (kRunning = kReadOnly)) by done. cbn [negb ZX_ASSERT mbind outcome_bind]. eexists. split; [done|].
  set (e := {| status_ := EkSync |}). rewrite <- Hrun.
  apply (invariant_submit H s base s.(s_entries) e s.(s_queue) []); try done; [|by rewrite app_nil_r|by left].
  left. split; [done|]. split_and!; try done. exists w. split_and!; try done. by eapply copyable_none.
Qed.

Lemma buffer_ok_copied b base data len : buffer_ok b base → length data = length b.(b_data) → 0 ≤ len ≤ b_capacity b →
  buffer_ok (with_used (with_data b data) b.(b_start) len) base ∧ same_vmo b (with_used (with_data b data) b.(b_start) len).
Proof.
  intros [? ? ? ? ?] Hl Hlen. assert (b_capacity (with_used (with_data b data) (b_start b) len) = b_capacity b) as Hc by (unfold b_capacity; cbn; by rewrite Hl).
  split; [|by split_and!]. constructor; rewrite ?Hc; done.
Qed.

Lemma PrepareWork_ok s id e lo hi : let b := s.(s_entries) in
  queue_of_ok b s.(s_queue) → 0 ≤ lo → placed (b_capacity b) e lo hi →
  ∃ w, PrepareWork start_block s id e = Returns (Some w) ∧ w.(ready_cb_) = Some (Ready id) ∧ w.(sync_cb_) = [Result id] ∧
    w.(transaction_).(WriteTxn.vmoid_) = VMOID_INVALID ∧ Forall (in_region b) w.(transaction_).(WriteTxn.operations_).
Proof.
  intros b [_ Hvmo _ _ _ [Hcap _]] Hlo (_ & Hn & Hnc & Ehi & Eci). set (n := je_block_count e) in *. unfold PrepareWork, BlockCount, kEntryMetadataBlocks. fold b n.
  pose proof (mod_ne (b_capacity b) lo (lo + 1 + n) ltac:(lia)) as Hne. pose proof (Z.mod_pos_bound lo (b_capacity b) ltac:(lia)).
  rewrite (proj2 (Z.eqb_neq (commit_index_ e) (header_index_ e))) by congruence. ztest.
  destruct (AddEntryTransaction_region b (header_index_ e) (n + 2)) as (t & -> & Hid & Hr); [done|lia|lia|lia|]. cbn [mbind outcome_bind SetReadyCallback with_transaction NewWork ready_cb_ ZX_DEBUG_ASSERT].
  eexists. split; [done|]. by split_and!.
Qed.

Lemma submit_data H s v header commit w : invariant H s → valid (Submit v header commit w) → 0 < blocks w.(transaction_).(WriteTxn.operations_) →
  ∃ r, Enqueue_step ticks start_block info_vmo_ v header commit w s = Returns r ∧ invariant H (default s (snd <$> r)).
Proof.
  intros Hs (Hlh & Hlc & Hr & Hcl & Hid & Hops & Hcnt & Hmax & Hsmall) Hpos. pose proof Hs as [[(B1 & B2 & B3) _] _ [Hrun _] Hq _ _ _ (base & Hb & Hl) _ _ _].
  set (ops := WriteTxn.operations_ (transaction_ w)) in *. set (n := blocks ops) in *. set (b := s_entries s) in *. set (cap := b_capacity b) in *. rewrite <- B3 in Hsmall.
  pose proof Hb as [Hcap Hbase _ Hlen Hbid]. fold cap in Hcap, Hlen. unfold Enqueue_step, IsBuffered, BlkCount.
  rewrite Hid, Hcnt, Hrun, !(bool_decide_false (kRunning = kReadOnly)), (bool_decide_true (kRunning = kRunning)) by done.
  cbn [Z.eqb VMOID_INVALID negb ZX_DEBUG_ASSERT mbind outcome_bind]. rewrite (proj2 (Z.eqb_neq n 0)) by lia. cbn [negb]. fold b. unfold IsSpaceAvailable, ZX_ASSERT.
  unfold kMaxEntryDataBlocks in *. fold cap. unwrap. ztest. cbn [mbind outcome_bind]. destruct (Z.leb_spec (b_length b + (n + 2)) cap) as [Hfit|Hfit]; cbn [negb mbind outcome_bind]; [|by exists None].
  assert (Forall (copyable v b) ops) as Hops' by (eapply Forall_impl; [exact Hops|]; intros o; by apply copyable_mono).
  destruct (CopyEntry_ok v b base (transaction_ w) Hb Hid Hops' Hcnt ltac:(fold ops n cap; lia)) as (data & os & -> & Hch & _ & Hcd). fold ops n cap in Hch, Hcd |- *.
  cbn [mbind outcome_bind]. set (p := base + b_length b) in *. set (b' := with_used _ _ _). set (t1 := {| WriteTxn.vmoid_ := _ |}).
  destruct (buffer_ok_copied b base data (b_length b + n + 2) Hb (ch_length _ _ _ _ Hch) ltac:(fold cap; lia)) as [Hb' Hsame]. fold b' in Hb', Hsame. pose proof Hsame as (W1 & W2 & W3).
  assert (inside b' os) as Hin by (eapply inside_same; [exact Hsame|by eapply chained_inside]).
  unfold CreateEntry, BlkCount. cbn [transaction_ with_transaction t1 WriteTxn.block_count_]. rewrite (proj2 (Z.eqb_neq n 0)) by lia.
  change (s_state (set_entries s b')) with (s_state s). rewrite Hrun, (bool_decide_false (kRunning = kReadOnly)) by done.
  pose proof (op_targets_length data os cap (p + 1) (p + 1 + n)) as Htl.
  destruct (NewJournalEntry_ok header commit (ticks (s_clock (set_entries s b'))) (p mod cap) ((p + 1 + n) mod cap) (with_transaction w t1) Hlh Hlc (Hticks _))
    as (e & Ee & Ehi & Eci & Enum & Est & Ewk & _).
  { exact Hbid. }
  { eapply Forall_impl; [exact Hin|]. by intros o [? _]. }
  { change (n = Z.of_nat (length (op_targets os))). rewrite Htl; [lia|unfold cap, b_capacity; by rewrite (ch_length _ _ _ _ Hch)|lia|lia|done]. }
  { change (0 < n ≤ 64). lia. }
  change (je_block_count e = n) in Enum. rewrite Ee. cbn [mbind outcome_bind]. rewrite Est, failed_ok, bool_decide_true by done. cbn [negb].
  set (s2 := update_entry _ _ e). assert (placed cap e p (p + n + 2)) as Hpl by (unfold placed; rewrite Enum; split_and!; done || (unfold kMaxEntryDataBlocks; lia)).
  assert (queue_of_ok b' (s_queue s)) as Hq' by (destruct Hq; constructor; rewrite ?W1, ?W2, ?W3; done).
  destruct (PrepareWork_ok s2 (next_id (set_entries s b')) e p (p + n + 2) Hq' ltac:(lia)) as (jw & -> & Hjr & Hjs & Hjid & Hjreg); [change (s_entries s2) with b'; by rewrite W3|].
  cbn [mbind outcome_bind]. destruct (EnqueueEntry_ok s2 jw Hq' (or_intror (conj Hjid Hjreg))) as (q' & t' & -> & Hq2 & Hsq & Hwq). cbn [mbind outcome_bind].
  unfold SendSignalLocked. rewrite failed_ok. change (s_state (set_work_queue _ _ _)) with (s_state s). rewrite Hrun, (bool_decide_false (kRunning = kReadOnly)) by done.
  cbn [negb ZX_ASSERT mbind outcome_bind]. eexists. split; [done|]. cbn [fmap option_fmap option_map snd default]. rewrite <- Hrun.
  apply (invariant_submit H s base b' e q' [with_transaction jw t']); try done.
  - change (b_length b ≤ b_length b + n + 2). lia.
  - right. cbn [b_length b' with_used]. rewrite W3. split; [replace (base + (b_length b + n + 2)) with (p + n + 2) by (unfold p; lia); done|]. split; [done|].
    exists (with_transaction w t1). split_and!; done.
  - right. exists (with_transaction jw t'). by split_and!.
Qed.

Lemma Enqueue_step_ok H s v header commit w : invariant H s → valid (Submit v header commit w) →
  ∃ r, Enqueue_step ticks start_block info_vmo_ v header commit w s = Returns r ∧ invariant H (default s (snd <$> r)).
Proof.
  intros Hs Hv. pose proof Hv as (_ & _ & _ & _ & _ & Hops & _). pose proof (copyable_blocks _ _ _ Hops).
  destruct (decide (blocks w.(transaction_).(WriteTxn.operations_) = 0)) as [Hz|]; [|apply submit_data; [done|done|lia]].
  destruct (submit_sync H s v header commit w Hs Hv Hz) as (s' & -> & Hs'). by exists (Some (ZX_OK, s')).
Qed.

(** A work that calls no entry back is added to the queue. *)
Lemma invariant_push H s q st w : invariant H s → queue_of_ok s.(s_entries) q → same_vmo s.(s_queue).(buffer_) q.(buffer_) →
  q.(work_queue_) = s.(s_queue).(work_queue_) ++ [w] → w.(ready_cb_) = None → clients w.(sync_cb_) → invariant H (set_queue s q st).
Proof.
  intros [[? (Q1 & Q2 & Q3)] ? ? ? Hw Hr ? ? ? ? ?] Hq (V1 & V2 & V3) Eq Hready Hcl. constructor; cbn [s_entries s_queue set_queue heap s_state proc pc next_id]; try done.
  - split; [done|]. split_and!; congruence.
  - rewrite Eq. apply Forall_app. split; [done|]. apply Forall_singleton. by left.
  - rewrite Eq, omap_app. cbn. unfold result_of at 2. destruct Hcl as [|cb cs [c ->] _]; by rewrite app_nil_r.
Qed.

Lemma data_step_ok H s v w : invariant H s → valid (SubmitData v w) → ∃ r, data_step v w s = Returns r ∧ invariant H (default s r).
Proof.
  intros Hs (Hr & Hcl & Hid & Hops & Hcnt & Hmax). pose proof Hs as [[_ (Q1 & Q2 & Q3)] _ _ Hq _ _ _ _ _ _ _]. pose proof Hq as [(base & ps & Hok) _ _ _ _ _].
  assert (Forall (copyable v (buffer_ (s_queue s))) (WriteTxn.operations_ (transaction_ w))) as Hops' by (eapply Forall_impl; [exact Hops|]; intros o; by apply copyable_mono).
  pose proof (Enqueue_copies dev.(per_block) v (s_queue s) base ps w Hok Hid Hops' Hcnt ltac:(lia)) as E. unfold data_step.
  destruct (_ <=? _); [|rewrite E; by exists None]. destruct E as (q' & E & Hq' & Hsame). rewrite E. cbn [mbind outcome_bind]. eexists. split; [done|]. cbn [default].
  destruct (Queue_Enqueue_pushes _ _ _ _ _ E) as [t Et]. eapply invariant_push; [done|eapply queue_of_ok_next; [exact Hq|by eauto|done]|done|exact Et|done|done].
Qed.

(** ** The journal thread: control *)

(** Steps that move no entry. *)
Lemma invariant_control H s s' : invariant H s →
  s'.(s_entries) = s.(s_entries) → s'.(s_state) = s.(s_state) → s'.(heap) = s.(heap) → s'.(next_id) = s.(next_id) → s'.(s_queue) = s.(s_queue) →
  s'.(proc).(error_) = s.(proc).(error_) → line s' = line s → held s' = held s → s'.(proc).(sync_queue_) = s.(proc).(sync_queue_) → control s' → invariant H s'.
Proof.
  intros [? ? ? ? ? ? ? ? ? ? _] E1 E2 E3 E4 E5 E6 E7 E8 E9 Hc. constructor; rewrite ?E1, ?E2, ?E3, ?E4, ?E5, ?E6, ?E7, ?E8, ?E9; done.
Qed.

Lemma SetContext_ok s c : s.(proc).(dummy_) = None → (s.(proc).(context_) = CkSync → s.(proc).(sync_queue_) = []) →
  match c with
  | CkWork => s.(proc).(context_) = CkDefault ∨ s.(proc).(context_) = CkSync
  | CkWait => s.(proc).(context_) ≠ CkDelete ∧ s.(proc).(context_) ≠ CkWait
  | CkDelete => s.(proc).(context_) = CkWait
  | CkSync => s.(proc).(context_) = CkDelete
  | CkDefault => False
  end → SetContext s c = Returns (with_context s c).
Proof.
  intros Hd Hsync Hc. unfold SetContext. rewrite Hd. destruct (context_ (proc s)) eqn:E, c;
    first [discriminate Hc|destruct Hc as [Hc|Hc]; discriminate Hc|by destruct Hc|idtac]; rewrite ?(Hsync eq_refl); reflexivity.
Qed.

Lemma journal_work_pop H s id rest : invariant H s → s.(pc) = PcWork → s.(s_work_queue) = id :: rest →
  ∃ s', journal_step crc32 ticks start_block info_vmo_ s = Returns (Some s') ∧ invariant H s'.
Proof.
  intros Hs Epc Eq. pose proof Hs as [_ _ _ _ _ _ _ (base & _ & Hl) _ _ Hc]. unfold control in Hc. rewrite Epc in Hc. destruct Hc as [Hc Hsy].
  assert (∃ e, heap s !! id = Some e) as [e He].
  { unfold line, current in Hl. rewrite Epc, Eq in Hl. apply lays_app in Hl as (? & _ & Hl). apply lays_app in Hl as (? & _ & Hl). cbn [app map lays] in Hl. naive_solver. }
  unfold journal_step. rewrite Epc, Eq. set (s1 := set_work_queue s (next_id s) rest).
  assert (∃ s2, SetContext s1 CkWork = Returns s2 ∧ (s2 = s1 ∧ s1.(proc).(context_) = CkWork ∨ s2 = with_context s1 CkWork ∧ s1.(proc).(dummy_) = None)) as (s2 & -> & Hs2).
  { destruct Hc as [[Hctx Hd]|[Hctx _]].
    - exists (with_context s1 CkWork). split; [by apply SetContext_ok|by right].
    - exists s1. unfold SetContext. change (context_ (proc s1)) with (context_ (proc s)). rewrite Hctx, bool_decide_true by done. split; [done|by left]. }
  cbn [mbind outcome_bind]. unfold entry_at. assert (heap s2 = heap s) as -> by (destruct Hs2 as [[-> _]|[-> _]]; done). rewrite He. cbn [mbind outcome_bind]. eexists. split; [done|].
  assert (line (set_pc s2 (PcWorkEntry id (status_ e))) = line s) as El.
  { unfold line, current. cbn [pc set_pc proc s_work_queue]. rewrite Epc, Eq. destruct Hs2 as [[-> _]|[-> _]]; done. }
  eapply invariant_control; [exact Hs|destruct Hs2 as [[-> _]|[-> _]]; done..|exact El|cbn; unfold held; rewrite Epc; destruct Hs2 as [[-> _]|[-> _]]; done|destruct Hs2 as [[-> _]|[-> _]]; done|].
  unfold control. cbn [pc set_pc proc heap]. destruct Hs2 as [[-> Hctx]|[-> Hd]].
  - destruct Hc as [[[?|?] _]|[_ Hp]]; [cbn in Hctx; congruence..|]. split_and!; [done|exact Hp|done|by exists e].
  - split_and!; [done|left; exact Hd|done|by exists e].
Qed.

(** ** The journal thread: entries *)

(** The places of an entry. *)
Lemma placed_indices cap e lo hi : 0 < cap → 0 ≤ lo → placed cap e lo hi →
  0 ≤ e.(header_index_) < cap ∧ 0 ≤ e.(commit_index_) < cap ∧ e.(commit_index_) ≠ e.(header_index_) ∧ BlockCount e = hi - lo ∧ 2 < hi - lo.
Proof.
  intros Hcap Hlo (Hhi & Hn & Hnc & Eh & Ec). pose proof (mod_ne cap lo (lo + 1 + je_block_count e) ltac:(lia)) as Hne.
  unfold BlockCount, kEntryMetadataBlocks. rewrite Eh, Ec, (proj2 (Z.eqb_neq _ _) (not_eq_sym Hne)). pose proof (Z.mod_pos_bound lo cap Hcap). pose proof (Z.mod_pos_bound (lo + 1 + je_block_count e) cap Hcap).
  split_and!; congruence || lia.
Qed.

Lemma PrepareBuffer_returns b e lo hi : 0 < b_capacity b ≤ 2 ^ 32 → 0 ≤ lo → placed (b_capacity b) e lo hi →
  ∃ data sum, PrepareBuffer crc32 b e = Returns (with_data b data, SetChecksum e sum) ∧ length data = length b.(b_data).
Proof.
  intros Hcap Hlo Hp. destruct (placed_indices _ _ _ _ (proj1 Hcap) Hlo Hp) as (Hh & Hc & Hne & Hbc & Hpos). unfold PrepareBuffer. rewrite Hbc. ztest.
  rewrite SetBlockAt_ok by lia. cbn [mbind outcome_bind]. set (b1 := with_data b _). assert (b_capacity b1 = b_capacity b) as Hc1 by (unfold b_capacity; cbn; by rewrite length_insert).
  destruct (GenerateChecksum_total crc32 b1 (header_index_ e) (commit_index_ e)) as (sum & -> & _); rewrite ?Hc1; try done; [lia|]. cbn [mbind outcome_bind SetChecksum commit_index_].
  rewrite SetBlockAt_ok by lia. cbn [mbind outcome_bind]. eexists _, sum. split; [done|]. cbn. by rewrite !length_insert.
Qed.

Lemma PrepareDelete_returns b e lo hi t : 0 < b_capacity b ≤ 2 ^ 32 → b.(b_vmo) ≠ ZX_HANDLE_INVALID → 0 ≤ lo → placed (b_capacity b) e lo hi →
  t.(WriteTxn.vmoid_) = VMOID_INVALID → Forall (in_region b) t.(WriteTxn.operations_) →
  ∃ data t', PrepareDelete b start_block e t = Returns (with_data b data, t') ∧ length data = length b.(b_data) ∧
    t'.(WriteTxn.vmoid_) = VMOID_INVALID ∧ Forall (in_region b) t'.(WriteTxn.operations_).
Proof.
  intros Hcap Hvmo Hlo Hp Hid Hr. destruct (placed_indices _ _ _ _ (proj1 Hcap) Hlo Hp) as (Hh & Hc & Hne & Hbc & Hpos). unfold PrepareDelete. rewrite Hbc. ztest.
  rewrite SetBlockAt_ok by lia. cbn [mbind outcome_bind]. set (b1 := with_data b _). assert (b_capacity b1 = b_capacity b) as Hc1 by (unfold b_capacity; cbn; by rewrite length_insert).
  rewrite SetBlockAt_ok by lia. cbn [mbind outcome_bind]. set (b2 := with_data b1 _). assert (b_capacity b2 = b_capacity b) as Hc2 by (rewrite <- Hc1; unfold b_capacity; cbn; by rewrite !length_insert).
  assert (∀ o, in_region b o ↔ in_region b2 o) as Heq by (intros o; unfold in_region; by rewrite Hc2).
  assert (Forall (in_region b2) t.(WriteTxn.operations_)) as Hr2 by (eapply Forall_impl; [exact Hr|]; intros o; apply Heq). unwrap.
  destruct (Enqueue_region b2 t (header_index_ e) 1) as (t1 & -> & Hid1 & Hr1); [done|lia|done|done|lia|lia|lia|]. cbn [mbind outcome_bind].
  destruct (Enqueue_region b2 t1 (commit_index_ e) 1) as (t2 & -> & Hid2 & Hr2'); [done|lia|done|done|lia|lia|lia|]. cbn [mbind outcome_bind].
  eexists _, t2. split; [done|]. cbn. rewrite !length_insert. split_and!; [done|done|]. eapply Forall_impl; [exact Hr2'|]. intros o. apply Heq.
Qed.

Lemma ProcessSyncDefault_ok s id e : s.(heap) !! id = Some e → is_sync s.(s_entries) e → ProcessSyncDefault s id = Returns (PkContinue, s).
Proof.
  intros He (_ & Eh & Ec & _). unfold ProcessSyncDefault, entry_at, BlockCount, no_place. rewrite He. cbn [mbind outcome_bind].
  by rewrite Eh, Ec, !Z.eqb_refl.
Qed.

(** An entry changes, and its place in the line; the others stay. *)
Lemma lays_move b b' h lo l1 id p p' l2 hi e' : same_vmo b b' → NoDup (map fst (l1 ++ (id, p) :: l2)) →
  (∀ e lo hi, h !! id = Some e → entry_ok b p e lo hi → entry_ok b' p' e' lo hi) →
  lays b h lo (l1 ++ (id, p) :: l2) hi → lays b' (<[id := e']> h) lo (l1 ++ (id, p') :: l2) hi.
Proof.
  intros Hsame Hnd He Hl. rewrite map_app in Hnd. cbn [map fst] in Hnd. apply NoDup_app in Hnd as (_ & Hd & [Hn2 _]%NoDup_cons).
  assert (∀ l, id ∉ map fst l → ∀ lo hi, lays b h lo l hi → lays b' (<[id := e']> h) lo l hi) as Hrest.
  { intros l Hnin lo' hi'. apply lays_impl. intros id' p2 e2 lo2 hi2 Hin He2 Hok. exists e2. split; [|by eapply entry_ok_same]. rewrite lookup_insert_ne; [done|].
    intros <-. apply Hnin. apply list_elem_of_fmap. by exists (id, p2). }
  apply lays_app in Hl as (mid & H1 & e & mid2 & Hid & Hle & Hok & H2). apply lays_app. exists mid. split; [apply Hrest; [|done]; intros Hin; apply (Hd id Hin); by left|].
  exists e', mid2. split_and!; [apply lookup_insert_eq|done|by eapply He|by apply Hrest].
Qed.

Lemma invariant_move H s s' id e e' l1 p p' l2 base : invariant H s →
  lays s.(s_entries) s.(heap) (base + held s) (line s) (base + s.(s_entries).(b_length)) → buffer_ok s'.(s_entries) base →
  line s = l1 ++ (id, p) :: l2 → line s' = l1 ++ (id, p') :: l2 → s.(heap) !! id = Some e → s'.(heap) = <[id := e']> s.(heap) →
  (∀ lo hi, entry_ok s.(s_entries) p e lo hi → entry_ok s'.(s_entries) p' e' lo hi) →
  same_vmo s.(s_entries) s'.(s_entries) → s'.(s_entries).(b_length) = s.(s_entries).(b_length) → held s' = held s →
  s'.(s_state) = s.(s_state) ∧ s'.(proc).(error_) = s.(proc).(error_) ∧ s'.(next_id) = s.(next_id) ∧ s'.(proc).(sync_queue_) = s.(proc).(sync_queue_) →
  queue_of_ok s'.(s_entries) s'.(s_queue) → same_vmo s.(s_queue).(buffer_) s'.(s_queue).(buffer_) →
  Forall (work_ok H s'.(heap)) s'.(s_queue).(work_queue_) → NoDup (omap result_of s'.(s_queue).(work_queue_)) → e'.(status_) ≠ EkPersisted → (e'.(status_) = EkSync → e.(status_) = EkSync) → control s' → invariant H s'.
Proof.
  intros [[(B1 & B2 & B3) (Q1 & Q2 & Q3)] ? ? _ _ _ [Hnd Hids] _ Hsy Hwr _] Hl Hb El El' He Eh Hok Hsame Elen Eheld (S1 & S2 & S3 & S4) Hq (V1 & V2 & V3) Hw Hr Hst Hsyn Hc.
  pose proof Hsame as (W1 & W2 & W3). pose proof Hnd as (Hnd1 & Hnd2 & _)%NoDup_app.
  assert (map fst (line s') = map fst (line s)) as Eids by (rewrite El, El', !map_app; done).
  constructor; try done.
  - split; split_and!; congruence.
  - by rewrite S1, S2.
  - rewrite Eids, S4, S3, Eh. split; [done|]. intros id' Hid'. apply Hids. destruct (decide (id' = id)) as [->|]; [by eexists|by rewrite lookup_insert_ne in Hid'].
  - exists base. split; [done|]. rewrite Eheld, Elen, El', Eh. rewrite El in Hl, Hnd1. eapply lays_move; [exact Hsame|exact Hnd1| |exact Hl].
    intros e2 lo hi He2. rewrite He in He2. injection He2 as <-. apply Hok.
  - rewrite S4, Eh. apply Forall_forall. intros id' Hin. pose proof (proj1 (Forall_forall _ _) Hsy id' Hin) as (e2 & He2 & Hs2). exists e2. split; [|by eapply is_sync_same].
    rewrite lookup_insert_ne; [done|]. intros <-. apply (Hnd2 id); [|done]. rewrite El, map_app. apply elem_of_app. right. by left.
  - rewrite Eh. split; [|by eapply kept_insert; [exact He|exact Hsyn|apply Hwr]]. intros id' e2 He2 Hs2.
    destruct (decide (id' = id)) as [->|]; [rewrite lookup_insert_eq in He2; by injection He2 as <-|]. rewrite lookup_insert_ne in He2 by done. by apply Hwr.
Qed.

Lemma with_data_ok b base data : buffer_ok b base → length data = length b.(b_data) → buffer_ok (with_data b data) base ∧ same_vmo b (with_data b data).
Proof.
  intros [? ? ? ? ?] Hlen. assert (b_capacity (with_data b data) = b_capacity b) as Ec by (unfold b_capacity; cbn; by rewrite Hlen).
  split; [|by split_and!]. constructor; rewrite ?Ec; done.
Qed.

Lemma queue_of_ok_same b b' q : same_vmo b b' → queue_of_ok b q → queue_of_ok b' q.
Proof. intros (E1 & E2 & E3) [? ? ? ? ? ?]. constructor; rewrite ?E1, ?E2, ?E3; done. Qed.

(** The entry that was taken from the work queue. *)
Lemma line_work s id status : s.(pc) = PcWorkEntry id status → ∃ l1 l2, line s = l1 ++ (id, InWork) :: l2 ∧
  ∀ s', s'.(pc) = PcWork → s'.(s_work_queue) = s.(s_work_queue) → s'.(proc).(delete_queue_) = s.(proc).(delete_queue_) →
    s'.(proc).(wait_queue_) = s.(proc).(wait_queue_) ++ [id] → line s' = l1 ++ (id, InWait) :: l2.
Proof.
  intros E. unfold line, current. eexists (_ ++ _), _. split; [rewrite E; cbn [app map]; apply app_assoc|]. intros s' -> -> -> ->. cbn [app]. by rewrite map_app, <- !app_assoc.
Qed.

Lemma journal_work_sync H s id status e : invariant H s → s.(pc) = PcWorkEntry id status → s.(heap) !! id = Some e → is_sync s.(s_entries) e → status = EkSync →
  ∃ s', journal_step crc32 ticks start_block info_vmo_ s = Returns (Some s') ∧ invariant H s'.
Proof.
  intros Hs Epc He Hsy ->. pose proof Hs as [_ _ [_ Herr] ? ? ? _ (base & Hb & Hl) _ _ Hc]. unfold control in Hc. rewrite Epc in Hc. destruct Hc as (Hctx & Hp & Hsq & _).
  unfold journal_step. rewrite Epc. unfold ProcessEntry. rewrite Herr, Hctx, bool_decide_false by done. cbn [andb]. rewrite (ProcessSyncDefault_ok s id e He Hsy).
  cbn [mbind outcome_bind]. eexists. split; [done|]. destruct (line_work s id _ Epc) as (l1 & l2 & El & El').
  eapply (invariant_move H s _ id e e l1 InWork InWait l2 base); cbn [s_entries s_queue heap s_state proc pc next_id set_pc with_queues set_proc error_ sync_queue_]; try done.
  - by apply El'.
  - by rewrite insert_id.
  - intros lo hi [?|[_ [Hi _]]]; [by left|]. destruct Hsy. congruence.
  - unfold held. by rewrite Epc.
  - by destruct Hsy as [-> _].
  - split; [right; by split|done].
Qed.

Lemma journal_work_init H s id status e lo hi : invariant H s → s.(pc) = PcWorkEntry id status → s.(heap) !! id = Some e →
  0 ≤ lo → placed (b_capacity s.(s_entries)) e lo hi → status = EkInit → e.(status_) = EkInit →
  ∃ s', journal_step crc32 ticks start_block info_vmo_ s = Returns (Some s') ∧ invariant H s'.
Proof.
  intros Hs Epc He Hlo Hpl -> Hst. pose proof Hs as [_ _ [_ Herr] Hq Hw ? _ (base & Hb & Hl) _ _ Hc]. unfold control in Hc. rewrite Epc in Hc. destruct Hc as (Hctx & Hp & Hsq & _).
  pose proof (qo_cap _ _ Hq) as [Hcap _]. destruct (PrepareBuffer_returns _ _ _ _ Hcap Hlo Hpl) as (data & sum & Epb & Hlen).
  unfold journal_step. rewrite Epc. unfold ProcessEntry. rewrite Herr, Hctx, bool_decide_false by done. cbn [andb]. unfold ProcessWorkDefault, PrepareBuffer_of, SetStatus, entry_at.
  rewrite He. cbn [mbind outcome_bind]. rewrite Epb. cbn [mbind outcome_bind heap update_entry set_heap]. rewrite lookup_insert_eq. cbn [mbind outcome_bind SetChecksum status_].
  rewrite Hst, bool_decide_false by done. cbn [ZX_DEBUG_ASSERT bool_decide mbind outcome_bind].
  set (e' := with_status (SetChecksum e sum) EkWaiting). set (s1 := match dummy_ _ with None => _ | Some _ => _ end).
  assert (s_entries s1 = with_data (s_entries s) data ∧ heap s1 = <[id := e']> (heap s) ∧ s_queue s1 = s_queue s ∧ s_state s1 = s_state s ∧ next_id s1 = next_id s ∧ s_work_queue s1 = s_work_queue s)
    as (E1 & E2 & E3 & E4 & E5 & E6).
  { subst s1. cbn [proc update_entry set_heap set_entries]. destruct (dummy_ (proc s)); split_and!; try done; cbn; by rewrite insert_insert_eq. }
  assert (proc s1 = proc (with_dummy s (Some NewWork))) as E7.
  { subst s1. cbn [proc update_entry set_heap set_entries]. destruct Hp as [Hd|Hd]; rewrite Hd; [done|]. cbn. rewrite <- Hd. by destruct (proc s). }
  clearbody s1. destruct (with_data_ok _ _ _ Hb Hlen) as [Hb' Hsame]. eexists. split; [done|]. destruct (line_work s id _ Epc) as (l1 & l2 & El & El').
  eapply (invariant_move H s _ id e e' l1 InWork InWait l2 base); cbn [s_entries s_queue heap s_state proc pc next_id set_pc with_queues set_proc error_ sync_queue_]; rewrite ?E1, ?E2, ?E3, ?E4, ?E5, ?E7; try done.
  - by apply El'; cbn [pc set_pc s_work_queue with_queues set_proc proc delete_queue_ wait_queue_]; rewrite ?E6, ?E7.
  - intros lo' hi' [[_ [? _]]|[Hpl' [_ Hwk]]]; [congruence|]. apply (entry_ok_same _ _ _ _ _ _ Hsame). right. split; [exact Hpl'|]. split; [by left|exact Hwk].
  - unfold held. by rewrite Epc.
  - by eapply queue_of_ok_same.
  - eapply works_mono; [done| |exact Hw]. intros id' _ e2 He2. destruct (decide (id' = id)) as [->|]; [|exists e2; rewrite lookup_insert_ne by done; auto].
    rewrite He in He2. injection He2 as <-. exists e'. split; [apply lookup_insert_eq|]. split; [done|by right].
  - split; [right|exact Hsq]. unfold plain. cbn [proc set_pc with_queues set_proc context_ dummy_]. rewrite E7. split; [exact Hctx|by right].
Qed.

(** The loop over the work queue. *)
Lemma journal_work_entry H s id status : invariant H s → s.(pc) = PcWorkEntry id status →
  ∃ s', journal_step crc32 ticks start_block info_vmo_ s = Returns (Some s') ∧ invariant H s'.
Proof.
  intros Hs Epc. pose proof Hs as [_ _ _ _ _ _ _ (base & Hb & Hl) _ _ Hc]. unfold control in Hc. rewrite Epc in Hc. destruct Hc as (_ & _ & _ & e & He & Est).
  destruct (line_work s id _ Epc) as (l1 & l2 & El & _). rewrite El in Hl. apply lays_app in Hl as (mid & Hl1 & e2 & mid2 & He2 & _ & Hok & _). pose proof (lays_le _ _ _ _ _ Hl1).
  rewrite He in He2. injection He2 as <-. pose proof (bf_base _ _ Hb). destruct Hok as [[_ Hsy]|[Hp [Hi _]]].
  - eapply journal_work_sync; [done|done|done|done|]. destruct Hsy. congruence.
  - eapply (journal_work_init H s id status e mid mid2); try done; [|congruence]. unfold held in *. rewrite Epc in *. lia.
Qed.

(** ** The journal thread: from queue to queue *)

Lemma start_queue_ok H s c : invariant H s → current s = [] → held s = 0 → s.(proc).(dummy_) = None → (s.(proc).(context_) = CkSync → s.(proc).(sync_queue_) = []) →
  match c with
  | CkWait => s.(proc).(context_) ≠ CkDelete ∧ s.(proc).(context_) ≠ CkWait ∧ s.(proc).(sync_queue_) = []
  | CkDelete => s.(proc).(context_) = CkWait
  | CkSync => s.(proc).(context_) = CkDelete
  | _ => False
  end → ∃ s', start_queue s c = Returns (Some s') ∧ invariant H s'.
Proof.
  intros Hs Hcur Hheld Hd Hsync Hc. unfold start_queue. rewrite SetContext_ok; [|done|done|destruct c; naive_solver]. cbn [mbind outcome_bind]. eexists. split; [done|].
  eapply invariant_control; [exact Hs|done..| | |done|].
  - unfold line. by rewrite Hcur.
  - rewrite Hheld. by destruct c.
  - unfold control. destruct c; try done; cbn [pc set_pc].
    + by destruct Hc as (_ & _ & ?).
    + split_and!; [done| |by left|done]. intros w Hw. cbn in Hw. congruence.
Qed.

Lemma EnqueueWork_ok H s : invariant H s → clears s → control (with_dummy s None) →
  ∃ s', EnqueueWork_of info_vmo_ s = Returns s' ∧ invariant H s' ∧ s'.(proc) = (with_dummy s None).(proc) ∧ s'.(pc) = s.(pc).
Proof.
  intros Hs Hcl Hc. unfold EnqueueWork_of. destruct (dummy_ (proc s)) as [w|] eqn:Ed.
  2: { exists s. split_and!; [done|done| |done]. cbn. rewrite <- Ed. by destruct (proc s). }
  assert (invariant H (with_dummy s None)) as Hs' by (eapply invariant_control; [exact Hs|done..]). destruct (Hcl w Ed) as (Hr & Hcb & Hid & Hops).
  destruct (EnqueueEntry_ok (with_dummy s None) w (iv_queue _ _ Hs') ltac:(right; split; [exact Hid|exact Hops])) as (q' & t & -> & Hq & Hsame & Ew).
  cbn [mbind outcome_bind snd]. eexists. split; [done|]. split; [|done]. eapply invariant_push; [exact Hs'|exact Hq|exact Hsame|exact Ew|done|]. cbn. rewrite Hcb. constructor.
Qed.

Lemma plain_clears s : plain s → clears s.
Proof. intros [Hd|Hd] w Hw; rewrite Hd in Hw; [done|]. injection Hw as <-. split_and!; [done..|constructor]. Qed.

(** The end of the work queue, and the work that makes the write-back thread look at its queue again. *)
Lemma journal_work_done H s : invariant H s → s.(pc) = PcWork → s.(s_work_queue) = [] →
  ∃ s', journal_step crc32 ticks start_block info_vmo_ s = Returns (Some s') ∧ invariant H s'.
Proof.
  intros Hs Epc Eq. unfold journal_step. rewrite Epc, Eq. eexists. split; [done|]. pose proof (iv_control _ _ Hs) as Hc. unfold control in Hc. rewrite Epc in Hc.
  eapply invariant_control; [exact Hs|done..| | |done|exact Hc]; [unfold line, current|unfold held]; by rewrite Epc.
Qed.

Lemma journal_kick H s : invariant H s → s.(pc) = PcKick →
  ∃ s', journal_step crc32 ticks start_block info_vmo_ s = Returns (Some s') ∧ invariant H s'.
Proof.
  intros Hs Epc. unfold journal_step. rewrite Epc. pose proof (iv_control _ _ Hs) as Hc. unfold control in Hc. rewrite Epc in Hc. destruct Hc as [Hc Hsy].
  assert (plain s) as Hp by (destruct Hc as [[_ ?]|[_ ?]]; [by left|done]).
  destruct (EnqueueWork_ok H s Hs (plain_clears s Hp)) as (s1 & -> & Hs1 & Ep & Epc1).
  { unfold control. cbn [pc with_dummy set_proc proc]. rewrite Epc. split; [|done]. destruct Hc as [[? _]|[? _]]; [left|right]; (split; [done|]); [done|by left]. }
  cbn [mbind outcome_bind]. rewrite Epc in Epc1. apply (start_queue_ok H); rewrite ?Ep; try done.
  - unfold current. by rewrite Epc1.
  - unfold held. by rewrite Epc1.
  - cbn. destruct Hc as [[[->| ->] _]|[-> _]]; done.
Qed.

(** The thread is in the loop over the queue [c]. *)
Definition looks_at s (c : ProcessorContext) : Prop := s.(pc) = PcQueue c ∨ ∃ status, s.(pc) = PcQueueEntry c status.

Lemma looks_at_control s c : looks_at s c → control s →
  s.(proc).(context_) = c ∧ current s = [] ∧
  match c with
  | CkWait => s.(proc).(dummy_) = None ∧ s.(proc).(sync_queue_) = [] ∧ held s = 0
  | CkDelete => clears s ∧ (s.(proc).(dummy_) = None ∨ 0 < s.(proc).(blocks_processed_)) ∧ 0 ≤ s.(proc).(blocks_processed_) ∧ held s = s.(proc).(blocks_processed_)
  | CkSync => s.(proc).(dummy_) = None ∧ held s = 0
  | _ => False
  end.
Proof. unfold control, held, current. intros [E|[st E]]; rewrite E; destruct c; naive_solver. Qed.

Lemma end_queue_ok H s c : invariant H s → looks_at s c → (c = CkSync → s.(proc).(sync_queue_) = []) → ∃ s', end_queue s c = Returns (Some s') ∧ invariant H s'.
Proof.
  intros Hs Hat Hsync. destruct (looks_at_control s c Hat (iv_control _ _ Hs)) as (Hctx & Hcur & Hc). destruct c; try done; cbn [end_queue].
  - destruct Hc as (? & ? & ?). apply start_queue_ok; try done.
  - destruct Hc as (? & ? & ? & Hh). eexists. split; [done|]. eapply invariant_control; [exact Hs|done..| | |done|done]; [|by rewrite Hh]. unfold line. by rewrite Hcur.
  - destruct Hc as (? & Hh). eexists. split; [done|]. eapply invariant_control; [exact Hs|done..| | |done|]; [|by rewrite Hh|]; [unfold line; by rewrite Hcur|]. split_and!; auto.
Qed.

(** The first entry of a queue. *)
Lemma front_entry H s c id rest : invariant H s → queue_of s c = id :: rest → ∃ e, s.(heap) !! id = Some e ∧ (c = CkSync → is_sync s.(s_entries) e).
Proof.
  intros [_ _ _ _ _ _ _ (base & _ & Hl) Hsy _ _] Hq. destruct c; cbn [queue_of] in Hq; try done.
  - unfold line in Hl. apply lays_app in Hl as (? & _ & Hl). rewrite Hq in Hl. destruct Hl as (e & _ & He & _). by exists e.
  - unfold line in Hl. rewrite Hq in Hl. destruct Hl as (e & _ & He & _). by exists e.
  - rewrite Hq in Hsy. apply Forall_cons in Hsy as [(e & He & Hs) _]. by exists e.
Qed.

Lemma journal_queue H s c : invariant H s → s.(pc) = PcQueue c → ∃ s', journal_step crc32 ticks start_block info_vmo_ s = Returns (Some s') ∧ invariant H s'.
Proof.
  intros Hs Epc. unfold journal_step. rewrite Epc. destruct (queue_of s c) as [|id rest] eqn:Eq; [apply end_queue_ok; [done|by left|by intros ->]|].
  destruct (front_entry H s c id rest Hs Eq) as (e & He & Hsy). unfold entry_at. rewrite He. cbn [mbind outcome_bind]. eexists. split; [done|].
  pose proof (iv_control _ _ Hs) as Hc. unfold control in Hc. rewrite Epc in Hc. assert (observed (set_pc s (PcQueueEntry c (status_ e))) c (status_ e)) as Hobs.
  { exists id, rest, e. split_and!; [by destruct c|done|by right]. }
  eapply invariant_control; [exact Hs|done..| | |done|]; [unfold line, current; by rewrite Epc|unfold held; rewrite Epc; by destruct c|].
  unfold control. cbn [pc set_pc proc]. destruct c; try done; [naive_solver..|]. destruct (Hsy eq_refl) as [Est _]. destruct Hc. by split_and!.
Qed.

(** ** The journal thread: the wait queue *)

Lemma line_wait s id rest : current s = [] → s.(proc).(wait_queue_) = id :: rest → ∃ l1 l2, line s = l1 ++ (id, InWait) :: l2 ∧
  ∀ s', current s' = [] → s'.(s_work_queue) = s.(s_work_queue) → s'.(proc).(delete_queue_) = s.(proc).(delete_queue_) ++ [id] →
    s'.(proc).(wait_queue_) = rest → line s' = l1 ++ (id, InDelete) :: l2.
Proof.
  intros Ec E. unfold line. eexists _, _. split; [rewrite E; cbn [app map]; reflexivity|]. intros s' -> -> -> ->. by rewrite Ec, map_app, <- app_assoc.
Qed.

Lemma journal_wait_sync H s id rest status e : invariant H s → s.(pc) = PcQueueEntry CkWait status → s.(proc).(wait_queue_) = id :: rest →
  s.(heap) !! id = Some e → is_sync s.(s_entries) e → status = EkSync →
  ∃ s', journal_step crc32 ticks start_block info_vmo_ s = Returns (Some s') ∧ invariant H s'.
Proof.
  intros Hs Epc Eq He Hsy ->. pose proof Hs as [_ _ [_ Herr] ? ? ? _ (base & Hb & Hl) _ _ Hc].
  destruct (looks_at_control s CkWait ltac:(right; by eexists) Hc) as (Hctx & Hcur & Hd & Hsq & Hh). destruct (line_wait s id rest Hcur Eq) as (l1 & l2 & El & El').
  unfold journal_step. rewrite Epc. cbn [queue_of]. rewrite Eq. unfold ProcessEntry. rewrite Herr, Hctx, bool_decide_false by done. cbn [andb]. rewrite (ProcessSyncDefault_ok s id e He Hsy).
  cbn [mbind outcome_bind to_next]. eexists. split; [done|].
  eapply (invariant_move H s _ id e e l1 InWait InDelete l2 base); cbn [s_entries s_queue heap s_state proc pc next_id set_pc with_queues set_proc error_ sync_queue_]; try done.
  - apply El'; try done. cbn. by rewrite Eq.
  - by rewrite insert_id.
  - intros lo hi [?|[_ [Hi _]]]; [by left|]. destruct Hsy. destruct Hi; congruence.
  - by destruct Hsy as [-> _].
Qed.

Lemma journal_wait_persisted H s id rest status e lo hi : invariant H s → s.(pc) = PcQueueEntry CkWait status → s.(proc).(wait_queue_) = id :: rest →
  s.(heap) !! id = Some e → 0 ≤ lo → placed (b_capacity s.(s_entries)) e lo hi → has_work s.(s_entries) e → status = EkPersisted → e.(status_) = EkPersisted →
  ∃ s', journal_step crc32 ticks start_block info_vmo_ s = Returns (Some s') ∧ invariant H s'.
Proof.
  intros Hs Epc Eq He Hlo Hpl (w & Ew & Hr & Hcl & Hid & Hin) -> Hst. pose proof Hs as [_ _ [_ Herr] Hq Hw Hres _ (base & Hb & Hl) _ Hwr Hc].
  destruct (looks_at_control s CkWait ltac:(right; by eexists) Hc) as (Hctx & Hcur & Hd & Hsq & Hh). destruct (line_wait s id rest Hcur Eq) as (l1 & l2 & El & El').
  destruct (placed_indices _ _ _ _ (proj1 (proj1 (qo_cap _ _ Hq))) Hlo Hpl) as (_ & _ & Hne & _).
  assert (id ∉ omap result_of (work_queue_ (s_queue s))) as Hnin by (intros Hin'; destruct (works_called _ _ _ _ Hw Hin') as (e2 & He2 & [?|?]); congruence).
  unfold journal_step. rewrite Epc. cbn [queue_of]. rewrite Eq. unfold ProcessEntry. rewrite Herr, Hctx, bool_decide_false by done. cbn [andb].
  unfold ProcessWaitDefault, SetStatus, TakeWork, entry_at. rewrite He. cbn [mbind outcome_bind heap update_entry set_heap]. rewrite Hst, lookup_insert_eq, bool_decide_true by done.
  cbn [ZX_DEBUG_ASSERT mbind outcome_bind with_status work_ header_index_ commit_index_]. rewrite Ew, (proj2 (Z.eqb_neq _ _) (not_eq_sym Hne)). cbn [negb mbind outcome_bind].
  set (s1 := update_entry (update_entry s id _) id _). set (e' := with_work (with_status e EkWaiting) None).
  assert (heap s1 = <[id := e']> (heap s)) as Eh by (cbn; by rewrite insert_insert_eq).
  destruct (EnqueueEntry_ok s1 (SetSyncCallback w (Result id)) Hq ltac:(left; split; [exact Hid|exact Hin])) as (q' & t & -> & Hq' & Hsame & Eq').
  cbn [mbind outcome_bind snd to_next]. eexists. split; [done|].
  eapply (invariant_move H s _ id e e' l1 InWait InDelete l2 base); cbn [s_entries s_queue heap s_state proc pc next_id set_pc with_queues set_proc error_ sync_queue_ set_queue]; try done.
  - apply El'; try done. cbn. by rewrite Eq.
  - intros lo' hi' [[_ [? _]]|[Hpl' _]]; [congruence|right]. split; [exact Hpl'|]. split; [by left|done].
  - rewrite Eh, Eq'. apply Forall_app. split; [eapply works_mono; [done| |exact Hw]; intros id' Hid'; apply still_called_same; rewrite lookup_insert_ne; [done|by intros ->]|].
    apply Forall_singleton. right. exists id, (sync_cb_ w). split_and!; [done|done|]. exists e'. split; [apply lookup_insert_eq|right]. split_and!; [done|done|done|].
    pose proof (proj1 Hwr id e He Hst) as Hj. by rewrite Ew in Hj.
  - rewrite Eq', omap_app. apply NoDup_app. split; [exact Hres|]. split; [|apply NoDup_singleton]. intros id' Hid' [->|[]%not_elem_of_nil]%elem_of_cons. by apply Hnin.
Qed.

(** The first entry of the wait queue. *)
Lemma journal_wait H s status : invariant H s → s.(pc) = PcQueueEntry CkWait status →
  ∃ s', journal_step crc32 ticks start_block info_vmo_ s = Returns (Some s') ∧ invariant H s'.
Proof.
  intros Hs Epc. pose proof Hs as [_ _ _ _ _ _ _ (base & Hb & Hl) _ _ Hc]. pose proof Hc as Hobs. unfold control in Hobs. rewrite Epc in Hobs.
  destruct Hobs as (_ & _ & _ & id & rest & e & Eq & He & Hst). cbn [queue_of] in Eq.
  destruct (looks_at_control s CkWait ltac:(right; by eexists) Hc) as (_ & Hcur & _ & _ & Hh).
  destruct (line_wait s id rest Hcur Eq) as (l1 & l2 & El & _). rewrite El, Hh in Hl. apply lays_app in Hl as (mid & Hl1 & e2 & mid2 & He2 & _ & Hok & _). pose proof (lays_le _ _ _ _ _ Hl1).
  rewrite He in He2. injection He2 as <-. pose proof (bf_base _ _ Hb). destruct (decide (status = EkWaiting)) as [->|Hnw].
  { unfold journal_step. rewrite Epc. cbn [queue_of]. rewrite Eq. unfold ProcessEntry. rewrite bool_decide_true by done. cbn [mbind outcome_bind]. apply end_queue_ok; [done|right; by eexists|done]. }
  destruct Hst as [?|Hst]; [done|]. destruct Hok as [[_ Hsy]|[Hp [Hi Hwk]]].
  - eapply journal_wait_sync; [done..|]. destruct Hsy. congruence.
  - eapply (journal_wait_persisted H s id rest status e mid mid2); try done; [lia|..]; destruct Hi; congruence.
Qed.

(** An entry that no work calls back is destroyed; works that call no entry back may be added. *)
Lemma invariant_remove H s s' id base works : invariant H s → id ∉ omap result_of s.(s_queue).(work_queue_) →
  lays s.(s_entries) s.(heap) (base + held s') (line s') (base + s.(s_entries).(b_length)) → buffer_ok s'.(s_entries) base → same_vmo s.(s_entries) s'.(s_entries) →
  s'.(s_entries).(b_length) = s.(s_entries).(b_length) → s'.(heap) = delete id s.(heap) → id ∉ map fst (line s') ++ s'.(proc).(sync_queue_) →
  (∀ id', id' ∈ map fst (line s) ++ s.(proc).(sync_queue_) → id' = id ∨ id' ∈ map fst (line s') ++ s'.(proc).(sync_queue_)) →
  (∀ e, s.(heap) !! id = Some e → e.(status_) ≠ EkSync → applied H id) → NoDup (map fst (line s') ++ s'.(proc).(sync_queue_)) → Forall (λ id, ∃ e, s.(heap) !! id = Some e ∧ is_sync s.(s_entries) e) s'.(proc).(sync_queue_) →
  queue_of_ok s'.(s_entries) s'.(s_queue) → same_vmo s.(s_queue).(buffer_) s'.(s_queue).(buffer_) →
  s'.(s_queue).(work_queue_) = s.(s_queue).(work_queue_) ++ works → Forall (λ w, w.(ready_cb_) = None ∧ clients w.(sync_cb_)) works →
  s'.(s_state) = s.(s_state) ∧ s'.(proc).(error_) = s.(proc).(error_) ∧ s'.(next_id) = s.(next_id) → control s' → invariant H s'.
Proof.
  intros [[(B1 & B2 & B3) (Q1 & Q2 & Q3)] ? ? _ Hw Hr [_ Hids] _ _ Hwr _] Hres Hl Hb Hsame Elen Eh Hnin Hcov Happ Hnd Hsync Hq (V1 & V2 & V3) Eworks Hworks (S1 & S2 & S3) Hc.
  pose proof Hsame as (W1 & W2 & W3). constructor; try done; rewrite ?Eh.
  - split; split_and!; congruence.
  - by rewrite S1, S2.
  - rewrite Eworks. apply Forall_app. split; [|eapply Forall_impl; [exact Hworks|]; intros w Hw'; by left].
    eapply works_mono; [done| |exact Hw]. intros id' Hid'. apply still_called_same. rewrite lookup_delete_ne; [done|]. by intros <-.
  - rewrite Eworks, omap_app. replace (omap result_of works) with (@nil nat); [by rewrite app_nil_r|]. clear Eworks.
    induction Hworks as [|w works [_ Hcl] _ IH]; [done|]. cbn. unfold result_of at 1. by destruct Hcl as [|cb cs [c ->] _].
  - rewrite S3. split; [done|]. intros id' Hid'. destruct (decide (id' = id)) as [->|]; [by rewrite lookup_delete_eq in Hid'; destruct Hid'|].
    rewrite lookup_delete_ne in Hid' by done. destruct (Hids id' Hid') as [? [?|?]%Hcov]; done.
  - exists base. split; [done|]. rewrite Elen. eapply lays_impl; [|exact Hl]. intros id' p' e2 lo hi Hin He2 Hok. exists e2. split; [|by eapply entry_ok_same].
    rewrite lookup_delete_ne; [done|]. intros <-. apply Hnin, elem_of_app. left. apply list_elem_of_fmap. by exists (id, p').
  - apply Forall_forall. intros id' Hin. pose proof (proj1 (Forall_forall _ _) Hsync id' Hin) as (e2 & He2 & Hs2). exists e2. split; [|by eapply is_sync_same].
    rewrite lookup_delete_ne; [done|]. intros <-. apply Hnin, elem_of_app. by right.
  - destruct Hwr as [Hp Hk]. split; [intros id' e2 [_ He2]%lookup_delete_Some; by apply Hp|]. eapply kept_impl; [|exact Hk]. intros id' e2 He2 Hst.
    destruct (decide (id' = id)) as [->|]; [left; by eapply Happ|right; exists e2; by rewrite lookup_delete_ne].
Qed.

Lemma region_same b b' ops : same_vmo b b' → Forall (in_region b) ops → Forall (in_region b') ops.
Proof. intros (E1 & _ & E3) Hops. eapply Forall_impl; [exact Hops|]. intros o. unfold in_region. by rewrite E1, E3. Qed.

(** ** The journal thread: the delete queue *)

Lemma line_delete s id rest : s.(proc).(delete_queue_) = id :: rest → ∃ l2, line s = (id, InDelete) :: l2 ∧
  ∀ s', current s' = current s → s'.(s_work_queue) = s.(s_work_queue) → s'.(proc).(wait_queue_) = s.(proc).(wait_queue_) → s'.(proc).(delete_queue_) = rest → line s' = l2.
Proof. intros E. unfold line. eexists. split; [rewrite E; cbn [app map]; reflexivity|]. by intros s' -> -> -> ->. Qed.

Lemma journal_delete_sync H s id rest status e : invariant H s → s.(pc) = PcQueueEntry CkDelete status → s.(proc).(delete_queue_) = id :: rest →
  s.(heap) !! id = Some e → is_sync s.(s_entries) e → status = EkSync →
  ∃ s', journal_step crc32 ticks start_block info_vmo_ s = Returns (Some s') ∧ invariant H s'.
Proof.
  intros Hs Epc Eq He Hsy ->. pose proof Hs as [? ? [? Herr] ? ? ? [Hnd Hids] (base & Hb & Hl) Hsync ? Hc].
  destruct (looks_at_control s CkDelete ltac:(right; by eexists) Hc) as (Hctx & Hcur & Hcl & Hpos & Hge & Hh). destruct (line_delete s id rest Eq) as (l2 & El & El').
  unfold journal_step. rewrite Epc. cbn [queue_of]. rewrite Eq. unfold ProcessEntry. rewrite Herr, Hctx, bool_decide_false by done. cbn [andb]. rewrite (ProcessSyncDefault_ok s id e He Hsy).
  cbn [mbind outcome_bind to_next]. eexists. split; [done|]. match goal with |- invariant _ ?x => assert (line x = l2) as El2 by (apply El'; [by rewrite Hcur|done..|cbn; by rewrite Eq]) end.
  rewrite El in Hnd, Hl. cbn [map fst app] in Hnd. cbn [lays] in Hl. destruct Hl as (e2 & mid & He2 & Hmid & Hok & Hl).
  rewrite He in He2. injection He2 as <-.
  assert (mid = base + held s) as Hm. { destruct Hok as [[-> _]|[_ [Hi _]]]; [done|]. destruct Hsy as [Hsy _]. destruct Hi; congruence. } subst mid.
  constructor; rewrite ?El2; cbn [s_entries s_queue heap s_state proc next_id set_pc with_queues set_proc error_ sync_queue_]; try done.
  - rewrite app_assoc. split; [by rewrite <- Permutation_cons_append|]. intros id' [? Hin]%Hids. split; [done|]. rewrite El in Hin. by rewrite <- Permutation_cons_append.
  - exists base. split; [done|]. change (held _) with (blocks_processed_ (proc s)). by rewrite <- Hh.
  - apply Forall_app. split; [done|]. apply Forall_singleton. by exists e.
Qed.

(** The work that clears entries. *)
Definition clear_work s : Work := match s.(proc).(dummy_) with None => CreateWork | Some w => w end.

Lemma clear_work_ok s : clears s → let w := clear_work s in
  w.(ready_cb_) = None ∧ w.(sync_cb_) = [] ∧ w.(transaction_).(WriteTxn.vmoid_) = VMOID_INVALID ∧ Forall (in_region s.(s_entries)) w.(transaction_).(WriteTxn.operations_).
Proof. unfold clears, clear_work. destruct (dummy_ (proc s)); [auto|]. intros _. split_and!; done || constructor. Qed.

Lemma ProcessDelete_ok s id e lo hi base : s.(heap) !! id = Some e → 0 ≤ lo → placed (b_capacity s.(s_entries)) e lo hi → queue_of_ok s.(s_entries) s.(s_queue) → clears s →
  buffer_ok s.(s_entries) base → 0 ≤ s.(proc).(blocks_processed_) → s.(proc).(blocks_processed_) + (hi - lo) ≤ s.(s_entries).(b_length) →
  ∃ data w, ProcessDeleteDefault start_block s id =
      Returns (PkRemove, with_processed (with_dummy (set_entries s (with_data s.(s_entries) data)) (Some w)) (s.(proc).(blocks_processed_) + (hi - lo))) ∧
    length data = length s.(s_entries).(b_data) ∧ 2 < hi - lo ∧
    w.(ready_cb_) = None ∧ w.(sync_cb_) = [] ∧ w.(transaction_).(WriteTxn.vmoid_) = VMOID_INVALID ∧ Forall (in_region s.(s_entries)) w.(transaction_).(WriteTxn.operations_).
Proof.
  intros He Hlo Hpl [_ Hvmo _ _ _ [Hcap _]] Hcl Hb Hge Hle. destruct (clear_work_ok s Hcl) as (Hr & Hcb & Hid & Hops). pose proof (bf_cap _ _ Hb). pose proof (bf_length _ _ Hb).
  destruct (placed_indices _ _ _ _ (proj1 Hcap) Hlo Hpl) as (_ & _ & _ & Hbc & Hpos). destruct (PrepareDelete_returns _ _ _ _ _ Hcap Hvmo Hlo Hpl Hid Hops) as (data & t & E & Hlen & Hid' & Hops').
  unfold ProcessDeleteDefault. fold (clear_work s). unfold entry_at. rewrite He. cbn [mbind outcome_bind]. rewrite E. cbn [mbind outcome_bind]. rewrite Hbc. cbn [proc with_dummy set_proc set_entries blocks_processed_].
  exists data, (with_transaction (clear_work s) t). unwrap. done.
Qed.

Lemma journal_delete_persisted H s id rest status e : invariant H s → s.(pc) = PcQueueEntry CkDelete status → s.(proc).(delete_queue_) = id :: rest →
  s.(heap) !! id = Some e → status = EkPersisted → e.(status_) = EkPersisted →
  ∃ s', journal_step crc32 ticks start_block info_vmo_ s = Returns (Some s') ∧ invariant H s'.
Proof.
  intros Hs Epc Eq He -> Hst. pose proof Hs as [_ _ [_ Herr] Hq Hw _ [Hnd _] (base & Hb & Hl) Hsync Hwr Hc]. pose proof (bf_base _ _ Hb).
  destruct (looks_at_control s CkDelete ltac:(right; by eexists) Hc) as (Hctx & Hcur & Hcl & Hpos & Hge & Hh). destruct (line_delete s id rest Eq) as (l2 & El & El').
  rewrite El in Hnd, Hl. cbn [map fst app] in Hnd. apply NoDup_cons in Hnd as [Hnin Hnd]. cbn [lays] in Hl. destruct Hl as (e2 & mid & He2 & Hmid & Hok & Hl).
  rewrite He in He2. injection He2 as <-. destruct Hok as [[_ [? _]]|[Hpl [_ Hwk]]]; [congruence|]. pose proof (lays_le _ _ _ _ _ Hl). rewrite Hh in *.
  destruct (ProcessDelete_ok s id e (base + blocks_processed_ (proc s)) mid base) as (data & w & E & Hlen & Hgt & Hcw); try done; [lia..|].
  destruct (with_data_ok _ _ _ Hb Hlen) as [Hb' Hsame].
  assert (∀ id', id' ∈ omap result_of (work_queue_ (s_queue s)) → id' ≠ id) as Hres by (intros id' Hin ->; destruct (works_called _ _ _ _ Hw Hin) as (e2 & He2 & [?|?]); congruence).
  unfold journal_step. rewrite Epc. cbn [queue_of]. rewrite Eq. unfold ProcessEntry. rewrite Herr, Hctx, bool_decide_false by done. cbn [andb]. rewrite E.
  cbn [mbind outcome_bind]. eexists. split; [done|]. match goal with |- invariant _ ?x => assert (line x = l2) as El2 by (apply El'; [by rewrite Hcur|done..|cbn; by rewrite Eq]) end.
  eapply (invariant_remove H s _ id base []); rewrite ?El2; cbn [s_entries s_queue heap s_state proc next_id set_pc with_queues set_proc error_ sync_queue_ remove set_heap with_processed with_dummy set_entries]; try done.
  - intros Hin. by apply (Hres id).
  - change (held _) with (blocks_processed_ (proc s) + (mid - (base + blocks_processed_ (proc s)))). by replace (base + (_ + _)) with mid by lia.
  - intros id'. rewrite El. cbn [map fst app]. by rewrite elem_of_cons.
  - intros _ _ _. pose proof (proj1 Hwr id e He Hst) as Happ. by rewrite Hwk in Happ.
  - by eapply queue_of_ok_same.
  - by rewrite app_nil_r.
  - split_and!; [done| |right; cbn; lia|cbn; lia]. intros w' [= <-]. destruct Hcw as (? & ? & ? & Hops). split_and!; [done..|]. by eapply region_same.
Qed.

(** The first entry of the delete queue. *)
Lemma journal_delete H s status : invariant H s → s.(pc) = PcQueueEntry CkDelete status →
  ∃ s', journal_step crc32 ticks start_block info_vmo_ s = Returns (Some s') ∧ invariant H s'.
Proof.
  intros Hs Epc. pose proof Hs as [_ _ _ _ _ _ _ (base & Hb & Hl) _ _ Hc]. unfold control in Hc. rewrite Epc in Hc.
  destruct Hc as (_ & _ & _ & _ & id & rest & e & Eq & He & Hst). cbn [queue_of] in Eq.
  destruct (line_delete s id rest Eq) as (l2 & El & _). rewrite El in Hl. destruct Hl as (e2 & mid & He2 & _ & Hok & _).
  rewrite He in He2. injection He2 as <-. destruct (decide (status = EkWaiting)) as [->|Hnw].
  { unfold journal_step. rewrite Epc. cbn [queue_of]. rewrite Eq. unfold ProcessEntry. rewrite bool_decide_true by done. cbn [mbind outcome_bind]. apply end_queue_ok; [done|right; by eexists|done]. }
  destruct Hst as [?|Hst]; [done|]. destruct Hok as [[_ Hsy]|[Hp [Hi Hwk]]].
  - eapply journal_delete_sync; [done..|]. destruct Hsy. congruence.
  - eapply (journal_delete_persisted H s id rest status e); try done; destruct Hi; congruence.
Qed.

(** ** The journal thread: the sync queue, and the space of entries that are gone *)

Lemma journal_sync H s status : invariant H s → s.(pc) = PcQueueEntry CkSync status →
  ∃ s', journal_step crc32 ticks start_block info_vmo_ s = Returns (Some s') ∧ invariant H s'.
Proof.
  intros Hs Epc. pose proof Hs as [[? (Q1 & Q2 & Q3)] ? [? Herr] Hq Hw Hres [Hnd Hids] (base & Hb & Hl) Hsync Hwr Hc]. pose proof Hc as Hobs. unfold control in Hobs. rewrite Epc in Hobs.
  destruct Hobs as (_ & _ & -> & id & rest & e & Eq & He & _). cbn [queue_of] in Eq. destruct (looks_at_control s CkSync ltac:(right; by eexists) Hc) as (Hctx & Hcur & Hd & Hh).
  rewrite Eq in Hsync, Hnd. apply Forall_cons in Hsync as [(e2 & He2 & Hsy) Hsync]. rewrite He in He2. injection He2 as <-. pose proof Hsy as (Hst & Ehi & Eci & w & Ew & Hr & Hcl & Hid & Hops).
  assert (id ∉ map fst (line s) ∧ id ∉ rest ∧ NoDup (map fst (line s) ++ rest)) as (Hn1 & Hn2 & Hnd').
  { rewrite Permutation_app_comm in Hnd. cbn [app] in Hnd. apply NoDup_cons in Hnd as [Hn Hnd]. rewrite elem_of_app in Hn. rewrite Permutation_app_comm. naive_solver. }
  unfold journal_step. rewrite Epc. cbn [queue_of]. rewrite Eq. unfold ProcessEntry. rewrite Herr, Hctx, bool_decide_false by done. cbn [andb]. unfold ProcessSyncComplete.
  rewrite (ProcessSyncDefault_ok s id e He Hsy). cbn [mbind outcome_bind]. unfold TakeWork, entry_at. rewrite He. cbn [mbind outcome_bind]. rewrite Ew, Ehi, Eci, Z.eqb_refl. cbn [negb mbind outcome_bind].
  set (s1 := update_entry s id _). destruct (EnqueueEntry_ok s1 w Hq) as (q' & t & -> & Hq' & (V1 & V2 & V3) & Eq').
  { right. rewrite Hops. split; [done|constructor]. }
  cbn [mbind outcome_bind snd]. eexists. split; [done|]. match goal with |- invariant _ ?x => assert (line x = line s) as El by (unfold line; by rewrite Hcur) end.
  eapply (invariant_remove H s _ id base [with_transaction w t]); rewrite ?El; cbn [s_entries s_queue heap s_state proc next_id set_pc with_queues set_proc error_ sync_queue_ remove set_heap set_queue]; change (sync_queue_ (proc s1)) with (sync_queue_ (proc s)); rewrite ?Eq; cbn [tail]; try done.
  - intros Hin. destruct (works_called _ _ _ _ Hw Hin) as (e2 & He2 & [?|?]); congruence.
  - by rewrite Hh in Hl.
  - apply delete_insert_eq.
  - rewrite elem_of_app. tauto.
  - intros id'. rewrite !elem_of_app, elem_of_cons. tauto.
  - intros e2 He2 Hne. exfalso. apply Hne. congruence.
  - by apply Forall_singleton.
Qed.

Lemma journal_free H s : invariant H s → s.(pc) = PcFree →
  ∃ s', journal_step crc32 ticks start_block info_vmo_ s = Returns (Some s') ∧ invariant H s'.
Proof.
  intros Hs Epc. pose proof Hs as [[(B1 & B2 & B3) ?] ? [? Herr] Hq ? ? ? (base & Hb & Hl) Hsync ? Hc]. unfold control in Hc. rewrite Epc in Hc. destruct Hc as (Hctx & Hcl & Hd & Hge).
  unfold journal_step. rewrite Epc, Herr. destruct (Z.ltb_spec 0 (blocks_processed_ (proc s))) as [Hpos|Hz].
  2: { assert (blocks_processed_ (proc s) = 0) as E0 by lia. apply start_queue_ok; try done.
       - unfold current. by rewrite Epc.
       - unfold held. by rewrite Epc.
       - destruct Hd; [done|lia].
       - by rewrite Hctx. }
  pose proof (lays_le _ _ _ _ _ Hl) as Hle. assert (held s = blocks_processed_ (proc s)) as Hh by (unfold held; by rewrite Epc). rewrite Hh in *.
  pose proof Hb as [Hcap Hbase Hstart' Hlen Hid]. unfold FreeSpace, ZX_DEBUG_ASSERT, ZX_ASSERT. ztest. cbn [negb mbind outcome_bind]. eexists. split; [done|].
  set (n := blocks_processed_ (proc s)) in *. set (b' := with_used _ _ _). assert (same_vmo (s_entries s) b') as Hsame by done.
  match goal with |- invariant _ ?x => assert (line x = line s) as El by (unfold line, current; by rewrite Epc) end. assert (buffer_ok b' (base + n)) as Hb'.
  { constructor; cbn [b' with_used b_start b_length b_vmoid]; change (b_capacity b') with (b_capacity (s_entries s)); [done|lia| |unwrap; lia|done].
    pose proof (Z.mod_pos_bound base (b_capacity (s_entries s)) ltac:(lia)). unwrap. rewrite Hstart'. by rewrite Zplus_mod_idemp_l. }
  constructor; cbn [s_entries s_queue heap s_state proc next_id set_pc set_entries]; try done.
  - by eapply queue_of_ok_same.
  - by rewrite El.
  - rewrite El. exists (base + n). split; [exact Hb'|]. cbn [b' with_used b_length held pc set_pc]. unwrap. rewrite Z.add_0_r. replace (base + n + _) with (base + b_length (s_entries s)) by lia.
    eapply lays_impl; [|exact Hl]. intros id p e lo hi _ He Hok. exists e. split; [done|by eapply entry_ok_same].
Qed.

(** The info block is written, or has to wait for space in the write-back queue. *)
Lemma WriteInfo_step_ok H s start length : invariant H s → ∃ r, WriteInfo_step crc32 ticks start_block info_vmo_ s start length = Returns r ∧
  match r with None => True | Some s' => invariant H s' ∧ s'.(proc) = s.(proc) ∧ s'.(pc) = s.(pc) ∧ s'.(s_entries) = s.(s_entries) end.
Proof.
  intros Hs. unfold WriteInfo_step. destruct (_ && _); [by eexists|]. set (info := checksummed _ _). set (s1 := set_info s info).
  assert (invariant H s1) as Hs1 by (destruct Hs; by constructor). pose proof (iv_queue _ _ Hs1) as [(base & ps & Hok) _ _ [Hi1 Hi2] Hroom _].
  unfold Enqueue, IsBuffered, ZX_DEBUG_ASSERT. rewrite (proj2 (Z.eqb_neq _ _) Hi1). cbn [negb NewWriteTxn WriteTxn.vmoid_ Z.eqb VMOID_INVALID WriteTxn.operations_ enqueue_loop mbind outcome_bind app block_count_].
  match goal with |- context [with_transaction NewWork ?x] => set (t := x) end.
  pose proof (Enqueue_copies dev.(per_block) (info_vmos info_vmo_ s1) (s_queue s1) base ps (with_transaction NewWork t) Hok eq_refl) as E. cbn [transaction_ with_transaction t WriteTxn.operations_ WriteTxn.block_count_] in E.
  specialize (E ltac:(apply Forall_singleton; repeat split; cbn; done || lia) eq_refl ltac:(transitivity 1; [done|lia])).
  destruct (_ <=? _); [|rewrite E; by eexists]. destruct E as (q' & E & Hq' & Hsame). rewrite E. cbn [mbind outcome_bind]. eexists. split; [done|]. split; [|done].
  destruct (Queue_Enqueue_pushes _ _ _ _ _ E) as [t' Et]. eapply invariant_push; [done|eapply queue_of_ok_next; [exact (iv_queue _ _ Hs1)|by eauto|done]|done|exact Et|done|constructor].
Qed.

Lemma journal_info H s start length : invariant H s → s.(pc) = PcInfo start length →
  ∃ r, journal_step crc32 ticks start_block info_vmo_ s = Returns r ∧ invariant H (default s r).
Proof.
  intros Hs Epc. unfold journal_step. rewrite Epc. destruct (WriteInfo_step_ok H s start length Hs) as (r & -> & Hr). cbn [mbind outcome_bind]. destruct r as [s1|]; [|by exists None].
  destruct Hr as (Hs1 & Ep & Epc1 & _). rewrite Epc in Epc1. pose proof (iv_control _ _ Hs1) as Hc. unfold control in Hc. rewrite Epc1 in Hc. destruct Hc as [Hctx Hcl].
  destruct (EnqueueWork_ok H s1 Hs1 Hcl) as (s2 & -> & Hs2 & Ep2 & Epc2); [unfold control; cbn [pc with_dummy set_proc]; rewrite Epc1; by split|].
  cbn [mbind outcome_bind]. rewrite Epc1 in Epc2. destruct (start_queue_ok H s2 CkSync) as (s3 & -> & Hs3); rewrite ?Ep2; try done.
  - unfold current. by rewrite Epc2.
  - unfold held. by rewrite Epc2.
  - cbn. by rewrite Hctx.
  - by exists (Some s3).
Qed.

Lemma journal_loop H s : invariant H s → s.(pc) = PcLoop →
  ∃ r, journal_step crc32 ticks start_block info_vmo_ s = Returns r ∧ invariant H (default s r).
Proof.
  intros Hs Epc. unfold journal_step. rewrite Epc. destruct (consumer_signalled_ s); [|by exists None]. eexists. split; [done|]. cbn [default].
  pose proof (iv_control _ _ Hs) as Hc. unfold control in Hc. rewrite Epc in Hc. destruct Hc as (? & ? & ?).
  eapply invariant_control; [exact Hs|done..| | |done|]; [unfold line, current; by rewrite Epc|unfold held; by rewrite Epc|]. split; [|done]. left. split; [by right|done].
Qed.

Lemma journal_step_ok H s : invariant H s → ∃ r, journal_step crc32 ticks start_block info_vmo_ s = Returns r ∧ invariant H (default s r).
Proof.
  intros Hs. assert (∀ s', journal_step crc32 ticks start_block info_vmo_ s = Returns (Some s') ∧ invariant H s' →
    ∃ r, journal_step crc32 ticks start_block info_vmo_ s = Returns r ∧ invariant H (default s r)) as Hsome by (intros s' [? ?]; by exists (Some s')).
  pose proof (iv_control _ _ Hs) as Hc. unfold control in Hc. destruct (pc s) as [|id st| |c|c st| |start len|] eqn:Epc.
  - destruct (s_work_queue s) eqn:Eq; [destruct (journal_work_done H s Hs Epc Eq)|destruct (journal_work_pop H s _ _ Hs Epc Eq)]; by eapply Hsome.
  - destruct (journal_work_entry H s _ _ Hs Epc). by eapply Hsome.
  - destruct (journal_kick H s Hs Epc). by eapply Hsome.
  - destruct (journal_queue H s c Hs Epc). by eapply Hsome.
  - destruct c; [done|destruct (journal_wait H s st Hs Epc)|destruct (journal_delete H s st Hs Epc)|destruct (journal_sync H s st Hs Epc)|done]; by eapply Hsome.
  - destruct (journal_free H s Hs Epc). by eapply Hsome.
  - by eapply journal_info.
  - by apply journal_loop.
Qed.

(** ** All threads *)

Lemma system_step_ok H s a : invariant H s → valid a →
  ∃ r, step dev crc32 ticks start_block info_vmo_ a s = Returns r ∧ invariant (H ++ completes a s r) (default s r).
Proof.
  intros Hs Hv. destruct a as [v header commit w|v w| |]; cbn [step completes]; rewrite ?app_nil_r.
  - destruct (Enqueue_step_ok H s v header commit w Hs Hv) as (r & -> & Hr). cbn [mbind outcome_bind]. eexists. split; [done|]. by destruct r as [[? ?]|].
  - by apply data_step_ok.
  - by apply journal_step_ok.
  - by apply writeback_step_ok.
Qed.

Lemma history_ok actions H s : invariant H s → Forall valid actions →
  ∃ s' H', history dev crc32 ticks start_block info_vmo_ actions s = Returns (s', H') ∧ invariant (H ++ H') s'.
Proof.
  intros Hs Hv. revert H s Hs. induction Hv as [|a actions Ha _ IH]; intros H s Hs; cbn [history]; [exists s, []; by rewrite app_nil_r|].
  destruct (system_step_ok H s a Hs Ha) as (r & -> & Hr). cbn [mbind outcome_bind]. destruct (IH _ _ Hr) as (s' & H' & -> & Hs'). cbn [mbind outcome_bind fst snd].
  eexists _, _. split; [done|]. by rewrite app_assoc.
Qed.

Lemma started_ok info st q base : buffer_ok b0 base → b0.(b_length) = 0 → queue_of_ok b0 q → q.(work_queue_) = [] → q.(buffer_) = bq0 → invariant [] (started b0 info q st).
Proof.
  intros Hb Hl Hq Ew Eb. constructor; cbn [started s_entries s_queue s_state proc heap next_id sync_queue_ error_]; rewrite ?Ew, ?Eb; try done.
  - constructor.
  - split; [constructor|]. intros id [e He]. by rewrite lookup_empty in He.
  - exists base. split; [done|]. cbn. lia.
  - split; [done|]. intros id (w & Hw & _). by apply not_elem_of_nil in Hw.
  - split; [left; split; [by left|done]|done].
Qed.

(** An entry that is kept has its blocks in the used part of the buffer. *)
Lemma lays_within b h lo l hi id : lays b h lo l hi → id ∈ map fst l →
  ∃ e, h !! id = Some e ∧ (e.(status_) ≠ EkSync → ∃ lo' hi', placed (b_capacity b) e lo' hi' ∧ lo ≤ lo' ∧ hi' ≤ hi).
Proof.
  revert lo. induction l as [|[id' p] l IH]; intros lo; cbn [lays map]; [by intros _ ?%not_elem_of_nil|].
  intros (e & mid & He & Hm & Hok & Hl) [->|Hin]%elem_of_cons.
  - exists e. split; [done|]. intros Hne. destruct Hok as [[_ [? _]]|[Hp _]]; [done|]. exists lo, mid. pose proof (lays_le _ _ _ _ _ Hl). split_and!; [done|lia|lia].
  - destruct (IH _ Hl Hin) as (e' & He' & Hp). exists e'. split; [done|]. intros (lo' & hi' & ? & ? & ?)%Hp. exists lo', hi'. split_and!; [done|lia|lia].
Qed.

Lemma invariant_kept H s : invariant H s → ∃ base, buffer_ok s.(s_entries) base ∧ ∀ id, journaled H id →
  applied H id ∨ ∃ e lo hi, s.(heap) !! id = Some e ∧ placed (b_capacity s.(s_entries)) e lo hi ∧ base ≤ lo ∧ hi ≤ base + s.(s_entries).(b_length).
Proof.
  intros [_ _ _ _ _ _ [_ Hids] (base & Hb & Hl) Hsy [_ Hk] Hc]. exists base. split; [done|]. intros id [?|(e & He & Hst)]%Hk; [by left|right].
  assert (0 ≤ held s) as Hh. { unfold held, control in *. destruct (pc s) as [|? ?| |[]|[] ?| |? ?|]; try done; naive_solver. }
  destruct (Hids id ltac:(by eexists)) as [_ [Hin|Hin]%elem_of_app].
  - destruct (lays_within _ _ _ _ _ _ Hl Hin) as (e' & He' & Hp). rewrite He in He'. injection He' as <-. destruct (Hp Hst) as (lo & hi & ? & ? & ?). exists e, lo, hi. split_and!; [done|done|lia|lia].
  - apply (proj1 (Forall_forall _ _) Hsy) in Hin as (e' & He' & [Hs' _]). congruence.
Qed.

End protocol.

(** C1. Write-ahead logging. While the device works, for all requests of clients and whatever the order in
    which the clients, the journal thread and the write-back thread run: no assertion of the journal fails and
    every callback finds its entry; the data of an entry is written only after the entry is in the journal;
    and an entry that is in the journal keeps its blocks of the journal until its data has been written. *)
Theorem journal_write_ahead dev crc32 ticks start_block info_vmo_ b base info q st actions :
  (∀ m, dev.(device_status) m = ZX_OK) → (∀ n, 0 ≤ ticks n < 2 ^ 64) → 0 ≤ start_block < 2 ^ 38 → (∀ c ws, 0 ≤ crc32 c ws < 2 ^ 32) →
  buffer_ok b base → b.(b_length) = 0 → queue_of_ok dev info_vmo_ b q → q.(work_queue_) = [] → Forall (valid b q.(buffer_)) actions →
  ∃ s H, history dev crc32 ticks start_block info_vmo_ actions (started b info q st) = Returns (s, H) ∧ s.(s_state) = kRunning ∧
    (∀ k w id, H !! k = Some w → writes_data id w → ∃ k' w', (k' < k)%nat ∧ H !! k' = Some w' ∧ writes_entry id w') ∧
    ∃ base', buffer_ok s.(s_entries) base' ∧ ∀ id, journaled H id →
      applied H id ∨ ∃ e lo hi, s.(heap) !! id = Some e ∧ placed (b_capacity s.(s_entries)) e lo hi ∧ base' ≤ lo ∧ hi ≤ base' + s.(s_entries).(b_length).
Proof.
  intros Hdev Hticks Hstart Hcrc Hb Hl Hq Ew Hv.
  destruct (history_ok dev crc32 ticks start_block info_vmo_ Hdev Hticks Hstart Hcrc b q.(buffer_) actions [] (started b info q st)) as (s & H & E & Hs); [by eapply started_ok|done|].
  exists s, H. split; [done|]. split; [apply (iv_state _ _ _ _ _ _ _ Hs)|]. split; [apply (iv_order _ _ _ _ _ _ _ Hs)|]. by eapply invariant_kept.
Qed.

(** ** Examples *)

Definition example_buffer : Buffer := {| b_vmo := 2; b_vmoid := 6; b_data := replicate 12 []; b_start := 0; b_length := 0 |}.
Definition example_queue : WritebackQueue callback := {| buffer_ := {| b_vmo := 1; b_vmoid := 5; b_data := replicate 4 []; b_start := 0; b_length := 0 |}; work_queue_ := []; state_ := kRunning |}.
Definition example_start : System := started example_buffer [kJournalMagic; 0; 0; 0; 0] example_queue {| disk := replicate 40 []; transactions := 0 |}.

(** A client asks to write one block to block [d]. *)
Definition submit_block (d c : nat) : action :=
  Submit named_vmos (replicate kHeaderWords 5) (replicate kCommitWords 5)
    {| transaction_ := {| WriteTxn.vmoid_ := VMOID_INVALID; WriteTxn.operations_ := [write_op 9 3 (Z.of_nat d) 1]; WriteTxn.block_count_ := 1 |};
       ready_cb_ := None; sync_cb_ := [Client c] |}.

Lemma submit_block_valid d c : Z.of_nat d < 2 ^ 32 → valid example_buffer example_queue.(buffer_) (submit_block d c).
Proof.
  intros Hd. cbn [valid submit_block transaction_ WriteTxn.operations_ ready_cb_ sync_cb_ WriteTxn.vmoid_ WriteTxn.block_count_]. split_and!; try done.
  - apply Forall_singleton. by exists c.
  - apply Forall_singleton. repeat split; cbn; done || lia.
Qed.

Definition example_history dev actions : outcome (System * list Work) := history dev word_sum (λ n, Z.of_nat n mod 2 ^ 64) 20 3 actions example_start.

Definition example_actions : list action :=
  [submit_block 3 0; RunJournal; RunJournal; RunJournal; RunWriteback] ++ replicate 22 RunJournal ++ [RunWriteback; RunWriteback] ++ replicate 22 RunJournal.

Definition callbacks_of (r : outcome (System * list Work)) (k : nat) : option (option callback * list callback) :=
  match r with Returns (_, H) => (λ w : Work, (w.(ready_cb_), w.(sync_cb_))) <$> H !! k | _ => None end.

Lemma journal_write_ahead_witness : ∃ s H k w, example_history good_device example_actions = Returns (s, H) ∧ s.(s_state) = kRunning ∧
  (∃ w', H !! 2%nat = Some w' ∧ writes_data 0 w') ∧ (k < 2)%nat ∧ H !! k = Some w ∧ writes_entry 0 w.
Proof.
  destruct (journal_write_ahead good_device word_sum (λ n, Z.of_nat n mod 2 ^ 64) 20 3 example_buffer 0 [kJournalMagic; 0; 0; 0; 0] example_queue {| disk := replicate 40 []; transactions := 0 |}
    example_actions) as (s & H & E & Hst & Hord & _).
  - reflexivity.
  - intros n. apply Z.mod_pos_bound. reflexivity.
  - lia.
  - intros c ws. apply Z.mod_pos_bound. reflexivity.
  - constructor; vm_compute; done || split; done.
  - reflexivity.
  - constructor; [exists 0, []; constructor; vm_compute; done || (repeat split; done)|vm_compute; done || (repeat split; done)..].
  - reflexivity.
  - unfold example_actions. apply Forall_cons_2; [apply submit_block_valid; lia|]. repeat first [apply Forall_cons_2; [exact I|]|apply Forall_app_2|apply Forall_replicate; exact I|apply Forall_nil_2].
  - assert (callbacks_of (Returns (s, H)) 2 = Some (None, [Result 0; Client 0])) as H2.
    { rewrite <- E. vm_compute. reflexivity. }
    apply fmap_Some in H2 as (w2 & H2 & [= Hr Hs]). assert (writes_data 0 w2) as Hw2 by (split; [done|rewrite <- Hs; by left]).
    destruct (Hord 2%nat w2 0%nat H2 Hw2) as (k & w & Hk & Hkw & Hw). exists s, H, k, w. unfold example_history, example_start. split; [exact E|]. split; [exact Hst|].
    split; [exists w2; by split|]. split; [exact Hk|]. by split.
Defined.

(** A device that fails the first transaction. *)
Definition failing_device : Device := {| per_block := 16; device_status := λ n, if (n =? 0)%nat then ZX_ERR_IO else ZX_OK; device_torn := λ _ d, d |}.

Definition outlived_actions : list action := [submit_block 3 0; RunJournal; RunJournal; RunJournal; submit_block 4 1; RunWriteback] ++ replicate 17 RunJournal.

