(* ===== verification/Blobfs.v ===== *)
(** * The file system object (ulib/blobfs/blobfs.cpp, writeback.cpp; ulib/fs/block-txn.cpp)

    What [Blobfs] does for blobs: works are created and given to the journal or the
    write-back queue; changes of the maps and of the superblock are added to a
    transaction; the volume is extended, as the [SpaceManager] of the allocator; blocks
    are read from the device. *)

From S2P Require Import Prelude Bitmap RawBitmap RleBitmap IdAllocator Format Superblock Reservers MerkleTree Allocator Iterators.
From S2P Require Import Operations RingBuffer WriteTxn Writeback.

(** ** State *)

Inductive EnqueueType := kJournal | kData.

#[export] Instance EnqueueType_eq_dec : EqDecision EnqueueType.
Proof. solve_decision. Defined.

(** The allocator is not part of the record: it is given beside it, since each calls the other.
    [info_mapping_] is the contents of the VMO of the superblock.  [journal_] and [writeback_] are the
    capacities, [None] for a null pointer.  [accepted] are the works that the journal and the queue
    took, with the blocks that each copied from its VMOs.  The [answers] are the statuses of the calls to the
    kernel, the device and the queues, one after the other. *)
Record Blobfs := {
  info_ : Superblock;
  info_mapping_ : Superblock;
  journal_ : option Z;
  writeback_ : option Z;
  accepted : list (EnqueueType * list (Z * block));
  answers : nat → zx_status;
  time : nat;
  next_handle : Z;
  next_vmoid : Z;
}.

Definition with_info (bs : Blobfs) (info : Superblock) : Blobfs := {|
  info_ := info; info_mapping_ := bs.(info_mapping_); journal_ := bs.(journal_); writeback_ := bs.(writeback_);
  accepted := bs.(accepted); answers := bs.(answers); time := bs.(time);
  next_handle := bs.(next_handle); next_vmoid := bs.(next_vmoid) |}.

(** [memcpy(info_mapping_.start(), &info_, sizeof(info_))]. *)
Definition copy_info (bs : Blobfs) : Blobfs := {|
  info_ := bs.(info_); info_mapping_ := bs.(info_); journal_ := bs.(journal_); writeback_ := bs.(writeback_);
  accepted := bs.(accepted); answers := bs.(answers); time := bs.(time);
  next_handle := bs.(next_handle); next_vmoid := bs.(next_vmoid) |}.

Definition with_accepted (bs : Blobfs) (ws : list (EnqueueType * list (Z * block))) : Blobfs := {|
  info_ := bs.(info_); info_mapping_ := bs.(info_mapping_); journal_ := bs.(journal_); writeback_ := bs.(writeback_);
  accepted := ws; answers := bs.(answers); time := bs.(time);
  next_handle := bs.(next_handle); next_vmoid := bs.(next_vmoid) |}.

(** The answer to the next call. *)
Definition call (bs : Blobfs) : zx_status * Blobfs :=
  (bs.(answers) bs.(time),
   {| info_ := bs.(info_); info_mapping_ := bs.(info_mapping_); journal_ := bs.(journal_); writeback_ := bs.(writeback_);
      accepted := bs.(accepted); answers := bs.(answers); time := S bs.(time);
      next_handle := bs.(next_handle); next_vmoid := bs.(next_vmoid) |}).

(** [CreateAndMap]: a VMO of zeros, under a new handle. *)
Definition CreateAndMap (bs : Blobfs) (size : Z) : zx_status * option (Z * list Z) * Blobfs :=
  let '(status, bs) := call bs in
  if failed status then (status, None, bs)
  else (ZX_OK, Some (bs.(next_handle), replicate (Z.to_nat size) 0),
        {| info_ := bs.(info_); info_mapping_ := bs.(info_mapping_); journal_ := bs.(journal_); writeback_ := bs.(writeback_);
           accepted := bs.(accepted); answers := bs.(answers); time := bs.(time);
           next_handle := bs.(next_handle) + 1; next_vmoid := bs.(next_vmoid) |}).

(** The device gives a new id to a VMO that is attached. *)
Definition AttachVmo (bs : Blobfs) : zx_status * option Z * Blobfs :=
  let '(status, bs) := call bs in
  if failed status then (status, None, bs)
  else (ZX_OK, Some bs.(next_vmoid),
        {| info_ := bs.(info_); info_mapping_ := bs.(info_mapping_); journal_ := bs.(journal_); writeback_ := bs.(writeback_);
           accepted := bs.(accepted); answers := bs.(answers); time := bs.(time);
           next_handle := bs.(next_handle); next_vmoid := bs.(next_vmoid) + 1 |}).

(** ** Contents of VMOs *)

(** The handles of the VMOs of the superblock, the block map and the node map. *)
Definition info_vmo : Z := 1.
Definition block_map_vmo : Z := 2.
Definition node_map_vmo : Z := 3.

Definition words_bytes (ws : list Z) : list Z := flat_map (le_bytes 8) ws.

(** A block of a VMO, at an offset in bytes. *)
Definition vmo_block_at (bytes : list Z) (off : Z) : block := take (Z.to_nat kBlobfsBlockSize) (drop (Z.to_nat off) bytes).

Definition info_bytes (info : Superblock) : list Z :=
  let bytes := words_bytes (encode_superblock info) in
  bytes ++ replicate (Z.to_nat kBlobfsBlockSize - length bytes) 0.

(** The VMOs of the metadata. *)
Definition metadata (bs : Blobfs) (block_map : RawBitmapBase) (node_map : list Inode) (h : Z) : list Z :=
  if h =? info_vmo then info_bytes bs.(info_mapping_)
  else if h =? block_map_vmo then words_bytes block_map.(data_)
  else if h =? node_map_vmo then words_bytes (concat node_map)
  else [].

(** What the operations of a transaction copy. *)
Definition capture (vmos : Z → list Z) (ops : list UnbufferedOperation) : list (Z * block) :=
  flat_map (vmo_writes {| vmo_block := λ h off, vmo_block_at (vmos h) off; vmo_read_status := λ _ _ _, ZX_OK |}) ops.

(** ** Works *)

(** A work is its transaction; the callbacks are those of the blob. *)
Definition CreateWork (bs : Blobfs) : zx_status * option WriteTxn :=
  match bs.(writeback_) with
  | None => (ZX_ERR_BAD_STATE, None)
  | Some _ => (ZX_OK, Some NewWriteTxn)
  end.

(** The blocks are copied when the journal or the queue takes the work. *)
Definition take_work (vmos : Z → list Z) (bs : Blobfs) (work : WriteTxn) (type : EnqueueType) : zx_status * Blobfs :=
  let '(status, bs) := call bs in
  (status, if failed status then bs
           else with_accepted bs (bs.(accepted) ++ [(type, capture vmos work.(WriteTxn.operations_))])).

(** Both wait for space, having asserted that there can be enough; the entry of the journal asserts that its header has
    room for the blocks. *)
Definition EnqueueWork (vmos : Z → list Z) (bs : Blobfs) (work : WriteTxn) (type : EnqueueType) : outcome (zx_status * Blobfs) :=
  let blocks := BlkCount work in
  match type, bs.(journal_) with
  | kJournal, Some capacity =>
    _ ← ZX_DEBUG_ASSERT (negb (IsBuffered work));
    _ ← ZX_ASSERT ((blocks =? 0) || (blocks ⊞ 2 <=? capacity));
    _ ← ZX_DEBUG_ASSERT (blocks <=? kMaxEntryDataBlocks);
    Returns (take_work vmos bs work type)
  | _, _ =>
    match bs.(writeback_) with
    | Some capacity =>
      _ ← ZX_ASSERT (blocks <=? capacity);
      Returns (take_work vmos bs work type)
    | None => Returns (ZX_ERR_BAD_STATE, bs)
    end
  end.

(** [work] is [None] after it was moved away.  The rounds of the loop with [kMaxChunkBlocks]. *)
Fixpoint paginate (vmos : Z → list Z) (kMaxChunkBlocks : Z) (fuel : nat) (bs : Blobfs) (work : WriteTxn)
    (vmo relative_block absolute_block nblocks delta_blocks : Z) : outcome (zx_status * Blobfs * option WriteTxn) :=
  match fuel with
  | O => Diverges
  | S fuel =>
    if 0 <? nblocks then
      r ← (if kMaxChunkBlocks <? BlkCount work ⊞ delta_blocks then
             match CreateWork bs with
             | (ZX_OK, Some tmp) =>
               r ← EnqueueWork vmos bs work kData;
               let '(status, bs) := r in
               if failed status then Returns (status, bs, None) else Returns (ZX_OK, bs, Some tmp)
             | (status, _) => Returns (status, bs, Some work)
             end
           else Returns (ZX_OK, bs, Some work));
      let '(status, bs, work) := r in
      if failed status then Returns (status, bs, work)
      else
        match work with
        | None => Aborts
        | Some work =>
          work ← Enqueue work vmo relative_block absolute_block delta_blocks;
          let nblocks := nblocks ⊟ delta_blocks in
          paginate vmos kMaxChunkBlocks fuel bs work vmo (relative_block ⊞ delta_blocks) (absolute_block ⊞ delta_blocks)
            nblocks (Z.min nblocks kMaxChunkBlocks)
        end
    else Returns (ZX_OK, bs, Some work)
  end.

Definition EnqueuePaginated (vmos : Z → list Z) (bs : Blobfs) (work : WriteTxn)
    (vmo relative_block absolute_block nblocks : Z) : outcome (zx_status * Blobfs * option WriteTxn) :=
  match bs.(writeback_) with
  | None => Aborts
  | Some capacity =>
    let kMaxChunkBlocks := (3 ⊠ capacity) / 4 in
    paginate vmos kMaxChunkBlocks (S (Z.to_nat nblocks)) bs work vmo relative_block absolute_block nblocks
      (Z.min nblocks kMaxChunkBlocks)
  end.

(** ** Metadata in transactions *)

Definition WriteBitmap (bs : Blobfs) (wb : WriteTxn) (nblocks start_block : Z) : outcome WriteTxn :=
  let bbm_start_block := start_block / kBlobfsBlockBits in
  let bbm_end_block := round_up (start_block ⊞ nblocks) kBlobfsBlockBits / kBlobfsBlockBits in
  Enqueue wb block_map_vmo bbm_start_block (BlockMapStartBlock bs.(info_) ⊞ bbm_start_block) (bbm_end_block ⊟ bbm_start_block).

Definition WriteNode (bs : Blobfs) (wb : WriteTxn) (map_index : Z) : outcome WriteTxn :=
  let b := (map_index ⊠ kBlobfsInodeSize) / kBlobfsBlockSize in
  Enqueue wb node_map_vmo b (NodeMapStartBlock bs.(info_) ⊞ b) 1.

Definition WriteInfo (bs : Blobfs) (wb : WriteTxn) : outcome (Blobfs * WriteTxn) :=
  wb ← Enqueue wb info_vmo 0 0 1;
  Returns (copy_info bs, wb).

Definition with_alloc_counts (info : Superblock) (blocks inodes : Z) : Superblock := {|
  magic0 := info.(magic0); magic1 := info.(magic1); version := info.(version); flags := info.(flags);
  block_size := info.(block_size); data_block_count := info.(data_block_count);
  journal_block_count := info.(journal_block_count); inode_count := info.(inode_count);
  alloc_block_count := blocks; alloc_inode_count := inodes; blob_header_next := info.(blob_header_next);
  slice_size := info.(slice_size); vslice_count := info.(vslice_count); abm_slices := info.(abm_slices);
  ino_slices := info.(ino_slices); dat_slices := info.(dat_slices); journal_slices := info.(journal_slices) |}.

(** [info_.alloc_block_count += blocks] and [info_.alloc_inode_count += inodes]. *)
Definition count_allocated (bs : Blobfs) (blocks inodes : Z) : Blobfs :=
  with_info bs (with_alloc_counts bs.(info_) (bs.(info_).(alloc_block_count) ⊞ blocks) (bs.(info_).(alloc_inode_count) ⊞ inodes)).

Definition PersistBlocks (a : Allocator) (bs : Blobfs) (wb : WriteTxn) (reserved_extent : ReservedExtent)
    : outcome (Allocator * Blobfs * WriteTxn) :=
  a ← MarkBlocksAllocated a reserved_extent;
  e ← extent reserved_extent;
  let bs := count_allocated bs (Length e) 0 in
  wb ← WriteBitmap bs wb (Length e) (Start e);
  r ← WriteInfo bs wb;
  Returns (a, fst r, snd r).

Definition PersistNode (bs : Blobfs) (wb : WriteTxn) (node_index : Z) : outcome (Blobfs * WriteTxn) :=
  let bs := count_allocated bs 0 1 in
  wb ← WriteNode bs wb node_index;
  WriteInfo bs wb.

Definition FreeExtent (a : Allocator) (bs : Blobfs) (wb : WriteTxn) (e : Extent) : outcome (Allocator * Blobfs * WriteTxn) :=
  let start := Start e in
  let num_blocks := Length e in
  let end_ := start ⊞ num_blocks in
  r ← CheckBlocksAllocated a start end_;
  if (fst r : bool) then
    a ← FreeBlocks a e;
    let bs := count_allocated bs (- num_blocks) 0 in
    wb ← WriteBitmap bs wb num_blocks start;
    r ← WriteInfo bs wb;
    Returns (a, fst r, snd r)
  else Returns (a, bs, wb).

Definition Blobfs_FreeNode (a : Allocator) (bs : Blobfs) (wb : WriteTxn) (node_index : Z) : outcome (Allocator * Blobfs * WriteTxn) :=
  a ← FreeNode a node_index;
  let bs := count_allocated bs 0 (-1) in
  wb ← WriteNode bs wb node_index;
  Returns (a, bs, wb).

(** The iterator reads the nodes of the allocator, as they are when it is used. *)
Definition with_finder (it : AllocatedExtentIterator) (a : Allocator) : AllocatedExtentIterator := {|
  finder_ := a; inode_ := it.(inode_); node_index_ := it.(node_index_); extent_node_ := it.(extent_node_);
  block_index_ := it.(block_index_); extent_index_ := it.(extent_index_); local_index_ := it.(local_index_) |}.

Fixpoint free_extents (fuel : nat) (a : Allocator) (bs : Blobfs) (wb : WriteTxn) (it : AllocatedExtentIterator) (node_index : Z)
    : outcome (Allocator * Blobfs * WriteTxn) :=
  match fuel with
  | O => Diverges
  | S fuel =>
    d ← Done it;
    if (d : bool) then Returns (a, bs, wb)
    else
      i ← NodeIndex it;
      r ← (if negb (i =? node_index) then
             r ← Blobfs_FreeNode a bs wb i; Returns (r, i)
           else Returns ((a, bs, wb), node_index));
      let '((a, bs, wb), node_index) := (r : Allocator * Blobfs * WriteTxn * Z) in
      r ← Next (with_finder it a);
      let '(status, e, it) := r in
      _ ← ZX_ASSERT (bool_decide (status = ZX_OK));
      match e with
      | None => Aborts
      | Some e =>
        r ← FreeExtent a bs wb e;
        let '(a, bs, wb) := (r : Allocator * Blobfs * WriteTxn) in
        free_extents fuel a bs wb (with_finder it a) node_index
      end
  end.

(** There are at most as many rounds as extents, which are counted in 16 bits. *)
Definition FreeInode (a : Allocator) (bs : Blobfs) (wb : WriteTxn) (node_index : Z) : outcome (Allocator * Blobfs * WriteTxn) :=
  mapped_inode ← GetNode a node_index;
  if IsAllocated mapped_inode then
    r ← Blobfs_FreeNode a bs wb node_index;
    let '(a, bs, wb) := (r : Allocator * Blobfs * WriteTxn) in
    it ← NewAllocatedExtentIterator a node_index;
    r ← free_extents (S (Z.to_nat (field_get inode_extent_count mapped_inode))) a bs wb it node_index;
    let '(a, bs, wb) := (r : Allocator * Blobfs * WriteTxn) in
    r ← WriteInfo bs wb;
    Returns (a, fst r, snd r)
  else Returns (a, bs, wb).

(** ** Extending the volume *)

Definition with_slices (info : Superblock) (inodes blocks vslices inos dats : Z) : Superblock := {|
  magic0 := info.(magic0); magic1 := info.(magic1); version := info.(version); flags := info.(flags);
  block_size := info.(block_size); data_block_count := blocks;
  journal_block_count := info.(journal_block_count); inode_count := inodes;
  alloc_block_count := info.(alloc_block_count); alloc_inode_count := info.(alloc_inode_count);
  blob_header_next := info.(blob_header_next);
  slice_size := info.(slice_size); vslice_count := vslices; abm_slices := info.(abm_slices);
  ino_slices := inos; dat_slices := dats; journal_slices := info.(journal_slices) |}.

Definition zero_node : Inode := replicate kNodeWords 0.

(** The nodes of [blocks] blocks. *)
Definition nodes_of_blocks (blocks : Z) : nat := Z.to_nat (blocks * kBlobfsInodesPerBlock).

(** [ResizeableVmoMapper::Grow] of the node map; a smaller size is refused. *)
Definition grow_node_map (bs : Blobfs) (node_map : list Inode) (size : Z) : zx_status * Blobfs * list Inode :=
  if size <? kBlobfsInodeSize * Z.of_nat (length node_map) then (ZX_ERR_INVALID_ARGS, bs, node_map)
  else
    let '(status, bs) := call bs in
    (status, bs, if failed status then node_map else resize (Z.to_nat (size / kBlobfsInodeSize)) zero_node node_map).

(** [ino_slices], [length] cast to 32 bits and [kInodesPerSlice] are of 32 bits, and so is the product. *)
Definition Blobfs_AddInodes (bs : Blobfs) (node_map : list Inode) : outcome (zx_status * Blobfs * list Inode) :=
  let info := bs.(info_) in
  if negb (is_fvm info) then Returns (ZX_ERR_NO_SPACE, bs, node_map)
  else
    _ ← ZX_ASSERT (negb (info.(slice_size) / kBlobfsBlockSize =? 0));  (* the division *)
    let '(status, bs) := call bs in  (* VolumeExtend *)
    if failed status then Returns (status, bs, node_map)
    else
      let kInodesPerSlice := u32 (info.(slice_size) / kBlobfsInodeSize) in
      let inodes64 := u32 ((info.(ino_slices) + 1) * kInodesPerSlice) in
      _ ← ZX_DEBUG_ASSERT (inodes64 <=? UINT32_MAX);
      let inodes := u32 inodes64 in
      let inoblks := u32 (inodes + kBlobfsInodesPerBlock - 1) / kBlobfsInodesPerBlock in
      _ ← ZX_DEBUG_ASSERT (info.(inode_count) <=? UINT32_MAX);
      let inoblks_old := u32 (u32 info.(inode_count) + kBlobfsInodesPerBlock - 1) / kBlobfsInodesPerBlock in
      _ ← ZX_DEBUG_ASSERT (inoblks_old <=? inoblks);
      let '(status, bs, node_map) := grow_node_map bs node_map (u32 (inoblks * kBlobfsBlockSize)) in
      if failed status then Returns (ZX_ERR_NO_SPACE, bs, node_map)
      else
        let bs := with_info bs (with_slices info inodes info.(data_block_count) (info.(vslice_count) ⊞ 1)
                                  (u32 (info.(ino_slices) + 1)) info.(dat_slices)) in
        let node_map := take (nodes_of_blocks inoblks_old) node_map
          ++ replicate (length node_map - nodes_of_blocks inoblks_old) zero_node in
        match CreateWork bs with
        | (ZX_OK, Some wb) =>
          r ← WriteInfo bs wb;
          let '(bs, wb) := (r : Blobfs * WriteTxn) in
          wb ← Enqueue wb node_map_vmo inoblks_old (NodeMapStartBlock bs.(info_) ⊞ inoblks_old) (u32 (inoblks - inoblks_old));
          r ← EnqueueWork (metadata bs {| size_ := 0; data_ := [] |} node_map) bs wb kJournal;
          Returns (fst r, snd r, node_map)
        | (status, _) => Returns (status, bs, node_map)
        end.

(** [st] is the storage of the block map. *)
Definition Blobfs_AddBlocks (st : Storage) (bs : Blobfs) (nblocks : Z) (block_map : RawBitmapBase)
    : outcome (zx_status * Blobfs * RawBitmapBase) :=
  let info := bs.(info_) in
  if negb (is_fvm info) then Returns (ZX_ERR_NO_SPACE, bs, block_map)
  else
    let kBlocksPerSlice := info.(slice_size) / kBlobfsBlockSize in
    _ ← ZX_ASSERT (negb (kBlocksPerSlice =? 0));  (* the division *)
    let length := (nblocks ⊞ kBlocksPerSlice ⊟ 1) / kBlocksPerSlice in
    let blocks64 := (info.(dat_slices) ⊞ length) ⊠ kBlocksPerSlice in
    _ ← ZX_DEBUG_ASSERT (blocks64 <=? UINT32_MAX);
    let blocks := u32 blocks64 in
    let abmblks := u32 (blocks + kBlobfsBlockBits - 1) / kBlobfsBlockBits in
    let abmblks_old := (info.(data_block_count) ⊞ kBlobfsBlockBits ⊟ 1) / kBlobfsBlockBits in
    _ ← ZX_DEBUG_ASSERT (abmblks_old <=? abmblks);
    if kBlocksPerSlice <? abmblks then Returns (ZX_ERR_NO_SPACE, bs, block_map)
    else
      let '(status, bs) := call bs in  (* VolumeExtend *)
      if failed status then Returns (status, bs, block_map)
      else
        r ← RawBitmap.Grow st block_map (u32 (round_up blocks kBlobfsBlockBits));
        let '(status, block_map) := (r : zx_status * RawBitmapBase) in
        if negb (bool_decide (status = ZX_OK)) then Returns (ZX_ERR_NO_SPACE, bs, block_map)
        else
          let block_map := snd (RawBitmap.Shrink block_map blocks) in
          match CreateWork bs with
          | (ZX_OK, Some wb) =>
            wb ← (if abmblks_old <? abmblks then
                    Enqueue wb block_map_vmo abmblks_old (BlockMapStartBlock info ⊞ abmblks_old) (abmblks ⊟ abmblks_old)
                  else Returns wb);
            let bs := with_info bs (with_slices info info.(inode_count) blocks (info.(vslice_count) ⊞ length)
                                      info.(ino_slices) (u32 (info.(dat_slices) + u32 length))) in
            r ← WriteInfo bs wb;
            let '(bs, wb) := (r : Blobfs * WriteTxn) in
            r ← EnqueueWork (metadata bs block_map []) bs wb kJournal;
            Returns (fst r, snd r, block_map)
          | (status, _) => Returns (status, bs, block_map)
          end.

(** [Blobfs] is the space manager of its allocator. *)
Definition blobfs_space_manager (st : Storage) : SpaceManager Blobfs := {|
  Info := info_;
  AddInodes := Blobfs_AddInodes;
  AddBlocks := Blobfs_AddBlocks st;
|}.

(** ** Reading from the device *)

(** The request that takes the new blocks, if there is one; its length is of 32 bits. *)
Fixpoint merge_request (rs : list block_fifo_request) (id vmo_offset dev_offset blocks : Z) : option (list block_fifo_request) :=
  match rs with
  | [] => None
  | r :: rs =>
    let next := (cons r) <$> merge_request rs id vmo_offset dev_offset blocks in
    let resized len := {| req_vmoid := r.(req_vmoid); req_vmo_offset := r.(req_vmo_offset);
                          req_dev_offset := r.(req_dev_offset); req_length := len |} in
    if negb (r.(req_vmoid) =? id) then next
    else if r.(req_vmo_offset) =? vmo_offset then
      Some (if r.(req_length) <=? blocks then resized blocks :: rs else r :: rs)
    else if (r.(req_vmo_offset) ⊞ r.(req_length) =? vmo_offset) && (r.(req_dev_offset) ⊞ r.(req_length) =? dev_offset) then
      Some (resized (u32 (r.(req_length) + blocks)) :: rs)
    else next
  end.

(** [ReadTxn::Enqueue]. *)
Definition EnqueueOperation (rs : list block_fifo_request) (id vmo_offset dev_offset nblocks : Z)
    : outcome (list block_fifo_request) :=
  _ ← ZX_ASSERT (nblocks <? UINT32_MAX);
  let blocks := u32 nblocks in
  Returns (match merge_request rs id vmo_offset dev_offset blocks with
           | Some rs => rs
           | None => rs ++ [{| req_vmoid := id; req_vmo_offset := vmo_offset; req_dev_offset := dev_offset; req_length := blocks |}]
           end).

(** A request in blocks of the device, of which [k] make a block of the file system. *)
Fixpoint device_requests (k : Z) (rs : list block_fifo_request) : outcome (list block_fifo_request) :=
  match rs with
  | [] => Returns []
  | r :: rs =>
    let length := r.(req_length) ⊠ k in
    _ ← ZX_ASSERT (length <? UINT32_MAX);
    rest ← device_requests k rs;
    Returns ({| req_vmoid := r.(req_vmoid); req_vmo_offset := r.(req_vmo_offset) ⊠ k;
                req_dev_offset := r.(req_dev_offset) ⊠ k; req_length := u32 length |} :: rest)
  end.

(** Bytes of a buffer replaced. *)
Definition patch (bytes : list Z) (off : nat) (new : list Z) : list Z :=
  take (length bytes) (take off bytes ++ new) ++ drop (off + length new) bytes.

(** The blocks of a request are read into the VMO [id]. *)
Definition read_request (k : Z) (disk : list block) (id : Z) (vmo : list Z) (r : block_fifo_request) : list Z :=
  if r.(req_vmoid) =? id then
    foldl (λ vmo i, patch vmo (Z.to_nat ((r.(req_vmo_offset) / k + i) * kBlobfsBlockSize))
                      (default [] (disk !! Z.to_nat (r.(req_dev_offset) / k + i))))
      vmo (seqZ 0 (r.(req_length) / k))
  else vmo.

(** [Transact]: the status, and what becomes of each VMO. *)
Definition Transact (k : Z) (disk : list block) (bs : Blobfs) (rs : list block_fifo_request)
    : outcome (zx_status * Blobfs * (Z → list Z → list Z)) :=
  match rs with
  | [] => Returns (ZX_OK, bs, λ _ vmo, vmo)
  | _ =>
    rs ← device_requests k rs;
    let '(status, bs) := call bs in
    Returns (status, bs, λ id vmo, if failed status then vmo else foldl (read_request k disk id) vmo rs)
  end.
