(* ===== verification/Blob.v ===== *)
(** * Blobs (ulib/blobfs/blob.cpp, blob.h)

    The vnode of a blob: space is reserved when its size is set, its contents are
    collected in memory, and once they are complete and match the name, data and
    metadata are written; a blob that is read is loaded from the device and verified.
    The compressor is third-party code, of which [BlobCompressor] is the interface. *)

From S2P Require Import Prelude Bitmap RawBitmap RleBitmap IdAllocator Digest Format Superblock Reservers MerkleTree Allocator Iterators.
From S2P Require Import Operations RingBuffer WriteTxn Writeback Blobfs.

Definition kCompressionMinBytesSaved : Z := 8 * kBlobfsBlockSize.

(** ** The compressor *)

(** [Contents] is what is in the compressor's VMO.  The decompressors are given the size of the
    target and the source, and give the bytes that they wrote. *)
Class BlobCompressor (X : Type) := {
  BufferMax : Z → Z;
  NewCompressor : Z → option X;
  Compressor_Update : X → list Z → zx_status * X;
  Compressor_End : X → zx_status * X;
  Compressor_Size : X → Z;
  Contents : X → list Z;
  ZSTDDecompress : Z → list Z → zx_status * list Z;
  LZ4Decompress : Z → list Z → zx_status * list Z;
}.

(** ** State *)

Definition kBlobStateEmpty : Z := 0x1.
Definition kBlobStateDataWrite : Z := 0x2.
Definition kBlobStateReadable : Z := 0x4.
Definition kBlobStatePurged : Z := 0x8.
Definition kBlobStateError : Z := 0x10.
Definition kBlobStateMask : Z := 0xff.
Definition kBlobFlagDeletable : Z := 0x100.

(** The compressor comes with the handle of its VMO. *)
Record WritebackInfo (X : Type) := {
  bytes_written : Z;
  w_extents : list ReservedExtent;
  w_nodes : list ReservedNode;
  compressor : option (Z * X);
}.
Arguments bytes_written {X}.
Arguments w_extents {X}.
Arguments w_nodes {X}.
Arguments compressor {X}.

(** [mapping_] is the handle and the contents of the VMO.  [readable_event_] is [None] when there is no event, and
    says whether it is signalled. *)
Record Blob (X : Type) := {
  key : list Z;
  flags_ : Z;
  syncing_ : bool;
  mapping_ : option (Z * list Z);
  vmoid_ : Z;
  cloned_ : bool;
  readable_event_ : option bool;
  fd_count_ : Z;
  map_index_ : Z;
  inode_ : Inode;
  write_info_ : option (WritebackInfo X);
}.
Arguments key {X}.
Arguments flags_ {X}.
Arguments syncing_ {X}.
Arguments mapping_ {X}.
Arguments vmoid_ {X}.
Arguments cloned_ {X}.
Arguments readable_event_ {X}.
Arguments fd_count_ {X}.
Arguments map_index_ {X}.
Arguments inode_ {X}.
Arguments write_info_ {X}.

Section setters.
Context {X : Type}.
Implicit Types b : Blob X.

Definition NewBlob (digest : list Z) : Blob X := {|
  key := digest; flags_ := kBlobStateEmpty; syncing_ := false; mapping_ := None; vmoid_ := 0; cloned_ := false;
  readable_event_ := None; fd_count_ := 0; map_index_ := 0; inode_ := zero_node; write_info_ := None |}.

Definition GetState b : Z := Z.land b.(flags_) kBlobStateMask.

Definition DeletionQueued b : bool := negb (Z.land b.(flags_) kBlobFlagDeletable =? 0).

Definition Purgeable b : bool :=
  (b.(fd_count_) =? 0) && (DeletionQueued b || (Z.land (GetState b) kBlobStateReadable =? 0)).

Definition with_flags b (flags : Z) : Blob X := {|
  key := b.(key); flags_ := flags; syncing_ := b.(syncing_); mapping_ := b.(mapping_); vmoid_ := b.(vmoid_);
  cloned_ := b.(cloned_); readable_event_ := b.(readable_event_); fd_count_ := b.(fd_count_);
  map_index_ := b.(map_index_); inode_ := b.(inode_); write_info_ := b.(write_info_) |}.

Definition SetState b (new_state : Z) : Blob X :=
  with_flags b (Z.lor (Z.land b.(flags_) (u32 (Z.lnot kBlobStateMask))) new_state).

Definition with_mapping b (m : option (Z * list Z)) : Blob X := {|
  key := b.(key); flags_ := b.(flags_); syncing_ := b.(syncing_); mapping_ := m; vmoid_ := b.(vmoid_);
  cloned_ := b.(cloned_); readable_event_ := b.(readable_event_); fd_count_ := b.(fd_count_);
  map_index_ := b.(map_index_); inode_ := b.(inode_); write_info_ := b.(write_info_) |}.

Definition with_vmoid b (id : Z) : Blob X := {|
  key := b.(key); flags_ := b.(flags_); syncing_ := b.(syncing_); mapping_ := b.(mapping_); vmoid_ := id;
  cloned_ := b.(cloned_); readable_event_ := b.(readable_event_); fd_count_ := b.(fd_count_);
  map_index_ := b.(map_index_); inode_ := b.(inode_); write_info_ := b.(write_info_) |}.

Definition with_inode b (index : Z) (n : Inode) : Blob X := {|
  key := b.(key); flags_ := b.(flags_); syncing_ := b.(syncing_); mapping_ := b.(mapping_); vmoid_ := b.(vmoid_);
  cloned_ := b.(cloned_); readable_event_ := b.(readable_event_); fd_count_ := b.(fd_count_);
  map_index_ := index; inode_ := n; write_info_ := b.(write_info_) |}.

Definition with_write_info b (w : option (WritebackInfo X)) : Blob X := {|
  key := b.(key); flags_ := b.(flags_); syncing_ := b.(syncing_); mapping_ := b.(mapping_); vmoid_ := b.(vmoid_);
  cloned_ := b.(cloned_); readable_event_ := b.(readable_event_); fd_count_ := b.(fd_count_);
  map_index_ := b.(map_index_); inode_ := b.(inode_); write_info_ := w |}.

(** [syncing_] and the event. *)
Definition with_sync b (s : bool) (e : option bool) : Blob X := {|
  key := b.(key); flags_ := b.(flags_); syncing_ := s; mapping_ := b.(mapping_); vmoid_ := b.(vmoid_);
  cloned_ := b.(cloned_); readable_event_ := e; fd_count_ := b.(fd_count_);
  map_index_ := b.(map_index_); inode_ := b.(inode_); write_info_ := b.(write_info_) |}.

(** Users of the blob: descriptors and clones of its VMO. *)
Definition with_users b (fds : Z) (clones : bool) : Blob X := {|
  key := b.(key); flags_ := b.(flags_); syncing_ := b.(syncing_); mapping_ := b.(mapping_); vmoid_ := b.(vmoid_);
  cloned_ := clones; readable_event_ := b.(readable_event_); fd_count_ := fds;
  map_index_ := b.(map_index_); inode_ := b.(inode_); write_info_ := b.(write_info_) |}.

Definition with_compressor (w : WritebackInfo X) (c : option (Z * X)) : WritebackInfo X :=
  {| bytes_written := w.(bytes_written); w_extents := w.(w_extents); w_nodes := w.(w_nodes); compressor := c |}.

Definition with_bytes_written (w : WritebackInfo X) (n : Z) : WritebackInfo X :=
  {| bytes_written := n; w_extents := w.(w_extents); w_nodes := w.(w_nodes); compressor := w.(compressor) |}.

End setters.

(** ** The root hash in an inode *)

Definition bytes_word (bs : list Z) : Z := foldr (λ x w, x + 256 * w) 0 bs.

Definition set_root (n : Inode) (key : list Z) : Inode :=
  foldl (λ n i, field_set (merkle_root_hash i) n (bytes_word (take 8 (drop (8 * i) key)))) n [0; 1; 2; 3]%nat.

Definition get_root (n : Inode) : list Z := flat_map (λ i, le_bytes 8 (field_get (merkle_root_hash i) n)) [0; 1; 2; 3]%nat.

Section blob.
Context {X : Type} `{BlobCompressor X}.
(** The hash function; whether allocations succeed; the storages of the block map and of the levels of the
    id allocator; blocks of the device in a block of the file system. *)
Context (hash : list Z → list Z) (alloc : bool) (bst : Storage) (ist : Z → Storage) (k : Z).
Implicit Types (a : Allocator) (bs : Blobfs) (b : Blob X).

#[local] Instance space : SpaceManager Blobfs := blobfs_space_manager bst.

(** The VMOs that works of the blob copy from. *)
Definition blob_vmos a bs b (h : Z) : list Z :=
  match b.(mapping_), b.(write_info_) with
  | Some (m, bytes), w =>
    if h =? m then bytes
    else match w with
         | Some {| compressor := Some (c, x) |} =>
           if h =? c then Contents x else metadata bs a.(block_map_) a.(node_map_) h
         | _ => metadata bs a.(block_map_) a.(node_map_) h
         end
  | None, _ => metadata bs a.(block_map_) a.(node_map_) h
  end.

(** [memset(inode_.merkle_root_hash, 0, ...)] and the fields that are known. *)
Definition size_inode (n : Inode) (size_data : Z) : outcome Inode :=
  let n := field_set blob_size (set_root n (replicate 32 0)) size_data in
  m ← MerkleTreeBlocks n;
  Returns (field_set block_count n (u32 (m + u32 (BlobDataBlocks n)))).

(** The contents from the Merkle tree on, and from the data on. *)
Definition GetMerkle b : outcome (list Z) :=
  match b.(mapping_) with Some (_, bytes) => Returns bytes | None => Aborts end.

Definition GetData b : outcome (list Z) :=
  m ← MerkleTreeBlocks b.(inode_);
  bytes ← GetMerkle b;
  Returns (drop (Z.to_nat (m * kBlobfsBlockSize)) bytes).

Definition Blob_Verify b : outcome zx_status :=
  let data_size := field_get blob_size b.(inode_) in
  data ← (if negb (data_size =? 0) then d ← GetData b; Returns (Some d) else Returns None);
  tree ← (if negb (data_size =? 0) then t ← GetMerkle b; Returns (Some t) else Returns None);
  merkle_size ← GetTreeLength data_size;
  MerkleTree.Verify hash alloc data data_size tree merkle_size 0 data_size b.(key).

Definition BlobCloseHandles b : Blob X := with_sync (with_mapping b None) b.(syncing_) None.

(** ** Writing the metadata *)

Definition on_node a (s : Blobfs * WriteTxn * Z) (node : ReservedNode) : outcome (Allocator * (Blobfs * WriteTxn * Z)) :=
  let '(bs, wb, remaining_blocks) := s in
  i ← index node;
  r ← PersistNode bs wb i;
  Returns (a, (fst r, snd r, remaining_blocks)).

(** The rest of a split extent is a temporary, which gives its blocks back. *)
Definition on_extent a (s : Blobfs * WriteTxn * Z) (r : ReservedExtent)
    : outcome (IterationCommand * ReservedExtent * Allocator * (Blobfs * WriteTxn * Z)) :=
  let '(bs, wb, remaining_blocks) := s in
  _ ← ZX_DEBUG_ASSERT (0 <? remaining_blocks);
  e ← extent r;
  p ← (if Length e <=? remaining_blocks then Returns (r, a, remaining_blocks ⊟ Length e)
       else
         p ← SplitAt alloc a.(reserved_blocks_) r (u16 remaining_blocks);
         let '(r, rest, reserver) := (p : ReservedExtent * ReservedExtent * RleBitmap) in
         p ← ReservedExtent_Reset alloc reserver rest;
         Returns (r, with_reserved_blocks a (snd p), 0));
  let '(r, a, remaining_blocks) := (p : ReservedExtent * Allocator * Z) in
  p ← PersistBlocks a bs wb r;
  let '(a, bs, wb) := (p : Allocator * Blobfs * WriteTxn) in
  Returns (if remaining_blocks =? 0 then Stop else Continue, r, a, (bs, wb, remaining_blocks)).

(** The blocks and nodes of the blob are recorded; the handles that the populator holds are destroyed. *)
Definition populate a bs b (wb : WriteTxn) (w : WritebackInfo X) : outcome (Allocator * Blobfs * WriteTxn) :=
  _ ← GetNode a b.(map_index_);
  a ← SetNode a b.(map_index_) b.(inode_);
  populator ← NewNodePopulator w.(w_extents) w.(w_nodes);
  r ← Walk on_node on_extent populator a (bs, wb, field_get block_count b.(inode_));
  let '(status, populator, a, (bs, wb, _)) := r in
  _ ← ZX_ASSERT (bool_decide (status = ZX_OK));
  let non_allocation_flags := Z.lor kBlobFlagZSTDCompressed kBlobFlagLZ4Compressed in
  a ← update_node a b.(map_index_) (λ n,
        field_set node_flags n (Z.lor (field_get node_flags n) (Z.land (field_get node_flags b.(inode_)) non_allocation_flags)));
  blocks ← reset_extents alloc a.(reserved_blocks_) populator.(extents_);
  nodes ← reset_nodes alloc a.(reserved_nodes_) populator.(nodes_);
  Returns (with_reserved_nodes (with_reserved_blocks a blocks) nodes, bs, wb).

(** The handles of a [WritebackInfo] are destroyed with it. *)
Definition drop_write_info a (w : option (WritebackInfo X)) : outcome Allocator :=
  match w with
  | None => Returns a
  | Some w =>
    blocks ← reset_extents alloc a.(reserved_blocks_) w.(w_extents);
    nodes ← reset_nodes alloc a.(reserved_nodes_) w.(w_nodes);
    Returns (with_reserved_nodes (with_reserved_blocks a blocks) nodes)
  end.

(** Signals the event, if there is one. *)
Definition signal_readable bs b : zx_status * Blobfs * Blob X :=
  match b.(readable_event_) with
  | None => (ZX_OK, bs, b)
  | Some _ =>
    let '(status, bs) := call bs in
    (status, bs, if failed status then SetState b kBlobStateError else with_sync b b.(syncing_) (Some true))
  end.

Definition WriteMetadata a bs b : outcome (zx_status * Allocator * Blobfs * Blob X) :=
  _ ← ZX_DEBUG_ASSERT (GetState b =? kBlobStateDataWrite);
  match CreateWork bs with
  | (ZX_OK, Some wb) =>
    let b := with_inode b b.(map_index_) (set_root b.(inode_) b.(key)) in
    let b := SetState b kBlobStateReadable in
    let '(status, bs, b) := signal_readable bs b in
    if failed status then Returns (status, a, bs, b)
    else
      let b := with_sync b true b.(readable_event_) in
      match b.(write_info_) with
      | None => Aborts
      | Some w =>
        r ← (if negb (field_get block_count b.(inode_) =? 0) then
               r ← populate a bs b wb w;
               Returns (r, {| bytes_written := w.(bytes_written); w_extents := []; w_nodes := []; compressor := w.(compressor) |})
             else
               _ ← ZX_DEBUG_ASSERT (Z.of_nat (length w.(w_nodes)) =? 1);
               node ← array_get w.(w_nodes) 0;
               a ← MarkInodeAllocated a node;
               i ← index node;
               r ← PersistNode bs wb i;
               Returns ((a, fst r, snd r), w));
        let '((a, bs, wb), w) := (r : Allocator * Blobfs * WriteTxn * WritebackInfo X) in
        r ← EnqueueWork (metadata bs a.(block_map_) a.(node_map_)) bs wb Blobfs.kJournal;
        let '(status, bs) := r in
        if failed status then Returns (status, a, bs, with_write_info b (Some w))
        else
          a ← drop_write_info a (Some w);
          Returns (ZX_OK, a, bs, with_write_info b None)
      end
  | (status, _) => Returns (status, a, bs, b)
  end.

(** ** Reserving space *)

(** The vectors of handles on the stack are destroyed. *)
Definition give_back a (extents : list ReservedExtent) (nodes : list ReservedNode) : outcome Allocator :=
  drop_write_info a (Some {| bytes_written := 0; w_extents := extents; w_nodes := nodes; compressor := None |}).

(** [BlobCompressor::Create]. *)
Definition CreateCompressor bs (blob_size : Z) : option (Z * X) * Blobfs :=
  match CreateAndMap bs (BufferMax blob_size) with
  | (ZX_OK, Some (h, _), bs) => ((λ x, (h, x)) <$> NewCompressor blob_size, bs)
  | (_, _, bs) => (None, bs)
  end.

Definition null_blob a bs b : outcome (zx_status * Allocator * Blobfs * Blob X) :=
  r ← ReserveNodes alloc ist a bs 1 [];
  let '(status, a, bs, nodes) := r in
  if failed status then Returns (status, a, bs, b)
  else
    node ← array_get nodes 0;
    i ← index node;
    a ← drop_write_info a b.(write_info_);
    let b := with_write_info (with_inode b i b.(inode_))
      (Some {| bytes_written := 0; w_extents := []; w_nodes := nodes; compressor := None |}) in
    status ← Blob_Verify b;
    if failed status then Returns (status, a, bs, b)
    else WriteMetadata a bs (SetState b kBlobStateDataWrite).

(** The VMOs of the blob: the compressor's and its own.  [None] when a status is to be returned. *)
Definition open_vmos bs (n : Inode) : zx_status * option (option (Z * X) * (Z * list Z) * Z) * Blobfs :=
  let size := field_get blob_size n in
  let '(compressor, ok, bs) :=
    if kCompressionMinBytesSaved <=? size then
      match CreateCompressor bs size with (Some c, bs) => (Some c, true, bs) | (None, bs) => (None, false, bs) end
    else (None, true, bs) in
  if negb ok then (ZX_OK, None, bs)  (* [status], which is that of the reservation *)
  else
    match CreateAndMap bs (u32 (field_get block_count n * kBlobfsBlockSize)) with
    | (ZX_OK, Some mapping, bs) =>
      match AttachVmo bs with
      | (ZX_OK, Some id, bs) => (ZX_OK, Some (compressor, mapping, id), bs)
      | (status, _, bs) => (status, None, bs)
      end
    | (status, _, bs) => (status, None, bs)
    end.

Definition SpaceAllocate a bs b (size_data : Z) : outcome (zx_status * Allocator * Blobfs * Blob X) :=
  if negb (GetState b =? kBlobStateEmpty) then Returns (ZX_ERR_BAD_STATE, a, bs, b)
  else
    n ← size_inode b.(inode_) size_data;
    let b := with_inode b b.(map_index_) n in
    if field_get blob_size n =? 0 then null_blob a bs b
    else
      r ← ReserveBlocks alloc a bs (field_get block_count n) [];
      let '(status, a, bs, extents) := r in
      if failed status then Returns (status, a, bs, b)
      else if kMaxBlobExtents <? Z.of_nat (length extents) then
        a ← give_back a extents [];
        Returns (ZX_ERR_BAD_STATE, a, bs, b)
      else
        r ← ReserveNodes alloc ist a bs (NodeCountForExtents (u16 (Z.of_nat (length extents)))) [];
        let '(status, a, bs, nodes) := r in
        if failed status then a ← give_back a extents []; Returns (status, a, bs, b)
        else
          match open_vmos bs n with
          | (status, None, bs) => a ← give_back a extents nodes; Returns (status, a, bs, b)
          | (status, Some (compressor, mapping, id), bs) =>
            node ← array_get nodes 0;
            i ← index node;
            a ← drop_write_info a b.(write_info_);
            let w := {| bytes_written := 0; w_extents := extents; w_nodes := nodes; compressor := compressor |} in
            let b := with_write_info (with_mapping (with_vmoid (with_inode b i n) id) (Some mapping)) (Some w) in
            Returns (ZX_OK, a, bs, SetState b kBlobStateDataWrite)
          end.

(** ** Writing the data *)

Definition ConsiderCompressionAbort (n : Inode) (w : WritebackInfo X) : outcome (WritebackInfo X) :=
  match w.(compressor) with
  | None => Aborts
  | Some (_, x) =>
    Returns (if field_get blob_size n ⊟ kCompressionMinBytesSaved <? Compressor_Size x then with_compressor w None else w)
  end.

(** The steps of the compressor, each followed by [ConsiderCompressionAbort]. *)
Definition compression_step (n : Inode) (w : WritebackInfo X) (step : X → zx_status * X) : outcome (zx_status * WritebackInfo X) :=
  match w.(compressor) with
  | None => Returns (ZX_OK, w)
  | Some (c, x) =>
    let '(status, x) := step x in
    let w := with_compressor w (Some (c, x)) in
    if failed status then Returns (status, w) else w ← ConsiderCompressionAbort n w; Returns (ZX_OK, w)
  end.

Definition compress_data (n : Inode) (w : WritebackInfo X) (data : list Z) : outcome (zx_status * WritebackInfo X) :=
  compression_step n w (λ x, Compressor_Update x data).

Definition end_compression (n : Inode) (w : WritebackInfo X) : outcome (zx_status * WritebackInfo X) := compression_step n w Compressor_End.

(** Streams [count] blocks of the VMO [h] to the device; [bias] is the offset in the blob at which the VMO starts. *)
Definition stream_to_disk a bs b (wb : WriteTxn) (it : BlockIterator VectorExtentIterator) (fuel : nat) (h bias count : Z)
    : outcome (zx_status * BlockIterator VectorExtentIterator * (Blobfs * option WriteTxn)) :=
  StreamBlocks (λ s vmo_offset dev_offset length,
    match s with
    | (bs, Some wb) =>
      r ← EnqueuePaginated (blob_vmos a bs b) bs wb h (vmo_offset ⊟ bias) (dev_offset ⊞ DataStartBlock bs.(info_)) length;
      let '(status, bs, wb) := r in Returns (status, (bs, wb))
    | (_, None) => Aborts
    end) fuel it count (bs, Some wb).

(** The Merkle tree is created and compared with the name; the mapping has the tree after. *)
Definition create_tree b (merkle_size : Z) : outcome (zx_status * Blob X) :=
  data ← GetData b;
  data ← read_bytes data 0 (field_get blob_size b.(inode_));
  match b.(mapping_) with
  | None => Aborts
  | Some (h, bytes) =>
    tree ← read_bytes bytes 0 merkle_size;
    r ← Create hash alloc (inl data) false tree;
    let '(status, tree, root) := r in
    bytes ← write_bytes bytes 0 tree;
    let b := with_mapping b (Some (h, bytes)) in
    Returns (if failed status then status
             else if bool_decide (root = Some b.(key)) then ZX_OK else ZX_ERR_IO_DATA_INTEGRITY, b)
  end.

(** The Merkle tree: created and streamed, or for a small blob the data verified. *)
Definition write_tree a bs b (wb : WriteTxn) (it : BlockIterator VectorExtentIterator) (fuel : nat)
    : outcome (zx_status * Blobfs * Blob X * option WriteTxn * BlockIterator VectorExtentIterator) :=
  merkle_size ← GetTreeLength (field_get blob_size b.(inode_));
  merkle_blocks ← MerkleTreeBlocks b.(inode_);
  if 0 <? merkle_size then
    r ← create_tree b merkle_size;
    let '(status, b) := r in
    if failed status then Returns (status, bs, b, Some wb, it)
    else
      match b.(mapping_) with
      | None => Aborts
      | Some (h, _) =>
        r ← stream_to_disk a bs b wb it fuel h 0 merkle_blocks;
        let '(status, it, (bs, wb)) := r in
        Returns (status, bs, b, wb, it)
      end
  else status ← Blob_Verify b; Returns (status, bs, b, Some wb, it).

(** The data, compressed or not. *)
Definition write_data a bs b (w : WritebackInfo X) (wb : WriteTxn) (it : BlockIterator VectorExtentIterator) (fuel : nat)
    : outcome (zx_status * Blobfs * Blob X * option WriteTxn) :=
  merkle_blocks ← MerkleTreeBlocks b.(inode_);
  match w.(compressor) with
  | Some (c, x) =>
    let blocks64 := round_up (Compressor_Size x) kBlobfsBlockSize / kBlobfsBlockSize in
    _ ← ZX_DEBUG_ASSERT (blocks64 <=? UINT32_MAX);
    let blocks := u32 blocks64 in
    _ ← ZX_DEBUG_ASSERT (BlockIterator_BlockIndex it =? merkle_blocks);
    r ← stream_to_disk a bs b wb it fuel c merkle_blocks blocks;
    let '(status, _, (bs, wb)) := r in
    if failed status then Returns (status, bs, b, wb)
    else
      let blocks := u32 (blocks + merkle_blocks) in
      _ ← ZX_DEBUG_ASSERT (blocks <? field_get block_count b.(inode_));
      let n := field_set block_count b.(inode_) blocks in
      let n := field_set node_flags n (Z.lor (field_get node_flags n) kBlobFlagZSTDCompressed) in
      Returns (ZX_OK, bs, with_inode b b.(map_index_) n, wb)
  | None =>
    let blocks64 := round_up (field_get blob_size b.(inode_)) kBlobfsBlockSize / kBlobfsBlockSize in
    _ ← ZX_DEBUG_ASSERT (blocks64 <=? UINT32_MAX);
    match b.(mapping_) with
    | None => Aborts
    | Some (h, _) =>
      r ← stream_to_disk a bs b wb it fuel h 0 (u32 blocks64);
      let '(status, _, (bs, wb)) := r in
      Returns (status, bs, b, wb)
    end
  end.

(** What [WriteInternal] does with a blob that is complete; an error is followed by [set_error]. *)
Definition finish_write a bs b (w : WritebackInfo X) (wb : WriteTxn) : outcome (zx_status * Allocator * Blobfs * Blob X) :=
  r ← end_compression b.(inode_) w;
  let '(status, w) := (r : zx_status * WritebackInfo X) in
  let b := with_write_info b (Some w) in
  if failed status then Returns (status, a, bs, b)
  else
    let fuel := S (length w.(w_extents)) in
    r ← write_tree a bs b wb (NewBlockIterator (NewVectorExtentIterator w.(w_extents))) fuel;
    let '(status, bs, b, wb, it) := r in
    if failed status then Returns (status, a, bs, b)
    else
      match wb with
      | None => Aborts
      | Some wb =>
        r ← write_data a bs b w wb it fuel;
        let '(status, bs, b, wb) := r in
        if failed status then Returns (status, a, bs, b)
        else
          match wb with
          | None => Aborts
          | Some wb =>
            r ← EnqueueWork (blob_vmos a bs b) bs wb kData;
            let '(status, bs) := r in
            if failed status then Returns (status, a, bs, b) else WriteMetadata a bs b
          end
      end.

(** [mapping_.vmo().write(...)]. *)
Definition vmo_write bs b (data : list Z) (offset : Z) : zx_status * Blobfs * Blob X :=
  let '(status, bs) := call bs in
  if failed status then (status, bs, b)
  else
    match b.(mapping_) with
    | Some (h, bytes) =>
      if offset + Z.of_nat (length data) <=? Z.of_nat (length bytes)
      then (ZX_OK, bs, with_mapping b (Some (h, patch bytes (Z.to_nat offset) data)))
      else (ZX_ERR_OUT_OF_RANGE, bs, b)
    | None => (ZX_ERR_BAD_STATE, bs, b)
    end.

(** The status and [*actual]. *)
Definition WriteInternal a bs b (data : list Z) : outcome (zx_status * Z * Allocator * Blobfs * Blob X) :=
  let len := Z.of_nat (length data) in
  if len =? 0 then Returns (ZX_OK, 0, a, bs, b)
  else
    merkle_blocks ← MerkleTreeBlocks b.(inode_);
    let merkle_bytes := u32 (merkle_blocks * kBlobfsBlockSize) in
    if negb (GetState b =? kBlobStateDataWrite) then Returns (ZX_ERR_BAD_STATE, 0, a, bs, b)
    else
      match b.(write_info_) with
      | None => Aborts
      | Some w =>
        let size := field_get blob_size b.(inode_) in
        let to_write := Z.min len (size ⊟ w.(bytes_written)) in
        let data := take (Z.to_nat to_write) data in
        let '(status, bs, b) := vmo_write bs b data (w.(bytes_written) ⊞ merkle_bytes) in
        if failed status then Returns (status, 0, a, bs, b)
        else
          let w := with_bytes_written w (w.(bytes_written) ⊞ to_write) in
          r ← compress_data b.(inode_) w data;
          let '(status, w) := (r : zx_status * WritebackInfo X) in
          let b := with_write_info b (Some w) in
          if failed status then Returns (status, to_write, a, bs, b)
          else if w.(bytes_written) <? size then Returns (ZX_OK, to_write, a, bs, b)
          else
            match CreateWork bs with
            | (ZX_OK, Some wb) =>
              r ← finish_write a bs b w wb;
              let '(status, a, bs, b) := r in
              Returns (status, to_write, a, bs, if failed status then SetState b kBlobStateError else b)
            | (status, _) => Returns (status, to_write, a, bs, b)
            end
      end.

(** [Append] sets [*out_actual] to the end of the data, as [*out_end] would be; [*out_end] is not set. *)
Definition Append a bs b (data : list Z) : outcome (zx_status * Z * Allocator * Blobfs * Blob X) :=
  r ← WriteInternal a bs b data;
  let '(status, _, a, bs, b) := r in
  if GetState b =? kBlobStateDataWrite then
    match b.(write_info_) with
    | None => Aborts
    | Some w => Returns (status, w.(bytes_written), a, bs, b)
    end
  else Returns (status, field_get blob_size b.(inode_), a, bs, b).

(** ** Reading *)

(** Streams [count] blocks of the device to requests that read them into the VMO [id]. *)
Definition stream_from_disk bs (rs : list block_fifo_request) (it : BlockIterator AllocatedExtentIterator) (fuel : nat)
    (id bias count : Z) : outcome (zx_status * BlockIterator AllocatedExtentIterator * list block_fifo_request) :=
  StreamBlocks (λ rs vmo_offset dev_offset length,
    rs ← EnqueueOperation rs id (vmo_offset ⊟ bias) (dev_offset ⊞ DataStartBlock bs.(info_)) length;
    Returns (ZX_OK, rs)) fuel it count rs.

(** One round for each of the at most 65535 extents of the inode, and one more. *)
Definition stream_fuel a b : nat :=
  S (Z.to_nat (field_get inode_extent_count (default zero_node (a.(node_map_) !! Z.to_nat b.(map_index_))))).

(** What the reads of a transaction make of the blob's mapping. *)
Definition read_mapping (read : Z → list Z → list Z) b : Blob X :=
  with_mapping b ((λ m, (fst m, read b.(vmoid_) (snd m))) <$> b.(mapping_)).

(** [~BlockTxn]: the requests that are left are sent, and nobody looks at the status. *)
Definition destroy_txn (disk : list block) bs (rs : list block_fifo_request) b : outcome (Blobfs * Blob X) :=
  r ← Transact k disk bs rs;
  let '(_, bs, read) := r in
  Returns (bs, read_mapping read b).

Definition InitUncompressed (disk : list block) a bs b : outcome (zx_status * Blobfs * Blob X) :=
  it ← NewAllocatedExtentIterator a b.(map_index_);
  let blob_data_blocks := BlobDataBlocks b.(inode_) in
  merkle_blocks ← MerkleTreeBlocks b.(inode_);
  if UINT32_MAX <? blob_data_blocks ⊞ merkle_blocks then Returns (ZX_ERR_IO_DATA_INTEGRITY, bs, b)
  else
    r ← stream_from_disk bs [] (NewBlockIterator it) (stream_fuel a b) b.(vmoid_) 0 (u32 (blob_data_blocks + merkle_blocks));
    let '(status, _, rs) := r in
    if failed status then r ← destroy_txn disk bs rs b; Returns (status, fst r, snd r)
    else
      r ← Transact k disk bs rs;
      let '(status, bs, read) := r in
      Returns (status, bs, read_mapping read b).

Inductive CompressionAlgorithm := LZ4 | ZSTD.

(** [DetachVmo], which ends every run that attached the compressed VMO; its
    status is not looked at.  The transaction is destroyed after it. *)
Definition InitCompressed (disk : list block) a bs b (algorithm : CompressionAlgorithm) : outcome (zx_status * Blobfs * Blob X) :=
  merkle_blocks ← MerkleTreeBlocks b.(inode_);
  let compressed_blocks := u32 (field_get block_count b.(inode_) - merkle_blocks) in
  let compressed_size := compressed_blocks * kBlobfsBlockSize in
  match CreateAndMap bs compressed_size with
  | (ZX_OK, Some (_, compressed), bs) =>
    match AttachVmo bs with
    | (ZX_OK, Some compressed_vmoid, bs) =>
      it ← NewAllocatedExtentIterator a b.(map_index_);
      r ← stream_from_disk bs [] (NewBlockIterator it) (stream_fuel a b) b.(vmoid_) 0 merkle_blocks;
      let '(status, it, rs) := r in
      if failed status then r ← destroy_txn disk (snd (call bs)) rs b; Returns (status, fst r, snd r)
      else
        _ ← ZX_DEBUG_ASSERT (BlockIterator_BlockIndex it =? merkle_blocks);
        r ← stream_from_disk bs rs it (stream_fuel a b) compressed_vmoid merkle_blocks compressed_blocks;
        let '(status, _, rs) := r in
        if failed status then r ← destroy_txn disk (snd (call bs)) rs b; Returns (status, fst r, snd r)
        else
          r ← Transact k disk bs rs;
          let '(status, bs, read) := r in
          let b := read_mapping read b in
          if failed status then Returns (status, snd (call bs), b)
          else
            let source := read compressed_vmoid compressed in
            let size := field_get blob_size b.(inode_) in
            let '(status, target) :=
              match algorithm with LZ4 => LZ4Decompress size source | ZSTD => ZSTDDecompress size source end in
            let b := with_mapping b ((λ m, (fst m, patch (snd m) (Z.to_nat (merkle_blocks * kBlobfsBlockSize)) target)) <$> b.(mapping_)) in
            Returns (if failed status then status
                     else if negb (Z.of_nat (length target) =? size) then ZX_ERR_IO_DATA_INTEGRITY else ZX_OK, snd (call bs), b)
    | (status, _, bs) => Returns (status, bs, b)
    end
  | (status, _, bs) => Returns (status, bs, b)
  end.

(** Loads the blob into a new mapping and verifies it. *)
Definition load (disk : list block) a bs b (vmo_size : Z) : outcome (zx_status * Blobfs * Blob X) :=
  match CreateAndMap bs vmo_size with
  | (ZX_OK, Some mapping, bs) =>
    let b := with_mapping b (Some mapping) in
    match AttachVmo bs with
    | (ZX_OK, Some id, bs) =>
      let b := with_vmoid b id in
      let flags := field_get node_flags b.(inode_) in
      r ← (if negb (Z.land flags kBlobFlagLZ4Compressed =? 0) then InitCompressed disk a bs b LZ4
           else if negb (Z.land flags kBlobFlagZSTDCompressed =? 0) then InitCompressed disk a bs b ZSTD
           else InitUncompressed disk a bs b);
      let '(status, bs, b) := r in
      if failed status then Returns (status, bs, b) else status ← Blob_Verify b; Returns (status, bs, b)
    | (status, _, bs) => Returns (status, bs, b)
    end
  | (status, _, bs) => Returns (status, bs, b)
  end.

Definition InitVmos (disk : list block) a bs b : outcome (zx_status * Blobfs * Blob X) :=
  match b.(mapping_) with
  | Some _ => Returns (ZX_OK, bs, b)
  | None =>
    merkle_blocks ← MerkleTreeBlocks b.(inode_);
    let num_blocks := BlobDataBlocks b.(inode_) ⊞ merkle_blocks in
    if num_blocks =? 0 then Returns (ZX_OK, bs, b)
    else
      r ← (if SIZE_MAX <? num_blocks * kBlobfsBlockSize then Returns (ZX_ERR_OUT_OF_RANGE, bs, b)
           else load disk a bs b (num_blocks * kBlobfsBlockSize));
      let '(status, bs, b) := (r : zx_status * Blobfs * Blob X) in
      Returns (status, bs, if failed status then BlobCloseHandles b else b)
  end.

(** The status and the bytes read. *)
Definition ReadInternal (disk : list block) a bs b (len off : Z) : outcome (zx_status * list Z * Blobfs * Blob X) :=
  if negb (GetState b =? kBlobStateReadable) then Returns (ZX_ERR_BAD_STATE, [], bs, b)
  else
    let size := field_get blob_size b.(inode_) in
    if size =? 0 then Returns (ZX_OK, [], bs, b)
    else
      r ← InitVmos disk a bs b;
      let '(status, bs, b) := r in
      if failed status then Returns (status, [], bs, b)
      else if size <=? off then Returns (ZX_OK, [], bs, b)
      else
        let len := if size ⊟ off <? len then size ⊟ off else len in
        merkle_blocks ← MerkleTreeBlocks b.(inode_);
        let merkle_bytes := u32 (merkle_blocks * kBlobfsBlockSize) in
        let '(status, bs) := call bs in
        if failed status then Returns (status, [], bs, b)
        else
          bytes ← GetMerkle b;
          let start := merkle_bytes ⊞ off in
          if start + len <=? Z.of_nat (length bytes)
          then Returns (ZX_OK, take (Z.to_nat len) (drop (Z.to_nat start) bytes), bs, b)
          else Returns (ZX_ERR_OUT_OF_RANGE, [], bs, b).

(** ** The life of a blob *)

Definition PopulateInode a b (node_index : Z) : outcome (Blob X) :=
  _ ← ZX_DEBUG_ASSERT (b.(map_index_) =? 0);
  n ← GetNode a node_index;
  Returns (with_inode (SetState b kBlobStateReadable) node_index n).

Definition CompleteSync b : Blob X := with_sync b false b.(readable_event_).

(** Statuses of the calls of [GetReadableEvent] are answers; the signal's is not looked at. *)
Definition GetReadableEvent bs b : zx_status * Blobfs * Blob X :=
  let '(status, bs, b) :=
    match b.(readable_event_) with
    | Some _ => (ZX_OK, bs, b)
    | None =>
      let '(status, bs) := call bs in
      if failed status then (status, bs, b)
      else if GetState b =? kBlobStateReadable then
        let '(signalled, bs) := call bs in
        (ZX_OK, bs, with_sync b b.(syncing_) (Some (negb (failed signalled))))
      else (ZX_OK, bs, with_sync b b.(syncing_) (Some false))
    end in
  if failed status then (status, bs, b) else let '(status, bs) := call bs in (status, bs, b).

(** The bytes of the clone. *)
Definition CloneVmo (disk : list block) a bs b : outcome (zx_status * list Z * Blobfs * Blob X) :=
  let size := field_get blob_size b.(inode_) in
  if negb (GetState b =? kBlobStateReadable) || (size =? 0) then Returns (ZX_ERR_BAD_STATE, [], bs, b)
  else
    r ← InitVmos disk a bs b;
    let '(status, bs, b) := r in
    if failed status then Returns (status, [], bs, b)
    else
      merkle_blocks ← MerkleTreeBlocks b.(inode_);
      let merkle_bytes := u32 (merkle_blocks * kBlobfsBlockSize) in
      bytes ← GetMerkle b;
      let '(s1, bs) := call bs in  (* create_child *)
      if failed s1 then Returns (s1, [], bs, b)
      else
        let '(s2, bs) := call bs in  (* replace_as_executable *)
        if failed s2 then Returns (s2, [], bs, b)
        else
          let '(s3, bs) := call bs in  (* replace *)
          if failed s3 then Returns (s3, [], bs, b)
          else Returns (ZX_OK, take (Z.to_nat size) (drop (Z.to_nat merkle_bytes) bytes), bs, with_users b b.(fd_count_) true).

Definition HandleNoClones b : outcome (Blob X) :=
  _ ← ZX_DEBUG_ASSERT b.(cloned_);
  Returns (with_users b b.(fd_count_) false).

(** [DetachVmo]'s status is not looked at. *)
Definition ActivateLowMemory bs b : outcome (Blobfs * Blob X) :=
  _ ← ZX_ASSERT (negb b.(cloned_));
  Returns (match b.(mapping_) with Some _ => snd (call bs) | None => bs end, with_mapping b None).

(** The destructor. *)
Definition destroy_blob a bs b : outcome (Allocator * Blobfs) :=
  r ← ActivateLowMemory bs b;
  a ← drop_write_info a b.(write_info_);
  Returns (a, fst r).

(** The vnode that [VerifyBlob] makes is not in the cache, and is destroyed at the end. *)
Definition VerifyBlob (disk : list block) a bs (node_index : Z) : outcome (zx_status * Blobfs) :=
  n ← GetNode a node_index;
  b ← PopulateInode a (NewBlob (get_root n)) node_index;
  r ← InitVmos disk a bs b;
  let '(status, bs, b) := r in
  r ← destroy_blob a bs b;
  Returns (status, snd r).

Definition Open b : Blob X := with_users b (u32 (b.(fd_count_) + 1)) b.(cloned_).

(** What [Purge] does before it evicts the blob from the cache: a readable blob is freed. *)
Definition free_purged a bs b : outcome (zx_status * Allocator * Blobfs) :=
  _ ← ZX_DEBUG_ASSERT (b.(fd_count_) =? 0);
  _ ← ZX_DEBUG_ASSERT (Purgeable b);
  if GetState b =? kBlobStateReadable then
    _ ← ZX_ASSERT (DeletionQueued b);
    match CreateWork bs with
    | (ZX_OK, Some wb) =>
      r ← FreeInode a bs wb b.(map_index_);
      let '(a, bs, wb) := (r : Allocator * Blobfs * WriteTxn) in
      r ← EnqueueWork (metadata bs a.(block_map_) a.(node_map_)) bs wb Blobfs.kJournal;
      Returns (fst r, a, snd r)
    | (status, _) => Returns (status, a, bs)
    end
  else Returns (ZX_OK, a, bs).

(** [evicted] is the answer of the cache to [Evict]. *)
Definition Purge (evicted : zx_status) a bs b : outcome (zx_status * Allocator * Blobfs * Blob X) :=
  r ← free_purged a bs b;
  let '(status, a, bs) := (r : zx_status * Allocator * Blobfs) in
  if failed status then Returns (status, a, bs, b)
  else
    _ ← ZX_ASSERT (bool_decide (evicted = ZX_OK));
    Returns (ZX_OK, a, bs, SetState b kBlobStatePurged).

Definition TryPurge (evicted : zx_status) a bs b : outcome (zx_status * Allocator * Blobfs * Blob X) :=
  if Purgeable b then Purge evicted a bs b else Returns (ZX_OK, a, bs, b).

Definition QueueUnlink (evicted : zx_status) a bs b : outcome (zx_status * Allocator * Blobfs * Blob X) :=
  TryPurge evicted a bs (with_flags b (Z.lor b.(flags_) kBlobFlagDeletable)).

Definition Close (evicted : zx_status) a bs b : outcome (zx_status * Allocator * Blobfs * Blob X) :=
  _ ← ZX_DEBUG_ASSERT (0 <? b.(fd_count_));
  TryPurge evicted a bs (with_users b (u32 (b.(fd_count_) - 1)) b.(cloned_)).

End blob.
