(* ===== verification/BlobWrite.v ===== *)
(** * What a blob that is written leaves on the device *)

From S2P Require Import Prelude Bitmap RawBitmap RleBitmap IdAllocator Digest Format Superblock Reservers MerkleTree Allocator AllocatorBlocks Iterators Streaming.
From S2P Require Import Operations RingBuffer RingCopy WriteTxn Writeback Blobfs Blob.

(** ** Calls of a callback on pieces *)

Section calls.
Context {S : Type} (g : S → Z → Z → Z → outcome (zx_status * S)).

Fixpoint run_calls (s : S) (ps : list (Z * Z * Z)) : outcome (zx_status * S) :=
  match ps with
  | [] => Returns (ZX_OK, s)
  | (l, d, c) :: ps => r ← g s l d c; let '(st, s) := r in if failed st then Returns (st, s) else run_calls s ps
  end.

Lemma StreamBlocks_calls {I} `{ExtentIteratorLaws I} fuel (b : BlockIterator I) local rs n s s' :
  block_ok b local rs → 0 ≤ n < 2 ^ 32 → n ≤ run_total rs → (length rs < fuel)%nat →
  run_calls s (pieces local n rs) = Returns (ZX_OK, s') →
  ∃ b', StreamBlocks g fuel b n s = Returns (ZX_OK, b', s') ∧ block_ok b' (local + n) (rest n rs).
Proof.
  revert b local rs n s. induction fuel as [|fuel IH]; intros b local rs n s Hok Hn Ht Hf Hrun; [lia|]. cbn [StreamBlocks].
  pose proof (block_ok_pos _ _ _ Hok) as Hpos. destruct rs as [|[d c] rs].
  { cbn in Ht. assert (n = 0) as -> by lia. cbn in Hrun. injection Hrun as <-. exists b. rewrite Z.add_0_r. by ztest. }
  apply Forall_cons in Hpos as [Hc Hpos]. cbn in Hc. cbn [pieces rest] in *. rewrite run_total_cons in Ht. cbn [snd] in Ht.
  destruct (Z.leb_spec n 0).
  { cbn in Hrun. injection Hrun as <-. assert (n = 0) as -> by lia. exists b. rewrite Z.add_0_r. by ztest. }
  ztest. rewrite (block_ok_done _ _ _ Hok). cbn [mbind outcome_bind].
  destruct (BlockIterator_Next_ok b local d c rs n Hok) as (b1 & -> & Hok1); [lia|]. rewrite (block_ok_index _ _ _ Hok).
  cbn [mbind outcome_bind run_calls] in *. rewrite failed_ok. destruct (g s local d (Z.min c n)) as [[st s1]| |]; [|done..].
  cbn [mbind outcome_bind] in *. destruct (failed st) eqn:Est.
  { injection Hrun as -> ->. by rewrite failed_ok in Est. }
  cbn in Hf. destruct (Z.leb_spec c n).
  - rewrite Z.min_l in * by lia. unwrap.
    destruct (IH b1 (local + c) rs (n - c) s1 Hok1 ltac:(lia) ltac:(lia) ltac:(lia) Hrun) as (b' & -> & Hb'). exists b'.
    split; [done|]. by replace (local + n) with (local + c + (n - c)) by lia.
  - rewrite (Z.min_r c n) in * by lia. rewrite Z.sub_diag. change (u32 0) with 0.
    replace (pieces (local + c) (n - c) rs) with (@nil (Z * Z * Z)) in Hrun by (destruct rs as [|[] ?]; cbn; by ztest).
    injection Hrun as ->. destruct fuel as [|fuel]; [lia|]. cbn [StreamBlocks Z.ltb Z.compare]. by exists b1.
Qed.

(** An invariant of the calls, in terms of the blocks that they were given. *)
Lemma run_calls_inv (P : list (Z * Z) → S → Prop) ps s :
  (∀ l d c pre post s, ps = pre ++ (l, d, c) :: post → P (piece_blocks pre) s →
    ∃ s', g s l d c = Returns (ZX_OK, s') ∧ P (piece_blocks pre ++ blocks_of l d c) s') →
  P [] s → ∃ s', run_calls s ps = Returns (ZX_OK, s') ∧ P (piece_blocks ps) s'.
Proof.
  intros Hstep HP. assert (∀ post pre s, ps = pre ++ post → P (piece_blocks pre) s →
    ∃ s', run_calls s post = Returns (ZX_OK, s') ∧ P (piece_blocks ps) s') as Hgen; [|by apply (Hgen ps [] s)].
  clear s HP. induction post as [|[[l d] c] post IH]; intros pre s Hps HP.
  { exists s. split; [done|]. by rewrite Hps, app_nil_r. }
  destruct (Hstep l d c pre post s Hps HP) as (s1 & E & H1). cbn [run_calls]. rewrite E. cbn [mbind outcome_bind]. rewrite failed_ok.
  apply (IH (pre ++ [(l, d, c)])); [by rewrite <- app_assoc|]. unfold piece_blocks in *. rewrite flat_map_app. cbn. by rewrite app_nil_r.
Qed.

End calls.

(** ** The blocks of runs *)

Lemma fst_blocks_of l d c : map fst (blocks_of l d c) = seqZ l c.
Proof.
  unfold blocks_of. rewrite map_map. cbn. pose proof (fmap_add_seqZ l 0 c) as E. rewrite Z.add_0_r in E. exact E.
Qed.

Lemma fst_run_blocks local rs : Forall (λ r, 0 ≤ snd r) rs → map fst (run_blocks local rs) = seqZ local (run_total rs).
Proof.
  intros Hrs. revert local. induction Hrs as [|[d c] rs Hc Hrs IH]; intros local; [done|]. cbn [run_blocks]. rewrite map_app, fst_blocks_of, IH.
  rewrite run_total_cons. cbn [snd] in *. rewrite seqZ_app; [done|done|]. clear -Hrs. induction Hrs; [done|]. rewrite run_total_cons. lia.
Qed.

Lemma take_seqZ m n i : take i (seqZ m n) = seqZ m (Z.min (Z.of_nat i) n).
Proof.
  apply list_eq. intros j. destruct (decide (j < i)%nat).
  - rewrite lookup_take_lt by done. destruct (decide (Z.of_nat j < n)).
    + rewrite !lookup_seqZ_lt by lia. done.
    + rewrite !lookup_seqZ_ge by lia. done.
  - rewrite lookup_take_ge, lookup_seqZ_ge by lia. done.
Qed.

Lemma pieces_from lo n rs : Forall (λ r, 0 ≤ snd r) rs → Forall (λ p, lo ≤ fst (fst p)) (pieces lo n rs).
Proof.
  intros Hrs. revert lo n. induction Hrs as [|[d c] rs Hc Hrs IH]; intros lo n; cbn [pieces]; [done|]. destruct (n <=? 0); [done|].
  constructor; [cbn; lia|]. eapply Forall_impl; [apply IH|]. cbn in *. intros. lia.
Qed.

(** The offsets of the blocks given before a piece are all below it. *)
Lemma pieces_before local n rs pre post l d c :
  Forall (λ r, 0 ≤ snd r) rs → pieces local n rs = pre ++ (l, d, c) :: post →
  ∀ x, x ∈ piece_blocks pre → local ≤ fst x < l.
Proof.
  intros Hrs. revert local n pre. induction Hrs as [|[d1 c1] rs Hc Hrs IH]; intros local n pre E x Hx; cbn [pieces] in E; [by destruct pre|].
  destruct (n <=? 0); [by destruct pre|]. destruct pre as [|p pre]; [by apply list_elem_of_In in Hx|]. injection E as <- E.
  cbn [piece_blocks flat_map fst snd] in Hx. cbn [snd] in Hc.
  assert (local + c1 ≤ l) as Hl.
  { pose proof (pieces_from (local + c1) (n - c1) rs Hrs) as H. rewrite E in H. apply Forall_app in H as [_ H]. by apply Forall_cons in H as [H _]. }
  apply elem_of_app in Hx as [Hx|Hx]; [|specialize (IH _ _ _ E x Hx); lia].
  apply list_elem_of_fmap in Hx as (i & -> & Hi%elem_of_seqZ). cbn. lia.
Qed.

(** ** Works on their way *)

(** The file system after calls that only took works. *)
Definition advance (bs : Blobfs) (ws : list (EnqueueType * list (Z * block))) (n : nat) : Blobfs := {|
  info_ := bs.(info_); info_mapping_ := bs.(info_mapping_); journal_ := bs.(journal_); writeback_ := bs.(writeback_);
  accepted := ws; answers := bs.(answers); time := n; next_handle := bs.(next_handle); next_vmoid := bs.(next_vmoid) |}.

(** No call fails. *)
Definition quiet (bs : Blobfs) : Prop := ∀ n, bs.(answers) n = ZX_OK.

Record txn_ok (wb : WriteTxn) : Prop := {
  tx_buffered : IsBuffered wb = false;
  tx_fits : Forall op_fits wb.(WriteTxn.operations_);
  tx_count : BlkCount wb = blocks wb.(WriteTxn.operations_);
}.

Lemma new_txn_ok : txn_ok NewWriteTxn.
Proof. by constructor. Qed.

Lemma blocks_pos ops : Forall op_fits ops → 0 ≤ blocks ops.
Proof. induction 1 as [|o ops (_ & _ & _ & Hl & _) _ IH]; cbn; [done|]. unfold blocks in IH. lia. Qed.

Lemma length_capture vmos ops : Forall op_fits ops → Z.of_nat (length (capture vmos ops)) = blocks ops.
Proof.
  induction 1 as [|o ops (_ & _ & _ & Hl & _) _ IH]; [done|]. cbn [capture flat_map]. rewrite length_app. unfold vmo_writes at 1. rewrite length_map, length_seqZ.
  fold (capture vmos ops). cbn [blocks foldr]. unfold blocks in IH. lia.
Qed.

(** What a block of the device gets when the blocks [D], each a VMO, an offset in it and a block of the device, are written. *)
Definition moved (vmos : Z → list Z) (D : list (Z * Z * Z)) (d : Z) (x : block) : Prop :=
  ∃ h off, (h, off, d) ∈ D ∧ x = vmo_block_at (vmos h) (off * kBlobfsBlockSize).

Lemma capture_elem vmos ops d x : Forall op_fits ops →
  (d, x) ∈ capture vmos ops ↔ ∃ h off, in_ops ops (h, kWrite, off, d) = true ∧ x = vmo_block_at (vmos h) (off * kBlobfsBlockSize).
Proof.
  induction 1 as [|o ops (Ht & _ & _ & Hl & _) _ IH]; cbn [capture flat_map].
  - split; [by intros ?%list_elem_of_In|by intros (? & ? & ? & _)].
  - rewrite elem_of_app. fold (capture vmos ops). rewrite IH. unfold vmo_writes. rewrite list_elem_of_fmap. cbn [vmo_block in_ops existsb]. setoid_rewrite orb_true_iff.
    setoid_rewrite in_op_iff. rewrite Ht. split.
    + intros [(i & [= -> ->] & Hi%elem_of_seqZ)|(h & off & ? & ->)]; [|eauto]. eexists _, (vmo_offset (u_op o) + i). split; [left; split_and!; done || lia|done].
    + intros (h & off & [(-> & _ & Ho & Hd)|Ho] & ->); [left|right; eauto]. exists (off - vmo_offset (u_op o)). split; [|apply elem_of_seqZ; lia].
      f_equal; [lia|]. do 2 f_equal. lia.
Qed.

(** Since [bs0], works were taken and [wb] is being filled, and together they write the blocks [D]. *)
Record in_flight (vmos : Z → list Z) (max : Z) (bs0 bs : Blobfs) (wb : WriteTxn) (D : list (Z * Z * Z)) : Prop := {
  fl_txn : txn_ok wb;
  fl_max : blocks wb.(WriteTxn.operations_) ≤ max;
  fl_ops : ∀ h t off d, in_ops wb.(WriteTxn.operations_) (h, t, off, d) = true → (h, off, d) ∈ D;
  fl_new : ∃ new n, bs = advance bs0 (bs0.(accepted) ++ map (pair kData) new) n ∧ Forall (λ w, Z.of_nat (length w) ≤ max) new ∧
    ∀ d x, (d, x) ∈ concat new ++ capture vmos wb.(WriteTxn.operations_) ↔ moved vmos D d x;
}.

Definition items (h bias base : Z) (bl : list (Z * Z)) : list (Z * Z * Z) := map (λ x, (h, fst x - bias, snd x + base)) bl.

Lemma take_work_ok vmos bs wb type : quiet bs →
  take_work vmos bs wb type = (ZX_OK, advance bs (bs.(accepted) ++ [(type, capture vmos wb.(WriteTxn.operations_))]) (S bs.(time))).
Proof. intros Hq. unfold take_work, call. rewrite Hq, failed_ok. done. Qed.

Lemma EnqueueWork_data vmos bs wb cap : quiet bs → bs.(writeback_) = Some cap → BlkCount wb ≤ cap →
  EnqueueWork vmos bs wb kData = Returns (ZX_OK, advance bs (bs.(accepted) ++ [(kData, capture vmos wb.(WriteTxn.operations_))]) (S bs.(time))).
Proof. intros Hq Hw Hc. unfold EnqueueWork. rewrite Hw. unfold ZX_ASSERT. ztest. cbn [mbind outcome_bind]. by rewrite take_work_ok. Qed.

Section paginated.
Context (vmos : Z → list Z) (max cap : Z) (bs0 : Blobfs).
Context (Hquiet : quiet bs0) (Hcap : bs0.(writeback_) = Some cap) (Hmax : 0 < max ≤ cap) (Hcap40 : cap ≤ 2 ^ 40).

(** The work is handed over, and a new one is filled. *)
Lemma in_flight_flush bs wb D : in_flight vmos max bs0 bs wb D →
  ∃ bs', EnqueueWork vmos bs wb kData = Returns (ZX_OK, bs') ∧ in_flight vmos max bs0 bs' NewWriteTxn D.
Proof.
  intros [[Hb Hf Hc] Hm Ho (new & n & -> & Hlen & Hin)]. eexists. split; [apply (EnqueueWork_data _ _ _ cap); [done|done|lia]|].
  constructor; [apply new_txn_ok|cbn; lia|done|]. exists (new ++ [capture vmos wb.(WriteTxn.operations_)]), (S n). split_and!.
  - cbn. by rewrite map_app, app_assoc.
  - apply Forall_app. split; [done|]. apply Forall_singleton. rewrite length_capture by done. lia.
  - intros d x. rewrite <- Hin, concat_app. cbn. by rewrite !app_nil_r.
Qed.

(** Blocks are added to the work. *)
Lemma in_flight_add bs wb D h rel abs n : in_flight vmos max bs0 bs wb D → op_fits (write_op h rel abs n) → h ≠ ZX_HANDLE_INVALID →
  blocks wb.(WriteTxn.operations_) + n ≤ max → (∀ off d, (h, off, d) ∈ D → off < rel) →
  ∃ wb', Enqueue wb h rel abs n = Returns wb' ∧ in_flight vmos max bs0 bs wb' (D ++ items h 0 0 (blocks_of rel abs n)).
Proof.
  intros [[Hb Hf Hc] Hm Ho (new & tm & -> & Hlen & Hin)] Hfit Hh Hroom Hfresh. pose proof Hfit as (_ & Hr & Ha & Hn & Hrn & Han). cbn in *.
  pose proof (blocks_pos _ Hf) as Hpos.
  assert (∀ off d, in_op (write_op h rel abs n) (h, kWrite, off, d) = true ↔ (h, off, d) ∈ items h 0 0 (blocks_of rel abs n)) as Hnew.
  { intros off d. rewrite in_op_iff. cbn. unfold items, blocks_of. rewrite map_map. cbn. rewrite list_elem_of_fmap. split.
    - intros (_ & _ & ? & ?). exists (off - rel). split; [do 2 f_equal; lia|apply elem_of_seqZ; lia].
    - intros (i & [= -> ->] & Hi%elem_of_seqZ). split_and!; done || lia. }
  destruct (Enqueue_ok wb h rel abs n Hb Hh Hf Hfit Hc ltac:(lia)) as (wb' & E & Hb' & Hf' & Hc' & Hbl & Hin').
  { apply Forall_forall. intros o Hoin Hvm Hoff. exfalso. pose proof (proj1 (Forall_forall _ _) Hf o Hoin) as (Ht & _ & _ & Hl & _).
    specialize (Ho h kWrite rel (dev_offset (u_op o))). apply (Z.lt_irrefl rel), (Hfresh _ (dev_offset (u_op o))), Ho.
    apply existsb_exists. exists o. split; [by apply list_elem_of_In|]. apply in_op_iff. split_and!; done || lia. }
  exists wb'. split; [done|]. constructor; [done|lia| |].
  - intros h' t off d. rewrite Hin', orb_true_iff. intros [H|H]; apply elem_of_app; [left; by eapply Ho|right].
    pose proof H as (-> & -> & _)%in_op_iff. by apply Hnew.
  - exists new, tm. split_and!; [done|done|]. intros d x. unfold moved. setoid_rewrite elem_of_app. setoid_rewrite capture_elem; [|done].
    setoid_rewrite Hin'. setoid_rewrite orb_true_iff. specialize (Hin d x). rewrite elem_of_app, capture_elem in Hin by done. unfold moved in Hin.
    split.
    + intros [H|(h' & off & [H|H] & ->)].
      * destruct (proj1 Hin (or_introl H)) as (h' & off & ? & ->). eauto.
      * destruct (proj1 Hin (or_intror (ex_intro _ h' (ex_intro _ off (conj H eq_refl))))) as (h2 & off2 & ? & E2). eauto.
      * pose proof H as (-> & _)%in_op_iff. apply Hnew in H. eauto.
    + intros (h' & off & [H|H] & ->).
      * destruct (proj2 Hin) as [H1|(h2 & off2 & ? & E2)]; [by eauto|by left|]. right. eauto.
      * right. exists h', off. split; [right|done]. unfold items in H. apply list_elem_of_fmap in H as (y & [= -> -> ->] & Hy).
        apply Hnew. apply list_elem_of_fmap. by exists y.
Qed.

Lemma items_app h bias base a b : items h bias base (a ++ b) = items h bias base a ++ items h bias base b.
Proof. apply map_app. Qed.

Lemma items_below h bias base rel abs n h' off d : (h', off, d) ∈ items h bias base (blocks_of rel abs n) → off < rel - bias + n.
Proof. unfold items, blocks_of. rewrite map_map. intros (i & [= -> -> ->] & Hi%elem_of_seqZ)%list_elem_of_fmap. cbn. lia. Qed.

Lemma paginate_S fuel bs wb h rel abs n dl :
  paginate vmos max (S fuel) bs wb h rel abs n dl =
  if 0 <? n then
    r ← (if max <? BlkCount wb ⊞ dl then
           match CreateWork bs with
           | (ZX_OK, Some tmp) => r ← EnqueueWork vmos bs wb kData; let '(status, bs) := r in
               if failed status then Returns (status, bs, None) else Returns (ZX_OK, bs, Some tmp)
           | (status, _) => Returns (status, bs, Some wb)
           end else Returns (ZX_OK, bs, Some wb));
    let '(status, bs, wb) := r in
    if failed status then Returns (status, bs, wb)
    else match wb with
         | None => Aborts
         | Some wb => wb ← Enqueue wb h rel abs dl;
           paginate vmos max fuel bs wb h (rel ⊞ dl) (abs ⊞ dl) (n ⊟ dl) (Z.min (n ⊟ dl) max)
         end
  else Returns (ZX_OK, bs, Some wb).
Proof. done. Qed.

Lemma paginate_ok fuel bs wb D h rel abs n :
  in_flight vmos max bs0 bs wb D → 0 ≤ n → (n ≤ Z.of_nat fuel) → 0 ≤ rel → 0 ≤ abs → rel + n ≤ 2 ^ 40 → abs + n ≤ 2 ^ 40 →
  h ≠ ZX_HANDLE_INVALID → (∀ off d, (h, off, d) ∈ D → off < rel) →
  ∃ bs' wb', paginate vmos max (S fuel) bs wb h rel abs n (Z.min n max) = Returns (ZX_OK, bs', Some wb') ∧
    in_flight vmos max bs0 bs' wb' (D ++ items h 0 0 (blocks_of rel abs n)).
Proof.
  revert bs wb D rel abs n. induction fuel as [|fuel IH]; intros bs wb D rel abs n Hfl Hn Hfuel Hrel Habs Hrn Han Hh Hfresh.
  { assert (n = 0) as -> by lia. exists bs, wb. split; [done|]. cbn. by rewrite app_nil_r. }
  rewrite paginate_S. destruct (Z.ltb_spec 0 n).
  2: { assert (n = 0) as -> by lia. exists bs, wb. split; [done|]. cbn. by rewrite app_nil_r. }
  set (dl := Z.min n max). assert (0 < dl ≤ n) as Hdl by lia.
  assert (∃ bs1 wb1, (if max <? BlkCount wb ⊞ dl then
      match CreateWork bs with
      | (ZX_OK, Some tmp) => r ← EnqueueWork vmos bs wb kData; let '(status, bs) := r in
          if failed status then Returns (status, bs, None) else Returns (ZX_OK, bs, Some tmp)
      | (status, _) => Returns (status, bs, Some wb)
      end else Returns (ZX_OK, bs, Some wb)) = Returns (ZX_OK, bs1, Some wb1) ∧ in_flight vmos max bs0 bs1 wb1 D ∧
      blocks wb1.(WriteTxn.operations_) + dl ≤ max) as (bs1 & wb1 & -> & Hfl1 & Hroom).
  { pose proof Hfl as [[Hb Hf Hc] Hm Ho (new & tm & Hbs & _)]. pose proof (blocks_pos _ Hf). rewrite Hc. unwrap. destruct (Z.ltb_spec max (blocks (WriteTxn.operations_ wb) + dl)).
    - assert (writeback_ bs = Some cap) as Hw by (rewrite Hbs; exact Hcap). unfold CreateWork. rewrite Hw. destruct (in_flight_flush bs wb D Hfl) as (bs' & -> & Hfl').
      cbn [mbind outcome_bind]. rewrite failed_ok. eexists _, _. split; [done|]. split; [done|]. cbn. lia.
    - eexists _, _. split; [done|]. split; [done|lia]. }
  cbn [mbind outcome_bind]. rewrite failed_ok.
  destruct (in_flight_add bs1 wb1 D h rel abs dl Hfl1) as (wb2 & -> & Hfl2); [split_and!; cbn; done || lia|done|done|done|].
  cbn [mbind outcome_bind]. unwrap.
  destruct (IH bs1 wb2 _ (rel + dl) (abs + dl) (n - dl) Hfl2) as (bs' & wb' & -> & Hfl'); [lia..|done| |].
  { intros off d [H'|H']%elem_of_app; [specialize (Hfresh _ _ H'); lia|]. apply items_below in H'. lia. }
  exists bs', wb'. split; [done|]. replace n with (dl + (n - dl)) by lia. rewrite blocks_of_app, items_app by lia.
  replace (dl + (n - dl) - dl) with (n - dl) in Hfl' by lia. by rewrite <- app_assoc in Hfl'.
Qed.

Lemma EnqueuePaginated_ok bs wb D h rel abs n : max = 3 * cap / 4 →
  in_flight vmos max bs0 bs wb D → 0 ≤ n → 0 ≤ rel → 0 ≤ abs → rel + n ≤ 2 ^ 40 → abs + n ≤ 2 ^ 40 →
  h ≠ ZX_HANDLE_INVALID → (∀ off d, (h, off, d) ∈ D → off < rel) →
  ∃ bs' wb', EnqueuePaginated vmos bs wb h rel abs n = Returns (ZX_OK, bs', Some wb') ∧
    in_flight vmos max bs0 bs' wb' (D ++ items h 0 0 (blocks_of rel abs n)).
Proof.
  intros Hm Hfl Hn Hrel Habs Hrn Han Hh Hfresh. unfold EnqueuePaginated. pose proof (fl_new _ _ _ _ _ _ Hfl) as (new & tm & Hbs & _).
  assert (writeback_ bs = Some cap) as Hw by (rewrite Hbs; exact Hcap). rewrite Hw. unwrap. rewrite <- Hm. apply paginate_ok; done || lia.
Qed.

End paginated.

(** ** Streaming a VMO to the device *)

Lemma items_blocks_of h bias base l d c : items h bias base (blocks_of l d c) = items h 0 0 (blocks_of (l - bias) (d + base) c).
Proof. unfold items, blocks_of. rewrite !map_map. apply map_ext. intros i. cbn. replace (l + i - bias) with (l - bias + i - 0) by lia. by replace (d + i + base) with (d + base + i + 0) by lia. Qed.

(** Runs of blocks of the data region, which starts at [base]. *)
Definition runs_fit (base : Z) (rs : list (Z * Z)) : Prop := Forall (λ r, 0 ≤ fst r ∧ 0 < snd r ∧ fst r + snd r + base ≤ 2 ^ 40) rs.

Lemma runs_fit_pos base rs : runs_fit base rs → Forall (λ r, 0 ≤ snd r) rs.
Proof. intros H. eapply Forall_impl; [exact H|]. cbn. intros. lia. Qed.

Lemma runs_fit_rest base n rs : runs_fit base rs → runs_fit base (rest n rs).
Proof.
  intros H. revert n. induction H as [|[d c] rs Hr H IH]; intros n; cbn [rest]; [constructor|].
  destruct (Z.leb_spec n 0); [by constructor|]. cbn in Hr. destruct (Z.leb_spec c n); [apply IH|]. constructor; [cbn; lia|done].
Qed.

Lemma length_rest n rs : (length (rest n rs) ≤ length rs)%nat.
Proof. revert n. induction rs as [|[d c] rs IH]; intros n; cbn [rest]; [done|]. destruct (n <=? 0); [done|]. destruct (c <=? n); cbn; [|lia]. specialize (IH (n - c)). lia. Qed.

Lemma run_total_rest n rs : 0 ≤ n ≤ run_total rs → Forall (λ r, 0 ≤ snd r) rs → run_total (rest n rs) = run_total rs - n.
Proof.
  intros Hn Hrs. revert n Hn. induction Hrs as [|[d c] rs Hc Hrs IH]; intros n Hn; cbn [rest]; [cbn in *; lia|]. rewrite run_total_cons in *. cbn [snd] in *.
  destruct (Z.leb_spec n 0); [rewrite run_total_cons; cbn; lia|]. destruct (Z.leb_spec c n); [rewrite IH; lia|]. rewrite run_total_cons. cbn. lia.
Qed.

(** The pieces of runs that fit, fit. *)
Lemma pieces_fit base local n rs : runs_fit base rs → 0 ≤ local → local + n ≤ 2 ^ 40 →
  Forall (λ p, local ≤ fst (fst p) ∧ 0 ≤ snd (fst p) ∧ 0 < snd p ∧ fst (fst p) + snd p ≤ local + n ∧ snd (fst p) + snd p + base ≤ 2 ^ 40) (pieces local n rs).
Proof.
  intros H. revert local n. induction H as [|[d c] rs Hr H IH]; intros local n Hl Hn; cbn [pieces]; [constructor|]. cbn in Hr.
  destruct (Z.leb_spec n 0); [constructor|]. constructor; [cbn; lia|]. destruct (Z.leb_spec (n - c) 0).
  - destruct rs as [|[d1 c1] rs]; cbn [pieces]; [constructor|]. by ztest.
  - eapply Forall_impl; [apply (IH (local + c) (n - c)); lia|]. cbn. intros. lia.
Qed.

Section stream_to_disk.
Context {X : Type} `{BlobCompressor X}.
Context (a : Allocator) (b : Blob X) (max cap : Z) (bs0 : Blobfs).
Context (Hquiet : quiet bs0) (Hcap : bs0.(writeback_) = Some cap) (Hm : max = 3 * cap / 4) (Hmax : 0 < max) (Hcap40 : cap ≤ 2 ^ 40).
Let vmos := blob_vmos a bs0 b.
Let base := DataStartBlock bs0.(info_).

Lemma stream_to_disk_ok bs wb D it fuel h bias count local rs :
  in_flight vmos max bs0 bs wb D → block_ok it local rs → runs_fit base rs → 0 ≤ base →
  0 ≤ count < 2 ^ 32 → count ≤ run_total rs → (length rs < fuel)%nat → h ≠ ZX_HANDLE_INVALID →
  0 ≤ bias ≤ local → local + count ≤ 2 ^ 40 → (∀ off d, (h, off, d) ∈ D → off < local - bias) →
  ∃ it' bs' wb', stream_to_disk a bs b wb it fuel h bias count = Returns (ZX_OK, it', (bs', Some wb')) ∧
    in_flight vmos max bs0 bs' wb' (D ++ items h bias base (take (Z.to_nat count) (run_blocks local rs))) ∧
    block_ok it' (local + count) (rest count rs).
Proof.
  intros Hfl Hit Hfit Hbase Hcount Htot Hfuel Hh Hbias Hlc Hfresh. unfold stream_to_disk. assert (max ≤ cap) as Hmc by (clear -Hm Hmax; zlia).
  pose proof (runs_fit_pos _ _ Hfit) as Hpos. rewrite <- (piece_blocks_pieces local count rs Hpos).
  match goal with |- context [StreamBlocks ?g _ _ _ _] => set (g0 := g) end.
  destruct (run_calls_inv g0 (λ done s, ∃ bs wb, s = (bs, Some wb) ∧ in_flight vmos max bs0 bs wb (D ++ items h bias base done))
    (pieces local count rs) (bs, Some wb)) as (s' & Hrun & bs' & wb' & -> & Hfl').
  - intros l d c pre post s E (bs1 & wb1 & -> & Hfl1). pose proof (pieces_fit base local count rs Hfit ltac:(lia) Hlc) as Hp.
    rewrite E in Hp. apply Forall_app in Hp as [_ Hp]. apply Forall_cons in Hp as [(Hl & Hd & Hc & Hlc' & Hdc) _]. cbn [fst snd] in *.
    unfold g0. pose proof (fl_new _ _ _ _ _ _ Hfl1) as (new & tm & Hbs & _).
    assert (blob_vmos a bs1 b = vmos) as -> by (rewrite Hbs; reflexivity). assert (DataStartBlock (info_ bs1) = base) as -> by (rewrite Hbs; reflexivity).
    unwrap. destruct (EnqueuePaginated_ok vmos max cap bs0 Hquiet Hcap ltac:(lia) Hcap40 bs1 wb1 _ h (l - bias) (d + base) c Hm Hfl1) as (bs2 & wb2 & -> & Hfl2);
      [lia..|done| |].
    { intros off dd [Hin|Hin]%elem_of_app; [specialize (Hfresh _ _ Hin); lia|]. unfold items in Hin. apply list_elem_of_fmap in Hin as (y & [= -> ->] & Hy).
      pose proof (pieces_before local count rs pre post l d c Hpos E y Hy). lia. }
    cbn [mbind outcome_bind]. exists (bs2, Some wb2). split; [done|]. exists bs2, wb2. split; [done|].
    rewrite items_app, items_blocks_of, app_assoc. exact Hfl2.
  - exists bs, wb. split; [done|]. cbn. by rewrite app_nil_r.
  - destruct (StreamBlocks_calls g0 fuel it local rs count _ _ Hit Hcount Htot Hfuel Hrun) as (it' & -> & Hit'). by exists it', bs', wb'.
Qed.

End stream_to_disk.
