(* ===== verification/BlobMeta.v ===== *)
(** * The metadata of a blob: what [WriteMetadata] and [FreeInode] change, in memory and on the device *)

From S2P Require Import Prelude Bitmap RawBitmap RleBitmap IdAllocator Digest Format Superblock Reservers MerkleTree Allocator AllocatorBlocks AllocatorNodes Iterators Streaming Populate.
From S2P Require Import Operations RingBuffer RingCopy WriteTxn Writeback Blobfs Blob BlobWrite.

(** ** Transactions of metadata *)

(** Where a block of the VMO of the superblock, of the block map or of the node map is on the device. *)
Definition place_of (info : Superblock) (h off : Z) : Z :=
  if h =? info_vmo then off
  else if h =? block_map_vmo then BlockMapStartBlock info + off
  else NodeMapStartBlock info + off.

(** Blocks of the three VMOs that have a place. *)
Definition item_ok (info : Superblock) (h off : Z) : Prop :=
  (h = info_vmo ∧ off = 0) ∨ (h = block_map_vmo ∧ 0 ≤ off < BlockMapBlocks info) ∨ (h = node_map_vmo ∧ 0 ≤ off < NodeMapBlocks info).

(** The transaction writes the blocks [C], each a VMO and an offset in it, to their places. *)
Record meta_txn (info : Superblock) (wb : WriteTxn) (C : list (Z * Z)) : Prop := {
  mt_txn : txn_ok wb;
  mt_in : ∀ h t off d, in_ops wb.(WriteTxn.operations_) (h, t, off, d) = true ↔ t = kWrite ∧ d = place_of info h off ∧ (h, off) ∈ C;
  mt_valid : ∀ h off, (h, off) ∈ C → item_ok info h off;
}.

Lemma meta_new info : meta_txn info NewWriteTxn [].
Proof. constructor; [apply new_txn_ok| |by intros h off ?%list_elem_of_In]. intros h t off d. split; [done|]. by intros (_ & _ & ?%list_elem_of_In). Qed.

Lemma place_of_add info h off i : place_of info h (off + i) = place_of info h off + i.
Proof. unfold place_of. repeat destruct (_ =? _); lia. Qed.

Lemma meta_add info wb C h off n : meta_txn info wb C → op_fits (write_op h off (place_of info h off) n) → h ≠ ZX_HANDLE_INVALID →
  blocks wb.(WriteTxn.operations_) + n < 2 ^ 64 → (∀ i, 0 ≤ i < n → item_ok info h (off + i)) →
  ∃ wb', Enqueue wb h off (place_of info h off) n = Returns wb' ∧ meta_txn info wb' (C ++ map (pair h) (seqZ off n)) ∧
    blocks wb'.(WriteTxn.operations_) ≤ blocks wb.(WriteTxn.operations_) + n.
Proof.
  intros [[Hb Hf Hc] Hin Hz] Hfit Hh Hmax Hvalid. destruct (Enqueue_ok wb h off (place_of info h off) n Hb Hh Hf Hfit Hc Hmax) as (wb' & E & Hb' & Hf' & Hc' & Hbl & Hin').
  { apply Forall_forall. intros o Ho Hvm Hoff. pose proof (proj1 (Forall_forall _ _) Hf o Ho) as (Ht & _ & _ & Hl & _).
    destruct (proj1 (Hin h kWrite off (dev_offset (u_op o)))) as (_ & -> & _); [|done].
    apply existsb_exists. exists o. split; [by apply list_elem_of_In|]. apply in_op_iff. split_and!; done || lia. }
  exists wb'. split; [done|]. split; [|lia].
  constructor; [done| |intros h' off' [?|(y & [= -> ->] & Hy%elem_of_seqZ)%list_elem_of_fmap]%elem_of_app; [by apply Hz|]; replace y with (off + (y - off)) by lia; apply Hvalid; lia]. intros h' t off' d. rewrite Hin', orb_true_iff, Hin, elem_of_app, list_elem_of_fmap, in_op_iff. cbn.
  split.
  - intros [(-> & -> & ?)|(-> & -> & Ho & Hd)]; [auto|]. split_and!; [done| |right; exists off'; split; [done|apply elem_of_seqZ; lia]].
    replace off' with (off + (off' - off)) by lia. rewrite place_of_add. lia.
  - intros (-> & -> & [?|(y & [= -> ->] & Hy%elem_of_seqZ)]); [auto|]. right. split_and!; [done..|lia|lia|].
    replace y with (off + (y - off)) at 1 by lia. rewrite place_of_add. lia.
Qed.

(** ** Geometry *)

(** The maps have their places on the device, and the data comes after them. *)
Record volume_ok (info : Superblock) (m : RawBitmapBase) (nm : list Inode) : Prop := {
  vo_blocks : info.(data_block_count) = m.(size_);
  vo_size : 0 ≤ m.(size_) ≤ 2 ^ 38;
  vo_nodes : info.(inode_count) = Z.of_nat (length nm);
  vo_index : Z.of_nat (length nm) < 2 ^ 32;
  vo_map : 0 < BlockMapStartBlock info;
  vo_inodes : BlockMapStartBlock info + BlockMapBlocks info ≤ NodeMapStartBlock info;
  vo_data : NodeMapStartBlock info + NodeMapBlocks info ≤ DataStartBlock info;
  vo_end : DataStartBlock info + m.(size_) ≤ 2 ^ 40;
}.

(** The counters of the superblock do not matter for it. *)
Lemma volume_ok_counts info m nm x y : volume_ok info m nm → volume_ok (with_alloc_counts info x y) m nm.
Proof. by intros [? ? ? ? ? ? ? ?]. Qed.

Lemma meta_txn_counts info wb C x y : meta_txn info wb C → meta_txn (with_alloc_counts info x y) wb C.
Proof. by intros [? ? ?]. Qed.

(** The blocks of the block map that hold the bits of an extent. *)
Definition bitmap_items (e : Extent) : list (Z * Z) :=
  map (pair block_map_vmo) (seqZ (Start e / 65536) ((Start e + Length e + 65535) / 65536 - Start e / 65536)).

Definition node_item (i : Z) : Z * Z := (node_map_vmo, i / 128).

Definition info_item : Z * Z := (info_vmo, 0).

Lemma WriteBitmap_ok info m nm bs wb C e : volume_ok info m nm → bs.(info_) = info → meta_txn info wb C → 0 < Length e → Start e + Length e ≤ m.(size_) →
  blocks wb.(WriteTxn.operations_) ≤ 2 ^ 60 →
  ∃ wb', WriteBitmap bs wb (Length e) (Start e) = Returns wb' ∧ meta_txn info wb' (C ++ bitmap_items e) ∧
    blocks wb'.(WriteTxn.operations_) ≤ blocks wb.(WriteTxn.operations_) + 2.
Proof.
  intros [Hb Hs Hn Hx Hm Hi Hd He] Hbs Hwb Hlen Hend Hmax. pose proof (extent_end e) as (Hst & Hl & Heq). unfold WriteBitmap. rewrite Heq, Hbs.
  change kBlobfsBlockBits with 65536. rewrite round_up_small, Z.div_mul by lia.
  pose proof (BlockMapBlocks_eq info ltac:(lia)) as Hbb. unfold ceil_div in Hbb. rewrite Hb in Hbb.
  assert (0 ≤ Start e / 65536 ∧ Start e / 65536 < (Start e + Length e + 65535) / 65536 ∧ (Start e + Length e + 65535) / 65536 ≤ Start e / 65536 + 2 ∧
    (Start e + Length e + 65535) / 65536 ≤ BlockMapBlocks info) as (H1 & H2 & H3 & H4) by (rewrite Hbb; clear -Hst Hl Hlen Hend; zlia).
  assert (0 ≤ NodeMapBlocks info) by (rewrite NodeMapBlocks_eq by lia; unfold ceil_div; clear -Hn; zlia).
  replace (Start e + Length e + 65536 - 1) with (Start e + Length e + 65535) by lia.
  assert (BlockMapStartBlock info ⊞ Start e / 65536 = place_of info block_map_vmo (Start e / 65536)) as -> by (unwrap; done).
  unwrap. destruct (meta_add info wb C block_map_vmo (Start e / 65536) ((Start e + Length e + 65535) / 65536 - Start e / 65536) Hwb) as (wb' & E & Hwb' & Hbl).
  - unfold place_of. cbn. split_and!; cbn; done || lia.
  - done.
  - lia.
  - intros i Hi0. right. left. split; [done|]. lia.
  - exists wb'. split; [exact E|]. split; [exact Hwb'|lia].
Qed.

Lemma WriteNode_ok info m nm bs wb C i : volume_ok info m nm → bs.(info_) = info → meta_txn info wb C → 0 ≤ i < Z.of_nat (length nm) →
  blocks wb.(WriteTxn.operations_) ≤ 2 ^ 60 →
  ∃ wb', WriteNode bs wb i = Returns wb' ∧ meta_txn info wb' (C ++ [node_item i]) ∧
    blocks wb'.(WriteTxn.operations_) ≤ blocks wb.(WriteTxn.operations_) + 1.
Proof.
  intros [Hb Hs Hn Hx Hm Hi' Hd He] Hbs Hwb Hi Hmax. unfold WriteNode. change kBlobfsInodeSize with 64. change kBlobfsBlockSize with 8192. rewrite Hbs. unwrap.
  replace (i * 64 / 8192) with (i / 128) by (clear; zlia).
  pose proof (NodeMapBlocks_eq info ltac:(lia)) as Hnb. unfold ceil_div in Hnb. rewrite Hn in Hnb.
  pose proof (BlockMapBlocks_eq info ltac:(lia)) as Hbb. unfold ceil_div in Hbb.
  assert (0 ≤ i / 128 < NodeMapBlocks info) as Hoff by (rewrite Hnb; clear -Hi; zlia). assert (0 ≤ BlockMapBlocks info) by (rewrite Hbb, Hb; clear -Hs; zlia).
  assert (NodeMapStartBlock info ⊞ i / 128 = place_of info node_map_vmo (i / 128)) as -> by (unwrap; done).
  destruct (meta_add info wb C node_map_vmo (i / 128) 1 Hwb) as (wb' & E & Hwb' & Hbl).
  - unfold place_of. cbn. split_and!; cbn; done || lia.
  - done.
  - lia.
  - intros j Hj. right. right. split; [done|]. lia.
  - exists wb'. split; [exact E|]. split; [exact Hwb'|lia].
Qed.

(** The superblock is in a transaction once. *)
Lemma enqueue_loop_again ops h rel abs : (∃ o, o ∈ ops ∧ o.(vmo) = h) → Forall op_fits ops → (∀ o, o ∈ ops → o.(vmo) = h → o.(u_op).(vmo_offset) = rel) →
  enqueue_loop ops h rel abs 1 = Some (ops, 0).
Proof.
  intros Hex Hf. induction Hf as [|o ops (_ & _ & _ & Hl & _) Hf IH]; intros Hsame.
  { destruct Hex as (o & ?%list_elem_of_In & _). done. }
  cbn [enqueue_loop]. destruct (Z.eqb_spec (vmo o) h) as [Hv|Hv]; cbn [negb].
  - rewrite (Hsame o) by (left || done). rewrite Z.eqb_refl. by ztest.
  - rewrite IH; [done| |intros; apply Hsame; [by right|done]]. destruct Hex as (o' & [->|Ho]%elem_of_cons & Ho'); [done|]. eauto.
Qed.

Lemma write_info_ok info bs wb C : meta_txn info wb C → blocks wb.(WriteTxn.operations_) ≤ 2 ^ 60 →
  ∃ wb', WriteInfo bs wb = Returns (copy_info bs, wb') ∧ meta_txn info wb' (C ++ [info_item]) ∧
    blocks wb'.(WriteTxn.operations_) ≤ blocks wb.(WriteTxn.operations_) + (if bool_decide (info_item ∈ C) then 0 else 1).
Proof.
  intros Hwb Hmax. unfold WriteInfo. destruct (meta_add info wb C info_vmo 0 1 Hwb) as (wb' & E & Hwb' & Hbl).
  - split_and!; cbn; done || lia.
  - done.
  - lia.
  - intros j Hj. left. split; [done|lia].
  - change (place_of info info_vmo 0) with 0 in E. rewrite E. cbn [mbind outcome_bind]. exists wb'. split; [done|]. split; [exact Hwb'|].
    destruct (bool_decide_reflect (info_item ∈ C)) as [Hin|]; [|done]. destruct Hwb as [[Hb Hf Hc] Hops Hz].
    unfold Enqueue in E. rewrite Hb, enqueue_loop_again in E.
    + cbn in E. injection E as <-. cbn [WriteTxn.operations_]. rewrite Z.add_0_r. apply Z.le_refl.
    + assert (in_ops (WriteTxn.operations_ wb) (info_vmo, kWrite, 0, 0) = true) as (o & Ho & (Hv & _)%in_op_iff)%existsb_exists by (by apply Hops). exists o. split; [by apply list_elem_of_In|done].
    + done.
    + intros o Ho Hv. pose proof (proj1 (Forall_forall _ _) Hf o Ho) as (Ht & _ & _ & Hl & _).
      destruct (Hz info_vmo (vmo_offset (u_op o))) as [[_ ?]|[[? _]|[? _]]]; [|done..]. apply (Hops info_vmo kWrite (vmo_offset (u_op o)) (dev_offset (u_op o))). apply existsb_exists. exists o. split; [by apply list_elem_of_In|].
      apply in_op_iff. split_and!; done || lia.
Qed.

(** ** Recording extents *)

(** The superblock is changed and copied to its VMO. *)
Definition persisted (bs : Blobfs) (info : Superblock) : Blobfs := copy_info (with_info bs info).

Definition info_cost (C : list (Z * Z)) : Z := if bool_decide (info_item ∈ C) then 0 else 1.

Lemma info_cost_range C : 0 ≤ info_cost C ≤ 1.
Proof. unfold info_cost. destruct (bool_decide _); lia. Qed.

Lemma info_cost_app C D : info_cost (C ++ D) ≤ info_cost C.
Proof.
  unfold info_cost. destruct (bool_decide_reflect (info_item ∈ C)); [|by destruct (bool_decide _)]. rewrite bool_decide_true; [done|]. by apply elem_of_app; left.
Qed.

Lemma info_cost_in C : info_item ∈ C → info_cost C = 0.
Proof. intros. unfold info_cost. by rewrite bool_decide_true. Qed.

Section persist.
Context (info0 : Superblock) (nm : list Inode).

Lemma PersistBlocks_ok a bs wb C h x y :
  raw_ok a.(block_map_) → volume_ok info0 a.(block_map_) nm → bs.(info_) = with_alloc_counts info0 x y → meta_txn info0 wb C →
  blocks wb.(WriteTxn.operations_) ≤ 2 ^ 59 → h.(reserved) = true → 0 < Length h.(Reservers.extent_) →
  Start h.(Reservers.extent_) + Length h.(Reservers.extent_) ≤ a.(block_map_).(size_) →
  (∀ k, in_extent h.(Reservers.extent_) k = true → raw_bit a.(block_map_) k = false) →
  let e := h.(Reservers.extent_) in
  ∃ m wb', PersistBlocks a bs wb h = Returns (with_block_map a m, persisted bs (with_alloc_counts info0 (x ⊞ Length e) (y ⊞ 0)), wb') ∧
    raw_ok m ∧ m.(size_) = a.(block_map_).(size_) ∧ (∀ k, 0 ≤ k → raw_bit m k = in_extent e k || raw_bit a.(block_map_) k) ∧
    meta_txn info0 wb' (C ++ bitmap_items e ++ [info_item]) ∧
    blocks wb'.(WriteTxn.operations_) ≤ blocks wb.(WriteTxn.operations_) + 2 + info_cost C.
Proof.
  intros Hm Hvol Hinfo Hwb Hmax Hr Hl Hend Hfree e. unfold PersistBlocks. destruct (MarkBlocksAllocated_ok a h Hm Hr Hl Hend Hfree) as (m & -> & Hm' & Hs' & Hb').
  cbn [mbind outcome_bind]. unfold extent. rewrite Hr. cbn [ZX_DEBUG_ASSERT mbind outcome_bind]. fold e. set (bs1 := count_allocated bs (Length e) 0).
  assert (info_ bs1 = with_alloc_counts info0 (x ⊞ Length e) (y ⊞ 0)) as Hi1 by (unfold bs1, count_allocated; cbn; rewrite Hinfo; done).
  destruct (WriteBitmap_ok (with_alloc_counts info0 (x ⊞ Length e) (y ⊞ 0)) (block_map_ a) nm bs1 wb C e) as (wb1 & -> & Hwb1 & Hbl1);
    [by apply volume_ok_counts|done|by apply meta_txn_counts|done|done|lia|]. cbn [mbind outcome_bind].
  destruct (write_info_ok _ bs1 wb1 _ Hwb1 ltac:(lia)) as (wb2 & -> & Hwb2 & Hbl2). cbn [mbind outcome_bind fst snd].
  exists m, wb2. split_and!; [|done|done|done| |].
  - do 3 f_equal. unfold persisted, bs1, count_allocated. by rewrite Hinfo.
  - rewrite app_assoc. destruct Hwb2 as [? ? ?]. by constructor.
  - pose proof (info_cost_app C (bitmap_items e)). unfold info_cost in *. lia.
Qed.

(** Recording a part of an extent gives the rest of it back. *)
Definition cut_at (r : ReservedExtent) (n : Z) : ReservedExtent := {| reserved := r.(reserved); Reservers.extent_ := SetLength r.(Reservers.extent_) n |}.

Fixpoint cut (n : Z) (es : list ReservedExtent) : list ReservedExtent :=
  match es with
  | [] => []
  | r :: es =>
    let l := Length r.(Reservers.extent_) in
    if l <=? n then r :: (if n - l =? 0 then [] else cut (n - l) es) else [cut_at r n]
  end.

Lemma SplitAt_reset a r n : rle_ok a.(reserved_blocks_) → r.(reserved) = true → 0 ≤ r.(Reservers.extent_) < 2 ^ 64 →
  Start r.(Reservers.extent_) + Length r.(Reservers.extent_) < 2 ^ 48 →
  (∀ k, in_extent r.(Reservers.extent_) k = true → rle_bit a.(reserved_blocks_) k = true) → 0 < n < Length r.(Reservers.extent_) →
  ∃ r' rest, (p ← SplitAt true a.(reserved_blocks_) r n;
    let '(r, rest, reserver) := (p : ReservedExtent * ReservedExtent * RleBitmap) in
    p ← ReservedExtent_Reset true reserver rest; Returns (r, with_reserved_blocks a (snd p), 0)) = Returns (cut_at r n, with_reserved_blocks a r', 0) ∧
    rle_ok r' ∧ Start rest = Start r.(Reservers.extent_) + n ∧ Length rest = Length r.(Reservers.extent_) - n ∧
    ∀ k, rle_bit r' k = negb (in_extent rest k) && rle_bit a.(reserved_blocks_) k.
Proof.
  intros Hok Hr Hw Hlt Hin Hn. destruct (split_reservation a.(reserved_blocks_) r n Hok Hr Hw Hlt Hin Hn) as (h1 & h2 & E & Hr1 & Hr2 & Hs1 & Hl1 & Hs2 & Hl2).
  assert (h1 = cut_at r n) as ->.
  { unfold SplitAt, ZX_DEBUG_ASSERT in E. rewrite Hr in E. destruct (n <? _); [|done]. cbn [mbind outcome_bind] in E. destruct (NewExtent _ _) as [l| |]; [|done..].
    cbn [mbind outcome_bind] in E. destruct (NewReservedExtent _ _ l) as [p| |]; [|done..]. cbn in E. injection E as <- _ _. unfold cut_at. by rewrite Hr. }
  rewrite E. cbn [mbind outcome_bind]. unfold ReservedExtent_Reset, extent. rewrite Hr2. cbn [ZX_DEBUG_ASSERT mbind outcome_bind].
  destruct (Unreserve_ok a.(reserved_blocks_) h2.(Reservers.extent_) Hok ltac:(lia)) as (r' & -> & Hok' & Hb').
  { intros k Hk. apply Hin. revert Hk. unfold in_extent. rewrite Hs2, Hl2. zcases; done. }
  cbn [mbind outcome_bind snd]. exists r', h2.(Reservers.extent_). by split_and!.
Qed.

(** Extents that are reserved, of blocks that are not allocated. *)
Record extents_ok (a : Allocator) (es : list ReservedExtent) : Prop := {
  eo_map : raw_ok a.(block_map_);
  eo_rle : rle_ok a.(reserved_blocks_);
  eo_handles : handles (rle_bit a.(reserved_blocks_)) es;
  eo_words : Forall (λ e, 0 ≤ e.(Reservers.extent_) < 2 ^ 64) es;
  eo_free : ∀ k, in_handles es k = true → 0 ≤ k < a.(block_map_).(size_) ∧ raw_bit a.(block_map_) k = false;
}.

Lemma extents_ok_head a e es : extents_ok a (e :: es) → e.(reserved) = true ∧ 0 < Length e.(Reservers.extent_) ∧
  Start e.(Reservers.extent_) + Length e.(Reservers.extent_) ≤ a.(block_map_).(size_) ∧
  (∀ k, in_extent e.(Reservers.extent_) k = true → raw_bit a.(block_map_) k = false ∧ rle_bit a.(reserved_blocks_) k = true).
Proof.
  intros [_ _ (Hr & Hl & Hin & _) _ Hfree]. split_and!; [done|done| |].
  - destruct (Hfree (Start (Reservers.extent_ e) + Length (Reservers.extent_ e) - 1)) as [? _]; [|lia]. cbn. apply orb_true_iff. left. unfold in_extent. by ztest.
  - intros k Hk. split; [|by apply Hin]. apply Hfree. cbn. by rewrite Hk.
Qed.

(** What recording [rem] blocks of the extents [es] leaves. *)
Record recorded (a : Allocator) (wb : WriteTxn) (C : list (Z * Z)) (es : list ReservedExtent) (rem : Z)
    (m : RawBitmapBase) (r : RleBitmap) (wb' : WriteTxn) (C' : list (Z * Z)) : Prop := {
  rc_raw : raw_ok m;
  rc_size : m.(size_) = a.(block_map_).(size_);
  rc_bits : ∀ k, 0 ≤ k → raw_bit m k = in_handles (cut rem es) k || raw_bit a.(block_map_) k;
  rc_rle : rle_ok r;
  rc_handles : handles (rle_bit r) (cut rem es ++ drop (length (cut rem es)) es);
  rc_other : ∀ k, in_handles es k = false → rle_bit r k = rle_bit a.(reserved_blocks_) k;
  rc_sub : ∀ k, rle_bit r k = true → rle_bit a.(reserved_blocks_) k = true;
  rc_inside : ∀ k, in_handles es k = true → rle_bit r k = in_handles (cut rem es ++ drop (length (cut rem es)) es) k;
  rc_txn : meta_txn info0 wb' (C ++ C');
  rc_covers : ∀ e, e ∈ cut rem es → ∀ i, i ∈ bitmap_items e.(Reservers.extent_) → i ∈ C';
  rc_info : info_item ∈ C';
  rc_count : blocks wb'.(WriteTxn.operations_) ≤ blocks wb.(WriteTxn.operations_) + 2 * Z.of_nat (length (cut rem es)) + info_cost C;
}.

Lemma in_handles_cons e es k : in_handles (e :: es) k = in_extent e.(Reservers.extent_) k || in_handles es k.
Proof. done. Qed.

Lemma handles_restrict f g es : handles f es → (∀ k, in_handles es k = true → g k = true) → handles (λ k, f k && g k) es.
Proof.
  revert f. induction es as [|e es IH]; intros f; [done|]. cbn [handles]. intros (? & ? & Hin & Hh) Hg. split_and!; [done|done| |].
  - intros k Hk. rewrite (Hin k Hk), Hg; [done|]. by rewrite in_handles_cons, Hk.
  - eapply handles_ext; [|apply (IH _ Hh)]; [intros k; cbn; btauto|]. intros k Hk. apply Hg. by rewrite in_handles_cons, Hk, orb_true_r.
Qed.

(** What is recorded and what is left untouched is of the extents. *)
Lemma cut_sub n es k : Forall (λ e, 0 ≤ e.(Reservers.extent_) < 2 ^ 64) es → 0 ≤ n →
  in_handles (cut n es ++ drop (length (cut n es)) es) k = true → in_handles es k = true.
Proof.
  intros Hw. revert n. induction Hw as [|e es He Hw IH]; intros n Hn; [done|]. cbn [cut]. pose proof (extent_end e.(Reservers.extent_)) as (Hs & Hl & _).
  destruct (Z.leb_spec (Length e.(Reservers.extent_)) n).
  - cbn [length drop app]. rewrite !in_handles_cons. destruct (in_extent _ k); [done|]. cbn [orb]. destruct (_ =? 0); [done|]. apply IH. lia.
  - cbn [length drop app]. rewrite !in_handles_cons. unfold cut_at. cbn [Reservers.extent_]. destruct (SetLength_ok e.(Reservers.extent_) n He ltac:(lia)) as (_ & Hs' & Hl').
    unfold in_extent. rewrite Hs', Hl'. rewrite !orb_true_iff. intros [Hk|Hk]; [left|by right]. revert Hk. zcases; done.
Qed.

(** An extent recorded whole. *)
Lemma recorded_whole a e es rem m1 wb wb1 C m r wb' C' :
  extents_ok a (e :: es) → Length e.(Reservers.extent_) < rem →
  (∀ k, 0 ≤ k → raw_bit m1 k = in_extent e.(Reservers.extent_) k || raw_bit a.(block_map_) k) → m1.(size_) = a.(block_map_).(size_) →
  blocks wb1.(WriteTxn.operations_) ≤ blocks wb.(WriteTxn.operations_) + 2 + info_cost C →
  recorded (with_block_map a m1) wb1 (C ++ bitmap_items e.(Reservers.extent_) ++ [info_item]) es (rem - Length e.(Reservers.extent_)) m r wb' C' →
  recorded a wb C (e :: es) rem m r wb' (bitmap_items e.(Reservers.extent_) ++ [info_item] ++ C').
Proof.
  intros Hok Hlt Hm1 Hs1 Hbl [Hraw Hs Hb Hrle Hh Ho Hsub Hins Htx Hcov Hi Hcnt]. pose proof Hok as [_ Hrle0 (Hres & Hl & Hin & Hhs) Hwords _].
  assert (cut rem (e :: es) = e :: cut (rem - Length e.(Reservers.extent_)) es) as Hcut by (cbn [cut]; ztest; done).
  set (c := cut (rem - _) es) in *. cbn [with_block_map reserved_blocks_ block_map_] in *.
  assert (∀ k, in_extent e.(Reservers.extent_) k = true → in_handles es k = false) as Hdis.
  { intros k Hk. destruct (in_handles es k) eqn:E; [|done]. apply (handles_in _ _ _ Hhs) in E. cbn in E. by rewrite Hk, andb_false_r in E. }
  assert (∀ k, in_extent e.(Reservers.extent_) k = true → rle_bit r k = true) as Hek by (intros k Hk; rewrite Ho by auto; auto).
  assert (∀ k, in_handles (c ++ drop (length c) es) k = true → in_extent e.(Reservers.extent_) k = false) as Hapart.
  { intros k Hk. destruct (in_extent _ k) eqn:E; [|done]. apply cut_sub in Hk; [|by inversion Hwords|lia]. apply Hdis in E. congruence. }
  constructor; rewrite ?Hcut.
  - done.
  - congruence.
  - intros k Hk. rewrite Hb, Hm1, in_handles_cons by done. btauto.
  - done.
  - cbn [length drop app handles]. split_and!; [done|done|done|]. apply handles_restrict; [done|]. intros k Hk. by rewrite (Hapart k Hk).
  - intros k. rewrite in_handles_cons, orb_false_iff. intros [_ ?]. auto.
  - done.
  - intros k. cbn [length drop app]. rewrite !in_handles_cons, orb_true_iff. intros [Hk|Hk].
    + rewrite Hk. cbn. auto.
    + rewrite Hins by done. destruct (in_extent _ k) eqn:E; [|done]. apply Hdis in E. congruence.
  - by rewrite !app_assoc in *.
  - intros x [->|Hx]%elem_of_cons i Hi'; [by apply elem_of_app; left|]. do 2 (apply elem_of_app; right). by eapply Hcov.
  - apply elem_of_app; right. by left.
  - cbn [length]. pose proof (info_cost_range C). assert (info_cost (C ++ bitmap_items e.(Reservers.extent_) ++ [info_item]) = 0) by (apply info_cost_in; rewrite !elem_of_app; right; right; by left). lia.
Qed.

Lemma handles_disjoint f e es k : handles f (e :: es) → in_extent e.(Reservers.extent_) k = true → in_handles es k = false.
Proof.
  intros (_ & _ & _ & Hh) Hk. destruct (in_handles es k) eqn:E; [|done]. apply (handles_in _ _ _ Hh) in E. cbn in E. by rewrite Hk, andb_false_r in E.
Qed.

(** The last extent, recorded whole or up to a point. *)
Lemma recorded_last a e es rem m wb wb' C r : extents_ok a (e :: es) → 0 < rem ≤ Length e.(Reservers.extent_) →
  let e' := if Length e.(Reservers.extent_) =? rem then e else cut_at e rem in
  raw_ok m → m.(size_) = a.(block_map_).(size_) →
  (∀ k, 0 ≤ k → raw_bit m k = in_extent e'.(Reservers.extent_) k || raw_bit a.(block_map_) k) →
  rle_ok r → (∀ k, rle_bit r k = (negb (in_extent e.(Reservers.extent_) k) || in_extent e'.(Reservers.extent_) k) && rle_bit a.(reserved_blocks_) k) →
  meta_txn info0 wb' (C ++ bitmap_items e'.(Reservers.extent_) ++ [info_item]) →
  blocks wb'.(WriteTxn.operations_) ≤ blocks wb.(WriteTxn.operations_) + 2 + info_cost C →
  recorded a wb C (e :: es) rem m r wb' (bitmap_items e'.(Reservers.extent_) ++ [info_item]).
Proof.
  intros Hok Hrem e' Hm Hs Hb Hr Hrb Htx Hcnt. destruct (extents_ok_head _ _ _ Hok) as (Hres & Hl & Hend & Hin). pose proof Hok as [_ _ Hh Hwords _].
  apply Forall_cons in Hwords as [Hw Hws]. destruct (SetLength_ok e.(Reservers.extent_) rem Hw ltac:(pose proof (extent_end e.(Reservers.extent_)); lia)) as (_ & Hs' & Hl').
  assert (cut rem (e :: es) = [e']) as Hcut by (cbn [cut]; unfold e'; destruct (Z.leb_spec (Length e.(Reservers.extent_)) rem); ztest; done).
  assert (e'.(reserved) = true ∧ Start e'.(Reservers.extent_) = Start e.(Reservers.extent_) ∧ Length e'.(Reservers.extent_) = rem) as (Hres' & Hst' & Hlen').
  { unfold e'. destruct (Z.eqb_spec (Length e.(Reservers.extent_)) rem); [done|]. done. }
  assert (∀ k, in_extent e'.(Reservers.extent_) k = true → in_extent e.(Reservers.extent_) k = true) as Hsub.
  { intros k. unfold in_extent. rewrite Hst', Hlen'. zcases; done. }
  assert (∀ k, in_handles es k = true → in_extent e.(Reservers.extent_) k = false) as Hdis.
  { intros k Hk. destruct (in_extent _ k) eqn:E; [|done]. apply (handles_disjoint _ _ _ _ Hh) in E. congruence. }
  assert (∀ k, in_extent e'.(Reservers.extent_) k = true → rle_bit r k = true) as He'.
  { intros k Hk. rewrite Hrb, Hk, orb_true_r. cbn. by apply Hin, Hsub. }
  constructor; rewrite ?Hcut; cbn [length drop app].
  - done.
  - done.
  - intros k Hk. rewrite Hb by done. cbn. by rewrite orb_false_r.
  - done.
  - split_and!; [done|lia|done|]. destruct Hh as (_ & _ & _ & Hh).
    eapply handles_mono; [|apply (handles_restrict _ (λ k, negb (in_extent e.(Reservers.extent_) k)) _ Hh)].
    + intros k. cbn. rewrite Hrb, !andb_true_iff, !negb_true_iff. intros [[Hk Hne] _]. rewrite Hk, Hne. split; [done|].
      destruct (in_extent e'.(Reservers.extent_) k) eqn:E; [|done]. apply Hsub in E. congruence.
    + intros k Hk. cbn. by rewrite (Hdis k Hk).
  - intros k. rewrite in_handles_cons, orb_false_iff. intros [Hk _]. by rewrite Hrb, Hk.
  - intros k. rewrite Hrb. by intros [_ ?]%andb_true_iff.
  - intros k. rewrite !in_handles_cons, drop_0. intros Hk. rewrite Hrb. destruct (in_extent e.(Reservers.extent_) k) eqn:E.
    + rewrite (handles_disjoint _ _ _ _ Hh E). cbn. rewrite (proj2 (Hin k E)). btauto.
    + cbn in Hk. rewrite Hk. cbn. rewrite orb_true_r. rewrite (handles_in _ _ k Hh); [done|]. by rewrite in_handles_cons, Hk, orb_true_r.
  - done.
  - intros x ->%list_elem_of_singleton i Hi. by apply elem_of_app; left.
  - apply elem_of_app; right. by left.
  - cbn. lia.
Qed.

Lemma extents_ok_tail a e es m : extents_ok a (e :: es) → raw_ok m → m.(size_) = a.(block_map_).(size_) →
  (∀ k, 0 ≤ k → raw_bit m k = in_extent e.(Reservers.extent_) k || raw_bit a.(block_map_) k) → extents_ok (with_block_map a m) es.
Proof.
  intros [Hraw Hrle Hh Hwords Hfree] Hm Hs Hb. pose proof Hh as (_ & _ & _ & Hh'). constructor; cbn [with_block_map block_map_ reserved_blocks_]; [done|done| |by inversion Hwords|].
  { eapply handles_mono; [|exact Hh']. by intros k [? _]%andb_true_iff. }
  intros k Hk. destruct (Hfree k) as [? Hf]; [by rewrite in_handles_cons, Hk, orb_true_r|]. rewrite Hs. split; [done|]. rewrite Hb, Hf, orb_false_r by lia.
  destruct (in_extent _ k) eqn:E; [|done]. apply (handles_disjoint _ _ _ _ Hh) in E. congruence.
Qed.

(** One extent is recorded: [e'] is what of it is needed. *)
Lemma on_extent_ok e es a bs wb C rem x y :
  extents_ok a (e :: es) → volume_ok info0 a.(block_map_) nm → bs.(info_) = with_alloc_counts info0 x y → meta_txn info0 wb C →
  blocks wb.(WriteTxn.operations_) ≤ 2 ^ 59 → 0 < rem < 2 ^ 32 →
  let e' := if Length e.(Reservers.extent_) <=? rem then e else cut_at e rem in
  let l := Length e'.(Reservers.extent_) in
  ∃ m r wb', on_extent true a (bs, wb, rem) e =
      Returns (if rem - l =? 0 then Stop else Continue, e', with_reserved_blocks (with_block_map a m) r,
               (persisted bs (with_alloc_counts info0 (x ⊞ l) (y ⊞ 0)), wb', rem - l)) ∧
    0 < l ≤ rem ∧ raw_ok m ∧ m.(size_) = a.(block_map_).(size_) ∧
    (∀ k, 0 ≤ k → raw_bit m k = in_extent e'.(Reservers.extent_) k || raw_bit a.(block_map_) k) ∧ rle_ok r ∧
    (∀ k, rle_bit r k = (negb (in_extent e.(Reservers.extent_) k) || in_extent e'.(Reservers.extent_) k) && rle_bit a.(reserved_blocks_) k) ∧
    meta_txn info0 wb' (C ++ bitmap_items e'.(Reservers.extent_) ++ [info_item]) ∧
    blocks wb'.(WriteTxn.operations_) ≤ blocks wb.(WriteTxn.operations_) + 2 + info_cost C.
Proof.
  intros Hok Hvol Hinfo Hwb Hmax Hrem. destruct (extents_ok_head _ _ _ Hok) as (Hres & Hl & Hend & Hin). pose proof Hok as [Hraw Hrle Hh Hwords Hfree].
  apply Forall_cons in Hwords as [Hw Hws]. pose proof (extent_end e.(Reservers.extent_)) as (Hst & Hlen & _). pose proof (vo_size _ _ _ Hvol) as Hsz.
  unfold on_extent, ZX_DEBUG_ASSERT. ztest. cbn [mbind outcome_bind]. unfold extent, ZX_DEBUG_ASSERT. rewrite Hres. cbn [mbind outcome_bind].
  destruct (Z.leb_spec (Length e.(Reservers.extent_)) rem) as [Hle|Hgt].
  - cbn [mbind outcome_bind]. destruct (PersistBlocks_ok a bs wb C e x y) as (m1 & wb1 & -> & Hm1 & Hs1 & Hb1 & Hwb1 & Hbl1); [done..|by apply Hin|].
    cbn [mbind outcome_bind]. unwrap. exists m1, a.(reserved_blocks_), wb1. split; [done|]. split_and!; try done; try lia. intros k. by destruct (in_extent _ k).
  - unwrap. destruct (SplitAt_reset a e rem Hrle Hres Hw ltac:(lia) (λ k Hk, proj2 (Hin k Hk)) ltac:(lia)) as (r' & rest & E & Hr' & Hsr & Hlr & Hbr).
    cbn zeta in E. rewrite E. cbn [mbind outcome_bind]. destruct (SetLength_ok e.(Reservers.extent_) rem Hw ltac:(lia)) as (_ & Hs' & Hl').
    destruct (PersistBlocks_ok (with_reserved_blocks a r') bs wb C (cut_at e rem) x y) as (m1 & wb1 & -> & Hm1 & Hs1 & Hb1 & Hwb1 & Hbl1);
      [done..|cbn; lia|cbn; lia| |].
    { intros k. cbn. unfold in_extent. rewrite Hs', Hl'. intros Hk. apply Hin. unfold in_extent. revert Hk. zcases; done. }
    cbn [mbind outcome_bind]. assert (Length (Reservers.extent_ (cut_at e rem)) = rem) as El by exact Hl'. rewrite El in *. rewrite Z.sub_diag.
    exists m1, r', wb1. split; [done|]. split_and!; try done; try lia. intros k. rewrite Hbr. unfold in_extent, cut_at. cbn. rewrite Hsr, Hlr, Hs', Hl'.
    destruct (rle_bit _ k); [|by rewrite !andb_false_r]. zcases; done.
Qed.

Lemma visit_ok es a bs wb C rem x y :
  extents_ok a es → volume_ok info0 a.(block_map_) nm → bs.(info_) = with_alloc_counts info0 x y → meta_txn info0 wb C →
  blocks wb.(WriteTxn.operations_) + 3 * Z.of_nat (length es) ≤ 2 ^ 59 → 0 < rem ≤ AllocatorBlocks.blocks es → rem < 2 ^ 32 →
  ∃ m r wb' C', visit (on_extent true) a (bs, wb, rem) es =
      Returns (cut rem es, with_reserved_blocks (with_block_map a m) r, (persisted bs (with_alloc_counts info0 (x ⊞ rem) (y ⊞ 0)), wb', 0)) ∧
    recorded a wb C es rem m r wb' C'.
Proof.
  revert a bs wb C rem x y. induction es as [|e es IH]; intros a bs wb C rem x y Hok Hvol Hinfo Hwb Hmax Hrem H32; [cbn in Hrem; lia|].
  cbn [length] in Hmax. cbn [AllocatorBlocks.blocks foldr] in Hrem. fold (AllocatorBlocks.blocks es) in Hrem. pose proof (info_cost_range C) as Hic.
  destruct (on_extent_ok e es a bs wb C rem x y Hok Hvol Hinfo Hwb ltac:(lia) ltac:(lia)) as (m1 & r1 & wb1 & E1 & Hl & Hm1 & Hs1 & Hb1 & Hr1 & Hrb1 & Hwb1 & Hbl1).
  cbn [visit]. rewrite E1. cbn [mbind outcome_bind]. clear E1. cbn [cut].
  destruct (Z.leb_spec (Length e.(Reservers.extent_)) rem) as [Hle|Hgt].
  - destruct (Z.eqb_spec (rem - Length e.(Reservers.extent_)) 0) as [E|E].
    + assert (Length e.(Reservers.extent_) = rem) as El by lia. rewrite El, Z.sub_diag in *. eexists m1, r1, wb1, _. split; [done|].
      pose proof (recorded_last a e es rem m1 wb wb1 C r1 Hok ltac:(lia)) as HR. cbn zeta in HR. rewrite El, Z.eqb_refl in HR. by apply HR.
    + assert (∀ k, rle_bit r1 k = rle_bit a.(reserved_blocks_) k) as Hsame by (intros k; rewrite Hrb1; by destruct (in_extent _ k)).
      assert (r1 = a.(reserved_blocks_)) as -> by (by apply rle_ext; [..|apply Hok|]).
      destruct (IH (with_block_map a m1) (persisted bs (with_alloc_counts info0 (x ⊞ Length e.(Reservers.extent_)) (y ⊞ 0))) wb1 (C ++ bitmap_items e.(Reservers.extent_) ++ [info_item]) (rem - Length e.(Reservers.extent_))
        (x ⊞ Length e.(Reservers.extent_)) (y ⊞ 0)) as (m & r & wb' & C' & Ev & HR); [by eapply extents_ok_tail| |done|exact Hwb1|lia|lia|lia|].
      { cbn. destruct Hvol as [? ? ? ? ? ? ? ?]. by constructor; rewrite ?Hs1. }
      change (with_reserved_blocks (with_block_map a m1) (reserved_blocks_ a)) with (with_block_map a m1). rewrite Ev. cbn [mbind outcome_bind]. eexists m, r, wb', _. split.
      { replace (x ⊞ rem) with (x ⊞ Length e.(Reservers.extent_) ⊞ (rem - Length e.(Reservers.extent_))).
        - assert (y ⊞ 0 ⊞ 0 = y ⊞ 0) as -> by (unfold u64; by rewrite !Z.add_0_r, Zmod_mod). reflexivity.
        - unfold u64. rewrite Zplus_mod_idemp_l. f_equal. lia. }
      eapply recorded_whole; [done|lia|exact Hb1|exact Hs1|exact Hbl1|exact HR].
  - pose proof Hok as [_ _ _ Hwords _]. apply Forall_cons in Hwords as [Hw _]. pose proof (extent_end e.(Reservers.extent_)) as (_ & Hlen & _).
    assert (Length (Reservers.extent_ (cut_at e rem)) = rem) as El by (apply SetLength_ok; lia). rewrite El, Z.sub_diag in *. cbn [Z.eqb]. eexists m1, r1, wb1, _. split; [done|].
    pose proof (recorded_last a e es rem m1 wb wb1 C r1 Hok ltac:(lia)) as HR. cbn zeta in HR. replace (_ =? rem) with false in HR by (symmetry; apply Z.eqb_neq; lia). by apply HR.
Qed.

End persist.

(** ** Recording nodes *)

Lemma on_extent_blind alloc : node_blind (on_extent alloc).
Proof.
  intros a [[bs wb] rem] r m. unfold on_extent. destruct (ZX_DEBUG_ASSERT _) as [[]| |]; [|done..]. cbn [mbind outcome_bind].
  destruct (extent r) as [e| |]; [|done..]. cbn [mbind outcome_bind].
  assert (∀ (a : Allocator) r rem, (p ← PersistBlocks (with_node_map a m) bs wb r; let '(a, bs, wb) := (p : Allocator * Blobfs * WriteTxn) in
      Returns (if rem =? 0 then Stop else Continue, r, a, (bs, wb, rem))) =
    (q ← (p ← PersistBlocks a bs wb r; let '(a, bs, wb) := (p : Allocator * Blobfs * WriteTxn) in Returns (if rem =? 0 then Stop else Continue, r, a, (bs, wb, rem)));
     let '(c, e, a, w) := q in Returns (c, e, with_node_map a m, w))) as HP.
  { intros a' r' rem'. unfold PersistBlocks, MarkBlocksAllocated, CheckBlocksUnallocated. cbn [with_node_map block_map_].
    destruct (extent r') as [x| |]; [|done..]. cbn [mbind outcome_bind]. destruct (ZX_DEBUG_ASSERT _) as [[]| |]; [|done..]. cbn [mbind outcome_bind].
    destruct (RawBitmap.Find _ _ _ _ _ _) as [p| |]; [|done..]. cbn [mbind outcome_bind]. destruct (ZX_DEBUG_ASSERT _) as [[]| |]; [|done..]. cbn [mbind outcome_bind].
    destruct (RawBitmap.Set_ _ _ _) as [[st m']| |]; [|done..]. cbn [mbind outcome_bind]. destruct (ZX_ASSERT _) as [[]| |]; [|done..]. cbn [mbind outcome_bind].
    destruct (WriteBitmap _ _ _ _) as [wb'| |]; [|done..]. cbn [mbind outcome_bind]. destruct (WriteInfo _ _) as [[? ?]| |]; done. }
  destruct (_ <=? _); cbn [mbind outcome_bind with_node_map reserved_blocks_]; [apply HP|].
  destruct (SplitAt _ _ _ _) as [[[r1 rest] res]| |]; [|done..]. cbn [mbind outcome_bind]. destruct (ReservedExtent_Reset _ _ _) as [p| |]; [|done..]. cbn [mbind outcome_bind].
  apply (HP (with_reserved_blocks a (snd p))).
Qed.

Section nodes.
Context (info0 : Superblock) (nm : list Inode) (m : RawBitmapBase) (Hvol : volume_ok info0 m nm).

Lemma PersistNode_ok bs wb C i x y : bs.(info_) = with_alloc_counts info0 x y → meta_txn info0 wb C → blocks wb.(WriteTxn.operations_) ≤ 2 ^ 59 →
  0 ≤ i < Z.of_nat (length nm) →
  ∃ wb', PersistNode bs wb i = Returns (persisted bs (with_alloc_counts info0 (x ⊞ 0) (y ⊞ 1)), wb') ∧
    meta_txn info0 wb' (C ++ [node_item i] ++ [info_item]) ∧ blocks wb'.(WriteTxn.operations_) ≤ blocks wb.(WriteTxn.operations_) + 1 + info_cost C.
Proof.
  intros Hinfo Hwb Hmax Hi. unfold PersistNode. set (bs1 := count_allocated bs 0 1).
  assert (info_ bs1 = with_alloc_counts info0 (x ⊞ 0) (y ⊞ 1)) as Hi1 by (unfold bs1, count_allocated; cbn; rewrite Hinfo; done).
  destruct (WriteNode_ok (with_alloc_counts info0 (x ⊞ 0) (y ⊞ 1)) m nm bs1 wb C i) as (wb1 & -> & Hwb1 & Hbl1);
    [by apply volume_ok_counts|done|by apply meta_txn_counts|done|lia|]. cbn [mbind outcome_bind].
  destruct (write_info_ok _ bs1 wb1 _ Hwb1 ltac:(lia)) as (wb2 & -> & Hwb2 & Hbl2). exists wb2. split_and!.
  - do 2 f_equal. unfold persisted, bs1, count_allocated. by rewrite Hinfo.
  - rewrite app_assoc. destruct Hwb2 as [? ? ?]. by constructor.
  - pose proof (info_cost_app C [node_item i]). unfold info_cost in *. lia.
Qed.

Lemma visit_nodes_ok used a bs wb C rem x y : bs.(info_) = with_alloc_counts info0 x y → used ≠ [] → meta_txn info0 wb C →
  blocks wb.(WriteTxn.operations_) + 2 * Z.of_nat (length used) ≤ 2 ^ 59 → Forall (λ i, 0 ≤ i < Z.of_nat (length nm)) used →
  ∃ wb' C', visit_nodes on_node (map reserved_node used) a (bs, wb, rem) =
      Returns (a, (persisted bs (with_alloc_counts info0 (x ⊞ 0) (y ⊞ Z.of_nat (length used))), wb', rem)) ∧
    meta_txn info0 wb' (C ++ C') ∧ (∀ i, i ∈ used → node_item i ∈ C') ∧ info_item ∈ C' ∧
    blocks wb'.(WriteTxn.operations_) ≤ blocks wb.(WriteTxn.operations_) + Z.of_nat (length used) + info_cost C.
Proof using Hvol.
  revert bs wb C x y. induction used as [|i used IH]; intros bs wb C x y Hinfo Hne Hwb Hmax Hall; [done|]. apply Forall_cons in Hall as [Hi Hall].
  cbn [length] in Hmax. pose proof (info_cost_range C). cbn [map visit_nodes].
  assert (on_node a (bs, wb, rem) (reserved_node i) = (r ← PersistNode bs wb i; Returns (a, (fst r, snd r, rem)))) as -> by reflexivity.
  destruct (PersistNode_ok bs wb C i x y Hinfo Hwb ltac:(lia) Hi) as (wb1 & -> & Hwb1 & Hbl1). cbn [mbind outcome_bind fst snd].
  assert (info_cost (C ++ [node_item i] ++ [info_item]) = 0) as Hz by (apply info_cost_in; rewrite !elem_of_app; right; right; by left).
  destruct (decide (used = [])) as [->|Hne'].
  - exists wb1, ([node_item i] ++ [info_item]). split_and!; [done|done| |by right; left|cbn; lia]. intros j ->%list_elem_of_singleton. by left.
  - destruct (IH (persisted bs (with_alloc_counts info0 (x ⊞ 0) (y ⊞ 1))) wb1 _ (x ⊞ 0) (y ⊞ 1) eq_refl Hne' Hwb1 ltac:(lia) Hall) as (wb' & C' & E & Hwb' & Hin & Hinf & Hbl).
    exists wb', ([node_item i] ++ [info_item] ++ C'). split_and!.
    + cbn [length]. replace (y ⊞ Z.of_nat (S (length used))) with (y ⊞ 1 ⊞ Z.of_nat (length used)) by (unfold u64; rewrite Zplus_mod_idemp_l; f_equal; lia).
      replace (x ⊞ 0 ⊞ 0) with (x ⊞ 0) in E by (unfold u64; by rewrite !Z.add_0_r, Zmod_mod). exact E.
    + by rewrite !app_assoc in *.
    + intros j [->|Hj]%elem_of_cons; [by left|]. do 2 right. by apply Hin.
    + by right; left.
    + cbn [length]. lia.
Qed.

End nodes.
