(* ===== verification/BlobCommit.v ===== *)
(** * A blob that is committed: [WriteMetadata] records its blocks and its nodes *)

From S2P Require Import Prelude Bitmap RawBitmap RleBitmap IdAllocator Digest Format Superblock Reservers MerkleTree Allocator AllocatorBlocks AllocatorNodes Iterators Streaming Populate.
From S2P Require Import Operations RingBuffer RingCopy WriteTxn Writeback Blobfs Blob BlobWrite BlobMeta.

(** ** What is reserved for a blob *)

Record reservation (a : Allocator) (es : list ReservedExtent) (ids : list Z) : Prop := {
  rs_extents : extents_ok a es;
  rs_few : Z.of_nat (length es) ≤ kMaxBlobExtents;
  rs_rle : rle_ok a.(reserved_nodes_);
  rs_nodup : NoDup ids;
  rs_count : Z.of_nat (length ids) < 2 ^ 32;
  rs_enough : NodeCountForExtents (Z.of_nat (length es)) ≤ Z.of_nat (length ids);
  rs_held : ∀ i, i ∈ ids → 0 ≤ i ∧ rle_bit a.(reserved_nodes_) i = true ∧
    ∃ n : Inode, a.(node_map_) !! Z.to_nat i = Some n ∧ length n = kNodeWords ∧ IsAllocated n = false;
}.

(** An inode that can be given to a blob. *)
Record blank_inode (n : Inode) : Prop := {
  bi_length : length n = kNodeWords;
  bi_free : IsAllocated n = false;
  bi_extents : field_get inode_extent_count n = 0;
}.

Lemma volume_ok_same info m m' nm nm' : volume_ok info m nm → m'.(size_) = m.(size_) → length nm' = length nm → volume_ok info m' nm'.
Proof. intros [? ? ? ? ? ? ? ?] Hs Hl. by constructor; rewrite ?Hs, ?Hl. Qed.

Lemma length_cut n es : (length (cut n es) ≤ length es)%nat.
Proof. revert n. induction es as [|e es IH]; intros n; cbn [cut]; [done|]. destruct (_ <=? n); [destruct (_ =? 0)|]; cbn; [lia| |lia]. specialize (IH (n - Length e.(Reservers.extent_))). lia. Qed.

Lemma cut_stored f n es : handles f es → Forall (λ e, 0 ≤ e.(Reservers.extent_) < 2 ^ 64) es → 0 ≤ n < 2 ^ 32 → Forall stored (cut n es).
Proof.
  revert f n. induction es as [|e es IH]; intros f n Hh Hw Hn; cbn [cut]; [done|]. destruct Hh as (Hr & Hl & _ & Hh). apply Forall_cons in Hw as [Hw Hws].
  destruct (Z.leb_spec (Length e.(Reservers.extent_)) n).
  - constructor; [done|]. destruct (_ =? 0); [done|]. eapply IH; [done..|lia].
  - constructor; [|done]. split; [done|]. pose proof (Length_range e.(Reservers.extent_)). cbn. apply SetLength_ok; lia.
Qed.

(** The walk starts from the blob's own inode. *)
Lemma reservation_fresh a es ids i0 (n : Inode) : reservation a es ids → ids !! 0%nat = Some i0 → Z.of_nat (length a.(node_map_)) < 2 ^ 32 → blank_inode n →
  fresh_nodes (with_node_map a (<[Z.to_nat i0 := n]> a.(node_map_))) ids.
Proof.
  intros [_ _ _ Hnd Hcnt _ Hheld] Hi0 Hlen [Hn1 Hn2 Hn3]. constructor; cbn [with_node_map node_map_]; [done| |done| |].
  - apply Forall_forall. intros c Hc. destruct (Hheld c Hc) as (? & _ & x & Hx & _). apply lookup_lt_Some in Hx. lia.
  - intros c Hc. destruct (Hheld c Hc) as (Hc0 & _ & x & Hx & ? & ?). destruct (decide (c = i0)) as [->|Hne].
    + exists n. rewrite list_lookup_insert_eq by (by eapply lookup_lt_Some). done.
    + exists x. destruct (Hheld i0) as (? & _); [by eapply list_elem_of_lookup_2|]. by rewrite list_lookup_insert_ne by lia.
  - intros c x Hc Hx. assert (c = i0) as -> by congruence. destruct (Hheld i0) as (_ & _ & y & Hy & _); [by eapply list_elem_of_lookup_2|].
    rewrite list_lookup_insert_eq in Hx by (by eapply lookup_lt_Some). by injection Hx as <-.
Qed.

(** ** The blocks and the nodes are recorded *)

(** The flags of an inode that is recorded. *)
Definition recorded_flags (n : Inode) : Z :=
  Z.lor kBlobFlagAllocated (Z.land (field_get node_flags n) (Z.lor kBlobFlagZSTDCompressed kBlobFlagLZ4Compressed)).

(** The allocator before and after: the first [bc] blocks of the extents are allocated, what else was reserved is given back,
    and the nodes hold the inode [n] and the extents. *)
Record committed (a : Allocator) (es : list ReservedExtent) (ids : list Z) (n : Inode) (bc : Z) (a' : Allocator) : Prop := {
  cm_raw : raw_ok a'.(block_map_);
  cm_size : a'.(block_map_).(size_) = a.(block_map_).(size_);
  cm_words : length a'.(block_map_).(data_) = length a.(block_map_).(data_);
  cm_bits : ∀ k, 0 ≤ k → raw_bit a'.(block_map_) k = in_handles (cut bc es) k || raw_bit a.(block_map_) k;
  cm_rle : rle_ok a'.(reserved_blocks_);
  cm_unreserved : ∀ k, rle_bit a'.(reserved_blocks_) k = rle_bit a.(reserved_blocks_) k && negb (in_handles es k);
  cm_node_rle : rle_ok a'.(reserved_nodes_);
  cm_released : ∀ k, rle_bit a'.(reserved_nodes_) k = bool_decide (k ∉ ids) && rle_bit a.(reserved_nodes_) k;
  cm_ids : a'.(node_bitmap_) = a.(node_bitmap_);
  cm_length : length a'.(node_map_) = length a.(node_map_);
  cm_nodes : walking ids a.(node_map_) a'.(node_map_) (containers (length (cut bc es))) (map Reservers.extent_ (cut bc es)) (length (cut bc es));
  cm_inode : ∀ i0, ids !! 0%nat = Some i0 → ∃ n', a'.(node_map_) !! Z.to_nat i0 = Some n' ∧ core n' = core (field_set node_flags n (recorded_flags n));
}.

Lemma core_get f (n n' : Inode) : core n = core n' → f ∈ core_fields → field_get f n = field_get f n'.
Proof. unfold core. intros E Hf. revert E. induction Hf as [f l|f g l _ IH]; cbn [map]; [by intros [= ->]|]. intros [= _ E]. by apply IH. Qed.

Lemma core_flags (n n' : Inode) v : core n = core n' → length n = kNodeWords → length n' = kNodeWords → 0 ≤ v < 2 ^ 16 →
  core (field_set node_flags n v) = core (field_set node_flags n' v).
Proof.
  unfold kNodeWords. intros E Hn Hn' Hv. apply map_ext_in. intros f Hf. pose proof (core_get f n n' E (proj2 (list_elem_of_In _ _) Hf)) as Ef.
  cbn in Hf. unfold Inode in *. destruct Hf as [<-|[<-|[<-|[<-|[<-|[<-|[<-|[]]]]]]]]; fields; done.
Qed.

Lemma field_set_set f (n : list Z) v w : field_valid f = true → field_set f (field_set f n v) w = field_set f n w.
Proof.
  unfold field_valid. rewrite !andb_true_iff, !Z.leb_le. intros [[Ho Hb] _]. unfold field_set. destruct (n !! f_word f) as [x|] eqn:E.
  - rewrite list_insert_insert_eq, list_lookup_insert_eq by (by eapply lookup_lt_Some). cbn. f_equal. f_equal. apply Z.bits_inj'. intros i Hi.
    rewrite !Z.ldiff_spec, Z.lor_spec, Z.ldiff_spec, !Z.shiftl_spec by lia. destruct (Z.leb_spec f.(f_off) i).
    + rewrite Z.land_spec. btauto.
    + rewrite !(Z.testbit_neg_r _ (i - f_off f)) by lia. btauto.
  - rewrite list_insert_insert_eq. rewrite !list_insert_ge by (by apply lookup_ge_None). done.
Qed.

(** The compression flags are added to the inode at the end of the walk. *)
Lemma walking_flags ids m0 m i0 (es : list Extent) k (n : Inode) v : NoDup ids → Forall (λ c, 0 ≤ c < 2 ^ 32) ids → ids !! 0%nat = Some i0 →
  walking ids m0 m (containers k) es k → m !! Z.to_nat i0 = Some n →
  length n = kNodeWords ∧ walking ids m0 (<[Z.to_nat i0 := field_set node_flags n v]> m) (containers k) es k.
Proof.
  intros Hnd Hr Hi0 Hw Hn. destruct (walking_node ids m0 m _ _ _ 0 i0 Hw) as (x & Hx & Hlen & Hc & He); [lia|done|]. rewrite Hn in Hx. injection Hx as <-. split; [done|].
  eapply (walking_write ids Hnd Hr m0 m _ _ _ _ _ 0 i0 n); try done; [lia| |intros _; by rewrite field_get_set_ne by reflexivity]. split; [by rewrite length_field_set|].
  split; [by rewrite field_get_set_ne by reflexivity|]. intros e. rewrite field_get_set_ne by reflexivity. apply He.
Qed.

Lemma walking_base ids m0 m0' m cnt es k i0 : ids !! 0%nat = Some i0 → (∀ i, i ≠ Z.to_nat i0 → m0 !! i = m0' !! i) → walking ids m0 m cnt es k → walking ids m0' m cnt es k.
Proof.
  intros Hi0 Hm [Hl Hu Hf Hfr]. constructor; try done. intros i Hi. rewrite Hfr by done. apply Hm. intros ->. apply (Hi i0); [|done]. destruct ids; [done|]. injection Hi0 as ->. by left.
Qed.

Lemma walking_length ids m0 m cnt es k : (∀ c, c ∈ ids → (Z.to_nat c < length m0)%nat) → walking ids m0 m cnt es k → length m = length m0.
Proof.
  intros Hin [Hl _ _ Hfr]. assert (∀ i, is_Some (m !! i) ↔ is_Some (m0 !! i)) as H.
  { intros i. destruct (decide (Exists (λ c, Z.to_nat c = i) (take (S cnt) ids))) as [He|He].
    - apply Exists_exists in He as (c & Hc & <-). apply list_elem_of_lookup in Hc as [j Hj]. destruct (Hl j c Hj) as (_ & n & -> & _).
      split; [|done]. intros _. apply lookup_lt_is_Some_2, Hin. apply lookup_take_Some in Hj as [Hj _]. by eapply list_elem_of_lookup_2.
    - rewrite Hfr; [done|]. intros c Hc <-. apply He, Exists_exists. by exists c. }
  pose proof (proj1 (H (length m0))) as H1. pose proof (proj2 (H (length m))) as H2. rewrite !lookup_lt_is_Some in *. lia.
Qed.

(** ** The words of the block map *)

Lemma Set_words m lo hi m' : raw_ok m → 0 ≤ lo → RawBitmap.Set_ m lo hi = Returns (ZX_OK, m') → raw_ok m' ∧ length m'.(data_) = length m.(data_).
Proof.
  intros Hm Hlo E. destruct ((hi <? lo) || (m.(size_) <? hi)) eqn:Eb; [unfold RawBitmap.Set_ in E; by rewrite Eb in E|].
  apply orb_false_iff in Eb as [? ?]. destruct (Set_ok m lo hi Hm) as (m'' & E' & Hm'' & _ & Hl & _); [lia..|]. rewrite E in E'. by injection E' as ->.
Qed.

Lemma PersistBlocks_words a bs wb r a' bs' wb' : raw_ok a.(block_map_) → PersistBlocks a bs wb r = Returns (a', bs', wb') →
  raw_ok a'.(block_map_) ∧ length a'.(block_map_).(data_) = length a.(block_map_).(data_).
Proof.
  intros Hm E. unfold PersistBlocks in E. apply bind_returns in E as (a1 & E1 & E). apply bind_returns in E as (e & _ & E). apply bind_returns in E as (w1 & _ & E).
  apply bind_returns in E as (p & _ & [= <- _ _]). unfold MarkBlocksAllocated in E1. apply bind_returns in E1 as (e1 & _ & E1). apply bind_returns in E1 as (? & _ & E1).
  apply bind_returns in E1 as (? & _ & E1). apply bind_returns in E1 as ([st m] & Es & E1). destruct (bool_decide_reflect (st = ZX_OK)) as [->|]; [|done]. injection E1 as <-.
  eapply Set_words; [done| |exact Es]. apply Start_range.
Qed.

Lemma visit_words alloc es a s es' a' s' : raw_ok a.(block_map_) → visit (on_extent alloc) a s es = Returns (es', a', s') →
  length a'.(block_map_).(data_) = length a.(block_map_).(data_).
Proof.
  revert a s es'. induction es as [|e es IH]; intros a s es' Hm E; cbn [visit] in E; [by injection E as _ <- _|].
  apply bind_returns in E as ([[[c e1] a1] s1] & E1 & E). assert (raw_ok a1.(block_map_) ∧ length a1.(block_map_).(data_) = length a.(block_map_).(data_)) as [Hm1 Hl1].
  { destruct s as [[bs wb] rem]. unfold on_extent in E1. apply bind_returns in E1 as (? & _ & E1). apply bind_returns in E1 as (e0 & _ & E1).
    apply bind_returns in E1 as ([[r1 a2] rem1] & Ea & E1). apply bind_returns in E1 as ([[a3 bs3] wb3] & Ep & [= _ _ <- _]).
    assert (block_map_ a2 = block_map_ a) as Ebm.
    { destruct (_ <=? rem) in Ea; [by injection Ea as _ <- _|]. apply bind_returns in Ea as ([[? ?] ?] & _ & Ea). by apply bind_returns in Ea as (? & _ & [= _ <- _]). }
    rewrite <- Ebm in *. by eapply PersistBlocks_words. }
  destruct c; [|injection E as _ <- _; done]. apply bind_returns in E as ([[new a2] s2] & E2 & E3). injection E3 as _ <- <-. rewrite <- Hl1. exact (IH _ _ _ Hm1 E2).
Qed.

Lemma wrap_add_0 x y : x ⊞ y ⊞ 0 = x ⊞ y.
Proof. unfold u64. by rewrite Z.add_0_r, Zmod_mod. Qed.

Lemma wrap_0_add x y : x ⊞ 0 ⊞ y = x ⊞ y.
Proof. unfold u64. by rewrite Z.add_0_r, Zplus_mod_idemp_l. Qed.

Lemma recorded_flags_range n : 0 ≤ recorded_flags n < 2 ^ 16.
Proof.
  unfold recorded_flags. pose proof (field_get_range node_flags n ltac:(done)) as H. cbn in H. set (f := field_get node_flags n) in *.
  assert (0 ≤ Z.land f (Z.lor kBlobFlagZSTDCompressed kBlobFlagLZ4Compressed)) by (apply Z.land_nonneg; lia). split; [by apply Z.lor_nonneg|].
  apply Z.log2_lt_cancel. rewrite Z.log2_lor by done. change (Z.log2 (2 ^ 16)) with 16. pose proof (Z.log2_land f (Z.lor kBlobFlagZSTDCompressed kBlobFlagLZ4Compressed) ltac:(lia) ltac:(done)) as Hl.
  apply Z.max_lub_lt; [done|]. eapply Z.le_lt_trans; [exact Hl|]. eapply Z.le_lt_trans; [apply Z.le_min_r|]. done.
Qed.

(** The handles that are left are destroyed. *)
Lemma reservation_reset info a es ids bc m r wb wb' C C' : reservation a es ids → 0 < bc →
  recorded info a wb C es bc m r wb' C' → Z.of_nat (length a.(node_map_)) < 2 ^ 32 →
  ∃ blocks nodes, reset_extents true r (cut bc es ++ drop (length (cut bc es)) es) = Returns blocks ∧ reset_nodes true a.(reserved_nodes_) (map reserved_node ids) = Returns nodes ∧
    rle_ok blocks ∧ (∀ k, rle_bit blocks k = rle_bit a.(reserved_blocks_) k && negb (in_handles es k)) ∧
    rle_ok nodes ∧ ∀ k, rle_bit nodes k = bool_decide (k ∉ ids) && rle_bit a.(reserved_nodes_) k.
Proof.
  intros [[_ _ _ Hwords _] _ Hrle Hnd Hcnt _ Hheld] Hbc HR Hlen. destruct (reset_extents_ok r _ (rc_rle _ _ _ _ _ _ _ _ _ _ HR) (rc_handles _ _ _ _ _ _ _ _ _ _ HR)) as (bl & -> & Hb1 & Hb2).
  destruct (reset_nodes_ok a.(reserved_nodes_) ids Hrle Hnd) as (nd & -> & Hn1 & Hn2).
  { intros i Hi. destruct (Hheld i Hi) as (? & ? & n & Hn%lookup_lt_Some & _). split; [lia|done]. }
  exists bl, nd. split_and!; try done. intros k. rewrite Hb2. fold (in_handles (cut bc es ++ drop (length (cut bc es)) es) k). destruct (in_handles es k) eqn:E.
  - rewrite (rc_inside _ _ _ _ _ _ _ _ _ _ HR k E). btauto.
  - rewrite (rc_other _ _ _ _ _ _ _ _ _ _ HR k E). destruct (in_handles (cut _ _ ++ _) k) eqn:E2; [|done]. apply cut_sub in E2; [congruence|done|lia].
Qed.

Section populate.
Context {X : Type} (info : Superblock).

Lemma populate_ok a bs (b : Blob X) w es ids i0 x y : reservation a es ids → ids !! 0%nat = Some i0 → volume_ok info a.(block_map_) a.(node_map_) →
  bs.(info_) = with_alloc_counts info x y → b.(map_index_) = i0 → blank_inode b.(Blob.inode_) → w.(w_extents) = es → w.(w_nodes) = map reserved_node ids →
  let bc := field_get block_count b.(Blob.inode_) in 0 < bc ≤ AllocatorBlocks.blocks es →
  let used := take (S (containers (length (cut bc es)))) ids in
  ∃ a' wb' C, populate true a bs b NewWriteTxn w = Returns (a', persisted bs (with_alloc_counts info (x ⊞ bc) (y ⊞ Z.of_nat (length used))), wb') ∧
    committed a es ids b.(Blob.inode_) bc a' ∧ meta_txn info wb' C ∧
    (∀ e, e ∈ cut bc es → ∀ i, i ∈ bitmap_items e.(Reservers.extent_) → i ∈ C) ∧ (∀ i, i ∈ used → node_item i ∈ C) ∧ info_item ∈ C ∧
    blocks wb'.(WriteTxn.operations_) ≤ 2 * Z.of_nat (length (cut bc es)) + Z.of_nat (length used) + 1.
Proof.
  intros Hres Hi0 Hvol Hinfo Hmi Hblank Hes Hids bc Hbc used. pose proof (vo_index _ _ _ Hvol) as Hidx.
  pose proof (field_get_range block_count b.(Blob.inode_) ltac:(done)) as Hbcr. fold bc in Hbcr. cbn in Hbcr. pose proof (length_cut bc es) as Hcl.
  destruct (rs_held _ _ _ Hres i0) as (Hi0r & _ & n0 & Hn0 & Hn0l & _); [by eapply list_elem_of_lookup_2|]. pose proof (lookup_lt_Some _ _ _ Hn0) as Hlt.
  unfold populate. rewrite Hmi, (GetNode_ok a i0 n0) by done. cbn [mbind outcome_bind]. rewrite SetNode_ok by lia. cbn [mbind outcome_bind].
  pose proof (rs_few _ _ _ Hres) as Hfew. pose proof (rs_enough _ _ _ Hres) as Hen. unfold kMaxBlobExtents in Hfew. unfold NewNodePopulator, ZX_DEBUG_ASSERT, kMaxBlobExtents. rewrite Hes, Hids, length_map.
  ztest. cbn [mbind outcome_bind]. unwrap. ztest. cbn [mbind outcome_bind].
  set (a1 := with_node_map a (<[Z.to_nat i0 := b.(Blob.inode_)]> a.(node_map_))).
  destruct (visit_ok info a.(node_map_) es a1 bs NewWriteTxn [] bc x y) as (m & r & wb1 & C1 & Ev & HR); [by destruct (rs_extents _ _ _ Hres)|done|done|apply meta_new|cbn; lia|done|lia|].
  pose proof (visit_words _ _ _ _ _ _ _ (eo_map _ _ (rs_extents _ _ _ Hres) : raw_ok (block_map_ a1)) Ev) as Hwords.
  assert (Forall stored (cut bc es)) as Hst by (destruct (rs_extents _ _ _ Hres); by eapply cut_stored; [..|lia]).
  destruct (Walk_ok on_node _ _ _ _ _ _ _ ids (reservation_fresh a es ids i0 _ Hres Hi0 Hidx Hblank) (ltac:(lia) : Z.of_nat (length es) ≤ 65535) Hen (on_extent_blind true) Ev Hst) as (i & nm & Hi & EW & Hw & Hcore).
  fold a1 in EW. fold bc. rewrite EW. clear EW. rewrite Hi0 in Hi. injection Hi as <-. fold used. assert (∀ c, c ∈ ids → 0 ≤ c < Z.of_nat (length a.(node_map_))) as Hin.
  { intros c Hc. destruct (rs_held _ _ _ Hres c Hc) as (? & _ & n & Hn%lookup_lt_Some & _). lia. }
  assert (length nm = length a.(node_map_)) as Hnml.
  { pose proof Hw as Hwl. apply walking_length in Hwl; [rewrite Hwl; apply length_insert|]. cbn [with_node_map node_map_]. rewrite length_insert. intros c Hc%Hin. lia. }
  pose proof (rc_count _ _ _ _ _ _ _ _ _ _ HR) as Hbl1. change (blocks (WriteTxn.operations_ NewWriteTxn)) with 0 in Hbl1. pose proof (info_cost_range []). assert (length used ≤ S (length es))%nat as Hul.
  { unfold used. rewrite length_take. pose proof (containers_spec (length (cut bc es))). lia. }
  destruct (visit_nodes_ok info nm m (volume_ok_same _ _ _ _ _ Hvol (rc_size _ _ _ _ _ _ _ _ _ _ HR) Hnml) used (with_node_map (with_reserved_blocks (with_block_map a1 m) r) nm)
    (persisted bs (with_alloc_counts info (x ⊞ bc) (y ⊞ 0))) wb1 C1 0 (x ⊞ bc) (y ⊞ 0) eq_refl) as (wb2 & C2 & En & Hwb2 & Hin2 & Hinf2 & Hbl2).
  { unfold used. destruct ids; done. } { exact (rc_txn _ _ _ _ _ _ _ _ _ _ HR). }
  { lia. } { apply Forall_forall. intros c Hc. rewrite Hnml. apply Hin. apply list_elem_of_lookup in Hc as [j [Hj _]%lookup_take_Some]. by eapply list_elem_of_lookup_2. }
  rewrite En. clear En. cbn [mbind outcome_bind fst snd extents_ nodes_]. change (bool_decide (ZX_OK = ZX_OK)) with true. cbn [ZX_ASSERT mbind outcome_bind].
  destruct (Hcore b.(Blob.inode_)) as (n' & Hn' & Hcn); [apply list_lookup_insert_eq; done|]. pose proof (fn_range _ _ (reservation_fresh a es ids i0 _ Hres Hi0 Hidx Hblank)) as Hrange.
  rewrite (update_node_ok _ i0 n') by done. cbn [mbind outcome_bind with_node_map reserved_blocks_ with_reserved_blocks reserved_nodes_ with_block_map node_map_].
  destruct (reservation_reset info a es ids bc m r _ wb1 _ C1 Hres ltac:(lia) ltac:(by destruct HR) Hidx) as (rb & rn & Erb & Ern & Hrb1 & Hrb2 & Hrn1 & Hrn2).
  rewrite Erb. cbn [mbind outcome_bind]. change (reserved_nodes_ a1) with (reserved_nodes_ a). rewrite Ern. cbn [mbind outcome_bind].
  destruct (walking_flags ids _ nm i0 _ _ n' (recorded_flags b.(Blob.inode_)) (rs_nodup _ _ _ Hres) Hrange Hi0 Hw Hn') as [Hnl Hwf].
  assert (Z.lor (field_get node_flags n') (Z.land (field_get node_flags b.(Blob.inode_)) (Z.lor kBlobFlagZSTDCompressed kBlobFlagLZ4Compressed)) = recorded_flags b.(Blob.inode_)) as ->.
  { rewrite (core_get node_flags n' _ Hcn) by (by repeat constructor). pose proof (bi_length _ Hblank) as Hbl. unfold Inode, kNodeWords in *. rewrite field_get_set by (done || rewrite Hbl; cbn; lia). done. }
  rewrite wrap_add_0, wrap_0_add. eexists _, wb2, (C1 ++ C2). split; [reflexivity|]. split.
  { constructor; cbn [with_reserved_nodes with_reserved_blocks with_node_map with_block_map block_map_ node_map_ reserved_blocks_ reserved_nodes_ node_bitmap_]; try done; try apply HR; [by rewrite length_insert| |].
    - eapply walking_base; [done| |exact Hwf]. intros i Hi. apply list_lookup_insert_ne. done.
    - intros i. rewrite Hi0. intros [= <-]. eexists. split; [apply list_lookup_insert_eq; by eapply lookup_lt_Some|]. rewrite <- (field_set_set _ b.(Blob.inode_) kBlobFlagAllocated) by done.
      apply core_flags; [done|done|by rewrite length_field_set; apply Hblank|apply recorded_flags_range]. }
  rewrite (info_cost_in C1) in Hbl2 by apply HR. split_and!; [done| | |by apply elem_of_app; right|lia].
  - intros e He i Hi. apply elem_of_app. left. by eapply HR.
  - intros i Hi. apply elem_of_app. right. by apply Hin2.
Qed.

End populate.

(** ** [WriteMetadata] *)

Section write_metadata.
Context {X : Type} (info : Superblock).
Implicit Types b : Blob X.

Definition signalled b : option bool := (λ _, true) <$> b.(readable_event_).

(** The blob once its metadata is written. *)
Definition made_readable b : Blob X :=
  with_write_info (with_sync (SetState (with_inode b b.(map_index_) (set_root b.(Blob.inode_) b.(key))) kBlobStateReadable) true (signalled b)) None.

Lemma signal_readable_ok bs b : quiet bs → ∃ n, signal_readable bs b = (ZX_OK, advance bs bs.(accepted) n, with_sync b b.(syncing_) (signalled b)).
Proof.
  intros Hq. unfold signal_readable, signalled. destruct b as [? ? ? ? ? ? [e|] ? ? ? ?]; cbn.
  - unfold call. rewrite Hq, failed_ok. by eexists.
  - exists bs.(time). by destruct bs.
Qed.

Lemma set_root_keeps f (n : Inode) k : field_valid f = true → forallb (λ i, field_disjoint (merkle_root_hash i) f) [0; 1; 2; 3]%nat = true →
  field_get f (set_root n k) = field_get f n.
Proof.
  intros Hf Hd. cbn [forallb] in Hd. rewrite !andb_true_iff in Hd. destruct Hd as (H0 & H1 & H2 & H3 & _). unfold set_root. cbn [foldl].
  by rewrite !field_get_set_ne.
Qed.

Lemma set_root_blank (n : Inode) k : blank_inode n → blank_inode (set_root n k).
Proof.
  intros [H1 H2 H3]. constructor; [by unfold set_root; cbn [foldl]; rewrite !length_field_set| |by rewrite set_root_keeps].
  unfold IsAllocated in *. by rewrite set_root_keeps.
Qed.

(** The journal takes a work of metadata. *)
Lemma EnqueueWork_journal vmos bs wb cap : quiet bs → bs.(journal_) = Some cap → txn_ok wb → BlkCount wb ≤ kMaxEntryDataBlocks → BlkCount wb + 2 ≤ cap →
  EnqueueWork vmos bs wb Blobfs.kJournal = Returns (ZX_OK, advance bs (bs.(accepted) ++ [(Blobfs.kJournal, capture vmos wb.(WriteTxn.operations_))]) (S bs.(time))).
Proof.
  intros Hq Hj [Hb Hf Hc] H64 Hcap. pose proof (blocks_pos _ Hf). unfold EnqueueWork, ZX_DEBUG_ASSERT, ZX_ASSERT, kMaxEntryDataBlocks in *. rewrite Hj, Hb. cbn [negb mbind outcome_bind].
  unwrap. rewrite (proj2 (Z.leb_le _ _) Hcap), orb_true_r. cbn [mbind outcome_bind]. ztest. cbn [mbind outcome_bind]. by rewrite take_work_ok.
Qed.

Lemma WriteMetadata_ok a bs b w es ids i0 x y wcap jcap : quiet bs → bs.(writeback_) = Some wcap → bs.(journal_) = Some jcap →
  GetState b = kBlobStateDataWrite → b.(write_info_) = Some w →
  reservation a es ids → ids !! 0%nat = Some i0 → volume_ok info a.(block_map_) a.(node_map_) →
  bs.(info_) = with_alloc_counts info x y → b.(map_index_) = i0 → blank_inode b.(Blob.inode_) → w.(w_extents) = es → w.(w_nodes) = map reserved_node ids →
  let bc := field_get block_count b.(Blob.inode_) in 0 < bc ≤ AllocatorBlocks.blocks es →
  let used := take (S (containers (length (cut bc es)))) ids in
  let cost := 2 * Z.of_nat (length (cut bc es)) + Z.of_nat (length used) + 1 in cost ≤ kMaxEntryDataBlocks → cost + 2 ≤ jcap →
  let bs1 := persisted bs (with_alloc_counts info (x ⊞ bc) (y ⊞ Z.of_nat (length used))) in
  ∃ a' ops (C : list (Z * Z)) n, WriteMetadata true a bs b = Returns (ZX_OK, a',
      advance bs1 (bs.(accepted) ++ [(Blobfs.kJournal, capture (metadata bs1 a'.(block_map_) a'.(node_map_)) ops)]) n, made_readable b) ∧
    committed a es ids (set_root b.(Blob.inode_) b.(key)) bc a' ∧
    Forall op_fits ops ∧ (∀ h t off d, in_ops ops (h, t, off, d) = true ↔ t = kWrite ∧ d = place_of info h off ∧ (h, off) ∈ C) ∧
    (∀ h off, (h, off) ∈ C → item_ok info h off) ∧
    (∀ e, e ∈ cut bc es → ∀ i, i ∈ bitmap_items e.(Reservers.extent_) → i ∈ C) ∧ (∀ i, i ∈ used → node_item i ∈ C) ∧ info_item ∈ C.
Proof.
  intros Hq Hwb Hj Hst Hwi Hres Hi0 Hvol Hinfo Hmi Hblank Hes Hids bc Hbc used cost H64 Hcap bs1.
  unfold WriteMetadata, ZX_DEBUG_ASSERT. rewrite Hst, Z.eqb_refl. cbn [mbind outcome_bind]. unfold CreateWork. rewrite Hwb.
  set (b1 := SetState (with_inode b _ _) _). destruct (signal_readable_ok bs b1 Hq) as (n1 & ->). rewrite failed_ok.
  cbn [write_info_ with_sync]. change (write_info_ b1) with (write_info_ b). rewrite Hwi. cbn [readable_event_ Blob.inode_ with_sync].
  change (Blob.inode_ b1) with (set_root (Blob.inode_ b) (key b)). rewrite set_root_keeps by done. fold bc. ztest. cbn [negb].
  set (b2 := with_sync (with_sync b1 _ _) _ _). assert (field_get block_count (Blob.inode_ b2) = bc) as Ebc by (by apply set_root_keeps).
  destruct (populate_ok info a (advance bs bs.(accepted) n1) b2 w es ids i0 x y) as (a' & wb & C & -> & Hcm & [Htx Hin Hval] & Hcov & Hnod & Hinf & Hbl); try done; [by apply set_root_blank|by rewrite Ebc|].
  rewrite Ebc in *. cbn [mbind outcome_bind]. rewrite (EnqueueWork_journal _ _ wb jcap); [|done|done|done|rewrite (tx_count _ Htx); fold used in Hbl; lia..].
  cbn [mbind outcome_bind]. rewrite failed_ok. cbn [drop_write_info reset_extents reset_nodes w_extents w_nodes mbind outcome_bind].
  exists a', wb.(WriteTxn.operations_), C. eexists. split_and!; try done; [|apply Htx]. f_equal. f_equal. f_equal. by destruct a'.
Qed.

End write_metadata.
