(* ===== verification/NodeWords.v ===== *)
(** * Nodes are made of words

    Recording a blob stores fields into nodes; a node stays a list of 64-bit words, so that it is what is read back from the device. *)

From S2P Require Import Prelude RawBitmap RleBitmap Digest Format Superblock Reservers Allocator Iterators Populate.
From S2P Require Import Operations WriteTxn Blobfs Blob BlobWrite BlobMeta BlobCommit.

Definition node_words (n : Inode) : Prop := Forall is_word n.

Definition map_words (m : list Inode) : Prop := Forall node_words m.

Lemma field_set_words f (n : Inode) v : field_valid f = true → node_words n → node_words (field_set f n v).
Proof.
  unfold field_valid. rewrite !andb_true_iff, !Z.leb_le, Z.ltb_lt. intros [[Ho Hb] He] Hn. unfold field_set. apply Forall_insert; [done|].
  assert (is_word (default 0 (n !! f.(f_word)))) as Hw by (destruct (n !! f.(f_word)) as [x|] eqn:E; [by eapply Forall_lookup_1|by split]).
  set (w := default 0 _) in *. unfold is_word in *. apply lor_range; [lia| |].
  - assert (0 ≤ Z.ldiff w (Z.shiftl (Z.ones f.(f_bits)) f.(f_off))) as Hd by (apply Z.ldiff_nonneg; lia). split; [done|]. apply bits_bound; [lia|done|].
    intros i Hi. rewrite Z.ldiff_spec, (testbit_high 64 w) by lia. done.
  - rewrite Z.land_ones, Z.shiftl_mul_pow2 by lia. pose proof (Z.mod_pos_bound v (2 ^ f.(f_bits)) ltac:(apply Z.pow_pos_nonneg; lia)). split; [apply Z.mul_nonneg_nonneg; lia|].
    apply Z.lt_le_trans with (2 ^ f.(f_bits) * 2 ^ f.(f_off)); [apply Z.mul_lt_mono_pos_r; lia|]. rewrite <- Z.pow_add_r by lia. apply Z.pow_le_mono_r; lia.
Qed.

#[export] Hint Resolve field_set_words : node_words.
#[export] Hint Extern 1 (field_valid _ = true) => reflexivity : node_words.

Lemma set_root_words (n : Inode) k : node_words n → node_words (set_root n k).
Proof. intros Hn. unfold set_root. cbn [foldl]. auto with node_words. Qed.

Lemma map_words_insert m i n : map_words m → node_words n → map_words (<[i := n]> m).
Proof. apply Forall_insert. Qed.

Lemma map_words_lookup m i n : map_words m → m !! i = Some n → node_words n.
Proof. intros Hm E. by eapply Forall_lookup_1 in Hm. Qed.

Lemma GetNode_words a i n : GetNode a i = Returns n → map_words a.(node_map_) → node_words n.
Proof. unfold GetNode. intros E Hm. ran E. apply array_get_returns in E as [_ E]. by eapply map_words_lookup. Qed.

Lemma SetNode_words a i n a' : SetNode a i n = Returns a' → map_words a.(node_map_) → node_words n → map_words a'.(node_map_).
Proof. intros ->%SetNode_returns Hm Hn. by apply map_words_insert. Qed.

Lemma update_node_words a i f a' : update_node a i f = Returns a' → map_words a.(node_map_) → (∀ n, node_words n → node_words (f n)) → map_words a'.(node_map_).
Proof. intros (n & En & ->)%update_node_inv Hm Hf. apply map_words_insert; [done|]. apply Hf. by eapply map_words_lookup. Qed.

Lemma MarkInodeAllocated_words a node a' : MarkInodeAllocated a node = Returns a' → map_words a.(node_map_) → map_words a'.(node_map_).
Proof. unfold MarkInodeAllocated. intros E Hm. ran E. eapply SetNode_words; [exact E|done|]. apply GetNode_words in E1; auto with node_words. Qed.

Lemma MarkContainerNodeAllocated_words a node p a' : MarkContainerNodeAllocated a node p = Returns a' → map_words a.(node_map_) → map_words a'.(node_map_).
Proof.
  unfold MarkContainerNodeAllocated. intros E Hm. ran E. apply GetNode_words in E1; [|done]. apply SetNode_words in E2; [|by auto with node_words..]. apply GetNode_words in E3; [|done].
  apply SetNode_words in E; auto 10 with node_words.
Qed.

(** What is stored into a node. *)
Ltac stored_words := intros; cbv beta zeta; auto 10 with node_words.

Section walk.
Context {W : Type} (on_extent : Allocator → W → ReservedExtent → outcome (IterationCommand * ReservedExtent * Allocator * W)).
Context (Hblind : node_blind on_extent).

Lemma walk_container_words nodes i k (s s' : @walk W) : walk_container nodes i k s = Returns s' → map_words s.(w_alloc).(node_map_) → map_words s'.(w_alloc).(node_map_).
Proof using.
  unfold walk_container. intros E Hm. apply bind_returns in E as ([next a] & E1 & E). assert (map_words a.(node_map_)) as Ha.
  { ran E1; try done. match goal with H : update_node _ _ _ = _ |- _ => by eapply update_node_words in H; [|done|stored_words] end. }
  ran E; [|done]. by eapply MarkContainerNodeAllocated_words.
Qed.

Lemma walk_store_words i k r (s : @walk W) a' : walk_store i k r s = Returns a' → map_words s.(w_alloc).(node_map_) → map_words a'.(node_map_).
Proof using.
  unfold walk_store. intros E Hm. ran E. eapply update_node_words; [exact E| |stored_words]. ran E1; match goal with H : update_node _ _ _ = Returns ?a |- map_words (node_map_ ?a) => apply (update_node_words _ _ _ _ H Hm); stored_words end.
Qed.

Lemma blind_nodes a w e c e' a' w' : on_extent a w e = Returns (c, e', a', w') → a'.(node_map_) = a.(node_map_).
Proof using Hblind.
  intros E. pose proof (Hblind a w e a.(node_map_)) as Hb. replace (with_node_map a a.(node_map_)) with a in Hb by (by destruct a). rewrite E in Hb. cbn in Hb. by injection Hb as ->.
Qed.

Lemma walk_loop_words rest nodes i k s visited s' v' : walk_loop on_extent nodes i k rest s visited = Returns (s', v') → map_words s.(w_alloc).(node_map_) → map_words s'.(w_alloc).(node_map_).
Proof using Hblind.
  revert k s visited. induction rest as [|e rest IH]; intros k s visited E Hm; cbn [walk_loop] in E; [by injection E as <- _|].
  apply bind_returns in E as (s1 & E1%walk_container_words & E); [|done]. apply bind_returns in E as ([[[command e1] a1] w1] & Ex%blind_nodes & E). apply bind_returns in E as (a2 & Es%walk_store_words & E); [|cbn; by rewrite Ex].
  destruct command; [by apply IH in E|by injection E as <- _].
Qed.

Lemma Walk_words on_node p a w st p' a' w' : (∀ a w n a' w', on_node a w n = Returns (a', w') → a' = a) → Walk on_node on_extent p a w = Returns (st, p', a', w') → map_words a.(node_map_) → map_words a'.(node_map_).
Proof using Hblind.
  intros Hn. assert (∀ nodes a w r, visit_nodes on_node nodes a w = Returns r → fst r = a) as Hv.
  { induction nodes as [|n nodes IH]; intros a0 w0 r E; cbn [visit_nodes] in E; [by injection E as <-|]. apply bind_returns in E as ([a1 w1] & ->%Hn & E). by apply IH in E. }
  unfold Walk. intros E Hm. apply bind_returns in E as (node & _ & E). apply bind_returns in E as (i & _ & E). apply bind_returns in E as (n & _ & E). apply bind_returns in E as (a1 & E1%MarkInodeAllocated_words & E); [|done].
  apply bind_returns in E as ([s visited] & E2%walk_loop_words & E); [|done]. apply bind_returns in E as (used & _ & E). apply bind_returns in E as (r & Er%Hv & E). injection E as _ _ <- _. by rewrite Er.
Qed.
End walk.

(** ** Recording a blob *)

Lemma populate_words {X} alloc a bs (b : Blob X) wb w a' bs' wb' : populate alloc a bs b wb w = Returns (a', bs', wb') → map_words a.(node_map_) → node_words b.(Blob.inode_) → map_words a'.(node_map_).
Proof.
  unfold populate. intros E Hm Hn. apply bind_returns in E as (n & _ & E). apply bind_returns in E as (a1 & E1%SetNode_words & E); [|done..]. apply bind_returns in E as (p & _ & E).
  apply bind_returns in E as ([[[st p'] a2] [[bs1 wb1] ?]] & E2 & E). apply Walk_words in E2; [|apply on_extent_blind| |done].
  - apply bind_returns in E as (? & _ & E). apply bind_returns in E as (a3 & E3 & E). apply update_node_words in E3; [|done|stored_words]. by ran E.
  - intros a0 [[? ?] ?] n0 a0' w0' E0. unfold on_node in E0. by ran E0.
Qed.

Lemma drop_write_info_nodes {X} alloc a (w : option (WritebackInfo X)) a' : drop_write_info alloc a w = Returns a' → a'.(node_map_) = a.(node_map_).
Proof. unfold drop_write_info. intros E. by ran E. Qed.

Lemma WriteMetadata_words {X} alloc a bs (b : Blob X) st a' bs' b' : WriteMetadata alloc a bs b = Returns (st, a', bs', b') → map_words a.(node_map_) → node_words b.(Blob.inode_) → map_words a'.(node_map_).
Proof.
  unfold WriteMetadata. intros E Hm Hn. apply bind_returns in E as (? & _ & E). destruct (CreateWork bs) as [[] [wb|]]; try (by ran E). set (b1 := SetState _ _) in E.
  assert (∀ st1 bs1 b2, signal_readable bs b1 = (st1, bs1, b2) → b2.(Blob.inode_) = set_root b.(Blob.inode_) b.(key)) as Hb by (unfold signal_readable; intros st1 bs1 b2 E1; destruct (readable_event_ b1); [destruct (call bs) as [st2 ?]; destruct (failed st2)|]; by injection E1 as _ _ <-).
  destruct (signal_readable bs b1) as [[st1 bs1] b2] eqn:E1. specialize (Hb _ _ _ eq_refl). destruct (failed st1); [by injection E as _ <- _ _|]. destruct (write_info_ _) as [w|]; [|done].
  apply bind_returns in E as ([[[a1 bs2] wb1] w1] & E2 & E). assert (map_words a1.(node_map_)) as Ha1.
  { destruct (negb _); ran E2.
    - destruct x as [[? ?] ?]. simplify_eq. eapply populate_words; [eassumption|done|]. cbn. rewrite Hb. by apply set_root_words.
    - simplify_eq. by eapply MarkInodeAllocated_words. }
  apply bind_returns in E as ([st2 bs3] & _ & E). destruct (failed st2); [by injection E as _ <- _ _|]. apply bind_returns in E as (a2 & E3%drop_write_info_nodes & E). injection E as _ <- _ _. by rewrite E3.
Qed.
