(* ===== verification/BlobSync.v ===== *)
(** * The metadata on the device agrees with the metadata in memory *)

From S2P Require Import Prelude Bitmap RawBitmap RleBitmap IdAllocator Digest Format Superblock Reservers MerkleTree Allocator AllocatorBlocks AllocatorNodes Iterators Streaming Populate.
From S2P Require Import Operations RingBuffer RingCopy WriteTxn Writeback Journal JournalReplay JournalRecovery Blobfs Blob BlobWrite BlobMeta BlobCommit NodeWords.

(** ** Writes to the device *)

(** Writes of which no two disagree. *)
Lemma write_all_elem d (ws : list (Z * block)) p x : Forall (λ w, 0 ≤ fst w) ws → (∀ q y z, (q, y) ∈ ws → (q, z) ∈ ws → y = z) →
  (p, x) ∈ ws → p < Z.of_nat (length d) → write_all d ws !! Z.to_nat p = Some x.
Proof.
  revert d. induction ws as [|[q y] ws IH]; intros d Hpos Hf Hin Hp; [by apply list_elem_of_In in Hin|]. apply Forall_cons in Hpos as [Hq Hpos]. cbn in Hq.
  change (write_all d ((q, y) :: ws)) with (write_all (<[Z.to_nat q := y]> d) ws). destruct (decide (p ∈ map fst ws)) as [Hw|Hw].
  - apply list_elem_of_fmap in Hw as ([p' z] & -> & Hz). cbn in *. apply IH; [done| | |by rewrite length_insert].
    + intros r u v Hu Hv. apply (Hf r); by right.
    + rewrite (Hf p' x z); [done|done|by right].
  - rewrite write_all_other.
    + apply elem_of_cons in Hin as [[= -> ->]|Hin]; [apply list_lookup_insert_eq; lia|]. destruct Hw. apply list_elem_of_fmap. by exists (p, x).
    + apply Forall_forall. intros [r u] Hr Heq. cbn in Heq. apply Hw. apply list_elem_of_fmap. exists (r, u). split; [|done]. cbn.
      assert (0 ≤ r) by exact (proj1 (Forall_forall _ _) Hpos (r, u) Hr). apply elem_of_cons in Hin as [[= -> ->]|Hin]; [lia|].
      assert (0 ≤ p) by exact (proj1 (Forall_forall _ _) Hpos (p, x) Hin). lia.
Qed.

(** ** Blocks of the maps *)

Lemma length_le_bytes n x : length (le_bytes n x) = n.
Proof. revert x. induction n as [|n IH]; intros x; cbn; [done|]. by rewrite IH. Qed.

(** Slices of parts of equal length. *)
Section slices.
Context {A B : Type} (f : A → list B) (c : nat).

Lemma length_flat_parts l : Forall (λ x, length (f x) = c) l → length (flat_map f l) = (c * length l)%nat.
Proof. induction 1 as [|x l Hx _ IH]; cbn; [lia|]. rewrite length_app, Hx, IH. lia. Qed.

Lemma flat_slice l n m : Forall (λ x, length (f x) = c) l → take (c * m) (drop (c * n) (flat_map f l)) = flat_map f (take m (drop n l)).
Proof.
  intros H. rewrite <- (take_drop n l) at 1. rewrite flat_map_app. destruct (decide (n ≤ length l)%nat).
  - rewrite drop_app_length' by (rewrite length_flat_parts, length_take, Nat.min_l by (by apply Forall_take || lia); done). rewrite <- (take_drop m (drop n l)) at 1. rewrite flat_map_app.
    destruct (decide (m ≤ length (drop n l))%nat).
    + by rewrite take_app_length' by (rewrite length_flat_parts, length_take, Nat.min_l by (by apply Forall_take, Forall_drop || lia); done).
    + rewrite (drop_ge (drop n l)) by lia. rewrite app_nil_r. apply take_ge. rewrite length_flat_parts, length_take, Nat.min_r by (by apply Forall_take, Forall_drop || lia). apply Nat.mul_le_mono_l. lia.
  - rewrite (drop_ge l) by lia. rewrite app_nil_r, drop_ge by (rewrite length_flat_parts, length_take, Nat.min_r by (by apply Forall_take || lia); apply Nat.mul_le_mono_l; lia). by rewrite !take_nil.
Qed.

End slices.

(** A block of a VMO of words. *)
Lemma vmo_block_words ws off : 0 ≤ off → vmo_block_at (words_bytes ws) (off * kBlobfsBlockSize) = words_bytes (take 1024 (drop (Z.to_nat (1024 * off)) ws)).
Proof.
  intros Ho. unfold vmo_block_at, kBlobfsBlockSize. replace (Z.to_nat (off * 8192)) with (8 * Z.to_nat (1024 * off))%nat by lia.
  replace (Z.to_nat 8192) with (8 * 1024)%nat by lia. apply flat_slice. apply Forall_forall. intros w _. apply length_le_bytes.
Qed.

(** A block of the node map. *)
Lemma vmo_block_nodes (nm : list Inode) off : 0 ≤ off → Forall (λ x : Inode, length x = kNodeWords) nm →
  vmo_block_at (words_bytes (concat nm)) (off * kBlobfsBlockSize) = words_bytes (concat (take 128 (drop (Z.to_nat (128 * off)) nm))).
Proof.
  intros Ho Hnm. rewrite vmo_block_words by done. f_equal. rewrite <- (map_id nm) at 1. rewrite <- flat_map_concat_map. replace 1024%nat with (8 * 128)%nat by lia.
  replace (Z.to_nat (1024 * off)) with (8 * Z.to_nat (128 * off))%nat by lia. rewrite (flat_slice (λ x : Inode, x) 8 nm _ 128 Hnm), flat_map_concat_map. f_equal. apply map_id.
Qed.

Lemma bits_words d d' (lo n : nat) : Forall is_word d → Forall is_word d' → length d = length d' →
  (∀ k, 64 * Z.of_nat lo ≤ k < 64 * (Z.of_nat lo + Z.of_nat n) → bit d k = bit d' k) → take n (drop lo d) = take n (drop lo d').
Proof.
  intros Hd Hd' Hl Hb. apply list_eq. intros i. destruct (decide (i < n)%nat); [|by rewrite !lookup_take_ge by lia]. rewrite !lookup_take_lt, !lookup_drop by done.
  destruct (d !! (lo + i)%nat) as [x|] eqn:Ex.
  - assert (lo + i < length d')%nat as [y Ey]%lookup_lt_is_Some_2 by (rewrite <- Hl; by eapply lookup_lt_Some). rewrite Ey. f_equal.
    pose proof (proj1 (Forall_lookup _ _) Hd _ _ Ex) as Hx. pose proof (proj1 (Forall_lookup _ _) Hd' _ _ Ey) as Hy. unfold is_word in *.
    apply Z.bits_inj'. intros j Hj. destruct (Z.lt_ge_cases j 64).
    + specialize (Hb (64 * Z.of_nat (lo + i) + j) ltac:(lia)). unfold bit, word_at, kBits in Hb.
      replace ((64 * Z.of_nat (lo + i) + j) / 64) with (Z.of_nat (lo + i)) in Hb by (clear -Hj H; zlia). replace ((64 * Z.of_nat (lo + i) + j) mod 64) with j in Hb by (clear -Hj H; zlia).
      by rewrite Nat2Z.id, Ex, Ey in Hb.
    + by rewrite !(testbit_high 64) by lia.
  - rewrite (proj2 (lookup_ge_None _ _)); [done|]. apply lookup_ge_None in Ex. lia.
Qed.

Lemma bitmap_items_cover e k : in_extent e k = true → (block_map_vmo, k / 65536) ∈ bitmap_items e.
Proof.
  unfold in_extent. intros H. apply list_elem_of_fmap. exists (k / 65536). split; [done|]. apply elem_of_seqZ. revert H. zcases; [|done..]. intros _. zlia.
Qed.

Lemma in_handles_elem es k : in_handles es k = true → ∃ e, e ∈ es ∧ in_extent e.(Reservers.extent_) k = true.
Proof. unfold in_handles, in_extents. intros H. apply existsb_exists in H as (e & He & Hk). apply in_map_iff in He as (r & <- & Hr). exists r. split; [by apply list_elem_of_In|done]. Qed.

(** ** Agreement *)

(** Each block of the superblock and of the maps is on the device, at its place. *)
Definition synced (info : Superblock) (disk : list block) (bs : Blobfs) (a : Allocator) : Prop :=
  ∀ h off, item_ok info h off →
    disk !! Z.to_nat (place_of info h off) = Some (vmo_block_at (metadata bs a.(block_map_) a.(node_map_) h) (off * kBlobfsBlockSize)).

Lemma place_inj info m nm h off h' off' : volume_ok info m nm → item_ok info h off → item_ok info h' off' →
  0 ≤ place_of info h off ∧ (place_of info h off = place_of info h' off' → h = h' ∧ off = off').
Proof.
  intros [_ Hs _ _ H0 H1 H2 _] H H'. assert (0 ≤ BlockMapBlocks info) as H3 by (apply Z.div_pos; [apply round_up_nonneg|done]). unfold item_ok, place_of, info_vmo, block_map_vmo, node_map_vmo in *.
  destruct H as [(-> & ->)|[(-> & ?)|(-> & ?)]], H' as [(-> & ->)|[(-> & ?)|(-> & ?)]]; cbn [Z.eqb Pos.eqb]; split; try lia.
Qed.

Section sync.
Context (info : Superblock) (a a' : Allocator) (es : list ReservedExtent) (ids : list Z) (n : Inode) (bc : Z) (C : list (Z * Z)).
Context (Hcm : committed a es ids n bc a') (Hraw : raw_ok a.(block_map_)) (Hsized : Forall (λ x : Inode, length x = kNodeWords) a.(node_map_)).
Context (Hblocks : ∀ e, e ∈ cut bc es → ∀ i, i ∈ bitmap_items e.(Reservers.extent_) → i ∈ C).
Context (Hnodes : ∀ i, i ∈ take (S (containers (length (cut bc es)))) ids → node_item i ∈ C).

Lemma committed_sized : Forall (λ x : Inode, length x = kNodeWords) a'.(node_map_).
Proof using Hcm Hsized.
  destruct (cm_nodes _ _ _ _ _ _ Hcm) as [Hl _ _ Hfr]. apply Forall_lookup. intros i x Hx.
  destruct (decide (Exists (λ c, Z.to_nat c = i) (take (S (containers (length (cut bc es)))) ids))) as [He|He].
  - apply Exists_exists in He as (c & Hc & <-). apply list_elem_of_lookup in Hc as [j Hj]. destruct (Hl j c Hj) as (_ & y & Hy & [Hh _] & _). rewrite Hy in Hx. by injection Hx as <-.
  - rewrite Hfr in Hx; [by eapply (Forall_lookup_1 _ _ _ _ Hsized)|]. intros c Hc <-. apply He, Exists_exists. by exists c.
Qed.

Lemma block_map_kept off : 0 ≤ off → (block_map_vmo, off) ∉ C →
  vmo_block_at (words_bytes a'.(block_map_).(data_)) (off * kBlobfsBlockSize) = vmo_block_at (words_bytes a.(block_map_).(data_)) (off * kBlobfsBlockSize).
Proof using Hcm Hraw Hblocks.
  intros Ho Hn. rewrite !vmo_block_words by done. f_equal. destruct (cm_raw _ _ _ _ _ _ Hcm) as (_ & _ & Hw'). destruct Hraw as (_ & _ & Hw).
  apply bits_words; [done|done|apply Hcm|]. intros k Hk. rewrite Z2Nat.id in Hk by lia. change (raw_bit a'.(block_map_) k = raw_bit a.(block_map_) k).
  rewrite (cm_bits _ _ _ _ _ _ Hcm k) by lia. destruct (in_handles (cut bc es) k) eqn:E; [|done]. destruct Hn.
  apply in_handles_elem in E as (e & He & Hin). apply (Hblocks e He). replace off with (k / 65536) by (clear -Hk Ho; zlia). by apply bitmap_items_cover.
Qed.

Lemma node_map_kept off : 0 ≤ off → (node_map_vmo, off) ∉ C →
  vmo_block_at (words_bytes (concat a'.(node_map_))) (off * kBlobfsBlockSize) = vmo_block_at (words_bytes (concat a.(node_map_))) (off * kBlobfsBlockSize).
Proof using Hcm Hsized Hnodes.
  intros Ho Hn. rewrite !vmo_block_nodes by first [done | apply committed_sized]. do 2 f_equal. apply list_eq. intros i.
  destruct (decide (i < 128)%nat); [|by rewrite !lookup_take_ge by lia]. rewrite !lookup_take_lt, !lookup_drop by done.
  apply (wk_frame _ _ _ _ _ _ (cm_nodes _ _ _ _ _ _ Hcm)). intros c Hc Heq. apply Hn. replace off with (c / 128); [by apply Hnodes|].
  destruct (cm_nodes _ _ _ _ _ _ Hcm) as [Hl _ _ _]. pose proof (layout_nonneg _ _ _ _ _ Hl Hc). clear -Heq Ho l H. zlia.
Qed.

End sync.

(** The blocks of a work of metadata that was written. *)
Section apply.
Context (info : Superblock) (vmos : Z → list Z) (ops : list UnbufferedOperation) (C : list (Z * Z)) (m : RawBitmapBase) (nm : list Inode).
Context (Hvol : volume_ok info m nm) (Hfit : Forall op_fits ops).
Context (Hops : ∀ h t off d, in_ops ops (h, t, off, d) = true ↔ t = kWrite ∧ d = place_of info h off ∧ (h, off) ∈ C) (Hok : ∀ h off, (h, off) ∈ C → item_ok info h off).

Lemma capture_iff d x : (d, x) ∈ capture vmos ops ↔ ∃ h off, (h, off) ∈ C ∧ d = place_of info h off ∧ x = vmo_block_at (vmos h) (off * kBlobfsBlockSize).
Proof using Hfit Hops.
  rewrite capture_elem by done. setoid_rewrite Hops. split; [intros (h & off & (_ & -> & ?) & ->)|intros (h & off & ? & -> & ->)]; by exists h, off.
Qed.

Lemma applied_in disk h off : (h, off) ∈ C → place_of info h off < Z.of_nat (length disk) →
  write_all disk (capture vmos ops) !! Z.to_nat (place_of info h off) = Some (vmo_block_at (vmos h) (off * kBlobfsBlockSize)).
Proof using All.
  intros Hin Hlt. apply write_all_elem; [| |by apply capture_iff; eauto|done].
  - apply Forall_forall. intros [d x] (h' & off' & H' & -> & _)%capture_iff. by apply (place_inj _ _ _ _ _ _ _ Hvol (Hok _ _ H') (Hok _ _ H')).
  - intros q y z (h1 & o1 & H1 & -> & ->)%capture_iff (h2 & o2 & H2 & E & ->)%capture_iff. by destruct (proj2 (place_inj _ _ _ _ _ _ _ Hvol (Hok _ _ H1) (Hok _ _ H2)) E) as [-> ->].
Qed.

(** Everything else stays: other metadata, and whatever is not metadata. *)
Lemma applied_out disk d : 0 ≤ d → (∀ h off, (h, off) ∈ C → d ≠ place_of info h off) → write_all disk (capture vmos ops) !! Z.to_nat d = disk !! Z.to_nat d.
Proof using All.
  intros Hd Hne. apply write_all_other, Forall_forall. intros [q x] (h & off & Hin & -> & _)%capture_iff. cbn.
  pose proof (proj1 (place_inj _ _ _ _ _ _ _ Hvol (Hok _ _ Hin) (Hok _ _ Hin))). specialize (Hne _ _ Hin). lia.
Qed.

End apply.

Lemma place_before_data info m nm h off : volume_ok info m nm → item_ok info h off → place_of info h off < DataStartBlock info.
Proof.
  intros [_ Hs _ _ H0 H1 H2 _] H. assert (0 ≤ BlockMapBlocks info) as H3 by (apply Z.div_pos; [apply round_up_nonneg|done]).
  assert (0 ≤ NodeMapBlocks info) as H4 by (apply Z.div_pos; [apply round_up_nonneg|done]).
  unfold item_ok, place_of, info_vmo, block_map_vmo, node_map_vmo in *. destruct H as [(-> & ->)|[(-> & ?)|(-> & ?)]]; cbn [Z.eqb Pos.eqb]; lia.
Qed.

(** Writing what was committed restores agreement. *)
Lemma synced_commit info disk bs bs1 a a' es ids n bc (C : list (Z * Z)) ops : volume_ok info a.(block_map_) a.(node_map_) → raw_ok a.(block_map_) → Forall (λ x : Inode, length x = kNodeWords) a.(node_map_) →
  synced info disk bs a → committed a es ids n bc a' → Forall op_fits ops →
  (∀ h t off d, in_ops ops (h, t, off, d) = true ↔ t = kWrite ∧ d = place_of info h off ∧ (h, off) ∈ C) → (∀ h off, (h, off) ∈ C → item_ok info h off) →
  (∀ e, e ∈ cut bc es → ∀ i, i ∈ bitmap_items e.(Reservers.extent_) → i ∈ C) →
  (∀ i, i ∈ take (S (containers (length (cut bc es)))) ids → node_item i ∈ C) → info_item ∈ C →
  synced info (write_all disk (capture (metadata bs1 a'.(block_map_) a'.(node_map_)) ops)) bs1 a'.
Proof.
  intros Hvol Hraw Hsz Hsync Hcm Hfit Hops Hok Hblocks Hnodes Hinfo h off Hitem.
  destruct (decide ((h, off) ∈ C)) as [Hin|Hout].
  - apply (applied_in info _ ops C _ _ Hvol Hfit Hops Hok); [done|]. specialize (Hsync h off Hitem). apply lookup_lt_Some in Hsync. lia.
  - rewrite (applied_out info _ ops C _ _ Hvol Hfit Hops Hok).
    + rewrite Hsync by exact Hitem. apply (f_equal Some). destruct Hitem as [(-> & ->)|[(-> & ?)|(-> & ?)]]; [by destruct (Hout Hinfo)|..]; unfold metadata; cbn [Z.eqb Pos.eqb info_vmo block_map_vmo node_map_vmo].
      * symmetry. eapply block_map_kept; [exact Hcm|done|exact Hblocks|lia|done].
      * symmetry. eapply node_map_kept; [exact Hcm|done|exact Hnodes|lia|done].
    + by apply (place_inj _ _ _ _ _ _ _ Hvol Hitem Hitem).
    + intros h' off' Hin' E. destruct (proj2 (place_inj _ _ _ _ _ _ _ Hvol Hitem (Hok _ _ Hin')) E) as [-> ->]. done.
Qed.

(** ** A blob that has its space *)

Section ready.
Context {X : Type}.

(** The file system: the superblock and the maps fit together, and are on the device. *)
Record fs_ok (bs : Blobfs) (a : Allocator) (disk : list block) : Prop := {
  fs_volume : volume_ok bs.(info_) a.(block_map_) a.(node_map_);
  fs_map : raw_ok a.(block_map_);
  fs_nodes : Forall (λ x : Inode, length x = kNodeWords) a.(node_map_);
  fs_synced : synced bs.(info_) disk bs a;
  fs_disk : DataStartBlock bs.(info_) + a.(block_map_).(size_) ≤ Z.of_nat (length disk);
  fs_words : map_words a.(node_map_);
}.

(** The queues: each can take what a blob gives it. *)
Record queues_ok (bs : Blobfs) (cost : Z) : Prop := {
  qo_quiet : quiet bs;
  qo_writeback : ∃ cap, bs.(writeback_) = Some cap ∧ 2 ≤ cap ≤ 2 ^ 40;
  qo_journal : ∃ cap, bs.(journal_) = Some cap ∧ cost + 2 ≤ cap;
  qo_entry : cost ≤ kMaxEntryDataBlocks;
}.

(** The blocks of metadata of a blob, at most: two of the block map for an extent, one of the node map for a node, the superblock. *)
Definition metadata_cost (w : WritebackInfo X) : Z := 2 * Z.of_nat (length w.(w_extents)) + Z.of_nat (length w.(w_nodes)) + 1.

(** A blob whose space is reserved: the nodes [ids], of which the first is its inode. *)
Record ready (a : Allocator) (b : Blob X) (w : WritebackInfo X) (ids : list Z) : Prop := {
  rd_state : GetState b = kBlobStateDataWrite;
  rd_info : b.(write_info_) = Some w;
  rd_reserved : reservation a w.(w_extents) ids;
  rd_nodes : w.(w_nodes) = map reserved_node ids;
  rd_index : ids !! 0%nat = Some b.(map_index_);
  rd_inode : blank_inode b.(Blob.inode_);
  rd_blocks : 0 < field_get block_count b.(Blob.inode_) ≤ AllocatorBlocks.blocks w.(w_extents);
  rd_words : node_words b.(Blob.inode_);
}.

(** The superblock after [blocks] blocks and [nodes] nodes were recorded. *)
Definition counted (bs : Blobfs) (blocks nodes : Z) : Blobfs :=
  persisted bs (with_alloc_counts bs.(info_) (bs.(info_).(alloc_block_count) ⊞ blocks) (bs.(info_).(alloc_inode_count) ⊞ nodes)).

Definition used_nodes (b : Blob X) (w : WritebackInfo X) (ids : list Z) : list Z :=
  take (S (containers (length (cut (field_get block_count b.(Blob.inode_)) w.(w_extents))))) ids.

Lemma commit_ok a bs b w ids disk : fs_ok bs a disk → queues_ok bs (metadata_cost w) → ready a b w ids →
  let bc := field_get block_count b.(Blob.inode_) in
  let bs1 := counted bs bc (Z.of_nat (length (used_nodes b w ids))) in
  ∃ a' ws n, WriteMetadata true a bs b = Returns (ZX_OK, a', advance bs1 (bs.(accepted) ++ [(Blobfs.kJournal, ws)]) n, made_readable b) ∧
    committed a w.(w_extents) ids (set_root b.(Blob.inode_) b.(key)) bc a' ∧ fs_ok bs1 a' (write_all disk ws) ∧
    Forall (λ x, 0 ≤ fst x < DataStartBlock bs.(info_)) ws.
Proof.
  intros [Hvol Hraw Hsz Hsync Hdisk Hfw] [Hq (wc & Hwc & _) (jc & Hjc & Hcost) H64] [Hst Hwi Hres Hnodes Hidx Hblank Hbc Hbw] bc bs1.
  pose proof (length_cut bc w.(w_extents)) as Hl. unfold metadata_cost in *. rewrite Hnodes, length_map in *.
  assert (length (used_nodes b w ids) ≤ length ids)%nat as Hu by (unfold used_nodes; rewrite length_take; lia).
  assert (info_ bs = with_alloc_counts bs.(info_) bs.(info_).(alloc_block_count) bs.(info_).(alloc_inode_count)) as Hinfo by (by destruct bs.(info_)).
  destruct (WriteMetadata_ok (info_ bs) a bs b w w.(w_extents) ids _ _ _ wc jc Hq Hwc Hjc Hst Hwi Hres Hidx Hvol Hinfo eq_refl Hblank eq_refl Hnodes Hbc)
    as (a' & ops & C & n & E & Hcm & Hfit & Hops & Hok & Hblk & Hnod & Hinf); [unfold used_nodes, bc in *; lia..|].
  exists a'. eexists _, n. split; [exact E|]. split; [exact Hcm|]. split.
  - constructor; [|apply Hcm|eapply committed_sized; [exact Hcm|done]| | |by eapply WriteMetadata_words].
    + eapply volume_ok_same; [by apply volume_ok_counts|apply Hcm|apply Hcm].
    + eapply (synced_commit (info_ bs)); done.
    + rewrite length_write_all. rewrite (cm_size _ _ _ _ _ _ Hcm). exact Hdisk.
  - apply Forall_forall. intros [d x] (h & off & Hin & -> & _)%(capture_iff (info_ bs) _ ops C Hfit Hops). cbn. pose proof (Hok _ _ Hin) as Hi.
    split; [by apply (place_inj _ _ _ _ _ _ _ Hvol Hi Hi)|by eapply place_before_data].
Qed.

End ready.
