(* ===== verification/BlobData.v ===== *)
(** * The contents of a blob: its Merkle tree and its data, in memory *)

From S2P Require Import Prelude Bitmap RawBitmap Digest Format Superblock MerkleTree MerkleCreate MerkleVerify Operations Blobfs Blob.

(** ** Buffers with more than is read *)

Lemma read_bytes_more l r off len x : read_bytes l off len = Returns x → read_bytes (l ++ r) off len = Returns x.
Proof.
  unfold read_bytes. destruct ((0 <=? off) && (0 <=? len) && (off + len <=? Z.of_nat (length l))) eqn:E; [|done]. rewrite !andb_true_iff, !Z.leb_le in E.
  rewrite length_app. intros [= <-]. ztest. cbn [andb]. f_equal. rewrite drop_app_le by lia. rewrite take_app_le; [done|]. rewrite length_drop. lia.
Qed.

Section more.
Context (hash : list Z → list Z) (alloc : bool).

Lemma verify_loop_more fuel data dr dbase len tree tr expected offset length lvl s :
  verify_loop hash alloc fuel data dbase len tree expected offset length lvl = Returns s →
  verify_loop hash alloc fuel (data ++ dr) dbase len (tree ++ tr) expected offset length lvl = Returns s.
Proof.
  revert expected offset length. induction fuel as [|fuel IH]; intros expected offset length; cbn [verify_loop]; [done|].
  destruct (length =? 0); [done|]. destruct (DigestInit _ _ _ _) as [[rc d]| |]; cbn [mbind outcome_bind]; [|done..]. destruct (failed rc); [done|].
  destruct (read_bytes data _ _) as [x| |] eqn:E; cbn [mbind outcome_bind]; [|done..]. rewrite (read_bytes_more _ _ _ _ _ E). cbn [mbind outcome_bind].
  destruct (DigestUpdate _ _ _ _) as [[c d']| |]; cbn [mbind outcome_bind]; [|done..]. destruct (DigestFinal _ _ _) as [d2| |]; cbn [mbind outcome_bind]; [|done..].
  destruct (read_bytes tree _ _) as [y| |] eqn:Ey; cbn [mbind outcome_bind]; [|done..]. rewrite (read_bytes_more _ _ _ _ _ Ey). cbn [mbind outcome_bind].
  destruct (negb _); [done|]. apply IH.
Qed.

Lemma VerifyLevel_more data dr dbase len tree tr tbase offset length lvl s :
  VerifyLevel hash alloc (Some data) dbase len (Some tree) tbase offset length lvl = Returns s →
  VerifyLevel hash alloc (Some (data ++ dr)) dbase len (Some (tree ++ tr)) tbase offset length lvl = Returns s.
Proof.
  unfold VerifyLevel. destruct (ZX_DEBUG_ASSERT _) as [[]| |]; cbn [mbind outcome_bind]; [|done..]. destruct (_ <=? _); [done|]. destruct (_ <? _); [done|]. apply verify_loop_more.
Qed.

Lemma VerifyRoot_more data dr dbase len lvl root s :
  VerifyRoot hash alloc (Some data) dbase len lvl root = Returns s → VerifyRoot hash alloc (Some (data ++ dr)) dbase len lvl root = Returns s.
Proof.
  unfold VerifyRoot. destruct (_ || _); [done|]. destruct (DigestInit _ _ _ _) as [[rc d]| |]; cbn [mbind outcome_bind]; [|done..]. destruct (failed rc); [done|].
  destruct (read_bytes data _ _) as [x| |] eqn:E; cbn [mbind outcome_bind]; [|done..]. by rewrite (read_bytes_more _ _ _ _ _ E).
Qed.

Lemma verify_levels_more fuel data dr dbase len root_len tree tr tbase tlen offset length lvl root s :
  verify_levels hash alloc fuel (Some data) dbase len root_len (Some tree) tbase tlen offset length lvl root = Returns s →
  verify_levels hash alloc fuel (Some (data ++ dr)) dbase len root_len (Some (tree ++ tr)) tbase tlen offset length lvl root = Returns s.
Proof.
  revert data dr dbase len root_len tbase tlen offset length lvl. induction fuel as [|fuel IH]; intros data dr dbase len root_len tbase tlen offset length lvl; cbn [verify_levels]; [done|].
  destruct (_ <? len); [|apply VerifyRoot_more]. destruct (VerifyLevel _ _ (Some data) _ _ _ _ _ _ _) as [rc| |] eqn:E; cbn [mbind outcome_bind]; [|done..].
  rewrite (VerifyLevel_more _ _ _ _ _ _ _ _ _ _ _ E). cbn [mbind outcome_bind]. destruct (failed rc); [done|]. destruct (_ <? _); [done|]. apply IH.
Qed.

End more.

(** ** Sizes *)

Definition merkle_blocks (size : Z) : Z := tree_size 9 size / 8192.
Definition data_blocks (size : Z) : Z := (size + 8191) / 8192.

Lemma tree_size_aligned F len : len < 2 ^ 63 → tree_size F len = 8192 * (tree_size F len / 8192).
Proof.
  revert len. induction F as [|F IH]; intros len Hl; cbn [tree_size]; [done|]. destruct (Z.leb_spec len 8192); [done|].
  pose proof (NextAligned_bounds len ltac:(lia)) as (_ & ? & _). specialize (IH (NextAligned len) ltac:(lia)). rewrite NextAligned_spec in * by lia.
  unfold ceil_nodes in *. set (t := tree_size F _) in *. clearbody t. clear -IH. zlia.
Qed.

Lemma merkle_blocks_size size : size < 2 ^ 63 → tree_size 9 size = 8192 * merkle_blocks size.
Proof. apply tree_size_aligned. Qed.

Lemma merkle_blocks_nonneg size : size < 2 ^ 63 → 0 ≤ merkle_blocks size.
Proof. intros H. pose proof (tree_size_bounds 9 size H) as [? _]. unfold merkle_blocks. clear -H0. zlia. Qed.

Section sizes.
Context (n : Inode) (size : Z) (Hsize : field_get blob_size n = size) (Hmax : 0 ≤ size < UINT32_MAX).

Lemma GetTreeLength_ok : GetTreeLength size = Returns (8192 * merkle_blocks size).
Proof using Hmax. unfold UINT32_MAX in Hmax. unfold GetTreeLength. rewrite (GetTreeLength_size 8); [|unfold kMaxLevels; lia|lia|apply max_levels_enough; lia]. by rewrite merkle_blocks_size by lia. Qed.

Lemma merkle_blocks_bound : 0 ≤ 8192 * merkle_blocks size ≤ size.
Proof using Hmax. unfold UINT32_MAX in Hmax. pose proof (tree_size_bounds 9 size ltac:(lia)) as [? ?]. rewrite <- merkle_blocks_size by lia. lia. Qed.

Lemma MerkleTreeBlocks_ok : MerkleTreeBlocks n = Returns (merkle_blocks size).
Proof using All.
  pose proof merkle_blocks_bound as Hb. unfold UINT32_MAX in Hmax. unfold MerkleTreeBlocks, ZX_DEBUG_ASSERT, UINT32_MAX, kBlobfsBlockSize. rewrite Hsize, GetTreeLength_ok. cbn [mbind outcome_bind]. ztest. cbn [mbind outcome_bind].
  unwrap. rewrite round_up_small by lia. replace ((8192 * merkle_blocks size + 8192 - 1) / 8192 * 8192) with (8192 * merkle_blocks size) by (clear; zlia). unwrap.
  f_equal. clear. zlia.
Qed.

Lemma BlobDataBlocks_ok : BlobDataBlocks n = data_blocks size.
Proof using All.
  unfold UINT32_MAX in Hmax. unfold BlobDataBlocks, kBlobfsBlockSize. rewrite Hsize. rewrite round_up_small by lia. unfold data_blocks. clear. zlia.
Qed.

End sizes.

(** ** Verification of what is mapped *)

Section contents.
Context {X : Type} (hash : list Z → list Z) (Hhash : ∀ x, length (hash x) = 32%nat).
Context (b : Blob X) (h : Z) (tree data pad : list Z).
Context (Hmap : b.(mapping_) = Some (h, tree ++ data ++ pad)).
Context (Hsize : field_get blob_size b.(inode_) = zlen data) (Hdata : 0 < zlen data < UINT32_MAX).
Context (Htree : zlen tree = 8192 * merkle_blocks (zlen data)) (Hkey : zlen b.(key) = 32).

Lemma GetData_ok : GetData b = Returns (data ++ pad).
Proof using Hmap Hsize Hdata Htree.
  unfold GetData. rewrite (MerkleTreeBlocks_ok _ _ Hsize) by lia. cbn [mbind outcome_bind]. unfold GetMerkle. rewrite Hmap. cbn [mbind outcome_bind]. f_equal.
  unfold kBlobfsBlockSize. rewrite Z.mul_comm, <- Htree. unfold zlen. rewrite Nat2Z.id. apply drop_app_length.
Qed.

Lemma merkle_tree_size : zlen (merkle_tree hash data) = zlen tree.
Proof using Hhash Hdata Htree. unfold UINT32_MAX in Hdata. rewrite Htree, <- merkle_blocks_size by lia. apply zlen_merkle; [done|lia]. Qed.

Lemma Blob_Verify_integrity : integrity (Blob_Verify hash true b) (accepts hash 9 0 data (zlen data) tree 0 (zlen data) b.(key)).
Proof using All.
  unfold Blob_Verify. rewrite Hsize. ztest. cbn [negb]. rewrite GetData_ok. cbn [mbind outcome_bind]. unfold GetMerkle. rewrite Hmap. cbn [mbind outcome_bind].
  rewrite GetTreeLength_ok by lia. cbn [mbind outcome_bind]. rewrite <- Htree. pose proof Hdata as Hd. unfold UINT32_MAX in Hd.
  destruct (Verify_ok hash data tree 0 (zlen data) b.(key)) as (rc & E & Hrc); [lia|rewrite merkle_blocks_size, <- Htree by lia; lia|lia|lia|lia|done|].
  exists rc. split; [|exact Hrc]. by apply verify_levels_more.
Qed.

(** The tree and the data are those of the name. *)
Lemma Blob_Verify_genuine : tree = merkle_tree hash data → b.(key) = merkle_root hash data → Blob_Verify hash true b = Returns ZX_OK.
Proof using All.
  intros Ht Hk. apply (integrity_ok _ _ Blob_Verify_integrity). pose proof Hdata as Hd. unfold UINT32_MAX in Hd. pose proof merkle_tree_size as Hz. rewrite Hk. apply accepts_merkle; try done || lia.
  rewrite Ht. intros k Hk'. done.
Qed.

(** Without a tree, the data is that of the name when its digest is. *)
Lemma Blob_Verify_small : merkle_blocks (zlen data) = 0 → Blob_Verify hash true b =
  Returns (if bool_decide (b.(key) = merkle_root hash data) then ZX_OK else ZX_ERR_IO_DATA_INTEGRITY).
Proof using All.
  intros H0. destruct Blob_Verify_integrity as (rc & -> & Hrc & Hiff). f_equal.
  assert (zlen data ≤ 8192) as Hs.
  { destruct (Z.le_gt_cases (zlen data) 8192); [done|]. pose proof Hdata as Hd. unfold UINT32_MAX in Hd. pose proof (merkle_blocks_size (zlen data) ltac:(lia)) as E. rewrite H0 in E.
    rewrite tree_size_S in E by lia. pose proof (NextAligned_bounds (zlen data) ltac:(lia)) as ([? _] & ? & _). pose proof (tree_size_bounds 8 (NextAligned (zlen data)) ltac:(lia)). unfold ceil_nodes in *. zlia. }
  rewrite accepts_small in Hiff by done. unfold merkle_root. rewrite merkle_small by done. cbn [snd]. rewrite slice_all in Hiff.
  case_bool_decide as E; [apply Hiff; by rewrite E|]. destruct Hrc as [-> | ->]; [|done]. destruct E. symmetry. by apply Hiff.
Qed.

(** The tree is created in place. *)
Lemma create_tree_ok : create_tree hash true b (8192 * merkle_blocks (zlen data)) =
  Returns (if bool_decide (b.(key) = merkle_root hash data) then ZX_OK else ZX_ERR_IO_DATA_INTEGRITY,
           with_mapping b (Some (h, merkle_tree hash data ++ data ++ pad))).
Proof using All.
  unfold create_tree. rewrite GetData_ok. cbn [mbind outcome_bind]. rewrite Hsize.
  rewrite (read_bytes_more data pad 0 (zlen data) data) by (rewrite read_bytes_ok by lia; by rewrite slice_all). cbn [mbind outcome_bind]. rewrite Hmap, <- Htree.
  rewrite (read_bytes_more tree _ 0 (zlen tree) tree) by (pose proof (zlen_nonneg tree); rewrite read_bytes_ok by lia; by rewrite slice_all). cbn [mbind outcome_bind].
  pose proof merkle_tree_size as Hz. destruct (merkle_Create_ok hash Hhash data tree ltac:(lia) ltac:(lia)) as (tree' & -> & Hz' & Hhas). cbn [mbind outcome_bind].
  assert (tree' = merkle_tree hash data) as ->.
  { pose proof (has_tree_slice tree' (merkle_tree hash data) ltac:(lia) Hhas) as Hs. rewrite Hz, <- Hz', slice_all in Hs. done. }
  unfold write_bytes. rewrite !length_app. unfold zlen in Hz. ztest. cbn [andb mbind outcome_bind Z.to_nat]. rewrite take_0. cbn [app Nat.add]. rewrite failed_ok.
  replace (Z.to_nat 0 + length (merkle_tree hash data))%nat with (length tree) by lia. rewrite drop_app_length. do 2 f_equal.
  case_bool_decide as E1; [injection E1 as E1; by rewrite bool_decide_true by (symmetry; done)|]. rewrite bool_decide_false; [done|]. cbn. intros E2. apply E1. cbn. by rewrite E2.
Qed.

End contents.
