(* ===== verification/BlobFinish.v ===== *)
(** * A blob that is complete: its tree and its data are written, and then its metadata *)

From S2P Require Import Prelude Bitmap RawBitmap RleBitmap IdAllocator Digest Format Superblock Reservers MerkleTree MerkleCreate MerkleVerify.
From S2P Require Import Allocator AllocatorBlocks AllocatorNodes Iterators Streaming Populate.
From S2P Require Import Operations RingBuffer RingCopy WriteTxn Writeback Journal JournalReplay JournalRecovery Blobfs Blob BlobWrite BlobMeta BlobCommit NodeWords BlobSync BlobData.

(** ** The runs of a reservation *)

Definition runs_of (es : list ReservedExtent) : list (Z * Z) := extent_runs (map Reservers.extent_ es).

Lemma run_total_of es : run_total (runs_of es) = AllocatorBlocks.blocks es.
Proof. induction es as [|e es IH]; [done|]. cbn. unfold run_total, runs_of, extent_runs in *. cbn in *. rewrite IH. done. Qed.

Lemma in_extent_start e : 0 < Length e → in_extent e (Start e) = true ∧ in_extent e (Start e + Length e - 1) = true.
Proof. intros H. unfold in_extent. by ztest. Qed.

Lemma extents_runs_fit a es base : extents_ok a es → a.(block_map_).(size_) + base ≤ 2 ^ 40 → runs_fit base (runs_of es).
Proof.
  intros [_ _ Hh _ Hfree] Hbase. unfold runs_fit, runs_of, extent_runs. rewrite map_map. apply Forall_map, Forall_forall. intros e He. cbn.
  assert (0 < Length e.(Reservers.extent_)) as Hl.
  { clear Hfree. revert Hh He. generalize (rle_bit a.(reserved_blocks_)). induction es as [|x es IH]; intros f Hh He; [by apply list_elem_of_In in He|].
    destruct Hh as (_ & Hx & _ & Hh). apply elem_of_cons in He as [->|He]; [done|by eapply IH]. }
  assert (∀ k, in_extent e.(Reservers.extent_) k = true → in_handles es k = true) as Hin.
  { intros k Hk. unfold in_handles, in_extents. apply existsb_exists. exists e.(Reservers.extent_). split; [|done]. apply in_map_iff. exists e. split; [done|by apply list_elem_of_In]. }
  destruct (in_extent_start _ Hl) as [H1 H2]. destruct (Hfree _ (Hin _ H1)) as [? _]. destruct (Hfree _ (Hin _ H2)) as [? _]. lia.
Qed.

Lemma run_total_bound es : run_total (runs_of es) ≤ Z.of_nat (length es) * 2 ^ 16.
Proof.
  induction es as [|e es IH]; [done|]. rewrite run_total_of in *. cbn [AllocatorBlocks.blocks foldr length]. fold (AllocatorBlocks.blocks es).
  pose proof (Length_range e.(Reservers.extent_)). lia.
Qed.

Lemma vector_block_ok es : Forall (λ r, r.(reserved) = true) es → Z.of_nat (length es) < 2 ^ 16 → block_ok (NewBlockIterator (NewVectorExtentIterator es)) 0 (runs_of es).
Proof.
  intros Hr Hl. exists [], (map Reservers.extent_ es). split_and!; try done.
  - split_and!; try done; cbn; lia.
  - change (run_total (runs_of es) < 2 ^ 64). pose proof (run_total_bound es). lia.
  - by left.
Qed.

Lemma handles_reserved f es : handles f es → Forall (λ r, r.(reserved) = true) es.
Proof. revert f. induction es as [|e es IH]; intros f; [done|]. intros (? & _ & _ & Hh). constructor; [done|by eapply IH]. Qed.

Lemma in_flight_new vmos max bs : 0 ≤ max → in_flight vmos max bs bs NewWriteTxn [].
Proof.
  intros Hm. constructor; [apply new_txn_ok|done|done|]. exists [], bs.(time). split_and!; [|done|].
  - cbn. rewrite app_nil_r. by destruct bs.
  - intros d x. cbn. split; [by intros ?%list_elem_of_In|]. by intros (h & off & ?%list_elem_of_In & _).
Qed.

Lemma run_block_offset l n rs y : Forall (λ r, 0 ≤ snd r) rs → y ∈ take n (run_blocks l rs) → l ≤ fst y < l + Z.of_nat n.
Proof.
  intros Hrs Hy. assert (fst y ∈ map fst (take n (run_blocks l rs))) as H by (apply list_elem_of_fmap; by exists y). rewrite <- firstn_map, fst_run_blocks, take_seqZ in H by done.
  apply elem_of_seqZ in H. lia.
Qed.

Lemma run_blocks_split l m n rs : Forall (λ r, 0 ≤ snd r) rs → 0 ≤ m → 0 ≤ n → m + n ≤ run_total rs →
  take (Z.to_nat m) (run_blocks l rs) ++ take (Z.to_nat n) (run_blocks (l + m) (rest m rs)) = take (Z.to_nat (m + n)) (run_blocks l rs).
Proof.
  intros Hrs Hm Hn Ht. replace (l + m) with (l + Z.min m (run_total rs)) by lia. rewrite run_blocks_rest by done. rewrite Z2Nat.inj_add by done. apply take_take_drop.
Qed.

(** ** The tree and the data *)

Lemma with_mapping_same {X} (b : Blob X) m : b.(mapping_) = m → with_mapping b m = b.
Proof. intros <-. by destruct b. Qed.

Section store.
Context {X : Type} `{BlobCompressor X} (hash : list Z → list Z) (Hhash : ∀ x, length (hash x) = 32%nat).
Context (a : Allocator) (bs : Blobfs) (cap : Z) (es : list ReservedExtent).
Context (Hq : quiet bs) (Hwb : bs.(writeback_) = Some cap) (Hcap : 2 ≤ cap ≤ 2 ^ 40).
Context (Hext : extents_ok a es) (Hfew : Z.of_nat (length es) < 2 ^ 16).
Context (Hbase : 0 ≤ DataStartBlock bs.(info_)) (Hend : a.(block_map_).(size_) + DataStartBlock bs.(info_) ≤ 2 ^ 40).

Let max := 3 * cap / 4.
Let base := DataStartBlock bs.(info_).
Let fuel := S (length es).
Let it0 := NewBlockIterator (NewVectorExtentIterator es).

Context (b : Blob X) (h : Z) (tree data pad : list Z).
Context (Hmap : b.(mapping_) = Some (h, tree ++ data ++ pad)) (Hh : h ≠ ZX_HANDLE_INVALID).
Context (Hsize : field_get blob_size b.(Blob.inode_) = zlen data) (Hdata : 0 < zlen data < UINT32_MAX).
Context (Htree : zlen tree = 8192 * merkle_blocks (zlen data)) (Hkey : zlen b.(key) = 32).

Let m := merkle_blocks (zlen data).
Let dn := data_blocks (zlen data).

(** The mapping with its tree. *)
Definition with_tree : Blob X := with_mapping b (Some (h, merkle_tree hash data ++ data ++ pad)).

Let vmos := blob_vmos a bs with_tree.

Lemma with_tree_small : m = 0 → with_tree = b.
Proof using All.
  intros H0. pose proof (merkle_tree_size hash Hhash tree data Hdata Htree) as Hz. fold m in Htree. assert (merkle_tree hash data = []) as E by (apply zlen_nil_inv; lia).
  assert (tree = []) as -> by (apply zlen_nil_inv; lia). unfold with_tree. rewrite E. by apply with_mapping_same.
Qed.

Lemma write_tree_bad : b.(key) ≠ merkle_root hash data →
  write_tree hash true a bs b NewWriteTxn it0 fuel = Returns (ZX_ERR_IO_DATA_INTEGRITY, bs, with_tree, Some NewWriteTxn, it0).
Proof using All.
  intros Hbad. unfold write_tree. rewrite Hsize, GetTreeLength_ok by lia. cbn [mbind outcome_bind]. rewrite (MerkleTreeBlocks_ok _ _ Hsize) by lia. cbn [mbind outcome_bind].
  pose proof (merkle_blocks_bound (zlen data) ltac:(lia)) as Hmb. fold m in Hmb |- *. destruct (Z.ltb_spec 0 (8192 * m)) as [Hm|Hm].
  - unfold m. rewrite (create_tree_ok hash Hhash b h tree data pad) by done. cbn [mbind outcome_bind]. by rewrite bool_decide_false by done.
  - rewrite (Blob_Verify_small hash Hhash b h tree data pad) by (done || (fold m; lia)). cbn [mbind outcome_bind]. rewrite bool_decide_false by done. by rewrite with_tree_small by lia.
Qed.

Lemma write_tree_good : b.(key) = merkle_root hash data → m ≤ run_total (runs_of es) →
  ∃ bs' wb' it', write_tree hash true a bs b NewWriteTxn it0 fuel = Returns (ZX_OK, bs', with_tree, Some wb', it') ∧
    in_flight vmos max bs bs' wb' (items h 0 base (take (Z.to_nat m) (run_blocks 0 (runs_of es)))) ∧ block_ok it' m (rest m (runs_of es)).
Proof using All.
  intros Hgood Hm. unfold write_tree. rewrite Hsize, GetTreeLength_ok by lia. cbn [mbind outcome_bind]. rewrite (MerkleTreeBlocks_ok _ _ Hsize) by lia. cbn [mbind outcome_bind].
  pose proof (merkle_blocks_bound (zlen data) ltac:(lia)) as Hmb. pose proof Hdata as Hd. unfold UINT32_MAX in Hd. fold m in Hmb |- *.
  pose proof (vector_block_ok es (handles_reserved _ _ (eo_handles _ _ Hext)) Hfew) as Hit. assert (0 < max) as Hmax by (unfold max; clear -Hcap; zlia).
  destruct (Z.ltb_spec 0 (8192 * m)) as [Hm0|Hm0].
  - pose proof (create_tree_ok hash Hhash b h tree data pad Hmap Hsize Hdata Htree Hkey) as Ect. fold m in Ect. rewrite Ect. clear Ect. cbn [mbind outcome_bind]. rewrite bool_decide_true by done. rewrite failed_ok. fold with_tree. cbn [mapping_ with_tree with_mapping].
    destruct (stream_to_disk_ok a with_tree max cap bs Hq Hwb eq_refl Hmax ltac:(lia) bs NewWriteTxn [] it0 fuel h 0 m 0 (runs_of es)) as (it' & bs' & wb' & -> & Hfl & Hit');
      [apply in_flight_new; lia|done|by eapply extents_runs_fit|done|lia|done| |done|lia|lia|by intros off d ?%list_elem_of_In|].
    { unfold runs_of, extent_runs, fuel. rewrite !length_map. lia. }
    cbn [mbind outcome_bind]. exists bs', wb', it'. split_and!; done.
  - assert (m = 0) as E0 by lia. rewrite (Blob_Verify_small hash Hhash b h tree data pad) by done. cbn [mbind outcome_bind]. rewrite bool_decide_true by done. rewrite with_tree_small by done.
    exists bs, NewWriteTxn, it0. split; [done|]. rewrite E0. cbn [Z.to_nat]. rewrite take_0. split; [apply in_flight_new; lia|]. destruct (runs_of es) as [|[d c] rs]; done.
Qed.

Let rs := runs_of es.
Let tree_items := items h 0 base (take (Z.to_nat m) (run_blocks 0 rs)).

Lemma runs_nonneg : Forall (λ r, 0 ≤ snd r) rs.
Proof using. apply extent_runs_pos. Qed.

Lemma tree_items_below off d : (h, off, d) ∈ tree_items → off < m.
Proof using All.
  unfold tree_items, items. intros (y & [= -> ->] & Hy)%list_elem_of_fmap. pose proof (run_block_offset _ _ _ _ runs_nonneg Hy).
  pose proof (merkle_blocks_bound (zlen data) ltac:(lia)) as Hmb. fold m in Hmb. lia.
Qed.

Lemma write_data_plain w bs1 wb1 it1 : w.(compressor) = None → in_flight vmos max bs bs1 wb1 tree_items → block_ok it1 m (rest m rs) → m + dn ≤ run_total rs →
  ∃ bs' wb', write_data a bs1 with_tree w wb1 it1 fuel = Returns (ZX_OK, bs', with_tree, Some wb') ∧
    in_flight vmos max bs bs' wb' (items h 0 base (take (Z.to_nat (m + dn)) (run_blocks 0 rs))).
Proof using All.
  intros Hc Hfl Hit Htot. unfold write_data. rewrite (MerkleTreeBlocks_ok _ _ (Hsize : field_get blob_size (Blob.inode_ with_tree) = _)) by lia. cbn [mbind outcome_bind]. rewrite Hc.
  change (field_get blob_size (Blob.inode_ with_tree)) with (field_get blob_size (Blob.inode_ b)). pose proof (BlobDataBlocks_ok _ _ Hsize ltac:(lia)) as Hbd. unfold BlobDataBlocks in Hbd. rewrite Hbd. fold dn.
  pose proof Hdata as Hd. unfold UINT32_MAX in Hd. assert (0 ≤ dn < 2 ^ 20) as Hdn by (unfold dn, data_blocks; clear -Hd; zlia).
  pose proof (merkle_blocks_bound (zlen data) ltac:(lia)) as Hmb. fold m in Hmb.
  unfold ZX_DEBUG_ASSERT, UINT32_MAX. ztest. cbn [mbind outcome_bind mapping_ with_tree with_mapping]. unwrap.
  destruct (stream_to_disk_ok a with_tree max cap bs Hq Hwb eq_refl ltac:(unfold max; clear -Hcap; zlia) ltac:(lia) bs1 wb1 tree_items it1 fuel h 0 dn m (rest m rs)) as (it' & bs' & wb' & -> & Hfl' & _);
    [done|done|by eapply runs_fit_rest, extents_runs_fit|done|lia|rewrite run_total_rest by (lia || apply runs_nonneg); lia| |done|lia|lia|intros off d ?%tree_items_below; lia|].
  { pose proof (length_rest m rs). unfold fuel, rs, runs_of, extent_runs in *. rewrite !length_map in *. lia. }
  cbn [mbind outcome_bind]. exists bs', wb'. split; [done|]. unfold tree_items in Hfl'. rewrite <- items_app in Hfl'.
  rewrite <- (run_blocks_split 0 m dn rs) by (lia || apply runs_nonneg). exact Hfl'.
Qed.

(** The compressed data follows the tree; the inode records it. *)
Lemma write_data_compressed w c x bs1 wb1 it1 : w.(compressor) = Some (c, x) → c ≠ ZX_HANDLE_INVALID → c ≠ h → 0 ≤ Compressor_Size x < UINT32_MAX →
  let cn := data_blocks (Compressor_Size x) in m + cn < field_get block_count b.(Blob.inode_) →
  in_flight vmos max bs bs1 wb1 tree_items → block_ok it1 m (rest m rs) → m + cn ≤ run_total rs →
  let n := field_set block_count b.(Blob.inode_) (m + cn) in
  ∃ bs' wb', write_data a bs1 with_tree w wb1 it1 fuel = Returns (ZX_OK, bs',
      with_inode with_tree b.(map_index_) (field_set node_flags n (Z.lor (field_get node_flags n) kBlobFlagZSTDCompressed)), Some wb') ∧
    in_flight vmos max bs bs' wb' (tree_items ++ items c m base (take (Z.to_nat cn) (drop (Z.to_nat m) (run_blocks 0 rs)))).
Proof using All.
  intros Hc Hc0 Hch Hcs cn Hcn Hfl Hit Htot. unfold write_data. rewrite (MerkleTreeBlocks_ok _ _ (Hsize : field_get blob_size (Blob.inode_ with_tree) = _)) by lia. cbn [mbind outcome_bind]. rewrite Hc.
  pose proof Hdata as Hd. unfold UINT32_MAX in Hd, Hcs. assert (0 ≤ cn < 2 ^ 20) as Hcnr by (unfold cn, data_blocks; clear -Hcs; zlia).
  pose proof (merkle_blocks_bound (zlen data) ltac:(lia)) as Hmb. fold m in Hmb |- *.
  assert (round_up (Compressor_Size x) kBlobfsBlockSize / kBlobfsBlockSize = cn) as -> by (unfold kBlobfsBlockSize, cn, data_blocks; rewrite round_up_small by lia; clear; zlia).
  unfold ZX_DEBUG_ASSERT, UINT32_MAX. ztest. cbn [mbind outcome_bind]. rewrite (block_ok_index _ _ _ Hit), Z.eqb_refl. cbn [mbind outcome_bind]. unwrap.
  destruct (stream_to_disk_ok a with_tree max cap bs Hq Hwb eq_refl ltac:(unfold max; clear -Hcap; zlia) ltac:(lia) bs1 wb1 tree_items it1 fuel c m cn m (rest m rs)) as (it' & bs' & wb' & -> & Hfl' & _);
    [done|done|by eapply runs_fit_rest, extents_runs_fit|done|lia|rewrite run_total_rest by (lia || apply runs_nonneg); lia| |done|lia|lia| |].
  { pose proof (length_rest m rs). unfold fuel, rs, runs_of, extent_runs in *. rewrite !length_map in *. lia. }
  { unfold tree_items, items. intros off d (y & [= Hne _ _] & _)%list_elem_of_fmap. done. }
  cbn [mbind outcome_bind]. rewrite failed_ok. rewrite (Z.add_comm cn m). change (Blob.inode_ with_tree) with (Blob.inode_ b). ztest. cbn [mbind outcome_bind].
  exists bs', wb'. split; [done|]. rewrite <- (run_blocks_rest 0 m rs) by (lia || apply runs_nonneg). replace (0 + Z.min m (run_total rs)) with m by lia. exact Hfl'.
Qed.

End store.

(** ** The data is handed over, then the metadata *)

Lemma synced_data info disk bs a ws : volume_ok info a.(block_map_) a.(node_map_) → Forall (λ w, DataStartBlock info ≤ fst w) ws → synced info disk bs a → synced info (write_all disk ws) bs a.
Proof.
  intros Hvol Hws Hs h off Hi. rewrite write_all_other; [by apply Hs|]. apply Forall_forall. intros w Hw. pose proof (proj1 (Forall_forall _ _) Hws w Hw) as Hd. cbn in Hd.
  pose proof (place_before_data _ _ _ _ _ Hvol Hi). destruct (place_inj _ _ _ _ _ _ _ Hvol Hi Hi) as [? _]. lia.
Qed.

(** The works that were accepted, in the order of time: those of the data, and that of the metadata. *)
Definition works (new : list (list (Z * block))) (ws : list (Z * block)) : list (EnqueueType * list (Z * block)) :=
  map (pair kData) new ++ [(Blobfs.kJournal, ws)].

(** What the device has when these works are written. *)
Definition disk_after (disk : list block) (ws : list (EnqueueType * list (Z * block))) : list block := write_all disk (concat (map snd ws)).

Lemma disk_after_works disk new ws : disk_after disk (works new ws) = write_all (write_all disk (concat new)) ws.
Proof. unfold disk_after, works. rewrite map_app, map_map, concat_app, write_all_app. cbn. rewrite app_nil_r, map_id. done. Qed.

Section handed.
Context {X : Type} `{BlobCompressor X}.

(** What a blob that is committed leaves: [D] are the blocks of its data. *)
Record stored_blob (a : Allocator) (bs : Blobfs) (disk : list block) (b : Blob X) (w : WritebackInfo X) (ids : list Z) (D : list (Z * Z * Z))
    (a' : Allocator) (bs' : Blobfs) (disk' : list block) : Prop := {
  sb_bs : ∃ new ws n, bs' = advance (counted bs (field_get block_count b.(Blob.inode_)) (Z.of_nat (length (used_nodes b w ids)))) (bs.(accepted) ++ works new ws) n ∧
    disk' = disk_after disk (works new ws) ∧ (∀ d x, (d, x) ∈ concat new ↔ moved (blob_vmos a bs b) D d x) ∧ Forall (λ x, 0 ≤ fst x < DataStartBlock bs.(info_)) ws;
  sb_committed : committed a w.(w_extents) ids (set_root b.(Blob.inode_) b.(key)) (field_get block_count b.(Blob.inode_)) a';
  sb_fs : fs_ok bs' a' disk';
}.

Lemma hand_over a bs disk b w ids D max cap bs1 wb : fs_ok bs a disk → queues_ok bs (metadata_cost w) → ready a b w ids →
  bs.(writeback_) = Some cap → max ≤ cap → in_flight (blob_vmos a bs b) max bs bs1 wb D → (∀ h off d, (h, off, d) ∈ D → DataStartBlock bs.(info_) ≤ d) →
  ∃ a' bs' disk', (r ← EnqueueWork (blob_vmos a bs1 b) bs1 wb kData; let '(status, bs) := r in if failed status then Returns (status, a, bs, b) else WriteMetadata true a bs b) =
      Returns (ZX_OK, a', bs', made_readable b) ∧ stored_blob a bs disk b w ids D a' bs' disk'.
Proof.
  intros Hfs Hqs Hrd Hcap Hmax [Htx Hm _ (new & n & -> & _ & Hmv)] HD. set (vmos := blob_vmos a bs b) in *. pose proof Hqs as [Hquiet _ _ _].
  rewrite (EnqueueWork_data _ _ wb cap) by (done || (rewrite (tx_count _ Htx); lia)). cbn [mbind outcome_bind]. rewrite failed_ok.
  change (blob_vmos a (advance bs (accepted bs ++ map (pair kData) new) n) b) with vmos. set (new1 := new ++ [capture vmos (WriteTxn.operations_ wb)]).
  assert (∀ d x, (d, x) ∈ concat new1 ↔ moved vmos D d x) as Hmv1 by (intros d x; unfold new1; rewrite concat_app; cbn; rewrite app_nil_r; apply Hmv).
  assert (Forall (λ w, DataStartBlock bs.(info_) ≤ fst w) (concat new1)) as Hdata.
  { apply Forall_forall. intros [d x] Hx. apply Hmv1 in Hx as (h & off & Hin & _). by eapply HD. }
  match goal with |- context [WriteMetadata true a ?B b] => set (bs2 := B) end.
  destruct (commit_ok a bs2 b w ids (write_all disk (concat new1))) as (a' & ws & n2 & E & Hcm & Hfs' & Hws).
  - destruct Hfs as [Hv Hr Hn Hs Hl]. constructor; try done; [by apply synced_data|by rewrite length_write_all].
  - by destruct Hqs.
  - done.
  - exists a'. eexists _, (write_all (write_all disk (concat new1)) ws). split; [exact E|]. constructor; [|exact Hcm|by destruct Hfs'; constructor]. exists new1, ws, n2. split_and!; [|by rewrite disk_after_works|done|done].
    unfold bs2. cbn [accepted advance]. unfold works, new1. rewrite map_app, <- !app_assoc. done.
Qed.

End handed.

Lemma run_blocks_in l rs y : y ∈ run_blocks l rs → ∃ r, r ∈ rs ∧ fst r ≤ snd y < fst r + snd r.
Proof.
  revert l. induction rs as [|[d c] rs IH]; intros l; cbn [run_blocks]; [by intros ?%list_elem_of_In|]. rewrite elem_of_app. intros [Hy|Hy].
  - unfold blocks_of in Hy. apply list_elem_of_fmap in Hy as (i & -> & Hi%elem_of_seqZ). exists (d, c). split; [left|cbn; lia].
  - destruct (IH _ Hy) as (r & Hr & ?). exists r. split; [by right|done].
Qed.

Lemma items_place h bias h' off d rs l s i base : runs_fit base rs → (h', off, d) ∈ items h bias base (take i (drop s (run_blocks l rs))) → base ≤ d.
Proof.
  intros Hfit. unfold items. intros (y & [= -> -> ->] & (j & Hj & _)%elem_of_take)%list_elem_of_fmap. rewrite lookup_drop in Hj. apply list_elem_of_lookup_2 in Hj.
  apply run_blocks_in in Hj as (r & Hr & ?). pose proof (proj1 (Forall_forall _ _) Hfit r Hr). cbn in *. lia.
Qed.

Lemma compressed_flags (n : Inode) : length n = kNodeWords → field_get node_flags (field_set node_flags n (Z.lor (field_get node_flags n) kBlobFlagZSTDCompressed)) = Z.lor (field_get node_flags n) kBlobFlagZSTDCompressed.
Proof.
  intros Hn. pose proof (field_get_range node_flags n ltac:(done)) as Hr. cbn in Hr. apply field_get_set; [done|rewrite Hn; cbn; unfold kNodeWords; lia|].
  assert (0 ≤ Z.lor (field_get node_flags n) kBlobFlagZSTDCompressed) by (by apply Z.lor_nonneg; split; [lia|]). split; [done|]. cbn.
  change 65536 with (2 ^ 16). destruct (Z.eq_dec (Z.lor (field_get node_flags n) kBlobFlagZSTDCompressed) 0) as [->|]; [done|]. apply Z.log2_lt_pow2; [lia|]. rewrite Z.log2_lor by (done || lia).
  apply Z.max_lub_lt; [|done]. destruct (Z.eq_dec (field_get node_flags n) 0) as [->|]; [done|]. apply Z.log2_lt_pow2; lia.
Qed.

(** ** A blob whose contents are complete *)

Section finish.
Context {X : Type} `{BlobCompressor X} (hash : list Z → list Z) (Hhash : ∀ x, length (hash x) = 32%nat).

(** The mapping has room for the tree, the data, and zeros to the end of the last block. *)
Record contents_ok (b : Blob X) (h : Z) (tree data pad : list Z) : Prop := {
  co_map : b.(mapping_) = Some (h, tree ++ data ++ pad);
  co_handle : h ≠ ZX_HANDLE_INVALID;
  co_size : field_get blob_size b.(Blob.inode_) = zlen data;
  co_bound : 0 < zlen data < UINT32_MAX;
  co_tree : zlen tree = 8192 * merkle_blocks (zlen data);
  co_pad : pad = zeros (8192 * data_blocks (zlen data) - zlen data);
  co_key : zlen b.(key) = 32;
  co_flags : field_get node_flags b.(Blob.inode_) = 0;
  co_blocks : field_get block_count b.(Blob.inode_) = merkle_blocks (zlen data) + data_blocks (zlen data);
}.

Lemma end_compression_same n (w w' : WritebackInfo X) st : end_compression n w = Returns (st, w') → w'.(w_extents) = w.(w_extents) ∧ w'.(w_nodes) = w.(w_nodes) ∧ w'.(bytes_written) = w.(bytes_written).
Proof.
  unfold end_compression, compression_step. destruct w.(compressor) as [[c x]|]; [|by intros [= _ <-]]. destruct (Compressor_End x) as [s x'] eqn:Ex. destruct (failed s); [by intros [= _ <-]|].
  unfold ConsiderCompressionAbort. cbn [compressor with_compressor mbind outcome_bind]. intros [= _ <-]. by destruct (_ <? _).
Qed.

Context (a : Allocator) (bs : Blobfs) (disk : list block) (b : Blob X) (w w' : WritebackInfo X) (ids : list Z) (h : Z) (tree data pad : list Z).
Context (Hfs : fs_ok bs a disk) (Hqs : queues_ok bs (metadata_cost w)) (Hrd : ready a b w ids) (Hco : contents_ok b h tree data pad).
Context (Hend : end_compression b.(Blob.inode_) w = Returns (ZX_OK, w')).

(** The blob after its tree was created. *)
Definition completed : Blob X := with_tree hash (with_write_info b (Some w')) h data pad.

Let m := merkle_blocks (zlen data).
Let dn := data_blocks (zlen data).
Let base := DataStartBlock bs.(info_).
Let all_blocks := run_blocks 0 (runs_of w'.(w_extents)).

Lemma finish_setup : reservation a w'.(w_extents) ids ∧ Z.of_nat (length w'.(w_extents)) < 2 ^ 16 ∧ 0 ≤ base ∧ a.(block_map_).(size_) + base ≤ 2 ^ 40 ∧
  m + dn ≤ run_total (runs_of w'.(w_extents)) ∧ queues_ok bs (metadata_cost w') ∧ ready a (with_write_info b (Some w')) w' ids.
Proof using All.
  destruct (end_compression_same _ _ _ _ Hend) as (He & Hn & _). destruct Hrd as [? ? Hres ? ? ? Hbc]. pose proof (rs_few _ _ _ Hres) as Hf. unfold kMaxBlobExtents in Hf.
  pose proof (fs_volume _ _ _ Hfs) as Hvol. pose proof (vo_end _ _ _ Hvol). pose proof (place_before_data _ _ _ info_vmo 0 Hvol ltac:(by left)) as Hp. cbn in Hp. unfold metadata_cost. rewrite He, Hn in *.
  rewrite run_total_of. pose proof Hbc as Hbc'. rewrite (co_blocks _ _ _ _ _ Hco) in Hbc'. fold m dn in Hbc'. unfold base. split_and!; try done; try lia; [].
  constructor; try done; by rewrite ?He, ?Hn.
Qed.

Lemma finish_write_reject : b.(key) ≠ merkle_root hash data →
  finish_write hash true a bs b w NewWriteTxn = Returns (ZX_ERR_IO_DATA_INTEGRITY, a, bs, completed).
Proof using All.
  intros Hbad. destruct finish_setup as (Hres & Hfew & Hbase & Hsz & Htot & [_ (cap & Hwb & Hcap) _ _] & _). destruct Hco as [Hmap Hh Hsize Hbound Htree Hpad Hkey _ Hbc].
  unfold finish_write. rewrite Hend. cbn [mbind outcome_bind]. rewrite failed_ok.
  rewrite (write_tree_bad hash Hhash a bs cap w'.(w_extents) (qo_quiet _ _ Hqs) Hwb Hcap (rs_extents _ _ _ Hres) Hfew Hbase Hsz (with_write_info b (Some w')) h tree data pad) by done. done.
Qed.

Lemma finish_write_plain : b.(key) = merkle_root hash data → w'.(compressor) = None →
  ∃ a' bs' disk', finish_write hash true a bs b w NewWriteTxn = Returns (ZX_OK, a', bs', made_readable completed) ∧
    stored_blob a bs disk completed w' ids (items h 0 base (take (Z.to_nat (m + dn)) all_blocks)) a' bs' disk'.
Proof using All.
  intros Hgood Hplain. destruct finish_setup as (Hres & Hfew & Hbase & Hsz & Htot & Hqs' & Hrd'). pose proof Hqs' as [Hq (cap & Hwb & Hcap) _ _]. destruct Hco as [Hmap Hh Hsize Hbound Htree Hpad Hkey _ Hbc].
  pose proof (rs_extents _ _ _ Hres) as Hext. pose proof (extents_runs_fit a w'.(w_extents) base Hext Hsz) as Hfit.
  assert (0 ≤ dn) as Hdn by (unfold dn, data_blocks; clear -Hbound; zlia).
  unfold finish_write. rewrite Hend. cbn [mbind outcome_bind]. rewrite failed_ok.
  destruct (write_tree_good hash Hhash a bs cap w'.(w_extents) Hq Hwb Hcap Hext Hfew Hbase Hsz (with_write_info b (Some w')) h tree data pad Hmap Hh Hsize Hbound Htree Hkey Hgood ltac:(fold m; lia))
    as (bs1 & wb1 & it1 & -> & Hfl1 & Hit1). cbn [mbind outcome_bind]. rewrite failed_ok.
  destruct (write_data_plain hash Hhash a bs cap w'.(w_extents) Hq Hwb Hcap Hext Hfew Hbase Hsz (with_write_info b (Some w')) h tree data pad Hmap Hh Hsize Hbound Htree Hkey w' bs1 wb1 it1 Hplain Hfl1 Hit1 Htot)
    as (bs2 & wb2 & -> & Hfl2). cbn [mbind outcome_bind]. rewrite failed_ok.
  apply (hand_over a bs disk completed w' ids _ (3 * cap / 4) cap bs2 wb2); try done; [by destruct Hrd'; constructor|clear -Hcap; zlia|].
  intros h' off d Hin. rewrite <- (drop_0 all_blocks) in Hin. by eapply items_place.
Qed.

(** The inode of a blob that is compressed, with [cn] blocks of data. *)
Definition compressed_inode (cn : Z) : Inode :=
  let n := field_set block_count b.(Blob.inode_) (m + cn) in field_set node_flags n (Z.lor (field_get node_flags n) kBlobFlagZSTDCompressed).

Lemma compressed_inode_get cn f : field_valid f = true → field_disjoint block_count f = true → field_disjoint node_flags f = true → field_get f (compressed_inode cn) = field_get f b.(Blob.inode_).
Proof using. intros. unfold compressed_inode. by rewrite !field_get_set_ne by done. Qed.

Lemma compressed_inode_blocks cn : length b.(Blob.inode_) = kNodeWords → 0 ≤ m + cn < 2 ^ 32 → field_get block_count (compressed_inode cn) = m + cn.
Proof using.
  intros Hl Hr. unfold compressed_inode. rewrite field_get_set_ne by done.
  apply field_get_set; [done|eapply Nat.lt_le_trans; [|exact (Nat.eq_le_incl _ _ (eq_sym Hl))]; by apply Nat.ltb_lt|exact Hr].
Qed.

Lemma compressed_inode_flags cn : length b.(Blob.inode_) = kNodeWords → field_get node_flags (compressed_inode cn) = Z.lor (field_get node_flags b.(Blob.inode_)) kBlobFlagZSTDCompressed.
Proof using. intros Hl. unfold compressed_inode. rewrite compressed_flags by (by rewrite length_field_set). by rewrite field_get_set_ne by done. Qed.

Lemma compressed_ready cn : 0 < m + cn < m + dn → ready a (with_inode completed b.(map_index_) (compressed_inode cn)) w' ids.
Proof using All.
  intros Hcn. destruct finish_setup as (_ & _ & _ & _ & _ & _ & [? ? ? ? ? [Hl Hf He] Hbc]). change (Blob.inode_ (with_write_info b (Some w'))) with b.(Blob.inode_) in *.
  pose proof (field_get_range block_count b.(Blob.inode_) ltac:(done)) as Hr. cbn in Hr. rewrite (co_blocks _ _ _ _ _ Hco) in Hr, Hbc. fold m dn in Hr, Hbc.
  constructor; try done; cbn [Blob.inode_ with_inode]; [|rewrite compressed_inode_blocks by (done || lia); lia|unfold compressed_inode; cbv zeta; auto 10 with node_words].
  constructor; [unfold compressed_inode; by rewrite !length_field_set| |by rewrite compressed_inode_get].
  unfold IsAllocated in *. rewrite compressed_inode_flags by done. rewrite Z.land_lor_distr_l. by rewrite Z.lor_0_r.
Qed.

Lemma finish_write_compressed c x : b.(key) = merkle_root hash data → w'.(compressor) = Some (c, x) → c ≠ ZX_HANDLE_INVALID → c ≠ h → 0 < Compressor_Size x → Compressor_Size x + kCompressionMinBytesSaved ≤ zlen data →
  let cn := data_blocks (Compressor_Size x) in let b' := with_inode completed b.(map_index_) (compressed_inode cn) in
  ∃ a' bs' disk', finish_write hash true a bs b w NewWriteTxn = Returns (ZX_OK, a', bs', made_readable b') ∧
    stored_blob a bs disk b' w' ids (items h 0 base (take (Z.to_nat m) all_blocks) ++ items c m base (take (Z.to_nat cn) (drop (Z.to_nat m) all_blocks))) a' bs' disk'.
Proof using All.
  intros Hgood Hcomp Hc0 Hch Hs0 Hsave cn b'. destruct finish_setup as (Hres & Hfew & Hbase & Hsz & Htot & Hqs' & Hrd'). pose proof Hqs' as [Hq (cap & Hwb & Hcap) _ _]. pose proof Hco as [Hmap Hh Hsize Hbound Htree Hpad Hkey _ Hbc].
  pose proof (rs_extents _ _ _ Hres) as Hext. pose proof (extents_runs_fit a w'.(w_extents) base Hext Hsz) as Hfit. pose proof (merkle_blocks_bound (zlen data) ltac:(lia)) as Hmb. fold m in Hmb.
  assert (0 < cn < dn) as Hcn by (unfold cn, dn, data_blocks, kCompressionMinBytesSaved, kBlobfsBlockSize in *; clear -Hs0 Hsave; zlia).
  unfold finish_write. rewrite Hend. cbn [mbind outcome_bind]. rewrite failed_ok.
  destruct (write_tree_good hash Hhash a bs cap w'.(w_extents) Hq Hwb Hcap Hext Hfew Hbase Hsz (with_write_info b (Some w')) h tree data pad Hmap Hh Hsize Hbound Htree Hkey Hgood ltac:(fold m; lia))
    as (bs1 & wb1 & it1 & -> & Hfl1 & Hit1). cbn [mbind outcome_bind]. rewrite failed_ok.
  destruct (write_data_compressed hash Hhash a bs cap w'.(w_extents) Hq Hwb Hcap Hext Hfew Hbase Hsz (with_write_info b (Some w')) h tree data pad Hmap Hh Hsize Hbound Htree Hkey w' c x bs1 wb1 it1 Hcomp Hc0 Hch)
    as (bs2 & wb2 & -> & Hfl2); [unfold kCompressionMinBytesSaved, kBlobfsBlockSize in *; lia|cbn [Blob.inode_ with_write_info]; rewrite Hbc; fold m dn cn; lia|done|done|fold m cn; lia|].
  cbn [mbind outcome_bind]. rewrite failed_ok. fold m cn. change (with_inode _ _ _) with b' at 1 2 3.
  apply (hand_over a bs disk b' w' ids _ (3 * cap / 4) cap bs2 wb2); try done; [apply compressed_ready; lia|clear -Hcap; zlia|].
  intros h' off d [Hin|Hin]%elem_of_app; [rewrite <- (drop_0 all_blocks) in Hin|]; by eapply items_place.
Qed.

End finish.
