(* ===== verification/BlobRead.v ===== *)
(** * Reading: requests to the device, and what they bring *)

From S2P Require Import Prelude Bitmap RawBitmap RleBitmap IdAllocator Digest Format Superblock Reservers MerkleTree MerkleCreate MerkleVerify.
From S2P Require Import Allocator AllocatorBlocks AllocatorNodes Iterators Streaming Populate.
From S2P Require Import Operations RingBuffer RingCopy WriteTxn Writeback Journal JournalReplay JournalRecovery Blobfs Blob BlobWrite BlobMeta BlobCommit NodeWords BlobSync BlobData BlobFinish.

(** ** Requests *)

(** Block [off] of the VMO [id] is read from block [d] of the device. *)
Definition in_request (r : block_fifo_request) (x : Z * Z * Z) : Prop :=
  let '(id, off, d) := x in
  r.(req_vmoid) = id ∧ r.(req_vmo_offset) ≤ off < r.(req_vmo_offset) + r.(req_length) ∧ off - r.(req_vmo_offset) = d - r.(req_dev_offset).

Definition request_fits (r : block_fifo_request) : Prop :=
  0 ≤ r.(req_vmo_offset) ∧ 0 ≤ r.(req_dev_offset) ∧ 0 < r.(req_length) < 2 ^ 32 ∧ r.(req_vmo_offset) + r.(req_length) < 2 ^ 41 ∧ r.(req_dev_offset) + r.(req_length) < 2 ^ 41.

Record requests_ok (rs : list block_fifo_request) (D : list (Z * Z * Z)) : Prop := {
  rq_fits : Forall request_fits rs;
  rq_in : ∀ x, Exists (λ r, in_request r x) rs ↔ x ∈ D;
}.

Lemma in_items id l d c x : x ∈ items id 0 0 (blocks_of l d c) ↔ ∃ i, 0 ≤ i < c ∧ x = (id, l + i, d + i).
Proof.
  unfold items, blocks_of. rewrite map_map, list_elem_of_fmap. setoid_rewrite elem_of_seqZ. cbn. split.
  - intros (i & -> & Hi). exists i. rewrite Z.sub_0_r, Z.add_0_r. split; [lia|done].
  - intros (i & Hi & ->). exists i. rewrite Z.sub_0_r, Z.add_0_r. split; [done|lia].
Qed.

Lemma merge_request_some rs id l d c rs' : Forall request_fits rs → 0 < c → (∀ off e, Exists (λ r, in_request r (id, off, e)) rs → off < l) → 0 ≤ l → 0 ≤ d →
  l + c < 2 ^ 31 → d + c < 2 ^ 41 → merge_request rs id l d c = Some rs' →
  Forall request_fits rs' ∧ ∀ x, Exists (λ r, in_request r x) rs' ↔ Exists (λ r, in_request r x) rs ∨ x ∈ items id 0 0 (blocks_of l d c).
Proof.
  intros Hfit Hc Hfresh Hl Hd Hlc Hdc. revert rs'. induction Hfit as [|r rs Hr Hfit IH]; intros rs'; cbn [merge_request]; [done|].
  assert (∀ rs', cons r <$> merge_request rs id l d c = Some rs' → Forall request_fits rs' ∧ ∀ x, Exists (λ r, in_request r x) rs' ↔ Exists (λ r, in_request r x) (r :: rs) ∨ x ∈ items id 0 0 (blocks_of l d c)) as next_case.
  { intros rs1 E. destruct (merge_request rs id l d c) as [rs2|]; [|done]. injection E as <-. destruct (IH (λ off e He, Hfresh off e (Exists_cons_tl _ He)) rs2 eq_refl) as [Hf Hin].
    split; [by constructor|]. intros x. rewrite !Exists_cons, Hin. tauto. }
  destruct Hr as (H1 & H2 & H3 & H4 & H5). destruct (Z.eqb_spec r.(req_vmoid) id) as [Hid|Hid]; cbn [negb].
  - pose proof (Hfresh (r.(req_vmo_offset)) (r.(req_dev_offset)) ltac:(left; cbn; lia)). pose proof (Hfresh (r.(req_vmo_offset) + r.(req_length) - 1) (r.(req_dev_offset) + r.(req_length) - 1) ltac:(left; cbn; lia)).
    ztest. unwrap. destruct ((_ =? l) && (_ =? d)) eqn:E.
    + apply andb_true_iff in E as [E1%Z.eqb_eq E2%Z.eqb_eq]. intros [= <-]. split; [constructor; [cbn|done]|].
      { split_and!; cbn; lia. }
      intros x. rewrite !Exists_cons, in_items. destruct x as [[i o] e]. cbn. split.
      * intros [(Hi & Ho & He)|?]; [|auto]. assert (i = id) as -> by lia. destruct (Z.lt_ge_cases o l); [left; left; lia|right]. exists (o - l). split; [lia|]. replace e with (d + (o - l)) by lia. by replace (l + (o - l)) with o by lia.
      * intros [[?|?]|(j & Hj & [= -> -> ->])]; [left; lia|by right|left; lia].
    + by apply next_case.
  - by apply next_case.
Qed.

Lemma EnqueueOperation_ok rs D id l d c : requests_ok rs D → 0 < c → (∀ off e, (id, off, e) ∈ D → off < l) → 0 ≤ l → 0 ≤ d → l + c < 2 ^ 31 → d + c < 2 ^ 41 →
  ∃ rs', EnqueueOperation rs id l d c = Returns rs' ∧ requests_ok rs' (D ++ items id 0 0 (blocks_of l d c)).
Proof.
  intros [Hfit Hin] Hc Hfresh Hl Hd Hlc Hdc. unfold EnqueueOperation, ZX_ASSERT, UINT32_MAX. ztest. cbn [mbind outcome_bind]. unwrap. eexists. split; [done|].
  destruct (merge_request rs id l d c) as [rs'|] eqn:E.
  - destruct (merge_request_some rs id l d c rs') as [Hf Hi]; try done; [intros off e; rewrite Hin; apply Hfresh|]. constructor; [done|]. intros x. by rewrite Hi, Hin, elem_of_app.
  - constructor.
    + apply Forall_app. split; [done|]. constructor; [|done]. split_and!; cbn; lia.
    + intros x. rewrite Exists_app, Hin, elem_of_app, Exists_cons, Exists_nil, in_items. destruct x as [[i o] e]. cbn. split; (intros [?|Hx]; [by left|right]).
      * destruct Hx as [(-> & Ho & He)|[]]. exists (o - l). split; [lia|]. replace e with (d + (o - l)) by lia. by replace (l + (o - l)) with o by lia.
      * destruct Hx as (j & Hj & [= -> -> ->]). left. lia.
Qed.

(** Streaming from the device gathers the blocks of the runs. *)
Lemma stream_from_disk_ok bs rq D it fuel id bias count local rs : let base := DataStartBlock bs.(info_) in
  requests_ok rq D → block_ok it local rs → runs_fit base rs → 0 ≤ base → 0 ≤ count < 2 ^ 32 → count ≤ run_total rs → (length rs < fuel)%nat →
  0 ≤ bias ≤ local → local + count < 2 ^ 31 → (∀ off d, (id, off, d) ∈ D → off < local - bias) →
  ∃ it' rq', stream_from_disk bs rq it fuel id bias count = Returns (ZX_OK, it', rq') ∧
    requests_ok rq' (D ++ items id bias base (take (Z.to_nat count) (run_blocks local rs))) ∧ block_ok it' (local + count) (rest count rs).
Proof.
  intros base Hrq Hit Hfit Hbase Hcount Htot Hfuel Hbias Hlc Hfresh. unfold stream_from_disk. fold base.
  pose proof (runs_fit_pos _ _ Hfit) as Hpos. rewrite <- (piece_blocks_pieces local count rs Hpos).
  match goal with |- context [StreamBlocks ?g _ _ _ _] => set (g0 := g) end.
  destruct (run_calls_inv g0 (λ done rq, requests_ok rq (D ++ items id bias base done)) (pieces local count rs) rq) as (rq' & Hrun & Hrq').
  - intros l d c pre post s E Hs. pose proof (pieces_fit base local count rs Hfit ltac:(lia) ltac:(lia)) as Hp.
    rewrite E in Hp. apply Forall_app in Hp as [_ Hp]. apply Forall_cons in Hp as [(Hl & Hd & Hc & Hlc' & Hdc) _]. cbn [fst snd] in *.
    unfold g0. unwrap. destruct (EnqueueOperation_ok s _ id (l - bias) (d + base) c Hs) as (rs' & -> & Hrs'); [lia| |lia..|].
    { intros off e [Hin|Hin]%elem_of_app; [specialize (Hfresh _ _ Hin); lia|]. unfold items in Hin. apply list_elem_of_fmap in Hin as (y & [= -> ->] & Hy).
      pose proof (pieces_before local count rs pre post l d c Hpos E y Hy). lia. }
    cbn [mbind outcome_bind]. exists rs'. split; [done|]. rewrite items_app, items_blocks_of, app_assoc. exact Hrs'.
  - cbn. by rewrite app_nil_r.
  - destruct (StreamBlocks_calls g0 fuel it local rs count _ _ Hit Hcount Htot Hfuel Hrun) as (it' & -> & Hit'). by exists it', rq'.
Qed.

(** ** Blocks of a VMO *)

Definition block_at (bytes : list Z) (o : Z) : list Z := vmo_block_at bytes (o * kBlobfsBlockSize).

Lemma lookup_block bytes o i : 0 ≤ o → Z.of_nat i < 8192 → block_at bytes o !! i = bytes !! (Z.to_nat (8192 * o) + i)%nat.
Proof.
  intros Ho Hi. unfold block_at, vmo_block_at, kBlobfsBlockSize. rewrite lookup_take_lt by lia. rewrite lookup_drop. do 2 f_equal. lia.
Qed.

Lemma length_block bytes o : 0 ≤ o → 8192 * (o + 1) ≤ zlen bytes → length (block_at bytes o) = Z.to_nat 8192.
Proof. intros Ho Hl. unfold block_at, vmo_block_at, kBlobfsBlockSize, zlen in *. rewrite length_take, length_drop. lia. Qed.

Lemma block_at_app l r o : 0 ≤ o → 8192 * (o + 1) ≤ zlen l → block_at (l ++ r) o = block_at l o.
Proof.
  intros Ho Hl. unfold block_at, vmo_block_at, kBlobfsBlockSize, zlen in *. rewrite drop_app_le by lia. rewrite take_app_le; [done|]. rewrite length_drop. lia.
Qed.

Lemma block_at_skip l r m o : zlen l = 8192 * m → m ≤ o → 0 ≤ m → block_at (l ++ r) o = block_at r (o - m).
Proof.
  intros Hl Hm H0. unfold block_at, vmo_block_at, kBlobfsBlockSize, zlen in *. rewrite drop_app_ge by lia. do 2 f_equal. lia.
Qed.

Lemma block_at_zeros n o : 0 ≤ o → 8192 * (o + 1) ≤ Z.of_nat n → block_at (replicate n 0) o = replicate (Z.to_nat 8192) 0.
Proof. intros Ho Hn. unfold block_at, vmo_block_at, kBlobfsBlockSize. rewrite drop_replicate, take_replicate. f_equal. lia. Qed.

Lemma block_at_take l n o : 0 ≤ o < n → block_at (take (Z.to_nat (8192 * n)) l) o = block_at l o.
Proof. intros Ho. unfold block_at, vmo_block_at, kBlobfsBlockSize. rewrite skipn_firstn_comm, take_take. f_equal. lia. Qed.

(** Bytes are known by their blocks. *)
Lemma block_ext l l' n : zlen l = 8192 * n → zlen l' = 8192 * n → (∀ o, 0 ≤ o < n → block_at l o = block_at l' o) → l = l'.
Proof.
  intros Hl Hl' H. apply list_eq. intros i. unfold zlen in *. destruct (decide (i < length l)%nat) as [Hi|Hi].
  - set (o := Z.of_nat i / 8192). set (r := (i - Z.to_nat (8192 * o))%nat). assert (0 ≤ o < n) as Ho by (unfold o; clear -Hi Hl; zlia).
    assert (i = (Z.to_nat (8192 * o) + r)%nat ∧ Z.of_nat r < 8192) as [Er Hr] by (unfold r, o; clear; zlia). clearbody r o. rewrite Er, <- !lookup_block by lia. by rewrite H.
  - rewrite !(proj2 (lookup_ge_None _ _)) by lia. done.
Qed.

Lemma patch_in bytes off new : (off + length new ≤ length bytes)%nat → patch bytes off new = take off bytes ++ new ++ drop (off + length new) bytes.
Proof. intros H. unfold patch. rewrite (take_ge (take off bytes ++ new)) by (rewrite length_app, length_take; lia). by rewrite <- app_assoc. Qed.

Lemma length_patch bytes off new : (off + length new ≤ length bytes)%nat → length (patch bytes off new) = length bytes.
Proof. intros H. rewrite patch_in by done. rewrite !length_app, length_take, length_drop. lia. Qed.

(** Zeros that are written over. *)
Lemma patch_zeros l n d : zlen d ≤ n → patch (l ++ zeros n) (length l) d = l ++ d ++ zeros (n - zlen d).
Proof.
  intros Hd. pose proof (zlen_nonneg d). unfold zlen in *. rewrite patch_in by (unfold zeros; rewrite length_app, length_replicate; lia). rewrite take_app_length. do 2 f_equal.
  rewrite drop_app_ge by lia. unfold zeros. rewrite drop_replicate. f_equal. lia.
Qed.

Lemma patch_block bytes o x : 0 ≤ o → 8192 * (o + 1) ≤ zlen bytes → length x = Z.to_nat 8192 → let bytes' := patch bytes (Z.to_nat (o * kBlobfsBlockSize)) x in
  length bytes' = length bytes ∧ ∀ o', 0 ≤ o' → block_at bytes' o' = if o' =? o then x else block_at bytes o'.
Proof.
  intros Ho Hl Hx bytes'. unfold kBlobfsBlockSize, zlen in *. assert (Z.to_nat (o * 8192) + length x ≤ length bytes)%nat as Hin by lia. split; [by apply length_patch|].
  intros o' Ho'. apply list_eq. intros i. destruct (decide (Z.of_nat i < 8192)) as [Hi|Hi].
  - rewrite lookup_block by done. unfold bytes'. rewrite patch_in by done. destruct (Z.eqb_spec o' o) as [->|Hne].
    + rewrite lookup_app_r by (rewrite length_take; lia). rewrite lookup_app_l by (rewrite length_take; lia). f_equal. rewrite length_take. lia.
    + rewrite lookup_block by done. destruct (Z.lt_ge_cases o' o).
      * rewrite lookup_app_l by (rewrite length_take; lia). by rewrite lookup_take_lt by lia.
      * rewrite lookup_app_r by (rewrite length_take; lia). rewrite lookup_app_r by (rewrite length_take; lia). rewrite lookup_drop, length_take. f_equal. lia.
  - rewrite !(proj2 (lookup_ge_None _ i)); [done| |].
    + destruct (_ =? _); [lia|]. unfold block_at, vmo_block_at, kBlobfsBlockSize. rewrite length_take. lia.
    + unfold block_at, vmo_block_at, kBlobfsBlockSize. rewrite length_take. lia.
Qed.

(** Blocks read one after the other. *)
Section read_blocks.
Context (disk : list block) (f : Z → block).

Definition read_block (vmo : list Z) (x : Z * Z) : list Z := patch vmo (Z.to_nat (fst x * kBlobfsBlockSize)) (default [] (disk !! Z.to_nat (snd x))).

Lemma device_blocks_ok L vmo : (∀ x, x ∈ L → 0 ≤ fst x ∧ 8192 * (fst x + 1) ≤ zlen vmo ∧ disk !! Z.to_nat (snd x) = Some (f (fst x)) ∧ length (f (fst x)) = Z.to_nat 8192) →
  let vmo' := foldl read_block vmo L in length vmo' = length vmo ∧ ∀ o, 0 ≤ o → block_at vmo' o = if bool_decide (o ∈ map fst L) then f o else block_at vmo o.
Proof.
  revert vmo. induction L as [|[o d] L IH]; intros vmo HL; cbn [foldl map fst].
  - split; [done|]. intros o _. by rewrite bool_decide_false by (by intros ?%list_elem_of_In).
  - destruct (HL (o, d)) as (Ho & Hr & Hd & Hf); [by left|]. cbn [fst snd] in *. assert (read_block vmo (o, d) = patch vmo (Z.to_nat (o * kBlobfsBlockSize)) (f o)) as -> by (transitivity (patch vmo (Z.to_nat (o * kBlobfsBlockSize)) (default ([] : block) (disk !! Z.to_nat d))); [done|by rewrite Hd]).
    destruct (patch_block vmo o (f o) Ho Hr Hf) as [Hl Hb]. cbn zeta in *. set (v1 := patch vmo _ _) in *. destruct (IH v1) as [Hl' Hb'].
    { intros x Hx. unfold zlen in *. rewrite Hl. apply HL. by right. }
    split; [by rewrite Hl'|]. intros o' Ho'. rewrite Hb', Hb by done. destruct (Z.eqb_spec o' o) as [->|Hne].
    + rewrite (bool_decide_true (o ∈ o :: _)) by (by left). by destruct (bool_decide _).
    + destruct (bool_decide_reflect (o' ∈ map fst L)); [rewrite bool_decide_true by (by right)|rewrite bool_decide_false by (by intros [->|?]%elem_of_cons)]; done.
Qed.

End read_blocks.

(** ** The transaction *)

(** The blocks that a request reads into the VMO [id]. *)
Definition request_blocks (id : Z) (r : block_fifo_request) : list (Z * Z) :=
  if r.(req_vmoid) =? id then map (λ i, (r.(req_vmo_offset) + i, r.(req_dev_offset) + i)) (seqZ 0 r.(req_length)) else [].

Lemma in_request_blocks id r x : x ∈ request_blocks id r ↔ in_request r (id, fst x, snd x).
Proof.
  unfold request_blocks, in_request. destruct (Z.eqb_spec r.(req_vmoid) id) as [E|E]; [|split; [by intros ?%list_elem_of_In|tauto]].
  rewrite list_elem_of_fmap. setoid_rewrite elem_of_seqZ. destruct x as [o d]. cbn. split.
  - intros (i & [= -> ->] & Hi). lia.
  - intros (_ & Ho & Hd). exists (o - r.(req_vmo_offset)). split; [|lia]. f_equal; lia.
Qed.

Lemma in_flat_requests id rs D x : requests_ok rs D → x ∈ flat_map (request_blocks id) rs ↔ (id, fst x, snd x) ∈ D.
Proof.
  intros [_ Hin]. rewrite <- Hin, Exists_exists, list_elem_of_In, in_flat_map. setoid_rewrite <- list_elem_of_In. by setoid_rewrite in_request_blocks.
Qed.

Section transact.
Context (k : Z) (Hk : 0 < k ≤ 2 ^ 13) (disk : list block).

Definition scaled (r : block_fifo_request) : block_fifo_request :=
  {| req_vmoid := r.(req_vmoid); req_vmo_offset := r.(req_vmo_offset) * k; req_dev_offset := r.(req_dev_offset) * k; req_length := r.(req_length) * k |}.

Lemma device_requests_ok rs : Forall request_fits rs → Forall (λ r, r.(req_length) * k < UINT32_MAX) rs → device_requests k rs = Returns (map scaled rs).
Proof using Hk.
  induction 1 as [|r rs (H1 & H2 & H3 & H4 & H5) _ IH]; intros Hlen; [done|]. apply Forall_cons in Hlen as [Hr Hlen]. cbn [device_requests map]. rewrite IH by done. unfold ZX_ASSERT, UINT32_MAX in *.
  assert (∀ z, 0 ≤ z < 2 ^ 41 → 0 ≤ z * k < 2 ^ 64) as Hz by (clear -Hk; nia). pose proof (Hz r.(req_vmo_offset) ltac:(lia)). pose proof (Hz r.(req_dev_offset) ltac:(lia)). pose proof (Hz r.(req_length) ltac:(lia)).
  unwrap. ztest. cbn [mbind outcome_bind]. unwrap. done.
Qed.

Lemma read_request_ok id vmo r : read_request k disk id vmo (scaled r) = foldl (read_block disk) vmo (request_blocks id r).
Proof using Hk.
  unfold read_request, request_blocks. cbn [scaled req_vmoid req_vmo_offset req_dev_offset req_length]. rewrite !Z.div_mul by lia. destruct (_ =? id); [|done].
  generalize (seqZ 0 r.(req_length)). intros l. revert vmo. induction l as [|i l IH]; intros vmo; [done|]. cbn [foldl map]. by rewrite IH.
Qed.

Lemma read_requests_ok id rs vmo : foldl (read_request k disk id) vmo (map scaled rs) = foldl (read_block disk) vmo (flat_map (request_blocks id) rs).
Proof using Hk. revert vmo. induction rs as [|r rs IH]; intros vmo; [done|]. cbn [map foldl flat_map]. by rewrite foldl_app, read_request_ok, IH. Qed.

(** The VMOs get what [D] says: a VMO that is to have the contents [target] has them, when the blocks that it lacks are read. *)
Lemma Transact_ok bs rq D N : quiet bs → requests_ok rq D → N * k < UINT32_MAX → (∀ id o d, (id, o, d) ∈ D → 0 ≤ o < N) →
  ∃ n read, Transact k disk bs rq = Returns (ZX_OK, advance bs bs.(accepted) n, read) ∧
    ∀ id vmo target M, zlen vmo = 8192 * M → zlen target = 8192 * M →
      (∀ o d, (id, o, d) ∈ D → o < M ∧ disk !! Z.to_nat d = Some (block_at target o)) →
      (∀ o, 0 ≤ o < M → (∃ d, (id, o, d) ∈ D) ∨ block_at vmo o = block_at target o) → read id vmo = target.
Proof using Hk.
  intros Hq Hrq HN HD.
  assert (∀ id vmo target M, zlen vmo = 8192 * M → zlen target = 8192 * M → (∀ o d, (id, o, d) ∈ D → o < M ∧ disk !! Z.to_nat d = Some (block_at target o)) →
    (∀ o, 0 ≤ o < M → (∃ d, (id, o, d) ∈ D) ∨ block_at vmo o = block_at target o) → foldl (read_block disk) vmo (flat_map (request_blocks id) rq) = target) as Hread.
  { intros id vmo target M Hv Ht Hdisk Hcov. destruct (device_blocks_ok disk (block_at target) (flat_map (request_blocks id) rq) vmo) as [Hl Hb].
    - intros [o d] Hx%(in_flat_requests _ _ _ _ Hrq). cbn in *. destruct (Hdisk _ _ Hx). pose proof (HD _ _ _ Hx). rewrite length_block by lia. split_and!; [lia|lia|done|done].
    - apply (block_ext _ _ M); [unfold zlen in *; by rewrite Hl|done|]. intros o Ho. rewrite Hb by lia. case_bool_decide as Ho'; [done|]. destruct (Hcov o Ho) as [[d Hd]|?]; [|done].
      destruct Ho'. apply list_elem_of_fmap. exists (o, d). split; [done|]. by apply (in_flat_requests _ _ _ _ Hrq). }
  destruct rq as [|r rq'].
  - exists bs.(time), (λ _ vmo, vmo). split; [cbn; by destruct bs|]. exact Hread.
  - unfold Transact. rewrite device_requests_ok; [|apply Hrq|].
    + cbn [mbind outcome_bind]. unfold call. rewrite Hq, failed_ok. eexists _, _. split; [done|]. intros id vmo target M Hv Ht Hd Hc. cbn beta. change (failed ZX_OK) with false. rewrite (read_requests_ok id (r :: rq') vmo). by eapply Hread.
    + apply Forall_forall. intros x Hx. pose proof (proj1 (Forall_forall _ _) (rq_fits _ _ Hrq) x Hx) as (H1 & H2 & H3 & H4 & H5).
      pose proof (HD x.(req_vmoid) (x.(req_vmo_offset) + x.(req_length) - 1) (x.(req_dev_offset) + x.(req_length) - 1)) as Hmax. rewrite <- (rq_in _ _ Hrq) in Hmax.
      specialize (Hmax ltac:(apply Exists_exists; exists x; split; [done|cbn; lia])). nia.
Qed.

End transact.
