(* ===== verification/BlobRoundTrip.v ===== *)
(** * What is written to a blob is read from it *)

From S2P Require Import Prelude Bitmap RawBitmap RleBitmap IdAllocator Digest Format Superblock Reservers MerkleTree MerkleCreate MerkleVerify.
From S2P Require Import Allocator AllocatorBlocks AllocatorNodes Iterators Streaming Populate.
From S2P Require Import Operations RingBuffer RingCopy WriteTxn Writeback Journal JournalReplay JournalRecovery Blobfs Blob BlobWrite BlobMeta BlobCommit NodeWords BlobSync BlobData BlobFinish BlobRead.

(** ** The blocks of a blob *)

Lemma run_blocks_inj f l es y1 y2 : handles f es → y1 ∈ run_blocks l (runs_of es) → y2 ∈ run_blocks l (runs_of es) → snd y1 = snd y2 → y1 = y2.
Proof.
  assert (∀ l es y, y ∈ run_blocks l (runs_of es) → in_handles es (snd y) = true) as Hin.
  { clear. intros l es y (r & Hr & Hy)%run_blocks_in. unfold runs_of, extent_runs in Hr. rewrite map_map in Hr. apply list_elem_of_fmap in Hr as (e & -> & He). cbn in Hy.
    unfold in_handles, in_extents. apply existsb_exists. exists e.(Reservers.extent_). split; [apply in_map_iff; exists e; split; [done|by apply list_elem_of_In]|]. unfold in_extent. by ztest. }
  revert f l. induction es as [|e es IH]; intros f l Hh; cbn [runs_of extent_runs map run_blocks]; [by intros ?%list_elem_of_In|]. rewrite !elem_of_app.
  assert (∀ y, y ∈ blocks_of l (Start e.(Reservers.extent_)) (Length e.(Reservers.extent_)) → in_extent e.(Reservers.extent_) (snd y) = true) as Hfirst.
  { intros y (i & -> & Hi%elem_of_seqZ)%list_elem_of_fmap. unfold in_extent. cbn. by ztest. }
  pose proof (λ k Hk, handles_disjoint f e es k Hh Hk) as Hdis. intros [H1|H1] [H2|H2] E.
  - apply list_elem_of_fmap in H1 as (i & -> & _), H2 as (j & -> & _). cbn in *. by replace i with j by lia.
  - apply Hfirst in H1. apply Hin in H2. rewrite <- E in H2. rewrite (Hdis _ H1) in H2. done.
  - apply Hfirst in H2. apply Hin in H1. rewrite E in H1. rewrite (Hdis _ H2) in H1. done.
  - destruct Hh as (_ & _ & _ & Hh). by eapply IH.
Qed.

(** What is recorded of the extents are their first blocks. *)
Lemma cut_blocks f es bc l : handles f es → Forall (λ e, 0 ≤ e.(Reservers.extent_) < 2 ^ 64) es → 0 < bc ≤ AllocatorBlocks.blocks es →
  run_blocks l (runs_of (cut bc es)) = take (Z.to_nat bc) (run_blocks l (runs_of es)) ∧ AllocatorBlocks.blocks (cut bc es) = bc.
Proof.
  revert f bc l. induction es as [|e es IH]; intros f bc l Hh Hw Hbc; [cbn in Hbc; lia|]. apply Forall_cons in Hw as [Hw Hws]. destruct Hh as (Hr & Hl & Hin & Hh).
  cbn [AllocatorBlocks.blocks foldr] in Hbc. fold (AllocatorBlocks.blocks es) in Hbc. cbn [cut]. set (le := Length e.(Reservers.extent_)) in *.
  change (runs_of (e :: es)) with ((Start e.(Reservers.extent_), le) :: runs_of es). cbn [run_blocks]. destruct (Z.leb_spec le bc) as [Hle|Hgt].
  - change (runs_of (e :: ?x)) with ((Start e.(Reservers.extent_), le) :: runs_of x). cbn [run_blocks AllocatorBlocks.blocks foldr]. fold le.
    rewrite take_app_ge by (rewrite length_blocks_of; lia). rewrite length_blocks_of. destruct (Z.eqb_spec (bc - le) 0) as [E|E].
    + replace (Z.to_nat bc - Z.to_nat le)%nat with 0%nat by lia. rewrite take_0. cbn. split; [done|lia].
    + destruct (IH _ (bc - le) (l + le) Hh Hws ltac:(lia)) as [IH1 IH2]. rewrite IH1. replace (Z.to_nat bc - Z.to_nat le)%nat with (Z.to_nat (bc - le)) by lia. split; [done|].
      unfold AllocatorBlocks.blocks in IH2. rewrite IH2. lia.
  - pose proof (Length_range e.(Reservers.extent_)). destruct (SetLength_ok e.(Reservers.extent_) bc Hw ltac:(lia)) as (_ & Hs' & Hl').
    unfold runs_of, extent_runs. cbn [map cut_at Reservers.extent_ run_blocks AllocatorBlocks.blocks foldr]. rewrite Hs', Hl', app_nil_r. split; [|lia].
    rewrite take_app_le by (rewrite length_blocks_of; lia). unfold blocks_of. rewrite firstn_map, take_seqZ. do 2 f_equal. lia.
Qed.

(** Blocks [D] of which each comes from one block of the runs [L]. *)
Definition from_runs (D : list (Z * Z * Z)) (L : list (Z * Z)) (base : Z) (g : Z * Z → Z * Z) : Prop :=
  ∀ h o d, (h, o, d) ∈ D → ∃ y, y ∈ L ∧ d = snd y + base ∧ (h, o) = g y.

Lemma from_runs_plain h base n L : from_runs (items h 0 base (take n L)) L base (λ y, (h, fst y)).
Proof.
  intros h' o d. unfold items. intros (y & [= -> -> ->] & (i & Hi%list_elem_of_lookup_2 & _)%elem_of_take)%list_elem_of_fmap. exists y. rewrite Z.sub_0_r. done.
Qed.

Lemma from_runs_compressed h c m n base rs : 0 ≤ m ≤ run_total rs → Forall (λ r, 0 ≤ snd r) rs → let L := run_blocks 0 rs in
  from_runs (items h 0 base (take (Z.to_nat m) L) ++ items c m base (take n (drop (Z.to_nat m) L))) L base (λ y, if fst y <? m then (h, fst y) else (c, fst y - m)).
Proof.
  intros Hm Hrs L h' o d. unfold items. intros [(y & [= -> -> ->] & Hy)%list_elem_of_fmap|(y & [= -> -> ->] & Hy)%list_elem_of_fmap]%elem_of_app; exists y.
  - pose proof (run_block_offset _ _ _ _ Hrs Hy). apply elem_of_take in Hy as (i & Hi%list_elem_of_lookup_2 & _). ztest. rewrite Z.sub_0_r. done.
  - assert (y ∈ L) by (apply elem_of_take in Hy as (i & Hi & _); rewrite lookup_drop in Hi; by eapply list_elem_of_lookup_2).
    unfold L in Hy. rewrite <- (run_blocks_rest 0 m rs) in Hy by (done || lia). pose proof (run_block_offset _ _ _ _ (rest_pos m rs Hrs) Hy). by ztest.
Qed.

Section on_disk.
Context {X : Type} `{BlobCompressor X}.

(** Once the works are written, the blocks of the blob are on the device. *)
Lemma disk_data a bs disk (b : Blob X) w ids D a' bs' disk' g : fs_ok bs a disk → extents_ok a w.(w_extents) → 
  stored_blob a bs disk b w ids D a' bs' disk' → from_runs D (run_blocks 0 (runs_of w.(w_extents))) (DataStartBlock bs.(info_)) g →
  ∀ h o d, (h, o, d) ∈ D → disk' !! Z.to_nat d = Some (block_at (blob_vmos a bs b h) o).
Proof.
  intros Hfs Hext [(new & ws & n & _ & -> & Hmv & Hws) _ _] HD h o d Hin. pose proof (eo_handles _ _ Hext) as Hh. set (base := DataStartBlock bs.(info_)) in *.
  assert (runs_fit base (runs_of w.(w_extents))) as Hfit by (eapply extents_runs_fit; [done|pose proof (vo_end _ _ _ (fs_volume _ _ _ Hfs)); lia]).
  assert (∀ y, y ∈ run_blocks 0 (runs_of w.(w_extents)) → 0 ≤ snd y < a.(block_map_).(size_)) as Hy.
  { intros y (r & Hr & Hy)%run_blocks_in. unfold runs_of, extent_runs in Hr. rewrite map_map in Hr. apply list_elem_of_fmap in Hr as (e & -> & He). cbn in Hy.
    destruct (eo_free _ _ Hext (snd y)) as [? _]; [|done]. apply existsb_exists. exists e.(Reservers.extent_). split; [apply in_map_iff; exists e; split; [done|by apply list_elem_of_In]|]. unfold in_extent. by ztest. }
  assert (0 ≤ base) as Hbase by (pose proof (place_before_data _ _ _ info_vmo 0 (fs_volume _ _ _ Hfs) ltac:(by left)) as Hp; cbn in Hp; unfold base; lia).
  rewrite disk_after_works, write_all_other.
  - apply write_all_elem.
    + apply Forall_forall. intros [q x] (h' & o' & Hq & _)%Hmv. destruct (HD _ _ _ Hq) as (y & Hy' & -> & _). specialize (Hy y Hy'). cbn. lia.
    + intros q x z (h1 & o1 & H1 & ->)%Hmv (h2 & o2 & H2 & ->)%Hmv. destruct (HD _ _ _ H1) as (y1 & Hy1 & -> & E1), (HD _ _ _ H2) as (y2 & Hy2 & E & E2).
      assert (y1 = y2) as -> by (eapply run_blocks_inj; [exact Hh|done|done|lia]). rewrite <- E2 in E1. by injection E1 as -> ->.
    + apply Hmv. by exists h, o.
    + destruct (HD _ _ _ Hin) as (y & Hy' & -> & _). specialize (Hy y Hy'). pose proof (fs_disk _ _ _ Hfs). fold base in H0. lia.
  - apply Forall_forall. intros x Hx. pose proof (proj1 (Forall_forall _ _) Hws x Hx) as Hb. cbn in Hb. destruct (HD _ _ _ Hin) as (y & Hy' & -> & _). specialize (Hy y Hy'). fold base in Hb. lia.
Qed.

End on_disk.

(** ** The inode that is read *)

Section inode.
Context (a : Allocator) (es : list ReservedExtent) (ids : list Z) (n : Inode) (bc : Z) (a' : Allocator) (i0 : Z).
Context (Hcm : committed a es ids n bc a') (Hi0 : ids !! 0%nat = Some i0) (Hn : length n = kNodeWords).

(** What a node that was recorded says. *)
Record says (n' : Inode) : Prop := {
  sy_node : a'.(node_map_) !! Z.to_nat i0 = Some n';
  sy_core : ∀ f, f ∈ core_fields → f ≠ node_flags → field_get f n' = field_get f n;
  sy_flags : field_get node_flags n' = recorded_flags n;
  sy_extents : field_get inode_extent_count n' = Z.of_nat (length (cut bc es));
}.

Lemma recorded_inode : 0 ≤ i0 ∧ ∃ n', GetNode a' i0 = Returns n' ∧ says n'.
Proof using All.
  destruct (cm_nodes _ _ _ _ _ _ Hcm) as [Hl _ _ _]. destruct (Hl 0%nat i0) as (Hp & x & Hx & (_ & Hec & _) & _).
  { rewrite lookup_take_lt by lia. done. }
  split; [done|]. exists x. split; [by apply GetNode_ok|]. destruct (cm_inode _ _ _ _ _ _ Hcm i0 Hi0) as (y & Hy & Hcore). rewrite Hx in Hy. injection Hy as <-. constructor; [done| | |done].
  - intros f Hf Hne. rewrite (core_get f x _ Hcore Hf). apply field_get_set_ne; [done|..]; unfold core_fields in Hf; rewrite !elem_of_cons in Hf;
      destruct Hf as [->|[->|[->|[->|[->|[->|[->|Hf]]]]]]]; try done; by apply list_elem_of_In in Hf.
  - rewrite (core_get node_flags x _ Hcore) by (by repeat constructor). apply field_get_set; [done|rewrite Hn; cbn; unfold kNodeWords; lia|apply recorded_flags_range].
Qed.

(** The extents that are read are those that were recorded. *)
Lemma recorded_iterator : Z.of_nat (length (cut bc es)) < 2 ^ 16 → ∃ it, NewAllocatedExtentIterator a' i0 = Returns it ∧ block_ok (NewBlockIterator it) 0 (runs_of (cut bc es)).
Proof using All.
  intros Hlen. pose proof (cm_nodes _ _ _ _ _ _ Hcm) as Hw. rewrite <- (length_map Reservers.extent_ (cut bc es)) in Hw.
  destruct (walking_yields a' ids _ _ _ i0 Hw Hi0) as (it & Hit & Hy); [rewrite length_map; lia|done|]. exists it. split; [done|].
  exists [], (map Reservers.extent_ (cut bc es)). split_and!; try done.
  - change (run_total (runs_of (cut bc es)) < 2 ^ 64). pose proof (run_total_bound (cut bc es)). lia.
  - unfold NewAllocatedExtentIterator in Hit. apply bind_returns in Hit as (? & _ & [= <-]). done.
  - by left.
Qed.

End inode.

(** ** Loading *)

Lemma run_block_at rs o : Forall (λ r, 0 ≤ snd r) rs → 0 ≤ o < run_total rs → ∃ d, (o, d) ∈ run_blocks 0 rs.
Proof.
  intros Hrs Ho. assert (o ∈ map fst (run_blocks 0 rs)) as H by (rewrite fst_run_blocks by done; apply elem_of_seqZ; lia). apply list_elem_of_fmap in H as ([o' d] & -> & Hy). by exists d.
Qed.

Lemma run_block_range rs y : Forall (λ r, 0 ≤ snd r) rs → y ∈ run_blocks 0 rs → 0 ≤ fst y < run_total rs.
Proof. intros Hrs Hy. assert (fst y ∈ map fst (run_blocks 0 rs)) as H by (apply list_elem_of_fmap; by exists y). rewrite fst_run_blocks in H by done. apply elem_of_seqZ in H. lia. Qed.

(** The first blocks, and the others. *)
Lemma run_blocks_parts rs m y : Forall (λ r, 0 ≤ snd r) rs → 0 ≤ m ≤ run_total rs → let L := run_blocks 0 rs in
  (y ∈ take (Z.to_nat m) L ↔ y ∈ L ∧ fst y < m) ∧ (y ∈ drop (Z.to_nat m) L ↔ y ∈ L ∧ m ≤ fst y).
Proof.
  intros Hrs Hm L. assert (y ∈ L ↔ y ∈ take (Z.to_nat m) L ∨ y ∈ drop (Z.to_nat m) L) as Hsplit by (by rewrite <- elem_of_app, take_drop).
  assert (y ∈ take (Z.to_nat m) L → fst y < m) as H1 by (intros Hy; pose proof (run_block_offset _ _ _ _ Hrs Hy); lia).
  assert (y ∈ drop (Z.to_nat m) L → m ≤ fst y) as H2.
  { unfold L. rewrite <- (run_blocks_rest 0 m rs) by (done || lia). replace (0 + Z.min m (run_total rs)) with m by lia. intros Hy. rewrite <- (take_ge (run_blocks m (rest m rs)) _ (le_n _)) in Hy.
    pose proof (run_block_offset _ _ _ _ (rest_pos m rs Hrs) Hy). lia. }
  split; (split; [intros Hy; split; [apply Hsplit; by auto|by auto]|]).
  - intros [[Hy|Hy]%Hsplit ?]; [done|]. apply H2 in Hy. lia.
  - intros [[Hy|Hy]%Hsplit ?]; [|done]. apply H1 in Hy. lia.
Qed.

Lemma zlen_replicate n : zlen (replicate n 0) = Z.of_nat n.
Proof. unfold zlen. by rewrite length_replicate. Qed.

Lemma length_run_blocks rs : Forall (λ r, 0 ≤ snd r) rs → length (run_blocks 0 rs) = Z.to_nat (run_total rs).
Proof. intros Hrs. rewrite <- (length_map fst), fst_run_blocks by done. by rewrite length_seqZ. Qed.

Lemma in_items_of h bias base l h' o d : (h', o, d) ∈ items h bias base l ↔ h' = h ∧ (o + bias, d - base) ∈ l.
Proof.
  unfold items. rewrite list_elem_of_fmap. split.
  - intros ([u v] & [= -> -> ->] & Hy). cbn in *. replace (u - bias + bias) with u by lia. by replace (v + base - base) with v by lia.
  - intros [-> Hy]. exists (o + bias, d - base). split; [|done]. cbn. f_equal; [f_equal|]; lia.
Qed.

(** The file system after calls that change nothing of what it keeps. *)
Record only_calls (bs bs' : Blobfs) : Prop := {
  oc_info : bs'.(info_) = bs.(info_);
  oc_mapping : bs'.(info_mapping_) = bs.(info_mapping_);
  oc_journal : bs'.(journal_) = bs.(journal_);
  oc_writeback : bs'.(writeback_) = bs.(writeback_);
  oc_accepted : bs'.(accepted) = bs.(accepted);
  oc_answers : bs'.(answers) = bs.(answers);
}.

#[export] Instance only_calls_preorder : PreOrder only_calls.
Proof. split; [by intros bs|]. intros bs1 bs2 bs3 [? ? ? ? ? ?] [? ? ? ? ? ?]. constructor; congruence. Qed.

Lemma only_calls_quiet bs bs' : only_calls bs bs' → quiet bs → quiet bs'.
Proof. intros [_ _ _ _ _ E] Hq n. rewrite E. apply Hq. Qed.

Lemma only_calls_advance bs n : only_calls bs (advance bs bs.(accepted) n).
Proof. by constructor. Qed.

Lemma CreateAndMap_ok bs size : quiet bs → ∃ bs', CreateAndMap bs size = (ZX_OK, Some (bs.(next_handle), replicate (Z.to_nat size) 0), bs') ∧ only_calls bs bs' ∧
  bs'.(next_handle) = bs.(next_handle) + 1 ∧ bs'.(next_vmoid) = bs.(next_vmoid).
Proof. intros Hq. unfold CreateAndMap, call. rewrite Hq, failed_ok. eexists. split; [done|]. by split_and!; [constructor|..]. Qed.

Lemma AttachVmo_ok bs : quiet bs → ∃ bs', AttachVmo bs = (ZX_OK, Some bs.(next_vmoid), bs') ∧ only_calls bs bs' ∧
  bs'.(next_handle) = bs.(next_handle) ∧ bs'.(next_vmoid) = bs.(next_vmoid) + 1.
Proof. intros Hq. unfold AttachVmo, call. rewrite Hq, failed_ok. eexists. split; [done|]. by split_and!; [constructor|..]. Qed.

Lemma requests_none : requests_ok [] [].
Proof. constructor; [done|]. intros x. split; [by intros ?%Exists_nil|by intros ?%list_elem_of_In]. Qed.

Section load.
Context {X : Type} `{BlobCompressor X} (k : Z) (Hk : 0 < k ≤ 2 ^ 13) (disk : list block) (a : Allocator) (bs : Blobfs).
Context (Hq : quiet bs) (Hbase : 0 ≤ DataStartBlock bs.(info_)).
Context (b : Blob X) (h : Z) (es : list ReservedExtent) (size : Z).
Context (Hsize : field_get blob_size b.(Blob.inode_) = size) (Hbound : 0 < size < UINT32_MAX) (Hbc : field_get block_count b.(Blob.inode_) = AllocatorBlocks.blocks es).
Context (Hit : ∃ it, NewAllocatedExtentIterator a b.(map_index_) = Returns it ∧ block_ok (NewBlockIterator it) 0 (runs_of es)).
Context (Hfuel : (length es < stream_fuel a b)%nat) (Hfit : runs_fit (DataStartBlock bs.(info_)) (runs_of es)).

Let m := merkle_blocks size.
Let dn := data_blocks size.
Let base := DataStartBlock bs.(info_).
Let L := run_blocks 0 (runs_of es).

Lemma load_sizes : 0 ≤ m ∧ 0 < dn ∧ m + dn < 2 ^ 20 + 2 ^ 20 ∧ MerkleTreeBlocks b.(Blob.inode_) = Returns m ∧ BlobDataBlocks b.(Blob.inode_) = dn.
Proof using All.
  pose proof (merkle_blocks_bound size ltac:(lia)) as Hm. fold m in Hm. pose proof Hbound as Hb. unfold UINT32_MAX in Hb.
  split_and!; [lia|unfold dn, data_blocks; clear -Hb; zlia|unfold dn, data_blocks; clear -Hb Hm; zlia|by apply MerkleTreeBlocks_ok; [|lia]|by apply BlobDataBlocks_ok; [|lia]].
Qed.

(** A blob that is not compressed is read whole. *)
Lemma InitUncompressed_ok bytes : AllocatorBlocks.blocks es = m + dn → (m + dn) * k < UINT32_MAX → b.(mapping_) = Some (h, replicate (Z.to_nat (8192 * (m + dn))) 0) → zlen bytes = 8192 * (m + dn) →
  (∀ y, y ∈ L → disk !! Z.to_nat (snd y + base) = Some (block_at bytes (fst y))) →
  ∃ n, InitUncompressed k disk a bs b = Returns (ZX_OK, advance bs bs.(accepted) n, with_mapping b (Some (h, bytes))).
Proof using All.
  intros Hes HNk Hmap Hbytes Hdisk. destruct load_sizes as (Hm & Hdn & Hmd & EM & ED). destruct Hit as (it & Eit & Hbok). pose proof (runs_fit_pos _ _ Hfit) as Hpos. rewrite <- run_total_of in Hes.
  unfold InitUncompressed. rewrite Eit. cbn [mbind outcome_bind]. rewrite ED, EM. cbn [mbind outcome_bind]. unfold UINT32_MAX in *. unwrap. ztest. rewrite (Z.add_comm dn m).
  destruct (stream_from_disk_ok bs [] [] (NewBlockIterator it) (stream_fuel a b) b.(vmoid_) 0 (m + dn) 0 (runs_of es)) as (it' & rq & -> & Hrq & _); [apply requests_none|done|done|done|lia|lia| |lia|lia|by intros ? ? ?%list_elem_of_In|].
  { unfold runs_of, extent_runs. by rewrite !length_map. }
  cbn [mbind outcome_bind app] in *. rewrite failed_ok. set (id := vmoid_ b) in *. fold base L in Hrq. rewrite take_ge in Hrq by (unfold L; rewrite length_run_blocks by done; lia).
  destruct (Transact_ok k Hk disk bs rq _ (m + dn) Hq Hrq) as (n & read & -> & Hread); [unfold UINT32_MAX; lia| |].
  { intros i o d [-> Ho]%in_items_of. pose proof (run_block_range _ _ Hpos Ho) as Hr. cbn in Hr. lia. }
  cbn [mbind outcome_bind]. exists n. do 2 f_equal. unfold read_mapping. fold id. unfold with_mapping at 1. rewrite Hmap. cbn [fmap option_fmap option_map fst snd]. rewrite (Hread id _ bytes (m + dn)); [done|rewrite zlen_replicate; lia|done| |].
  - intros o d [_ Ho]%in_items_of. rewrite Z.add_0_r in Ho. pose proof (run_block_range _ _ Hpos Ho) as Hr. cbn in Hr.
    split; [lia|]. specialize (Hdisk _ Ho). cbn in Hdisk. by replace (d - base + base) with d in Hdisk by lia.
  - intros o Ho. left. destruct (run_block_at (runs_of es) o Hpos ltac:(lia)) as [d Hd]. exists (d + base). apply in_items_of. rewrite Z.add_0_r. by replace (d + base - base) with d by lia.
Qed.

(** What the two VMOs have after a transaction of which [Transact_ok] tells. *)
Lemma compressed_reads (read : Z → list Z → list Z) id1 id2 tree contents cn : AllocatorBlocks.blocks es = m + cn → 0 < cn → id1 ≠ id2 → zlen tree = 8192 * m → 8192 * cn ≤ zlen contents →
  (∀ y, y ∈ L → disk !! Z.to_nat (snd y + base) = Some (if fst y <? m then block_at tree (fst y) else block_at contents (fst y - m))) →
  (∀ id vmo target M, zlen vmo = 8192 * M → zlen target = 8192 * M →
    (∀ o d, (id, o, d) ∈ items id1 0 base (take (Z.to_nat m) L) ++ items id2 m base (drop (Z.to_nat m) L) → o < M ∧ disk !! Z.to_nat d = Some (block_at target o)) →
    (∀ o, 0 ≤ o < M → (∃ d, (id, o, d) ∈ items id1 0 base (take (Z.to_nat m) L) ++ items id2 m base (drop (Z.to_nat m) L)) ∨ block_at vmo o = block_at target o) → read id vmo = target) →
  read id1 (replicate (Z.to_nat (8192 * (m + dn))) 0) = tree ++ zeros (8192 * dn) ∧ read id2 (replicate (Z.to_nat (cn * 8192)) 0) = take (Z.to_nat (8192 * cn)) contents.
Proof using All.
  intros Hes Hcn Hid Htree Hcont Hdisk Hread. destruct load_sizes as (Hm & Hdn & _). pose proof (runs_fit_pos _ _ Hfit) as Hpos. rewrite <- run_total_of in Hes.
  pose proof (λ y, run_blocks_parts (runs_of es) m y Hpos ltac:(lia)) as Hparts. fold L in Hparts. split.
  - apply (Hread id1 _ _ (m + dn)); [rewrite zlen_replicate; lia|rewrite zlen_app, zlen_zeros by lia; lia| |].
    + intros o d [[_ Ho]%in_items_of|[E _]%in_items_of]%elem_of_app; [|done]. rewrite Z.add_0_r in Ho. apply Hparts in Ho as [Ho Hlt]. cbn in Hlt. pose proof (run_block_range _ _ Hpos Ho) as Hr. cbn in Hr.
      split; [lia|]. specialize (Hdisk _ Ho). cbn in Hdisk. replace (d - base + base) with d in Hdisk by lia. rewrite Hdisk. ztest. by rewrite block_at_app by lia.
    + intros o Ho. destruct (Z.lt_ge_cases o m).
      * left. destruct (run_block_at (runs_of es) o Hpos ltac:(lia)) as [d Hd]. exists (d + base). apply elem_of_app. left. apply in_items_of. rewrite Z.add_0_r. replace (d + base - base) with d by lia. split; [done|]. by apply Hparts.
      * right. rewrite (block_at_skip tree _ m) by lia. unfold zeros. rewrite !block_at_zeros by lia. done.
  - apply (Hread id2 _ _ cn); [rewrite zlen_replicate; lia|rewrite zlen_take by lia; lia| |].
    + intros o d [[E _]%in_items_of|[_ Ho]%in_items_of]%elem_of_app; [by destruct Hid|]. apply Hparts in Ho as [Ho Hge]. cbn in Hge. pose proof (run_block_range _ _ Hpos Ho) as Hr. cbn in Hr.
      split; [lia|]. specialize (Hdisk _ Ho). cbn in Hdisk. replace (d - base + base) with d in Hdisk by lia. rewrite Hdisk. ztest. rewrite block_at_take by lia. by replace (o + m - m) with o by lia.
    + intros o Ho. left. destruct (run_block_at (runs_of es) (o + m) Hpos ltac:(lia)) as [d Hd]. exists (d + base). apply elem_of_app. right. apply in_items_of. replace (d + base - base) with d by lia. split; [done|]. apply Hparts. split; [done|cbn; lia].
Qed.

(** A blob that is compressed: the tree is read into the mapping, the rest into a VMO of its own, from which the data comes. *)
Lemma InitCompressed_ok tree data contents cn : AllocatorBlocks.blocks es = m + cn → 0 < cn ≤ dn → (m + dn) * k < UINT32_MAX →
  b.(mapping_) = Some (h, replicate (Z.to_nat (8192 * (m + dn))) 0) → b.(vmoid_) ≠ bs.(next_vmoid) → zlen tree = 8192 * m → zlen data = size → 8192 * cn ≤ zlen contents →
  (∀ y, y ∈ L → disk !! Z.to_nat (snd y + base) = Some (if fst y <? m then block_at tree (fst y) else block_at contents (fst y - m))) →
  ZSTDDecompress size (take (Z.to_nat (8192 * cn)) contents) = (ZX_OK, data) →
  ∃ bs', InitCompressed k disk a bs b ZSTD = Returns (ZX_OK, bs', with_mapping b (Some (h, tree ++ data ++ zeros (8192 * dn - size)))) ∧ only_calls bs bs'.
Proof using All.
  intros Hes Hcn HNk Hmap Hid Htree Hdata Hcont Hdisk Hdec. destruct load_sizes as (Hm & Hdn & Hmd & EM & ED). destruct Hit as (it & Eit & Hbok). pose proof (runs_fit_pos _ _ Hfit) as Hpos.
  pose proof Hes as Htot. rewrite <- run_total_of in Htot. unfold InitCompressed. rewrite EM. cbn [mbind outcome_bind]. rewrite Hbc, Hes. unfold UINT32_MAX in *. replace (m + cn - m) with cn by lia. unwrap.
  change kBlobfsBlockSize with 8192. destruct (CreateAndMap_ok bs (cn * 8192) Hq) as (bs1 & -> & Hc1 & _ & Hv1). destruct (AttachVmo_ok bs1 (only_calls_quiet _ _ Hc1 Hq)) as (bs2 & -> & Hc2 & _). rewrite Hv1. clear Hv1.
  assert (only_calls bs bs2) as Hcalls by (by etransitivity). rewrite Eit. cbn [mbind outcome_bind].
  destruct (stream_from_disk_ok bs2 [] [] (NewBlockIterator it) (stream_fuel a b) b.(vmoid_) 0 m 0 (runs_of es)) as (it1 & rq1 & -> & Hrq1 & Hbok1);
    [apply requests_none|done|by rewrite (oc_info _ _ Hcalls)|by rewrite (oc_info _ _ Hcalls)|lia|lia|unfold runs_of, extent_runs; by rewrite !length_map|lia|lia|by intros ? ? ?%list_elem_of_In|].
  cbn [mbind outcome_bind app] in *. rewrite failed_ok. rewrite (block_ok_index _ _ _ Hbok1). unfold ZX_DEBUG_ASSERT. rewrite Z.eqb_refl. cbn [mbind outcome_bind].
  rewrite (oc_info _ _ Hcalls) in Hrq1. fold base L in Hrq1. set (id1 := vmoid_ b) in *. set (id2 := next_vmoid bs) in *.
  destruct (stream_from_disk_ok bs2 rq1 _ it1 (stream_fuel a b) id2 m cn m (rest m (runs_of es)) Hrq1 Hbok1) as (it2 & rq2 & -> & Hrq2 & _);
    [rewrite (oc_info _ _ Hcalls); by apply runs_fit_rest|by rewrite (oc_info _ _ Hcalls)|lia|rewrite run_total_rest by (done || lia); lia|pose proof (length_rest m (runs_of es)) as Hlr; unfold runs_of, extent_runs in *; rewrite !length_map in *; lia|lia|lia|by intros o d [? _]%in_items_of|].
  cbn [mbind outcome_bind]. rewrite failed_ok. rewrite (oc_info _ _ Hcalls) in Hrq2. fold base in Hrq2.
  pose proof (run_blocks_rest 0 m (runs_of es) Hm Hpos) as Hdrop. replace (0 + Z.min m (run_total (runs_of es))) with m in Hdrop by lia. rewrite Hdrop in Hrq2. fold L in Hrq2.
  rewrite (take_ge (drop _ L)) in Hrq2 by (rewrite length_drop; unfold L; rewrite length_run_blocks by done; lia).
  destruct (Transact_ok k Hk disk bs2 rq2 _ (m + dn) (only_calls_quiet _ _ Hcalls Hq) Hrq2) as (n & read & -> & Hread); [unfold UINT32_MAX; lia| |].
  { intros i o d [[-> Ho]%in_items_of|[-> Ho]%in_items_of]%elem_of_app; apply (run_blocks_parts _ m _ Hpos ltac:(lia)) in Ho as [Ho ?]; pose proof (run_block_range _ _ Hpos Ho); cbn in *; lia. }
  cbn [mbind outcome_bind]. rewrite failed_ok. destruct (compressed_reads read id1 id2 tree contents cn Hes ltac:(lia) Hid Htree Hcont Hdisk Hread) as [E1 E2].
  unfold read_mapping. fold id1. rewrite Hmap. cbn [fmap option_fmap option_map fst snd mapping_ with_mapping Blob.inode_]. rewrite E1, E2, Hsize, Hdec, failed_ok. unfold zlen in Hdata. rewrite Hdata, Z.eqb_refl. cbn [negb].
  eexists. split; [|etransitivity; [exact Hcalls|etransitivity; [apply only_calls_advance|apply (only_calls_advance (advance bs2 _ n))]]]. do 4 f_equal.
  replace (Z.to_nat (m * 8192)) with (length tree) by (unfold zlen in Htree; lia). rewrite patch_zeros by (unfold zlen, dn, data_blocks; rewrite Hdata; clear; zlia). unfold zlen. by rewrite Hdata.
Qed.

End load.

(** A slice of the data, in the mapping. *)
Lemma slice_mapped tree data pad m off len : zlen tree = 8192 * m → 0 ≤ m → 0 ≤ off < zlen data → 0 ≤ len →
  take (Z.to_nat (Z.min (zlen data - off) len)) (drop (Z.to_nat (m * 8192 + off)) (tree ++ data ++ pad)) = slice data off len.
Proof.
  intros Ht Hm Hoff Hlen. unfold slice, zlen in *. rewrite drop_app_ge by lia. replace (Z.to_nat (m * 8192 + off) - _)%nat with (Z.to_nat off) by lia.
  rewrite drop_app_le by lia. rewrite take_app_le by (rewrite length_drop; lia).
  destruct (Z.le_gt_cases len (Z.of_nat (length data) - off)); [by rewrite Z.min_r by lia|]. rewrite Z.min_l by lia. rewrite !take_ge; [done| |]; rewrite length_drop; lia.
Qed.

(** ** A blob on the device *)

Section device.
Context {X : Type} `{BlobCompressor X} (hash : list Z → list Z) (Hhash : ∀ x, length (hash x) = 32%nat).

(** The mapping of a blob: the tree, the data, and zeros to the end of the last block. *)
Definition mapped (data : list Z) : list Z := merkle_tree hash data ++ data ++ zeros (8192 * data_blocks (zlen data) - zlen data).

(** How the blocks [L] of a blob hold the data. *)
Inductive stored_as (disk : list block) (base : Z) (L : list (Z * Z)) (flags blocks : Z) (data : list Z) : Prop :=
  | as_is : Z.land flags kBlobFlagLZ4Compressed = 0 → Z.land flags kBlobFlagZSTDCompressed = 0 → blocks = merkle_blocks (zlen data) + data_blocks (zlen data) →
      (∀ y, y ∈ L → disk !! Z.to_nat (snd y + base) = Some (block_at (mapped data) (fst y))) → stored_as disk base L flags blocks data
  | as_compressed contents cn : Z.land flags kBlobFlagLZ4Compressed = 0 → Z.land flags kBlobFlagZSTDCompressed ≠ 0 → blocks = merkle_blocks (zlen data) + cn →
      0 < cn ≤ data_blocks (zlen data) → 8192 * cn ≤ zlen contents →
      (∀ y, y ∈ L → disk !! Z.to_nat (snd y + base) = Some (if fst y <? merkle_blocks (zlen data) then block_at (merkle_tree hash data) (fst y) else block_at contents (fst y - merkle_blocks (zlen data)))) →
      ZSTDDecompress (zlen data) (take (Z.to_nat (8192 * cn)) contents) = (ZX_OK, data) → stored_as disk base L flags blocks data.

(** The blob [data] is on the device, and its inode is node [i0]. *)
Record device_blob (disk : list block) (a : Allocator) (base i0 : Z) (n : Inode) (data : list Z) : Prop := {
  db_node : 0 ≤ i0 ∧ a.(node_map_) !! Z.to_nat i0 = Some n;
  db_size : field_get blob_size n = zlen data;
  db_bound : 0 < zlen data < UINT32_MAX;
  db_stored : ∃ es, (∃ it, NewAllocatedExtentIterator a i0 = Returns it ∧ block_ok (NewBlockIterator it) 0 (runs_of es)) ∧
    field_get inode_extent_count n = Z.of_nat (length es) ∧ field_get block_count n = AllocatorBlocks.blocks es ∧ runs_fit base (runs_of es) ∧
    stored_as disk base (run_blocks 0 (runs_of es)) (field_get node_flags n) (AllocatorBlocks.blocks es) data;
}.

Lemma zlen_tree data : zlen data < UINT32_MAX → zlen (merkle_tree hash data) = 8192 * merkle_blocks (zlen data).
Proof using Hhash. intros Hd. unfold UINT32_MAX in Hd. rewrite <- merkle_blocks_size by lia. apply zlen_merkle; [done|lia]. Qed.

Lemma zlen_mapped data : 0 < zlen data < UINT32_MAX → zlen (mapped data) = 8192 * (merkle_blocks (zlen data) + data_blocks (zlen data)).
Proof using Hhash.
  intros Hd. unfold mapped. rewrite !zlen_app, zlen_tree by lia. rewrite zlen_zeros by (unfold data_blocks; clear -Hd; zlia). lia.
Qed.

Context (k : Z) (Hk : 0 < k ≤ 2 ^ 13) (disk : list block) (a : Allocator) (i0 : Z) (n : Inode) (data : list Z) (bs : Blobfs) (b : Blob X).
Context (Hq : quiet bs) (Hbase : 0 ≤ DataStartBlock bs.(info_)) (Hdb : device_blob disk a (DataStartBlock bs.(info_)) i0 n data).
Context (Hmap : b.(mapping_) = None) (Hindex : b.(map_index_) = i0) (Hinode : b.(Blob.inode_) = n) (Hkey : b.(key) = merkle_root hash data).
Context (HNk : (merkle_blocks (zlen data) + data_blocks (zlen data)) * k < UINT32_MAX).

Lemma zlen_root : zlen (merkle_root hash data) = 32.
Proof using Hhash Hdb. pose proof (db_bound _ _ _ _ _ _ Hdb) as Hd. unfold UINT32_MAX in Hd. apply zlen_merkle_root; [done|apply max_levels_enough; lia|lia]. Qed.

(** The mapping is filled, by one of the two ways. *)
Lemma fill_ok bs1 b1 h : only_calls bs bs1 → b1.(mapping_) = Some (h, replicate (Z.to_nat (8192 * (merkle_blocks (zlen data) + data_blocks (zlen data)))) 0) → b1.(map_index_) = i0 → b1.(Blob.inode_) = n →
  b1.(vmoid_) ≠ bs1.(next_vmoid) → let flags := field_get node_flags n in
  ∃ bs', (if negb (Z.land flags kBlobFlagLZ4Compressed =? 0) then InitCompressed k disk a bs1 b1 LZ4
          else if negb (Z.land flags kBlobFlagZSTDCompressed =? 0) then InitCompressed k disk a bs1 b1 ZSTD
          else InitUncompressed k disk a bs1 b1) = Returns (ZX_OK, bs', with_mapping b1 (Some (h, mapped data))) ∧ only_calls bs bs'.
Proof using All.
  intros Hc Hm1 Hi1 Hn1 Hid flags. destruct Hdb as [[Hi0 Hn] Hsize Hbound (es & Hit & Hec & Hbc & Hfit & Hst)]. assert (length es < stream_fuel a b1)%nat as Hfuel by (unfold stream_fuel; rewrite Hi1, Hn; cbn [from_option]; unfold id; rewrite Hec; lia).
  rewrite <- Hi1 in Hit. rewrite <- Hn1 in Hsize, Hbc. rewrite <- (oc_info _ _ Hc) in Hfit, Hst, Hbase. pose proof (only_calls_quiet _ _ Hc Hq) as Hq1. destruct Hst as [E1 E2 Hes Hdisk|contents cn E1 E2 Hes Hcn Hcont Hdisk Hdec]; unfold flags; rewrite E1; cbn [Z.eqb negb].
  - rewrite E2. cbn [Z.eqb negb]. destruct (InitUncompressed_ok k Hk disk a bs1 Hq1 Hbase b1 h es (zlen data) Hsize Hbound Hbc Hit Hfuel Hfit (mapped data) Hes HNk Hm1 (zlen_mapped _ Hbound) Hdisk) as (t & E).
    eexists. split; [exact E|]. etransitivity; [exact Hc|apply only_calls_advance].
  - ztest. cbn [negb]. destruct (InitCompressed_ok k Hk disk a bs1 Hq1 Hbase b1 h es (zlen data) Hsize Hbound Hbc Hit Hfuel Hfit (merkle_tree hash data) data contents cn Hes Hcn HNk Hm1 Hid (zlen_tree data ltac:(lia)) eq_refl Hcont Hdisk Hdec) as (bs' & E & Hc').
    exists bs'. split; [exact E|]. by etransitivity.
Qed.

Lemma InitVmos_ok : ∃ bs' h id, InitVmos hash true k disk a bs b = Returns (ZX_OK, bs', with_vmoid (with_mapping b (Some (h, mapped data))) id) ∧ only_calls bs bs'.
Proof using All.
  pose proof (db_size _ _ _ _ _ _ Hdb) as Hsize. pose proof (db_bound _ _ _ _ _ _ Hdb) as Hbound. pose proof zlen_root as Hz. set (m := merkle_blocks (zlen data)) in *. set (dn := data_blocks (zlen data)) in *.
  unfold InitVmos. rewrite Hmap. rewrite <- Hinode in Hsize. rewrite (MerkleTreeBlocks_ok _ _ Hsize) by lia. rewrite (BlobDataBlocks_ok _ _ Hsize) by lia. fold m dn. cbn [mbind outcome_bind].
  pose proof Hbound as Hb. unfold UINT32_MAX in Hb. pose proof (merkle_blocks_bound (zlen data) ltac:(unfold UINT32_MAX; lia)) as Hmb. fold m in Hmb. assert (0 < dn < 2 ^ 20) as Hdn by (unfold dn, data_blocks; clear -Hb; zlia).
  unwrap. ztest. unfold SIZE_MAX, kBlobfsBlockSize. ztest. unfold load. destruct (CreateAndMap_ok bs ((dn + m) * 8192) Hq) as (bs1 & -> & Hc1 & _ & Hv1).
  destruct (AttachVmo_ok bs1 (only_calls_quiet _ _ Hc1 Hq)) as (bs2 & -> & Hc2 & _ & Hv2). cbn [Blob.inode_ with_vmoid with_mapping]. rewrite Hinode.
  replace (Z.to_nat ((dn + m) * 8192)) with (Z.to_nat (8192 * (m + dn))) by lia. set (b1 := with_vmoid _ _).
  destruct (fill_ok bs2 b1 (next_handle bs)) as (bs3 & -> & Hc3); [by etransitivity|done|done|done|unfold b1; cbn; lia|]. cbn [mbind outcome_bind]. rewrite failed_ok.
  rewrite (Blob_Verify_genuine hash Hhash _ (next_handle bs) (merkle_tree hash data) data (zeros (8192 * dn - zlen data))); try done; [|apply zlen_tree; lia|cbn; by rewrite Hkey].
  cbn [mbind outcome_bind]. rewrite failed_ok. by eexists bs3, _, _.
Qed.

(** Any slice of a blob on the device. *)
Lemma ReadInternal_ok len off : GetState b = kBlobStateReadable → 0 ≤ off < 2 ^ 64 → 0 ≤ len < 2 ^ 64 →
  ∃ bs' b', ReadInternal hash true k disk a bs b len off = Returns (ZX_OK, slice data off len, bs', b') ∧ only_calls bs bs' ∧
    ∃ h, b'.(mapping_) = Some (h, mapped data).
Proof using All.
  intros Hst Hoff Hlen. pose proof (db_size _ _ _ _ _ _ Hdb) as Hsize. pose proof (db_bound _ _ _ _ _ _ Hdb) as Hbound. rewrite <- Hinode in Hsize. pose proof Hbound as Hb. unfold UINT32_MAX in Hb.
  unfold ReadInternal. rewrite Hst, Hsize. cbn [Z.eqb negb]. ztest. destruct InitVmos_ok as (bs1 & h & id & -> & Hc). cbn [mbind outcome_bind]. rewrite failed_ok. set (b1 := with_vmoid _ _).
  cbn [negb]. pose proof (zlen_mapped data Hbound) as Hzm. change (zlen (mapped data)) with (Z.of_nat (length (mapped data))) in Hzm. destruct (Z.leb_spec (zlen data) off) as [Hge|Hlt].
  { exists bs1, b1. split_and!; [|done|by exists h]. unfold slice. rewrite drop_ge by (unfold zlen in Hge; lia). by rewrite take_nil. }
  change (Blob.inode_ b1) with (Blob.inode_ b). rewrite (MerkleTreeBlocks_ok _ (zlen data) Hsize) by lia. cbn [mbind outcome_bind]. unfold call. rewrite (only_calls_quiet _ _ Hc Hq), failed_ok. cbn [mbind outcome_bind GetMerkle b1 mapping_ with_vmoid with_mapping].
  pose proof (merkle_blocks_bound (zlen data) ltac:(lia)) as Hmb. set (m := merkle_blocks (zlen data)) in *. unfold kBlobfsBlockSize. unwrap.
  replace (if zlen data - off <? len then zlen data - off else len) with (Z.min (zlen data - off) len) by (zcases; lia).
  assert (zlen data ≤ 8192 * data_blocks (zlen data)) by (unfold data_blocks; clear -Hb; zlia). ztest. eexists _, b1. split; [do 3 f_equal|split; [etransitivity; [exact Hc|by constructor]|by exists h]].
  unfold mapped. f_equal. apply slice_mapped; [apply zlen_tree; lia|lia..].
Qed.

End device.

(** ** A blob that was written is on the device *)

Lemma cut_fit base bc es : runs_fit base (runs_of es) → Forall (λ e, 0 ≤ e.(Reservers.extent_) < 2 ^ 64) es → 0 < bc → runs_fit base (runs_of (cut bc es)).
Proof.
  revert bc. induction es as [|e es IH]; intros bc Hf Hw Hbc; [done|]. apply Forall_cons in Hw as [Hw Hws]. apply Forall_cons in Hf as [He Hf]. cbn in He. cbn [cut]. destruct (Z.leb_spec (Length e.(Reservers.extent_)) bc).
  - constructor; [done|]. destruct (Z.eqb_spec (bc - Length e.(Reservers.extent_)) 0); [constructor|]. apply IH; [done|done|lia].
  - pose proof (Length_range e.(Reservers.extent_)). destruct (SetLength_ok e.(Reservers.extent_) bc Hw ltac:(lia)) as (_ & Hs & Hl). constructor; [|constructor]. cbn. rewrite Hs, Hl. lia.
Qed.

Section written.
Context {X : Type} `{BlobCompressor X} (hash : list Z → list Z) (Hhash : ∀ x, length (hash x) = 32%nat).

(** The recorded inode of a blob, when its blocks hold the data. *)
Lemma written_device a bs disk (b : Blob X) w ids D a' bs' disk' data : fs_ok bs a disk → ready a b w ids → stored_blob a bs disk b w ids D a' bs' disk' →
  field_get blob_size b.(Blob.inode_) = zlen data → 0 < zlen data < UINT32_MAX → let base := DataStartBlock bs.(info_) in let bc := field_get block_count b.(Blob.inode_) in
  stored_as hash disk' base (take (Z.to_nat bc) (run_blocks 0 (runs_of w.(w_extents)))) (recorded_flags b.(Blob.inode_)) bc data →
  ∃ n, device_blob hash disk' a' base b.(map_index_) n data ∧ PopulateInode (X := X) a' (NewBlob b.(key)) b.(map_index_) = Returns (with_inode (SetState (NewBlob b.(key)) kBlobStateReadable) b.(map_index_) n).
Proof.
  intros Hfs Hrd [_ Hcm _] Hsize Hbound base bc Hst. destruct Hrd as [_ _ Hres _ Hidx [Hlen _ _] Hbc]. pose proof (rs_extents _ _ _ Hres) as Hext. pose proof (eo_handles _ _ Hext) as Hh. pose proof (eo_words _ _ Hext) as Hw.
  pose proof (rs_few _ _ _ Hres) as Hfew. unfold kMaxBlobExtents in Hfew. pose proof (length_cut bc w.(w_extents)) as Hcl.
  destruct (cut_blocks _ _ bc 0 Hh Hw Hbc) as [Hcb Hcbl]. assert (length (set_root b.(Blob.inode_) b.(key)) = kNodeWords) as Hlr by (unfold set_root; cbn [foldl]; by rewrite !length_field_set).
  destruct (recorded_inode a _ ids _ bc a' _ Hcm Hidx Hlr) as (Hi0 & n & Hget & [Hnode Hcore Hflags Hec]).
  assert (∀ f, f ∈ core_fields → f ≠ node_flags → f = blob_size ∨ f = block_count → field_get f n = field_get f b.(Blob.inode_)) as Hf.
  { intros f Hf1 Hf2 [->| ->]; rewrite (Hcore _ Hf1 Hf2); by apply set_root_keeps. }
  exists n. split; [|unfold PopulateInode; cbn [NewBlob map_index_ Z.eqb ZX_DEBUG_ASSERT mbind outcome_bind]; rewrite Hget; done].
  constructor; [done|rewrite Hf; [done|by repeat constructor|done|by left]|done|]. exists (cut bc w.(w_extents)). split_and!; [|done| | |].
  - apply (recorded_iterator a _ ids _ bc a' _ Hcm Hidx Hlr). lia.
  - rewrite Hf; [by rewrite Hcbl|by repeat constructor|done|by right].
  - apply cut_fit; [|done|lia]. eapply extents_runs_fit; [done|]. pose proof (vo_end _ _ _ (fs_volume _ _ _ Hfs)). unfold base. lia.
  - rewrite Hcb, Hcbl, Hflags. unfold recorded_flags. rewrite set_root_keeps by done. exact Hst.
Qed.

End written.
