(* ===== verification/BlobRecord.v ===== *)
(** * What recording a blob adds

    Recording a blob adds one inode to the node map, which has the name of the blob; the inodes of other blobs stay as they are. *)

From S2P Require Import Prelude Bitmap RawBitmap RleBitmap IdAllocator Digest Format Superblock Reservers MerkleTree MerkleCreate.
From S2P Require Import Allocator AllocatorBlocks AllocatorNodes Iterators Populate.
From S2P Require Import Operations RingBuffer RingCopy WriteTxn Writeback Journal JournalReplay Blobfs Blob BlobWrite BlobMeta BlobCommit NodeWords BlobSync BlobData BlobFinish BlobRoundTrip.

(** The inode of a blob. *)
Definition is_blob (n : Inode) : bool := IsAllocated n && negb (IsExtentContainer n).

(** ** The name in an inode *)

Lemma le_bytes_word bs : Forall is_byte bs → le_bytes (length bs) (bytes_word bs) = bs.
Proof.
  induction 1 as [|x bs Hx _ IH]; [done|]. cbn [length le_bytes bytes_word foldr]. fold (bytes_word bs). unfold is_byte in Hx. f_equal; [clear -Hx; zlia|]. replace ((x + 256 * bytes_word bs) / 256) with (bytes_word bs) by (clear -Hx; zlia). done.
Qed.

Lemma bytes_word_range bs : Forall is_byte bs → 0 ≤ bytes_word bs < 256 ^ Z.of_nat (length bs).
Proof.
  induction 1 as [|x bs Hx _ IH]; [cbn; lia|]. cbn [length bytes_word foldr]. fold (bytes_word bs). unfold is_byte in Hx. rewrite Nat2Z.inj_succ, Z.pow_succ_r by lia. lia.
Qed.

Lemma get_set_root (n : Inode) d : length n = kNodeWords → zlen d = 32 → Forall is_byte d → get_root (set_root n d) = d.
Proof.
  intros Hn Hd Hb. unfold zlen in Hd. assert (∀ i, (i < 4)%nat → length (take 8 (drop (8 * i) d)) = 8%nat) as Hl by (intros i Hi; rewrite length_take, length_drop; lia).
  assert (∀ i, (i < 4)%nat → 0 ≤ bytes_word (take 8 (drop (8 * i) d)) < 2 ^ 64) as Hr.
  { intros i Hi. pose proof (bytes_word_range (take 8 (drop (8 * i) d)) ltac:(by apply Forall_take, Forall_drop)) as Hr. by rewrite (Hl i Hi) in Hr. }
  assert (∀ i, (i < 4)%nat → le_bytes 8 (bytes_word (take 8 (drop (8 * i) d))) = take 8 (drop (8 * i) d)) as Hw.
  { intros i Hi. rewrite <- (Hl i Hi) at 1. by apply le_bytes_word, Forall_take, Forall_drop. }
  assert (∀ i, (i < 4)%nat → field_get (merkle_root_hash i) (set_root n d) = bytes_word (take 8 (drop (8 * i) d))) as Hf.
  { intros i Hi. unfold set_root. cbn [foldl]. unfold Inode, kNodeWords in *. destruct i as [|[|[|[|]]]]; [..|lia]; repeat rewrite field_get_set_ne by reflexivity; apply field_get_set; try reflexivity; try apply Hr; rewrite ?length_field_set, ?Hn; cbn; lia. }
  unfold get_root. cbn [flat_map]. rewrite !Hf, !Hw, app_nil_r by lia. transitivity (take 8 d ++ take 8 (drop 8 d) ++ take 8 (drop 16 d) ++ take 8 (drop 24 d)); [done|]. rewrite !app_assoc.
  rewrite (take_take_drop d 8 8 : _ = take 16 d), (take_take_drop d 16 8 : _ = take 24 d), (take_take_drop d 24 8 : _ = take 32 d). apply take_ge. lia.
Qed.

(** ** The nodes of the blobs *)

(** The allocator and the superblock before and after a blob with the name [d] was recorded at node [i]. *)
Record registered (a : Allocator) (bs : Blobfs) (i : Z) (d : list Z) (a' : Allocator) (bs' : Blobfs) : Prop := {
  rg_info : ∃ x y, bs'.(info_) = with_alloc_counts bs.(info_) x y ∧ is_word x ∧ is_word y;
  rg_mapping : bs'.(info_mapping_) = bs'.(info_);
  rg_sizes : length a'.(block_map_).(data_) = length a.(block_map_).(data_) ∧ length a'.(node_map_) = length a.(node_map_);
  rg_new : ∃ n, a'.(node_map_) !! Z.to_nat i = Some n ∧ is_blob n = true ∧ get_root n = d;
  rg_others j m : j ≠ Z.to_nat i → is_blob m = true → a'.(node_map_) !! j = Some m ↔ a.(node_map_) !! j = Some m;
  rg_free m : a.(node_map_) !! Z.to_nat i = Some m → is_blob m = false;
}.

Lemma registered_info a bs bs1 i d a' bs' : bs1.(info_) = bs.(info_) → registered a bs1 i d a' bs' → registered a bs i d a' bs'.
Proof. intros E [Hi ? ? ? ? ?]. rewrite E in Hi. by constructor. Qed.

Section recorded.
Context {X : Type} `{BlobCompressor X} (a : Allocator) (bs : Blobfs) (disk : list block) (b : Blob X) (w : WritebackInfo X) (ids : list Z) (D : list (Z * Z * Z)) (a' : Allocator) (bs' : Blobfs) (disk' : list block).
Context (Hrd : ready a b w ids) (Hsb : stored_blob a bs disk b w ids D a' bs' disk').

Lemma recorded_others j m : j ≠ Z.to_nat b.(map_index_) → is_blob m = true → a'.(node_map_) !! j = Some m ↔ a.(node_map_) !! j = Some m.
Proof using Hrd Hsb.
  intros Hj Hm. destruct (sb_committed _ _ _ _ _ _ _ _ _ _ Hsb) as [_ _ _ _ _ _ _ _ _ _ [Hl _ _ Hfr] _]. set (used := take _ ids) in *.
  destruct (decide (Exists (λ c, Z.to_nat c = j) used)) as [He|He]; [|rewrite Hfr; [done|]; intros c Hc <-; apply He, Exists_exists; by exists c].
  apply Exists_exists in He as (c & Hc & <-). unfold is_blob in Hm. apply andb_true_iff in Hm as [Hm1 Hm2]. apply list_elem_of_lookup in Hc as [q Hq]. destruct (Hl q c Hq) as (_ & n & Hn & [_ Hh] & _).
  pose proof (rd_index _ _ _ _ Hrd) as Hi. apply lookup_take_Some in Hq as [Hq _]. destruct q as [|q]; [congruence|]. split; intros E.
  - rewrite Hn in E. injection E as <-. destruct Hh as (_ & Hx & _). by rewrite Hx in Hm2.
  - destruct (rs_held _ _ _ (rd_reserved _ _ _ _ Hrd) c) as (_ & _ & n0 & En0 & _ & Hf); [by eapply list_elem_of_lookup_2|]. congruence.
Qed.

Lemma stored_registered : zlen b.(key) = 32 → Forall is_byte b.(key) → registered a bs b.(map_index_) b.(key) a' bs'.
Proof using Hrd Hsb.
  intros Hk Hb. pose proof recorded_others as Hothers. pose proof (sb_committed _ _ _ _ _ _ _ _ _ _ Hsb) as Hcm. pose proof (rd_index _ _ _ _ Hrd) as Hi. pose proof (bi_length _ (rd_inode _ _ _ _ Hrd)) as Hl.
  destruct (sb_bs _ _ _ _ _ _ _ _ _ _ Hsb) as (new & ws & n & -> & _). destruct (rs_held _ _ _ (rd_reserved _ _ _ _ Hrd) b.(map_index_)) as (Hi0 & _ & n0 & En0 & _ & Hf0); [by eapply list_elem_of_lookup_2|].
  constructor; [|done|split; apply Hcm| |exact Hothers|].
  - do 2 eexists. split; [done|]. split; apply u64_range.
  - assert (length (set_root b.(Blob.inode_) b.(key)) = kNodeWords) as Hlr by (unfold set_root; cbn [foldl]; by rewrite !length_field_set).
    destruct (recorded_inode a _ ids _ _ a' _ Hcm Hi Hlr) as (_ & x & _ & [Hx Hcore Hflags _]). exists x. split; [done|]. split.
    + unfold is_blob, IsAllocated, IsExtentContainer. rewrite Hflags. unfold recorded_flags. rewrite !Z.land_lor_distr_l, <- !Z.land_assoc.
      change (Z.land (Z.lor kBlobFlagZSTDCompressed kBlobFlagLZ4Compressed) kBlobFlagAllocated) with 0. change (Z.land (Z.lor kBlobFlagZSTDCompressed kBlobFlagLZ4Compressed) kBlobFlagExtentContainer) with 0. by rewrite Z.land_0_r.
    + transitivity (get_root (set_root b.(Blob.inode_) b.(key))); [|by apply get_set_root]. unfold get_root. cbn [flat_map]. by rewrite !Hcore by (by repeat constructor).
  - intros m Em. rewrite En0 in Em. injection Em as <-. unfold is_blob. by rewrite Hf0.
Qed.
End recorded.
