(* ===== verification/BlobLife.v ===== *)
(** * The life of a blob: space is allocated, data is appended, the blob is read *)

From S2P Require Import Prelude Bitmap RawBitmap RleBitmap IdAllocator Digest Format Superblock Reservers MerkleTree MerkleCreate MerkleVerify.
From S2P Require Import Allocator AllocatorBlocks AllocatorNodes Iterators Streaming Populate.
From S2P Require Import Operations RingBuffer RingCopy WriteTxn Writeback Journal JournalReplay JournalRecovery Blobfs Blob BlobWrite BlobMeta BlobCommit NodeWords BlobSync BlobData BlobFinish BlobRead BlobRoundTrip BlobRecord.

(** ** What blobs rely on from the compressor

    [fed size x d]: the compressor was created for [size] bytes and has been given [d].  [finished x d]: it was ended
    after [d].  Its VMO is large enough for the data, and what it holds can be decompressed, whatever comes after it. *)
Class BlobCompressorLaws (X : Type) `{BlobCompressor X} := {
  fed : Z → X → list Z → Prop;
  finished : X → list Z → Prop;
  new_fed size x : NewCompressor size = Some x → fed size x [];
  update_fed size x d d' : fed size x d → zlen (d ++ d') ≤ size → ∃ x', Compressor_Update x d' = (ZX_OK, x') ∧ fed size x' (d ++ d');
  end_finished size x d : fed size x d → ∃ x', Compressor_End x = (ZX_OK, x') ∧ finished x' d;
  finished_size x d : finished x d → d ≠ [] → 0 < Compressor_Size x;
  finished_room x d : finished x d → zlen d ≤ zlen (Contents x);
  finished_decompress x d rest : finished x d → ZSTDDecompress (zlen d) (take (Z.to_nat (Compressor_Size x)) (Contents x) ++ rest) = (ZX_OK, d);
}.

Section life.
Context {X : Type} `{BlobCompressorLaws X} (hash : list Z → list Z) (Hhash : ∀ x, length (hash x) = 32%nat).

Lemma vmos_compressor h a0 bs0 (b0 : Blob X) bytes w0 c x : b0.(mapping_) = Some (h, bytes) → b0.(write_info_) = Some w0 → w0.(compressor) = Some (c, x) → c ≠ h → blob_vmos a0 bs0 b0 c = Contents x.
Proof. unfold blob_vmos. intros -> -> Ec ?. destruct w0. cbn in Ec. rewrite Ec. by ztest. Qed.

(** What is known of the compressor, if it is still there: its VMO is not that of the blob, and the blob is large enough. *)
Definition compressor_ok (h size : Z) (Q : X → Prop) (w : WritebackInfo X) : Prop := match w.(compressor) with
  | None => True
  | Some (c, x) => c ≠ ZX_HANDLE_INVALID ∧ c ≠ h ∧ kCompressionMinBytesSaved ≤ size ∧ Q x
  end.

Lemma compressor_ok_mono h size (Q Q' : X → Prop) w : (∀ x, Q x → Q' x) → compressor_ok h size Q w → compressor_ok h size Q' w.
Proof. unfold compressor_ok. destruct w.(compressor) as [[c x]|]; naive_solver. Qed.

Lemma compression_step_ok n w step h size (Q : X → Prop) : field_get blob_size n = size → size < 2 ^ 64 → compressor_ok h size (λ x, ∃ x', step x = (ZX_OK, x') ∧ Q x') w →
  ∃ c', compression_step n w step = Returns (ZX_OK, with_compressor w c') ∧ compressor_ok h size (λ x, Q x ∧ Compressor_Size x + kCompressionMinBytesSaved ≤ size) (with_compressor w c').
Proof.
  intros Hs Hmax Hw. unfold compression_step, compressor_ok in *. destruct w.(compressor) as [[c x]|] eqn:Ec; [|exists None; by destruct w; cbn in *; subst].
  destruct Hw as (Hc & Hh & Hmin & x' & -> & HQ). rewrite failed_ok. unfold ConsiderCompressionAbort. cbn [compressor with_compressor mbind outcome_bind].
  unfold kCompressionMinBytesSaved, kBlobfsBlockSize in *. rewrite Hs. unwrap. case (Z.ltb_spec (size - 8 * 8192) (Compressor_Size x')) as [?|?].
  - by exists None.
  - exists (Some (c, x')). split_and!; try done. lia.
Qed.

(** The blob is readable, and on the device once the works are written: a blob that is populated from its node finds [data]. *)
Definition durable (a : Allocator) (bs : Blobfs) (disk : list block) (b : Blob X) (data : list Z) (a' : Allocator) (bs' : Blobfs) (b' : Blob X) : Prop :=
  ∃ new ws, bs'.(accepted) = bs.(accepted) ++ works new ws ∧ quiet bs' ∧ DataStartBlock bs'.(info_) = DataStartBlock bs.(info_) ∧
    GetState b' = kBlobStateReadable ∧ b'.(write_info_) = None ∧ field_get blob_size b'.(Blob.inode_) = zlen data ∧ (Forall is_byte b.(key) → registered a bs b.(map_index_) b.(key) a' bs') ∧
    let disk' := disk_after disk (works new ws) in fs_ok bs' a' disk' ∧
    ∃ n, device_blob hash disk' a' (DataStartBlock bs.(info_)) b.(map_index_) n data ∧
      PopulateInode (X := X) a' (NewBlob b.(key)) b.(map_index_) = Returns (with_inode (SetState (NewBlob b.(key)) kBlobStateReadable) b.(map_index_) n).

Definition commits (a : Allocator) (bs : Blobfs) (disk : list block) (b : Blob X) (data : list Z) (r : outcome (zx_status * Allocator * Blobfs * Blob X)) : Prop :=
  ∃ a' bs' b', r = Returns (ZX_OK, a', bs', b') ∧ durable a bs disk b data a' bs' b'.

(** ** The two ways in which the data is stored *)

Section stored.
Context (a : Allocator) (bs : Blobfs) (disk : list block) (b : Blob X) (w w' : WritebackInfo X) (ids : list Z) (h : Z) (tree data pad : list Z).
Context (Hfs : fs_ok bs a disk) (Hqs : queues_ok bs (metadata_cost w)) (Hrd : ready a b w ids) (Hco : contents_ok b h tree data pad).
Context (Hend : end_compression b.(Blob.inode_) w = Returns (ZX_OK, w')) (Hgood : b.(key) = merkle_root hash data).

Let base := DataStartBlock bs.(info_).

Lemma SetState_state (b0 : Blob X) s : Z.land s kBlobStateMask = s → GetState (SetState b0 s) = s.
Proof using.
  intros Hs. unfold GetState, SetState, kBlobStateMask, u32 in *. cbn [flags_ with_flags]. rewrite Z.land_lor_distr_l, Hs, <- Z.land_assoc.
  change (Z.land (Z.lnot 0xff mod 2 ^ 32) 0xff) with 0. by rewrite Z.land_0_r, Z.lor_0_l.
Qed.

Lemma stored_commits b2 D a' bs' disk' r : r = Returns (ZX_OK, a', bs', made_readable b2) → ready a b2 w' ids → b2.(map_index_) = b.(map_index_) → b2.(key) = b.(key) → field_get blob_size b2.(Blob.inode_) = zlen data →
  stored_blob a bs disk b2 w' ids D a' bs' disk' →
  stored_as hash disk' base (take (Z.to_nat (field_get block_count b2.(Blob.inode_))) (run_blocks 0 (runs_of w'.(w_extents)))) (recorded_flags b2.(Blob.inode_)) (field_get block_count b2.(Blob.inode_)) data →
  commits a bs disk b data r.
Proof using All.
  intros -> Hrd2 Hi2 Hk2 Hs2 Hsb Hst. destruct (written_device hash a bs disk b2 w' ids D a' bs' disk' data Hfs Hrd2 Hsb Hs2 (co_bound _ _ _ _ _ Hco) Hst) as (n & Hdb & Hpop).
  pose proof (stored_registered a bs disk b2 w' ids D a' bs' disk' Hrd2 Hsb) as Hrg. rewrite Hi2, Hk2 in Hrg. destruct Hsb as [(new & ws & t & -> & -> & _ & _) _ Hfs']. eexists a', _, (made_readable b2). split; [done|]. exists new, ws. split_and!; try done; [by destruct Hqs|by apply SetState_state|by rewrite <- Hs2; apply set_root_keeps|by apply Hrg, Hco|].
  cbn zeta. split; [done|]. exists n. rewrite <- Hi2, <- Hk2. done.
Qed.

Lemma plain_commits : w'.(compressor) = None → commits a bs disk b data (finish_write hash true a bs b w NewWriteTxn).
Proof using All.
  intros Ec. pose proof (finish_setup hash Hhash a bs disk b w w' ids h tree data pad Hfs Hqs Hrd Hco Hend) as (Hres & _ & _ & _ & _ & _ & Hrd'). pose proof Hco as [_ _ Hsize _ _ Hpad _ Hfl Hbc].
  destruct (finish_write_plain hash Hhash a bs disk b w w' ids h tree data pad Hfs Hqs Hrd Hco Hend Hgood Ec) as (a' & bs' & disk' & E & Hsb).
  eapply stored_commits; [exact E|by destruct Hrd'; constructor|done|done|done|exact Hsb|]. change (Blob.inode_ (completed _ _ _ _ _ _)) with (Blob.inode_ b). rewrite Hbc.
  apply as_is; [by unfold recorded_flags; rewrite Hfl|by unfold recorded_flags; rewrite Hfl|done|]. intros y Hy.
  rewrite (disk_data a bs disk _ w' ids _ a' bs' disk' _ Hfs (rs_extents _ _ _ Hres) Hsb (from_runs_plain _ _ _ _) h (fst y) (snd y + base)).
  - cbn [blob_vmos completed with_tree with_mapping mapping_]. rewrite Z.eqb_refl. unfold mapped. by rewrite Hpad.
  - apply in_items_of. split; [done|]. rewrite Z.add_0_r. unfold base. replace (snd y + _ - _) with (snd y) by lia. by destruct y.
Qed.

Lemma compressed_commits c x : w'.(compressor) = Some (c, x) → c ≠ ZX_HANDLE_INVALID → c ≠ h → finished x data → Compressor_Size x + kCompressionMinBytesSaved ≤ zlen data →
  commits a bs disk b data (finish_write hash true a bs b w NewWriteTxn).
Proof using All.
  intros Ec Hc0 Hch Hfin Hsave. pose proof (finish_setup hash Hhash a bs disk b w w' ids h tree data pad Hfs Hqs Hrd Hco Hend) as (Hres & _ & _ & _ & Htot & _ & _). pose proof Hco as [_ _ Hsize Hbound _ _ _ Hfl Hbc].
  set (m := merkle_blocks (zlen data)) in *. set (dn := data_blocks (zlen data)) in *. set (cn := data_blocks (Compressor_Size x)).
  assert (0 < Compressor_Size x) as Hs0 by (apply (finished_size x data Hfin); intros ->; unfold zlen in Hbound; cbn in Hbound; lia).
  assert (0 < cn < dn ∧ 8192 * cn ≤ zlen data ∧ Compressor_Size x ≤ 8192 * cn) as (Hcn & Hroom & Hcs) by (unfold cn, dn, data_blocks, kCompressionMinBytesSaved, kBlobfsBlockSize in *; clear -Hs0 Hsave; zlia).
  destruct (finish_write_compressed hash Hhash a bs disk b w w' ids h tree data pad Hfs Hqs Hrd Hco Hend c x Hgood Ec Hc0 Hch Hs0 Hsave) as (a' & bs' & disk' & E & Hsb). cbn zeta in E, Hsb. fold cn in E, Hsb.
  pose proof (merkle_blocks_bound (zlen data) ltac:(lia)) as Hmb. fold m in Hmb.
  pose proof (compressed_ready hash Hhash a bs disk b w w' ids h tree data pad Hfs Hqs Hrd Hco Hend cn ltac:(fold m dn; lia)) as Hrd2.
  eapply stored_commits; [exact E|exact Hrd2|done|done|cbn [Blob.inode_ with_inode]; by rewrite compressed_inode_get by done|exact Hsb|]. cbn [Blob.inode_ with_inode].
  pose proof (bi_length _ (rd_inode _ _ _ _ Hrd)) as Hl. unfold UINT32_MAX in Hbound. pose proof Hbc as Hbc'. pose proof (field_get_range block_count b.(Blob.inode_) ltac:(done)) as Hr. cbn in Hr. rewrite Hbc in Hr.
  rewrite compressed_inode_blocks by (done || (fold m; lia)). fold m. unfold recorded_flags. rewrite compressed_inode_flags, Hfl by done.
  apply (as_compressed hash _ _ _ _ _ _ (Contents x) cn); [done|done|done|lia|pose proof (finished_room x data Hfin); lia| |].
  - intros y Hy. rewrite (Z2Nat.inj_add m cn), <- take_take_drop in Hy by lia. pose proof (runs_nonneg w'.(w_extents)) as Hrs. pose proof (run_total_of w'.(w_extents)) as Hto.
    assert (0 ≤ m ≤ run_total (runs_of w'.(w_extents))) as Hmt by (fold m dn in Htot; lia).
    pose proof (disk_data a bs disk _ w' ids _ a' bs' disk' _ Hfs (rs_extents _ _ _ Hres) Hsb (from_runs_compressed _ _ _ _ _ _ Hmt Hrs)) as Hdd.
    apply elem_of_app in Hy as [Hy|Hy].
    + pose proof (run_block_offset _ _ _ _ Hrs Hy) as Ho. fold m. ztest. rewrite (Hdd h (fst y) (snd y + base)).
      * cbn [blob_vmos completed with_tree with_mapping mapping_ with_inode]. rewrite Z.eqb_refl. rewrite block_at_app; [done|lia|]. rewrite zlen_tree by (done || unfold UINT32_MAX; lia). fold m. lia.
      * apply elem_of_app; left. apply in_items_of. split; [done|]. fold m. rewrite Z.add_0_r. unfold base. replace (snd y + _ - _) with (snd y) by lia. by destruct y.
    + pose proof Hy as Hy'. rewrite <- (run_blocks_rest 0 m) in Hy' by (done || lia). pose proof (run_block_offset _ _ _ _ (rest_pos m _ Hrs) Hy') as Ho. fold m. ztest.
      rewrite (Hdd c (fst y - m) (snd y + base)).
      * by erewrite vmos_compressor.
      * apply elem_of_app; right. apply in_items_of. split; [done|]. fold m. rewrite Z.sub_add. unfold base. replace (snd y + _ - _) with (snd y) by lia. by destruct y.
  - replace (take (Z.to_nat (8192 * cn)) (Contents x)) with (take (Z.to_nat (Compressor_Size x)) (Contents x) ++ take (Z.to_nat (8192 * cn) - Z.to_nat (Compressor_Size x)) (drop (Z.to_nat (Compressor_Size x)) (Contents x))).
    + by apply finished_decompress.
    + rewrite take_take_drop. f_equal. lia.
Qed.

Lemma finish_commits : compressor_ok h (zlen data) (λ x, finished x data ∧ Compressor_Size x + kCompressionMinBytesSaved ≤ zlen data) w' → commits a bs disk b data (finish_write hash true a bs b w NewWriteTxn).
Proof using All.
  unfold compressor_ok. destruct w'.(compressor) as [[c x]|] eqn:Ec; [|intros _; by apply plain_commits]. intros (? & ? & _ & ? & ?). by eapply compressed_commits.
Qed.
End stored.

Lemma fs_ok_calls bs bs' a disk : only_calls bs bs' → fs_ok bs a disk → fs_ok bs' a disk.
Proof.
  intros [Ei Em _ _ _ _] [Hv Hm Hn Hs Hd]. destruct bs, bs'. cbn in Ei, Em. subst. by constructor.
Qed.

Lemma queues_ok_calls bs bs' cost : only_calls bs bs' → queues_ok bs cost → queues_ok bs' cost.
Proof.
  intros Hc [Hq Hw Hj He]. constructor; [by eapply only_calls_quiet|by rewrite (oc_writeback _ _ Hc)|by rewrite (oc_journal _ _ Hc)|done].
Qed.

Lemma commits_calls a bs bs' disk (b b' : Blob X) data r : only_calls bs bs' → b'.(map_index_) = b.(map_index_) → b'.(key) = b.(key) → commits a bs' disk b' data r → commits a bs disk b data r.
Proof.
  intros Hc Hi Hk. unfold commits, durable. rewrite (oc_info _ _ Hc), (oc_accepted _ _ Hc), Hi, Hk. intros (a' & bs1 & b1 & E & new & ws & H1 & H2 & H3 & H4 & H5 & H6 & H7 & H8).
  exists a', bs1, b1. split; [done|]. exists new, ws. do 6 (split; [done|]). split; [|done]. intros Hb. by apply (registered_info _ bs bs'); [apply (oc_info _ _ Hc)|apply H7].
Qed.

(** ** A blob that is being written *)

(** The reservations are the same. *)
Definition same_handles (w w' : WritebackInfo X) : Prop := w'.(w_extents) = w.(w_extents) ∧ w'.(w_nodes) = w.(w_nodes).

Lemma same_handles_trans w1 w2 w3 : same_handles w1 w2 → same_handles w2 w3 → same_handles w1 w3.
Proof. intros [? ?] [? ?]. split; by etransitivity. Qed.

Lemma same_handles_queues bs w w' : same_handles w w' → queues_ok bs (metadata_cost w) → queues_ok bs (metadata_cost w').
Proof. unfold metadata_cost. by intros [-> ->]. Qed.

(** The blob failed, and has its reservations still. *)
Definition rejected (w : WritebackInfo X) (b : Blob X) : Prop := GetState b = kBlobStateError ∧ b.(cloned_) = false ∧ ∃ w', b.(write_info_) = Some w' ∧ same_handles w w'.

(** The first [zlen done] bytes of the data were written. *)
Record filling (a : Allocator) (b : Blob X) (w : WritebackInfo X) (ids : list Z) (h size : Z) (done : list Z) : Prop := {
  fl_ready : ready a b w ids;
  fl_map : b.(mapping_) = Some (h, zeros (8192 * merkle_blocks size) ++ done ++ zeros (8192 * data_blocks size - zlen done));
  fl_handle : h ≠ ZX_HANDLE_INVALID;
  fl_size : field_get blob_size b.(Blob.inode_) = size;
  fl_bound : 0 < size < UINT32_MAX;
  fl_written : w.(bytes_written) = zlen done;
  fl_done : zlen done ≤ size;
  fl_key : zlen b.(key) = 32;
  fl_flags : field_get node_flags b.(Blob.inode_) = 0;
  fl_blocks : field_get block_count b.(Blob.inode_) = merkle_blocks size + data_blocks size;
  fl_cloned : b.(cloned_) = false;
  fl_compressor : compressor_ok h size (λ x, fed size x done) w;
}.

Lemma filling_contents a b w ids h size data : filling a b w ids h size data → zlen data = size → contents_ok b h (zeros (8192 * merkle_blocks size)) data (zeros (8192 * data_blocks size - size)).
Proof.
  intros Hf E. rewrite <- E in *. destruct Hf. constructor; try done. rewrite zlen_zeros; [done|]. unfold UINT32_MAX in *. pose proof (merkle_blocks_nonneg (zlen data) ltac:(lia)). lia.
Qed.

Lemma vmo_write_ok a bs b w ids h size done d : filling a b w ids h size done → quiet bs → zlen done + zlen d ≤ size →
  vmo_write bs b d (w.(bytes_written) ⊞ u32 (merkle_blocks size * kBlobfsBlockSize)) = (ZX_OK, advance bs bs.(accepted) (S bs.(time)),
    with_mapping b (Some (h, zeros (8192 * merkle_blocks size) ++ (done ++ d) ++ zeros (8192 * data_blocks size - zlen (done ++ d))))).
Proof.
  intros [_ Hmap _ _ Hb Hw _ _ _ _ _ _] Hq Hd. unfold UINT32_MAX in Hb. pose proof (zlen_nonneg done). pose proof (zlen_nonneg d).
  pose proof (merkle_blocks_bound size ltac:(unfold UINT32_MAX; lia)) as Hm. set (m := merkle_blocks size) in *.
  assert (size ≤ 8192 * data_blocks size) as Hdn by (unfold data_blocks; clear; zlia).
  unfold vmo_write, call. rewrite Hq, failed_ok, Hmap, Hw. unfold kBlobfsBlockSize. unwrap.
  assert (zlen (zeros (8192 * m)) = 8192 * m) as Hz by (apply zlen_zeros; lia).
  assert (zlen (zeros (8192 * data_blocks size - zlen done)) = 8192 * data_blocks size - zlen done) as Hz2 by (apply zlen_zeros; lia).
  rewrite !app_assoc, <- (app_assoc _ done d). destruct (Z.leb_spec (zlen done + m * 8192 + Z.of_nat (length d)) (Z.of_nat (length ((zeros (8192 * m) ++ done) ++ zeros (8192 * data_blocks size - zlen done))))) as [_|Hbad]; [|exfalso; revert Hbad; rewrite !length_app; unfold zlen in *; lia].
  do 3 f_equal. replace (Z.to_nat (zlen done + m * 8192)) with (length (zeros (8192 * m) ++ done)) by (rewrite length_app; unfold zlen in *; lia).
  rewrite patch_zeros by lia. rewrite <- !app_assoc, zlen_app. by rewrite Z.sub_add_distr.
Qed.

Lemma filling_step a b w ids h size done d c' m : filling a b w ids h size done → zlen (done ++ d) ≤ size →
  m = zeros (8192 * merkle_blocks size) ++ (done ++ d) ++ zeros (8192 * data_blocks size - zlen (done ++ d)) →
  let w1 := with_compressor (with_bytes_written w (zlen (done ++ d))) c' in
  compressor_ok h size (λ x, fed size x (done ++ d)) w1 → filling a (with_write_info (with_mapping b (Some (h, m))) (Some w1)) w1 ids h size (done ++ d).
Proof.
  intros [[] ? ? ? ? ? ? ? ? ? ? ?] Hd -> w1 Hc. by constructor.
Qed.

Lemma write_step a bs b w ids h size done piece cap : filling a b w ids h size done → quiet bs → bs.(writeback_) = Some cap → piece ≠ [] →
  let d := take (Z.to_nat (size - zlen done)) piece in let bs1 := advance bs bs.(accepted) (S bs.(time)) in
  ∃ b1 w1, filling a b1 w1 ids h size (done ++ d) ∧ b1.(key) = b.(key) ∧ b1.(map_index_) = b.(map_index_) ∧ same_handles w w1 ∧
    WriteInternal hash true a bs b piece =
      if zlen (done ++ d) <? size then Returns (ZX_OK, zlen d, a, bs1, b1)
      else r ← finish_write hash true a bs1 b1 w1 NewWriteTxn;
           let '(status, a, bs, b) := r in Returns (status, zlen d, a, bs, if failed status then SetState b kBlobStateError else b).
Proof.
  intros Hf Hq Hcap Hne d bs1. pose proof Hf as [[Hst Hin _ _ _ _ _] _ _ Hs Hb Hw Hd _ _ _ _ Hc]. unfold UINT32_MAX in Hb. pose proof (zlen_nonneg done). pose proof (zlen_nonneg d).
  assert (zlen d = Z.min (zlen piece) (size - zlen done)) as Hzd by (unfold d, zlen in *; rewrite length_take; lia).
  assert (zlen (done ++ d) ≤ size) as Hle by (rewrite zlen_app; lia).
  destruct (compression_step_ok b.(Blob.inode_) (with_bytes_written w (zlen (done ++ d))) (λ x, Compressor_Update x d) h size (λ x, fed size x (done ++ d)) Hs ltac:(lia)) as (c' & Ec & Hc').
  { unfold compressor_ok in *. cbn [compressor with_bytes_written]. destruct w.(compressor) as [[c x]|]; [|done]. destruct Hc as (? & ? & ? & Hfed). split_and!; try done. by apply update_fed. }
  do 2 eexists. split; [eapply filling_step; [exact Hf|done|reflexivity|]|].
  { eapply compressor_ok_mono; [|exact Hc']. by intros x []. }
  split_and!; [done|done|done|]. unfold WriteInternal. change (Z.of_nat (length piece)) with (zlen piece). destruct piece as [|y piece]; [done|]. set (pc := y :: piece) in *.
  assert (0 < zlen pc) by (unfold zlen, pc; cbn; lia). ztest. rewrite (MerkleTreeBlocks_ok b.(Blob.inode_) size) by (done || unfold UINT32_MAX; lia).
  cbn [mbind outcome_bind]. rewrite Hin, Hs.
  assert (zlen pc `min` (size ⊟ w.(bytes_written)) = zlen d) as -> by (rewrite Hw; unwrap; lia).
  assert (take (Z.to_nat (zlen d)) pc = d) as Hpc.
  { rewrite Hzd. unfold d. destruct (Z.le_ge_cases (zlen pc) (size - zlen done)); [|by rewrite Z.min_r by lia]. by rewrite Z.min_l, !take_ge by (unfold zlen in *; lia). }
  rewrite Hpc, (vmo_write_ok a bs b w ids h size done d) by (done || rewrite zlen_app in Hle; lia). rewrite failed_ok.
  assert (w.(bytes_written) ⊞ zlen d = zlen (done ++ d)) as -> by (rewrite Hw, zlen_app in *; unwrap; lia).
  change (Blob.inode_ (with_mapping b ?m)) with b.(Blob.inode_). unfold compress_data. rewrite Ec. cbn [mbind outcome_bind]. rewrite failed_ok.
  change (bytes_written (with_compressor (with_bytes_written w ?z) c')) with z. unfold CreateWork, call. cbn [advance writeback_]. rewrite Hcap. done.
Qed.

(** ** The last piece *)

Section last_piece.
Context (a : Allocator) (bs : Blobfs) (disk : list block) (b : Blob X) (w : WritebackInfo X) (ids : list Z) (h : Z) (data : list Z).
Context (Hfs : fs_ok bs a disk) (Hqs : queues_ok bs (metadata_cost w)) (Hfl : filling a b w ids h (zlen data) data).

Lemma filling_end : ∃ w', end_compression b.(Blob.inode_) w = Returns (ZX_OK, w') ∧
  compressor_ok h (zlen data) (λ x, finished x data ∧ Compressor_Size x + kCompressionMinBytesSaved ≤ zlen data) w'.
Proof using Hfl.
  pose proof (fl_bound _ _ _ _ _ _ _ Hfl) as Hb. unfold UINT32_MAX in Hb.
  edestruct (compression_step_ok b.(Blob.inode_) w Compressor_End h (zlen data) (λ x, finished x data)) as (c' & Ec & Hc'); [by destruct Hfl|lia| |by eexists].
  eapply compressor_ok_mono; [|exact (fl_compressor _ _ _ _ _ _ _ Hfl)]. intros x Hx. by apply end_finished in Hx.
Qed.

Lemma complete_good : b.(key) = merkle_root hash data → commits a bs disk b data (finish_write hash true a bs b w NewWriteTxn).
Proof using All.
  intros Hk. destruct filling_end as (w' & He & Hc). by eapply finish_commits; [exact Hfs|exact Hqs|by destruct Hfl|exact (filling_contents _ _ _ _ _ _ _ Hfl eq_refl)|exact He|..].
Qed.

Lemma complete_bad : b.(key) ≠ merkle_root hash data → ∃ b', finish_write hash true a bs b w NewWriteTxn = Returns (ZX_ERR_IO_DATA_INTEGRITY, a, bs, b') ∧ b'.(Blob.inode_) = b.(Blob.inode_) ∧ b'.(cloned_) = false ∧
  ∃ w', b'.(write_info_) = Some w' ∧ same_handles w w'.
Proof using All.
  intros Hk. destruct filling_end as (w' & He & Hc). destruct (end_compression_same _ _ _ _ He) as (? & ? & _). eexists. split; [by eapply finish_write_reject; [done|exact Hfs|exact Hqs|by destruct Hfl|exact (filling_contents _ _ _ _ _ _ _ Hfl eq_refl)|exact He|]|]. split_and!; [done|by destruct Hfl|by exists w'].
Qed.
End last_piece.

(** ** Appending *)

Lemma Append_more a bs b w ids h size done piece : filling a b w ids h size done → queues_ok bs (metadata_cost w) → zlen done + zlen piece < size →
  ∃ bs' b' w', Append hash true a bs b piece = Returns (ZX_OK, zlen (done ++ piece), a, bs', b') ∧ only_calls bs bs' ∧ filling a b' w' ids h size (done ++ piece) ∧
    b'.(key) = b.(key) ∧ b'.(map_index_) = b.(map_index_) ∧ same_handles w w'.
Proof.
  intros Hf [Hq (cap & Hcap & _) _ _] Hlt. unfold Append. destruct (decide (piece = [])) as [->|Hne].
  - rewrite app_nil_r. pose proof Hf as [[Hst Hin _ _ _ _ _] _ _ _ _ Hw _ _ _ _ _ _]. exists bs, b, w. split; [|by split_and!]. change (WriteInternal hash true a bs b []) with (Returns (ZX_OK, 0, a, bs, b)). cbn [mbind outcome_bind].
    by rewrite Hst, Hin, Hw.
  - destruct (write_step a bs b w ids h size done piece cap Hf Hq Hcap Hne) as (b1 & w1 & Hf1 & Hk & Hi & Hm & E). rewrite take_ge in * by (unfold zlen in *; lia).
    pose proof Hf1 as [[Hst Hin _ _ _ _ _] _ _ _ _ Hw _ _ _ _ _ _]. exists (advance bs bs.(accepted) (S bs.(time))), b1, w1. split; [|by split_and!; [apply only_calls_advance|..]].
    rewrite E. rewrite zlen_app. ztest. cbn [mbind outcome_bind]. by rewrite Hst, Hin, Hw, zlen_app.
Qed.

(** The last piece; what comes after the end of the blob is ignored. *)
Section append_last.
Context (a : Allocator) (bs : Blobfs) (disk : list block) (b : Blob X) (w : WritebackInfo X) (ids : list Z) (h size : Z) (done piece : list Z).
Context (Hfs : fs_ok bs a disk) (Hqs : queues_ok bs (metadata_cost w)) (Hfl : filling a b w ids h size done) (Hlt : zlen done < size) (Hlast : size ≤ zlen done + zlen piece).

Let data := done ++ take (Z.to_nat (size - zlen done)) piece.

Lemma append_last : ∃ bs1 b1 w1, only_calls bs bs1 ∧ filling a b1 w1 ids h (zlen data) data ∧ zlen data = size ∧ b1.(key) = b.(key) ∧ b1.(map_index_) = b.(map_index_) ∧ same_handles w w1 ∧
  WriteInternal hash true a bs b piece = (r ← finish_write hash true a bs1 b1 w1 NewWriteTxn;
    let '(status, a, bs, b) := r in Returns (status, size - zlen done, a, bs, if failed status then SetState b kBlobStateError else b)).
Proof using All.
  destruct Hqs as [Hq (cap & Hcap & _) _ _]. assert (piece ≠ []) as Hne by (intros ->; unfold zlen in *; cbn in *; lia).
  destruct (write_step a bs b w ids h size done piece cap Hfl Hq Hcap Hne) as (b1 & w1 & Hf1 & Hk & Hi & Hm & E). fold data in Hf1, E. pose proof (zlen_nonneg done).
  assert (zlen (take (Z.to_nat (size - zlen done)) piece) = size - zlen done) as Hd by (unfold zlen in *; rewrite length_take; lia).
  assert (zlen data = size) as Hs by (unfold data; rewrite zlen_app; lia). exists (advance bs bs.(accepted) (S bs.(time))), b1, w1.
  rewrite E, Hd, Hs, Z.ltb_irrefl. by split_and!.
Qed.

Lemma Append_good : b.(key) = merkle_root hash data → ∃ a' bs' b', Append hash true a bs b piece = Returns (ZX_OK, size, a', bs', b') ∧ durable a bs disk b data a' bs' b'.
Proof using All.
  intros Hk. destruct append_last as (bs1 & b1 & w1 & Hc & Hf1 & Hs & Hk1 & Hi1 & Hm & E). pose proof (same_handles_queues _ _ _ Hm Hqs) as Hqs1.
  destruct (commits_calls a bs bs1 disk b b1 data _ Hc Hi1 Hk1 (complete_good a bs1 disk b1 w1 ids h data (fs_ok_calls _ _ _ _ Hc Hfs) (queues_ok_calls _ _ _ Hc Hqs1) Hf1 ltac:(by rewrite Hk1))) as (a' & bs' & b' & Ef & Hd).
  exists a', bs', b'. split; [|done]. unfold Append. rewrite E, Ef. cbn [mbind outcome_bind]. rewrite failed_ok. destruct Hd as (? & ? & _ & _ & _ & -> & _ & -> & _). by rewrite Hs.
Qed.

Lemma Append_bad : b.(key) ≠ merkle_root hash data → ∃ bs' b', Append hash true a bs b piece = Returns (ZX_ERR_IO_DATA_INTEGRITY, size, a, bs', b') ∧ only_calls bs bs' ∧ rejected w b'.
Proof using All.
  intros Hk. destruct append_last as (bs1 & b1 & w1 & Hc & Hf1 & Hs & Hk1 & Hi1 & Hm & E). pose proof (same_handles_queues _ _ _ Hm Hqs) as Hqs1.
  destruct (complete_bad a bs1 disk b1 w1 ids h data (fs_ok_calls _ _ _ _ Hc Hfs) (queues_ok_calls _ _ _ Hc Hqs1) Hf1 ltac:(by rewrite Hk1)) as (b' & Ef & Hn & Hcl & w' & Hw' & Hsame).
  exists bs1, (SetState b' kBlobStateError). split; [|split; [done|]; split; [by apply SetState_state|]; split; [done|]; exists w'; split; [done|by eapply same_handles_trans]]. unfold Append. rewrite E, Ef. cbn [mbind outcome_bind].
  change (failed ZX_ERR_IO_DATA_INTEGRITY) with true. cbn match. rewrite (SetState_state b' kBlobStateError) by done. cbn [Z.eqb]. change (Blob.inode_ (SetState ?x _)) with (Blob.inode_ x).
  by rewrite Hn, (fl_size _ _ _ _ _ _ _ Hf1), Hs.
Qed.
End append_last.

(** ** All the pieces *)

(** A client that appends the pieces one after the other, until there is an error. *)
Fixpoint append_all (a : Allocator) (bs : Blobfs) (b : Blob X) (pieces : list (list Z)) : outcome (zx_status * Allocator * Blobfs * Blob X) :=
  match pieces with
  | [] => Returns (ZX_OK, a, bs, b)
  | piece :: pieces =>
    r ← Append hash true a bs b piece;
    let '(status, _, a, bs, b) := (r : zx_status * Z * Allocator * Blobfs * Blob X) in
    if failed status then Returns (status, a, bs, b) else append_all a bs b pieces
  end.

Lemma append_nothing a bs b pieces : GetState b = kBlobStateReadable → concat pieces = [] → append_all a bs b pieces = Returns (ZX_OK, a, bs, b).
Proof.
  intros Hs. induction pieces as [|p ps IH]; [done|]. cbn [concat append_all]. intros [-> Hps]%app_nil. unfold Append.
  change (WriteInternal hash true a bs b []) with (Returns (ZX_OK, 0, a, bs, b)). cbn [mbind outcome_bind]. rewrite Hs. by apply IH.
Qed.

(** The end of a blob that was written: it is committed if the data has the name of the blob, and nothing was kept otherwise. *)
Definition written (a : Allocator) (bs : Blobfs) (disk : list block) (b : Blob X) (w : WritebackInfo X) (data : list Z) (r : outcome (zx_status * Allocator * Blobfs * Blob X)) : Prop :=
  if decide (b.(key) = merkle_root hash data) then commits a bs disk b data r
  else ∃ bs' b', r = Returns (ZX_ERR_IO_DATA_INTEGRITY, a, bs', b') ∧ only_calls bs bs' ∧ rejected w b'.

Lemma append_all_ok disk pieces : ∀ a bs b w ids h size done, fs_ok bs a disk → queues_ok bs (metadata_cost w) → filling a b w ids h size done → zlen done < size → zlen done + zlen (concat pieces) = size →
  written a bs disk b w (done ++ concat pieces) (append_all a bs b pieces).
Proof using Hhash.
  induction pieces as [|p ps IH]; intros a bs b w ids h size done Hfs Hqs Hfl Hlt Hs; [unfold zlen in *; cbn in *; lia|]. cbn [concat append_all] in *. rewrite zlen_app in Hs.
  pose proof (zlen_nonneg (concat ps)). destruct (Z.lt_ge_cases (zlen done + zlen p) size) as [Hmore|Hlast].
  - destruct (Append_more a bs b w ids h size done p Hfl Hqs Hmore) as (bs1 & b1 & w1 & -> & Hc & Hfl1 & Hk & Hi & Hm). cbn [mbind outcome_bind]. rewrite failed_ok. pose proof (same_handles_queues _ _ _ Hm Hqs) as Hqs1.
    specialize (IH a bs1 b1 w1 ids h size (done ++ p) (fs_ok_calls _ _ _ _ Hc Hfs) (queues_ok_calls _ _ _ Hc Hqs1) Hfl1). rewrite zlen_app, <- app_assoc in IH. specialize (IH Hmore ltac:(lia)).
    unfold written in *. rewrite Hk in IH. case_decide; [by eapply commits_calls|]. destruct IH as (bs' & b' & ? & Hc' & ? & ? & w' & ? & ?).
    exists bs', b'. split; [done|]. split; [by etransitivity|]. split; [done|]. split; [done|]. exists w'. split; [done|by eapply same_handles_trans].
  - assert (concat ps = []) as Hps by (apply length_zero_iff_nil; unfold zlen in *; lia). pose proof (take_ge p (Z.to_nat (size - zlen done)) ltac:(unfold zlen in *; lia)) as Ht.
    rewrite Hps, app_nil_r. unfold written. case_decide as Hk.
    + destruct (Append_good a bs disk b w ids h size done p Hfs Hqs Hfl Hlt ltac:(lia)) as (a' & bs' & b' & -> & Hd); [by rewrite Ht|]. rewrite Ht in Hd. exists a', bs', b'. split; [|done].
      cbn [mbind outcome_bind]. rewrite failed_ok. apply append_nothing; [|done]. by destruct Hd as (? & ? & _ & _ & _ & ? & _).
    + destruct (Append_bad a bs disk b w ids h size done p Hfs Hqs Hfl Hlt ltac:(lia)) as (bs' & b' & -> & Hd); [by rewrite Ht|]. by exists bs', b'.
Qed.

End life.
