(* ===== verification/BlobExample.v ===== *)
(** * A small file system and a small compressor

    A volume of 24 data blocks and 128 nodes, all free, and a compressor that stores data of one repeated byte as that
    byte: instances of what the theorems about blobs take. *)

From S2P Require Import Prelude Bitmap RawBitmap RleBitmap IdAllocator Digest Format Superblock Reservers MerkleTree MerkleCreate.
From S2P Require Import Allocator AllocatorBlocks AllocatorNodes Iterators Populate.
From S2P Require Import Operations RingBuffer RingCopy WriteTxn Writeback Journal JournalReplay Blobfs Blob BlobWrite BlobMeta BlobCommit NodeWords BlobSync BlobLife.

(** ** The compressor *)

(** The first byte says whether a byte is repeated. *)
Definition run_encode (d : list Z) : list Z :=
  match d with
  | c :: _ => if bool_decide (d = replicate (length d) c) then [1; c] else 0 :: d
  | [] => [0]
  end.

Definition run_decode (n : Z) (src : list Z) : zx_status * list Z :=
  match src with
  | 1 :: c :: _ => (ZX_OK, replicate (Z.to_nat n) c)
  | 0 :: d => (ZX_OK, take (Z.to_nat n) d)
  | _ => (ZX_ERR_IO_DATA_INTEGRITY, [])
  end.

(** The state of the compressor is what it was given. *)
#[export] Instance run_compressor : BlobCompressor (list Z) := {|
  BufferMax := λ size, size + 2;
  NewCompressor := λ _, Some [];
  Compressor_Update := λ x d, (ZX_OK, x ++ d);
  Compressor_End := λ x, (ZX_OK, x);
  Compressor_Size := λ x, Z.of_nat (length (run_encode x));
  Contents := λ x, run_encode x ++ replicate (length x) 0;
  ZSTDDecompress := run_decode;
  LZ4Decompress := run_decode;
|}.

Lemma run_decode_encode d rest : run_decode (zlen d) (run_encode d ++ rest) = (ZX_OK, d).
Proof.
  unfold zlen. destruct d as [|c d]; [done|]. cbn [run_encode]. case_bool_decide as Hd; cbn [run_decode app]; rewrite Nat2Z.id; [by rewrite <- Hd|]. change (c :: d ++ rest) with ((c :: d) ++ rest). by rewrite take_app_length.
Qed.

#[export] Instance run_compressor_laws : BlobCompressorLaws (list Z).
Proof.
  apply (Build_BlobCompressorLaws (list Z) run_compressor (λ _ x d, x = d) (λ x d, x = d)).
  - by intros size x [= <-].
  - intros size x d d' -> _. by eexists.
  - intros size x d ->. by eexists.
  - intros x d -> Hd. cbn. destruct d as [|c d]; [done|]. cbn [run_encode]. case_bool_decide; cbn [length]; lia.
  - intros x d ->. unfold zlen. cbn. rewrite length_app, length_replicate. lia.
  - intros x d rest ->. cbn [Contents Compressor_Size run_compressor ZSTDDecompress]. rewrite Nat2Z.id, take_app_length. apply run_decode_encode.
Qed.

(** ** The file system *)

Definition small_info : Superblock := {|
  magic0 := kBlobfsMagic0; magic1 := kBlobfsMagic1; version := kBlobfsVersion; flags := kBlobFlagClean;
  block_size := kBlobfsBlockSize; data_block_count := 24; journal_block_count := 16;
  inode_count := 128; alloc_block_count := 0; alloc_inode_count := 0;
  blob_header_next := 0; slice_size := 0; vslice_count := 0; abm_slices := 0; ino_slices := 0;
  dat_slices := 0; journal_slices := 0 |}.

Definition small_map : RawBitmapBase := {| size_ := 24; data_ := replicate 1024 0 |}.

Definition small_nodes : list Inode := replicate 128 (replicate kNodeWords 0).

Definition small_allocator (s : IdAllocator) : Allocator := {|
  block_map_ := small_map; node_map_ := small_nodes; node_bitmap_ := s;
  reserved_blocks_ := empty_rle; reserved_nodes_ := empty_rle; log_allocation_failure_ := true |}.

Definition small_fs : Blobfs := {|
  info_ := small_info; info_mapping_ := small_info; journal_ := Some 32; writeback_ := Some 8;
  accepted := []; answers := λ _, ZX_OK; time := 0; next_handle := 1; next_vmoid := 1 |}.

(** The superblock, the block map, the node map, and 40 blocks of journal and data. *)
Definition small_disk : list block :=
  map (λ h, vmo_block_at (metadata small_fs small_map small_nodes h) 0) [info_vmo; block_map_vmo; node_map_vmo] ++ replicate 40 (replicate (Z.to_nat 8192) 0).

Lemma small_fs_ok s : fs_ok small_fs (small_allocator s) small_disk.
Proof.
  constructor.
  - constructor; vm_compute; done.
  - apply raw_ok_intro; [cbn; lia|cbn; lia|]. by apply Forall_replicate.
  - by apply Forall_replicate.
  - intros h off [[-> ->]|[[-> Hoff]|[-> Hoff]]]; [done| |]; assert (off = 0) as -> by (change (BlockMapBlocks _) with 1 in Hoff || change (NodeMapBlocks _) with 1 in Hoff; lia); done.
  - vm_compute. done.
  - by apply Forall_replicate, Forall_replicate.
Qed.

Lemma small_reservations s : reservations_ok (small_allocator s).
Proof. split_and!; [by apply (fs_map _ _ _ (small_fs_ok s))|cbn; lia|by split_and!|done]. Qed.

Lemma small_nodes_ok : ∃ s t, nodes_ok (small_allocator s) t ∧ free_ids (small_allocator s) t = seqZ 0 128.
Proof.
  destruct (Create_ok IdAllocator.vmo 128) as (s & t & _ & Hok & Hid & Hfree); [lia|intros; apply vmo_reliable|].
  exists s, t. split.
  - constructor; cbn -[replicate]; rewrite ?Hid; try done. intros i Hi _. split; [done|].
    exists (replicate kNodeWords 0). split; [|done]. apply lookup_replicate. split; [done|lia].
  - unfold free_ids. cbn -[seqZ]. rewrite Hid. rewrite (filter_free_ext _ (λ _, false)); [done|].
    intros k Hk%elem_of_seqZ. apply Hfree. lia.
Qed.

Lemma small_queues cost : cost ≤ 30 → queues_ok small_fs cost.
Proof. intros Hc. constructor; [done|by exists 8|exists 32; split; [done|lia]|unfold kMaxEntryDataBlocks; lia]. Qed.

(** Data of one repeated byte, in two pieces. *)
Definition small_pieces : list (list Z) := [replicate (Z.to_nat 40000) 7; replicate (Z.to_nat 40000) 7].

Lemma small_size : zlen (concat small_pieces) = 80000.
Proof. unfold small_pieces. cbn [concat]. rewrite !zlen_app. unfold zlen. rewrite length_replicate. cbn [length]. lia. Qed.
