(* ===== verification/BlobSpace.v ===== *)
(** * Reserving the space of a blob (ulib/blobfs/blob.cpp, [SpaceAllocate])

    With enough free blocks and nodes, [SpaceAllocate] leaves a blob that is ready to be written; the clients that the
    theorems about blobs speak of. *)

From S2P Require Import Prelude Bitmap RawBitmap RleBitmap IdAllocator Digest Format Superblock Reservers MerkleTree MerkleCreate MerkleVerify.
From S2P Require Import Allocator AllocatorBlocks AllocatorNodes Iterators Streaming Populate.
From S2P Require Import Operations RingBuffer RingCopy WriteTxn Writeback Journal JournalReplay JournalRecovery Blobfs Blob BlobWrite BlobMeta BlobCommit NodeWords BlobSync BlobData BlobFinish BlobRead BlobRoundTrip BlobLife BlobExample.

(** ** The inode of a new blob *)

Lemma zero_node_blank : blank_inode zero_node.
Proof. by constructor. Qed.

Lemma field_set_blank f (n : Inode) v : blank_inode n → field_valid f = true → field_disjoint f node_flags = true → field_disjoint f inode_extent_count = true → blank_inode (field_set f n v).
Proof.
  intros [Hl Ha He] Hf H1 H2. constructor; [by rewrite length_field_set| |by rewrite field_get_set_ne]. unfold IsAllocated in *. by rewrite field_get_set_ne.
Qed.

Lemma size_inode_ok size : 0 < size < UINT32_MAX → let blocks := merkle_blocks size + data_blocks size in blocks < 2 ^ 32 →
  ∃ n, size_inode zero_node size = Returns n ∧ blank_inode n ∧ node_words n ∧ field_get blob_size n = size ∧ field_get node_flags n = 0 ∧ field_get block_count n = blocks.
Proof.
  intros Hs blocks Hb. unfold size_inode. set (n0 := set_root zero_node (replicate 32 0)). pose proof (merkle_blocks_bound size ltac:(lia)) as Hm. unfold UINT32_MAX in Hs.
  assert (0 < data_blocks size) by (unfold data_blocks; clear -Hs; zlia).
  assert (blank_inode n0) as Hn0 by apply set_root_blank, zero_node_blank. assert (blank_inode (field_set blob_size n0 size)) as Hn1 by (by apply field_set_blank).
  assert (field_get blob_size (field_set blob_size n0 size) = size) as Hs1 by (apply field_get_set; [done|by apply Nat.ltb_lt|cbn; lia]).
  rewrite (MerkleTreeBlocks_ok _ size), (BlobDataBlocks_ok _ size) by (done || unfold UINT32_MAX; lia). cbn [mbind outcome_bind]. unwrap. fold blocks.
  eexists. split; [done|]. split_and!; [by apply field_set_blank|unfold n0; repeat apply field_set_words; try done; by apply (Forall_replicate is_word kNodeWords 0)|by rewrite field_get_set_ne|by rewrite !field_get_set_ne|].
  apply field_get_set; [done|by apply Nat.ltb_lt|cbn; lia].
Qed.

Section space.
Context {X : Type} {HX : BlobCompressor X} {HL : BlobCompressorLaws X} (hash : list Z → list Z) (bst : Storage) (ist : Z → Storage).

(** A compressor can be created for the blobs that are large enough for one. *)
Definition compressors (size : Z) : Prop := kCompressionMinBytesSaved ≤ size → is_Some (NewCompressor (X := X) size).

Lemma open_vmos_ok bs (n : Inode) size : quiet bs → 0 < bs.(next_handle) → field_get blob_size n = size → compressors size → field_get block_count n * 8192 < 2 ^ 32 →
  ∃ c h id bs', open_vmos (X := X) bs n = (ZX_OK, Some (c, (h, replicate (Z.to_nat (field_get block_count n * 8192)) 0), id), bs') ∧ only_calls bs bs' ∧ h ≠ ZX_HANDLE_INVALID ∧
    ∀ es ns, compressor_ok h size (λ x, fed size x []) {| bytes_written := 0; w_extents := es; w_nodes := ns; compressor := c |}.
Proof.
  intros Hq Hh Hs Hnew Hb. pose proof (field_get_range block_count n ltac:(done)) as Hr. cbn in Hr. unfold open_vmos, CreateCompressor, compressors, kBlobfsBlockSize in *. rewrite Hs.
  assert (u32 (field_get block_count n * 8192) = field_get block_count n * 8192) as -> by (unwrap; done).
  destruct (Z.leb_spec kCompressionMinBytesSaved size) as [Hle|Hgt].
  - destruct (Hnew Hle) as [x Hx]. destruct (CreateAndMap_ok bs (BufferMax size) Hq) as (bs1 & -> & Hc1 & Hh1 & _). rewrite Hx. cbn [fmap option_fmap option_map negb].
    destruct (CreateAndMap_ok bs1 (field_get block_count n * 8192) (only_calls_quiet _ _ Hc1 Hq)) as (bs2 & -> & Hc2 & _ & _). assert (only_calls bs bs2) as Hc by (by etransitivity).
    destruct (AttachVmo_ok bs2 (only_calls_quiet _ _ Hc Hq)) as (bs3 & -> & Hc3 & _). exists (Some (bs.(next_handle), x)), bs1.(next_handle), bs2.(next_vmoid), bs3.
    split_and!; [done|by etransitivity|unfold ZX_HANDLE_INVALID; lia|]. intros es ns. unfold compressor_ok, ZX_HANDLE_INVALID. cbn. split_and!; [lia|lia|done|by apply new_fed].
  - cbn [negb]. destruct (CreateAndMap_ok bs (field_get block_count n * 8192) Hq) as (bs1 & -> & Hc1 & _). destruct (AttachVmo_ok bs1 (only_calls_quiet _ _ Hc1 Hq)) as (bs2 & -> & Hc2 & _).
    exists None, bs.(next_handle), bs1.(next_vmoid), bs2. split_and!; [done|by etransitivity|unfold ZX_HANDLE_INVALID; lia|done].
Qed.

(** ** The reservation *)

Section allocate.
Context (a : Allocator) (bs : Blobfs) (disk : list block) (digest : list Z) (size : Z) (t : tree) (r : RleBitmap) (es : list ReservedExtent).

Let blocks := merkle_blocks size + data_blocks size.
Let count := NodeCountForExtents (Z.of_nat (length es)).
Let ids := take (Z.to_nat count) (free_ids a t).

(** The file system has the space: free blocks, in not too many extents [es], and free nodes. *)
Record has_space : Prop := {
  hs_fs : fs_ok bs a disk;
  hs_reserved : reservations_ok a;
  hs_nodes : nodes_ok a t;
  hs_find : FindBlocks true a 0 blocks [] = Returns (ZX_OK, with_reserved_blocks a r, es, blocks);
  hs_few : Z.of_nat (length es) ≤ kMaxBlobExtents;
  hs_enough : count ≤ Z.of_nat (length (free_ids a t));
  hs_quiet : quiet bs;
  hs_handle : 0 < bs.(next_handle);
}.

(** The name and the size of a blob that the VMO can hold. *)
Record fits : Prop := {
  ft_digest : zlen digest = 32;
  ft_size : 0 < size < UINT32_MAX;
  ft_vmo : blocks * 8192 < 2 ^ 32;
}.

Record can_hold : Prop := {
  ch_fits : fits;
  ch_compressor : compressors size;
}.

Context (Hs : has_space) (Hc : fits).

Lemma blocks_range : 0 < blocks < 2 ^ 20.
Proof using All - HL.
  destruct Hc as [_ Hsz Hv]. pose proof (merkle_blocks_bound size ltac:(lia)) as Hm. assert (0 < data_blocks size) by (unfold data_blocks; clear -Hsz; zlia). unfold blocks in *. lia.
Qed.

Lemma found_new : AllocatorBlocks.blocks es = blocks ∧ reserved_new a.(block_map_) 0 a.(reserved_blocks_) r es.
Proof using All - HL.
  pose proof blocks_range as Hb. destruct Hs as [_ (Hm & Hsz & Hr & _) _ Hf _ _ _ _].
  destruct (FindBlocks_ok a 0 blocks [] Hm Hsz Hr (Z.le_refl 0) ltac:(lia)) as (r' & new & E & Hbl & Hn). rewrite Hf in E. injection E as E0 Er <- Eb. rewrite <- Eb in Hbl.
  by subst r'.
Qed.

Lemma count_range : 0 < count < 2 ^ 17.
Proof using All - HL.
  destruct Hs as [_ _ _ _ Hf _ _ _]. unfold kMaxBlobExtents in Hf. unfold count, NodeCountForExtents, kInlineMaxExtents, kContainerMaxExtents. destruct (_ <? _) eqn:E; unwrap; zlia.
Qed.

Lemma ReserveNodes_ids : ∃ a' t', ReserveNodes (H := space bst) true ist (with_reserved_blocks a r) bs count [] = Returns (ZX_OK, a', bs, map reserved_node ids) ∧
  nodes_ok a' t' ∧ same_nodes (with_reserved_blocks a r) a' ∧ ∀ k, rle_bit a'.(reserved_nodes_) k = bool_decide (k ∈ ids) || rle_bit a.(reserved_nodes_) k.
Proof using All - HL.
  pose proof count_range as Hr. destruct Hs as [_ _ [] _ _ He _ _].
  destruct (reserve_nodes_enough (H := space bst) ist bs (Z.to_nat count) (with_reserved_blocks a r) t []) as (a' & t' & E & Hok & _ & Hsame & Hb); [by constructor|change (free_ids (with_reserved_blocks a r) t) with (free_ids a t); lia|].
  by exists a', t'.
Qed.

Lemma reserved_all a' : same_nodes (with_reserved_blocks a r) a' → rle_ok a'.(reserved_nodes_) → (∀ k, rle_bit a'.(reserved_nodes_) k = bool_decide (k ∈ ids) || rle_bit a.(reserved_nodes_) k) → reservation a' es ids.
Proof using All - HL.
  intros (Hnm & Hbm & Hrb) Hrle Hbits. cbn in Hnm, Hbm, Hrb. pose proof count_range as Hcr. destruct found_new as [_ [Hr Hrb' Hh Hw Hfree]]. destruct Hs as [Hfs (Hm & _) Hno _ Hfew Hen _ _].
  assert (length ids = Z.to_nat count) as Hl by (unfold ids; rewrite length_take; lia). constructor; try done; try lia.
  - constructor; rewrite ?Hbm, ?Hrb; try done.
    + eapply handles_mono; [|exact Hh]. intros k. by intros [? _]%andb_prop.
    + intros k Hk. destruct (Hfree k Hk) as [? Hf]. split; [lia|]. unfold free_block in Hf. by apply andb_prop in Hf as [?%negb_true_iff _].
  - eapply sublist_NoDup; [apply free_ids_nodup|apply sublist_take].
  - intros i Hi. pose proof Hi as (j & Hij%list_elem_of_lookup_2 & _)%elem_of_take. apply elem_of_free_ids in Hij as [Hir Hfr]. destruct (n_free _ _ Hno i Hir Hfr) as (_ & n & Hn & Hun).
    split_and!; [lia|rewrite Hbits; by rewrite bool_decide_true|]. rewrite Hnm. exists n. split_and!; try done. exact (proj1 (Forall_lookup _ _) (fs_nodes _ _ _ Hfs) _ _ Hn).
Qed.

(** The handles are destroyed: the reservations are those from before. *)
Lemma drop_reserved a' (w : WritebackInfo X) : same_nodes (with_reserved_blocks a r) a' → rle_ok a'.(reserved_nodes_) → (∀ k, rle_bit a'.(reserved_nodes_) k = bool_decide (k ∈ ids) || rle_bit a.(reserved_nodes_) k) →
  w.(w_extents) = es → w.(w_nodes) = map reserved_node ids → drop_write_info true a' (Some w) = Returns (with_reserved_nodes (with_reserved_blocks a' a.(reserved_blocks_)) a.(reserved_nodes_)).
Proof using All - HL.
  intros Hsame Hrle Hbits He Hn. pose proof (reserved_all a' Hsame Hrle Hbits) as Hres. destruct Hsame as (_ & _ & Hrb). cbn in Hrb. destruct found_new as [_ Hnew]. destruct Hs as [_ (_ & _ & Hr & _) Hno _ _ _ _ _].
  unfold drop_write_info. rewrite He, Hn, Hrb, (reserved_new_reset _ _ _ _ _ Hr Hnew). cbn [mbind outcome_bind with_reserved_blocks reserved_nodes_].
  assert (∀ i, i ∈ ids → 0 ≤ i < 2 ^ 32 - 1 ∧ rle_bit a.(reserved_nodes_) i = false) as Hin.
  { intros i (j & Hj%list_elem_of_lookup_2 & _)%elem_of_take. apply elem_of_free_ids in Hj as [Hir Hfr]. pose proof (n_index _ _ Hno). split; [lia|]. by apply (n_free _ _ Hno i). }
  destruct (reset_nodes_ok a'.(reserved_nodes_) ids) as (r' & -> & Hr' & Hb'); [done|by destruct Hres|intros i Hi; split; [by apply Hin|rewrite Hbits; by rewrite bool_decide_true]|].
  cbn [mbind outcome_bind]. do 2 f_equal. apply rle_ext; [done|apply Hno|]. intros k. rewrite Hb', Hbits. destruct (decide (k ∈ ids)) as [Hk|Hk]; [|by rewrite bool_decide_true, (bool_decide_false (k ∈ ids))].
  rewrite bool_decide_false by (intros Hx; by apply Hx). by rewrite (proj2 (Hin k Hk)).
Qed.

(** The blob before and after its VMOs are there. *)
Let sized (n : Inode) : Blob X := with_inode (NewBlob digest) 0 n.
Let opened (n : Inode) (i : Z) (c : option (Z * X)) (m : Z * list Z) (id : Z) (w : WritebackInfo X) : Blob X :=
  SetState (with_write_info (with_mapping (with_vmoid (with_inode (sized n) i n) id) (Some m)) (Some w)) kBlobStateDataWrite.

(** [SpaceAllocate] up to the VMOs. *)
Lemma SpaceAllocate_reserved : ∃ n a' i, (blank_inode n ∧ node_words n ∧ field_get blob_size n = size ∧ field_get node_flags n = 0 ∧ field_get block_count n = blocks) ∧ ids !! 0%nat = Some i ∧
  same_nodes (with_reserved_blocks a r) a' ∧ rle_ok a'.(reserved_nodes_) ∧ (∀ k, rle_bit a'.(reserved_nodes_) k = bool_decide (k ∈ ids) || rle_bit a.(reserved_nodes_) k) ∧
  SpaceAllocate hash true bst ist a bs (NewBlob digest) size = match open_vmos bs n with
    | (status, None, bs) => a ← give_back (X := X) true a' es (map reserved_node ids); Returns (status, a, bs, sized n)
    | (_, Some (c, m, id), bs) => Returns (ZX_OK, a', bs, opened n i c m id {| bytes_written := 0; w_extents := es; w_nodes := map reserved_node ids; compressor := c |})
    end.
Proof using All - HL.
  pose proof blocks_range as Hbr. pose proof count_range as Hcr. destruct Hc as [Hd Hsz Hv]. destruct (size_inode_ok size Hsz ltac:(fold blocks; lia)) as (n & En & Hblank & Hnw & Hns & Hnf & Hnb). fold blocks in Hnb.
  destruct ReserveNodes_ids as (a' & t' & Er & Hno & Hsame & Hbits). pose proof Hs as [_ _ _ Hf Hfew Hen _ _].
  assert (∃ i, ids !! 0%nat = Some i) as (i & Hi) by (apply lookup_lt_is_Some; unfold ids; rewrite length_take; lia).
  exists n, a', i. split; [by split_and!|]. split; [done|]. split; [done|]. split; [apply Hno|]. split; [done|].
  unfold SpaceAllocate. cbn [NewBlob Blob.inode_]. rewrite En. cbn [mbind outcome_bind]. change (GetState (NewBlob digest)) with kBlobStateEmpty. cbn [negb Z.eqb]. rewrite Hns. ztest.
  unfold ReserveBlocks. rewrite Hnb, Hf. cbn [mbind outcome_bind]. rewrite failed_ok. cbn [mbind outcome_bind]. rewrite failed_ok.
  assert (u16 (Z.of_nat (length es)) = Z.of_nat (length es)) as -> by (unfold kMaxBlobExtents in Hfew; unwrap; done). ztest. fold count. rewrite Er. cbn [mbind outcome_bind]. rewrite failed_ok.
  assert (array_get (map reserved_node ids) 0 = Returns (reserved_node i)) as -> by (apply array_get_returns; split; [done|change (map reserved_node ids) with (reserved_node <$> ids); rewrite list_lookup_fmap; by change (Z.to_nat 0) with 0%nat; rewrite Hi]).
  destruct (open_vmos bs n) as [[status [[[c m] id]|]] bs']; done.
Qed.

Lemma SpaceAllocate_ok : compressors size → ∃ a' bs' b' w h, SpaceAllocate hash true bst ist a bs (NewBlob digest) size = Returns (ZX_OK, a', bs', b') ∧ only_calls bs bs' ∧ fs_ok bs' a' disk ∧
  filling a' b' w ids h size [] ∧ b'.(key) = digest ∧ w.(w_extents) = es ∧ metadata_cost w = 2 * Z.of_nat (length es) + count + 1 ∧
  same_nodes (with_reserved_blocks a r) a' ∧ rle_ok a'.(reserved_nodes_) ∧ ∀ k, rle_bit a'.(reserved_nodes_) k = bool_decide (k ∈ ids) || rle_bit a.(reserved_nodes_) k.
Proof using All.
  intros Hcomp. pose proof blocks_range as Hbr. pose proof count_range as Hcr. destruct found_new as [Hbl _]. destruct SpaceAllocate_reserved as (n & a' & i & (Hblank & Hnw & Hns & Hnf & Hnb) & Hi & Hsame & Hrle & Hbits & ->).
  pose proof (reserved_all a' Hsame Hrle Hbits) as Hres. destruct Hc as [Hd Hsz Hv]. pose proof Hs as [Hfs _ _ _ Hfew Hen Hq Hh].
  destruct (open_vmos_ok bs n size Hq Hh Hns Hcomp ltac:(rewrite Hnb; lia)) as (c & h & id & bs' & -> & Hcalls & Hh0 & Hco).
  eexists a', bs', _, {| bytes_written := 0; w_extents := es; w_nodes := map reserved_node ids; compressor := c |}, h. split; [done|]. split_and!; [done| | |done|done| |done|done|done].
  - apply (fs_ok_calls bs); [done|]. destruct Hfs, Hsame as (Hnm & Hbm & _). cbn in Hnm, Hbm. constructor; unfold synced in *; rewrite ?Hnm, ?Hbm; done.
  - constructor; try done; [| |by unfold zlen; cbn; lia].
    + constructor; try done; cbn [Blob.inode_ with_inode with_vmoid with_mapping with_write_info SetState with_flags w_extents opened]; first [done|lia].
    + cbn [mapping_ with_mapping with_write_info SetState with_flags opened]. do 2 f_equal. pose proof (merkle_blocks_bound size ltac:(lia)) as Hm. assert (0 ≤ data_blocks size) by (unfold data_blocks; clear -Hsz; zlia).
      unfold zeros. cbn [app]. change (zlen []) with 0. rewrite <- replicate_add, <- Z2Nat.inj_add by lia. f_equal. rewrite Hnb. unfold blocks. lia.
  - unfold metadata_cost. cbn. unfold ids. rewrite length_map, length_take. lia.
Qed.

(** Without a compressor the reservations are given back, and the status is still that of the reservations. *)
Lemma SpaceAllocate_uncompressed : kCompressionMinBytesSaved ≤ size → NewCompressor (X := X) size = None →
  ∃ a' bs' b', SpaceAllocate hash true bst ist a bs (NewBlob digest) size = Returns (ZX_OK, a', bs', b') ∧ only_calls bs bs' ∧ GetState b' = kBlobStateEmpty ∧ field_get blob_size b'.(Blob.inode_) = size ∧
    a'.(block_map_) = a.(block_map_) ∧ a'.(node_map_) = a.(node_map_) ∧ a'.(reserved_blocks_) = a.(reserved_blocks_) ∧ a'.(reserved_nodes_) = a.(reserved_nodes_).
Proof using All - HL.
  intros Hmin Hnone. destruct SpaceAllocate_reserved as (n & a' & i & (_ & _ & Hns & _ & _) & _ & Hsame & Hrle & Hbits & ->). pose proof Hs as [_ _ _ _ _ _ Hq _].
  unfold open_vmos, CreateCompressor. rewrite Hns. ztest. destruct (CreateAndMap_ok bs (BufferMax size) Hq) as (bs' & -> & Hc' & _). rewrite Hnone. cbn [fmap option_fmap option_map negb].
  unfold give_back. rewrite (drop_reserved a' _ Hsame Hrle Hbits) by done. cbn [mbind outcome_bind]. destruct Hsame as (Hn & Hb & _). by do 3 eexists.
Qed.

End allocate.

(** ** A blob from its name to its contents *)

(** A client that creates a blob of [size] bytes and appends the pieces. *)
Definition write_blob (a : Allocator) (bs : Blobfs) (digest : list Z) (size : Z) (pieces : list (list Z)) : outcome (zx_status * Allocator * Blobfs * Blob X) :=
  r ← SpaceAllocate hash true bst ist a bs (NewBlob digest) size;
  let '(status, a, bs, b) := (r : zx_status * Allocator * Blobfs * Blob X) in
  if failed status then Returns (status, a, bs, b) else append_all hash a bs b pieces.

(** A client that reads [len] bytes of the blob of node [i]. *)
Definition read_blob (k : Z) (disk : list block) (a : Allocator) (bs : Blobfs) (digest : list Z) (i len off : Z) : outcome (zx_status * list Z * Blobfs * Blob X) :=
  b ← PopulateInode a (NewBlob digest) i;
  ReadInternal hash true k disk a bs b len off.

End space.

(** ** The small file system has the space *)

Lemma small_space s t : nodes_ok (small_allocator s) t → free_ids (small_allocator s) t = seqZ 0 128 →
  ∃ r es, has_space (small_allocator s) small_fs small_disk 80000 t r es ∧ length es = 1%nat.
Proof.
  intros Hno Hids. eexists _, _. split; [constructor; [apply small_fs_ok|apply small_reservations|done|vm_compute; reflexivity|done|rewrite Hids; vm_compute; done|done|done]|done].
Qed.

Lemma small_fits digest : zlen digest = 32 → fits digest 80000.
Proof. intros Hd. constructor; [done|done|vm_compute; done]. Qed.

Lemma small_hold digest : zlen digest = 32 → can_hold (X := list Z) digest 80000.
Proof. intros Hd. constructor; [by apply small_fits|intros _; by eexists]. Qed.
