(* ===== verification/BlobTheorems.v ===== *)
(** * What holds of blobs

    The theorems about writing, recording and reading blobs, with the small file system as the instance of their
    hypotheses. *)

From S2P Require Import Prelude Bitmap RawBitmap RleBitmap IdAllocator Digest Format Superblock Reservers MerkleTree MerkleCreate MerkleVerify.
From S2P Require Import Allocator AllocatorBlocks AllocatorNodes Iterators Streaming Populate.
From S2P Require Import Operations RingBuffer RingCopy WriteTxn Writeback Journal JournalReplay JournalRecovery Blobfs Blob BlobWrite BlobMeta BlobCommit NodeWords BlobSync BlobData BlobFinish BlobRead BlobRoundTrip BlobRecord BlobLife BlobExample BlobSpace.

(** ** The count of allocated blocks *)

Lemma handles_cut f n es : handles f es → Forall (λ e, 0 ≤ e.(Reservers.extent_) < 2 ^ 64) es → 0 < n → handles f (cut n es).
Proof.
  intros Hh Hw. revert f n Hh. induction Hw as [|e es He Hw IH]; intros f n Hh Hn; [done|]. destruct Hh as (Hr & Hl & Hin & Hh). cbn [cut]. destruct (Z.leb_spec (Length e.(Reservers.extent_)) n).
  - split_and!; try done. destruct (Z.eqb_spec (n - Length e.(Reservers.extent_)) 0); [done|]. apply IH; [done|lia].
  - pose proof (Length_range e.(Reservers.extent_)). destruct (SetLength_ok e.(Reservers.extent_) n He ltac:(lia)) as (_ & Hs & Hl'). unfold cut_at. split_and!; cbn; [done|lia| |done].
    intros k Hk. apply Hin. unfold in_extent in *. rewrite Hs, Hl' in Hk. rewrite andb_true_iff, Z.leb_le, Z.ltb_lt in *. lia.
Qed.

(** Recording [bc] blocks of a reservation makes so many more allocated blocks. *)
Lemma committed_tally a es ids n bc a' : committed a es ids n bc a' → extents_ok a es → 0 < bc ≤ AllocatorBlocks.blocks es →
  tally (raw_bit a'.(block_map_)) 0 a'.(block_map_).(size_) = tally (raw_bit a.(block_map_)) 0 a.(block_map_).(size_) + bc.
Proof.
  intros Hcm [(Hm & _) _ Hh Hw Hfree] Hbc. rewrite (cm_size _ _ _ _ _ _ Hcm). set (size := a.(block_map_).(size_)) in *.
  assert (∀ k, in_handles (cut bc es) k = true → 0 ≤ k < size ∧ raw_bit a.(block_map_) k = false) as Hin.
  { intros k Hk. apply Hfree, (cut_sub bc); [done|lia|]. by rewrite in_handles_app, Hk. }
  rewrite (tally_ext _ (λ k, in_handles (cut bc es) k || raw_bit a.(block_map_) k)) by (intros k Hk; apply (cm_bits _ _ _ _ _ _ Hcm); lia).
  rewrite tally_disjoint; [|intros k _; destruct (in_handles (cut bc es) k) eqn:E; [by destruct (Hin k E) as [_ ->]|done]].
  assert (handles (in_handles (cut bc es)) (cut bc es)) as Hc.
  { eapply handles_ext; [|apply (handles_restrict _ (in_handles (cut bc es)) _ (handles_cut _ bc _ Hh Hw ltac:(lia))); done].
    intros k. cbn beta. destruct (in_handles (cut bc es) k) eqn:E; [|by rewrite andb_false_r]. rewrite andb_true_r. exact (handles_in _ _ _ (handles_cut _ bc _ Hh Hw ltac:(lia)) E). }
  rewrite (handles_blocks _ _ size Hc); [|intros k Hk; destruct (in_handles (cut bc es) k) eqn:E; [|done]; destruct (Hin k E); lia|lia].
  destruct (cut_blocks _ _ bc 0 Hh Hw Hbc) as [_ ->]. lia.
Qed.

(** ** Writing a whole blob *)

Lemma write_blob_ok {X} `{BlobCompressorLaws X} (hash : list Z → list Z) (Hhash : ∀ x, length (hash x) = 32%nat) bst ist a bs disk t r es (pieces : list (list Z)) :
  let data := concat pieces in let digest := merkle_root hash data in
  has_space a bs disk (zlen data) t r es → can_hold digest (zlen data) →
  queues_ok bs (2 * Z.of_nat (length es) + NodeCountForExtents (Z.of_nat (length es)) + 1) →
  ∃ a' bs' b' i new n, write_blob hash bst ist a bs digest (zlen data) pieces = Returns (ZX_OK, a', bs', b') ∧
    GetState b' = kBlobStateReadable ∧ bs'.(accepted) = bs.(accepted) ++ new ∧ free_ids a t !! 0%nat = Some i ∧ quiet bs' ∧
    let disk' := disk_after disk new in fs_ok bs' a' disk' ∧ device_blob hash disk' a' (DataStartBlock bs'.(info_)) i n data ∧
    PopulateInode (X := X) a' (NewBlob digest) i = Returns (with_inode (SetState (NewBlob digest) kBlobStateReadable) i n) ∧
    (Forall is_byte digest → registered a bs i digest a' bs').
Proof.
  intros data digest Hsp Hch Hqs. destruct (SpaceAllocate_ok hash bst ist a bs disk digest (zlen data) t r es Hsp (ch_fits _ _ Hch) (ch_compressor _ _ Hch)) as (a1 & bs1 & b1 & w & h & E1 & Hc & Hfs1 & Hfl & Hk & He & Hm & (Hnm & Hbm & _) & _).
  rewrite <- Hm in Hqs. pose proof (fl_bound _ _ _ _ _ _ _ Hfl) as Hb.
  pose proof (append_all_ok hash Hhash disk pieces a1 bs1 b1 w _ h (zlen data) [] Hfs1 (queues_ok_calls _ _ _ Hc Hqs) Hfl ltac:(unfold zlen at 1; cbn; lia) eq_refl) as Hw.
  unfold written in Hw. change ([] ++ concat pieces) with data in Hw. rewrite decide_True in Hw by done.
  destruct Hw as (a' & bs' & b' & E2 & new & ws & Hacc & Hq & Hbase & Hst & _ & _ & Hrg & Hfs' & n & Hdb & Hpop). rewrite (oc_accepted _ _ Hc) in Hacc. rewrite Hk in Hrg, Hpop. rewrite <- Hbase in Hdb.
  exists a', bs', b', b1.(map_index_), (works new ws), n. cbn zeta. split_and!; try done.
  - unfold write_blob. rewrite E1. cbn [mbind outcome_bind]. by rewrite failed_ok.
  - pose proof (rd_index _ _ _ _ (fl_ready _ _ _ _ _ _ _ Hfl)) as Hi. rewrite lookup_take_Some in Hi. by destruct Hi.
  - intros Hby. apply (registered_info _ bs bs1); [apply (oc_info _ _ Hc)|]. destruct (Hrg Hby) as [? ? Hsz ? Ho Hf]. rewrite Hnm in Ho, Hf, Hsz. rewrite Hbm in Hsz. by constructor.
Qed.

(** ** Theorems *)

(** C4. The round trip of a blob.  Let the file system be sound and have the space, and let the journal and the queue be
    able to take the metadata and the data.  Then a blob whose name is the Merkle root of its data, appended in any
    pieces, is accepted: it is readable; the works that were handed over hold it, in that after they are written the
    device agrees with the maps again; and a blob populated from its node then reads every slice of the data, whether
    it was stored compressed or not. *)
Theorem blob_round_trip {X} `{BlobCompressorLaws X} (hash : list Z → list Z) (Hhash : ∀ x, length (hash x) = 32%nat) bst ist
    a bs disk t r es (pieces : list (list Z)) :
  let data := concat pieces in let digest := merkle_root hash data in
  has_space a bs disk (zlen data) t r es → can_hold digest (zlen data) →
  queues_ok bs (2 * Z.of_nat (length es) + NodeCountForExtents (Z.of_nat (length es)) + 1) →
  ∃ a' bs' b' i new, write_blob hash bst ist a bs digest (zlen data) pieces = Returns (ZX_OK, a', bs', b') ∧
    GetState b' = kBlobStateReadable ∧ bs'.(accepted) = bs.(accepted) ++ new ∧ free_ids a t !! 0%nat = Some i ∧
    let disk' := disk_after disk new in fs_ok bs' a' disk' ∧
    ∀ k off len, 0 < k ≤ 2 ^ 13 → (merkle_blocks (zlen data) + data_blocks (zlen data)) * k < UINT32_MAX → 0 ≤ off < 2 ^ 64 → 0 ≤ len < 2 ^ 64 →
      ∃ bs'' b'', read_blob hash k disk' a' bs' digest i len off = Returns (ZX_OK, slice data off len, bs'', b'').
Proof.
  intros data digest Hsp Hch Hqs. destruct (write_blob_ok hash Hhash bst ist a bs disk t r es pieces Hsp Hch Hqs) as (a' & bs' & b' & i & new & n & E & Hst & Hacc & Hi & Hq & Hfs & Hdb & Hpop & _).
  exists a', bs', b', i, new. split_and!; try done. cbn zeta. split; [done|]. intros k off len Hk Hkb Hoff Hlen. unfold read_blob. fold data digest in Hpop. rewrite Hpop. cbn [mbind outcome_bind].
  pose proof (place_before_data _ _ _ info_vmo 0 (fs_volume _ _ _ Hfs) ltac:(by left)) as Hp. cbn in Hp.
  set (b2 := with_inode _ _ n). destruct (ReadInternal_ok hash Hhash k Hk _ a' i n data bs' b2 Hq ltac:(lia) Hdb eq_refl eq_refl eq_refl eq_refl Hkb len off) as (bs'' & b'' & E' & _);
    [by apply SetState_state|done|done|by exists bs'', b''].
Qed.

Lemma blob_round_trip_witness : ∃ s t a' bs' b' new, nodes_ok (small_allocator s) t ∧
  let digest := merkle_root xor_hash (concat small_pieces) in
  write_blob xor_hash (IdAllocator.vmo 0) IdAllocator.vmo (small_allocator s) small_fs digest 80000 small_pieces = Returns (ZX_OK, a', bs', b') ∧
  ∃ bs'' b'', read_blob xor_hash 16 (disk_after small_disk new) a' bs' digest 0 3 39999 = Returns (ZX_OK, [7; 7; 7], bs'', b'').
Proof.
  destruct small_nodes_ok as (s & t & Hno & Hids). destruct (small_space s t Hno Hids) as (r & es & Hsp & Hes). exists s, t. rewrite <- small_size in Hsp |- *.
  destruct (blob_round_trip xor_hash xor_hash_length (IdAllocator.vmo 0) IdAllocator.vmo (small_allocator s) small_fs small_disk t r es small_pieces) as (a' & bs' & b' & i & new & E & _ & _ & Hi & _ & Hread).
  - exact Hsp.
  - rewrite small_size. apply small_hold. apply zlen_merkle_root; [apply xor_hash_length|apply max_levels_enough; rewrite small_size; lia|rewrite small_size; lia].
  - rewrite Hes. by apply small_queues.
  - rewrite Hids in Hi. injection Hi as <-. exists a', bs', b', new. split; [exact Hno|]. split; [exact E|].
    destruct (Hread 16 39999 3) as (bs'' & b'' & E'); [lia|rewrite small_size; vm_compute; done|lia|lia|]. exists bs'', b''. etransitivity; [exact E'|]. vm_compute. reflexivity.
Defined.



(** C16. Recording a blob keeps the file system.  Let the superblock and the maps fit together and be on the device, and
    the superblock count the allocated blocks.  [WriteMetadata] of a blob with its space reserved makes it readable and
    hands over exactly one journal entry, which writes nothing at or after the first data block; once it is written the
    device has the new superblock and maps; the block map has gained the first [block_count] reserved blocks and no
    others, and the superblock still counts them; all reservations of the blob are released. *)
Theorem write_metadata_durable {X} `{BlobCompressor X} a bs (b : Blob X) w ids disk :
  fs_ok bs a disk → queues_ok bs (metadata_cost w) → ready a b w ids →
  bs.(info_).(alloc_block_count) = tally (raw_bit a.(block_map_)) 0 a.(block_map_).(size_) →
  let blocks := field_get block_count b.(Blob.inode_) in
  ∃ a' bs' b' ws, WriteMetadata true a bs b = Returns (ZX_OK, a', bs', b') ∧ GetState b' = kBlobStateReadable ∧
    bs'.(accepted) = bs.(accepted) ++ [(Blobfs.kJournal, ws)] ∧ Forall (λ x, 0 ≤ fst x < DataStartBlock bs.(info_)) ws ∧
    fs_ok bs' a' (write_all disk ws) ∧
    bs'.(info_).(alloc_block_count) = bs.(info_).(alloc_block_count) + blocks ∧
    bs'.(info_).(alloc_block_count) = tally (raw_bit a'.(block_map_)) 0 a'.(block_map_).(size_) ∧
    (∀ k, 0 ≤ k → raw_bit a'.(block_map_) k = in_handles (cut blocks w.(w_extents)) k || raw_bit a.(block_map_) k) ∧
    (∀ k, rle_bit a'.(reserved_blocks_) k = rle_bit a.(reserved_blocks_) k && negb (in_handles w.(w_extents) k)) ∧
    (∀ k, rle_bit a'.(reserved_nodes_) k = bool_decide (k ∉ ids) && rle_bit a.(reserved_nodes_) k).
Proof.
  intros Hfs Hqs Hrd Hcount blocks. destruct (commit_ok a bs b w ids disk Hfs Hqs Hrd) as (a' & ws & n & E & Hcm & Hfs' & Hws). fold blocks in E, Hcm, Hfs'.
  pose proof (committed_tally _ _ _ _ _ _ Hcm (rs_extents _ _ _ (rd_reserved _ _ _ _ Hrd)) (rd_blocks _ _ _ _ Hrd)) as Ht. fold blocks in Ht. pose proof (rd_blocks _ _ _ _ Hrd) as Hb. fold blocks in Hb.
  pose proof (tally_range (raw_bit a'.(block_map_)) 0 a'.(block_map_).(size_)) as Hr. rewrite (cm_size _ _ _ _ _ _ Hcm) in Hr. pose proof (vo_size _ _ _ (fs_volume _ _ _ Hfs)) as Hsz.
  rewrite (cm_size _ _ _ _ _ _ Hcm) in Ht. pose proof (tally_range (raw_bit a.(block_map_)) 0 a.(block_map_).(size_)) as Hr0.
  eexists a', _, _, ws. split; [exact E|]. split_and!; [by apply SetState_state|done|done|by destruct Hfs'; constructor| | |apply Hcm..].
  all: cbn [advance counted persisted with_alloc_counts info_ alloc_block_count with_info copy_info]; rewrite ?(cm_size _ _ _ _ _ _ Hcm), Hcount; unwrap; lia.
Qed.

Lemma write_metadata_durable_witness : ∃ s t a bs (b : Blob (list Z)) w ids a' bs' b' ws, nodes_ok (small_allocator s) t ∧
  ready a b w ids ∧ fs_ok bs a small_disk ∧
  WriteMetadata true a bs b = Returns (ZX_OK, a', bs', b') ∧ bs'.(accepted) = [(Blobfs.kJournal, ws)] ∧ fs_ok bs' a' (write_all small_disk ws) ∧ bs'.(info_).(alloc_block_count) = 11.
Proof.
  destruct small_nodes_ok as (s & t & Hno & Hids). destruct (small_space s t Hno Hids) as (r & es & Hsp & Hes).
  destruct (SpaceAllocate_ok xor_hash (IdAllocator.vmo 0) IdAllocator.vmo (small_allocator s) small_fs small_disk (replicate 32 0) 80000 t r es Hsp (small_fits (replicate 32 0) eq_refl) (ch_compressor _ _ (small_hold (replicate 32 0) eq_refl)))
    as (a & bs & b & w & h & _ & Hc & Hfs & Hfl & _ & _ & Hm & (_ & Hbm & _) & _). rewrite Hes in Hm.
  assert (queues_ok bs (metadata_cost w)) as Hqs by (rewrite Hm; by apply (queues_ok_calls small_fs), small_queues).
  destruct (write_metadata_durable a bs b w _ small_disk Hfs Hqs (fl_ready _ _ _ _ _ _ _ Hfl)) as (a' & bs' & b' & ws & E & _ & Ha & _ & Hfs' & Hn & _).
  - rewrite (oc_info _ _ Hc), Hbm. vm_compute. reflexivity.
  - exists s, t, a, bs, b, w. eexists _, a', bs', b', ws. rewrite (oc_accepted _ _ Hc) in Ha. rewrite (oc_info _ _ Hc), (fl_blocks _ _ _ _ _ _ _ Hfl) in Hn.
    split_and!; [exact Hno|exact (fl_ready _ _ _ _ _ _ _ Hfl)|exact Hfs|exact E|exact Ha|exact Hfs'|]. rewrite Hn. vm_compute. reflexivity.
Defined.

(** C20. Data is handed over in works that the queue can hold.  For a queue of at least two blocks, [EnqueuePaginated]
    returns; every work that it hands over, and the one it leaves to be filled, is of at most three quarters of the
    queue; and together they write exactly the blocks of the range, each from its place in the VMO. *)
Theorem enqueue_paginated_exact (vmos : Z → list Z) bs cap h rel abs n :
  quiet bs → bs.(writeback_) = Some cap → 2 ≤ cap ≤ 2 ^ 40 → h ≠ ZX_HANDLE_INVALID → 0 ≤ n → 0 ≤ rel → 0 ≤ abs → rel + n ≤ 2 ^ 40 → abs + n ≤ 2 ^ 40 →
  ∃ bs' wb new, EnqueuePaginated vmos bs NewWriteTxn h rel abs n = Returns (ZX_OK, bs', Some wb) ∧
    bs'.(accepted) = bs.(accepted) ++ map (pair kData) new ∧ Forall (λ w, Z.of_nat (length w) ≤ 3 * cap / 4) new ∧ BlkCount wb ≤ 3 * cap / 4 ∧
    ∀ d x, (d, x) ∈ concat new ++ capture vmos wb.(WriteTxn.operations_) ↔
      ∃ i, 0 ≤ i < n ∧ d = abs + i ∧ x = vmo_block_at (vmos h) ((rel + i) * kBlobfsBlockSize).
Proof.
  intros Hq Hw Hcap Hh Hn Hrel Habs Hrn Han. assert (0 < 3 * cap / 4 ≤ cap) as Hm by (clear -Hcap; zlia).
  destruct (EnqueuePaginated_ok vmos (3 * cap / 4) cap bs Hq Hw Hm ltac:(lia) bs NewWriteTxn [] h rel abs n eq_refl (in_flight_new vmos (3 * cap / 4) bs ltac:(lia))) as (bs' & wb & E & [[_ _ Hc] Hmax _ (new & tm & -> & Hlen & Hin)]);
    [lia..|done|by intros ? ? ?%list_elem_of_In|].
  eexists _, wb, new. split; [exact E|]. split_and!; [done|done|lia|]. intros d x. rewrite Hin. unfold moved. cbn [app]. setoid_rewrite in_items_of. unfold blocks_of. setoid_rewrite list_elem_of_fmap. setoid_rewrite elem_of_seqZ.
  split; [intros (h' & off & [-> (i & [= Ho Hd] & Hi)] & ->); exists i|intros (i & Hi & -> & ->); exists h, (rel + i); split; [split; [done|]; exists i|done]].
  - split; [lia|]. split; [lia|]. do 2 f_equal. lia.
  - split; [f_equal; lia|lia].
Qed.

Lemma enqueue_paginated_exact_witness : ∃ bs' wb new, EnqueuePaginated (λ _, []) small_fs NewWriteTxn 5 0 19 20 = Returns (ZX_OK, bs', Some wb) ∧
  bs'.(accepted) = map (pair kData) new ∧ Forall (λ w, Z.of_nat (length w) ≤ 6) new.
Proof.
  destruct (enqueue_paginated_exact (λ _, []) small_fs 8 5 0 19 20) as (bs' & wb & new & E & Ha & Hl & _); [done|done|lia|done|lia..|].
  exists bs', wb, new. split_and!; [exact E|exact Ha|exact Hl].
Defined.

(** A failure to create the compressor is reported as success.  When the space of a blob of at least 64 KiB is
    reserved but no compressor can be created, [SpaceAllocate] returns ZX_OK: yet everything it reserved was given
    back, and the blob is still in its empty state, in which it refuses the data. *)
Theorem space_allocate_compressor_failure {X} `{BlobCompressor X} (hash : list Z → list Z) bst ist a bs disk digest size t r es data :
  has_space a bs disk size t r es → fits digest size → kCompressionMinBytesSaved ≤ size → NewCompressor (X := X) size = None → data ≠ [] →
  ∃ a' bs' (b' : Blob X), SpaceAllocate hash true bst ist a bs (NewBlob digest) size = Returns (ZX_OK, a', bs', b') ∧
    GetState b' = kBlobStateEmpty ∧ a'.(block_map_) = a.(block_map_) ∧ a'.(node_map_) = a.(node_map_) ∧
    a'.(reserved_blocks_) = a.(reserved_blocks_) ∧ a'.(reserved_nodes_) = a.(reserved_nodes_) ∧
    WriteInternal hash true a' bs' b' data = Returns (ZX_ERR_BAD_STATE, 0, a', bs', b').
Proof.
  intros Hsp Hft Hmin Hnone Hd. destruct (SpaceAllocate_uncompressed hash bst ist a bs disk digest size t r es Hsp Hft Hmin Hnone) as (a' & bs' & b' & E & _ & Hst & Hsz & Hbm & Hnm & Hrb & Hrn).
  exists a', bs', b'. split_and!; try done. unfold WriteInternal. destruct data as [|y data]; [done|]. cbn [length]. ztest.
  rewrite (MerkleTreeBlocks_ok b'.(Blob.inode_) size Hsz) by (destruct Hft; lia). cbn [mbind outcome_bind]. by rewrite Hst.
Qed.

(** A compressor that can not be created. *)
Definition no_compressor : BlobCompressor (list Z) := {|
  BufferMax := λ size, size; NewCompressor := λ _, None; Compressor_Update := λ x _, (ZX_OK, x); Compressor_End := λ x, (ZX_OK, x);
  Compressor_Size := λ _, 0; Contents := λ x, x; ZSTDDecompress := λ _ d, (ZX_OK, d); LZ4Decompress := λ _ d, (ZX_OK, d) |}.

