(* ===== verification/BlobStates.v ===== *)
(** * The states of a blob

    What holds of a blob whatever the kernel, the device and the queues answer: the steps of a blob are the calls that
    return; a reachable blob is well formed, a readable one never changes, and what is read from it is its data. *)

From S2P Require Import Prelude Bitmap RawBitmap RleBitmap IdAllocator Digest Format Superblock Reservers MerkleTree MerkleCreate MerkleVerify.
From S2P Require Import Allocator AllocatorBlocks AllocatorNodes Iterators Streaming Populate.
From S2P Require Import Operations RingBuffer RingCopy WriteTxn Writeback Journal JournalReplay Blobfs Blob BlobWrite BlobSync BlobData BlobRead BlobRoundTrip BlobLife BlobExample BlobSpace.

Section calls.
Context {X : Type} `{BlobCompressor X} (hash : list Z → list Z) (bst : Storage) (ist : Z → Storage) (k : Z) (disk : list block).

(** ** What calls leave alone *)

(** Name, state and what is to be written. *)
Definition same_face (b b' : Blob X) : Prop := b'.(key) = b.(key) ∧ b'.(flags_) = b.(flags_) ∧ b'.(write_info_) = b.(write_info_).

#[export] Instance same_face_preorder : PreOrder same_face.
Proof. split; [done|]. intros b1 b2 b3 (? & ? & ?) (? & ? & ?). split_and!; congruence. Qed.

Lemma face_state b b' : same_face b b' → GetState b' = GetState b.
Proof. unfold GetState. by intros (_ & -> & _). Qed.

Lemma create_tree_face b size st b' : create_tree hash true b size = Returns (st, b') → same_face b b'.
Proof. unfold create_tree. intros E. by ran E. Qed.

Lemma write_tree_face a bs b wb it fuel st bs' b' wb' it' : write_tree hash true a bs b wb it fuel = Returns (st, bs', b', wb', it') → same_face b b'.
Proof. unfold write_tree. intros E. ran E. all: try done. all: by eapply create_tree_face. Qed.

Lemma write_data_face a bs b w wb it fuel st bs' b' wb' : write_data a bs b w wb it fuel = Returns (st, bs', b', wb') → same_face b b'.
Proof. unfold write_data. intros E. by ran E. Qed.

(** ** Well-formed blobs *)

Definition states : list Z := [kBlobStateEmpty; kBlobStateDataWrite; kBlobStateReadable; kBlobStatePurged; kBlobStateError].

(** The flags are a word with one of the states; a blob that is being written has what is to be written. *)
Record typed (b : Blob X) : Prop := {
  ty_state : GetState b ∈ states;
  ty_flags : 0 ≤ b.(flags_) < 2 ^ 32;
  ty_write : GetState b = kBlobStateDataWrite → is_Some b.(write_info_);
}.

(** From which state to which. *)
Definition allowed (s s' : Z) : bool :=
  (s =? s') || (s' =? kBlobStatePurged) ||
  (s =? kBlobStateEmpty) && bool_decide (s' ∈ [kBlobStateDataWrite; kBlobStateReadable; kBlobStateError]) ||
  (s =? kBlobStateDataWrite) && bool_decide (s' ∈ [kBlobStateReadable; kBlobStateError]).

(** A call keeps the name, and goes from a well-formed blob to one that is well formed, by a transition that is allowed. *)
Definition goes (b b' : Blob X) : Prop := typed b → b'.(key) = b.(key) ∧ typed b' ∧ allowed (GetState b) (GetState b') = true.

Lemma face_goes b b' : same_face b b' → goes b b'.
Proof. intros (Hk & Hf & Hw) [Hs Hr Hi]. unfold GetState in *. rewrite Hf. split_and!; [done| |by unfold allowed; rewrite Z.eqb_refl]. constructor; unfold GetState; by rewrite ?Hf, ?Hw. Qed.

Lemma SetState_flags (b : Blob X) s : s ∈ states → 0 ≤ b.(flags_) < 2 ^ 32 → 0 ≤ (SetState b s).(flags_) < 2 ^ 32.
Proof.
  intros Hs Hf. cbn [SetState flags_ with_flags]. assert (0 ≤ s < 2 ^ 32) as Hs' by (unfold states in Hs; repeat (apply elem_of_cons in Hs as [->|Hs]; [done|]); by apply list_elem_of_In in Hs).
  apply lor_range; [lia|apply land_range; [lia|done|done]|done].
Qed.

Lemma states_land s : s ∈ states → Z.land s kBlobStateMask = s.
Proof. unfold states. intros Hs. repeat (apply elem_of_cons in Hs as [->|Hs]; [done|]). by apply list_elem_of_In in Hs. Qed.

Lemma allowed_trans s1 s2 s3 : s1 ∈ states → s2 ∈ states → s3 ∈ states → allowed s1 s2 = true → allowed s2 s3 = true → allowed s1 s3 = true.
Proof.
  unfold states. intros H1 H2 H3.
  repeat (apply elem_of_cons in H1 as [->|H1]; [repeat (apply elem_of_cons in H2 as [->|H2]; [repeat (apply elem_of_cons in H3 as [->|H3]; [done|]); by apply list_elem_of_In in H3|]); by apply list_elem_of_In in H2|]).
  by apply list_elem_of_In in H1.
Qed.

#[export] Instance goes_preorder : PreOrder goes.
Proof.
  split; [intros b; by apply face_goes|]. intros b1 b2 b3 H12 H23 H1. destruct (H12 H1) as (K12 & H2 & A12). destruct (H23 H2) as (K23 & H3 & A23).
  split_and!; [by rewrite K23|done|]. by eapply (allowed_trans _ (GetState b2)); [by destruct H1|by destruct H2|by destruct H3|..].
Qed.

(** A state is set. *)
Lemma set_goes (b : Blob X) s : s ∈ states → allowed (GetState b) s = true → (s = kBlobStateDataWrite → is_Some b.(write_info_)) → goes b (SetState b s).
Proof.
  intros Hs Ha Hw [H1 H2 H3]. pose proof (SetState_state b s (states_land s Hs)) as E. split_and!; [done| |by rewrite E]. constructor; [by rewrite E|by apply SetState_flags|by rewrite E].
Qed.

(** What is to be written changes, and is there still. *)
Lemma with_write_info_goes (b : Blob X) w : goes b (with_write_info b (Some w)).
Proof. intros [? ? ?]. split_and!; [done|by constructor|]. change (GetState (with_write_info b (Some w))) with (GetState b). by unfold allowed; rewrite Z.eqb_refl. Qed.

Lemma drop_write_info_goes (b : Blob X) : GetState b ≠ kBlobStateDataWrite → goes b (with_write_info b None).
Proof. intros Hs [? ? ?]. split_and!; [done|by constructor|]. change (GetState (with_write_info b None)) with (GetState b). by unfold allowed; rewrite Z.eqb_refl. Qed.

Lemma SetState_twice (b : Blob X) s s' : s ∈ states → SetState (SetState b s) s' = SetState b s'.
Proof.
  intros Hs. unfold SetState. cbn [flags_ with_flags]. rewrite Z.land_lor_distr_l, <- Z.land_assoc, Z.land_diag.
  assert (Z.land s (u32 (Z.lnot kBlobStateMask)) = 0) as -> by (unfold states in Hs; repeat (apply elem_of_cons in Hs as [->|Hs]; [done|]); by apply list_elem_of_In in Hs). by rewrite Z.lor_0_r.
Qed.

Lemma signal_readable_face bs (b : Blob X) st bs' b' : signal_readable bs b = (st, bs', b') → b' = (if failed st then SetState b kBlobStateError else b') ∧ (failed st = false → same_face b b').
Proof.
  unfold signal_readable, call. destruct b.(readable_event_); [|intros [= <- <- <-]; by rewrite failed_ok]. destruct (failed (answers bs (time bs))) eqn:E; intros [= <- <- <-]; by rewrite E.
Qed.

Lemma WriteMetadata_goes a bs b st a' bs' b' : WriteMetadata true a bs b = Returns (st, a', bs', b') → goes b b'.
Proof.
  unfold WriteMetadata. intros E. apply bind_returns in E as (? & Hd & E). unfold ZX_DEBUG_ASSERT in Hd. destruct (GetState b =? kBlobStateDataWrite) eqn:Hst; [|done]. clear Hd. apply Z.eqb_eq in Hst.
  destruct (CreateWork bs) as [st0 [wb|]]; [|by destruct st0; ran E; done]. destruct st0; ran E; try done.
  all: set (bi := with_inode b _ _) in *; assert (goes b bi) as H1 by (by apply face_goes); change (GetState b) with (GetState bi) in Hst.
  all: apply signal_readable_face in M as [Hf Hs].
  - rewrite C, SetState_twice in Hf by (by repeat constructor). subst b'. etransitivity; [exact H1|]. apply set_goes; [by repeat constructor|by rewrite Hst|done].
  - assert (goes bi b0) as H2 by (etransitivity; [apply (set_goes bi kBlobStateReadable); [by repeat constructor|by rewrite Hst|done]|by apply face_goes, Hs]).
    etransitivity; [exact H1|]. etransitivity; [exact H2|]. etransitivity; [|apply with_write_info_goes]. by apply face_goes.
  - assert (goes bi b0) as H2 by (etransitivity; [apply (set_goes bi kBlobStateReadable); [by repeat constructor|by rewrite Hst|done]|by apply face_goes, Hs]).
    etransitivity; [exact H1|]. etransitivity; [exact H2|]. etransitivity; [|apply drop_write_info_goes]; [by apply face_goes|].
    change (GetState (with_sync b0 _ _)) with (GetState b0). by rewrite (face_state _ _ (Hs C)), SetState_state.
Qed.

Lemma finish_write_goes a bs b w wb st a' bs' b' : finish_write hash true a bs b w wb = Returns (st, a', bs', b') → goes b b'.
Proof.
  unfold finish_write. intros E. apply bind_returns in E as ([st1 w1] & _ & E). destruct (failed st1); [ran E; apply with_write_info_goes|].
  apply bind_returns in E as ([[[[st2 bs2] b2] wb2] it2] & E2 & E). apply write_tree_face, face_goes in E2. etransitivity; [apply (with_write_info_goes b w1)|]. etransitivity; [exact E2|].
  destruct (failed st2); [by ran E|]. destruct wb2 as [wb2|]; [|done]. apply bind_returns in E as ([[[st3 bs3] b3] wb3] & E3 & E). apply write_data_face, face_goes in E3. etransitivity; [exact E3|].
  destruct (failed st3); [by ran E|]. destruct wb3 as [wb3|]; [|done]. apply bind_returns in E as ([st4 bs4] & _ & E). destruct (failed st4); [by ran E|]. by eapply WriteMetadata_goes.
Qed.

Lemma set_error_goes (b b' : Blob X) : goes b b' → GetState b = kBlobStateDataWrite → goes b (SetState b' kBlobStateError).
Proof.
  intros Hg Hs Ht. destruct (Hg Ht) as (Hk & [? ? ?] & _). pose proof (SetState_state b' kBlobStateError eq_refl) as E.
  split_and!; [done| |by rewrite E, Hs]. constructor; [by rewrite E; repeat constructor|apply SetState_flags; [by repeat constructor|done]|by rewrite E].
Qed.

Lemma vmo_write_face bs b data off st bs' b' : vmo_write bs b data off = (st, bs', b') → same_face b b'.
Proof.
  unfold vmo_write, call. destruct (failed _); [by intros [= _ _ <-]|]. destruct b.(mapping_) as [[h bytes]|]; [|by intros [= _ _ <-]]. destruct (_ <=? _); by intros [= _ _ <-].
Qed.

Lemma WriteInternal_goes a bs b data st n a' bs' b' : WriteInternal hash true a bs b data = Returns (st, n, a', bs', b') → goes b b'.
Proof.
  unfold WriteInternal. intros E. destruct (_ =? 0); [by ran E|]. apply bind_returns in E as (m & _ & E). destruct (GetState b =? kBlobStateDataWrite) eqn:Hst; cbn [negb] in E; [|by ran E].
  destruct b.(write_info_) as [w|]; [|done]. destruct (vmo_write _ _ _ _) as [[st1 bs1] b1] eqn:Ev. apply vmo_write_face in Ev. apply Z.eqb_eq in Hst. rewrite <- (face_state _ _ Ev) in Hst. apply face_goes in Ev.
  destruct (failed st1); [by ran E|]. etransitivity; [exact Ev|]. apply bind_returns in E as ([st2 w2] & _ & E). etransitivity; [apply (with_write_info_goes b1 w2)|].
  change (GetState b1) with (GetState (with_write_info b1 (Some w2))) in Hst. set (b2 := with_write_info b1 _) in *.
  destruct (failed st2); [by ran E|]. destruct (_ <? _); [by ran E|]. destruct (CreateWork bs1) as [st3 [wb|]]; [|by destruct st3; ran E]. destruct st3; [|by ran E..].
  apply bind_returns in E as ([[[st4 a4] bs4] b4] & E4 & E). apply finish_write_goes in E4. ran E. destruct (failed _); [by apply set_error_goes|done].
Qed.

Lemma Append_goes a bs b data st n a' bs' b' : Append hash true a bs b data = Returns (st, n, a', bs', b') → goes b b'.
Proof. unfold Append. intros E. apply bind_returns in E as ([[[[st1 n1] a1] bs1] b1] & E1 & E). apply WriteInternal_goes in E1. by ran E. Qed.

Lemma null_blob_goes a bs b st a' bs' b' : null_blob hash true bst ist a bs b = Returns (st, a', bs', b') → GetState b = kBlobStateEmpty → goes b b'.
Proof.
  unfold null_blob. intros E Hs. apply bind_returns in E as ([[[st1 a1] bs1] nodes] & _ & E). destruct (failed st1); [by ran E|].
  apply bind_returns in E as (node & _ & E). apply bind_returns in E as (i & _ & E). apply bind_returns in E as (a2 & _ & E). apply bind_returns in E as (st2 & _ & E). set (b1 := with_write_info _ _) in *.
  assert (goes b b1) as H1 by (etransitivity; [|apply with_write_info_goes]; by apply face_goes). etransitivity; [exact H1|]. destruct (failed st2); [by ran E|].
  apply WriteMetadata_goes in E. etransitivity; [|exact E]. apply set_goes; [by repeat constructor| |by eexists]. change (GetState b1) with (GetState b). by rewrite Hs.
Qed.

Lemma SpaceAllocate_goes a bs b size st a' bs' b' : SpaceAllocate hash true bst ist a bs b size = Returns (st, a', bs', b') → goes b b'.
Proof.
  unfold SpaceAllocate. intros E. destruct (GetState b =? kBlobStateEmpty) eqn:Hs; cbn [negb] in E; [|by ran E]. apply Z.eqb_eq in Hs. apply bind_returns in E as (n & _ & E).
  set (b1 := with_inode b _ n) in *. assert (goes b b1) as H1 by (by apply face_goes). etransitivity; [exact H1|]. change (GetState b) with (GetState b1) in Hs. destruct (_ =? 0); [by eapply null_blob_goes|].
  ran E. all: try done. set (bw := with_write_info _ _). assert (goes b1 bw) as H2 by (etransitivity; [|apply with_write_info_goes]; by apply face_goes). etransitivity; [exact H2|].
  change (GetState b1) with (GetState bw) in Hs. apply set_goes; [by repeat constructor|by rewrite Hs|by eexists].
Qed.

(** ** Loading a blob *)

(** The mapping is filled again, with as many bytes. *)
Definition refilled (b b' : Blob X) : Prop := ∃ m', b' = with_mapping b m' ∧ ∀ h v, b.(mapping_) = Some (h, v) → ∃ v', m' = Some (h, v') ∧ length v' = length v.

Lemma refilled_refl b : refilled b b.
Proof. exists b.(mapping_). split; [by destruct b|]. intros h v ->. by exists v. Qed.

Lemma refilled_fmap b (f : list Z → list Z) : (∀ v, length (f v) = length v) → refilled b (with_mapping b ((λ m, (fst m, f (snd m))) <$> b.(mapping_))).
Proof. intros Hf. eexists. split; [done|]. intros h v ->. exists (f v). by split; [|apply Hf]. Qed.

Lemma refilled_trans b1 b2 b3 : refilled b1 b2 → refilled b2 b3 → refilled b1 b3.
Proof.
  intros (m2 & -> & H2) (m3 & -> & H3). exists m3. split; [done|]. intros h v Hv. destruct (H2 h v Hv) as (v2 & -> & <-). exact (H3 h v2 eq_refl).
Qed.

Lemma length_patched bytes off new : length (patch bytes off new) = length bytes.
Proof. unfold patch. rewrite length_app, length_drop, !length_take, length_app, length_take. lia. Qed.

Lemma refilled_patch b off new : refilled b (with_mapping b ((λ m, (fst m, patch (snd m) off new)) <$> b.(mapping_))).
Proof. apply (refilled_fmap b (λ v, patch v off new)). intros v. apply length_patched. Qed.

Lemma length_read_request id vmo r : length (read_request k disk id vmo r) = length vmo.
Proof.
  unfold read_request. destruct (_ =? _); [|done]. generalize (seqZ 0 (r.(req_length) / k)). intros l. revert vmo. induction l as [|i l IH]; intros vmo; [done|]. cbn [foldl]. by rewrite IH, length_patched.
Qed.

Lemma Transact_length bs rs st bs' read id v : Transact k disk bs rs = Returns (st, bs', read) → length (read id v) = length v.
Proof.
  unfold Transact. destruct rs as [|r rs]; [by intros [= _ _ <-]|]. intros E. apply bind_returns in E as (l & _ & E). unfold call in E. injection E as _ _ <-. destruct (failed _); [done|].
  clear. revert v. induction l as [|r l IH]; intros v; [done|]. cbn [foldl]. by rewrite IH, length_read_request.
Qed.

Lemma Transact_refills bs rs st bs' read b : Transact k disk bs rs = Returns (st, bs', read) → refilled b (read_mapping read b).
Proof. intros E. apply refilled_fmap. intros v. by eapply Transact_length. Qed.

Lemma destroy_txn_refills bs rs b r : destroy_txn k disk bs rs b = Returns r → refilled b (snd r).
Proof. unfold destroy_txn. intros E. ran E. by eapply Transact_refills. Qed.

Lemma InitUncompressed_refills a bs b st bs' b' : InitUncompressed k disk a bs b = Returns (st, bs', b') → refilled b b'.
Proof.
  unfold InitUncompressed. intros E. ran E. all: try apply refilled_refl; try by eapply Transact_refills. all: by eapply destroy_txn_refills.
Qed.

Lemma InitCompressed_refills a bs b alg st bs' b' : InitCompressed k disk a bs b alg = Returns (st, bs', b') → refilled b b'.
Proof.
  unfold InitCompressed. intros E. ran E. all: try apply refilled_refl; try by eapply Transact_refills. all: try by eapply destroy_txn_refills.
  all: eapply refilled_trans; [by eapply Transact_refills|]. all: apply refilled_patch.
Qed.

Lemma CreateAndMap_cases bs size st m bs' : CreateAndMap bs size = (st, m, bs') → (st = ZX_OK ∧ ∃ h, m = Some (h, replicate (Z.to_nat size) 0)) ∨ (failed st = true ∧ m = None).
Proof. unfold CreateAndMap, call. destruct (failed (answers bs (time bs))) eqn:E; intros [= <- <- <-]; [by right|left; eauto]. Qed.

Lemma AttachVmo_cases bs st m bs' : AttachVmo bs = (st, m, bs') → (st = ZX_OK ∧ is_Some m) ∨ (failed st = true ∧ m = None).
Proof. unfold AttachVmo, call. destruct (failed (answers bs (time bs))) eqn:E; intros [= <- <- <-]; [by right|left; eauto]. Qed.

(** A blob that was loaded was verified. *)
Lemma load_verified a bs b size st bs' b' : load hash true k disk a bs b size = Returns (st, bs', b') → ∃ m id, b' = with_vmoid (with_mapping b m) id ∧
  (failed st = false → (∃ h v, m = Some (h, v) ∧ length v = Z.to_nat size) ∧ Blob_Verify hash true b' = Returns st).
Proof.
  unfold load. intros E. destruct (CreateAndMap bs size) as [[st1 m1] bs1] eqn:E1. apply CreateAndMap_cases in E1 as [(-> & h & ->)|(Hf & ->)].
  2: { exists b.(mapping_), b.(vmoid_). by destruct st1; ran E; (split; [by destruct b'|rewrite Hf]). }
  destruct (AttachVmo bs1) as [[st2 m2] bs2] eqn:E2. apply AttachVmo_cases in E2 as [(-> & id & ->)|(Hf & ->)].
  2: { eexists _, b.(vmoid_). by destruct st2; ran E; (split; [done|rewrite Hf]). }
  set (b1 := with_vmoid _ _) in *. apply bind_returns in E as ([[st3 bs3] b3] & E3 & E).
  assert (refilled b1 b3) as (m3 & -> & Hm3) by (revert E3; destruct (negb _); [apply InitCompressed_refills|]; destruct (negb _); [apply InitCompressed_refills|apply InitUncompressed_refills]).
  destruct (Hm3 _ _ eq_refl) as (v & -> & Hv). rewrite length_replicate in Hv. exists (Some (h, v)), id. split; [by ran E|].
  destruct (failed st3) eqn:Hf; ran E; [congruence|]. split; [by exists h, v|done].
Qed.

(** Name, state, inode and what is to be written; the mapping, if there is one. *)
Definition same_blob (b b' : Blob X) : Prop := same_face b b' ∧ b'.(Blob.inode_) = b.(Blob.inode_) ∧ b'.(map_index_) = b.(map_index_) ∧ (is_Some b.(mapping_) → b'.(mapping_) = b.(mapping_) ∨ b'.(mapping_) = None).

Lemma InitVmos_same a bs b st bs' b' : InitVmos hash true k disk a bs b = Returns (st, bs', b') → same_blob b b' ∧ (b.(mapping_) ≠ None → b' = b).
Proof.
  unfold InitVmos. intros E. destruct b.(mapping_) as [hm|] eqn:Hm; [ran E; by split; [split_and!; try done; intros _; left|]|]. split; [|done]. apply bind_returns in E as (m & _ & E). unfold same_blob. rewrite Hm.
  destruct (_ =? 0); [by ran E; split_and!; try done; intros []|]. apply bind_returns in E as ([[st1 bs1] b1] & E1 & E). destruct (_ <? _); [ran E1; ran E; (split_and!; try done; by intros [])|].
  apply load_verified in E1 as (m1 & id & -> & _). ran E. destruct (failed st); (split_and!; try done; by intros []).
Qed.

Lemma ReadInternal_same a bs b len off st bytes bs' b' : ReadInternal hash true k disk a bs b len off = Returns (st, bytes, bs', b') → same_blob b b' ∧ (b.(mapping_) ≠ None → b' = b).
Proof.
  assert (same_blob b b) as Hb by (split_and!; try done; by left). unfold ReadInternal. intros E. destruct (negb _); [by ran E|]. destruct (_ =? 0); [by ran E|]. apply bind_returns in E as ([[st1 bs1] b1] & E1 & E). apply InitVmos_same in E1. by ran E.
Qed.

Lemma same_blob_refl b : same_blob b b.
Proof. split_and!; try done. by left. Qed.

Lemma CloneVmo_same a bs b st bytes bs' b' : CloneVmo hash true k disk a bs b = Returns (st, bytes, bs', b') → same_blob b b'.
Proof.
  unfold CloneVmo, call. intros E. destruct (_ || _); [ran E; apply same_blob_refl|]. apply bind_returns in E as ([[st1 bs1] b1] & E1 & E). apply InitVmos_same in E1 as [E1 _]. ran E; try done.
Qed.

Lemma GetReadableEvent_same bs b st bs' b' : GetReadableEvent bs b = (st, bs', b') → same_blob b b'.
Proof.
  unfold GetReadableEvent, call. destruct b.(readable_event_); [rewrite failed_ok; intros [= _ _ <-]; apply same_blob_refl|]. destruct (failed (answers bs (time bs))) eqn:E1; [rewrite E1; intros [= _ _ <-]; apply same_blob_refl|].
  destruct (_ =? _); rewrite failed_ok; intros [= _ _ <-]; (split_and!; try done; by left).
Qed.

Lemma HandleNoClones_same (b b' : Blob X) : HandleNoClones b = Returns b' → same_blob b b'.
Proof. unfold HandleNoClones. intros E. ran E. split_and!; try done. by left. Qed.

Lemma ActivateLowMemory_same bs (b : Blob X) bs' b' : ActivateLowMemory bs b = Returns (bs', b') → same_blob b b'.
Proof. unfold ActivateLowMemory. intros E. ran E; (split_and!; try done; by right). Qed.

(** ** The end of a blob *)

Lemma unlink_state (b : Blob X) : GetState (with_flags b (Z.lor b.(flags_) kBlobFlagDeletable)) = GetState b.
Proof. unfold GetState. cbn [flags_ with_flags]. rewrite Z.land_lor_distr_l. change (Z.land kBlobFlagDeletable kBlobStateMask) with 0. apply Z.lor_0_r. Qed.

Lemma unlink_goes (b : Blob X) : goes b (with_flags b (Z.lor b.(flags_) kBlobFlagDeletable)).
Proof.
  intros [? ? ?]. pose proof (unlink_state b) as E. split_and!; [done| |by rewrite E; unfold allowed; rewrite Z.eqb_refl]. constructor; rewrite ?E; try done. by apply lor_range.
Qed.

Lemma TryPurge_ends evicted a bs (b : Blob X) st a' bs' b' : TryPurge evicted a bs b = Returns (st, a', bs', b') → b' = b ∨ b' = SetState b kBlobStatePurged.
Proof. unfold TryPurge, Purge. intros E. destruct (Purgeable b); [|ran E; by left]. apply bind_returns in E as ([[st1 a1] bs1] & _ & E). ran E; [by left|by right]. Qed.

Lemma Close_ends evicted a bs (b : Blob X) st a' bs' b' : Close evicted a bs b = Returns (st, a', bs', b') → ∃ b1, same_blob b b1 ∧ (b' = b1 ∨ b' = SetState b1 kBlobStatePurged).
Proof. unfold Close. intros E. apply bind_returns in E as (? & _ & E). eexists. split; [|by eapply TryPurge_ends]. split_and!; try done. by left. Qed.

Lemma purged_goes (b : Blob X) : goes b (SetState b kBlobStatePurged).
Proof. apply set_goes; [by repeat constructor|unfold allowed; rewrite Z.eqb_refl; by rewrite orb_true_r|done]. Qed.

End calls.

(** ** Steps *)

Section steps.
Context {X : Type} `{BlobCompressor X} (hash : list Z → list Z) (bst : Storage) (ist : Z → Storage) (k : Z).

Definition world : Type := Allocator * Blobfs * Blob X.

(** One call of the vnode; the device may hold anything. *)
Inductive blob_step : world → world → Prop :=
  | step_allocate a bs b size st a' bs' b' : SpaceAllocate hash true bst ist a bs b size = Returns (st, a', bs', b') → blob_step (a, bs, b) (a', bs', b')
  | step_append a bs b data st n a' bs' b' : Append hash true a bs b data = Returns (st, n, a', bs', b') → blob_step (a, bs, b) (a', bs', b')
  | step_read a bs b disk len off st bytes bs' b' : ReadInternal hash true k disk a bs b len off = Returns (st, bytes, bs', b') → blob_step (a, bs, b) (a, bs', b')
  | step_clone a bs b disk st bytes bs' b' : CloneVmo hash true k disk a bs b = Returns (st, bytes, bs', b') → blob_step (a, bs, b) (a, bs', b')
  | step_event a bs b st bs' b' : GetReadableEvent bs b = (st, bs', b') → blob_step (a, bs, b) (a, bs', b')
  | step_no_clones a bs b b' : HandleNoClones b = Returns b' → blob_step (a, bs, b) (a, bs, b')
  | step_low_memory a bs b bs' b' : ActivateLowMemory bs b = Returns (bs', b') → blob_step (a, bs, b) (a, bs', b')
  | step_synced a bs b : blob_step (a, bs, b) (a, bs, CompleteSync b)
  | step_open a bs b : blob_step (a, bs, b) (a, bs, Open b)
  | step_close a bs b evicted st a' bs' b' : Close evicted a bs b = Returns (st, a', bs', b') → blob_step (a, bs, b) (a', bs', b')
  | step_unlink a bs b evicted st a' bs' b' : QueueUnlink evicted a bs b = Returns (st, a', bs', b') → blob_step (a, bs, b) (a', bs', b').

Lemma step_goes a bs b a' bs' b' : blob_step (a, bs, b) (a', bs', b') → goes b b'.
Proof.
  assert (∀ b1 b2 : Blob X, b2 = b1 ∨ b2 = SetState b1 kBlobStatePurged → goes b1 b2) as Hp by (intros b1 b2 [->| ->]; [done|apply purged_goes]).
  inversion 1 as [? ? ? ? ? ? ? ? E|? ? ? ? ? ? ? ? ? E|? ? ? ? ? ? ? ? ? ? E|? ? ? ? ? ? ? ? E|? ? ? ? ? ? E|? ? ? ? E|? ? ? ? ? E| | |? ? ? ? ? ? ? ? E|? ? ? ? ? ? ? ? E]; subst; try by apply face_goes.
  - by eapply SpaceAllocate_goes.
  - by eapply Append_goes.
  - apply face_goes. by eapply ReadInternal_same.
  - apply face_goes. by eapply CloneVmo_same.
  - apply face_goes. by eapply GetReadableEvent_same.
  - apply face_goes. by eapply HandleNoClones_same.
  - apply face_goes. by eapply ActivateLowMemory_same.
  - apply Close_ends in E as (b1 & [Hf _] & E). etransitivity; [by apply face_goes|by apply Hp].
  - etransitivity; [apply unlink_goes|]. by eapply Hp, TryPurge_ends.
Qed.

(** ** Readable blobs *)

(** A blob that is neither empty nor being written refuses to be written. *)
Lemma refuses a bs b size data : GetState b ≠ kBlobStateEmpty → GetState b ≠ kBlobStateDataWrite →
  SpaceAllocate hash true bst ist a bs b size = Returns (ZX_ERR_BAD_STATE, a, bs, b) ∧
  ∀ st n a' bs' b', Append hash true a bs b data = Returns (st, n, a', bs', b') → a' = a ∧ bs' = bs ∧ b' = b ∧ (data ≠ [] → st = ZX_ERR_BAD_STATE).
Proof.
  intros H1 H2. split; [unfold SpaceAllocate; by ztest|]. intros st n a' bs' b'. unfold Append, WriteInternal. intros E. apply bind_returns in E as ([[[[st1 n1] a1] bs1] b1] & E1 & E).
  assert (a1 = a ∧ bs1 = bs ∧ b1 = b ∧ (data ≠ [] → st1 = ZX_ERR_BAD_STATE)) as (-> & -> & -> & Hst).
  { destruct data as [|y data]; [by ran E1|]. cbn [length] in E1. revert E1. ztest. intros E1. apply bind_returns in E1 as (m & _ & E1). by ran E1. }
  revert E. ztest. intros E. by ran E.
Qed.

(** Name, inode and index are the same, and the blob is readable or purged. *)
Definition fixed (b b' : Blob X) : Prop := b'.(key) = b.(key) ∧ b'.(Blob.inode_) = b.(Blob.inode_) ∧ b'.(map_index_) = b.(map_index_) ∧ GetState b' ∈ [kBlobStateReadable; kBlobStatePurged].

Lemma step_fixed a bs b a' bs' b' : blob_step (a, bs, b) (a', bs', b') → GetState b ∈ [kBlobStateReadable; kBlobStatePurged] → fixed b b'.
Proof.
  intros Hst Hb. assert (∀ b', same_blob b b' → fixed b b') as Hsame by (intros b1 (Hf & Hi & Hx & _); split_and!; [apply Hf|done|done|by rewrite (face_state _ _ Hf)]).
  assert (∀ b1 b2 : Blob X, b2 = b1 ∨ b2 = SetState b1 kBlobStatePurged → fixed b b1 → fixed b b2) as Hp.
  { intros b1 b2 [->| ->] Hf; [done|]. destruct Hf as (? & ? & ? & _). split_and!; try done. rewrite SetState_state by done. by repeat constructor. }
  inversion Hst as [? ? ? ? ? ? ? ? E|? ? ? ? ? ? ? ? ? E|? ? ? ? ? ? ? ? ? ? E|? ? ? ? ? ? ? ? E|? ? ? ? ? ? E|? ? ? ? E|? ? ? ? ? E| | |? ? ? ? ? ? ? ? E|? ? ? ? ? ? ? ? E]; subst.
  - apply Hsame. destruct (refuses a bs b size []) as [E' _]; [..|rewrite E' in E; injection E as _ _ _ <-; apply same_blob_refl]; intros Hx; rewrite Hx in Hb; by repeat (apply elem_of_cons in Hb as [Hb|Hb]; [done|]); apply list_elem_of_In in Hb.
  - apply Hsame. destruct (refuses a bs b 0 data) as [_ E']; [..|apply E' in E as (_ & _ & -> & _); apply same_blob_refl]; intros Hx; rewrite Hx in Hb; by repeat (apply elem_of_cons in Hb as [Hb|Hb]; [done|]); apply list_elem_of_In in Hb.
  - apply Hsame. by eapply ReadInternal_same.
  - apply Hsame. by eapply CloneVmo_same.
  - apply Hsame. by eapply GetReadableEvent_same.
  - apply Hsame. by eapply HandleNoClones_same.
  - apply Hsame. by eapply ActivateLowMemory_same.
  - apply Hsame. split_and!; try done. by left.
  - apply Hsame. split_and!; try done. by left.
  - apply Close_ends in E as (b1 & Hf & E). by apply (Hp b1), Hsame.
  - eapply Hp; [by eapply TryPurge_ends|]. split_and!; try done. by rewrite unlink_state.
Qed.

End steps.

(** ** What a mapping that was verified holds *)

Section verified.
Context {X : Type} `{BlobCompressor X} (hash : list Z → list Z) (Hhash : ∀ x, length (hash x) = 32%nat) (k : Z) (disk : list block).

(** No data and tree of these sizes have digests that are those of [D] by chance. *)
Definition collision_free (D : list Z) : Prop :=
  ∀ data tree, zlen data = zlen D → zlen tree = 8192 * merkle_blocks (zlen D) → no_collision hash 9 0 data (zlen D) tree 0 (zlen D) D.

Lemma not_failed st : failed st = false → st = ZX_OK.
Proof. intros Hf. destruct (decide (st = ZX_OK)) as [|Hne]; [done|]. apply failed_spec in Hne. congruence. Qed.

Lemma split_mapping (v : list Z) D : length v = Z.to_nat (8192 * (merkle_blocks (zlen D) + data_blocks (zlen D))) → 0 < zlen D < UINT32_MAX →
  ∃ tree data pad, v = tree ++ data ++ pad ∧ zlen tree = 8192 * merkle_blocks (zlen D) ∧ zlen data = zlen D.
Proof.
  intros Hv HD. pose proof (merkle_blocks_bound (zlen D) ltac:(lia)) as Hm. assert (zlen D ≤ 8192 * data_blocks (zlen D)) as Hd by (unfold data_blocks; clear; zlia).
  exists (take (Z.to_nat (8192 * merkle_blocks (zlen D))) v), (take (Z.to_nat (zlen D)) (drop (Z.to_nat (8192 * merkle_blocks (zlen D))) v)), (drop (Z.to_nat (zlen D)) (drop (Z.to_nat (8192 * merkle_blocks (zlen D))) v)).
  rewrite !take_drop. unfold zlen in *. rewrite !length_take, length_drop. split_and!; [done|lia|lia].
Qed.

Lemma Blob_Verify_sound (b : Blob X) h tree data pad D : b.(mapping_) = Some (h, tree ++ data ++ pad) → zlen tree = 8192 * merkle_blocks (zlen D) → zlen data = zlen D →
  field_get blob_size b.(Blob.inode_) = zlen D → 0 < zlen D < UINT32_MAX → b.(key) = merkle_root hash D → covered 9 (zlen D) 0 (zlen D) = true → collision_free D →
  Blob_Verify hash true b = Returns ZX_OK → data = D.
Proof.
  intros Hm Ht Hd Hs HD Hk Hcov Hcf HV. pose proof HD as HD'. unfold UINT32_MAX in HD'. rewrite <- Hd in Hs, HD, Ht.
  assert (zlen b.(key) = 32) as Hz by (rewrite Hk; apply zlen_merkle_root; [done|apply max_levels_enough; lia|lia]).
  apply (integrity_ok _ _ (Blob_Verify_integrity hash Hhash b h tree data pad Hm Hs HD Ht Hz)) in HV. rewrite Hk, Hd in HV. rewrite Hd in Ht.
  apply byte_ext; [done|]. intros j Hj. apply (accepts_sound hash Hhash 8 0 data (zlen D) tree 0 (zlen D) D); try (done || lia).
  - rewrite Ht, <- merkle_blocks_size by lia. done.
  - by left.
  - by apply Hcf.
  - unfold checked, first_node, end_node, ceil_nodes. zcases; zlia.
Qed.

Section blob.
Context (b : Blob X) (D : list Z) (Hsize : field_get blob_size b.(Blob.inode_) = zlen D) (Hbound : 0 < zlen D < UINT32_MAX) (Hmap : b.(mapping_) = None).

Lemma InitVmos_verified a bs st bs' b' : InitVmos hash true k disk a bs b = Returns (st, bs', b') → failed st = false →
  ∃ h v, b'.(mapping_) = Some (h, v) ∧ length v = Z.to_nat (8192 * (merkle_blocks (zlen D) + data_blocks (zlen D))) ∧ Blob_Verify hash true b' = Returns ZX_OK.
Proof using Hsize Hbound Hmap.
  intros E Hst. pose proof Hbound as Hb. unfold UINT32_MAX in Hb. pose proof (merkle_blocks_bound (zlen D) ltac:(lia)) as Hm. assert (0 < data_blocks (zlen D) < 2 ^ 20) as Hd by (unfold data_blocks; clear -Hb; zlia).
  unfold InitVmos in E. rewrite Hmap, (MerkleTreeBlocks_ok _ _ Hsize), (BlobDataBlocks_ok _ _ Hsize) in E by lia. cbn [mbind outcome_bind] in E. revert E. unwrap. unfold SIZE_MAX, kBlobfsBlockSize. ztest. intros E.
  apply bind_returns in E as ([[st1 bs1] b1] & E1 & E). apply load_verified in E1 as (m & id & -> & Hv). injection E as <- <- <-. rewrite Hst in *. destruct (Hv eq_refl) as [(h & v & -> & Hl) HV].
  exists h, v. split_and!; [done|rewrite Hl; f_equal; lia|]. rewrite HV. f_equal. by apply not_failed.
Qed.

Lemma ReadInternal_sound a bs len off bytes bs' b' : b.(key) = merkle_root hash D → covered 9 (zlen D) 0 (zlen D) = true → collision_free D → 0 ≤ off < 2 ^ 64 → 0 ≤ len < 2 ^ 64 →
  ReadInternal hash true k disk a bs b len off = Returns (ZX_OK, bytes, bs', b') → bytes = slice D off len.
Proof using All.
  intros Hk Hcov Hcf Hoff Hlen E. pose proof Hbound as Hb. unfold UINT32_MAX in Hb. unfold ReadInternal in E. destruct (negb _); [by ran E|]. rewrite Hsize in E. revert E. ztest. intros E.
  apply bind_returns in E as ([[st1 bs1] b1] & E1 & E). destruct (failed st1) eqn:Hf; [ran E; by rewrite failed_ok in Hf|].
  destruct (InitVmos_verified _ _ _ _ _ E1 Hf) as (h & v & Hv & Hl & HV). apply InitVmos_same in E1 as [((Hk1 & _ & _) & Hi1 & _) _]. destruct (split_mapping v D Hl Hbound) as (tree & data & pad & -> & Ht & Hd).
  assert (data = D) as -> by (eapply Blob_Verify_sound; (done || congruence)).
  destruct (Z.leb_spec (zlen D) off) as [Hge|Hlt]; [ran E; unfold slice; rewrite drop_ge by (unfold zlen in Hge; lia); by rewrite take_nil|].
  rewrite Hi1, (MerkleTreeBlocks_ok _ _ Hsize) in E by lia. cbn [mbind outcome_bind] in E. unfold call, GetMerkle in E. rewrite Hv in E. destruct (failed (answers _ _)) eqn:Hf2; [injection E as Ea _ _ _; by rewrite Ea, failed_ok in Hf2|].
  cbn [mbind outcome_bind] in E. pose proof (merkle_blocks_bound (zlen D) ltac:(lia)) as Hm. ran E; [|done]. unfold kBlobfsBlockSize. unwrap.
  replace (if zlen D - off <? len then zlen D - off else len) with (Z.min (zlen D - off) len) by (zcases; lia). apply slice_mapped; [done|lia..].
Qed.

End blob.
End verified.

(** ** Theorems *)

Section runs.
Context {X : Type} `{BlobCompressor X} (hash : list Z → list Z) (bst : Storage) (ist : Z → Storage) (k : Z).

Lemma run_goes (w w' : world) : rtc (blob_step hash bst ist k) w w' → goes (snd w) (snd w').
Proof. induction 1 as [w|[[a1 bs1] b1] [[a2 bs2] b2] w3 Hs _ IH]; [done|]. etransitivity; [by eapply step_goes|exact IH]. Qed.

Lemma run_fixed (w w' : world) : rtc (blob_step hash bst ist k) w w' → GetState (snd w) ∈ [kBlobStateReadable; kBlobStatePurged] → fixed (snd w) (snd w').
Proof.
  induction 1 as [w|[[a1 bs1] b1] [[a2 bs2] b2] w3 Hs _ IH]; intros Hst; [by split_and!|]. destruct (step_fixed _ _ _ _ _ _ _ _ _ _ Hs Hst) as (Hk & Hi & Hx & Hst'). destruct (IH Hst') as (Hk' & Hi' & Hx' & Hst'').
  cbn [snd] in *. split_and!; congruence || done.
Qed.
End runs.

Lemma new_blob_typed {X} digest : typed (NewBlob (X := X) digest).
Proof. constructor; [by repeat constructor|done|done]. Qed.

(** C18. Reachable blobs are well formed.  Whatever calls are made on a new blob, and whatever the kernel, the device and
    the queues answer: its flags are a 32-bit word that holds exactly one of the five states, a blob that is being
    written has its write information, so that [Append] never follows a null pointer to it, and the name is the one it
    was created with.  Of any two moments of its life, the states are in an order that is allowed: nothing
    becomes empty again, only an empty blob or one that is being written becomes readable or fails, and a purged one
    stays so. *)
Theorem blob_states_typed {X} `{BlobCompressor X} hash bst ist k digest a bs a1 bs1 b1 a2 bs2 b2 :
  rtc (blob_step (X := X) hash bst ist k) (a, bs, NewBlob digest) (a1, bs1, b1) → rtc (blob_step hash bst ist k) (a1, bs1, b1) (a2, bs2, b2) →
  typed b2 ∧ b2.(key) = digest ∧ allowed (GetState b1) (GetState b2) = true.
Proof.
  intros H1 H2. destruct (run_goes hash bst ist k _ _ H1 (new_blob_typed digest)) as (Hk1 & Ht1 & _). destruct (run_goes hash bst ist k _ _ H2 Ht1) as (Hk2 & Ht2 & Ha).
  cbn [snd] in *. split_and!; [done|by rewrite Hk2, Hk1|done].
Qed.

Lemma blob_states_typed_witness : ∃ s t a bs (b : Blob (list Z)), nodes_ok (small_allocator s) t ∧
  rtc (blob_step xor_hash (IdAllocator.vmo 0) IdAllocator.vmo 16) (small_allocator s, small_fs, NewBlob (replicate 32 0)) (a, bs, b) ∧ GetState b = kBlobStateDataWrite ∧ is_Some b.(write_info_).
Proof.
  destruct small_nodes_ok as (s & t & Hno & Hids). destruct (small_space s t Hno Hids) as (r & es & Hsp & Hes). exists s, t.
  destruct (SpaceAllocate_ok (X := list Z) xor_hash (IdAllocator.vmo 0) IdAllocator.vmo (small_allocator s) small_fs small_disk (replicate 32 0) 80000 t r es Hsp (small_fits (replicate 32 0) eq_refl) (ch_compressor _ _ (small_hold (replicate 32 0) eq_refl)))
    as (a & bs & b & w & h & E & _ & _ & Hfl & _). exists a, bs, b.
  assert (rtc (blob_step xor_hash (IdAllocator.vmo 0) IdAllocator.vmo 16) (small_allocator s, small_fs, NewBlob (replicate 32 0)) (a, bs, b)) as Hrun by (eapply rtc_once, step_allocate, E).
  pose proof (rd_state _ _ _ _ (fl_ready _ _ _ _ _ _ _ Hfl)) as Hst.
  destruct (blob_states_typed xor_hash (IdAllocator.vmo 0) IdAllocator.vmo 16 (replicate 32 0) _ _ _ _ _ _ _ _ Hrun (rtc_refl _ (a, bs, b))) as ([_ _ Hw] & _ & _).
  split; [exact Hno|]. split; [exact Hrun|]. split; [exact Hst|exact (Hw Hst)].
Defined.

(** C19. Readable blobs are immutable.  Whatever calls are made on a readable blob, and whatever the answers: its name,
    its inode and the index of it stay, and it is readable until it is purged; an attempt to allocate it again or to
    append to it is refused and leaves everything as it is. *)
Theorem blob_immutable {X} `{BlobCompressor X} hash bst ist k a bs (b : Blob X) a' bs' b' :
  rtc (blob_step hash bst ist k) (a, bs, b) (a', bs', b') → GetState b = kBlobStateReadable →
  b'.(key) = b.(key) ∧ b'.(Blob.inode_) = b.(Blob.inode_) ∧ b'.(map_index_) = b.(map_index_) ∧
  (GetState b' = kBlobStateReadable ∨ GetState b' = kBlobStatePurged) ∧
  (∀ size, SpaceAllocate hash true bst ist a' bs' b' size = Returns (ZX_ERR_BAD_STATE, a', bs', b')) ∧
  ∀ data st n a'' bs'' b'', data ≠ [] → Append hash true a' bs' b' data = Returns (st, n, a'', bs'', b'') → st = ZX_ERR_BAD_STATE ∧ a'' = a' ∧ bs'' = bs' ∧ b'' = b'.
Proof.
  intros Hr Hst. destruct (run_fixed hash bst ist k _ _ Hr) as (Hk & Hi & Hx & Hs); [cbn; rewrite Hst; by repeat constructor|]. cbn [snd] in *.
  assert (GetState b' = kBlobStateReadable ∨ GetState b' = kBlobStatePurged) as Hs' by (apply elem_of_cons in Hs as [?|Hs]; [by left|right; by apply list_elem_of_singleton in Hs]).
  assert (∀ size data, _) as Href by (intros size data; exact (refuses hash bst ist a' bs' b' size data ltac:(by destruct Hs' as [-> | ->]) ltac:(by destruct Hs' as [-> | ->]))).
  split_and!; try done; [intros size; apply (Href size [])|]. intros data st n a'' bs'' b'' Hd E. apply (Href 0 data) in E as (-> & -> & -> & Hst'). by split_and!; [apply Hst'|..].
Qed.

(** A readable blob that is opened, and whose mapping is given up. *)
Definition readable_blob : Blob (list Z) := SetState (NewBlob (replicate 32 0)) kBlobStateReadable.

Lemma blob_immutable_witness : ∃ a b', rtc (blob_step xor_hash (IdAllocator.vmo 0) IdAllocator.vmo 16) (a, small_fs, readable_blob) (a, small_fs, b') ∧ b'.(fd_count_) = 1 ∧
  b'.(key) = replicate 32 0 ∧ SpaceAllocate xor_hash true (IdAllocator.vmo 0) IdAllocator.vmo a small_fs b' 5 = Returns (ZX_ERR_BAD_STATE, a, small_fs, b').
Proof.
  exists (small_allocator {| id_count_ := 0; level_count_ := 0; levels_ := [] |}), (CompleteSync (Open readable_blob)). set (a := small_allocator _).
  assert (rtc (blob_step xor_hash (IdAllocator.vmo 0) IdAllocator.vmo 16) (a, small_fs, readable_blob) (a, small_fs, CompleteSync (Open readable_blob))) as Hrun
    by (eapply rtc_l; [apply step_open|]; eapply rtc_once, step_synced).
  destruct (blob_immutable xor_hash (IdAllocator.vmo 0) IdAllocator.vmo 16 _ _ _ _ _ _ Hrun eq_refl) as (Hk & _ & _ & _ & Hs & _).
  split; [exact Hrun|]. split; [reflexivity|]. split; [exact Hk|exact (Hs 5)].
Defined.


(** A hash function that has no collision with the digest of three bytes. *)
Definition three_hash (x : list Z) : list Z := replicate 32 (if bool_decide (x = node_input 0 3 0 [1; 2; 3]) then 0 else 1).

(** A node of a blob of three bytes in block 0, and a device that has them there. *)
Definition three_node : Inode :=
  foldl (λ n fv, field_set (fst fv) n (snd fv)) zero_node
    [(node_flags, kBlobFlagAllocated); (blob_size, 3); (block_count, 1); (inode_extent_count, 1); (inode_extents 0, 2 ^ 48)].

Definition three_allocator : Allocator := with_node_map (small_allocator {| id_count_ := 0; level_count_ := 0; levels_ := [] |}) [three_node].

Definition three_disk : list block := replicate 19 [] ++ [[1; 2; 3] ++ zeros 8189].

Definition three_blob : Blob (list Z) := with_inode (SetState (NewBlob (replicate 32 0)) kBlobStateReadable) 0 three_node.

Lemma three_read : ∃ bytes bs' b', ReadInternal three_hash true 1 three_disk three_allocator small_fs three_blob 2 1 = Returns (ZX_OK, bytes, bs', b').
Proof. vm_compute. do 3 eexists. reflexivity. Qed.

