(* ===== verification/BlobCache.v ===== *)
(** * The cache of blobs (ulib/blobfs/blob-cache.cpp, cache-node.cpp and their headers)

    The cache holds nodes weakly, under their digests: the open ones, to which there are references, and the closed ones,
    of which the cache has leaked the last reference.  A node lives in a heap, with its count of references; the
    references that exist are listed, and so are the nodes whose last reference was dropped and that some thread is about
    to recycle.  Between the two another thread may find such a node in the open set, with a count of zero, and has to
    wait.  What a node is beyond that is given by the interface [CacheNodeOps]. *)

From stdpp Require Import gmap gmultiset.
From S2P Require Import Prelude.

(** The virtual methods of [CacheNode], and its destructor, which may act on the world outside of the node. *)
Class CacheNodeOps (V W : Type) := {
  ShouldCache : V → bool;
  NodeActivateLowMemory : W → V → W * V;
  NodeDestroy : W → V → W;
}.

Inductive CachePolicy := EvictImmediately | NeverEvict.

(** [ref_count_] is that of [fs::VnodeRefCounted]. *)
Record CacheNode (V : Type) := {
  digest_ : list Z;
  ref_count_ : Z;
  derived : V;
}.
Arguments digest_ {V}.
Arguments ref_count_ {V}.
Arguments derived {V}.

(** The order of [memcmp]; keys are of one length. *)
Fixpoint memcmp_lt (k1 k2 : list Z) : bool :=
  match k1, k2 with
  | x :: k1, y :: k2 => (x <? y) || (x =? y) && memcmp_lt k1 k2
  | [], _ :: _ => true
  | _, [] => false
  end.

(** The trees of nodes, by their keys; the tree is intrusive, so that a node is in a container if a tree has it. *)
Notation WAVLTree := (gmap (list Z) Z).

Definition least (kps : list (list Z * Z)) : option (list Z * Z) :=
  foldr (λ kp m, match m with Some kp' => if memcmp_lt (fst kp') (fst kp) then m else Some kp | None => Some kp end) None kps.

Definition front (t : WAVLTree) : option (list Z * Z) := least (map_to_list t).

Definition lower_bound (t : WAVLTree) (key : list Z) : option (list Z * Z) :=
  least (filter (λ kp, memcmp_lt (fst kp) key = false) (map_to_list t)).

Definition upper_bound (t : WAVLTree) (key : list Z) : option (list Z * Z) :=
  least (filter (λ kp, memcmp_lt key (fst kp) = true) (map_to_list t)).

(** ** State *)

(** The cache, the heap of nodes, the references that exist, the nodes that are about to be recycled, and the keys that
    threads wait for on [release_cvar_]. *)
Record System (V W : Type) := {
  cache_policy_ : CachePolicy;
  open_hash_ : WAVLTree;
  closed_hash_ : WAVLTree;
  heap : gmap Z (CacheNode V);
  next_address : Z;
  refs : gmultiset Z;
  recycling : gset Z;
  release_cvar_ : list (list Z);
  world : W;
}.
Arguments cache_policy_ {V W}.
Arguments open_hash_ {V W}.
Arguments closed_hash_ {V W}.
Arguments heap {V W}.
Arguments next_address {V W}.
Arguments refs {V W}.
Arguments recycling {V W}.
Arguments release_cvar_ {V W}.
Arguments world {V W}.

(** What a thread that holds [hash_lock_] comes to: it is done, or it waits. *)
Inductive Locked (A : Type) := Waits | Done (a : A).
Arguments Waits {A}.
Arguments Done {A} a.

Section cache.
Context {V W : Type} `{CacheNodeOps V W}.
Implicit Types (s : System V W) (p : Z) (n : CacheNode V).

Definition NewCache (policy : CachePolicy) (w : W) : System V W := {|
  cache_policy_ := policy; open_hash_ := ∅; closed_hash_ := ∅; heap := ∅; next_address := 1;
  refs := ∅; recycling := ∅; release_cvar_ := []; world := w |}.

Definition with_open s (t : WAVLTree) : System V W := {|
  cache_policy_ := s.(cache_policy_); open_hash_ := t; closed_hash_ := s.(closed_hash_); heap := s.(heap); next_address := s.(next_address);
  refs := s.(refs); recycling := s.(recycling); release_cvar_ := s.(release_cvar_); world := s.(world) |}.

Definition with_closed s (t : WAVLTree) : System V W := {|
  cache_policy_ := s.(cache_policy_); open_hash_ := s.(open_hash_); closed_hash_ := t; heap := s.(heap); next_address := s.(next_address);
  refs := s.(refs); recycling := s.(recycling); release_cvar_ := s.(release_cvar_); world := s.(world) |}.

Definition with_heap s (h : gmap Z (CacheNode V)) : System V W := {|
  cache_policy_ := s.(cache_policy_); open_hash_ := s.(open_hash_); closed_hash_ := s.(closed_hash_); heap := h; next_address := s.(next_address);
  refs := s.(refs); recycling := s.(recycling); release_cvar_ := s.(release_cvar_); world := s.(world) |}.

Definition with_refs s (l : gmultiset Z) : System V W := {|
  cache_policy_ := s.(cache_policy_); open_hash_ := s.(open_hash_); closed_hash_ := s.(closed_hash_); heap := s.(heap); next_address := s.(next_address);
  refs := l; recycling := s.(recycling); release_cvar_ := s.(release_cvar_); world := s.(world) |}.

Definition with_recycling s (l : gset Z) : System V W := {|
  cache_policy_ := s.(cache_policy_); open_hash_ := s.(open_hash_); closed_hash_ := s.(closed_hash_); heap := s.(heap); next_address := s.(next_address);
  refs := s.(refs); recycling := l; release_cvar_ := s.(release_cvar_); world := s.(world) |}.

Definition with_waiting s (l : list (list Z)) : System V W := {|
  cache_policy_ := s.(cache_policy_); open_hash_ := s.(open_hash_); closed_hash_ := s.(closed_hash_); heap := s.(heap); next_address := s.(next_address);
  refs := s.(refs); recycling := s.(recycling); release_cvar_ := l; world := s.(world) |}.

Definition with_world s (w : W) : System V W := {|
  cache_policy_ := s.(cache_policy_); open_hash_ := s.(open_hash_); closed_hash_ := s.(closed_hash_); heap := s.(heap); next_address := s.(next_address);
  refs := s.(refs); recycling := s.(recycling); release_cvar_ := s.(release_cvar_); world := w |}.

Definition SetCachePolicy s (policy : CachePolicy) : System V W := {|
  cache_policy_ := policy; open_hash_ := s.(open_hash_); closed_hash_ := s.(closed_hash_); heap := s.(heap); next_address := s.(next_address);
  refs := s.(refs); recycling := s.(recycling); release_cvar_ := s.(release_cvar_); world := s.(world) |}.

Definition with_count n (c : Z) : CacheNode V := {| digest_ := n.(digest_); ref_count_ := c; derived := n.(derived) |}.
Definition with_derived n (v : V) : CacheNode V := {| digest_ := n.(digest_); ref_count_ := n.(ref_count_); derived := v |}.

(** ** Nodes and references *)

(** A node that was deleted must not be used. *)
Definition deref s p : outcome (CacheNode V) :=
  match s.(heap) !! p with Some n => Returns n | None => Aborts end.

Definition put s p n : System V W := with_heap s (<[p := n]> s.(heap)).

(** [AdoptRef] of a node that was created. *)
Definition NewNode s (digest : list Z) (v : V) : Z * System V W :=
  (s.(next_address), {|
    cache_policy_ := s.(cache_policy_); open_hash_ := s.(open_hash_); closed_hash_ := s.(closed_hash_);
    heap := <[s.(next_address) := {| digest_ := digest; ref_count_ := 1; derived := v |}]> s.(heap);
    next_address := s.(next_address) + 1; refs := {[+ s.(next_address) +]} ⊎ s.(refs); recycling := s.(recycling);
    release_cvar_ := s.(release_cvar_); world := s.(world) |}).

Definition delete_node s p : outcome (System V W) :=
  n ← deref s p;
  Returns (with_world (with_heap s (delete p s.(heap))) (NodeDestroy s.(world) n.(derived))).

(** A reference that exists is copied. *)
Definition AddRef s p : outcome (System V W) :=
  n ← deref s p;
  _ ← ZX_ASSERT (1 <=? n.(ref_count_));
  Returns (with_refs (put s p (with_count n (n.(ref_count_) + 1))) ({[+ p +]} ⊎ s.(refs))).

(** A reference is destroyed; whoever drops the last one has to recycle the node. *)
Definition Release s p : outcome (System V W) :=
  n ← deref s p;
  _ ← ZX_ASSERT (1 <=? n.(ref_count_));
  let s := with_refs (put s p (with_count n (n.(ref_count_) - 1))) (s.(refs) ∖ {[+ p +]}) in
  Returns (if n.(ref_count_) =? 1 then with_recycling s ({[p]} ∪ s.(recycling)) else s).

Definition MakeRefPtrUpgradeFromRaw s p : outcome (option Z * System V W) :=
  n ← deref s p;
  if n.(ref_count_) <=? 0 then Returns (None, s)
  else Returns (Some p, with_refs (put s p (with_count n (n.(ref_count_) + 1))) ({[+ p +]} ⊎ s.(refs))).

Definition ResurrectRef s p : outcome (System V W) :=
  n ← deref s p;
  _ ← ZX_DEBUG_ASSERT (n.(ref_count_) =? 0);
  Returns (put s p (with_count n 1)).

Definition InContainer s p n : bool :=
  bool_decide (s.(open_hash_) !! n.(digest_) = Some p) || bool_decide (s.(closed_hash_) !! n.(digest_) = Some p).

(** Erasing a node from a tree that does not have it breaks the tree that has it. *)
Definition erase (t : WAVLTree) n p : outcome WAVLTree :=
  if bool_decide (t !! n.(digest_) = Some p) then Returns (delete n.(digest_) t) else Aborts.

Definition insert_tree s (t : WAVLTree) n p : outcome WAVLTree :=
  _ ← ZX_DEBUG_ASSERT (negb (InContainer s p n));
  _ ← ZX_DEBUG_ASSERT (bool_decide (t !! n.(digest_) = None));
  Returns (<[n.(digest_) := p]> t).

(** ** Operations *)

Definition UpgradeLocked s (key : list Z) : outcome (option Z * System V W) :=
  _ ← ZX_DEBUG_ASSERT (bool_decide (s.(open_hash_) !! key = None));
  match s.(closed_hash_) !! key with
  | None => Returns (None, s)
  | Some p =>
    n ← deref s p;
    let s := with_closed s (delete key s.(closed_hash_)) in
    t ← insert_tree s s.(open_hash_) n p;
    Returns (Some p, with_refs (with_open s t) ({[+ p +]} ⊎ s.(refs)))
  end.

(** A round of the loop; a thread that waits goes on with the next one when it is woken. *)
Definition LookupLocked s (key : list Z) : outcome (Locked (zx_status * option Z) * System V W) :=
  match s.(open_hash_) !! key with
  | Some p =>
    r ← MakeRefPtrUpgradeFromRaw s p;
    match r with
    | (None, s) => Returns (Waits, with_waiting s (key :: s.(release_cvar_)))
    | (Some p, s) => Returns (Done (ZX_OK, Some p), s)
    end
  | None =>
    r ← UpgradeLocked s key;
    let '(out, s) := (r : option Z * System V W) in
    Returns (Done (match out with Some _ => ZX_OK | None => ZX_ERR_NOT_FOUND end, out), s)
  end.

Definition Lookup s (digest : list Z) : outcome (Locked (zx_status * option Z) * System V W) :=
  r ← LookupLocked s digest;
  let '(l, s) := (r : Locked (zx_status * option Z) * System V W) in
  _ ← ZX_DEBUG_ASSERT (match l with Done (ZX_OK, None) => false | _ => true end);
  Returns (l, s).

(** The part under the lock: the status, and the reference to the old node, which is dropped after. *)
Definition AddLocked s p : outcome (Locked (zx_status * option Z) * System V W) :=
  n ← deref s p;
  r ← LookupLocked s n.(digest_);
  match (r : Locked (zx_status * option Z) * System V W) with
  | (Waits, s) => Returns (Waits, s)
  | (Done (ZX_OK, old), s) => Returns (Done (ZX_ERR_ALREADY_EXISTS, old), s)
  | (Done _, s) =>
    t ← insert_tree s s.(open_hash_) n p;
    Returns (Done (ZX_OK, None), with_open s t)
  end.

Definition Broadcast s : System V W := with_waiting s [].

Definition EvictUnsafe s p (from_recycle : bool) : outcome (zx_status * System V W) :=
  n ← deref s p;
  if negb (InContainer s p n) then Returns (ZX_ERR_NOT_FOUND, s)
  else
    t ← erase s.(open_hash_) n p;
    let s := with_open s t in
    _ ← ZX_ASSERT (bool_decide (s.(closed_hash_) !! n.(digest_) = None));
    Returns (ZX_OK, if from_recycle then Broadcast s else s).

Definition Evict s p : outcome (zx_status * System V W) := EvictUnsafe s p false.

Definition Downgrade s p : outcome (System V W) :=
  s ← ResurrectRef s p;
  n ← deref s p;
  if negb (InContainer s p n) then delete_node s p
  else
    t ← erase s.(open_hash_) n p;
    let s := Broadcast (with_open s t) in
    t ← insert_tree s s.(closed_hash_) n p;
    let s := with_closed s t in
    match s.(cache_policy_) with
    | EvictImmediately =>
      let '(w, v) := NodeActivateLowMemory s.(world) n.(derived) in
      Returns (with_world (put s p (with_derived n v)) w)
    | NeverEvict => Returns s
    end.

(** [CacheNode::fbl_recycle], by the thread that dropped the last reference. *)
Definition fbl_recycle s p : outcome (System V W) :=
  let s := with_recycling s (s.(recycling) ∖ {[p]}) in
  n ← deref s p;
  if ShouldCache n.(derived) then Downgrade s p
  else
    r ← EvictUnsafe s p true;
    let s := snd r in
    _ ← ZX_DEBUG_ASSERT (negb (InContainer s p n));
    delete_node s p.

(** A reference goes out of scope in a thread that is not interrupted. *)
Definition drop_ref s p : outcome (System V W) :=
  s ← Release s p;
  if bool_decide (p ∈ s.(recycling)) then fbl_recycle s p else Returns s.

(** What [ForAllOpenNodes] does under the lock. *)
Definition NextOpenNode s (old_vnode : option Z) : outcome (Locked (option Z) * System V W) :=
  raw ← match old_vnode with
        | None => Returns (front s.(open_hash_))
        | Some old =>
          n ← deref s old;
          Returns (match lower_bound s.(open_hash_) n.(digest_) with
                   | None => None
                   | Some current => if snd current =? old then upper_bound s.(open_hash_) (fst current) else Some current
                   end)
        end;
  match (raw : option (list Z * Z)) with
  | None => Returns (Done None, s)
  | Some (key, p) =>
    r ← MakeRefPtrUpgradeFromRaw s p;
    match r with
    | (None, s) => Returns (Waits, with_waiting s (key :: s.(release_cvar_)))
    | (Some p, s) => Returns (Done (Some p), s)
    end
  end.

(** The loop, in a thread that is not interrupted; it does not wait then. *)
Fixpoint ForAllOpenNodes (callback : System V W → Z → outcome (System V W)) (fuel : nat) s (old_vnode : option Z) : outcome (System V W) :=
  match fuel with
  | O => Diverges
  | S fuel =>
    r ← NextOpenNode s old_vnode;
    match (r : Locked (option Z) * System V W) with
    | (Waits, _) => Diverges
    | (Done None, s) => match old_vnode with Some old => drop_ref s old | None => Returns s end
    | (Done (Some p), s) =>
      s ← callback s p;
      s ← match old_vnode with Some old => drop_ref s old | None => Returns s end;
      ForAllOpenNodes callback fuel s (Some p)
    end
  end.

Fixpoint ResetLocked (fuel : nat) s : outcome (System V W) :=
  match fuel with
  | O => Diverges
  | S fuel =>
    match front s.(closed_hash_) with
    | None => Returns s
    | Some (key, p) => s ← delete_node (with_closed s (delete key s.(closed_hash_))) p; ResetLocked fuel s
    end
  end.

Definition Reset s : outcome (System V W) :=
  s ← ForAllOpenNodes (λ s node, r ← Evict s node; Returns (snd r)) (S (size s.(open_hash_))) s None;
  ResetLocked (S (size s.(closed_hash_))) s.

(** [Add], in a thread that is not interrupted. *)
Definition Add s p : outcome (zx_status * System V W) :=
  r ← AddLocked s p;
  match (r : Locked (zx_status * option Z) * System V W) with
  | (Waits, _) => Diverges
  | (Done (status, Some old), s) => s ← drop_ref s old; Returns (status, s)
  | (Done (status, None), s) => Returns (status, s)
  end.

End cache.
