(* ===== verification/CacheProtocol.v ===== *)
(** * The cache of blobs, under any interleaving

    The operations of the cache as steps that threads take in any order.  The invariant relates the counts of references,
    the two sets and the threads that recycle nodes; from it no assertion of the cache fails, the cache implements a map
    from digests to nodes, and a thread that waits for a node is woken. *)

From stdpp Require Import gmap gmultiset.
From S2P Require Import Prelude BlobCache.

(** Projections of states and nodes that are built from others. *)
Ltac fields := cbn [cache_policy_ open_hash_ closed_hash_ heap next_address refs recycling release_cvar_ world
  with_open with_closed with_heap with_refs with_recycling with_waiting with_world put Broadcast digest_ ref_count_ derived with_count with_derived] in *.

Section protocol.
Context {V W : Type} `{CacheNodeOps V W}.
Implicit Types (s : System V W) (p : Z) (n : CacheNode V) (k : list Z).

(** ** Steps *)

(** What a thread may do: with a reference that it has, or without one. *)
Inductive Op :=
| OpNew (digest : list Z) (v : V)
| OpAdd (p : Z)
| OpLookup (digest : list Z)
| OpCopy (p : Z)
| OpRelease (p : Z)
| OpEvict (p : Z)
| OpRecycle (p : Z)
| OpUpdate (p : Z) (v : V)
| OpNext (old : option Z).

(** [None] when the thread waits. *)
Definition answer : Type := option (zx_status * option Z).

Definition answered {A} (f : A → zx_status * option Z) (l : Locked A) : answer := match l with Waits => None | Done a => Some (f a) end.

Definition run_op (o : Op) s : outcome (answer * System V W) :=
  match o with
  | OpNew digest v => let '(p, s) := NewNode s digest v in Returns (Some (ZX_OK, Some p), s)
  | OpAdd p => r ← AddLocked s p; Returns (answered id (fst r), snd r)
  | OpLookup digest => r ← Lookup s digest; Returns (answered id (fst r), snd r)
  | OpCopy p => s ← AddRef s p; Returns (Some (ZX_OK, Some p), s)
  | OpRelease p => s ← Release s p; Returns (Some (ZX_OK, None), s)
  | OpEvict p => r ← Evict s p; Returns (Some (fst r, None), snd r)
  | OpRecycle p => s ← fbl_recycle s p; Returns (Some (ZX_OK, None), s)
  | OpUpdate p v => n ← deref s p; Returns (Some (ZX_OK, None), put s p (with_derived n v))
  | OpNext old => r ← NextOpenNode s old; Returns (answered (pair ZX_OK) (fst r), snd r)
  end.

(** Only who has a reference uses it, a node is added once at most, and a thread that dropped the last reference recycles
    the node. *)
Definition enabled s (o : Op) : Prop :=
  match o with
  | OpNew _ _ | OpLookup _ => True
  | OpAdd p => p ∈ s.(refs) ∧ ∀ n, s.(heap) !! p = Some n → InContainer s p n = false
  | OpCopy p | OpRelease p | OpEvict p | OpUpdate p _ => p ∈ s.(refs)
  | OpRecycle p => p ∈ s.(recycling)
  | OpNext old => ∀ p, old = Some p → p ∈ s.(refs)
  end.

Inductive cache_step s s' : Prop :=
| cache_steps o r : enabled s o → run_op o s = Returns (r, s') → cache_step s s'.

(** ** The invariant *)

Definition closed_count s p n : Z := if decide (s.(closed_hash_) !! n.(digest_) = Some p) then 1 else 0.

Record cache_ok s : Prop := {
  ok_open k p : s.(open_hash_) !! k = Some p → ∃ n, s.(heap) !! p = Some n ∧ n.(digest_) = k;
  ok_closed k p : s.(closed_hash_) !! k = Some p → p ∉ s.(refs) ∧ ∃ n, s.(heap) !! p = Some n ∧ n.(digest_) = k;
  ok_disjoint k p : s.(open_hash_) !! k = Some p → s.(closed_hash_) !! k = None;
  ok_count p n : s.(heap) !! p = Some n → n.(ref_count_) = Z.of_nat (multiplicity p s.(refs)) + closed_count s p n;
  ok_refs p : p ∈ s.(refs) → is_Some (s.(heap) !! p);
  ok_recycling p : p ∈ s.(recycling) ↔ ∃ n, s.(heap) !! p = Some n ∧ n.(ref_count_) = 0;
  ok_waiting k : k ∈ s.(release_cvar_) → ∃ p, s.(open_hash_) !! k = Some p ∧ p ∈ s.(recycling);
  ok_fresh p : is_Some (s.(heap) !! p) → p < s.(next_address);
}.

Lemma new_cache_ok policy w : cache_ok (NewCache policy w).
Proof. split; cbn; try set_solver; by intros *; rewrite lookup_empty. Qed.

(** ** What the invariant says of a node *)

Lemma count_held s p n : cache_ok s → s.(heap) !! p = Some n → p ∈ s.(refs) → s.(closed_hash_) !! n.(digest_) ≠ Some p ∧ 1 ≤ n.(ref_count_) ∧ p ∉ s.(recycling).
Proof.
  intros Hok E Hp. assert (s.(closed_hash_) !! n.(digest_) ≠ Some p) as Hc by (intros Ec; by apply (ok_closed _ Hok) in Ec as [? _]).
  pose proof (ok_count _ Hok p n E) as Hn. unfold closed_count in Hn. rewrite decide_False in Hn by done. rewrite elem_of_multiplicity in Hp.
  split_and!; [done|lia|]. intros (n' & E' & ?)%(ok_recycling _ Hok). simplify_eq. lia.
Qed.

(** The last reference is one that was dropped, so that nobody else has one. *)
Lemma count_none s p n : cache_ok s → s.(heap) !! p = Some n → p ∈ s.(recycling) → s.(closed_hash_) !! n.(digest_) ≠ Some p ∧ n.(ref_count_) = 0 ∧ p ∉ s.(refs).
Proof.
  intros Hok E (n' & E' & Hz)%(ok_recycling _ Hok). simplify_eq. pose proof (ok_count _ Hok p n E) as Hn. unfold closed_count in Hn.
  split_and!; [|done|]; [intros ?; rewrite decide_True in Hn by done; lia|]. intros Hp. rewrite elem_of_multiplicity in Hp. destruct (decide _); lia.
Qed.

Lemma held_node s p : cache_ok s → p ∈ s.(refs) → ∃ n, s.(heap) !! p = Some n ∧ s.(closed_hash_) !! n.(digest_) ≠ Some p ∧ 1 ≤ n.(ref_count_) ∧ p ∉ s.(recycling).
Proof. intros Hok Hp. destruct (ok_refs _ Hok p Hp) as [n E]. exists n. split; [done|]. by apply count_held. Qed.

Lemma recycled_node s p : cache_ok s → p ∈ s.(recycling) → ∃ n, s.(heap) !! p = Some n ∧ s.(closed_hash_) !! n.(digest_) ≠ Some p ∧ n.(ref_count_) = 0 ∧ p ∉ s.(refs).
Proof. intros Hok Hp. pose proof Hp as (n & E & _)%(ok_recycling _ Hok). exists n. split; [done|]. by apply count_none. Qed.

(** ** Changes of one node *)

Lemma update_cached_ok s s' p n n' : cache_ok s → s.(heap) !! p = Some n → s'.(heap) = <[p := n']> s.(heap) → n'.(digest_) = n.(digest_) →
  s'.(open_hash_) = s.(open_hash_) → s'.(closed_hash_) = s.(closed_hash_) → s'.(next_address) = s.(next_address) → s'.(release_cvar_) = s.(release_cvar_) →
  (∀ q, q ≠ p → multiplicity q s'.(refs) = multiplicity q s.(refs)) → s.(closed_hash_) !! n.(digest_) ≠ Some p →
  n'.(ref_count_) = Z.of_nat (multiplicity p s'.(refs)) → p ∉ s.(recycling) → s'.(recycling) = (if n'.(ref_count_) =? 0 then {[p]} ∪ s.(recycling) else s.(recycling)) → cache_ok s'.
Proof.
  intros Hok E Eh Ed Eo Ec En Ew Hm Hc Hn Hr Er.
  assert (∀ q m, s'.(heap) !! q = Some m → ∃ m0, s.(heap) !! q = Some m0 ∧ m.(digest_) = m0.(digest_) ∧ (q ≠ p → m = m0)) as Hold.
  { intros q m. rewrite Eh. destruct (decide (q = p)) as [->|Hq]; [rewrite lookup_insert_eq; intros [= <-]; exists n|rewrite lookup_insert_ne by done; intros Em; exists m]; by split_and!. }
  assert (∀ q m0, s.(heap) !! q = Some m0 → ∃ m, s'.(heap) !! q = Some m ∧ m.(digest_) = m0.(digest_)) as Hnew.
  { intros q m0 Eq. rewrite Eh. destruct (decide (q = p)) as [->|Hq]; [rewrite lookup_insert_eq; simplify_eq|rewrite lookup_insert_ne by done]; eauto. }
  assert (∀ q, q ≠ p → q ∈ s'.(refs) ↔ q ∈ s.(refs)) as Hin by (intros q Hq; by rewrite !elem_of_multiplicity, Hm).
  split; rewrite ?Eo, ?Ec, ?En, ?Ew.
  - intros k q (m0 & Eq & <-)%(ok_open _ Hok). destruct (Hnew _ _ Eq) as (m & ? & ?). eauto.
  - intros k q Hq. pose proof Hq as (Hq' & m0 & Eq & <-)%(ok_closed _ Hok). assert (q ≠ p) as Hne by (intros ->; by simplify_eq).
    split; [by rewrite Hin|]. destruct (Hnew _ _ Eq) as (m & ? & ?). eauto.
  - apply (ok_disjoint _ Hok).
  - intros q m Eq. unfold closed_count. rewrite Ec. destruct (decide (q = p)) as [->|Hq].
    + rewrite Eh, lookup_insert_eq in Eq. injection Eq as <-. rewrite Ed. rewrite decide_False by done. lia.
    + destruct (Hold _ _ Eq) as (m0 & E0 & _ & Em). rewrite Em by done. rewrite Hm by done. exact (ok_count _ Hok q m0 E0).
  - intros q Hq. destruct (decide (q = p)) as [->|Hne]; [rewrite Eh, lookup_insert_eq; eauto|]. apply Hin in Hq; [|done]. destruct (ok_refs _ Hok q Hq) as [m0 E0]. destruct (Hnew _ _ E0) as (m & ? & _). eauto.
  - intros q. rewrite Er. destruct (decide (q = p)) as [->|Hne].
    + rewrite Eh, lookup_insert_eq. destruct (Z.eqb_spec n'.(ref_count_) 0); split; [naive_solver|set_solver|done|naive_solver].
    + transitivity (q ∈ s.(recycling)); [destruct (_ =? _); set_solver|]. rewrite (ok_recycling _ Hok). rewrite Eh, lookup_insert_ne by done. done.
  - intros k Hk. destruct (ok_waiting _ Hok k Hk) as (q & Hq & Hrq). exists q. split; [done|]. rewrite Er. destruct (_ =? _); set_solver.
  - intros q [m Em]. destruct (Hold _ _ Em) as (m0 & E0 & _). by apply (ok_fresh _ Hok).
Qed.

(** One more reference to a node. *)
Definition referenced s p n : System V W := with_refs (put s p (with_count n (n.(ref_count_) + 1))) ({[+ p +]} ⊎ s.(refs)).

Lemma held_count s p n : cache_ok s → s.(heap) !! p = Some n → s.(closed_hash_) !! n.(digest_) ≠ Some p → n.(ref_count_) = Z.of_nat (multiplicity p s.(refs)).
Proof. intros Hok E Hc. rewrite (ok_count _ Hok p n E). unfold closed_count. rewrite decide_False by done. lia. Qed.

Lemma referenced_ok s p n : cache_ok s → s.(heap) !! p = Some n → s.(closed_hash_) !! n.(digest_) ≠ Some p → 1 ≤ n.(ref_count_) → cache_ok (referenced s p n).
Proof.
  intros Hok E Hc Hn. assert (p ∉ s.(recycling)) as Hr by (intros (n' & E' & ?)%(ok_recycling _ Hok); simplify_eq; lia). pose proof (held_count s p n Hok E Hc) as Hm.
  apply (update_cached_ok s _ p n (with_count n (n.(ref_count_) + 1))); try done; unfold referenced; fields.
  - intros q Hq. by rewrite multiplicity_disj_union, multiplicity_singleton_ne.
  - rewrite multiplicity_disj_union, multiplicity_singleton_eq. lia.
  - by ztest.
Qed.

Lemma AddRef_ok s p : cache_ok s → p ∈ s.(refs) → ∃ n, s.(heap) !! p = Some n ∧ AddRef s p = Returns (referenced s p n) ∧ cache_ok (referenced s p n).
Proof.
  intros Hok Hp. destruct (held_node s p Hok Hp) as (n & E & Hc & Hn & Hr). exists n. split_and!; [done| |by apply referenced_ok].
  unfold AddRef, deref. rewrite E. cbn [mbind outcome_bind]. unfold ZX_ASSERT. by ztest.
Qed.

(** One reference less. *)
Definition released s p n : System V W :=
  let s' := with_refs (put s p (with_count n (n.(ref_count_) - 1))) (s.(refs) ∖ {[+ p +]}) in
  if n.(ref_count_) =? 1 then with_recycling s' ({[p]} ∪ s.(recycling)) else s'.

Lemma Release_ok s p : cache_ok s → p ∈ s.(refs) → ∃ n, s.(heap) !! p = Some n ∧ Release s p = Returns (released s p n) ∧ cache_ok (released s p n).
Proof.
  intros Hok Hp. destruct (held_node s p Hok Hp) as (n & E & Hc & Hn & Hr). exists n. split; [done|]. pose proof (held_count s p n Hok E Hc) as Hm. split.
  - unfold Release, deref. rewrite E. cbn [mbind outcome_bind]. unfold ZX_ASSERT. ztest. done.
  - apply (update_cached_ok s _ p n (with_count n (n.(ref_count_) - 1))); try done; unfold released; fields; try by destruct (_ =? 1).
    + intros q Hq. replace (refs _) with (s.(refs) ∖ {[+ p +]}) by (by destruct (_ =? 1)). rewrite multiplicity_difference, multiplicity_singleton_ne by done. lia.
    + replace (refs _) with (s.(refs) ∖ {[+ p +]}) by (by destruct (_ =? 1)). rewrite multiplicity_difference, multiplicity_singleton_eq. lia.
    + destruct (Z.eqb_spec n.(ref_count_) 1); ztest; done.
Qed.

(** The object behind a node is of no concern to the invariant. *)
Lemma put_derived_ok s p n v : cache_ok s → s.(heap) !! p = Some n → cache_ok (put s p (with_derived n v)).
Proof.
  intros Hok E. set (n' := with_derived n v).
  assert (∀ q m, <[p := n']> s.(heap) !! q = Some m → ∃ m0, s.(heap) !! q = Some m0 ∧ m.(digest_) = m0.(digest_) ∧ m.(ref_count_) = m0.(ref_count_)) as Hold.
  { intros q m. destruct (decide (q = p)) as [->|Hq]; [rewrite lookup_insert_eq; intros [= <-]; exists n|rewrite lookup_insert_ne by done; intros Em; exists m]; by split_and!. }
  assert (∀ q m0, s.(heap) !! q = Some m0 → ∃ m, <[p := n']> s.(heap) !! q = Some m ∧ m.(digest_) = m0.(digest_) ∧ m.(ref_count_) = m0.(ref_count_)) as Hnew.
  { intros q m0 Eq. destruct (decide (q = p)) as [->|Hq]; [rewrite lookup_insert_eq; simplify_eq; exists n'|rewrite lookup_insert_ne by done; exists m0]; by split_and!. }
  split; fields; try apply Hok.
  - intros k q (m0 & Eq & <-)%(ok_open _ Hok). destruct (Hnew _ _ Eq) as (m & ? & ? & _). eauto.
  - intros k q (Hq & m0 & Eq & <-)%(ok_closed _ Hok). split; [done|]. destruct (Hnew _ _ Eq) as (m & ? & ? & _). eauto.
  - intros q m Em. destruct (Hold _ _ Em) as (m0 & E0 & Ed & ->). rewrite (ok_count _ Hok _ _ E0). unfold closed_count. fields. by rewrite Ed.
  - intros q Hq. destruct (ok_refs _ Hok q Hq) as [m0 E0]. destruct (Hnew _ _ E0) as (m & ? & _). eauto.
  - intros q. rewrite (ok_recycling _ Hok). split; intros (m & Em & Hz); [destruct (Hnew _ _ Em) as (m' & ? & _ & ?)|destruct (Hold _ _ Em) as (m' & ? & _ & ?)]; exists m'; (split; [done|lia]).
  - intros q [m Em]. destruct (Hold _ _ Em) as (m0 & E0 & _). by apply (ok_fresh _ Hok).
Qed.

Lemma with_world_ok s w : cache_ok s → cache_ok (with_world s w).
Proof. by intros [? ? ? ? ? ? ? ?]. Qed.

Lemma MakeRefPtrUpgradeFromRaw_ok s k p : cache_ok s → s.(open_hash_) !! k = Some p → ∃ n, s.(heap) !! p = Some n ∧ n.(digest_) = k ∧
  ((p ∈ s.(recycling) ∧ MakeRefPtrUpgradeFromRaw s p = Returns (None, s)) ∨
   (p ∉ s.(recycling) ∧ MakeRefPtrUpgradeFromRaw s p = Returns (Some p, referenced s p n) ∧ cache_ok (referenced s p n))).
Proof.
  intros Hok Ho. destruct (ok_open _ Hok k p Ho) as (n & E & <-). exists n. split_and!; [done|done|]. unfold MakeRefPtrUpgradeFromRaw, deref. rewrite E. cbn [mbind outcome_bind].
  assert (s.(closed_hash_) !! n.(digest_) ≠ Some p) as Hc by (by rewrite (ok_disjoint _ Hok _ _ Ho)). pose proof (held_count s p n Hok E Hc) as Hm.
  destruct (Z.leb_spec n.(ref_count_) 0); [left|right]; split.
  - apply (ok_recycling _ Hok). exists n. split; [done|lia].
  - done.
  - intros (n' & E' & ?)%(ok_recycling _ Hok). simplify_eq. lia.
  - split; [done|]. by apply referenced_ok; [..|lia].
Qed.

Lemma InContainer_spec s p n : InContainer s p n = true ↔ s.(open_hash_) !! n.(digest_) = Some p ∨ s.(closed_hash_) !! n.(digest_) = Some p.
Proof. unfold InContainer. by rewrite orb_true_iff, !bool_decide_eq_true. Qed.

Lemma fresh_address s : cache_ok s → s.(heap) !! s.(next_address) = None ∧ multiplicity s.(next_address) s.(refs) = 0%nat ∧ s.(next_address) ∉ s.(recycling).
Proof.
  intros Hok. assert (s.(heap) !! s.(next_address) = None) as E by (apply eq_None_not_Some; intros Hs%(ok_fresh _ Hok); lia).
  split_and!; [done| |].
  - destruct (multiplicity _ _) eqn:Em; [done|]. exfalso. assert (s.(next_address) ∈ s.(refs)) as Hin by (rewrite elem_of_multiplicity; lia). apply (ok_refs _ Hok) in Hin. rewrite E in Hin. by destruct Hin.
  - intros (n & E' & _)%(ok_recycling _ Hok). congruence.
Qed.

Lemma NewNode_ok s k v : cache_ok s → cache_ok (snd (NewNode s k v)).
Proof.
  intros Hok. destruct (fresh_address s Hok) as (E & Hm & Hr). set (a := s.(next_address)) in *.
  assert (∀ q n, s.(heap) !! q = Some n → q ≠ a) as Hne by (intros q n Eq ->; congruence).
  unfold NewNode. cbn [snd]. split; fields; fold a.
  - intros k' q (n & Eq & <-)%(ok_open _ Hok). exists n. by rewrite lookup_insert_ne by (by intros ->; eapply Hne).
  - intros k' q (Hq & n & Eq & <-)%(ok_closed _ Hok). split; [|exists n; by rewrite lookup_insert_ne by (by intros ->; eapply Hne)].
    rewrite gmultiset_elem_of_disj_union, gmultiset_elem_of_singleton. intros [->|?]; [by eapply Hne|done].
  - apply (ok_disjoint _ Hok).
  - intros q n Eq. unfold closed_count. fields. rewrite multiplicity_disj_union. destruct (decide (q = a)) as [->|Hq].
    + rewrite lookup_insert_eq in Eq. injection Eq as <-. fields. rewrite multiplicity_singleton_eq, Hm, decide_False; [done|]. intros (_ & n & Ea & _)%(ok_closed _ Hok). congruence.
    + rewrite lookup_insert_ne in Eq by done. rewrite multiplicity_singleton_ne by done. exact (ok_count _ Hok q n Eq).
  - intros q. rewrite gmultiset_elem_of_disj_union, gmultiset_elem_of_singleton. intros [->|Hq%(ok_refs _ Hok)]; [rewrite lookup_insert_eq; eauto|]. destruct (decide (q = a)) as [->|?]; [rewrite lookup_insert_eq; eauto|by rewrite lookup_insert_ne by done].
  - intros q. destruct (decide (q = a)) as [->|Hq]; [rewrite lookup_insert_eq|rewrite lookup_insert_ne by done; apply (ok_recycling _ Hok)]. split; [done|]. by intros (n & [= <-] & ?).
  - apply (ok_waiting _ Hok).
  - intros q. destruct (decide (q = a)) as [->|Hq]; [lia|rewrite lookup_insert_ne by done]. intros Hs%(ok_fresh _ Hok). lia.
Qed.

(** A closed node is opened, and the reference that was leaked is taken. *)
Definition opened s k p : System V W := with_refs (with_open (with_closed s (delete k s.(closed_hash_))) (<[k := p]> s.(open_hash_))) ({[+ p +]} ⊎ s.(refs)).

Lemma opened_ok s k p : cache_ok s → s.(closed_hash_) !! k = Some p → s.(open_hash_) !! k = None → cache_ok (opened s k p).
Proof.
  intros Hok Hcl Hop. destruct (ok_closed _ Hok k p Hcl) as (Hp & n & E & Hk). assert (p ∉ s.(recycling)) as Hr.
  { intros (n' & E' & Hz)%(ok_recycling _ Hok). simplify_eq. pose proof (ok_count _ Hok p n E) as Hn. unfold closed_count in Hn. rewrite decide_True in Hn by done. lia. }
  unfold opened. split; fields.
  - intros k' q. destruct (decide (k' = k)) as [->|Hk']; [rewrite lookup_insert_eq; intros [= <-]; eauto|rewrite lookup_insert_ne by done; apply (ok_open _ Hok)].
  - intros k' q [Hne Hq]%lookup_delete_Some. destruct (ok_closed _ Hok _ _ Hq) as (Hq' & m & Eq & Hd). split; [|eauto].
    rewrite gmultiset_elem_of_disj_union, gmultiset_elem_of_singleton. intros [->|?]; [simplify_eq; congruence|done].
  - intros k' q. destruct (decide (k' = k)) as [->|Hk']; [by rewrite lookup_delete_eq|rewrite lookup_insert_ne, lookup_delete_ne by done; apply (ok_disjoint _ Hok)].
  - intros q m Eq. unfold closed_count. fields. rewrite multiplicity_disj_union, (ok_count _ Hok q m Eq). unfold closed_count. destruct (decide (q = p)) as [->|Hq].
    + simplify_eq. rewrite multiplicity_singleton_eq, lookup_delete_eq. rewrite decide_True, decide_False by done. lia.
    + rewrite multiplicity_singleton_ne by done. destruct (decide (m.(digest_) = k)) as [->|Hm]; [|by rewrite lookup_delete_ne by done]. rewrite lookup_delete_eq. rewrite !decide_False by congruence. lia.
  - intros q. rewrite gmultiset_elem_of_disj_union, gmultiset_elem_of_singleton. intros [->|Hq]; [eauto|by apply (ok_refs _ Hok)].
  - apply (ok_recycling _ Hok).
  - intros k' Hk'. destruct (ok_waiting _ Hok k' Hk') as (q & Hq & ?). exists q. split; [|done]. rewrite lookup_insert_ne by congruence. done.
  - apply (ok_fresh _ Hok).
Qed.

Lemma added_ok s p n : cache_ok s → s.(heap) !! p = Some n → p ∈ s.(refs) → s.(open_hash_) !! n.(digest_) = None → s.(closed_hash_) !! n.(digest_) = None →
  cache_ok (with_open s (<[n.(digest_) := p]> s.(open_hash_))).
Proof.
  intros Hok E Hp Ho Hc. split; fields; try apply Hok.
  - intros k q. destruct (decide (k = n.(digest_))) as [->|Hk]; [rewrite lookup_insert_eq; intros [= <-]; eauto|rewrite lookup_insert_ne by done; apply (ok_open _ Hok)].
  - intros k q. destruct (decide (k = n.(digest_))) as [->|Hk]; [done|rewrite lookup_insert_ne by done; apply (ok_disjoint _ Hok)].
  - intros k Hk. destruct (ok_waiting _ Hok k Hk) as (q & Hq & ?). exists q. split; [|done]. by rewrite lookup_insert_ne by congruence.
Qed.

(** A key of the open set is that of its node. *)
Lemma open_key s k p n : cache_ok s → s.(open_hash_) !! k = Some p → s.(heap) !! p = Some n → k = n.(digest_).
Proof. intros Hok (n' & E & <-)%(ok_open _ Hok) E'. by simplify_eq. Qed.

Lemma evicted_ok s p n : cache_ok s → s.(heap) !! p = Some n → p ∈ s.(refs) → s.(open_hash_) !! n.(digest_) = Some p → cache_ok (with_open s (delete n.(digest_) s.(open_hash_))).
Proof.
  intros Hok E Hp Ho. destruct (count_held s p n Hok E Hp) as (_ & _ & Hr). split; fields; try apply Hok.
  - intros k q [_ Hq]%lookup_delete_Some. by apply (ok_open _ Hok).
  - intros k q [_ Hq]%lookup_delete_Some. by eapply (ok_disjoint _ Hok).
  - intros k Hk. destruct (ok_waiting _ Hok k Hk) as (q & Hq & Hrq). exists q. split; [|done]. rewrite lookup_delete_ne; [done|]. intros <-. by simplify_eq.
Qed.

(** A node that was recycled is destroyed; its key goes if the open set had it. *)
Definition destroyed s p n (t : WAVLTree) (l : list (list Z)) : System V W :=
  with_world (with_heap (with_recycling (with_waiting (with_open s t) l) (s.(recycling) ∖ {[p]})) (delete p s.(heap))) (NodeDestroy s.(world) n.(derived)).

Lemma destroyed_ok s p n t l : cache_ok s → s.(heap) !! p = Some n → p ∈ s.(recycling) →
  (s.(open_hash_) !! n.(digest_) = Some p ∧ t = delete n.(digest_) s.(open_hash_) ∧ l = []) ∨ (s.(open_hash_) !! n.(digest_) ≠ Some p ∧ t = s.(open_hash_) ∧ l = s.(release_cvar_)) →
  cache_ok (destroyed s p n t l).
Proof.
  intros Hok E Hr Ht. destruct (count_none s p n Hok E Hr) as (Hc & Hz & Hp).
  assert (∀ k q, t !! k = Some q → s.(open_hash_) !! k = Some q ∧ q ≠ p) as Hold.
  { intros k q Hq. assert (s.(open_hash_) !! k = Some q) as Hq' by (destruct Ht as [(_ & -> & _)|(_ & -> & _)]; [by apply lookup_delete_Some in Hq as [_ Hq]|done]).
    split; [done|]. intros ->. rewrite (open_key s k p n Hok Hq' E) in *. destruct Ht as [(_ & -> & _)|(Hn & -> & _)]; [by rewrite lookup_delete_eq in Hq|done]. }
  unfold destroyed. split; fields.
  - intros k q (Hq & Hne)%Hold. destruct (ok_open _ Hok k q Hq) as (m & Eq & ?). exists m. by rewrite lookup_delete_ne.
  - intros k q Hq. destruct (ok_closed _ Hok k q Hq) as (? & m & Eq & Hd). split; [done|]. exists m. rewrite lookup_delete_ne; [done|]. intros ->. by simplify_eq.
  - intros k q (Hq & _)%Hold. by apply (ok_disjoint _ Hok k q).
  - intros q m [_ Eq]%lookup_delete_Some. by apply (ok_count _ Hok).
  - intros q Hq. rewrite lookup_delete_ne by (by intros ->). by apply (ok_refs _ Hok).
  - intros q. rewrite elem_of_difference, elem_of_singleton, (ok_recycling _ Hok). setoid_rewrite lookup_delete_Some. naive_solver.
  - intros k Hk. destruct Ht as [(_ & _ & ->)|(Hn & -> & ->)]; [by apply elem_of_nil in Hk|]. destruct (ok_waiting _ Hok k Hk) as (q & Hq & Hrq). exists q. split; [done|].
    apply elem_of_difference. split; [done|]. rewrite elem_of_singleton. intros ->. by rewrite (open_key s k p n Hok Hq E) in Hq.
  - intros q [m [_ Em]%lookup_delete_Some]. by apply (ok_fresh _ Hok).
Qed.

(** A node that was recycled is kept in the closed set. *)
Definition shelved s p n : System V W :=
  with_closed (Broadcast (with_open (put (with_recycling s (s.(recycling) ∖ {[p]})) p (with_count n 1)) (delete n.(digest_) s.(open_hash_)))) (<[n.(digest_) := p]> s.(closed_hash_)).

Lemma shelved_ok s p n : cache_ok s → s.(heap) !! p = Some n → p ∈ s.(recycling) → s.(open_hash_) !! n.(digest_) = Some p → cache_ok (shelved s p n).
Proof.
  intros Hok E Hr Ho. destruct (count_none s p n Hok E Hr) as (Hc & Hz & Hp). set (n' := with_count n 1).
  pose proof (held_count s p n Hok E Hc) as Hm. pose proof (ok_disjoint _ Hok _ _ Ho) as Hcn.
  assert (∀ q m0, s.(heap) !! q = Some m0 → ∃ m, <[p := n']> s.(heap) !! q = Some m ∧ m.(digest_) = m0.(digest_)) as Hnew.
  { intros q m0 Eq. destruct (decide (q = p)) as [->|Hq]; [rewrite lookup_insert_eq; simplify_eq|rewrite lookup_insert_ne by done]; eauto. }
  unfold shelved. fold n'. split; fields.
  - intros k q [Hk (m0 & Eq & <-)%(ok_open _ Hok)]%lookup_delete_Some. destruct (Hnew _ _ Eq) as (m & ? & ?). eauto.
  - intros k q. destruct (decide (k = n.(digest_))) as [->|Hk]; [rewrite lookup_insert_eq; intros [= <-]; split; [done|]; exists n'; by rewrite lookup_insert_eq|rewrite lookup_insert_ne by done].
    intros (Hq & m0 & Eq & <-)%(ok_closed _ Hok). split; [done|]. destruct (Hnew _ _ Eq) as (m & ? & ?). eauto.
  - intros k q [Hk Hq]%lookup_delete_Some. rewrite lookup_insert_ne by done. by eapply (ok_disjoint _ Hok).
  - intros q m Eq. unfold closed_count. fields. destruct (decide (q = p)) as [->|Hq].
    + rewrite lookup_insert_eq in Eq. injection Eq as <-. cbn [digest_ ref_count_ with_count n']. rewrite lookup_insert_eq, decide_True by done. lia.
    + rewrite lookup_insert_ne in Eq by done. rewrite (ok_count _ Hok q m Eq). unfold closed_count. destruct (decide (m.(digest_) = n.(digest_))) as [Ed|Ed]; [|by rewrite lookup_insert_ne by done].
      rewrite Ed, lookup_insert_eq, Hcn. rewrite !decide_False by congruence. done.
  - intros q Hq. destruct (ok_refs _ Hok q Hq) as [m0 E0]. destruct (Hnew _ _ E0) as (m & ? & _). eauto.
  - intros q. rewrite elem_of_difference, elem_of_singleton. destruct (decide (q = p)) as [->|Hq]; [rewrite lookup_insert_eq|rewrite lookup_insert_ne by done; rewrite (ok_recycling _ Hok); naive_solver].
    split; [by intros [_ ?]|]. by intros (m & [= <-] & ?).
  - by intros k ?%elem_of_nil.
  - intros q [m Em]. destruct (decide (q = p)) as [->|Hq]; [|rewrite lookup_insert_ne in Em by done]; by apply (ok_fresh _ Hok).
Qed.

(** ** The operations *)

Inductive found s k : Locked (zx_status * option Z) → System V W → Prop :=
| found_leaving p : s.(open_hash_) !! k = Some p → p ∈ s.(recycling) → found s k Waits (with_waiting s (k :: s.(release_cvar_)))
| found_open p n : s.(open_hash_) !! k = Some p → s.(heap) !! p = Some n → p ∉ s.(recycling) → found s k (Done (ZX_OK, Some p)) (referenced s p n)
| found_closed p : s.(open_hash_) !! k = None → s.(closed_hash_) !! k = Some p → found s k (Done (ZX_OK, Some p)) (opened s k p)
| found_none : s.(open_hash_) !! k = None → s.(closed_hash_) !! k = None → found s k (Done (ZX_ERR_NOT_FOUND, None)) s.

Lemma waiting_ok s k p : cache_ok s → s.(open_hash_) !! k = Some p → p ∈ s.(recycling) → cache_ok (with_waiting s (k :: s.(release_cvar_))).
Proof. intros Hok Ho Hr. split; fields; try apply Hok. intros k' [->|Hk]%elem_of_cons; [eauto|by apply (ok_waiting _ Hok)]. Qed.

Lemma LookupLocked_ok s k : cache_ok s → ∃ l s', LookupLocked s k = Returns (l, s') ∧ cache_ok s' ∧ found s k l s'.
Proof.
  intros Hok. unfold LookupLocked. destruct (s.(open_hash_) !! k) as [p|] eqn:Ho.
  - destruct (MakeRefPtrUpgradeFromRaw_ok s k p Hok Ho) as (n & E & Hk & [(Hr & ->)|(Hr & -> & Hok')]); cbn [mbind outcome_bind]; eexists _, _; (split; [done|]).
    + split; [by eapply waiting_ok|by eapply found_leaving].
    + split; [done|by apply found_open].
  - unfold UpgradeLocked. rewrite Ho. cbn [mbind outcome_bind ZX_DEBUG_ASSERT bool_decide decide_rel]. destruct (s.(closed_hash_) !! k) as [p|] eqn:Hc; [|eexists _, _; by split; [|split; [|apply found_none]]].
    destruct (ok_closed _ Hok k p Hc) as (_ & n & E & Hk). unfold deref. rewrite E. cbn [mbind outcome_bind].
    assert (InContainer (with_closed s (delete k s.(closed_hash_))) p n = false) as Hin.
    { apply not_true_iff_false. rewrite InContainer_spec. fields. rewrite Hk, Ho, lookup_delete_eq. by intros [?|?]. }
    unfold insert_tree. rewrite Hin. fields. rewrite Hk, Ho. cbn [mbind outcome_bind ZX_DEBUG_ASSERT negb]. rewrite bool_decide_eq_true_2 by done. cbn [mbind outcome_bind].
    eexists _, (opened s k p). split; [done|]. split; [by apply opened_ok|by apply found_closed].
Qed.

Lemma Lookup_ok s k : cache_ok s → ∃ l s', Lookup s k = Returns (l, s') ∧ cache_ok s' ∧ found s k l s'.
Proof.
  intros Hok. destruct (LookupLocked_ok s k Hok) as (l & s' & E & Hok' & Hf). exists l, s'. split; [|done]. unfold Lookup. rewrite E. cbn [mbind outcome_bind]. by destruct Hf.
Qed.

Lemma AddLocked_ok s p n : cache_ok s → s.(heap) !! p = Some n → p ∈ s.(refs) → InContainer s p n = false → ∃ l s', AddLocked s p = Returns (l, s') ∧ cache_ok s' ∧
  ((s.(open_hash_) !! n.(digest_) = None ∧ s.(closed_hash_) !! n.(digest_) = None ∧ l = Done (ZX_OK, None) ∧ s' = with_open s (<[n.(digest_) := p]> s.(open_hash_))) ∨
   (∃ q, l = Done (ZX_ERR_ALREADY_EXISTS, Some q) ∧ found s n.(digest_) (Done (ZX_OK, Some q)) s') ∨ (l = Waits ∧ found s n.(digest_) Waits s')).
Proof.
  intros Hok E Hp Hin. unfold AddLocked, deref. rewrite E. cbn [mbind outcome_bind]. destruct (LookupLocked_ok s n.(digest_) Hok) as (l & s' & -> & Hok' & Hf). cbn [mbind outcome_bind].
  destruct Hf as [q Ho Hr|q m Ho Em Hr|q Ho Hc|Ho Hc].
  - eexists _, _. split; [done|]. split; [done|]. do 2 right. split; [done|by eapply found_leaving].
  - eexists _, _. split; [done|]. split; [done|]. right. left. exists q. split; [done|by apply found_open].
  - eexists _, _. split; [done|]. split; [done|]. right. left. exists q. split; [done|by apply found_closed].
  - unfold insert_tree. rewrite Hin, Ho. cbn [mbind outcome_bind ZX_DEBUG_ASSERT negb bool_decide decide_rel].
    eexists _, _. split; [done|]. split; [by eapply added_ok|]. by left.
Qed.

Lemma Evict_ok s p n : cache_ok s → s.(heap) !! p = Some n → p ∈ s.(refs) → ∃ r s', Evict s p = Returns (r, s') ∧ cache_ok s' ∧
  ((s.(open_hash_) !! n.(digest_) = Some p ∧ r = ZX_OK ∧ s' = with_open s (delete n.(digest_) s.(open_hash_))) ∨ (s.(open_hash_) !! n.(digest_) ≠ Some p ∧ r = ZX_ERR_NOT_FOUND ∧ s' = s)).
Proof.
  intros Hok E Hp. destruct (count_held s p n Hok E Hp) as (Hc & _ & _). unfold Evict, EvictUnsafe, deref. rewrite E. cbn [mbind outcome_bind].
  destruct (InContainer s p n) eqn:Hin; cbn [negb].
  - apply InContainer_spec in Hin as [Ho|?]; [|done]. unfold erase. rewrite bool_decide_eq_true_2 by done. cbn [mbind outcome_bind]. fields.
    rewrite (ok_disjoint _ Hok _ _ Ho). cbn [mbind outcome_bind ZX_ASSERT bool_decide decide_rel]. eexists _, _. split; [done|]. split; [by apply evicted_ok with (p := p)|]. by left.
  - eexists _, _. split; [done|]. split; [done|]. right. split; [|done]. intros Ho. apply not_true_iff_false in Hin. apply Hin, InContainer_spec. by left.
Qed.

(** What becomes of a node without references. *)
Definition recycled s p n : System V W :=
  if bool_decide (s.(open_hash_) !! n.(digest_) = Some p) then
    if ShouldCache n.(derived) then
      match s.(cache_policy_) with
      | EvictImmediately =>
        let '(w, v) := NodeActivateLowMemory s.(world) n.(derived) in with_world (put (shelved s p n) p (with_derived (with_count n 1) v)) w
      | NeverEvict => shelved s p n
      end
    else destroyed s p n (delete n.(digest_) s.(open_hash_)) []
  else destroyed s p n s.(open_hash_) s.(release_cvar_).

Lemma recycled_ok s p n : cache_ok s → s.(heap) !! p = Some n → p ∈ s.(recycling) → cache_ok (recycled s p n).
Proof.
  intros Hok E Hr. unfold recycled. destruct (bool_decide_reflect (s.(open_hash_) !! n.(digest_) = Some p)) as [Ho|Ho]; [destruct (ShouldCache _)|].
  - pose proof (shelved_ok s p n Hok E Hr Ho) as Hok'. destruct s.(cache_policy_); [|done]. destruct (NodeActivateLowMemory _ _) as [w v]. apply with_world_ok, put_derived_ok; [done|]. unfold shelved. fields. apply lookup_insert_eq.
  - apply destroyed_ok; [done..|]. by left.
  - apply destroyed_ok; [done..|]. by right.
Qed.

Lemma fbl_recycle_ok s p : cache_ok s → p ∈ s.(recycling) → ∃ n, s.(heap) !! p = Some n ∧ n.(ref_count_) = 0 ∧ p ∉ s.(refs) ∧ fbl_recycle s p = Returns (recycled s p n) ∧ cache_ok (recycled s p n).
Proof.
  intros Hok Hr. destruct (recycled_node s p Hok Hr) as (n & E & Hc & Hz & Hp). exists n. split_and!; [done..| |by apply recycled_ok].
  unfold fbl_recycle. set (s0 := with_recycling s _). assert (deref s0 p = Returns n) as Ed by (unfold deref, s0; fields; by rewrite E).
  assert (InContainer s0 p n = bool_decide (s.(open_hash_) !! n.(digest_) = Some p)) as Hin by (unfold InContainer, s0; fields; by rewrite (bool_decide_eq_false_2 _ Hc), orb_false_r).
  assert (InContainer (put s0 p (with_count n 1)) p (with_count n 1) = InContainer s0 p n) as Hin' by done.
  assert (deref (put s0 p (with_count n 1)) p = Returns (with_count n 1)) as Ed' by (unfold deref; fields; by rewrite lookup_insert_eq).
  rewrite Ed. cbn [mbind outcome_bind]. unfold recycled. destruct (ShouldCache n.(derived)) eqn:Hs.
  - unfold Downgrade, ResurrectRef. rewrite Ed. cbn [mbind outcome_bind]. rewrite Hz. cbn [Z.eqb ZX_DEBUG_ASSERT mbind outcome_bind]. rewrite Ed'. cbn [mbind outcome_bind].
    rewrite Hin', Hin. destruct (bool_decide_reflect (s.(open_hash_) !! n.(digest_) = Some p)) as [Ho|Ho]; cbn [negb].
    + unfold erase, s0. fields. rewrite bool_decide_eq_true_2 by done. cbn [mbind outcome_bind]. unfold insert_tree, InContainer. fields. rewrite lookup_delete_eq, (bool_decide_eq_false_2 _ Hc), (ok_disjoint _ Hok _ _ Ho).
      rewrite (bool_decide_eq_false_2 (None = Some p)), bool_decide_eq_true_2 by done. cbn [mbind outcome_bind ZX_DEBUG_ASSERT negb orb]. fields. destruct s.(cache_policy_); [|done].
      by destruct (NodeActivateLowMemory _ _) as [w v].
    + unfold delete_node, deref. fields. rewrite lookup_insert_eq. cbn [mbind outcome_bind]. unfold destroyed, s0. fields. by rewrite delete_insert_eq.
  - unfold EvictUnsafe. rewrite Ed. cbn [mbind outcome_bind]. rewrite Hin. destruct (bool_decide_reflect (s.(open_hash_) !! n.(digest_) = Some p)) as [Ho|Ho]; cbn [negb].
    + unfold erase, s0. fields. rewrite (bool_decide_eq_true_2 _ Ho). cbn [mbind outcome_bind]. fields. rewrite (ok_disjoint _ Hok _ _ Ho), (bool_decide_eq_true_2 (None = None)) by done. cbn [mbind outcome_bind ZX_ASSERT snd].
      unfold InContainer. fields. rewrite lookup_delete_eq, (bool_decide_eq_false_2 _ Hc), (bool_decide_eq_false_2 (None = Some p)) by done. cbn [mbind outcome_bind ZX_DEBUG_ASSERT negb orb].
      unfold delete_node, deref. fields. rewrite E. done.
    + cbn [mbind outcome_bind snd]. rewrite Hin. cbn [mbind outcome_bind ZX_DEBUG_ASSERT negb]. unfold delete_node, deref, s0. fields. by rewrite E.
Qed.

Lemma least_elem (l : list (list Z * Z)) kp : least l = Some kp → kp ∈ l.
Proof.
  revert kp. induction l as [|kp' l IH]; intros kp; cbn; [done|]. fold (least l). destruct (least l) as [kp''|]; [|by intros [= ->]; left].
  destruct (memcmp_lt _ _); intros [= <-]; [right; by apply IH|by left].
Qed.

Lemma front_lookup (t : WAVLTree) k p : front t = Some (k, p) → t !! k = Some p.
Proof. intros E%least_elem. by apply elem_of_map_to_list. Qed.

Lemma lower_bound_lookup (t : WAVLTree) key k p : lower_bound t key = Some (k, p) → t !! k = Some p.
Proof. intros [_ E]%least_elem%list_elem_of_filter. by apply elem_of_map_to_list. Qed.

Lemma upper_bound_lookup (t : WAVLTree) key k p : upper_bound t key = Some (k, p) → t !! k = Some p.
Proof. intros [_ E]%least_elem%list_elem_of_filter. by apply elem_of_map_to_list. Qed.

Lemma NextOpenNode_ok s old : cache_ok s → (∀ p, old = Some p → p ∈ s.(refs)) → ∃ l s', NextOpenNode s old = Returns (l, s') ∧ cache_ok s' ∧
  ((l = Done None ∧ s' = s) ∨ ∃ k p n, s.(open_hash_) !! k = Some p ∧ s.(heap) !! p = Some n ∧
     ((p ∉ s.(recycling) ∧ l = Done (Some p) ∧ s' = referenced s p n) ∨ (p ∈ s.(recycling) ∧ l = Waits ∧ s' = with_waiting s (k :: s.(release_cvar_))))).
Proof.
  intros Hok Hold. unfold NextOpenNode. match goal with |- ∃ _ _, ?m ≫= _ = _ ∧ _ => assert (∃ raw, m = Returns raw ∧ ∀ k p, raw = Some (k, p) → s.(open_hash_) !! k = Some p) as (raw & -> & Hraw) end.
  { destruct old as [q|]; [|eexists; split; [done|]; apply front_lookup]. destruct (held_node s q Hok (Hold q eq_refl)) as (n & E & _). unfold deref. rewrite E. cbn [mbind outcome_bind]. eexists. split; [done|].
    intros k p. destruct (lower_bound _ _) as [[k' p']|] eqn:El; [|done]. cbn [fst snd]. destruct (_ =? _); [apply upper_bound_lookup|intros [= <- <-]; by eapply lower_bound_lookup]. }
  cbn [mbind outcome_bind]. destruct raw as [[k p]|]; [|eexists _, _; split; [done|]; split; [done|by left]]. specialize (Hraw k p eq_refl).
  destruct (MakeRefPtrUpgradeFromRaw_ok s k p Hok Hraw) as (n & E & Hk & [(Hr & ->)|(Hr & -> & Hok')]); cbn [mbind outcome_bind]; eexists _, _; (split; [done|]).
  - split; [by eapply waiting_ok|]. right. exists k, p, n. split_and!; [done..|]. by right.
  - split; [done|]. right. exists k, p, n. split_and!; [done..|]. by left.
Qed.

(** ** The cache as a map *)

(** What can be found. *)
Definition visible s : WAVLTree := s.(open_hash_) ∪ s.(closed_hash_).

Definition node_of s p : option (list Z * bool) := (λ n, (n.(digest_), ShouldCache n.(derived))) <$> s.(heap) !! p.

(** What an operation is to do to the map [m] and to answer, where [node] gives the digest of a node and whether it is to be kept. *)
Definition cache_spec (node : Z → option (list Z * bool)) (m : WAVLTree) (o : Op) (r : answer) (m' : WAVLTree) : Prop :=
  match o with
  | OpLookup k => m' = m ∧ (r = None ∨ r = Some (match m !! k with Some p => (ZX_OK, Some p) | None => (ZX_ERR_NOT_FOUND, None) end))
  | OpAdd p => ∃ k c, node p = Some (k, c) ∧
      match r with
      | None => m' = m ∧ is_Some (m !! k)
      | Some r => match m !! k with Some q => r = (ZX_ERR_ALREADY_EXISTS, Some q) ∧ m' = m | None => r = (ZX_OK, None) ∧ m' = <[k := p]> m end
      end
  | OpEvict p => ∃ k c, node p = Some (k, c) ∧
      if decide (m !! k = Some p) then r = Some (ZX_OK, None) ∧ m' = delete k m else r = Some (ZX_ERR_NOT_FOUND, None) ∧ m' = m
  | OpRecycle p => ∃ k c, node p = Some (k, c) ∧ m' = if c || negb (bool_decide (m !! k = Some p)) then m else delete k m
  | OpNext _ => m' = m ∧ ∀ st p, r = Some (st, Some p) → ∃ k c, node p = Some (k, c) ∧ m !! k = Some p
  | OpNew _ _ | OpCopy _ | OpRelease _ | OpUpdate _ _ => m' = m ∧ r ≠ None
  end.

Lemma visible_open s k p : s.(open_hash_) !! k = Some p → visible s !! k = Some p.
Proof. apply lookup_union_Some_l. Qed.

Lemma visible_closed s k : s.(open_hash_) !! k = None → visible s !! k = s.(closed_hash_) !! k.
Proof. intros Ho. unfold visible. by rewrite lookup_union_r. Qed.

Lemma visible_opened s k p : s.(closed_hash_) !! k = Some p → s.(open_hash_) !! k = None → visible (opened s k p) = visible s.
Proof.
  intros Hc Ho. unfold visible, opened. fields. apply map_eq. intros k'. rewrite !lookup_union. destruct (decide (k' = k)) as [->|Hk]; [by rewrite lookup_insert_eq, lookup_delete_eq, Hc, Ho|by rewrite lookup_insert_ne, lookup_delete_ne].
Qed.

Lemma visible_shelved s p n : s.(open_hash_) !! n.(digest_) = Some p → visible (shelved s p n) = visible s.
Proof.
  intros Ho. unfold visible, shelved. fields. apply map_eq. intros k'. rewrite !lookup_union. destruct (decide (k' = n.(digest_))) as [->|Hk]; [|by rewrite lookup_insert_ne, lookup_delete_ne].
  rewrite lookup_insert_eq, lookup_delete_eq, Ho. destruct (s.(closed_hash_) !! _); done.
Qed.

Lemma found_visible s k l s' : found s k l s' → visible s' = visible s ∧ (l = Waits ∧ is_Some (visible s !! k) ∨ l = Done match visible s !! k with Some p => (ZX_OK, Some p) | None => (ZX_ERR_NOT_FOUND, None) end).
Proof.
  intros [p Ho Hr|p n Ho E Hr|p Ho Hc|Ho Hc].
  - split; [done|]. left. split; [done|]. by rewrite (visible_open s k p Ho).
  - split; [done|]. right. by rewrite (visible_open s k p Ho).
  - split; [by apply visible_opened|]. right. by rewrite (visible_closed s k Ho), Hc.
  - split; [done|]. right. by rewrite (visible_closed s k Ho), Hc.
Qed.

Lemma found_held s k l s' p : found s k l s' → ∀ st, l = Done (st, Some p) → p ∈ s'.(refs).
Proof. intros [] st; intros [= <- <-]; unfold referenced, opened; fields; rewrite gmultiset_elem_of_disj_union, gmultiset_elem_of_singleton; by left. Qed.

Lemma visible_evicted s p n : cache_ok s → s.(open_hash_) !! n.(digest_) = Some p → visible (with_open s (delete n.(digest_) s.(open_hash_))) = delete n.(digest_) (visible s).
Proof. intros Hok Ho. unfold visible. fields. rewrite delete_union. f_equal. symmetry. apply delete_id. by eapply ok_disjoint. Qed.

(** A node of the map is where its digest is, and a node with references is visible if it is in the open set. *)
Lemma visible_held s p n : cache_ok s → s.(heap) !! p = Some n → s.(closed_hash_) !! n.(digest_) ≠ Some p → visible s !! n.(digest_) = Some p ↔ s.(open_hash_) !! n.(digest_) = Some p.
Proof.
  intros Hok E Hc. split; [|apply visible_open]. intros Hv. destruct (s.(open_hash_) !! n.(digest_)) as [q|] eqn:Ho; [|by rewrite (visible_closed _ _ Ho) in Hv]. by rewrite (visible_open _ _ _ Ho) in Hv.
Qed.

Lemma recycled_visible s p n : cache_ok s → s.(heap) !! p = Some n → p ∈ s.(recycling) →
  visible (recycled s p n) = if ShouldCache n.(derived) || negb (bool_decide (visible s !! n.(digest_) = Some p)) then visible s else delete n.(digest_) (visible s).
Proof.
  intros Hok E Hr. destruct (count_none s p n Hok E Hr) as (Hc & _ & _). rewrite (bool_decide_ext _ _ (visible_held s p n Hok E Hc)). unfold recycled.
  destruct (bool_decide_reflect (s.(open_hash_) !! n.(digest_) = Some p)) as [Ho|Ho]; [|by rewrite orb_true_r]. destruct (ShouldCache _); cbn [orb negb].
  - pose proof (visible_shelved s p n Ho) as Hv. destruct s.(cache_policy_); [|done]. by destruct (NodeActivateLowMemory _ _).
  - by apply (visible_evicted s p n).
Qed.

(** Every operation that is enabled returns, keeps the invariant, and does what the map says; a thread waits only for a
    node that another thread is recycling. *)
Lemma op_ok s o : cache_ok s → enabled s o → ∃ r s', run_op o s = Returns (r, s') ∧ cache_ok s' ∧ cache_spec (node_of s) (visible s) o r (visible s') ∧
  (∀ st p, r = Some (st, Some p) → p ∈ s'.(refs)) ∧ (r = None → ∃ k, s'.(release_cvar_) = k :: s.(release_cvar_)).
Proof.
  intros Hok Hen. destruct o as [k v|p|k|p|p|p|p|p v|old]; cbn [run_op enabled cache_spec] in *.
  - unfold NewNode at 1. eexists _, _. split; [done|]. split; [by apply (NewNode_ok s k v)|]. split_and!; [done|done| |done]. intros st p [= <- <-]. fields. rewrite gmultiset_elem_of_disj_union, gmultiset_elem_of_singleton. by left.
  - destruct Hen as [Hp Hin]. destruct (held_node s p Hok Hp) as (n & E & _). unfold node_of. rewrite E.
    destruct (AddLocked_ok s p n Hok E Hp (Hin n E)) as (l & s' & -> & Hok' & [(Ho & Hc & -> & ->)|[(q & -> & Hf)|(-> & Hf)]]); cbn [mbind outcome_bind fst snd answered]; eexists _, _; (split; [done|]); (split; [done|]).
    + split_and!; [|done..]. eexists _, _. split; [done|]. rewrite (visible_closed s _ Ho), Hc. split; [done|]. unfold visible. fields. by rewrite insert_union_l.
    + pose proof (found_visible _ _ _ _ Hf) as [Hv [[? _]|Hd]]; [done|]. split_and!; [| |done].
      * eexists _, _. split; [done|]. destruct (visible s !! n.(digest_)); [|done]. by injection Hd as ->.
      * intros st x [= <- <-]. by eapply found_held.
    + pose proof (found_visible _ _ _ _ Hf) as [Hv [[_ Hs]|?]]; [|done]. split_and!; [eexists _, _; by split|done|]. intros _. inversion Hf. by eexists.
  - destruct (Lookup_ok s k Hok) as (l & s' & -> & Hok' & Hf). cbn [mbind outcome_bind fst snd]. eexists _, _. split; [done|]. split; [done|]. pose proof (found_visible _ _ _ _ Hf) as [Hv Hl].
    split_and!; [done|destruct Hl as [(-> & _)| ->]; [by left|by right]| |].
    + intros st p Hr. destruct l as [|[st' o]]; [done|]. injection Hr as -> ->. by eapply found_held.
    + intros Hr. destruct l; [|done]. inversion Hf. by eexists.
  - destruct (AddRef_ok s p Hok Hen) as (n & E & -> & Hok'). cbn [mbind outcome_bind]. eexists _, _. split; [done|]. split; [done|]. split_and!; [done|done| |done].
    intros st q [= <- <-]. unfold referenced. fields. rewrite gmultiset_elem_of_disj_union, gmultiset_elem_of_singleton. by left.
  - destruct (Release_ok s p Hok Hen) as (n & E & -> & Hok'). cbn [mbind outcome_bind]. eexists _, _. split; [done|]. split; [done|]. split_and!; [|done..]. unfold released. by destruct (_ =? 1).
  - destruct (held_node s p Hok Hen) as (n & E & Hc & _). unfold node_of. rewrite E. destruct (Evict_ok s p n Hok E Hen) as (r & s' & -> & Hok' & Hd). cbn [mbind outcome_bind fst snd]. eexists _, _. split; [done|]. split; [done|].
    split_and!; [|done..]. eexists _, _. split; [done|]. pose proof (visible_held s p n Hok E Hc) as Hvh. destruct Hd as [(Ho & -> & ->)|(Ho & -> & ->)].
    + rewrite decide_True by (by apply Hvh). split; [done|]. by apply (visible_evicted s p n).
    + by rewrite decide_False by (by intros ?%Hvh).
  - destruct (fbl_recycle_ok s p Hok Hen) as (n & E & _ & _ & -> & Hok'). cbn [mbind outcome_bind]. eexists _, _. split; [done|]. split; [done|]. split_and!; [|done..]. unfold node_of. rewrite E. eexists _, _. split; [done|]. by apply recycled_visible.
  - destruct (held_node s p Hok Hen) as (n & E & _). unfold deref. rewrite E. cbn [mbind outcome_bind]. eexists _, _. split; [done|]. split; [by apply put_derived_ok|]. done.
  - destruct (NextOpenNode_ok s old Hok Hen) as (l & s' & -> & Hok' & [(-> & ->)|(k & p & n & Ho & E & [(Hr & -> & ->)|(Hr & -> & ->)])]); cbn [mbind outcome_bind fst snd answered]; eexists _, _; (split; [done|]); (split; [done|]).
    + done.
    + split_and!; [done| | |done]; intros st q [= <- <-].
      * unfold node_of. rewrite E. rewrite (open_key s k p n Hok Ho E) in Ho. eexists _, _. split; [done|]. by apply visible_open.
      * unfold referenced. fields. rewrite gmultiset_elem_of_disj_union, gmultiset_elem_of_singleton. by left.
    + split_and!; [done|done|done|]. intros _. by eexists.
Qed.

Lemma cache_run_ok policy w s : rtc cache_step (NewCache policy w) s → cache_ok s.
Proof.
  intros Hr. remember (NewCache policy w) as s0 eqn:E0. assert (cache_ok s0) as Hok by (subst; apply new_cache_ok). clear E0. induction Hr as [|s0 s1 s2 [o r Hen E] _ IH]; [done|].
  apply IH. destruct (op_ok s0 o Hok Hen) as (r' & s' & E' & Hok' & _). congruence.
Qed.

(** Recycling the node that threads wait for wakes them, and none waits for it again. *)
Lemma recycled_wakes s k p : cache_ok s → s.(open_hash_) !! k = Some p → p ∈ s.(recycling) → ∃ n, fbl_recycle s p = Returns (recycled s p n) ∧ (recycled s p n).(release_cvar_) = [] ∧
  (recycled s p n).(open_hash_) !! k = None ∧ cache_ok (recycled s p n).
Proof.
  intros Hok Ho Hr. destruct (fbl_recycle_ok s p Hok Hr) as (n & E & _ & _ & Er & Hok'). exists n. pose proof (open_key s k p n Hok Ho E) as ->. split; [done|]. apply and_assoc. split; [|done].
  unfold recycled. rewrite bool_decide_eq_true_2 by done. destruct (ShouldCache _).
  - destruct s.(cache_policy_); [|unfold shelved; fields; by rewrite lookup_delete_eq]. destruct (NodeActivateLowMemory _ _). unfold shelved. fields. by rewrite lookup_delete_eq.
  - unfold destroyed. fields. by rewrite lookup_delete_eq.
Qed.

End protocol.

(** ** Theorems *)

Section theorems.
Context {V W : Type} `{CacheNodeOps V W}.

(** C12. The cache implements a map from digests to nodes, under any interleaving.  In every state that threads reach which
    use only references that they have, every operation returns, so that no assertion of the cache fails and no deleted
    node is used; it changes the map and answers as the map says: a lookup gives the node of the digest, an addition
    is refused exactly if the digest has a node, an eviction removes the node if it is there, and recycling removes
    it exactly if it is not to be kept.  An answer that names a node comes with a reference to it.  *)
Theorem cache_refines_map policy w (s : System V W) o : rtc cache_step (NewCache policy w) s → enabled s o →
  ∃ r s', run_op o s = Returns (r, s') ∧ cache_spec (node_of s) (visible s) o r (visible s') ∧ ∀ st p, r = Some (st, Some p) → p ∈ s'.(refs).
Proof. intros Hok%cache_run_ok Hen. destruct (op_ok s o Hok Hen) as (r & s' & ? & _ & ? & ? & _). eauto. Qed.

(** C13. Nodes live as long as they are needed.  In every state that is reached: a reference is to a node that is live;
    a live node has a reference, or is kept in the closed set, or is about to be recycled by the thread that dropped its
    last reference, and only one of these; the open and the closed set have no digest in common, and a node of either
    is live and has the digest as its own. *)
Theorem cache_lifetimes policy w (s : System V W) : rtc cache_step (NewCache policy w) s →
  (∀ p, p ∈ s.(refs) → is_Some (s.(heap) !! p)) ∧
  (∀ p n, s.(heap) !! p = Some n → let closed := s.(closed_hash_) !! n.(digest_) = Some p in
     (p ∈ s.(refs) ∧ ¬ closed ∧ p ∉ s.(recycling)) ∨ (p ∉ s.(refs) ∧ closed ∧ p ∉ s.(recycling)) ∨ (p ∉ s.(refs) ∧ ¬ closed ∧ p ∈ s.(recycling))) ∧
  (∀ k, s.(open_hash_) !! k = None ∨ s.(closed_hash_) !! k = None) ∧ (∀ k p, visible s !! k = Some p → ∃ n, s.(heap) !! p = Some n ∧ n.(digest_) = k).
Proof.
  intros Hok%cache_run_ok. split_and!; [apply (ok_refs _ Hok)| | |].
  - intros p n E closed. destruct (decide (p ∈ s.(refs))) as [Hp|Hp]; [left; destruct (count_held s p n Hok E Hp) as (? & _ & ?); by split_and!|]. right.
    destruct (decide (p ∈ s.(recycling))) as [Hr|Hr]; [right; destruct (count_none s p n Hok E Hr) as (? & _ & _); by split_and!|]. left. split_and!; [done| |done].
    unfold closed. destruct (decide (s.(closed_hash_) !! n.(digest_) = Some p)) as [|Hc]; [done|]. destruct Hr. apply (ok_recycling _ Hok). exists n. split; [done|]. rewrite (held_count s p n Hok E Hc).
    rewrite elem_of_multiplicity in Hp. lia.
  - intros k. destruct (s.(open_hash_) !! k) as [p|] eqn:Ho; [right; by eapply ok_disjoint|by left].
  - intros k p [Ho|[_ Hc]]%lookup_union_Some_raw; [by apply (ok_open _ Hok)|by apply (ok_closed _ Hok)].
Qed.

(** C14. Nobody waits for ever.  Whenever a thread waits for a digest, the node it waits for is about to be recycled; the
    thread that dropped its last reference can do that without waiting itself, whereupon all that wait are woken; and a
    lookup of the digest is then answered at once. *)
Theorem cache_waits_end policy w (s : System V W) k : rtc cache_step (NewCache policy w) s → k ∈ s.(release_cvar_) →
  ∃ p r s' a s'', s.(open_hash_) !! k = Some p ∧ enabled s (OpRecycle p) ∧ run_op (OpRecycle p) s = Returns (r, s') ∧ s'.(release_cvar_) = [] ∧
    run_op (OpLookup k) s' = Returns (Some a, s'').
Proof.
  intros Hok%cache_run_ok (p & Ho & Hr)%(ok_waiting _ Hok). destruct (recycled_wakes s k p Hok Ho Hr) as (n & Er & Hw & Ho' & Hok'). destruct (Lookup_ok _ k Hok') as (l & s'' & El & _ & Hf).
  assert (∃ a, l = Done a) as [a ->] by (destruct Hf; [congruence|eauto..]). exists p, (Some (ZX_OK, None)), (recycled s p n), a, s''. cbn [run_op enabled]. by rewrite Er, El.
Qed.

End theorems.

(** ** An example: nodes that are booleans, which say whether they are to be kept; the world counts the nodes destroyed *)

#[export] Instance bool_node : CacheNodeOps bool nat := {|
  ShouldCache := λ v, v; NodeActivateLowMemory := λ w v, (w, v); NodeDestroy := λ w _, S w |}.

Definition after (o : Op) (s : System bool nat) : System bool nat := match run_op o s with Returns (_, s') => s' | _ => s end.

(** A node is added, its only reference is dropped, and before it is recycled someone looks it up. *)
Definition example_added : System bool nat := after (OpAdd 1) (after (OpNew [7] true) (NewCache EvictImmediately 0%nat)).
Definition example_waiting : System bool nat := after (OpLookup [7]) (after (OpRelease 1) example_added).

Lemma after_step s o : enabled s o → (∃ r, run_op o s = Returns (r, after o s)) → cache_step s (after o s).
Proof. intros Hen [r E]. by eapply cache_steps. Qed.

Lemma example_added_reached : rtc cache_step (NewCache EvictImmediately 0%nat) example_added ∧ 1 ∈ example_added.(refs).
Proof.
  split; [|by apply (bool_decide_eq_true_1 _); vm_compute]. eapply rtc_l; [apply (after_step _ (OpNew [7] true)); [done|by eexists; vm_compute]|].
  apply rtc_once, after_step; [|by eexists; vm_compute]. split; [by apply (bool_decide_eq_true_1 _); vm_compute|]. intros n. vm_compute. by intros [= <-].
Qed.

Lemma example_waiting_reached : rtc cache_step (NewCache EvictImmediately 0%nat) example_waiting ∧ [7] ∈ example_waiting.(release_cvar_).
Proof.
  destruct example_added_reached as [Hr Hin]. split; [|by apply (bool_decide_eq_true_1 _); vm_compute]. etransitivity; [exact Hr|].
  eapply rtc_l; [apply (after_step _ (OpRelease 1)); [done|by eexists; vm_compute]|]. apply rtc_once, after_step; [done|by eexists; vm_compute].
Qed.

Lemma cache_refines_map_witness : ∃ r s', run_op (OpEvict 1) example_added = Returns (r, s') ∧ visible s' = ∅ ∧ r = Some (ZX_OK, None).
Proof.
  destruct example_added_reached as [Hr Hin]. destruct (cache_refines_map EvictImmediately 0%nat example_added (OpEvict 1) Hr Hin) as (r & s' & E & Hs & _).
  exists r, s'. split; [done|]. revert E. vm_compute. by intros [= <- <-].
Defined.

Lemma cache_lifetimes_witness : let s := example_added in visible s !! [7] = Some 1 ∧ ∃ n, s.(heap) !! 1 = Some n ∧ s.(closed_hash_) !! n.(digest_) ≠ Some 1.
Proof.
  destruct example_added_reached as [Hr Hin]. cbn zeta. split; [by vm_compute|]. destruct (cache_lifetimes EvictImmediately 0%nat example_added Hr) as (Hl & Hone & _).
  destruct (Hl 1 Hin) as [n E]. exists n. split; [done|]. destruct (Hone 1 n E) as [(_ & ? & _)|[(? & _)|(? & _)]]; done.
Defined.

Lemma cache_waits_end_witness : ∃ p r s' a s'', enabled example_waiting (OpRecycle p) ∧ run_op (OpRecycle p) example_waiting = Returns (r, s') ∧ s'.(release_cvar_) = [] ∧ run_op (OpLookup [7]) s' = Returns (Some a, s'').
Proof.
  destruct example_waiting_reached as [Hr Hin]. destruct (cache_waits_end EvictImmediately 0%nat example_waiting [7] Hr Hin) as (p & r & s' & a & s'' & _ & H1 & H2 & H3 & H4). eauto 10.
Defined.
