(* ===== verification/CacheReset.v ===== *)
(** * Emptying the cache of blobs

    [Reset] goes over the open nodes in the order of their digests and evicts them, and then deletes the closed ones. *)

From stdpp Require Import gmap gmultiset.
From S2P Require Import Prelude BlobCache CacheProtocol.

(** ** The order of digests *)

Lemma memcmp_lt_trans k1 k2 k3 : memcmp_lt k1 k2 = true → memcmp_lt k2 k3 = true → memcmp_lt k1 k3 = true.
Proof.
  revert k2 k3. induction k1 as [|x k1 IH]; intros [|y k2] [|z k3]; cbn; try done. rewrite !orb_true_iff, !andb_true_iff, !Z.ltb_lt, !Z.eqb_eq.
  intros [?|[-> ?]] [?|[-> ?]]; [left; lia..|right]. split; [done|by eapply IH].
Qed.

Lemma memcmp_lt_total k1 k2 : memcmp_lt k1 k2 = false → memcmp_lt k2 k1 = false → k1 = k2.
Proof.
  revert k2. induction k1 as [|x k1 IH]; intros [|y k2]; cbn; try done. rewrite !orb_false_iff, !Z.ltb_ge. intros [? H1] [? H2]. assert (x = y) as -> by lia.
  rewrite Z.eqb_refl in *. cbn [andb] in *. f_equal. by apply IH.
Qed.

Lemma memcmp_lt_irrefl k : memcmp_lt k k = false.
Proof. induction k as [|x k IH]; cbn; [done|]. by rewrite Z.ltb_irrefl, Z.eqb_refl. Qed.

Lemma memcmp_ge_trans k1 k2 k3 : memcmp_lt k2 k1 = false → memcmp_lt k3 k2 = false → memcmp_lt k3 k1 = false.
Proof.
  intros H1 H2. destruct (memcmp_lt k3 k1) eqn:E; [|done]. destruct (memcmp_lt k1 k2) eqn:E'; [|by rewrite (memcmp_lt_total k1 k2 E' H1) in E; rewrite E in H2].
  pose proof (memcmp_lt_trans _ _ _ E E'). congruence.
Qed.

Lemma least_least (l : list (list Z * Z)) kp kp' : least l = Some kp → kp' ∈ l → memcmp_lt (fst kp') (fst kp) = false.
Proof.
  revert kp. induction l as [|x l IH]; intros kp; cbn; [done|]. fold (least l). destruct (least l) as [y|] eqn:El.
  - destruct (memcmp_lt (fst y) (fst x)) eqn:E; intros [= <-] [->|Hin]%elem_of_cons; try (apply memcmp_lt_irrefl).
    + destruct (memcmp_lt (fst x) (fst y)) eqn:E'; [|done]. pose proof (memcmp_lt_trans _ _ _ E E') as Hc. by rewrite memcmp_lt_irrefl in Hc.
    + by apply IH.
    + eapply memcmp_ge_trans; [exact E|]. by apply IH.
  - intros [= <-] [->|Hin]%elem_of_cons; [apply memcmp_lt_irrefl|]. destruct l as [|z l]; [by apply elem_of_nil in Hin|]. cbn in El. fold (least l) in El. destruct (least l); [by destruct (memcmp_lt _ _)|done].
Qed.

Lemma least_none (l : list (list Z * Z)) : least l = None → l = [].
Proof. destruct l as [|z l]; [done|]. cbn. fold (least l). destruct (least l); [by destruct (memcmp_lt _ _)|done]. Qed.

Lemma front_none (t : WAVLTree) : front t = None → t = ∅.
Proof. intros E%least_none. by apply map_to_list_empty_iff. Qed.

Lemma lower_bound_none (t : WAVLTree) key : (∀ k p, t !! k = Some p → memcmp_lt k key = false) → lower_bound t key = None → t = ∅.
Proof.
  intros Hge E%least_none. apply map_to_list_empty_iff. destruct (map_to_list t) as [|[k p] l] eqn:El; [done|]. assert ((k, p) ∈ map_to_list t) as Hin by (rewrite El; by left).
  assert ((k, p) ∈ filter (λ kp, memcmp_lt (fst kp) key = false) ((k, p) :: l)) as Hf; [|rewrite E in Hf; by apply elem_of_nil in Hf].
  apply list_elem_of_filter. split; [|by left]. apply (Hge k p). by apply elem_of_map_to_list.
Qed.

(** The first node after [key], when all nodes are. *)
Lemma lower_bound_least (t : WAVLTree) key k p : (∀ k p, t !! k = Some p → memcmp_lt k key = false) → lower_bound t key = Some (k, p) → ∀ k' p', t !! k' = Some p' → memcmp_lt k' k = false.
Proof.
  intros Hge E k' p' Hk'. apply (least_least _ (k, p) (k', p') E). apply list_elem_of_filter. split; [by apply (Hge k' p')|by apply elem_of_map_to_list].
Qed.

Section reset.
Context {V W : Type} `{CacheNodeOps V W}.
Implicit Types (s : System V W) (p : Z) (n : CacheNode V) (k : list Z).

(** What is not a matter of references and of the open set. *)
Record alike s s' : Prop := {
  al_closed : s'.(closed_hash_) = s.(closed_hash_);
  al_world : s'.(world) = s.(world);
  al_policy : s'.(cache_policy_) = s.(cache_policy_);
  al_heap q : (λ n, (n.(digest_), n.(derived))) <$> s'.(heap) !! q = (λ n, (n.(digest_), n.(derived))) <$> s.(heap) !! q;
}.

#[export] Instance alike_preorder : PreOrder alike.
Proof. split; [done|]. intros s1 s2 s3 [] []. split; congruence. Qed.

Lemma put_count_alike s p n c : s.(heap) !! p = Some n → ∀ q, (λ n, (n.(digest_), n.(derived))) <$> (<[p := with_count n c]> s.(heap)) !! q = (λ n, (n.(digest_), n.(derived))) <$> s.(heap) !! q.
Proof. intros E q. destruct (decide (q = p)) as [->|Hq]; [by rewrite lookup_insert_eq, E|by rewrite lookup_insert_ne]. Qed.

Lemma referenced_alike s p n : s.(heap) !! p = Some n → alike s (referenced s p n).
Proof. intros E. split; try done. unfold referenced. fields. by apply put_count_alike. Qed.

Lemma evicted_alike s t : alike s (with_open s t).
Proof. done. Qed.

(** A reference that is not the last one is dropped. *)
Lemma drop_ref_shared s p : cache_ok s → s.(recycling) = ∅ → (2 ≤ multiplicity p s.(refs))%nat → ∃ s', drop_ref s p = Returns s' ∧ cache_ok s' ∧ alike s s' ∧ s'.(recycling) = ∅ ∧
  s'.(open_hash_) = s.(open_hash_) ∧ s'.(refs) = s.(refs) ∖ {[+ p +]}.
Proof.
  intros Hok Hr Hm. destruct (Release_ok s p Hok) as (n & E & Er & Hok'); [rewrite elem_of_multiplicity; lia|]. exists (released s p n).
  destruct (count_held s p n Hok E) as (Hc & _ & _); [rewrite elem_of_multiplicity; lia|]. pose proof (held_count s p n Hok E Hc) as Hn.
  assert (released s p n = with_refs (put s p (with_count n (n.(ref_count_) - 1))) (s.(refs) ∖ {[+ p +]})) as Ed by (unfold released; by ztest). rewrite Ed in *.
  unfold drop_ref. rewrite Er. cbn [mbind outcome_bind]. fields. rewrite Hr. rewrite bool_decide_eq_false_2 by set_solver. split_and!; try done. split; try done. fields. by apply put_count_alike.
Qed.

Definition evict_callback s p : outcome (System V W) := r ← Evict s p; Returns (snd r).

(** What is known when the loop goes on after [old]: it is held here and by someone else, it is not in the open set any more,
    and nodes with lesser digests are not either. *)
Definition passed s (old : option Z) : Prop :=
  match old with
  | None => True
  | Some o => ∃ n, s.(heap) !! o = Some n ∧ (2 ≤ multiplicity o s.(refs))%nat ∧ s.(open_hash_) !! n.(digest_) ≠ Some o ∧ ∀ k p, s.(open_hash_) !! k = Some p → memcmp_lt k n.(digest_) = false
  end.

Lemma open_held s k p : cache_ok s → s.(recycling) = ∅ → s.(open_hash_) !! k = Some p → ∃ n, s.(heap) !! p = Some n ∧ n.(digest_) = k ∧ p ∈ s.(refs).
Proof.
  intros Hok Hr Ho. destruct (MakeRefPtrUpgradeFromRaw_ok s k p Hok Ho) as (n & E & Hk & _). exists n. split_and!; [done..|].
  assert (s.(closed_hash_) !! n.(digest_) ≠ Some p) as Hc by (by rewrite Hk, (ok_disjoint _ Hok _ _ Ho)). rewrite elem_of_multiplicity.
  pose proof (held_count s p n Hok E Hc) as Hn. destruct (multiplicity _ _) eqn:Em; [|lia]. assert (p ∈ s.(recycling)) as Hin; [|rewrite Hr in Hin; set_solver]. apply (ok_recycling _ Hok). exists n. split; [done|lia].
Qed.

(** The next node is the least one of the open set, if there is one. *)
Lemma next_least s old : cache_ok s → s.(recycling) = ∅ → passed s old →
  (s.(open_hash_) = ∅ ∧ NextOpenNode s old = Returns (Done None, s)) ∨
  ∃ p n, s.(open_hash_) !! n.(digest_) = Some p ∧ s.(heap) !! p = Some n ∧ p ∈ s.(refs) ∧ old ≠ Some p ∧ (∀ k q, s.(open_hash_) !! k = Some q → memcmp_lt k n.(digest_) = false) ∧
    NextOpenNode s old = Returns (Done (Some p), referenced s p n).
Proof.
  intros Hok Hr Hold. unfold NextOpenNode.
  match goal with |- (_ ∧ ?m ≫= _ = _) ∨ _ => assert (∃ raw, m = Returns raw ∧ (raw = None → s.(open_hash_) = ∅) ∧ ∀ k p, raw = Some (k, p) → s.(open_hash_) !! k = Some p ∧ ∀ k' q, s.(open_hash_) !! k' = Some q → memcmp_lt k' k = false) as (raw & -> & Hnone & Hraw) end.
  { destruct old as [o|].
    - destruct Hold as (n & E & Hm & Hne & Hge). unfold deref. rewrite E. cbn [mbind outcome_bind]. destruct (lower_bound _ _) as [[k p]|] eqn:El; cbn [fst snd].
      + pose proof (lower_bound_lookup _ _ _ _ El) as Ho. destruct (Z.eqb_spec p o) as [->|Hpo]; [destruct Hne; by rewrite <- (open_key s k o n Hok Ho E)|].
        eexists. split; [done|]. split; [done|]. intros ? ? [= <- <-]. split; [done|]. by eapply lower_bound_least.
      + eexists. split; [done|]. split; [|done]. intros _. by eapply lower_bound_none.
    - eexists. split; [done|]. split; [apply front_none|]. intros k p Ef. split; [by apply front_lookup|]. intros k' q Hq. apply (least_least _ (k, p) (k', q) Ef). by apply elem_of_map_to_list. }
  cbn [mbind outcome_bind]. destruct raw as [[k p]|]; [right|left; by split; [apply Hnone|]]. destruct (Hraw k p eq_refl) as [Ho Hge]. destruct (open_held s k p Hok Hr Ho) as (n & E & <- & Hp). exists p, n.
  destruct (MakeRefPtrUpgradeFromRaw_ok s _ p Hok Ho) as (n' & E' & _ & [(Hin & _)|(_ & -> & _)]); [rewrite Hr in Hin; set_solver|]. simplify_eq. split_and!; try done.
  intros ->. destruct Hold as (n' & ? & _ & Hne & _). by simplify_eq.
Qed.

(** A round: the node is held, evicted, and the one before is let go. *)
Lemma evict_round s old p n : cache_ok s → s.(recycling) = ∅ → passed s old → s.(open_hash_) !! n.(digest_) = Some p → s.(heap) !! p = Some n → p ∈ s.(refs) → old ≠ Some p →
  (∀ k q, s.(open_hash_) !! k = Some q → memcmp_lt k n.(digest_) = false) →
  ∃ s1 s', evict_callback (referenced s p n) p = Returns s1 ∧ match old with Some o => drop_ref s1 o | None => Returns s1 end = Returns s' ∧ cache_ok s' ∧ alike s s' ∧ s'.(recycling) = ∅ ∧
    passed s' (Some p) ∧ s'.(open_hash_) = delete n.(digest_) s.(open_hash_) ∧ s'.(refs) = {[+ p +]} ⊎ match old with Some o => s.(refs) ∖ {[+ o +]} | None => s.(refs) end.
Proof.
  intros Hok Hr Hold Ho E Hp Hne Hge. destruct (count_held s p n Hok E Hp) as (Hc & Hn & _). pose proof (referenced_ok s p n Hok E Hc Hn) as Hok1. set (s0 := referenced s p n) in *. set (n1 := with_count n (n.(ref_count_) + 1)).
  assert (s0.(heap) !! p = Some n1) as E1 by (unfold s0, referenced; fields; apply lookup_insert_eq). assert (p ∈ s0.(refs)) as Hp1 by (unfold s0, referenced; fields; rewrite gmultiset_elem_of_disj_union; by right).
  destruct (Evict_ok s0 p n1 Hok1 E1 Hp1) as (r & s1 & Ee & Hok2 & [(_ & -> & ->)|(? & _)]); [|done]. exists (with_open s0 (delete n.(digest_) s.(open_hash_))).
  assert (∃ s', match old with Some o => drop_ref (with_open s0 (delete n.(digest_) s.(open_hash_))) o | None => Returns (with_open s0 (delete n.(digest_) s.(open_hash_))) end = Returns s' ∧ cache_ok s' ∧ alike s s' ∧ s'.(recycling) = ∅ ∧
    s'.(open_hash_) = delete n.(digest_) s.(open_hash_) ∧ s'.(refs) = {[+ p +]} ⊎ match old with Some o => s.(refs) ∖ {[+ o +]} | None => s.(refs) end) as (s' & Ed & Hok' & Hal & Hr' & Ho' & Hrefs).
  { pose proof (referenced_alike s p n E) as Hal. fold s0 in Hal. assert (alike s (with_open s0 (delete n.(digest_) s.(open_hash_)))) as Hal0 by (etransitivity; [exact Hal|apply evicted_alike]).
    destruct old as [o|]; [|by eexists; split_and!]. destruct Hold as (no & Eo & Hmo & _ & _). assert (o ≠ p) as Hop by congruence.
    assert (s0.(refs) = {[+ p +]} ⊎ s.(refs)) as Hrefs by done.
    destruct (drop_ref_shared (with_open s0 (delete n.(digest_) s.(open_hash_))) o Hok2 Hr) as (s' & Ed & Hok' & Hal' & Hr' & Ho' & Hrefs').
    { fields. rewrite Hrefs, multiplicity_disj_union. lia. }
    exists s'. split_and!; try done; [by etransitivity; [exact Hal0|]|]. rewrite Hrefs'. fields. rewrite Hrefs. multiset_solver. }
  exists s'. split; [unfold evict_callback; by rewrite Ee|]. split_and!; try done. pose proof (al_heap _ _ Hal p) as Hh. rewrite E in Hh. destruct (s'.(heap) !! p) as [n'|] eqn:E'; [|done]. injection Hh as Hd _.
  exists n'. rewrite Ho', Hd. split_and!; [done| |by rewrite lookup_delete_eq|].
  - rewrite Hrefs, multiplicity_disj_union, multiplicity_singleton_eq. rewrite elem_of_multiplicity in Hp. destruct old as [o|]; [|lia]. rewrite multiplicity_difference, multiplicity_singleton_ne by congruence. lia.
  - intros k q [_ Hq]%lookup_delete_Some. by eapply Hge.
Qed.

Lemma evict_all fuel s old : cache_ok s → s.(recycling) = ∅ → passed s old → (size s.(open_hash_) < fuel)%nat → ∃ s', ForAllOpenNodes evict_callback fuel s old = Returns s' ∧ cache_ok s' ∧ alike s s' ∧
  s'.(recycling) = ∅ ∧ s'.(open_hash_) = ∅ ∧ s'.(refs) = match old with Some o => s.(refs) ∖ {[+ o +]} | None => s.(refs) end.
Proof.
  revert s old. induction fuel as [|fuel IH]; intros s old Hok Hr Hold Hf; [lia|]. cbn [ForAllOpenNodes]. destruct (next_least s old Hok Hr Hold) as [(He & ->)|(p & n & Ho & E & Hp & Hne & Hge & ->)]; cbn [mbind outcome_bind].
  - destruct old as [o|]; [|by exists s]. destruct Hold as (n & E & Hm & _). destruct (drop_ref_shared s o Hok Hr Hm) as (s' & -> & Hok' & Hal & Hr' & Ho' & Hrefs). exists s'. split_and!; try done. congruence.
  - destruct (evict_round s old p n Hok Hr Hold Ho E Hp Hne Hge) as (s1 & s2 & -> & Ed & Hok' & Hal & Hr' & Hp' & Ho' & Hrefs). cbn [mbind outcome_bind]. rewrite Ed. cbn [mbind outcome_bind].
    destruct (IH s2 (Some p) Hok' Hr' Hp') as (s' & Ef & Hok'' & Hal' & Hr'' & Ho'' & Hrefs').
    { rewrite Ho', map_size_delete_Some by eauto. pose proof (map_size_non_empty_iff s.(open_hash_)). assert (size s.(open_hash_) ≠ 0%nat); [|lia]. intros Hz%map_size_empty_iff. rewrite Hz in Ho. by rewrite lookup_empty in Ho. }
    exists s'. split_and!; try done; [by etransitivity|]. rewrite Hrefs', Hrefs. multiset_solver.
Qed.

(** A closed node is deleted, with the reference that the cache had. *)
Lemma unshelved_ok s k p n : cache_ok s → s.(closed_hash_) !! k = Some p → s.(heap) !! p = Some n → cache_ok (with_world (with_heap (with_closed s (delete k s.(closed_hash_))) (delete p s.(heap))) (NodeDestroy s.(world) n.(derived))).
Proof.
  intros Hok Hc E. destruct (ok_closed _ Hok k p Hc) as (Hp & n' & E' & Hk). simplify_eq. assert (p ∉ s.(recycling)) as Hr.
  { intros (n' & E' & Hz)%(ok_recycling _ Hok). simplify_eq. pose proof (ok_count _ Hok p n E) as Hn. unfold closed_count in Hn. rewrite decide_True in Hn by done. lia. }
  apply with_world_ok. split; fields; try apply Hok.
  - intros k q Ho. destruct (ok_open _ Hok k q Ho) as (m & Em & <-). exists m. rewrite lookup_delete_ne; [done|]. intros ->. simplify_eq. rewrite (ok_disjoint _ Hok _ _ Ho) in Hc. done.
  - intros k q [Hk Hq]%lookup_delete_Some. destruct (ok_closed _ Hok k q Hq) as (Hq' & m & Em & <-). split; [done|]. exists m. rewrite lookup_delete_ne; [done|]. intros ->. by simplify_eq.
  - intros k q Ho. rewrite lookup_delete_None. right. by eapply ok_disjoint.
  - intros q m [Hq Em]%lookup_delete_Some. rewrite (ok_count _ Hok q m Em). unfold closed_count. fields. destruct (decide (m.(digest_) = n.(digest_))) as [Hd|Hd]; [|by rewrite lookup_delete_ne by done].
    rewrite Hd, lookup_delete_eq, Hc. rewrite !decide_False by congruence. done.
  - intros q Hq. rewrite lookup_delete_ne by (by intros ->). by apply (ok_refs _ Hok).
  - intros q. rewrite (ok_recycling _ Hok). setoid_rewrite lookup_delete_Some. split; [|naive_solver]. intros (m & Em & Hz). exists m. split_and!; [|done..]. intros ->. destruct Hr. apply (ok_recycling _ Hok). eauto.
  - intros q [m [_ Em]%lookup_delete_Some]. by apply (ok_fresh _ Hok).
Qed.

Lemma delete_all fuel s : cache_ok s → (size s.(closed_hash_) < fuel)%nat → ∃ s', ResetLocked fuel s = Returns s' ∧ cache_ok s' ∧ s'.(closed_hash_) = ∅ ∧ s'.(open_hash_) = s.(open_hash_) ∧
  s'.(refs) = s.(refs) ∧ s'.(recycling) = s.(recycling) ∧ ∀ q n, s'.(heap) !! q = Some n ↔ s.(heap) !! q = Some n ∧ s.(closed_hash_) !! n.(digest_) ≠ Some q.
Proof.
  revert s. induction fuel as [|fuel IH]; intros s Hok Hf; [lia|]. cbn [ResetLocked]. destruct (front s.(closed_hash_)) as [[k p]|] eqn:Ef.
  - pose proof (front_lookup _ _ _ Ef) as Hc. destruct (ok_closed _ Hok k p Hc) as (Hp & n & E & Hk). unfold delete_node, deref. fields. rewrite E. cbn [mbind outcome_bind].
    pose proof (unshelved_ok s k p n Hok Hc E) as Hok1. match type of Hok1 with cache_ok ?x => destruct (IH x Hok1) as (s' & Er & Hok' & Hcl & Ho & Hr & Hrec & Hh) end.
    { fields. rewrite map_size_delete_Some by eauto. assert (size s.(closed_hash_) ≠ 0%nat); [|lia]. intros Hz%map_size_empty_iff. rewrite Hz in Hc. by rewrite lookup_empty in Hc. }
    exists s'. split; [exact Er|]. fields. split_and!; try done. intros q m. rewrite Hh, !lookup_delete_Some. split.
    + intros [[Hq Em] Hd]. split; [done|]. intros Hm. apply Hd. destruct (ok_closed _ Hok _ _ Hm) as (_ & m' & Em' & Hd'). split; [|done]. congruence.
    + intros [Em Hd]. split; [split; [|done]|by intros [_ ?]]. intros <-. simplify_eq.
  - exists s. pose proof (front_none _ Ef) as He. split_and!; try done. intros q n. rewrite He, lookup_empty. naive_solver.
Qed.

(** What [Reset] does while no thread is about to recycle a node. *)
Lemma cache_reset_ok s : cache_ok s → s.(recycling) = ∅ → ∃ s', Reset s = Returns s' ∧ cache_ok s' ∧ visible s' = ∅ ∧ s'.(refs) = s.(refs) ∧ s'.(recycling) = ∅ ∧
  ∀ q, (λ n, (n.(digest_), n.(derived))) <$> s'.(heap) !! q = if bool_decide (q ∈ s.(refs)) then (λ n, (n.(digest_), n.(derived))) <$> s.(heap) !! q else None.
Proof.
  intros Hok Hr. unfold Reset. change (λ s node, r ← Evict s node; Returns (snd r)) with evict_callback. destruct (evict_all (S (size s.(open_hash_))) s None Hok Hr I ltac:(lia)) as (s1 & -> & Hok1 & Hal & Hr1 & Ho1 & Hrefs1).
  cbn [mbind outcome_bind]. destruct (delete_all (S (size s1.(closed_hash_))) s1 Hok1 ltac:(lia)) as (s2 & E2 & Hok2 & Hc2 & Ho2 & Hrefs2 & Hr2 & Hh). exists s2. split_and!; try done; [|congruence..|].
  - unfold visible. rewrite Ho2, Ho1, Hc2. by rewrite map_union_empty.
  - intros q. rewrite <- (al_heap _ _ Hal q). destruct (s1.(heap) !! q) as [n|] eqn:E1.
    + rewrite <- Hrefs1. case_bool_decide as Hq.
      * destruct (count_held s1 q n Hok1 E1 Hq) as (Hc & _). by rewrite (proj2 (Hh q n) (conj E1 Hc)).
      * destruct (s2.(heap) !! q) as [n'|] eqn:E'; [|done]. apply Hh in E' as [E' Hc]. simplify_eq. assert (q ∈ s1.(recycling)) as Hin; [|rewrite Hr1 in Hin; set_solver].
        apply (ok_recycling _ Hok1). exists n. split; [done|]. rewrite (held_count s1 q n Hok1 E1 Hc). rewrite elem_of_multiplicity in Hq. lia.
    + destruct (s2.(heap) !! q) as [n'|] eqn:E'; [|by case_bool_decide]. apply Hh in E' as [E' _]. congruence.
Qed.

(** C15. Emptying the cache ends and is complete.  In every state that threads reach, while none of them is about to recycle
    a node: [Reset] returns; nothing can be found in the cache any more; the nodes that are left are exactly those
    to which there are references, with their contents, and the references are as before. *)
Theorem cache_reset_exact policy w s : rtc cache_step (NewCache policy w) s → s.(recycling) = ∅ → ∃ s', Reset s = Returns s' ∧ visible s' = ∅ ∧ s'.(refs) = s.(refs) ∧
  ∀ q, (λ n, (n.(digest_), n.(derived))) <$> s'.(heap) !! q = if bool_decide (q ∈ s.(refs)) then (λ n, (n.(digest_), n.(derived))) <$> s.(heap) !! q else None.
Proof. intros Hok%cache_run_ok Hr. destruct (cache_reset_ok s Hok Hr) as (s' & ? & _ & ? & ? & _ & ?). eauto. Qed.

End reset.

(** One node that is held, and one that was closed. *)
Definition example_two : System bool nat := after (OpRecycle 2) (after (OpRelease 2) (after (OpAdd 2) (after (OpNew [5] true) example_added))).

Lemma example_two_reached : rtc cache_step (NewCache EvictImmediately 0%nat) example_two ∧ example_two.(recycling) = ∅.
Proof.
  destruct example_added_reached as [Hr _]. split; [|by vm_compute]. etransitivity; [exact Hr|].
  eapply rtc_l; [apply (after_step _ (OpNew [5] true)); [done|by eexists; vm_compute]|].
  eapply rtc_l; [apply (after_step _ (OpAdd 2)); [split; [by apply (bool_decide_eq_true_1 _); vm_compute|intros n; vm_compute; by intros [= <-]]|by eexists; vm_compute]|].
  eapply rtc_l; [apply (after_step _ (OpRelease 2)); [cbn [enabled]; by apply (bool_decide_eq_true_1 _); vm_compute|by eexists; vm_compute]|].
  apply rtc_once, after_step; [cbn [enabled]; by apply (bool_decide_eq_true_1 _); vm_compute|by eexists; vm_compute].
Qed.

Lemma cache_reset_exact_witness : visible example_two !! [5] = Some 2 ∧ ∃ s', Reset example_two = Returns s' ∧ visible s' = ∅ ∧ s'.(heap) !! 2 = None ∧ is_Some (s'.(heap) !! 1).
Proof.
  split; [by vm_compute|]. destruct example_two_reached as [Hr He]. destruct (cache_reset_exact EvictImmediately 0%nat example_two Hr He) as (s' & E & Hv & _ & Hh). exists s'. split_and!; [done|done| |].
  - specialize (Hh 2). rewrite bool_decide_eq_false_2 in Hh by (apply (bool_decide_eq_false_1 _); by vm_compute). by destruct (s'.(heap) !! 2).
  - specialize (Hh 1). rewrite bool_decide_eq_true_2 in Hh by (apply (bool_decide_eq_true_1 _); by vm_compute). assert (is_Some (example_two.(heap) !! 1)) as [n En] by (by eexists; vm_compute). rewrite En in Hh. destruct (s'.(heap) !! 1); [eauto|done].
Defined.
