(* ===== verification/Vnodes.v ===== *)
(** * Vnodes: blobs in the cache, and the directory (ulib/blobfs/blob.cpp, directory.cpp)

    The nodes of the cache are blobs, and the world around them is the allocator and the file system.  The directory
    finds, creates and unlinks blobs by their names; a blob that is unlinked, or was not written to its end, is purged when its
    last descriptor is closed. *)

From stdpp Require Import gmap gmultiset.
From S2P Require Import Prelude Bitmap RawBitmap Digest Format Superblock MerkleTree Allocator Iterators Operations RingBuffer WriteTxn Blobfs Blob BlobCache.

(** [None] after the destructor of a blob failed an assertion. *)
Notation Store := (option (Allocator * Blobfs)).

Definition ZX_FS_FLAG_DIRECTORY : Z := 0x00080000.
Definition ZX_FS_RIGHT_WRITABLE : Z := 0x00000002.

(** ** Blobs as nodes *)

Section nodes.
Context {X : Type} `{BlobCompressor X}.

Definition Blob_ShouldCache (b : Blob X) : bool := GetState b =? kBlobStateReadable.

Definition blob_low_memory (w : Store) (b : Blob X) : Store * Blob X :=
  match w with
  | Some (a, bs) => match ActivateLowMemory bs b with Returns (bs, b) => (Some (a, bs), b) | _ => (None, b) end
  | None => (None, b)
  end.

Definition blob_destroy (w : Store) (b : Blob X) : Store :=
  match w with
  | Some (a, bs) => match destroy_blob true a bs b with Returns (a, bs) => Some (a, bs) | _ => None end
  | None => None
  end.

#[export] Instance blob_node : CacheNodeOps (Blob X) Store := {|
  ShouldCache := Blob_ShouldCache; NodeActivateLowMemory := blob_low_memory; NodeDestroy := blob_destroy |}.

Definition Vfs : Type := System (Blob X) Store.
Implicit Types (s : Vfs) (p : Z) (b : Blob X).

Definition SizeData b : Z := if GetState b =? kBlobStateReadable then field_get blob_size b.(inode_) else 0.

Definition ValidateFlags b (flags : Z) : zx_status :=
  if negb (Z.land flags ZX_FS_FLAG_DIRECTORY =? 0) then ZX_ERR_NOT_DIR
  else if negb (Z.land flags ZX_FS_RIGHT_WRITABLE =? 0) && negb (GetState b =? kBlobStateEmpty) then ZX_ERR_ACCESS_DENIED
  else ZX_OK.

Definition update_blob s p (f : Blob X → Blob X) : outcome Vfs :=
  n ← deref s p;
  Returns (put s p (with_derived n (f n.(derived)))).

(** ** Purging *)

(** The reference to [this] that is passed to [Evict] is destroyed after the call. *)
Definition Vnode_Purge s p : outcome (zx_status * Vfs) :=
  n ← deref s p;
  match s.(world) with
  | None => Aborts
  | Some (a, bs) =>
    r ← free_purged a bs n.(derived);
    let '(status, a, bs) := (r : zx_status * Allocator * Blobfs) in
    let s := with_world s (Some (a, bs)) in
    if failed status then Returns (status, s)
    else
      s ← AddRef s p;
      r ← Evict s p;
      _ ← ZX_ASSERT (bool_decide (fst r = ZX_OK));
      s ← drop_ref (snd r) p;
      s ← update_blob s p (λ b, SetState b kBlobStatePurged);
      Returns (ZX_OK, s)
  end.

Definition Vnode_TryPurge s p : outcome (zx_status * Vfs) :=
  n ← deref s p;
  if Purgeable n.(derived) then Vnode_Purge s p else Returns (ZX_OK, s).

Definition Vnode_QueueUnlink s p : outcome (zx_status * Vfs) :=
  s ← update_blob s p (λ b, with_flags b (Z.lor b.(flags_) kBlobFlagDeletable));
  Vnode_TryPurge s p.

Definition Vnode_Close s p : outcome (zx_status * Vfs) :=
  n ← deref s p;
  _ ← ZX_DEBUG_ASSERT (0 <? n.(derived).(fd_count_));
  s ← update_blob s p (λ b, with_users b (u32 (b.(fd_count_) - 1)) b.(cloned_));
  Vnode_TryPurge s p.

Definition Vnode_Open s p : outcome Vfs := update_blob s p Open.

(** ** Clones of the contents *)

Definition VMO_FLAG_WRITE : Z := 0x00000002.
Definition VMO_FLAG_EXACT : Z := 0x00020000.

(** The first clone keeps a reference to the blob. *)
Definition Vnode_GetVmo (hash : list Z → list Z) (k : Z) (disk : list block) s p (flags : Z) : outcome (zx_status * list Z * Vfs) :=
  if negb (Z.land flags VMO_FLAG_WRITE =? 0) || negb (Z.land flags VMO_FLAG_EXACT =? 0) then Returns (ZX_ERR_NOT_SUPPORTED, [], s)
  else
    n ← deref s p;
    match s.(world) with
    | None => Aborts
    | Some (a, bs) =>
      r ← CloneVmo hash true k disk a bs n.(derived);
      let '(status, bytes, bs, b) := (r : zx_status * list Z * Blobfs * Blob X) in
      s ← (if negb n.(derived).(cloned_) && b.(cloned_) then AddRef s p else Returns s);
      s ← update_blob (with_world s (Some (a, bs))) p (λ _, b);
      Returns (status, bytes, s)
    end.

(** When the last clone is gone the reference is dropped. *)
Definition Vnode_HandleNoClones s p : outcome Vfs :=
  n ← deref s p;
  b ← HandleNoClones n.(derived);
  s ← update_blob s p (λ _, b);
  drop_ref s p.

(** ** The directory *)

Inductive Vnode := TheDirectory | BlobVnode (p : Z).

Definition slash : Z := 47.
Definition dot : list Z := [46].

(** The digest of a name. *)
Definition parse_name (name : list Z) : outcome (zx_status * list Z) :=
  _ ← ZX_DEBUG_ASSERT (negb (existsb (Z.eqb slash) name));
  r ← Parse new_digest name;
  Returns (fst r, (snd r).(bytes_)).

Definition Directory_Lookup s (name : list Z) : outcome (Locked (zx_status * option Vnode) * Vfs) :=
  _ ← ZX_DEBUG_ASSERT (negb (existsb (Z.eqb slash) name));
  if bool_decide (name = dot) then Returns (Done (ZX_OK, Some TheDirectory), s)
  else
    r ← parse_name name;
    let '(status, digest) := r in
    if failed status then Returns (Done (status, None), s)
    else
      r ← Lookup s digest;
      match (r : Locked (zx_status * option Z) * Vfs) with
      | (Waits, s) => Returns (Waits, s)
      | (Done (status, out), s) => Returns (Done (status, BlobVnode <$> out), s)
      end.

(** The handler goes on when the cache does not make it wait; the node that it made is nobody else's until then. *)
Definition Directory_Create s (name : list Z) : outcome (Locked (zx_status * option Z) * Vfs) :=
  r ← parse_name name;
  let '(status, digest) := r in
  if failed status then Returns (Done (status, None), s)
  else
    let '(vn, s1) := NewNode s digest (NewBlob digest) in
    r ← AddLocked s1 vn;
    match (r : Locked (zx_status * option Z) * Vfs) with
    | (Waits, _) => Returns (Waits, with_waiting s (digest :: s.(release_cvar_)))
    | (Done (status, old), s) =>
      s ← match old with Some old => drop_ref s old | None => Returns s end;
      if failed status then s ← drop_ref s vn; Returns (Done (status, None), s)
      else s ← Vnode_Open s vn; Returns (Done (ZX_OK, Some vn), s)
    end.

Definition Directory_Unlink s (name : list Z) : outcome (Locked zx_status * Vfs) :=
  r ← parse_name name;
  let '(status, digest) := r in
  if failed status then Returns (Done status, s)
  else
    r ← Lookup s digest;
    match (r : Locked (zx_status * option Z) * Vfs) with
    | (Waits, s) => Returns (Waits, s)
    | (Done (ZX_OK, Some vnode), s) =>
      r ← Vnode_QueueUnlink s vnode;
      let '(status, s) := (r : zx_status * Vfs) in
      s ← drop_ref s vnode;
      Returns (Done status, s)
    | (Done (status, _), s) => Returns (Done status, s)
    end.

(** What [fs::Vfs] does to open a blob by its name: it is looked up, the flags are validated, and it is opened. *)
Definition Vfs_Open s (name : list Z) (flags : Z) : outcome (Locked (zx_status * option Vnode) * Vfs) :=
  r ← Directory_Lookup s name;
  match (r : Locked (zx_status * option Vnode) * Vfs) with
  | (Done (ZX_OK, Some (BlobVnode p)), s) =>
    n ← deref s p;
    let status := ValidateFlags n.(derived) flags in
    if failed status then s ← drop_ref s p; Returns (Done (status, None), s)
    else s ← Vnode_Open s p; Returns (Done (ZX_OK, Some (BlobVnode p)), s)
  | (l, s) => Returns (l, s)
  end.

End nodes.
Arguments Vfs : clear implicits.
