(* ===== verification/VnodeLife.v ===== *)
(** * The life of vnodes

    Clients open, create, unlink, use and close blobs, other threads drop references and recycle nodes.  The invariant ties
    the states of the blobs, their descriptors and their clones to the references and to the cache; from it no blob is purged
    while it is used, and purging finds the blob in the cache. *)

From stdpp Require Import gmap gmultiset.
From S2P Require Import Prelude Bitmap RawBitmap RleBitmap IdAllocator Digest Format Superblock Reservers MerkleTree MerkleCreate Allocator Iterators.
From S2P Require Import Operations RingBuffer WriteTxn Blobfs Blob BlobLife BlobExample BlobStates BlobCache CacheProtocol Vnodes.

(** ** What the calls on a blob leave alone *)

Section calls.
Context {X : Type} `{BlobCompressor X} (hash : list Z → list Z) (bst : Storage) (ist : Z → Storage) (k : Z).
Implicit Types b : Blob X.

(** Descriptors and clones; and a blob is purged only by purging it. *)
Definition stays b b' : Prop := b'.(fd_count_) = b.(fd_count_) ∧ b'.(cloned_) = b.(cloned_) ∧ (GetState b' = kBlobStatePurged ↔ GetState b = kBlobStatePurged).

#[export] Instance stays_preorder : PreOrder stays.
Proof. split; [done|]. intros b1 b2 b3 (? & ? & ?) (? & ? & ?). split_and!; [congruence..|]. by etransitivity. Qed.

Lemma set_stays b st : st ∈ states → st ≠ kBlobStatePurged → GetState b ≠ kBlobStatePurged → stays b (SetState b st).
Proof. intros Hs Hp Hb. split_and!; [done..|]. by rewrite (SetState_state b st (states_land st Hs)). Qed.

Lemma write_tree_stays a bs b wb it fuel st bs' b' wb' it' : write_tree hash true a bs b wb it fuel = Returns (st, bs', b', wb', it') → stays b b'.
Proof.
  assert (∀ size st b1, create_tree hash true b size = Returns (st, b1) → stays b b1) as Hc by (unfold create_tree; intros ? ? ? E; by ran E).
  unfold write_tree. intros E. ran E. all: try done. all: by eapply Hc.
Qed.

Lemma write_data_stays a bs b w wb it fuel st bs' b' wb' : write_data a bs b w wb it fuel = Returns (st, bs', b', wb') → stays b b'.
Proof. unfold write_data. intros E. by ran E. Qed.

Lemma signal_readable_stays bs b st bs' b' : signal_readable bs b = (st, bs', b') → GetState b ≠ kBlobStatePurged → stays b b'.
Proof. unfold signal_readable, call. intros E Hp. destruct b.(readable_event_); [|by injection E as <- <- <-]. destruct (failed _); injection E as <- <- <-; [|done]. by apply set_stays; [repeat constructor|..]. Qed.

Lemma WriteMetadata_stays a bs b st a' bs' b' : WriteMetadata true a bs b = Returns (st, a', bs', b') → stays b b'.
Proof.
  unfold WriteMetadata. intros E. apply bind_returns in E as (? & Hd & E). unfold ZX_DEBUG_ASSERT in Hd. destruct (GetState b =? kBlobStateDataWrite) eqn:Hst; [|done]. clear Hd. apply Z.eqb_eq in Hst.
  destruct (CreateWork bs) as [st0 [wb|]]; [|by destruct st0; ran E; done]. destruct st0; ran E; try done.
  all: set (bi := with_inode b _ _) in *; change (GetState b) with (GetState bi) in Hst; assert (stays b bi) as H1 by done.
  all: assert (stays bi (SetState bi kBlobStateReadable)) as H2 by (apply set_stays; [by repeat constructor|done|by rewrite Hst]).
  all: apply signal_readable_stays in M; [|by rewrite SetState_state]. all: etransitivity; [exact H1|]; etransitivity; [exact H2|]; etransitivity; [exact M|]; done.
Qed.

Lemma finish_write_stays a bs b w wb st a' bs' b' : finish_write hash true a bs b w wb = Returns (st, a', bs', b') → stays b b'.
Proof.
  unfold finish_write. intros E. apply bind_returns in E as ([st1 w1] & _ & E). destruct (failed st1); [by ran E|].
  apply bind_returns in E as ([[[[st2 bs2] b2] wb2] it2] & E2 & E). apply write_tree_stays in E2. etransitivity; [exact E2|].
  destruct (failed st2); [by ran E|]. destruct wb2 as [wb2|]; [|done]. apply bind_returns in E as ([[[st3 bs3] b3] wb3] & E3 & E). apply write_data_stays in E3. etransitivity; [exact E3|].
  destruct (failed st3); [by ran E|]. destruct wb3 as [wb3|]; [|done]. apply bind_returns in E as ([st4 bs4] & _ & E). destruct (failed st4); [by ran E|]. by eapply WriteMetadata_stays.
Qed.

Lemma vmo_write_stays bs b data off st bs' b' : vmo_write bs b data off = (st, bs', b') → stays b b'.
Proof.
  unfold vmo_write, call. destruct (failed _); [by intros [= _ _ <-]|]. destruct b.(mapping_) as [[h bytes]|]; [|by intros [= _ _ <-]]. destruct (_ <=? _); by intros [= _ _ <-].
Qed.

Lemma Append_stays a bs b data st n a' bs' b' : Append hash true a bs b data = Returns (st, n, a', bs', b') → stays b b'.
Proof.
  unfold Append. intros E. apply bind_returns in E as ([[[[st0 n0] a0] bs0] b0] & E0 & E). assert (stays b b0) as Hs; [|by ran E]. clear E. revert E0.
  unfold WriteInternal. intros E. destruct (_ =? 0); [by ran E|]. apply bind_returns in E as (m & _ & E). destruct (GetState b =? kBlobStateDataWrite) eqn:Hst; cbn [negb] in E; [|by ran E]. apply Z.eqb_eq in Hst.
  destruct b.(write_info_) as [w|]; [|done]. destruct (vmo_write _ _ _ _) as [[st1 bs1] b1] eqn:Ev. pose proof (vmo_write_stays _ _ _ _ _ _ _ Ev) as H1. pose proof (face_state _ _ (vmo_write_face _ _ _ _ _ _ _ Ev)) as Hs1.
  destruct (failed st1); [by ran E|]. etransitivity; [exact H1|]. apply bind_returns in E as ([st2 w2] & _ & E). set (b2 := with_write_info b1 _) in *. etransitivity; [apply (reflexivity (R := stays) b2 : stays b1 b2)|].
  destruct (failed st2); [by ran E|]. destruct (_ <? _); [by ran E|]. destruct (CreateWork bs1) as [st3 [wb|]]; [|by destruct st3; ran E]. destruct st3; [|by ran E..].
  apply bind_returns in E as ([[[st4 a4] bs4] b4] & E4 & E). apply finish_write_stays in E4. ran E. destruct (failed _); [|done]. etransitivity; [exact E4|]. apply set_stays; [by repeat constructor|done|].
  rewrite (proj2 (proj2 E4)). change (GetState b2) with (GetState b1). by rewrite Hs1, Hst.
Qed.

Lemma SpaceAllocate_stays a bs b size st a' bs' b' : SpaceAllocate hash true bst ist a bs b size = Returns (st, a', bs', b') → stays b b'.
Proof.
  unfold SpaceAllocate. intros E. destruct (GetState b =? kBlobStateEmpty) eqn:Hs; cbn [negb] in E; [|by ran E]. apply Z.eqb_eq in Hs. apply bind_returns in E as (n & _ & E).
  set (b1 := with_inode b _ n) in *. etransitivity; [apply (reflexivity (R := stays) b1 : stays b b1)|]. change (GetState b) with (GetState b1) in Hs. destruct (_ =? 0).
  - revert E. unfold null_blob. intros E. apply bind_returns in E as ([[[st1 a1] bs1] nodes] & _ & E). destruct (failed st1); [by ran E|].
    apply bind_returns in E as (node & _ & E). apply bind_returns in E as (i & _ & E). apply bind_returns in E as (a2 & _ & E). apply bind_returns in E as (st2 & _ & E). set (b2 := with_write_info _ _) in *.
    etransitivity; [apply (reflexivity (R := stays) b2 : stays b1 b2)|]. destruct (failed st2); [by ran E|]. apply WriteMetadata_stays in E. etransitivity; [|exact E]. apply set_stays; [by repeat constructor|done|].
    change (GetState b2) with (GetState b1). by rewrite Hs.
  - ran E. all: try done. set (bw := with_write_info _ _). etransitivity; [apply (reflexivity (R := stays) bw : stays b1 bw)|]. apply set_stays; [by repeat constructor|done|]. change (GetState bw) with (GetState b1). by rewrite Hs.
Qed.

Lemma InitVmos_stays disk a bs b st bs' b' : InitVmos hash true k disk a bs b = Returns (st, bs', b') → stays b b'.
Proof.
  unfold InitVmos. intros E. destruct b.(mapping_) as [hm|]; [by ran E|]. apply bind_returns in E as (m & _ & E). destruct (_ =? 0); [by ran E|].
  apply bind_returns in E as ([[st1 bs1] b1] & E1 & E). assert (stays b b1) as H1; [|ran E; by destruct (failed _)]. destruct (_ <? _); [by ran E1|]. apply load_verified in E1 as (? & ? & -> & _). done.
Qed.

Lemma ReadInternal_stays disk a bs b len off st bytes bs' b' : ReadInternal hash true k disk a bs b len off = Returns (st, bytes, bs', b') → stays b b'.
Proof. unfold ReadInternal. intros E. ran E; try done. all: by eapply InitVmos_stays. Qed.

Lemma CloneVmo_users disk a bs b st bytes bs' b' : CloneVmo hash true k disk a bs b = Returns (st, bytes, bs', b') →
  b'.(fd_count_) = b.(fd_count_) ∧ (b'.(cloned_) = b.(cloned_) ∨ b'.(cloned_) = true).
Proof.
  assert (∀ st1 bs1 b1, InitVmos hash true k disk a bs b = Returns (st1, bs1, b1) → b1.(fd_count_) = b.(fd_count_) ∧ b1.(cloned_) = b.(cloned_)) as Hi by (intros st1 bs1 b1 (? & ? & _)%InitVmos_stays; done).
  unfold CloneVmo. intros E. ran E; try (split; [done|by left]); try (destruct (Hi _ _ _ E0) as [? ?]; split; [done|]; by (left + right)).
Qed.

Lemma GetReadableEvent_stays bs b st bs' b' : GetReadableEvent bs b = (st, bs', b') → stays b b'.
Proof.
  unfold GetReadableEvent, call. intros E. destruct b.(readable_event_); [by destruct (failed _); injection E as <- <- <-|]. destruct (failed (answers bs (time bs))) eqn:Ef; [rewrite Ef in E; by injection E as <- <- <-|].
  destruct (GetState b =? kBlobStateReadable); rewrite failed_ok in E; by injection E as <- <- <-.
Qed.

End calls.

Section life.
Context {X : Type} `{BlobCompressor X}.
Implicit Types (s : Vfs X) (b : Blob X) (n : CacheNode (Blob X)).

Definition clones b : Z := if b.(cloned_) then 1 else 0.

(** Descriptors are counted in 32 bits. *)
Definition countable s : Prop := ∀ p n, s.(heap) !! p = Some n → n.(derived).(fd_count_) < 2 ^ 32 - 1.

(** ** The invariant *)

Record blob_ok s (p : Z) n : Prop := {
  bo_typed : typed n.(derived);
  bo_key : n.(derived).(key) = n.(digest_);
  bo_users : 0 ≤ n.(derived).(fd_count_) < 2 ^ 32 ∧ n.(derived).(fd_count_) + clones n.(derived) ≤ Z.of_nat (multiplicity p s.(refs));
  bo_purged : GetState n.(derived) = kBlobStatePurged → n.(derived).(fd_count_) = 0;
  bo_live : GetState n.(derived) = kBlobStatePurged ↔ visible s !! n.(digest_) ≠ Some p;
  bo_open : GetState n.(derived) = kBlobStateReadable ∨ GetState n.(derived) = kBlobStatePurged ∨ 0 < n.(derived).(fd_count_);
}.

(** [out] are nodes that are being made and not yet in the cache. *)
Record vfs_but (out : gset Z) s : Prop := {
  vo_cache : cache_ok s;
  vo_blobs p n : p ∉ out → s.(heap) !! p = Some n → blob_ok s p n;
}.

Definition vfs_ok s : Prop := vfs_but ∅ s.

Lemma new_vfs_ok policy w : vfs_ok (NewCache policy w).
Proof. split; [apply new_cache_ok|]. intros p n _. cbn. by rewrite lookup_empty. Qed.

(** What a state has to keep for a blob that is left alone. *)
Lemma blob_ok_frame s s' p n n' : blob_ok s p n → n'.(digest_) = n.(digest_) → n'.(derived) = n.(derived) → (visible s' !! n.(digest_) = Some p ↔ visible s !! n.(digest_) = Some p) →
  (multiplicity p s.(refs) ≤ multiplicity p s'.(refs))%nat → blob_ok s' p n'.
Proof. intros [? ? [? ?] ? Hl ?] Ed Ev Hv Hm. split; rewrite ?Ed, ?Ev; try done; [split; [done|lia]|]. rewrite Hl. by apply not_iff_compat. Qed.

Lemma clones_range b : 0 ≤ clones b ≤ 1.
Proof. unfold clones. destruct b.(cloned_); lia. Qed.

(** A state whose nodes are old ones, possibly with more references. *)
Lemma vfs_ok_frame out s s' : vfs_but out s → cache_ok s' → (∀ q n', q ∉ out → s'.(heap) !! q = Some n' → ∃ n, s.(heap) !! q = Some n ∧ n'.(digest_) = n.(digest_) ∧ n'.(derived) = n.(derived) ∧
    (visible s' !! n.(digest_) = Some q ↔ visible s !! n.(digest_) = Some q) ∧ (multiplicity q s.(refs) ≤ multiplicity q s'.(refs))%nat) → vfs_but out s'.
Proof. intros Hok Hc Hq. split; [done|]. intros q n' Ho E'. destruct (Hq q n' Ho E') as (n & E & Ed & Ev & Hv & Hm). eapply blob_ok_frame; [by apply (vo_blobs _ _ Hok)|done..]. Qed.

Lemma heap_count s p n c q n' : s.(heap) !! p = Some n → <[p := with_count n c]> s.(heap) !! q = Some n' → ∃ m, s.(heap) !! q = Some m ∧ n'.(digest_) = m.(digest_) ∧ n'.(derived) = m.(derived).
Proof. intros E. destruct (decide (q = p)) as [->|Hq]; [rewrite lookup_insert_eq; intros [= <-]; by exists n|rewrite lookup_insert_ne by done; intros Eq; by exists n']. Qed.

Lemma referenced_vfs_ok out s p n : vfs_but out s → s.(heap) !! p = Some n → cache_ok (referenced s p n) → vfs_but out (referenced s p n).
Proof.
  intros Hok E Hc. apply (vfs_ok_frame out s); [done..|]. unfold referenced. fields. intros q n' _ Eq. destruct (heap_count _ _ _ _ _ _ E Eq) as (m & Em & Ed & Ev). exists m. split_and!; try done. rewrite multiplicity_disj_union. lia.
Qed.

Lemma found_vfs_ok out s d l s' : vfs_but out s → found s d l s' → cache_ok s' → vfs_but out s'.
Proof.
  intros Hok Hf Hc. destruct Hf as [p Ho Hr|p n Ho E Hr|p Ho Hcl|Ho Hcl]; [|by apply referenced_vfs_ok| |done].
  - apply (vfs_ok_frame out s); [done..|]. fields. intros q n' _ Eq. by exists n'.
  - apply (vfs_ok_frame out s); [done..|]. intros q n' _ Eq. exists n'. rewrite visible_opened by done. unfold opened in *. fields. split_and!; try done. rewrite multiplicity_disj_union. lia.
Qed.

(** A reference that belongs to no descriptor and no clone is dropped. *)
Lemma released_vfs_ok out s p n : vfs_but out s → p ∉ out → s.(heap) !! p = Some n → n.(derived).(fd_count_) + clones n.(derived) < Z.of_nat (multiplicity p s.(refs)) → cache_ok (released s p n) → vfs_but out (released s p n).
Proof.
  intros Hok Hout E Hm Hc. split; [done|]. assert (heap (released s p n) = <[p := with_count n (n.(ref_count_) - 1)]> s.(heap) ∧ visible (released s p n) = visible s ∧ refs (released s p n) = s.(refs) ∖ {[+ p +]}) as (Eh & Ev & Er) by (unfold released; by destruct (_ =? 1)).
  intros q n' Hqo Eq. rewrite Eh in Eq. destruct (decide (q = p)) as [->|Hq].
  - rewrite lookup_insert_eq in Eq. injection Eq as <-. destruct (vo_blobs _ _ Hok p n Hout E) as [? ? [? ?] ? ? ?]. split; fields; try done; rewrite ?Ev; [|done]. split; [done|]. rewrite Er, multiplicity_difference, multiplicity_singleton_eq. lia.
  - rewrite lookup_insert_ne in Eq by done. eapply blob_ok_frame; [by apply (vo_blobs _ _ Hok q n')|done..|by rewrite Ev|]. rewrite Er, multiplicity_difference, multiplicity_singleton_ne by done. lia.
Qed.

(** A blob without references is either readable and in the open set, or purged and in no set. *)
Lemma recycled_states out s p n : vfs_but out s → p ∉ out → s.(heap) !! p = Some n → p ∈ s.(recycling) → n.(derived).(cloned_) = false ∧
  ((GetState n.(derived) = kBlobStateReadable ∧ s.(open_hash_) !! n.(digest_) = Some p) ∨ (GetState n.(derived) = kBlobStatePurged ∧ s.(open_hash_) !! n.(digest_) ≠ Some p)).
Proof.
  intros Hok Hout E Hr. pose proof (vo_cache _ _ Hok) as Hc. destruct (count_none s p n Hc E Hr) as (Hcl & _ & Hp). destruct (vo_blobs _ _ Hok p n Hout E) as [_ _ [Hf Hu] _ Hl Ho].
  assert (multiplicity p s.(refs) = 0%nat) as Hm by (rewrite elem_of_multiplicity in Hp; lia). pose proof (clones_range n.(derived)). rewrite Hm in Hu. pose proof (visible_held s p n Hc E Hcl) as Hv.
  split; [unfold clones in *; destruct (cloned_ _); [lia|done]|]. destruct Ho as [Ho|[Ho|?]]; [left|right|lia]; (split; [done|]).
  - apply Hv. destruct (decide (visible s !! n.(digest_) = Some p)) as [|Hn]; [done|]. apply Hl in Hn. by rewrite Ho in Hn.
  - rewrite <- Hv. by apply Hl.
Qed.

(** The object of a node is replaced by one that is as good. *)
Lemma put_vfs_ok out s p n b' : vfs_but out s → s.(heap) !! p = Some n → blob_ok s p (with_derived n b') → vfs_but out (put s p (with_derived n b')).
Proof.
  intros Hok E Hb. split; [by apply put_derived_ok; [apply (vo_cache _ _ Hok)|]|]. fields. intros q n' Hqo Eq. destruct (decide (q = p)) as [->|Hq].
  - rewrite lookup_insert_eq in Eq. injection Eq as <-. by eapply blob_ok_frame.
  - rewrite lookup_insert_ne in Eq by done. by eapply blob_ok_frame; [apply (vo_blobs _ _ Hok)|..].
Qed.

Lemma with_world_vfs_ok out s w : vfs_but out s → vfs_but out (with_world s w).
Proof. intros [Hc Hb]. split; [by apply with_world_ok|]. intros p n Ho E. by eapply blob_ok_frame; [apply (Hb p n Ho E)|..]. Qed.

(** A blob that differs in neither state, name nor users. *)
Lemma blob_ok_same s p n b' : blob_ok s p n → typed b' → b'.(key) = n.(derived).(key) → b'.(fd_count_) = n.(derived).(fd_count_) → clones b' ≤ clones n.(derived) → GetState b' = GetState n.(derived) → blob_ok s p (with_derived n b').
Proof. intros [? ? [? ?] ? ? ?] Ht Hk Hf Hc Hs. split; fields; rewrite ?Hk, ?Hf, ?Hs; try done. split; [done|lia]. Qed.

Lemma low_memory_same (w : Store) b w' b' : blob_low_memory w b = (w', b') → b' = b ∨ b' = with_mapping b None.
Proof.
  unfold blob_low_memory. destruct w as [[a bs]|]; [|intros [= _ <-]; by left]. destruct (ActivateLowMemory bs b) as [[bs1 b1]| |] eqn:E; [|intros [= _ <-]; by left..]. intros [= _ <-].
  unfold ActivateLowMemory in E. ran E. by right.
Qed.

Lemma shelved_vfs_ok out s p n : vfs_but out s → s.(heap) !! p = Some n → s.(open_hash_) !! n.(digest_) = Some p → cache_ok (shelved s p n) → vfs_but out (shelved s p n).
Proof.
  intros Hok E Ho Hc. apply (vfs_ok_frame out s); [done..|]. intros q n' _ Eq. unfold shelved in Eq. fields. destruct (heap_count _ _ _ _ _ _ E Eq) as (m & Em & Ed & Ev). exists m. rewrite visible_shelved by done. by split_and!.
Qed.

Lemma recycled_vfs_ok out s p n : vfs_but out s → p ∉ out → s.(heap) !! p = Some n → p ∈ s.(recycling) → vfs_but out (recycled s p n) ∧ visible (recycled s p n) = visible s.
Proof.
  intros Hok Hout E Hr. pose proof (vo_cache _ _ Hok) as Hc. pose proof (recycled_ok s p n Hc E Hr) as Hc'. destruct (recycled_states out s p n Hok Hout E Hr) as [Hcl [[Hst Ho]|[Hst Ho]]].
  - unfold recycled in *. rewrite bool_decide_eq_true_2 by done. cbn [ShouldCache blob_node]. unfold Blob_ShouldCache. rewrite Hst. cbn [Z.eqb Pos.eqb].
    pose proof (shelved_vfs_ok out s p n Hok E Ho (shelved_ok s p n Hc E Hr Ho)) as Hok'. assert ((shelved s p n).(heap) !! p = Some (with_count n 1)) as Es by (unfold shelved; fields; apply lookup_insert_eq).
    pose proof (vo_blobs _ _ Hok' p _ Hout Es) as Hb. destruct s.(cache_policy_); [|by split; [|apply visible_shelved]]. cbn [NodeActivateLowMemory blob_node].
    destruct (blob_low_memory _ _) as [w v] eqn:El. split; [|by rewrite <- (visible_shelved s p n Ho)]. apply with_world_vfs_ok, put_vfs_ok; [done..|].
    apply blob_ok_same; [done|..]; destruct (low_memory_same _ _ _ _ El) as [->| ->]; try done; [apply (bo_typed _ _ _ Hb)|]. destruct (bo_typed _ _ _ Hb). by split.
  - unfold recycled in *. rewrite bool_decide_eq_false_2 in * by done. split; [|done]. apply (vfs_ok_frame out s); [done..|]. unfold destroyed. fields. intros q n' _ [Hq Eq]%lookup_delete_Some. by exists n'.
Qed.

(** What is left alone when a reference to [p] goes. *)
Definition others_same s s' (p : Z) : Prop := ∀ q, q ≠ p → s'.(heap) !! q = s.(heap) !! q ∧ multiplicity q s'.(refs) = multiplicity q s.(refs).

Lemma released_others s p n : others_same s (released s p n) p.
Proof.
  intros q Hq. assert (heap (released s p n) = <[p := with_count n (n.(ref_count_) - 1)]> s.(heap) ∧ refs (released s p n) = s.(refs) ∖ {[+ p +]}) as (-> & ->) by (unfold released; by destruct (_ =? 1)).
  rewrite lookup_insert_ne, multiplicity_difference, multiplicity_singleton_ne by done. split; [done|lia].
Qed.

Lemma recycled_others s p n : others_same s (recycled s p n) p.
Proof.
  intros q Hq. unfold recycled. destruct (bool_decide _); [destruct (ShouldCache _)|]; [|unfold destroyed; fields; by rewrite lookup_delete_ne..].
  destruct s.(cache_policy_); [destruct (NodeActivateLowMemory _ _)|]; unfold shelved; fields; by rewrite !lookup_insert_ne.
Qed.

(** A reference goes out of scope. *)
Lemma drop_ref_vfs_ok out s p n : vfs_but out s → p ∉ out → s.(heap) !! p = Some n → n.(derived).(fd_count_) + clones n.(derived) < Z.of_nat (multiplicity p s.(refs)) →
  ∃ s', drop_ref s p = Returns s' ∧ vfs_but out s' ∧ visible s' = visible s ∧ others_same s s' p.
Proof.
  intros Hok Hout E Hm. destruct (vo_blobs _ _ Hok p n Hout E) as [_ _ [Hf _] _ _ _]. pose proof (clones_range n.(derived)).
  destruct (Release_ok s p (vo_cache _ _ Hok)) as (n1 & E1 & Er & Hc1); [rewrite elem_of_multiplicity; lia|]. simplify_eq. pose proof (released_vfs_ok out s p n Hok Hout E Hm Hc1) as Hok1.
  assert (visible (released s p n) = visible s) as Hv by (unfold released; by destruct (_ =? 1)). pose proof (released_others s p n) as Hoth.
  unfold drop_ref. rewrite Er. cbn [mbind outcome_bind]. case_bool_decide as Hin; [|by eexists]. destruct (fbl_recycle_ok _ p Hc1 Hin) as (n2 & E2 & _ & _ & -> & _).
  destruct (recycled_vfs_ok out _ p n2 Hok1 Hout E2 Hin) as [Hok2 Hv2]. eexists. split; [done|]. split; [done|]. split; [by rewrite Hv2|].
  intros q Hq. destruct (recycled_others (released s p n) p n2 q Hq) as [-> ->]. by apply Hoth.
Qed.

(** ** Purging *)

(** A reference that is not the last. *)
Lemma shared_drop s p n : cache_ok s → s.(heap) !! p = Some n → (2 ≤ multiplicity p s.(refs))%nat →
  let s' := with_refs (put s p (with_count n (n.(ref_count_) - 1))) (s.(refs) ∖ {[+ p +]}) in drop_ref s p = Returns s' ∧ cache_ok s'.
Proof.
  intros Hc E Hm. assert (p ∈ s.(refs)) as Hp by (rewrite elem_of_multiplicity; lia). destruct (Release_ok s p Hc Hp) as (n1 & E1 & Er & Hc1). simplify_eq. destruct (count_held s p n Hc E Hp) as (Hcl & _ & Hr).
  pose proof (held_count s p n Hc E Hcl) as Hcount. unfold released in Er, Hc1. replace (n.(ref_count_) =? 1) with false in * by (symmetry; apply Z.eqb_neq; lia).
  cbv zeta. split; [|done]. unfold drop_ref. rewrite Er. cbn [mbind outcome_bind]. by rewrite bool_decide_eq_false_2.
Qed.

(** [Evict] with a reference of its own that goes after the call. *)
Lemma evict_shared s p n : cache_ok s → s.(heap) !! p = Some n → p ∈ s.(refs) → s.(open_hash_) !! n.(digest_) = Some p →
  ∃ s1 s2 s3 c, AddRef s p = Returns s1 ∧ Evict s1 p = Returns (ZX_OK, s2) ∧ drop_ref s2 p = Returns s3 ∧ cache_ok s3 ∧
    visible s3 = delete n.(digest_) (visible s) ∧ s3.(refs) = s.(refs) ∧ s3.(world) = s.(world) ∧ s3.(heap) = <[p := with_count n c]> s.(heap).
Proof.
  intros Hc E Hp Ho. destruct (AddRef_ok s p Hc Hp) as (n1 & E1 & Ea & Hc1). simplify_eq. set (s1 := referenced s p n) in *.
  assert (s1.(heap) !! p = Some (with_count n (n.(ref_count_) + 1))) as E1' by (unfold s1, referenced; fields; apply lookup_insert_eq).
  destruct (Evict_ok s1 p _ Hc1 E1') as (r & s2 & Ee & Hc2 & [(_ & -> & Es2)|(Hne & _ & _)]); [unfold s1, referenced; fields; rewrite gmultiset_elem_of_disj_union; left; by apply gmultiset_elem_of_singleton| |done].
  assert (s2.(heap) !! p = Some (with_count n (n.(ref_count_) + 1))) as E2 by by rewrite Es2. assert (s2.(refs) = {[+ p +]} ⊎ s.(refs)) as Hr2 by by rewrite Es2.
  assert (visible s2 = delete n.(digest_) (visible s)) as Hv2 by (rewrite Es2; exact (visible_evicted s1 p _ Hc1 Ho)).
  destruct (shared_drop s2 p _ Hc2 E2) as [Ed Hc3]; [rewrite Hr2, multiplicity_disj_union, multiplicity_singleton_eq; rewrite elem_of_multiplicity in Hp; lia|].
  eexists s1, s2, _, _. split; [done|]. split; [done|]. split; [exact Ed|]. split; [done|]. split_and!; [exact Hv2| | |].
  - fields. rewrite Hr2. multiset_solver.
  - rewrite Es2. unfold s1, referenced. by fields.
  - rewrite Es2. unfold s1, referenced. fields. by rewrite insert_insert_eq.
Qed.

Lemma free_purged_failed a bs b st a' bs' : free_purged a bs b = Returns (st, a', bs') → failed st = true → GetState b = kBlobStateReadable.
Proof. unfold free_purged. intros E Hf. destruct (GetState b =? kBlobStateReadable) eqn:Hs; [by apply Z.eqb_eq|]. ran E. by rewrite failed_ok in Hf. Qed.

Lemma not_purgeable b : typed b → 0 ≤ b.(fd_count_) → Purgeable b = false → GetState b = kBlobStateReadable ∨ 0 < b.(fd_count_).
Proof.
  intros [Hs _ _] Hf. unfold Purgeable. destruct (Z.eqb_spec b.(fd_count_) 0); [|right; lia]. cbn [andb]. intros [_ Hr]%orb_false_iff. left. revert Hr. unfold states in Hs.
  repeat (apply elem_of_cons in Hs as [->|Hs]; [done|]). by apply list_elem_of_In in Hs.
Qed.

Lemma vfs_but_in s p n : vfs_but {[p]} s → s.(heap) !! p = Some n → blob_ok s p n → vfs_ok s.
Proof. intros [Hc Hb] E Hp. split; [done|]. intros q n' _ Eq. destruct (decide (q = p)) as [->|]; [by simplify_eq|]. apply Hb; set_solver. Qed.

Lemma vfs_but_out s p : vfs_ok s → vfs_but {[p]} s.
Proof. intros [Hc Hb]. split; [done|]. intros q n _ Eq. by apply Hb. Qed.

(** A blob that is all right but for being needed: it may have lost its last descriptor or its name. *)
Record leaving s (p : Z) n : Prop := {
  lv_but : vfs_but {[p]} s;
  lv_node : s.(heap) !! p = Some n;
  lv_held : p ∈ s.(refs);
  lv_typed : typed n.(derived);
  lv_key : n.(derived).(key) = n.(digest_);
  lv_users : 0 ≤ n.(derived).(fd_count_) < 2 ^ 32 ∧ n.(derived).(fd_count_) + clones n.(derived) ≤ Z.of_nat (multiplicity p s.(refs));
  lv_live : GetState n.(derived) ≠ kBlobStatePurged;
  lv_visible : visible s !! n.(digest_) = Some p;
}.

Lemma leaving_stays s p n : leaving s p n → GetState n.(derived) = kBlobStateReadable ∨ 0 < n.(derived).(fd_count_) → vfs_ok s.
Proof. intros [Hb E _ Ht Hk Hu Hl Hv] Ho. apply (vfs_but_in s p n Hb E). split; try done. destruct Ho; auto. Qed.

Lemma leaving_world s p n w : leaving s p n → leaving (with_world s w) p n.
Proof. intros [Hb E Hp Ht Hk Hu Hl Hv]. split; try done. by apply with_world_vfs_ok. Qed.

(** The storage of the blob is free; it is evicted, and its state is set. *)
Lemma purge_tail s p n : leaving s p n → n.(derived).(fd_count_) = 0 → ∃ s', (s ← AddRef s p; r ← Evict s p; _ ← ZX_ASSERT (bool_decide (fst r = ZX_OK)); s ← drop_ref (snd r) p;
    s ← update_blob s p (λ b, SetState b kBlobStatePurged); Returns (ZX_OK, s)) = Returns (ZX_OK, s') ∧ vfs_ok s' ∧ s'.(refs) = s.(refs) ∧ visible s' = delete n.(digest_) (visible s) ∧
  ∃ c, s'.(heap) = <[p := with_derived (with_count n c) (SetState n.(derived) kBlobStatePurged)]> s.(heap).
Proof.
  intros [Hb E Hp Ht Hk Hu Hl Hv] Hf. pose proof (vo_cache _ _ Hb) as Hc. destruct (count_held s p n Hc E Hp) as (Hcl & _ & _). pose proof (proj1 (visible_held s p n Hc E Hcl) Hv) as Ho.
  destruct (evict_shared s p n Hc E Hp Ho) as (s1 & s2 & s3 & c & -> & Ee & Ed & Hc3 & Hv3 & Hr3 & Hw3 & Hh3). cbn [mbind outcome_bind]. rewrite Ee. cbn [mbind outcome_bind fst snd].
  rewrite bool_decide_eq_true_2 by done. cbn [mbind outcome_bind ZX_ASSERT]. rewrite Ed. cbn [mbind outcome_bind]. unfold update_blob, deref. rewrite Hh3, lookup_insert_eq. cbn [mbind outcome_bind].
  set (b' := SetState _ _). assert (s3.(heap) !! p = Some (with_count n c)) as E3 by (rewrite Hh3; apply lookup_insert_eq).
  eexists. split; [done|]. split; [|split_and!; [done|done|exists c; fields; by rewrite Hh3, insert_insert_eq]].
  assert (GetState b' = kBlobStatePurged) as Hs by by apply SetState_state. assert (visible (put s3 p (with_derived (with_count n c) b')) = delete n.(digest_) (visible s)) as Hvis by done.
  split; [by apply put_derived_ok|]. intros q m _ Em. fields. rewrite Hh3, insert_insert_eq in Em. destruct (decide (q = p)) as [->|Hq].
  - rewrite lookup_insert_eq in Em. injection Em as <-. split; fields; try done; [|by rewrite Hr3| |by auto].
    + apply (set_goes n.(derived) kBlobStatePurged); [repeat constructor| |done|done]. unfold allowed. rewrite Z.eqb_refl, orb_true_r. done.
    + rewrite Hvis, lookup_delete_eq. by rewrite Hs.
  - rewrite lookup_insert_ne in Em by done. eapply blob_ok_frame; [by apply (vo_blobs _ _ Hb q m); [set_solver|]|done..| |by fields; rewrite Hr3].
    rewrite Hvis. destruct (decide (m.(digest_) = n.(digest_))) as [->|Hd]; [rewrite lookup_delete_eq, Hv; naive_solver|]. by rewrite lookup_delete_ne.
Qed.

(** Whether the storage part of a purge returns. *)
Definition frees (w : Store) b : Prop := ∃ a bs r, w = Some (a, bs) ∧ free_purged a bs b = Returns r.

Lemma TryPurge_ok s p n : leaving s p n → (Purgeable n.(derived) = true → frees s.(world) n.(derived)) →
  ∃ st s' n', Vnode_TryPurge s p = Returns (st, s') ∧ vfs_ok s' ∧ s'.(refs) = s.(refs) ∧ visible s' = (if Purgeable n.(derived) && negb (failed st) then delete n.(digest_) (visible s) else visible s) ∧
    s'.(heap) !! p = Some n' ∧ n'.(digest_) = n.(digest_) ∧ n'.(derived).(fd_count_) = n.(derived).(fd_count_) ∧ clones n'.(derived) = clones n.(derived).
Proof.
  intros Hl Hf. pose proof Hl as [Hb E Hp Ht Hk Hu _ Hv]. unfold Vnode_TryPurge, deref. rewrite E. cbn [mbind outcome_bind]. destruct (Purgeable n.(derived)) eqn:Hpg; cbn [andb].
  2: { eexists _, _, n. split; [done|]. split; [|done]. apply (leaving_stays s p n Hl). apply not_purgeable; [done|apply Hu|done]. }
  destruct (Hf eq_refl) as (a & bs & [[st a'] bs'] & Ew & Er). unfold Vnode_Purge, deref. rewrite E. cbn [mbind outcome_bind]. rewrite Ew, Er. cbn [mbind outcome_bind].
  pose proof (leaving_world s p n (Some (a', bs')) Hl) as Hl'. destruct (failed st) eqn:Hst; cbn [negb].
  - eexists _, _, n. split; [done|]. split; [|by rewrite Hst]. apply (leaving_stays _ p n Hl'). left. by eapply free_purged_failed.
  - destruct (purge_tail _ p n Hl') as (s' & Et & Hok & Hr & Hvis & c & Hh); [unfold Purgeable in Hpg; apply andb_true_iff in Hpg as [?%Z.eqb_eq _]; done|].
    eexists _, s', _. split; [exact Et|]. split; [done|]. rewrite Hr, Hvis, Hh, failed_ok. split; [done|]. split; [done|]. split; [apply lookup_insert_eq|done].
Qed.

(** A call that returned had a purge that returned. *)
Lemma TryPurge_frees s p n r : s.(heap) !! p = Some n → Vnode_TryPurge s p = Returns r → Purgeable n.(derived) = true → frees s.(world) n.(derived).
Proof.
  intros E Hr Hp. unfold Vnode_TryPurge, deref in Hr. rewrite E in Hr. cbn [mbind outcome_bind] in Hr. rewrite Hp in Hr. unfold Vnode_Purge, deref in Hr. rewrite E in Hr. cbn [mbind outcome_bind] in Hr.
  destruct s.(world) as [[a bs]|]; [|done]. apply bind_returns in Hr as (r' & Hr' & _). by exists a, bs, r'.
Qed.

(** The blob of a node that is held and not purged, changed in what keeps it. *)
Lemma leaving_put s p n b' : vfs_ok s → s.(heap) !! p = Some n → p ∈ s.(refs) → GetState n.(derived) ≠ kBlobStatePurged → typed b' → b'.(key) = n.(derived).(key) → GetState b' = GetState n.(derived) →
  0 ≤ b'.(fd_count_) < 2 ^ 32 → b'.(fd_count_) + clones b' ≤ Z.of_nat (multiplicity p s.(refs)) → leaving (put s p (with_derived n b')) p (with_derived n b').
Proof.
  intros Hok E Hp Hl Ht Hk Hs Hf Hu. destruct (vo_blobs _ _ Hok p n) as [_ Hk0 _ _ Hl0 _]; [set_solver|done|]. split; fields; try done.
  - split; [by apply put_derived_ok; [apply (vo_cache _ _ Hok)|]|]. fields. intros q m Hq Em. rewrite lookup_insert_ne in Em by set_solver. by eapply blob_ok_frame; [apply (vo_blobs _ _ Hok q m); [set_solver|]|..].
  - apply lookup_insert_eq.
  - by rewrite Hk.
  - by rewrite Hs.
  - change (visible s !! n.(digest_) = Some p). destruct (decide (visible s !! n.(digest_) = Some p)) as [|Hn]; [done|]. by rewrite <- Hl0 in Hn.
Qed.

Lemma typed_flags b f : typed b → Z.land f kBlobStateMask = GetState b → 0 ≤ f < 2 ^ 32 → typed (with_flags b f).
Proof. intros [Hs Hr Hw] Hf Hrange. split; unfold GetState in *; cbn [flags_ with_flags write_info_]; rewrite ?Hf; done. Qed.

Lemma queued_state b : GetState (with_flags b (Z.lor b.(flags_) kBlobFlagDeletable)) = GetState b.
Proof. unfold GetState. cbn [flags_ with_flags]. rewrite Z.land_lor_distr_l. replace (Z.land kBlobFlagDeletable kBlobStateMask) with 0 by done. apply Z.lor_0_r. Qed.

(** [fd_count_] goes down and the blob is purged if nobody needs it. *)
Lemma Close_ok s p n : vfs_ok s → s.(heap) !! p = Some n → 0 < n.(derived).(fd_count_) →
  let b := with_users n.(derived) (n.(derived).(fd_count_) - 1) n.(derived).(cloned_) in
  (Purgeable b = true → frees s.(world) b) →
  ∃ st s' n', Vnode_Close s p = Returns (st, s') ∧ vfs_ok s' ∧ s'.(refs) = s.(refs) ∧ visible s' = (if Purgeable b && negb (failed st) then delete n.(digest_) (visible s) else visible s) ∧
    s'.(heap) !! p = Some n' ∧ n'.(derived).(fd_count_) = n.(derived).(fd_count_) - 1 ∧ clones n'.(derived) = clones n.(derived).
Proof.
  intros Hok E Hfd b Hf. destruct (vo_blobs _ _ Hok p n) as [Ht Hk [? Hu] Hpu _ _]; [set_solver|done|]. pose proof (clones_range n.(derived)). unfold Vnode_Close, deref. rewrite E. cbn [mbind outcome_bind]. unfold ZX_DEBUG_ASSERT. ztest.
  cbn [mbind outcome_bind]. unfold update_blob at 1, deref. rewrite E. cbn [mbind outcome_bind]. unfold u32. rewrite Z.mod_small by lia. fold b.
  destruct (TryPurge_ok (put s p (with_derived n b)) p (with_derived n b)) as (st & s' & n' & -> & Hok' & Hr & Hv & E' & _ & Hfd' & Hcl); [|done|].
  - apply leaving_put; try done; [rewrite elem_of_multiplicity; lia|intros Hs; apply Hpu in Hs; lia|by destruct Ht|cbn [b fd_count_ with_users]; lia|]. unfold clones in *. cbn [b fd_count_ cloned_ with_users]. lia.
  - by exists st, s', n'.
Qed.

(** ** Handlers *)

(** A node that is found is held once more than its users need. *)
Lemma found_surplus out s d p s' : vfs_but out s → found s d (Done (ZX_OK, Some p)) s' → cache_ok s' → p ∉ out →
  visible s !! d = Some p ∧ ∃ n n', s.(heap) !! p = Some n ∧ s'.(heap) !! p = Some n' ∧ n'.(derived) = n.(derived) ∧ n'.(digest_) = d ∧ p ∈ s'.(refs) ∧
    GetState n'.(derived) ≠ kBlobStatePurged ∧ n'.(derived).(fd_count_) + clones n'.(derived) < Z.of_nat (multiplicity p s'.(refs)) ∧ others_same s s' p.
Proof.
  intros Hok Hf Hc Hout. pose proof (found_vfs_ok _ _ _ _ _ Hok Hf Hc) as Hok'. destruct (found_visible _ _ _ _ Hf) as [Hv _].
  assert (visible s !! d = Some p ∧ ∃ n n', s.(heap) !! p = Some n ∧ s'.(heap) !! p = Some n' ∧ n'.(derived) = n.(derived) ∧ n'.(digest_) = d ∧ s'.(refs) = {[+ p +]} ⊎ s.(refs) ∧ ∀ q, q ≠ p → s'.(heap) !! q = s.(heap) !! q)
    as (Hvis & n & n' & E & E' & Ed & Hd & Hr & Hoth).
  { inversion Hf as [|p' n Ho E Hr|p' Ho Hcl|]; simplify_eq.
    - split; [by apply visible_open|]. exists n, (with_count n (n.(ref_count_) + 1)). unfold referenced. fields. split_and!; try done; [apply lookup_insert_eq|symmetry; exact (open_key s d p n (vo_cache _ _ Hok) Ho E)|].
      intros q Hq. by rewrite lookup_insert_ne.
    - split; [by rewrite visible_closed|]. destruct (ok_closed _ (vo_cache _ _ Hok) _ _ Hcl) as (_ & n & E & Hd). by exists n, n. }
  destruct (vo_blobs _ _ Hok p n Hout E) as [_ _ [? Hu] _ _ _]. destruct (vo_blobs _ _ Hok' p n' Hout E') as [_ _ _ _ Hl' _].
  split; [done|]. exists n, n'. split_and!; try done; [rewrite Hr; multiset_solver|rewrite Hl', Hv, Hd; naive_solver| |].
  - rewrite Ed, Hr, multiplicity_disj_union, multiplicity_singleton_eq. lia.
  - intros q Hq. split; [by apply Hoth|]. by rewrite Hr, multiplicity_disj_union, multiplicity_singleton_ne.
Qed.

(** The answer of the cache to a name. *)
Lemma Lookup_vfs s d : vfs_ok s → ∃ l s', Lookup s d = Returns (l, s') ∧ vfs_ok s' ∧ visible s' = visible s ∧ s'.(world) = s.(world) ∧
  match l with
  | Waits => is_Some (visible s !! d)
  | Done (st, None) => st = ZX_ERR_NOT_FOUND ∧ visible s !! d = None
  | Done (st, Some p) => st = ZX_OK ∧ visible s !! d = Some p ∧ ∃ n n', s.(heap) !! p = Some n ∧ s'.(heap) !! p = Some n' ∧ n'.(derived) = n.(derived) ∧ n'.(digest_) = d ∧ p ∈ s'.(refs) ∧
      GetState n'.(derived) ≠ kBlobStatePurged ∧ n'.(derived).(fd_count_) + clones n'.(derived) < Z.of_nat (multiplicity p s'.(refs)) ∧ others_same s s' p
  end.
Proof.
  intros Hok. destruct (Lookup_ok s d (vo_cache _ _ Hok)) as (l & s' & Hl & Hc & Hf). pose proof (found_vfs_ok _ _ _ _ _ Hok Hf Hc) as Hok'. destruct (found_visible _ _ _ _ Hf) as [Hv Hw].
  exists l, s'. split; [done|]. split; [done|]. split; [done|]. split; [by destruct Hf|]. destruct Hw as [[-> Hw]| ->]; [done|].
  destruct (visible s !! d) as [p|] eqn:Hvis; [|done]. split; [done|]. split; [done|]. by apply (found_surplus ∅ s d p s').
Qed.

Lemma Open_ok s p n : vfs_ok s → s.(heap) !! p = Some n → GetState n.(derived) ≠ kBlobStatePurged → n.(derived).(fd_count_) < 2 ^ 32 - 1 →
  n.(derived).(fd_count_) + clones n.(derived) < Z.of_nat (multiplicity p s.(refs)) →
  ∃ s', Vnode_Open s p = Returns s' ∧ vfs_ok s' ∧ visible s' = visible s.
Proof.
  intros Hok E Hl Hlim Hm. destruct (vo_blobs _ _ Hok p n) as [Ht Hk [? Hu] _ Hv _]; [set_solver|done|]. unfold Vnode_Open, update_blob, deref. rewrite E. cbn [mbind outcome_bind].
  eexists. split; [done|]. split; [|done]. unfold Open, u32. rewrite Z.mod_small by lia. apply put_vfs_ok; [done..|]. split; fields; cbn [fd_count_ with_users key]; try done; [by destruct Ht| |].
  - unfold clones in *. cbn [cloned_ with_users]. lia.
  - right. right. lia.
Qed.

Definition queued b : Blob X := with_flags b (Z.lor b.(flags_) kBlobFlagDeletable).

Lemma queued_purgeable b : Purgeable (queued b) = (b.(fd_count_) =? 0).
Proof.
  unfold Purgeable, queued, DeletionQueued. cbn [flags_ with_flags fd_count_]. rewrite Z.land_lor_distr_l, Z.land_diag, Z.lor_comm. destruct (Z.eqb_spec (Z.lor kBlobFlagDeletable (Z.land b.(flags_) kBlobFlagDeletable)) 0) as [E|E].
  - apply Z.lor_eq_0_l in E. done.
  - by rewrite andb_true_r.
Qed.

Lemma queued_typed b : typed b → typed (queued b).
Proof. intros Ht. apply typed_flags; [done|apply queued_state|]. apply lor_range; [lia|by destruct Ht|done]. Qed.

(** The name goes now if the blob has no descriptors, with the last of them otherwise. *)
Lemma Unlink_ok s name d : vfs_ok s → parse_name name = Returns (ZX_OK, d) →
  (∀ p n, visible s !! d = Some p → s.(heap) !! p = Some n → n.(derived).(fd_count_) = 0 → frees s.(world) (queued n.(derived))) →
  ∃ l s', Directory_Unlink s name = Returns (l, s') ∧ vfs_ok s' ∧
  match l with
  | Waits => visible s' = visible s ∧ is_Some (visible s !! d)
  | Done st => match visible s !! d with
    | None => st = ZX_ERR_NOT_FOUND ∧ visible s' = visible s
    | Some p => ∃ n, s.(heap) !! p = Some n ∧ visible s' = (if (n.(derived).(fd_count_) =? 0) && negb (failed st) then delete d (visible s) else visible s)
    end
  end.
Proof.
  intros Hok Hn Hf. unfold Directory_Unlink. rewrite Hn. cbn [mbind outcome_bind]. rewrite failed_ok. destruct (Lookup_vfs s d Hok) as (l & s1 & -> & Hok1 & Hv1 & Hw1 & Hl). cbn [mbind outcome_bind].
  destruct l as [|[st [p|]]]; [by eexists _, _| |destruct Hl as [-> Hl]; eexists _, _; rewrite Hl; done].
  destruct Hl as (-> & Hvis & n & n1 & E & E1 & Ed & Hd & Hp & Hl & Hm & _). destruct (vo_blobs _ _ Hok1 p n1) as [Ht Hk [? _] _ _ _]; [set_solver|done|].
  unfold Vnode_QueueUnlink, update_blob at 1, deref. rewrite E1. cbn [mbind outcome_bind]. fold (queued n1.(derived)). set (b := queued n1.(derived)).
  destruct (TryPurge_ok (put s1 p (with_derived n1 b)) p (with_derived n1 b)) as (st & s2 & n2 & -> & Hok2 & Hr2 & Hv2 & E2 & _ & Hfd2 & Hcl2).
  - apply leaving_put; try done; [by apply queued_typed|apply queued_state|]. unfold clones, b, queued in *. cbn [cloned_ with_flags fd_count_]. lia.
  - fields. unfold b. rewrite queued_purgeable. intros Hz%Z.eqb_eq. fields. rewrite Hw1, Ed in *. by eapply Hf.
  - cbn [mbind outcome_bind]. destruct (drop_ref_vfs_ok ∅ s2 p n2 Hok2) as (s3 & -> & Hok3 & Hv3 & _); [set_solver|done|rewrite Hfd2, Hcl2, Hr2; exact Hm|]. cbn [mbind outcome_bind].
    eexists _, s3. split; [done|]. split; [done|]. rewrite Hvis. exists n. split; [done|]. rewrite Hv3, Hv2. fields. unfold b. by rewrite queued_purgeable, Ed, Hd, <- Hv1.
Qed.

Lemma visible_node s d p : cache_ok s → visible s !! d = Some p → ∃ n, s.(heap) !! p = Some n ∧ n.(digest_) = d.
Proof. intros Hc [Ho|[_ Hcl]]%lookup_union_Some_raw; [by apply (ok_open _ Hc)|by apply (ok_closed _ Hc)]. Qed.

Lemma visible_absent s p : cache_ok s → s.(heap) !! p = None → ∀ d, visible s !! d ≠ Some p.
Proof. intros Hc E d (n & En & _)%visible_node; [congruence|done]. Qed.

Lemma hidden s p : cache_ok s → (∀ d, visible s !! d ≠ Some p) → ∀ d, s.(open_hash_) !! d ≠ Some p ∧ s.(closed_hash_) !! d ≠ Some p.
Proof.
  intros Hc Hv d. split; [intros Ho; by apply (Hv d), visible_open|]. intros Hcl. apply (Hv d). rewrite visible_closed; [done|]. destruct (s.(open_hash_) !! d) eqn:Ho; [|done]. by rewrite (ok_disjoint _ Hc _ _ Ho) in Hcl.
Qed.

(** A blob that is being made. *)
Lemma new_node_vfs_ok s d : vfs_ok s → let '(vn, s1) := NewNode s d (NewBlob d) in
  vfs_but {[vn]} s1 ∧ s1.(heap) !! vn = Some {| digest_ := d; ref_count_ := 1; derived := NewBlob d |} ∧ multiplicity vn s1.(refs) = 1%nat ∧ visible s1 = visible s ∧ ∀ d', visible s1 !! d' ≠ Some vn.
Proof.
  intros Hok. pose proof (NewNode_ok s d (NewBlob d) (vo_cache _ _ Hok)) as Hc. destruct (fresh_address s (vo_cache _ _ Hok)) as (Hh & Hm & _). unfold NewNode in *. cbn [snd] in Hc.
  split_and!; try done; fields; [|apply lookup_insert_eq|rewrite multiplicity_disj_union, multiplicity_singleton_eq; lia|exact (visible_absent s _ (vo_cache _ _ Hok) Hh)].
  split; [done|]. fields. intros q n Hq Eq. rewrite lookup_insert_ne in Eq by set_solver.
  eapply blob_ok_frame; [apply (vo_blobs _ _ Hok q n); [set_solver|done]|done..|]. fields. rewrite multiplicity_disj_union. lia.
Qed.

(** The new blob is in the cache and opened. *)
Lemma added_vfs_ok s vn n d : vfs_but {[vn]} s → s.(heap) !! vn = Some n → n.(digest_) = d → n.(derived) = NewBlob d → (1 ≤ multiplicity vn s.(refs))%nat → visible s !! d = None →
  cache_ok (with_open s (<[d := vn]> s.(open_hash_))) →
  let s' := with_open s (<[d := vn]> s.(open_hash_)) in ∃ s'', Vnode_Open s' vn = Returns s'' ∧ vfs_ok s'' ∧ visible s'' = <[d := vn]> (visible s) ∧ s''.(heap) !! vn = Some (with_derived n (Open (NewBlob d))).
Proof.
  intros Hb E Hd Hnb Hm Hv Hc. cbv zeta. set (s' := with_open _ _) in *. assert (s'.(heap) !! vn = Some n) as E' by done. unfold Vnode_Open, update_blob, deref. rewrite E'. cbn [mbind outcome_bind]. rewrite Hnb.
  eexists. split; [done|]. assert (visible s' = <[d := vn]> (visible s)) as Hv' by (unfold visible, s'; fields; by rewrite insert_union_l). split; [|split; [done|fields; apply lookup_insert_eq]].
  split; [by apply put_derived_ok|]. fields. intros q m _ Em. destruct (decide (q = vn)) as [->|Hq].
  - rewrite lookup_insert_eq in Em. injection Em as <-. split; fields; try done; [destruct (new_blob_typed (X := X) d); by split| | |].
    + split; [done|]. change (1 + 0 ≤ Z.of_nat (multiplicity vn s.(refs))). lia.
    + change (visible (put _ _ _)) with (visible s'). rewrite Hv', Hd, lookup_insert_eq. naive_solver.
    + by right; right.
  - rewrite lookup_insert_ne in Em by done. eapply blob_ok_frame; [apply (vo_blobs _ _ Hb q m); [set_solver|done]|done..| |done]. change (visible (put _ _ _)) with (visible s'). rewrite Hv'.
    destruct (decide (m.(digest_) = d)) as [->|]; [rewrite lookup_insert_eq, Hv; naive_solver|by rewrite lookup_insert_ne].
Qed.

(** The new blob is not wanted. *)
Lemma discard_vfs_ok s vn n : vfs_but {[vn]} s → s.(heap) !! vn = Some n → multiplicity vn s.(refs) = 1%nat → (∀ d, visible s !! d ≠ Some vn) →
  ∃ s', drop_ref s vn = Returns s' ∧ vfs_ok s' ∧ visible s' = visible s.
Proof.
  intros Hb E Hm Hv. pose proof (vo_cache _ _ Hb) as Hc. assert (vn ∈ s.(refs)) as Hp by (rewrite elem_of_multiplicity; lia). destruct (hidden s vn Hc Hv n.(digest_)) as [Ho Hcl].
  destruct (Release_ok s vn Hc Hp) as (n1 & E1 & Er & Hc1). simplify_eq. pose proof (held_count s vn n Hc E Hcl) as Hcount. set (s1 := released s vn n) in *.
  assert (s1 = with_recycling (with_refs (put s vn (with_count n (n.(ref_count_) - 1))) (s.(refs) ∖ {[+ vn +]})) ({[vn]} ∪ s.(recycling))) as Es1 by (unfold s1, released; replace (n.(ref_count_) =? 1) with true; [done|symmetry; apply Z.eqb_eq; lia]).
  assert (vn ∈ s1.(recycling)) as Hin by (rewrite Es1; fields; set_solver). assert (visible s1 = visible s ∧ s1.(open_hash_) = s.(open_hash_)) as [Hv1 Ho1] by by rewrite Es1.
  destruct (fbl_recycle_ok s1 vn Hc1 Hin) as (n2 & E2 & _ & _ & Ef & Hc2). assert (n2.(digest_) = n.(digest_)) as Hd2 by (rewrite Es1 in E2; fields; rewrite lookup_insert_eq in E2; by injection E2 as <-).
  assert (recycled s1 vn n2 = destroyed s1 vn n2 s1.(open_hash_) s1.(release_cvar_)) as Hrec by (unfold recycled; rewrite bool_decide_eq_false_2; [done|by rewrite Hd2, Ho1]). rewrite Hrec in *.
  exists (destroyed s1 vn n2 s1.(open_hash_) s1.(release_cvar_)). split; [unfold drop_ref; rewrite Er; cbn [mbind outcome_bind]; by rewrite bool_decide_eq_true_2|].
  split; [|unfold destroyed, visible in *; by fields]. split; [done|]. unfold destroyed at 1. fields. intros q m _ [Hq Eq]%lookup_delete_Some. rewrite Es1 in Eq. fields. rewrite lookup_insert_ne in Eq by done.
  eapply blob_ok_frame; [apply (vo_blobs _ _ Hb q m); [set_solver|done]|done..|by change (visible (destroyed s1 vn n2 s1.(open_hash_) s1.(release_cvar_))) with (visible s1); rewrite Hv1|].
  change (multiplicity q s.(refs) ≤ multiplicity q s1.(refs))%nat. rewrite Es1. fields. rewrite multiplicity_difference, multiplicity_singleton_ne by done. lia.
Qed.

(** A name that exists is refused, one that does not is given to a new blob that is open. *)
Lemma create_blob_ok s name d : vfs_ok s → parse_name name = Returns (ZX_OK, d) →
  ∃ l s', Directory_Create s name = Returns (l, s') ∧ vfs_ok s' ∧
  match l with
  | Waits => visible s' = visible s ∧ is_Some (visible s !! d)
  | Done (st, None) => st = ZX_ERR_ALREADY_EXISTS ∧ visible s' = visible s ∧ is_Some (visible s !! d)
  | Done (st, Some vn) => st = ZX_OK ∧ visible s !! d = None ∧ visible s' = <[d := vn]> (visible s) ∧ ∃ n, s'.(heap) !! vn = Some n ∧ n.(derived) = Open (NewBlob d)
  end.
Proof.
  intros Hok Hn. unfold Directory_Create. rewrite Hn. cbn [mbind outcome_bind]. rewrite failed_ok. pose proof (new_node_vfs_ok s d Hok) as Hnew. destruct (NewNode s d (NewBlob d)) as [vn s1] eqn:Es1.
  destruct Hnew as (Hb & E & Hm & Hv & Hh). pose proof (vo_cache _ _ Hb) as Hc. set (nv := {| digest_ := d |}) in E. destruct (hidden s1 vn Hc Hh d) as [Hho Hhc].
  destruct (AddLocked_ok s1 vn nv Hc E) as (l & s2 & -> & Hc2 & Hl); [rewrite elem_of_multiplicity; lia|apply not_true_iff_false; rewrite InContainer_spec; naive_solver|]. cbn [mbind outcome_bind]. change nv.(digest_) with d in *.
  destruct Hl as [(Ho & Hcl & -> & ->)|[(q & -> & Hf)|[-> Hf]]].
  - assert (visible s1 !! d = None) as Hvd by by rewrite visible_closed. cbn [mbind outcome_bind]. rewrite failed_ok. destruct (added_vfs_ok s1 vn nv d Hb E) as (s3 & -> & Hok3 & Hv3 & E3); [done..|lia|done|done|]. cbn [mbind outcome_bind].
    eexists _, s3. split; [done|]. split; [done|]. rewrite <- Hv. split_and!; [done..|]. by eexists.
  - destruct (found_visible _ _ _ _ Hf) as [Hv2 [[? _]|Hw]]; [done|]. assert (visible s1 !! d = Some q) as Hq by (destruct (visible s1 !! d); congruence).
    assert (q ∉ ({[vn]} : gset Z)) as Hqn by (intros ->%elem_of_singleton; by apply (Hh d)). destruct (found_surplus _ _ _ _ _ Hb Hf Hc2 Hqn) as (_ & n & n' & _ & E' & _ & _ & _ & _ & Hlt & Hoth).
    pose proof (found_vfs_ok _ _ _ _ _ Hb Hf Hc2) as Hb2. destruct (drop_ref_vfs_ok _ s2 q n' Hb2 Hqn E' Hlt) as (s3 & -> & Hb3 & Hv3 & Hoth3). cbn [mbind outcome_bind]. replace (failed ZX_ERR_ALREADY_EXISTS) with true by done.
    assert (vn ≠ q) as Hne by set_solver. destruct (Hoth vn Hne) as [Eh1 Em1]. destruct (Hoth3 vn Hne) as [Eh2 Em2]. destruct (discard_vfs_ok s3 vn nv Hb3) as (s4 & -> & Hok4 & Hv4); [by rewrite Eh2, Eh1|by rewrite Em2, Em1|by rewrite Hv3, Hv2|].
    cbn [mbind outcome_bind]. eexists _, s4. split; [done|]. split; [done|]. split; [done|]. split; [by rewrite Hv4, Hv3, Hv2, Hv|]. rewrite <- Hv, Hq. by eexists.
  - assert (∃ q, s.(open_hash_) !! d = Some q ∧ q ∈ s.(recycling)) as (q & Ho & Hr) by (injection Es1 as <- <-; inversion Hf; by eexists). eexists _, _. split; [done|].
    split; [|split; [done|exists q; by apply visible_open]]. apply (vfs_ok_frame ∅ s); [done|by eapply waiting_ok; [apply (vo_cache _ _ Hok)|..]|]. fields. intros q' n' _ Eq. by exists n'.
Qed.

(** A name is opened: the blob that has it has one more descriptor, or its flags refuse. *)
Lemma Vfs_Open_ok s name d flags : vfs_ok s → countable s → existsb (Z.eqb slash) name = false → name ≠ dot → parse_name name = Returns (ZX_OK, d) →
  ∃ l s', Vfs_Open s name flags = Returns (l, s') ∧ vfs_ok s' ∧ visible s' = visible s ∧
  match visible s !! d with
  | None => l = Done (ZX_ERR_NOT_FOUND, None)
  | Some p => l = Waits ∨ ∃ n, s.(heap) !! p = Some n ∧ let st := ValidateFlags n.(derived) flags in l = Done (st, if failed st then None else Some (BlobVnode p))
  end.
Proof.
  intros Hok Hcount Hs Hd Hn. unfold Vfs_Open, Directory_Lookup. rewrite Hs, (bool_decide_eq_false_2 _ Hd), Hn. cbn [negb ZX_DEBUG_ASSERT mbind outcome_bind]. rewrite failed_ok.
  destruct (Lookup_vfs s d Hok) as (l & s1 & -> & Hok1 & Hv1 & Hw1 & Hl). cbn [mbind outcome_bind]. destruct l as [|[st [p|]]].
  - eexists _, _. split; [done|]. split; [done|]. split; [done|]. destruct Hl as [p ->]. by left.
  - destruct Hl as (-> & -> & n & n1 & E & E1 & Ed & _ & _ & Hl & Hm & _). cbn [fmap option_fmap option_map mbind outcome_bind]. unfold deref. rewrite E1. cbn [mbind outcome_bind].
    destruct (failed (ValidateFlags n1.(derived) flags)) eqn:Hf.
    + destruct (drop_ref_vfs_ok ∅ s1 p n1 Hok1) as (s2 & -> & Hok2 & Hv2 & _); [set_solver|done..|]. cbn [mbind outcome_bind]. eexists _, _. split; [done|]. split; [done|]. split; [by rewrite Hv2|]. right. exists n. split; [done|]. rewrite <- Ed. cbv zeta. by rewrite Hf.
    + destruct (Open_ok s1 p n1 Hok1 E1 Hl) as (s2 & -> & Hok2 & Hv2); [rewrite Ed; by apply (Hcount p n)|done|]. cbn [mbind outcome_bind]. eexists _, _. split; [done|]. split; [done|]. split; [by rewrite Hv2|].
      right. exists n. split; [done|]. rewrite <- Ed. cbv zeta. rewrite Hf. by rewrite (not_failed _ Hf).
  - destruct Hl as [-> ->]. by eexists _, _.
Qed.

Lemma parse_name_slash name r : parse_name name = Returns r → existsb (Z.eqb slash) name = false.
Proof. unfold parse_name. intros (u & E & _)%bind_returns. unfold ZX_DEBUG_ASSERT in E. by destruct (existsb _ _). Qed.

Lemma opening_ok s name flags r s' : vfs_ok s → countable s → Vfs_Open s name flags = Returns (r, s') → vfs_ok s'.
Proof.
  intros Hok Hc E. destruct (existsb (Z.eqb slash) name) eqn:Hs; [unfold Vfs_Open, Directory_Lookup in E; by rewrite Hs in E|]. destruct (decide (name = dot)) as [->|Hd]; [by injection E as _ <-|].
  destruct (parse_name name) as [[st d]| |] eqn:Hn; [|unfold Vfs_Open, Directory_Lookup in E; by rewrite Hs, (bool_decide_eq_false_2 _ Hd), Hn in E..].
  destruct (failed st) eqn:Hf.
  - unfold Vfs_Open, Directory_Lookup in E. rewrite Hs, (bool_decide_eq_false_2 _ Hd), Hn in E. cbn [negb ZX_DEBUG_ASSERT mbind outcome_bind] in E. rewrite Hf in E. cbn [mbind outcome_bind] in E. destruct st; by injection E as _ <-.
  - apply not_failed in Hf as ->. destruct (Vfs_Open_ok s name d flags Hok Hc Hs Hd Hn) as (l & s1 & E1 & Hok1 & _). congruence.
Qed.

End life.

(** ** Steps *)

Section steps.
Context {X : Type} `{BlobCompressor X} (hash : list Z → list Z) (bst : Storage) (ist : Z → Storage) (k : Z).
Implicit Types (s : Vfs X) (b : Blob X) (n : CacheNode (Blob X)).

(** The calls of a client on a blob that it has open, and of the journal when the blob is written. *)
Inductive vnode_call : Allocator * Blobfs * Blob X → Allocator * Blobfs * Blob X → Prop :=
| call_truncate a bs b size st a' bs' b' : SpaceAllocate hash true bst ist a bs b size = Returns (st, a', bs', b') → vnode_call (a, bs, b) (a', bs', b')
| call_append a bs b data st m a' bs' b' : Append hash true a bs b data = Returns (st, m, a', bs', b') → vnode_call (a, bs, b) (a', bs', b')
| call_read a bs b disk len off st bytes bs' b' : ReadInternal hash true k disk a bs b len off = Returns (st, bytes, bs', b') → vnode_call (a, bs, b) (a, bs', b')
| call_event a bs b st bs' b' : GetReadableEvent bs b = (st, bs', b') → vnode_call (a, bs, b) (a, bs', b')
| call_synced a bs b : vnode_call (a, bs, b) (a, bs, CompleteSync b).

(** References that are not those of descriptors and of clones may be copied and dropped by any thread: connections that only refer to
    the vnode have them, and works that write the blob. *)
Inductive vfs_step s s' : Prop :=
| vfs_open name flags r : countable s → Vfs_Open s name flags = Returns (r, s') → vfs_step s s'
| vfs_create name r : Directory_Create s name = Returns (r, s') → vfs_step s s'
| vfs_unlink name r : Directory_Unlink s name = Returns (r, s') → vfs_step s s'
| vfs_reopen p n s1 : countable s → s.(heap) !! p = Some n → 0 < n.(derived).(fd_count_) → AddRef s p = Returns s1 → Vnode_Open s1 p = Returns s' → vfs_step s s'
| vfs_close p n st : s.(heap) !! p = Some n → 0 < n.(derived).(fd_count_) → Vnode_Close s p = Returns (st, s') → vfs_step s s'
| vfs_call p n a bs a' bs' b' : p ∈ s.(refs) → s.(heap) !! p = Some n → s.(world) = Some (a, bs) → vnode_call (a, bs, n.(derived)) (a', bs', b') →
    s' = with_world (put s p (with_derived n b')) (Some (a', bs')) → vfs_step s s'
| vfs_clone p disk flags st bytes : p ∈ s.(refs) → Vnode_GetVmo hash k disk s p flags = Returns (st, bytes, s') → vfs_step s s'
| vfs_no_clones p : Vnode_HandleNoClones s p = Returns s' → vfs_step s s'
| vfs_copy p : p ∈ s.(refs) → AddRef s p = Returns s' → vfs_step s s'
| vfs_release p n : s.(heap) !! p = Some n → n.(derived).(fd_count_) + clones n.(derived) < Z.of_nat (multiplicity p s.(refs)) → Release s p = Returns s' → vfs_step s s'
| vfs_recycle p : p ∈ s.(recycling) → fbl_recycle s p = Returns s' → vfs_step s s'.

Lemma vnode_call_stays w w' : vnode_call w w' → stays w.2 w'.2 ∧ goes w.2 w'.2.
Proof.
  intros Hc. split.
  - destruct Hc; cbn [snd]; [by eapply SpaceAllocate_stays|by eapply Append_stays|by eapply ReadInternal_stays|by eapply GetReadableEvent_stays|done].
  - assert (blob_step hash bst ist k w w') as Hs by (destruct Hc; [by eapply step_allocate|by eapply step_append|by eapply step_read|by eapply step_event|by eapply step_synced]).
    destruct w as [[a bs] b], w' as [[a' bs'] b']. by apply (step_goes hash bst ist k a bs b a' bs' b').
Qed.

Lemma allowed_readable st : allowed kBlobStateReadable st = true → st = kBlobStateReadable ∨ st = kBlobStatePurged.
Proof. unfold allowed. destruct (Z.eqb_spec kBlobStateReadable st); [auto|]. destruct (Z.eqb_spec st kBlobStatePurged); [auto|done]. Qed.

Lemma call_vfs_ok s p n a bs a' bs' b' : vfs_ok s → s.(heap) !! p = Some n → vnode_call (a, bs, n.(derived)) (a', bs', b') → vfs_ok (put s p (with_derived n b')).
Proof.
  intros Hok E Hc. apply vnode_call_stays in Hc as [(Hf & Hcl & Hp) Hg]. cbn [snd] in *. apply put_vfs_ok; [done..|]. destruct (vo_blobs _ _ Hok p n) as [Ht Hk [? Hu] Hpu Hl Ho]; [set_solver|done|].
  destruct (Hg Ht) as (Hk' & Ht' & Ha). split; fields; unfold clones in *; rewrite ?Hk', ?Hf, ?Hcl; try done.
  - by rewrite Hp.
  - by rewrite Hp.
  - destruct Ho as [Ho|[Ho|Ho]]; [rewrite Ho in Ha; destruct (allowed_readable _ Ha); auto|right; left; by apply Hp|auto].
Qed.

Lemma update_world s p n w f : s.(heap) !! p = Some n → update_blob (with_world s w) p f = Returns (put (with_world s w) p (with_derived n (f n.(derived)))).
Proof. intros E. unfold update_blob, deref. change (with_world s w).(heap) with s.(heap). by rewrite E. Qed.

(** The first clone has a reference of its own. *)
Lemma clone_vfs_ok disk s p flags st bytes s' : vfs_ok s → p ∈ s.(refs) → Vnode_GetVmo hash k disk s p flags = Returns (st, bytes, s') → vfs_ok s' ∧ visible s' = visible s.
Proof.
  intros Hok Hp E. unfold Vnode_GetVmo in E. destruct (_ || _); [by injection E as _ _ <-|]. destruct (AddRef_ok s p (vo_cache _ _ Hok) Hp) as (n & En & Ea & Hc1).
  unfold deref in E. rewrite En in E. cbn [mbind outcome_bind] in E. destruct s.(world) as [[a bs]|]; [|done]. apply bind_returns in E as ([[[st1 bytes1] bs1] b1] & Ec & E).
  pose proof (CloneVmo_users _ _ _ _ _ _ _ _ _ _ Ec) as [Hf Hcl]. destruct (vo_blobs _ _ Hok p n) as [Ht _ [? Hu] _ _ _]; [set_solver|done|].
  destruct (face_goes _ _ (proj1 (CloneVmo_same _ _ _ _ _ _ _ _ _ _ Ec)) Ht) as (Hk & Ht1 & _). pose proof (face_state _ _ (proj1 (CloneVmo_same _ _ _ _ _ _ _ _ _ _ Ec))) as Hs.
  destruct (negb n.(derived).(cloned_) && b1.(cloned_)) eqn:Hnew.
  - apply andb_true_iff in Hnew as [Hn0%negb_true_iff Hn1]. rewrite Ea in E. cbn [mbind outcome_bind] in E. set (s1 := referenced s p n) in *.
    assert (s1.(heap) !! p = Some (with_count n (n.(ref_count_) + 1))) as E1 by (unfold s1, referenced; fields; apply lookup_insert_eq). rewrite (update_world _ _ _ _ _ E1) in E. cbn [mbind outcome_bind] in E.
    injection E as _ _ <-. split; [|done]. pose proof (referenced_vfs_ok ∅ s p n Hok En Hc1) as Hok1. apply put_vfs_ok; [by apply with_world_vfs_ok|done|].
    destruct (vo_blobs _ _ Hok1 p _ (not_elem_of_empty p) E1) as [_ Hk1 _ Hpu1 Hl1 Ho1]. fields. split; fields; rewrite ?Hk, ?Hf, ?Hs; try done. split; [done|]. unfold clones in *. rewrite Hn0 in Hu. rewrite Hn1.
    unfold s1, referenced. fields. rewrite multiplicity_disj_union, multiplicity_singleton_eq. lia.
  - cbn [mbind outcome_bind] in E. rewrite (update_world _ _ _ _ _ En) in E. cbn [mbind outcome_bind] in E. injection E as _ _ <-. split; [|done]. apply put_vfs_ok; [by apply with_world_vfs_ok|done|].
    apply blob_ok_same; try done; [apply (vo_blobs _ _ (with_world_vfs_ok ∅ s _ Hok)); [set_solver|done]|]. unfold clones. destruct Hcl as [->|Hcl]; [done|]. rewrite Hcl in *. by destruct (cloned_ _).
Qed.

Lemma no_clones_vfs_ok s p s' : vfs_ok s → Vnode_HandleNoClones s p = Returns s' → vfs_ok s' ∧ visible s' = visible s.
Proof.
  intros Hok E. unfold Vnode_HandleNoClones, deref in E. destruct (s.(heap) !! p) as [n|] eqn:En; [|done]. cbn [mbind outcome_bind] in E. apply bind_returns in E as (b & Hb & E).
  unfold HandleNoClones in Hb. apply bind_returns in Hb as (u & Hcl & Hb). injection Hb as <-. unfold ZX_DEBUG_ASSERT in Hcl. destruct n.(derived).(cloned_) eqn:Hc; [|done].
  unfold update_blob, deref in E. rewrite En in E. cbn [mbind outcome_bind] in E. set (b := with_users _ _ _) in *. pose proof (vo_blobs _ _ Hok p n (not_elem_of_empty p) En) as Hbo. pose proof (bo_typed _ _ _ Hbo) as Ht. pose proof (bo_users _ _ _ Hbo) as [? Hu].
  assert (vfs_ok (put s p (with_derived n b))) as Hok1 by (apply put_vfs_ok; [done..|]; apply blob_ok_same; try done; [by destruct Ht|unfold clones, b; rewrite Hc; done]).
  destruct (drop_ref_vfs_ok ∅ (put s p (with_derived n b)) p (with_derived n b) Hok1) as (s1 & E1 & Hok' & Hv & _); [set_solver|fields; apply lookup_insert_eq|unfold clones in *; rewrite Hc in Hu; fields; cbn [b fd_count_ cloned_ with_users]; lia|].
  rewrite E1 in E. injection E as <-. by split.
Qed.

Lemma parse_fails_ok s name st d : parse_name name = Returns (st, d) → failed st = true →
  Directory_Create s name = Returns (Done (st, None), s) ∧ Directory_Unlink s name = Returns (Done st, s).
Proof. intros Hn Hf. unfold Directory_Create, Directory_Unlink. rewrite Hn. cbn [mbind outcome_bind]. by rewrite Hf. Qed.

Lemma creating_ok s name r s' : vfs_ok s → Directory_Create s name = Returns (r, s') → vfs_ok s'.
Proof.
  intros Hok E. destruct (parse_name name) as [[st d]| |] eqn:Hn; [|unfold Directory_Create in E; by rewrite Hn in E..]. destruct (failed st) eqn:Hf.
  - destruct (parse_fails_ok s name st d Hn Hf) as [Ec _]. rewrite Ec in E. by injection E as _ <-.
  - apply not_failed in Hf as ->. destruct (create_blob_ok s name d Hok Hn) as (l & s1 & E1 & Hok1 & _). congruence.
Qed.

(** If a call of [Unlink] returned, so did the storage part of the purge. *)
Lemma Unlink_frees s name d r : vfs_ok s → parse_name name = Returns (ZX_OK, d) → Directory_Unlink s name = Returns r → r.1 ≠ Waits →
  ∀ p n, visible s !! d = Some p → s.(heap) !! p = Some n → n.(derived).(fd_count_) = 0 → frees s.(world) (queued n.(derived)).
Proof.
  intros Hok Hn E Hw p n Hvis En Hz. unfold Directory_Unlink in E. rewrite Hn in E. cbn [mbind outcome_bind] in E. rewrite failed_ok in E. destruct (Lookup_vfs s d Hok) as (l & s1 & El & Hok1 & Hv1 & Hw1 & Hl).
  rewrite El in E. cbn [mbind outcome_bind] in E. destruct l as [|[st [p1|]]]; [by injection E as <-| |by destruct Hl as [_ ?]; congruence]. destruct Hl as (-> & Hvis1 & n1 & n2 & E1 & E2 & Ed & _). simplify_eq.
  apply bind_returns in E as (r1 & E & _). unfold Vnode_QueueUnlink, update_blob, deref in E. rewrite E2 in E. cbn [mbind outcome_bind] in E. eapply TryPurge_frees in E; [|fields; apply lookup_insert_eq|].
  - fields. by rewrite Hw1, Ed in E.
  - fields. fold (queued n2.(derived)). by rewrite queued_purgeable, Ed, Hz.
Qed.

Lemma unlinking_ok s name r s' : vfs_ok s → Directory_Unlink s name = Returns (r, s') → vfs_ok s'.
Proof.
  intros Hok E. destruct (parse_name name) as [[st d]| |] eqn:Hn; [|unfold Directory_Unlink in E; by rewrite Hn in E..]. destruct (failed st) eqn:Hf.
  - destruct (parse_fails_ok s name st d Hn Hf) as [_ Ec]. rewrite Ec in E. by injection E as _ <-.
  - apply not_failed in Hf as ->. destruct r as [|st].
    + unfold Directory_Unlink in E. rewrite Hn in E. cbn [mbind outcome_bind] in E. rewrite failed_ok in E. destruct (Lookup_vfs s d Hok) as (l & s1 & El & Hok1 & _ & _ & Hl). rewrite El in E. cbn [mbind outcome_bind] in E.
      destruct l as [|[st [p|]]]; [by injection E as <-| |by destruct st]. destruct Hl as [-> _]. apply bind_returns in E as ([? ?] & _ & E). by apply bind_returns in E as (? & _ & E).
    + destruct (Unlink_ok s name d Hok Hn) as (l & s1 & E1 & Hok1 & _); [by eapply Unlink_frees|]. congruence.
Qed.

Lemma closing_ok s p n st s' : vfs_ok s → s.(heap) !! p = Some n → 0 < n.(derived).(fd_count_) → Vnode_Close s p = Returns (st, s') → vfs_ok s'.
Proof.
  intros Hok E Hfd Er. destruct (vo_blobs _ _ Hok p n (not_elem_of_empty p) E) as [_ _ [? _] _ _ _]. destruct (Close_ok s p n Hok E Hfd) as (st1 & s1 & n1 & E1 & Hok1 & _); [|congruence].
  intros Hp. unfold Vnode_Close, deref in Er. rewrite E in Er. cbn [mbind outcome_bind] in Er. apply bind_returns in Er as (_ & _ & Er). unfold update_blob at 1, deref in Er. rewrite E in Er. cbn [mbind outcome_bind] in Er.
  unfold u32 in Er. rewrite Z.mod_small in Er by lia. refine (TryPurge_frees _ p (with_derived n _) _ _ Er Hp). fields. apply lookup_insert_eq.
Qed.

Lemma step_vfs_ok s s' : vfs_ok s → vfs_step s s' → vfs_ok s'.
Proof.
  intros Hok [name flags r Hc E|name r E|name r E|p n s1 Hc En Hfd Ea Eo|p n st En Hfd E|p n a bs a' bs' b' Hp En Ew Hcall ->|p disk flags st bytes Hp E|p E|p Hp E|p n En Hm E|p Hr E].
  - by eapply opening_ok.
  - by eapply creating_ok.
  - by eapply unlinking_ok.
  - destruct (vo_blobs _ _ Hok p n (not_elem_of_empty p) En) as [_ _ [? Hu] Hpu _ _]. pose proof (clones_range n.(derived)). destruct (AddRef_ok s p (vo_cache _ _ Hok)) as (n1 & En1 & Ea1 & Hc1); [rewrite elem_of_multiplicity; lia|]. simplify_eq.
    rewrite Ea1 in Ea. injection Ea as <-. destruct (Open_ok (referenced s p n) p (with_count n (n.(ref_count_) + 1))) as (s2 & E2 & Hok2 & _); [by apply referenced_vfs_ok|unfold referenced; fields; apply lookup_insert_eq| |by apply (Hc p n)| |congruence].
    + intros Hs. apply Hpu in Hs. lia.
    + unfold referenced. fields. rewrite multiplicity_disj_union, multiplicity_singleton_eq. lia.
  - by eapply closing_ok.
  - apply with_world_vfs_ok. by eapply call_vfs_ok.
  - by eapply clone_vfs_ok.
  - by eapply no_clones_vfs_ok.
  - destruct (AddRef_ok s p (vo_cache _ _ Hok) Hp) as (n & En & Ea & Hc). rewrite Ea in E. injection E as <-. by apply referenced_vfs_ok.
  - destruct (Release_ok s p (vo_cache _ _ Hok)) as (n1 & En1 & Er & Hc); [rewrite elem_of_multiplicity; pose proof (clones_range n.(derived)); destruct (vo_blobs _ _ Hok p n (not_elem_of_empty p) En) as [_ _ [? _] _ _ _]; lia|].
    simplify_eq. rewrite Er in E. injection E as <-. by apply released_vfs_ok; [|set_solver|..].
  - destruct (fbl_recycle_ok s p (vo_cache _ _ Hok) Hr) as (n & En & _ & _ & Ef & _). rewrite Ef in E. injection E as <-. by eapply recycled_vfs_ok; [|set_solver|..].
Qed.

Lemma reached_vfs_ok policy w s : rtc vfs_step (NewCache policy w) s → vfs_ok s.
Proof. intros Hr. remember (NewCache policy w) as s0 eqn:E0. assert (vfs_ok s0) as Hok by (rewrite E0; apply new_vfs_ok). clear E0. induction Hr as [|s0 s1 s2 Hs _ IH]; [done|]. by apply IH, (step_vfs_ok s0). Qed.

End steps.

Section theorems.
Context {X : Type} `{BlobCompressor X} (hash : list Z → list Z) (bst : Storage) (ist : Z → Storage) (k : Z) (policy : CachePolicy) (w : Store).
Implicit Types s : Vfs X.

(** C7. Blobs live as long as they are used.  In every state that clients and other threads can reach, whatever the
    answers of the kernel and of the device: descriptors and clones of a blob are covered by references, so that a node that is
    being recycled has neither, as the assertion when its memory is given up demands; a blob with a descriptor is not purged and has its name; a blob is purged exactly if the name is no
    longer its own; and a blob without descriptors is readable or purged, so that one that was not written to its end does
    not outlive its descriptors. *)
Theorem vnode_lifetimes s p n : rtc (vfs_step hash bst ist k) (NewCache policy w) s → s.(heap) !! p = Some n →
  let b := n.(derived) in
  b.(key) = n.(digest_) ∧ 0 ≤ b.(fd_count_) ∧ b.(fd_count_) + (if b.(cloned_) then 1 else 0) ≤ Z.of_nat (multiplicity p s.(refs)) ∧
  (p ∈ s.(recycling) → b.(fd_count_) = 0 ∧ b.(cloned_) = false) ∧
  (0 < b.(fd_count_) → GetState b ≠ kBlobStatePurged ∧ visible s !! n.(digest_) = Some p) ∧
  (GetState b = kBlobStatePurged ↔ visible s !! n.(digest_) ≠ Some p) ∧
  (b.(fd_count_) = 0 → GetState b = kBlobStateReadable ∨ GetState b = kBlobStatePurged).
Proof.
  intros Hok%reached_vfs_ok E. destruct (vo_blobs _ _ Hok p n (not_elem_of_empty p) E) as [_ Hk [[? _] Hu] Hp Hl Ho]. cbv zeta. split_and!; try done.
  - intros Hr. destruct (count_none s p n (vo_cache _ _ Hok) E Hr) as (_ & _ & Hn). apply not_elem_of_multiplicity in Hn. pose proof (clones_range n.(derived)). unfold clones in *. destruct n.(derived).(cloned_); [lia|]. split; [lia|done].
  - intros Hfd. assert (GetState n.(derived) ≠ kBlobStatePurged) as Hne by (intros Hs; apply Hp in Hs; lia). split; [done|]. rewrite Hl in Hne. by destruct (decide (visible s !! n.(digest_) = Some p)).
  - intros Hz. destruct Ho as [|[|]]; auto. lia.
Qed.


(** C9. Closing is exact.  In every reachable state a blob with a descriptor can be closed: if it then has to be purged and
    its storage can be freed, it is found in the cache and evicted, so the assertion on the eviction holds; its name goes
    exactly if the descriptor was the last and the blob was unlinked or not written to its end, and the storage was freed.
    No reference is gained or lost. *)
Theorem close_exact s p n : rtc (vfs_step hash bst ist k) (NewCache policy w) s → s.(heap) !! p = Some n → 0 < n.(derived).(fd_count_) →
  let b := with_users n.(derived) (n.(derived).(fd_count_) - 1) n.(derived).(cloned_) in
  (Purgeable b = true → frees s.(world) b) →
  ∃ st s' n', Vnode_Close s p = Returns (st, s') ∧ s'.(refs) = s.(refs) ∧ s'.(heap) !! p = Some n' ∧ n'.(derived).(fd_count_) = n.(derived).(fd_count_) - 1 ∧
    visible s' = (if Purgeable b && negb (failed st) then delete n.(digest_) (visible s) else visible s).
Proof. intros Hok%reached_vfs_ok E Hfd b Hf. destruct (Close_ok s p n Hok E Hfd Hf) as (st & s' & n' & ? & _ & ? & ? & ? & ? & _). by exists st, s', n'. Qed.

End theorems.

(** ** An example: a blob is created *)

Definition example_name : list Z := replicate 64 48.

Definition example_created (w : Store) : Vfs (list Z) :=
  match Directory_Create (NewCache EvictImmediately w) example_name with Returns (_, s) => s | _ => NewCache EvictImmediately w end.

(** Whether a call waits. *)
Definition waits {A} (r : outcome (Locked A * Vfs (list Z))) : bool := match r with Returns (Waits, _) => true | _ => false end.

Lemma example_created_reached w : rtc (vfs_step xor_hash (IdAllocator.vmo 0) IdAllocator.vmo 16) (NewCache EvictImmediately w) (example_created w).
Proof. eapply rtc_once, (vfs_create _ _ _ _ _ _ example_name (Done (ZX_OK, Some 1))). by vm_compute. Qed.

Lemma vnode_lifetimes_witness : ∃ n, (example_created None).(heap) !! 1 = Some n ∧ n.(derived).(fd_count_) = 1 ∧ GetState n.(derived) ≠ kBlobStatePurged ∧ visible (example_created None) !! replicate 32 0 = Some 1.
Proof.
  eexists. split; [by vm_compute|]. split; [done|]. edestruct (vnode_lifetimes xor_hash (IdAllocator.vmo 0) IdAllocator.vmo 16 EvictImmediately None (example_created None) 1) as (_ & _ & _ & _ & Hl & _); [apply example_created_reached|by vm_compute|].
  apply Hl. done.
Defined.


(** It was not written, so closing it takes the name away. *)
Lemma close_exact_witness : ∃ a st s', Vnode_Close (example_created (Some (a, small_fs))) 1 = Returns (st, s') ∧ (failed st = false → visible s' !! replicate 32 0 = None).
Proof.
  destruct small_nodes_ok as (ids & _). exists (small_allocator ids). set (w := Some (small_allocator ids, small_fs)).
  edestruct (close_exact xor_hash (IdAllocator.vmo 0) IdAllocator.vmo 16 EvictImmediately w (example_created w) 1) as (st & s' & n' & E & _ & _ & _ & Hv); [apply example_created_reached|by vm_compute|done| |].
  - intros _. eexists _, _, _. split; [reflexivity|]. reflexivity.
  - exists st, s'. split; [exact E|]. intros Hf. rewrite Hv, Hf. cbn [negb]. apply lookup_delete_eq.
Defined.
