(* ===== verification/Mount.v ===== *)
(** * Mounting and listing (blobfs.cpp Reload, InitializeVnodes and Readdir, allocator.cpp ResetFromStorage, fs/vnode.cpp DirentFiller)

    The metadata is read from the device into the maps; for every inode that is allocated a readable blob is put into the cache,
    from which it goes to the closed set at once.  The directory is listed from the node map. *)

From stdpp Require Import gmap gmultiset.
From S2P Require Import Prelude Bitmap RawBitmap RleBitmap IdAllocator Digest Format Superblock Reservers MerkleTree Allocator Iterators.
From S2P Require Import Operations RingBuffer WriteTxn Blobfs Blob BlobCache Vnodes.

(** ** Contents of VMOs, as words *)

Definition bytes_words (bytes : list Z) : list Z := map (λ i, bytes_word (take 8 (drop (8 * i) bytes))) (seq 0 (length bytes / 8)).

Definition words_nodes (ws : list Z) : list Inode := map (λ i, take kNodeWords (drop (kNodeWords * i) ws)) (seq 0 (length ws / kNodeWords)).

Definition first_block (disk : list block) : list Z := match disk !! 0%nat with Some b => b | None => [] end.

(** ** Loading the maps *)

(** The ids of the VMOs of the two maps with the device, once they have them. *)
Definition Vmoids : Type := option Z * option Z.

Definition attach_once (id : option Z) (bs : Blobfs) : zx_status * option Z * Blobfs :=
  match id with Some id => (ZX_OK, Some id, bs) | None => AttachVmo bs end.

(** [k] blocks of the device make one of the file system. *)
Definition ResetFromStorage (k : Z) (disk : list block) (ids : Vmoids) (a : Allocator) (bs : Blobfs) : outcome (zx_status * Vmoids * Allocator * Blobfs) :=
  _ ← ZX_DEBUG_ASSERT (ReservedBlockCount a.(reserved_blocks_) =? 0);
  count ← ReservedNodeCount a.(reserved_nodes_);
  _ ← ZX_DEBUG_ASSERT (count =? 0);
  match attach_once (fst ids) bs with
  | (ZX_OK, Some block_map_vmoid, bs) =>
    match attach_once (snd ids) bs with
    | (ZX_OK, Some node_map_vmoid, bs) =>
      let info := bs.(info_) in
      rs ← EnqueueOperation [] block_map_vmoid 0 (BlockMapStartBlock info) (BlockMapBlocks info);
      rs ← EnqueueOperation rs node_map_vmoid 0 (NodeMapStartBlock info) (NodeMapBlocks info);
      r ← Transact k disk bs rs;
      let '(status, bs, read) := r in
      let m := a.(block_map_) in
      let a := with_block_map a {| size_ := m.(size_); data_ := bytes_words (read block_map_vmoid (words_bytes m.(data_))) |} in
      let a := with_node_map a (words_nodes (bytes_words (read node_map_vmoid (words_bytes (concat a.(node_map_)))))) in
      Returns (status, (Some block_map_vmoid, Some node_map_vmoid), a, bs)
    | (status, _, bs) => Returns (status, (Some block_map_vmoid, None), a, bs)
    end
  | (status, _, bs) => Returns (status, ids, a, bs)
  end.

Section mount.
Context {X : Type} `{BlobCompressor X}.
Implicit Types s : Vfs X.

(** ** Vnodes for the inodes *)

(** A round of the loop of [InitializeVnodes]. *)
Definition initialize_vnode s (node_index : Z) : outcome (zx_status * Vfs X) :=
  match s.(world) with
  | None => Aborts
  | Some (a, bs) =>
    inode ← GetNode a node_index;
    if negb (IsAllocated inode) then Returns (ZX_OK, s)
    else
      a ← MarkNodeAllocated a node_index;
      let s := with_world s (Some (a, bs)) in
      if IsExtentContainer inode then Returns (ZX_OK, s)
      else
        let digest := get_root inode in
        b ← PopulateInode a (SetState (NewBlob digest) kBlobStateReadable) node_index;
        let '(vnode, s) := NewNode s digest b in
        r ← Add s vnode;
        let '(status, s) := (r : zx_status * Vfs X) in
        s ← drop_ref s vnode;
        Returns (status, s)
  end.

(** The index is of 32 bits. *)
Fixpoint initialize_loop (fuel : nat) (inode_count : Z) s (node_index : Z) : outcome (zx_status * Vfs X) :=
  match fuel with
  | O => Diverges
  | S fuel =>
    if inode_count <=? node_index then Returns (ZX_OK, s)
    else
      r ← initialize_vnode s node_index;
      let '(status, s) := (r : zx_status * Vfs X) in
      if failed status then Returns (status, s) else initialize_loop fuel inode_count s (u32 (node_index + 1))
  end.

Definition InitializeVnodes s : outcome (zx_status * Vfs X) :=
  s ← Reset s;
  match s.(world) with
  | None => Aborts
  | Some (_, bs) => initialize_loop (S (Z.to_nat bs.(info_).(inode_count))) bs.(info_).(inode_count) s 0
  end.

(** ** Reload *)

(** [readblk] is a call of the kernel; the first block is the superblock.  A failure of [InitializeVnodes] is lost in a
    comparison, and 1 is returned, which is no status: it stands for itself as a result. *)
Inductive Reloaded := Status (status : zx_status) | One.

Definition Reload (bst : Storage) (ist : Z → Storage) (k : Z) (disk : list block) (ids : Vmoids) s : outcome (Reloaded * Vmoids * Vfs X) :=
  match s.(world) with
  | None => Aborts
  | Some (a, bs) =>
    let '(status, bs) := call bs in
    if failed status then Returns (Status status, ids, with_world s (Some (a, bs)))
    else
      let info := decode_superblock (bytes_words (first_block disk)) in
      let status := CheckSuperblock info (TotalBlocks info) in
      if failed status then Returns (Status status, ids, with_world s (Some (a, bs)))
      else
        let bs := with_info bs info in
        r ← ResetBlockMapSize (H := blobfs_space_manager bst) bst a bs;
        let '(status, a) := (r : zx_status * Allocator) in
        if failed status then Returns (Status status, ids, with_world s (Some (a, bs)))
        else
          let '(vmo_status, bs) := if kBlobfsInodeSize ⊠ info.(inode_count) =? kBlobfsInodeSize * Z.of_nat (length a.(node_map_)) then (ZX_OK, bs) else call bs in
          r ← ResetNodeMapSize (H := blobfs_space_manager bst) ist vmo_status a bs;
          let '(status, a) := (r : zx_status * Allocator) in
          if failed status then Returns (Status status, ids, with_world s (Some (a, bs)))
          else
            r ← ResetFromStorage k disk ids a bs;
            let '(status, ids, a, bs) := (r : zx_status * Vmoids * Allocator * Blobfs) in
            let s := with_world s (Some (a, bs)) in
            if failed status then Returns (Status status, ids, s)
            else
              r ← InitializeVnodes s;
              let '(status, s) := (r : zx_status * Vfs X) in
              Returns (if failed status then One else Status ZX_OK, ids, s)
  end.

End mount.

(** ** Listing *)

(** What was filled in, and the length of the buffer. *)
Record DirentFiller := {
  filled : list Z;
  len_ : Z;
}.

Definition NAME_MAX : Z := 255.
Definition kDirentSize : Z := 10.
Definition DTYPE_FILE : Z := 8.
Definition INO_UNKNOWN : Z := 2 ^ 64 - 1.

(** A packed [vdirent_t]. *)
Definition dirent (name : list Z) (type ino : Z) : list Z := le_bytes 8 ino ++ [u8 (Z.of_nat (length name)); type] ++ name.

Definition DirentFiller_Next (df : DirentFiller) (name : list Z) (type ino : Z) : zx_status * DirentFiller :=
  let sz := kDirentSize ⊞ Z.of_nat (length name) in
  if (df.(len_) ⊟ Z.of_nat (length df.(filled)) <? sz) || (NAME_MAX <? Z.of_nat (length name)) then (ZX_ERR_INVALID_ARGS, df)
  else (ZX_OK, {| filled := df.(filled) ++ dirent name type ino; len_ := df.(len_) |}).

(** The loop, from node [i]; the cookie is the index after the last entry that was filled in. *)
Fixpoint readdir_loop (fuel : nat) (a : Allocator) (inode_count i cookie : Z) (df : DirentFiller) : outcome (zx_status * Z * DirentFiller) :=
  match fuel with
  | O => Diverges
  | S fuel =>
    if inode_count <=? i then Returns (ZX_OK, cookie, df)
    else
      _ ← ZX_DEBUG_ASSERT (i <? UINT32_MAX);
      let node_index := u32 i in
      n ← GetNode a node_index;
      if IsAllocated n && negb (IsExtentContainer n) then
        let '(r, name) := ToString (digest_of (get_root n)) (replicate 65 0) in
        if failed r then Returns (r, cookie, df)
        else
          let '(r, df) := DirentFiller_Next df (take 64 name) DTYPE_FILE INO_UNKNOWN in
          if failed r then Returns (ZX_OK, cookie, df) else readdir_loop fuel a inode_count (i ⊞ 1) (i ⊞ 1) df
      else readdir_loop fuel a inode_count (i ⊞ 1) cookie df
  end.

(** The status, the bytes that were filled in, and the new cookie. *)
Definition Readdir (a : Allocator) (bs : Blobfs) (cookie len : Z) : outcome (zx_status * list Z * Z) :=
  r ← readdir_loop (S (Z.to_nat (bs.(info_).(inode_count) - cookie))) a bs.(info_).(inode_count) cookie cookie {| filled := []; len_ := len |};
  let '(status, cookie, df) := r in
  Returns (status, df.(filled), cookie).
