(* ===== verification/MountList.v ===== *)
(** * Listing the directory

    [Readdir] gives, from its cookie on, as many names of blobs as the buffer has room for; a client that calls it until it
    gives nothing gets the name of every blob once. *)

From S2P Require Import Prelude Bitmap RawBitmap RleBitmap IdAllocator Digest Format Superblock Reservers MerkleTree Allocator AllocatorNodes Iterators.
From S2P Require Import Operations RingBuffer WriteTxn Blobfs Blob BlobSync BlobRecord BlobExample BlobCache Vnodes Mount.

(** ** Names *)

Definition name_of (n : Inode) : list Z := concat (map hex_byte (get_root n)).

Lemma le_bytes_bytes n x : Forall is_byte (le_bytes n x).
Proof. revert x. induction n as [|n IH]; intros x; cbn [le_bytes]; constructor; [unfold is_byte; zlia|apply IH]. Qed.

Lemma get_root_bytes n : Forall is_byte (get_root n) ∧ length (get_root n) = 32%nat.
Proof. unfold get_root. split; [|done]. cbn [flat_map]. rewrite !Forall_app. split_and!; try done; apply le_bytes_bytes. Qed.

Lemma length_name n : length (name_of n) = 64%nat.
Proof. unfold name_of. rewrite length_hex. by destruct (get_root_bytes n) as [_ ->]. Qed.

Lemma name_no_slash bs : Forall is_byte bs → existsb (Z.eqb slash) (concat (map hex_byte bs)) = false.
Proof.
  assert (∀ x, 0 ≤ x < 16 → Z.eqb slash (hex_digit x) = false) as Hx by (intros x Hx; apply Z.eqb_neq; unfold slash, hex_digit; destruct (Z.ltb_spec x 10); lia).
  induction 1 as [|b bs Hb _ IH]; [done|]. cbn [map concat hex_byte app existsb]. unfold is_byte in Hb. by rewrite !Hx, IH by zlia.
Qed.

(** The name of a blob is parsed as its digest. *)
Lemma parse_name_of n : parse_name (name_of n) = Returns (ZX_OK, get_root n).
Proof.
  destruct (get_root_bytes n) as [Hb Hl]. pose proof (name_no_slash _ Hb : existsb (Z.eqb slash) (name_of n) = false) as Hs.
  pose proof (Parse_hex new_digest (get_root n) [] ltac:(split_and!; [done|by apply Forall_replicate|done]) Hb Hl) as E. rewrite app_nil_r in E. fold (name_of n) in E. unfold parse_name. by rewrite Hs, E.
Qed.

(** ** Entries *)

Definition entry (n : Inode) : list Z := dirent (name_of n) DTYPE_FILE INO_UNKNOWN.

Lemma length_entry n : length (entry n) = 74%nat.
Proof. unfold entry, dirent. rewrite !length_app, length_le_bytes, length_name. done. Qed.

(** The blobs of the nodes from [i] on, with their nodes. *)
Fixpoint blobs_from (nm : list Inode) (i : Z) : list (Z * Inode) :=
  match nm with
  | [] => []
  | n :: nm => if is_blob n then (i, n) :: blobs_from nm (i + 1) else blobs_from nm (i + 1)
  end.

(** The blobs from the cookie on. *)
Definition listed (nm : list Inode) (cookie : Z) : list (Z * Inode) := blobs_from (drop (Z.to_nat cookie) nm) cookie.

Definition entries (l : list (Z * Inode)) : list Z := flat_map (λ x, entry (snd x)) l.

(** The cookie after these were listed. *)
Definition cookie_after (cookie : Z) (l : list (Z * Inode)) : Z := foldl (λ _ x, fst x + 1) cookie l.

Lemma DirentFiller_Next_ok df n : Z.of_nat (length df.(filled)) ≤ df.(len_) < 2 ^ 64 →
  DirentFiller_Next df (name_of n) DTYPE_FILE INO_UNKNOWN = if df.(len_) - Z.of_nat (length df.(filled)) <? 74 then (ZX_ERR_INVALID_ARGS, df)
    else (ZX_OK, {| filled := df.(filled) ++ entry n; len_ := df.(len_) |}).
Proof.
  intros Hd. unfold DirentFiller_Next. rewrite length_name. change (kDirentSize ⊞ Z.of_nat 64) with 74. change (NAME_MAX <? Z.of_nat 64) with false. rewrite orb_false_r. by unwrap.
Qed.

Lemma ToString_name n : ToString (digest_of (get_root n)) (replicate 65 0) = (ZX_OK, name_of n ++ [0]).
Proof. done. Qed.

Lemma readdir_loop_ok fuel a i cookie df : let nm := a.(node_map_) in let count := Z.of_nat (length nm) in 0 ≤ i ≤ count → count ≤ UINT32_MAX → (Z.to_nat (count - i) < fuel)%nat → Z.of_nat (length df.(filled)) ≤ df.(len_) < 2 ^ 64 →
  let l := take (Z.to_nat ((df.(len_) - Z.of_nat (length df.(filled))) / 74)) (listed nm i) in
  readdir_loop fuel a count i cookie df = Returns (ZX_OK, cookie_after cookie l, {| filled := df.(filled) ++ entries l; len_ := df.(len_) |}).
Proof.
  intros nm count. revert i cookie df. induction fuel as [|fuel IH]; intros i cookie df Hi Hmax Hf Hd l; [lia|]. cbn [readdir_loop]. unfold UINT32_MAX in *.
  destruct (Z.leb_spec count i) as [Hge|Hlt].
  - unfold l, listed. rewrite drop_ge by (unfold count in *; lia). cbn [blobs_from]. rewrite take_nil. cbn. rewrite app_nil_r. by destruct df.
  - destruct (lookup_lt_is_Some_2 nm (Z.to_nat i) ltac:(unfold count in *; lia)) as [n En]. unfold ZX_DEBUG_ASSERT. ztest. cbn [mbind outcome_bind]. rewrite u32_small by lia. rewrite (GetNode_ok a i n) by (done || lia). cbn [mbind outcome_bind].
    assert (listed nm i = if is_blob n then (i, n) :: listed nm (i + 1) else listed nm (i + 1)) as Hl.
    { unfold listed. rewrite (drop_S _ n) by done. cbn [blobs_from]. by replace (S (Z.to_nat i)) with (Z.to_nat (i + 1)) by lia. }
    fold (is_blob n). unfold l. rewrite Hl. clear l Hl. assert (i ⊞ 1 = i + 1) as -> by (unwrap; done). destruct (is_blob n); [|apply IH; lia].
    rewrite ToString_name, failed_ok. rewrite take_app_le, take_ge by (rewrite length_name; lia). rewrite DirentFiller_Next_ok by done. set (left := df.(len_) - _) in *. destruct (Z.ltb_spec left 74) as [Hs|Hs].
    + rewrite Z.div_small by lia. cbn. rewrite app_nil_r. by destruct df.
    + rewrite failed_ok. rewrite IH; cbn [filled len_]; [|lia|lia|lia|rewrite length_app, length_entry; lia].
      rewrite length_app, length_entry. replace (df.(len_) - Z.of_nat (length df.(filled) + 74)) with (left - 74) by lia. replace (Z.to_nat (left / 74)) with (S (Z.to_nat ((left - 74) / 74))) by (clear -Hs; zlia).
      cbn [take cookie_after foldl entries flat_map fst snd]. by rewrite <- app_assoc.
Qed.

Lemma Readdir_ok a bs cookie len : let nm := a.(node_map_) in let count := Z.of_nat (length nm) in bs.(info_).(inode_count) = count → 0 ≤ cookie ≤ count → count ≤ UINT32_MAX → 0 ≤ len < 2 ^ 64 →
  let l := take (Z.to_nat (len / 74)) (listed nm cookie) in Readdir a bs cookie len = Returns (ZX_OK, entries l, cookie_after cookie l).
Proof.
  intros nm count Hc Hk Hmax Hlen l. unfold Readdir. unfold count, nm in *. rewrite Hc, readdir_loop_ok by (cbn [filled len_ length]; lia). cbn [filled len_ length Z.of_nat mbind outcome_bind]. by rewrite Z.sub_0_r.
Qed.

(** ** Going on from a cookie *)

Lemma blobs_from_cons nm c i n rest : blobs_from nm c = (i, n) :: rest → ∃ k : nat, i = c + Z.of_nat k ∧ nm !! k = Some n ∧ is_blob n = true ∧ rest = blobs_from (drop (S k) nm) (i + 1).
Proof.
  revert c. induction nm as [|m nm IH]; intros c E; [done|]. cbn [blobs_from] in E. destruct (is_blob m) eqn:Hm.
  - injection E as <- <- <-. exists 0%nat. by rewrite Z.add_0_r.
  - destruct (IH _ E) as (k & -> & Hn & Hb & ->). exists (S k). split_and!; [lia|done|done|done].
Qed.

Lemma listed_next nm c i n rest : 0 ≤ c → listed nm c = (i, n) :: rest → c ≤ i < Z.of_nat (length nm) ∧ nm !! Z.to_nat i = Some n ∧ is_blob n = true ∧ rest = listed nm (i + 1).
Proof.
  intros Hc (k & -> & Hn & Hb & ->)%blobs_from_cons. rewrite lookup_drop in Hn. pose proof (lookup_lt_Some _ _ _ Hn). unfold listed. rewrite drop_drop. split_and!; try done; [lia|lia|by replace (Z.to_nat (c + Z.of_nat k)) with (Z.to_nat c + k)%nat by lia|].
  by replace (Z.to_nat (c + Z.of_nat k + 1)) with (Z.to_nat c + S k)%nat by lia.
Qed.

Lemma listed_resume nm c k : 0 ≤ c ≤ Z.of_nat (length nm) → let c' := cookie_after c (take k (listed nm c)) in 0 ≤ c' ≤ Z.of_nat (length nm) ∧ listed nm c' = drop k (listed nm c).
Proof.
  revert c. induction k as [|k IH]; intros c Hc; [done|]. destruct (listed nm c) as [|[i n] rest] eqn:E; [done|]. destruct (listed_next nm c i n rest ltac:(lia) E) as (Hi & _ & _ & ->). cbn [take drop cookie_after foldl fst]. apply IH. lia.
Qed.

(** A client that lists the directory with a buffer of [len] bytes, until it gets nothing. *)
Fixpoint list_all (fuel : nat) (a : Allocator) (bs : Blobfs) (cookie len : Z) : outcome (list Z) :=
  match fuel with
  | O => Diverges
  | S fuel =>
    r ← Readdir a bs cookie len;
    let '(_, bytes, cookie) := r in
    if bool_decide (bytes = []) then Returns []
    else rest ← list_all fuel a bs cookie len; Returns (bytes ++ rest)
  end.

Lemma entries_nil l : entries l = [] → l = [].
Proof. destruct l as [|x l]; [done|]. intros E. apply (f_equal length) in E. unfold entries in E. cbn [flat_map] in E. rewrite length_app, length_entry in E. cbn in E. lia. Qed.

Lemma list_all_ok fuel a bs cookie len : let nm := a.(node_map_) in let count := Z.of_nat (length nm) in bs.(info_).(inode_count) = count → 0 ≤ cookie ≤ count → count ≤ UINT32_MAX → 74 ≤ len < 2 ^ 64 → (length (listed nm cookie) < fuel)%nat →
  list_all fuel a bs cookie len = Returns (entries (listed nm cookie)).
Proof.
  intros nm count Hc Hk Hmax Hlen. revert cookie Hk. induction fuel as [|fuel IH]; intros cookie Hk Hf; [lia|]. cbn [list_all]. rewrite Readdir_ok by (done || lia). cbn [mbind outcome_bind]. fold nm.
  set (room := Z.to_nat (len / 74)). assert (0 < room)%nat as Hr by (unfold room; clear -Hlen; zlia). destruct (listed_resume nm cookie room Hk) as [Hk' Hl]. case_bool_decide as He.
  - apply entries_nil in He. destruct (listed nm cookie); [done|]. destruct room; [lia|done].
  - rewrite IH; [|done|]; rewrite Hl.
    + cbn [mbind outcome_bind]. f_equal. unfold entries. rewrite <- flat_map_app. by rewrite take_drop.
    + rewrite length_drop. destruct (listed nm cookie); [by rewrite take_nil in He|]. cbn in *. lia.
Qed.

(** ** All the blobs *)

Lemma blobs_from_elem nm c i n : (i, n) ∈ blobs_from nm c ↔ ∃ k : nat, i = c + Z.of_nat k ∧ nm !! k = Some n ∧ is_blob n = true.
Proof.
  revert c. induction nm as [|m nm IH]; intros c; cbn [blobs_from].
  - split; [by intros ?%elem_of_nil|]. by intros (k & _ & ? & _).
  - assert ((∃ k : nat, i = c + Z.of_nat k ∧ (m :: nm) !! k = Some n ∧ is_blob n = true) ↔ (i = c ∧ m = n ∧ is_blob n = true) ∨ (i, n) ∈ blobs_from nm (c + 1)) as ->.
    + rewrite IH. split.
      * intros ([|k] & -> & En & Hn); [left; rewrite Z.add_0_r; injection En as ->; done|right]. exists k. split; [lia|done].
      * intros [(-> & -> & Hn)|(k & -> & En & Hn)]; [exists 0%nat; rewrite Z.add_0_r; done|]. exists (S k). split; [lia|done].
    + destruct (is_blob m) eqn:Hm; [rewrite elem_of_cons|]; (split; [|intros [(-> & -> & Hn)|?]; [congruence || by left|by auto]]); [intros [[= -> ->]|?]; auto|by right].
Qed.

Lemma blobs_from_NoDup nm c : NoDup (blobs_from nm c) ∧ (length (blobs_from nm c) ≤ length nm)%nat.
Proof.
  revert c. induction nm as [|m nm IH]; intros c; cbn [blobs_from]; [split; [constructor|done]|]. destruct (IH (c + 1)) as [Hd Hl]. destruct (is_blob m); cbn [length]; [|split; [done|lia]].
  split; [|lia]. constructor; [|done]. intros (k & ? & _)%blobs_from_elem. lia.
Qed.

(** C11. Listing.  [Readdir] returns ZX_OK with the entries of as many blobs, from the cookie on and in the order of their
    nodes, as the buffer has room for, and the cookie after the last of them.  A client that calls it with a buffer for at
    least one entry until it gets nothing is done after at most one call more than there are nodes, and has the entry of
    every blob exactly once: the inodes that are allocated and are not containers.  The name in each entry is parsed as
    the digest of the blob, so that the blob can be opened by it. *)
Theorem readdir_exact a bs cookie len : let nm := a.(node_map_) in let count := Z.of_nat (length nm) in
  bs.(info_).(inode_count) = count → count ≤ UINT32_MAX → 0 ≤ cookie ≤ count → 0 ≤ len < 2 ^ 64 →
  (let l := take (Z.to_nat (len / 74)) (listed nm cookie) in Readdir a bs cookie len = Returns (ZX_OK, entries l, cookie_after cookie l)) ∧
  (74 ≤ len → list_all (S (length nm)) a bs 0 len = Returns (entries (listed nm 0))) ∧
  NoDup (listed nm 0) ∧ (∀ i n, (i, n) ∈ listed nm 0 ↔ 0 ≤ i ∧ nm !! Z.to_nat i = Some n ∧ is_blob n = true) ∧
  ∀ n, parse_name (name_of n) = Returns (ZX_OK, get_root n).
Proof.
  intros nm count Hc Hmax Hk Hlen. destruct (blobs_from_NoDup nm 0) as [Hd Hl]. split_and!; [by apply Readdir_ok| |done| |].
  - intros H74. unfold count, nm in *. apply list_all_ok; [done|lia|done|lia|]. change (listed a.(node_map_) 0) with (blobs_from a.(node_map_) 0). lia.
  - intros i n. unfold listed. cbn [Z.to_nat drop]. rewrite blobs_from_elem. split.
    + intros (k & -> & En & Hn). rewrite Z.add_0_l, Nat2Z.id. split; [lia|done].
    + intros (Hi & En & Hn). exists (Z.to_nat i). split; [lia|done].
  - apply parse_name_of.
Qed.

(** Two blobs, in nodes 3 and 7. *)
Definition two_blobs (s : IdAllocator) : Allocator :=
  let blob d := field_set node_flags (set_root (replicate kNodeWords 0) (replicate 32 d)) kBlobFlagAllocated in
  with_node_map (small_allocator s) (<[7%nat := blob 171]> (<[3%nat := blob 5]> small_nodes)).

Lemma readdir_exact_witness : ∃ s, Readdir (two_blobs s) small_fs 0 100 = Returns (ZX_OK, dirent (concat (replicate 32 [48; 53])) 8 (2 ^ 64 - 1), 4) ∧
  list_all 129 (two_blobs s) small_fs 0 100 = Returns (dirent (concat (replicate 32 [48; 53])) 8 (2 ^ 64 - 1) ++ dirent (concat (replicate 32 [97; 98])) 8 (2 ^ 64 - 1)).
Proof.
  destruct small_nodes_ok as (s & _). exists s. destruct (readdir_exact (two_blobs s) small_fs 0 100) as (E & Hall & _); [done|by vm_compute|split; [lia|by vm_compute]|lia|].
  split; [etransitivity; [exact E|]; by vm_compute|]. etransitivity; [apply Hall; lia|]. by vm_compute.
Defined.
