(* ===== verification/MountExact.v ===== *)
(** * What mounting gives

    Initialising the vnodes gives a cache with a closed, readable blob for every inode that is allocated, under its digest, and
    marks every node that is allocated as used. *)

From stdpp Require Import gmap gmultiset.
From S2P Require Import Prelude Bitmap RawBitmap RleBitmap IdAllocator Digest Format Superblock Reservers MerkleTree MerkleCreate Allocator AllocatorNodes Iterators.
From S2P Require Import Operations RingBuffer WriteTxn Blobfs Blob BlobRecord BlobLife BlobStates BlobCache CacheProtocol CacheReset Vnodes VnodeLife Mount.

Section mount.
Context {X : Type} `{BlobCompressor X}.
Implicit Types s : Vfs X.

(** ** Caches at rest *)

(** A blob that nobody uses and that has nothing in memory. *)
Record resting (b : Blob X) : Prop := {
  rs_typed : typed b;
  rs_state : GetState b = kBlobStateReadable;
  rs_mapping : b.(mapping_) = None;
  rs_cloned : b.(cloned_) = false;
  rs_fd : b.(fd_count_) = 0;
  rs_write : b.(write_info_) = None;
}.

(** Nobody refers to a node, and the cache has all of them, closed. *)
Record idle s : Prop := {
  id_cache : cache_ok s;
  id_open : s.(open_hash_) = ∅;
  id_refs : s.(refs) = ∅;
  id_recycling : s.(recycling) = ∅;
  id_blobs p n : s.(heap) !! p = Some n → resting n.(derived) ∧ n.(derived).(key) = n.(digest_);
}.

Lemma new_idle policy w : idle (NewCache policy w).
Proof. split; try done. apply new_cache_ok. Qed.

Lemma idle_visible s : idle s → visible s = s.(closed_hash_).
Proof. intros Hi. unfold visible. by rewrite (id_open _ Hi), (left_id_L ∅ (∪)). Qed.

Lemma idle_closed s p n : idle s → s.(heap) !! p = Some n → s.(closed_hash_) !! n.(digest_) = Some p.
Proof.
  intros Hi E. destruct (decide (s.(closed_hash_) !! n.(digest_) = Some p)) as [|Hc]; [done|]. pose proof (held_count s p n (id_cache _ Hi) E Hc) as Hn. rewrite (id_refs _ Hi), multiplicity_empty in Hn.
  assert (p ∈ s.(recycling)) as Hr by (apply (ok_recycling _ (id_cache _ Hi)); by exists n). by rewrite (id_recycling _ Hi) in Hr.
Qed.

(** Such a cache is a state of the file system. *)
Lemma idle_vfs_ok s : idle s → vfs_ok s.
Proof.
  intros Hi. split; [apply Hi|]. intros p n _ E. destruct (id_blobs _ Hi p n E) as [Hr Hk]. pose proof (idle_closed s p n Hi E) as Hc. rewrite <- (idle_visible s Hi) in Hc.
  split; [apply Hr|done|rewrite (rs_fd _ Hr); unfold clones; rewrite (rs_cloned _ Hr); lia|by rewrite (rs_state _ Hr)|by rewrite (rs_state _ Hr), Hc|left; apply Hr].
Qed.

Lemma resting_low_memory (w : Store) b : resting b → blob_low_memory w b = (w, b).
Proof. intros Hr. destruct w as [[a bs]|]; [|done]. unfold blob_low_memory, ActivateLowMemory. rewrite (rs_cloned _ Hr), (rs_mapping _ Hr). cbn. f_equal. destruct Hr as [_ _ Hm _ _ _]. destruct b. cbn in Hm. by subst. Qed.

Lemma resting_destroy (w : Store) b : resting b → blob_destroy w b = w.
Proof. intros Hr. destruct w as [[a bs]|]; [|done]. unfold blob_destroy, destroy_blob, ActivateLowMemory. rewrite (rs_cloned _ Hr), (rs_mapping _ Hr), (rs_write _ Hr). done. Qed.

(** ** Emptying a cache at rest *)

Lemma idle_delete_all fuel s s' : (∀ p n, s.(heap) !! p = Some n → resting n.(derived)) → ResetLocked fuel s = Returns s' → s'.(world) = s.(world) ∧ s'.(cache_policy_) = s.(cache_policy_).
Proof.
  revert s. induction fuel as [|fuel IH]; intros s Hb E; [done|]. cbn [ResetLocked] in E. destruct (front s.(closed_hash_)) as [[d p]|]; [|by injection E as <-].
  apply bind_returns in E as (s1 & E1 & E). unfold delete_node, deref in E1. fields. destruct (s.(heap) !! p) as [n|] eqn:Ep; [|done]. cbn [mbind outcome_bind] in E1. injection E1 as <-.
  apply IH in E as [Ew Ec]; [|fields; intros q m [_ Em]%lookup_delete_Some; by eapply Hb]. fields. split; [|done]. rewrite Ew. exact (resting_destroy s.(world) n.(derived) (Hb p n Ep)).
Qed.

Lemma idle_reset s : idle s → ∃ s', Reset s = Returns s' ∧ idle s' ∧ visible s' = ∅ ∧ s'.(world) = s.(world) ∧ s'.(cache_policy_) = s.(cache_policy_).
Proof.
  intros Hi. destruct (cache_reset_ok s (id_cache _ Hi) (id_recycling _ Hi)) as (s' & E & Hc & Hv & Hrf & Hrc & Hh). exists s'. rewrite (id_refs _ Hi) in *.
  assert (s'.(heap) = ∅) as He. { apply map_eq. intros q. specialize (Hh q). rewrite bool_decide_eq_false_2 in Hh by set_solver. rewrite lookup_empty. by destruct (s'.(heap) !! q). }
  split; [done|]. split; [split; try done|].
  - apply map_eq. intros d. rewrite lookup_empty. destruct (s'.(open_hash_) !! d) as [p|] eqn:Ho; [|done]. pose proof (visible_open _ _ _ Ho) as Hx. by rewrite Hv, lookup_empty in Hx.
  - intros p n. by rewrite He, lookup_empty.
  - split; [done|]. unfold Reset in E. apply bind_returns in E as (s1 & E1 & E2). cbn [ForAllOpenNodes] in E1. unfold NextOpenNode in E1. rewrite (id_open _ Hi) in E1.
    change (front ∅) with (@None (list Z * Z)) in E1. cbn [mbind outcome_bind] in E1. injection E1 as <-. eapply idle_delete_all; [|exact E2]. intros p n Ep. by apply (id_blobs _ Hi p n Ep).
Qed.

(** ** Adding a blob *)

(** The last reference to a node is dropped. *)
Lemma last_released s p n : cache_ok s → s.(heap) !! p = Some n → multiplicity p s.(refs) = 1%nat →
  ∃ s1, Release s p = Returns s1 ∧ cache_ok s1 ∧ p ∈ s1.(recycling) ∧ drop_ref s p = fbl_recycle s1 p ∧
    s1 = with_recycling (with_refs (put s p (with_count n 0)) (s.(refs) ∖ {[+ p +]})) ({[p]} ∪ s.(recycling)).
Proof.
  intros Hc E Hm. assert (p ∈ s.(refs)) as Hp by (rewrite elem_of_multiplicity; lia). destruct (count_held s p n Hc E Hp) as (Hcl & _ & _). pose proof (held_count s p n Hc E Hcl) as Hcount.
  destruct (Release_ok s p Hc Hp) as (n1 & E1 & Er & Hc1). simplify_eq. unfold released in *. replace (n.(ref_count_) =? 1) with true in * by (symmetry; apply Z.eqb_eq; lia). replace (n.(ref_count_) - 1) with 0 in * by lia.
  eexists. split; [exact Er|]. split; [done|]. split; [fields; set_solver|]. split; [|done]. unfold drop_ref. rewrite Er. cbn [mbind outcome_bind]. rewrite bool_decide_eq_true_2 by (fields; set_solver). done.
Qed.

Lemma close_last s p n : cache_ok s → s.(heap) !! p = Some n → multiplicity p s.(refs) = 1%nat → s.(open_hash_) !! n.(digest_) = Some p → resting n.(derived) →
  ∃ s', drop_ref s p = Returns s' ∧ cache_ok s' ∧ s'.(open_hash_) = delete n.(digest_) s.(open_hash_) ∧ s'.(closed_hash_) = <[n.(digest_) := p]> s.(closed_hash_) ∧
    s'.(refs) = s.(refs) ∖ {[+ p +]} ∧ s'.(recycling) = s.(recycling) ∧ s'.(world) = s.(world) ∧ s'.(heap) = <[p := with_count n 1]> s.(heap).
Proof.
  intros Hc E Hm Ho Hrest. destruct (count_held s p n Hc E) as (_ & _ & Hr); [rewrite elem_of_multiplicity; lia|]. destruct (last_released s p n Hc E Hm) as (s1 & _ & Hc1 & Hin & -> & Es1).
  destruct (fbl_recycle_ok s1 p Hc1 Hin) as (n1 & E1 & _ & _ & -> & Hc2). assert (n1 = with_count n 0) as -> by (rewrite Es1 in E1; fields; rewrite lookup_insert_eq in E1; by injection E1 as <-).
  assert (({[p]} ∪ s.(recycling)) ∖ {[p]} = s.(recycling)) as Hrec by set_solver.
  assert (recycled s1 p (with_count n 0) = shelved s1 p (with_count n 0) ∨ recycled s1 p (with_count n 0) = with_world (put (shelved s1 p (with_count n 0)) p (with_count n 1)) s1.(world)) as [Hs|Hs].
  { unfold recycled. rewrite bool_decide_eq_true_2 by (rewrite Es1; done). cbn [ShouldCache blob_node]. unfold Blob_ShouldCache. fields. rewrite (rs_state _ Hrest). cbn [Z.eqb Pos.eqb kBlobStateReadable].
    destruct s1.(cache_policy_); [right|by left]. cbn [NodeActivateLowMemory blob_node]. by rewrite (resting_low_memory _ _ Hrest). }
  all: rewrite Hs in *; eexists; split; [done|]; split; [done|]; rewrite Es1; unfold shelved; fields; rewrite ?insert_insert_eq; split_and!; try done.
Qed.

Lemma discard_last s p n : cache_ok s → s.(heap) !! p = Some n → multiplicity p s.(refs) = 1%nat → s.(open_hash_) !! n.(digest_) ≠ Some p → resting n.(derived) →
  ∃ s', drop_ref s p = Returns s' ∧ cache_ok s' ∧ s'.(open_hash_) = s.(open_hash_) ∧ s'.(closed_hash_) = s.(closed_hash_) ∧
    s'.(refs) = s.(refs) ∖ {[+ p +]} ∧ s'.(recycling) = s.(recycling) ∧ s'.(world) = s.(world) ∧ s'.(heap) = delete p s.(heap).
Proof.
  intros Hc E Hm Ho Hrest. destruct (count_held s p n Hc E) as (_ & _ & Hr); [rewrite elem_of_multiplicity; lia|]. destruct (last_released s p n Hc E Hm) as (s1 & _ & Hc1 & Hin & -> & Es1).
  destruct (fbl_recycle_ok s1 p Hc1 Hin) as (n1 & E1 & _ & _ & -> & Hc2). assert (n1 = with_count n 0) as -> by (rewrite Es1 in E1; fields; rewrite lookup_insert_eq in E1; by injection E1 as <-).
  assert (({[p]} ∪ s.(recycling)) ∖ {[p]} = s.(recycling)) as Hrec by set_solver.
  assert (recycled s1 p (with_count n 0) = destroyed s1 p (with_count n 0) s1.(open_hash_) s1.(release_cvar_)) as Hs by (unfold recycled; rewrite bool_decide_eq_false_2; [done|by rewrite Es1]).
  rewrite Hs in *. eexists. split; [done|]. split; [done|]. rewrite Es1. unfold destroyed. fields. rewrite delete_insert_eq. split_and!; try done. exact (resting_destroy _ _ Hrest).
Qed.

(** The end of a round of [InitializeVnodes]. *)
Definition add_blob s (d : list Z) (b : Blob X) : outcome (zx_status * Vfs X) :=
  let '(vnode, s) := NewNode s d b in
  r ← Add s vnode;
  let '(status, s) := (r : zx_status * Vfs X) in
  s ← drop_ref s vnode;
  Returns (status, s).

Lemma idle_new s d b : idle s → let vn := s.(next_address) in let s1 := snd (NewNode s d b) in
  cache_ok s1 ∧ s.(heap) !! vn = None ∧ s1.(heap) = <[vn := {| digest_ := d; ref_count_ := 1; derived := b |}]> s.(heap) ∧ s1.(refs) = {[+ vn +]} ∧ s1.(open_hash_) = ∅ ∧ s1.(closed_hash_) = s.(closed_hash_) ∧ s1.(recycling) = ∅ ∧ s1.(world) = s.(world).
Proof.
  intros Hi vn s1. pose proof (NewNode_ok s d b (id_cache _ Hi)) as Hc. destruct (fresh_address s (id_cache _ Hi)) as (Hh & _ & _). split_and!; try done; [|apply Hi..]. unfold s1, NewNode. fields. rewrite (id_refs _ Hi). multiset_solver.
Qed.

Lemma add_blob_new s d b : idle s → visible s !! d = None → resting b → b.(key) = d →
  ∃ s', add_blob s d b = Returns (ZX_OK, s') ∧ idle s' ∧ visible s' = <[d := s.(next_address)]> (visible s) ∧ s'.(world) = s.(world) ∧
    s'.(heap) = <[s.(next_address) := {| digest_ := d; ref_count_ := 1; derived := b |}]> s.(heap) ∧ s.(heap) !! s.(next_address) = None.
Proof.
  intros Hi Hv Hb Hk. destruct (idle_new s d b Hi) as (Hc1 & Hfresh & Hh1 & Hr1 & Ho1 & Hcl1 & Hrc1 & Hw1). unfold add_blob. destruct (NewNode s d b) as [vn s1] eqn:En. assert (vn = s.(next_address)) as -> by by injection En. cbn [snd] in *. set (vn := s.(next_address)) in *.
  set (n := {| digest_ := d; ref_count_ := 1; derived := b |}) in *. assert (s1.(heap) !! vn = Some n) as E1 by (rewrite Hh1; apply lookup_insert_eq). rewrite (idle_visible s Hi) in Hv.
  unfold Add. destruct (AddLocked_ok s1 vn n Hc1 E1) as (l & s2 & -> & Hc2 & Hl); [rewrite Hr1; multiset_solver| |].
  { apply not_true_iff_false. rewrite InContainer_spec, Ho1, Hcl1. cbn [digest_ n]. rewrite Hv, lookup_empty. naive_solver. }
  cbn [mbind outcome_bind]. destruct Hl as [(_ & _ & -> & Es2)|[(q & _ & Hf)|[_ Hf]]]; [|inversion Hf; cbn [digest_ n] in *; rewrite ?Ho1, ?Hcl1, ?lookup_empty in *; congruence..].
  cbn [mbind outcome_bind]. cbn [digest_ n] in Es2. destruct (close_last s2 vn n Hc2) as (s3 & -> & Hc3 & Ho3 & Hcl3 & Hr3 & Hrc3 & Hw3 & Hh3); [by rewrite Es2|rewrite Es2; fields; rewrite Hr1; multiset_solver|rewrite Es2; fields; apply lookup_insert_eq|done|].
  cbn [mbind outcome_bind digest_ n] in *. rewrite Es2 in Ho3, Hcl3, Hr3, Hrc3, Hw3, Hh3. fields. rewrite Ho1, Hcl1, Hr1, Hrc1, Hw1, Hh1 in *.
  exists s3. split; [done|]. assert (idle s3) as Hi3.
  { split; [done|rewrite Ho3; by rewrite delete_insert_eq, delete_empty|rewrite Hr3; multiset_solver|done|]. intros q m Em. rewrite Hh3, insert_insert_eq in Em. destruct (decide (q = vn)) as [->|Hq]; [rewrite lookup_insert_eq in Em; by injection Em as <-|].
    rewrite lookup_insert_ne in Em by done. by apply (id_blobs _ Hi q). }
  split; [done|]. split; [by rewrite (idle_visible s3 Hi3), (idle_visible s Hi)|]. split; [done|]. split; [|done]. by rewrite Hh3, insert_insert_eq.
Qed.

Lemma add_blob_old s d b q : idle s → visible s !! d = Some q → resting b → b.(key) = d →
  ∃ s', add_blob s d b = Returns (ZX_ERR_ALREADY_EXISTS, s') ∧ idle s' ∧ visible s' = visible s ∧ s'.(world) = s.(world).
Proof.
  intros Hi Hv Hb Hk. destruct (idle_new s d b Hi) as (Hc1 & Hfresh & Hh1 & Hr1 & Ho1 & Hcl1 & Hrc1 & Hw1). unfold add_blob. destruct (NewNode s d b) as [vn s1] eqn:En. assert (vn = s.(next_address)) as -> by by injection En. cbn [snd] in *. set (vn := s.(next_address)) in *.
  set (n := {| digest_ := d; ref_count_ := 1; derived := b |}) in *. assert (s1.(heap) !! vn = Some n) as E1 by (rewrite Hh1; apply lookup_insert_eq). rewrite (idle_visible s Hi) in Hv.
  destruct (ok_closed _ (id_cache _ Hi) d q Hv) as (_ & m & Em & Hdm). assert (q ≠ vn) as Hq by congruence.
  unfold Add. destruct (AddLocked_ok s1 vn n Hc1 E1) as (l & s2 & -> & Hc2 & Hl); [rewrite Hr1; multiset_solver| |].
  { apply not_true_iff_false. rewrite InContainer_spec, Ho1, Hcl1. cbn [digest_ n]. rewrite Hv, lookup_empty. naive_solver. }
  cbn [mbind outcome_bind]. cbn [digest_ n] in Hl. destruct Hl as [(_ & Hn & _)|[(q' & -> & Hf)|[_ Hf]]]; [rewrite Hcl1 in Hn; congruence| |inversion Hf as [p Ho| | |]; by rewrite Ho1, lookup_empty in Ho].
  assert (q' = q ∧ s2 = opened s1 d q) as [-> Es2]. { inversion Hf as [|p n' Ho|p Ho Hc|]; subst; [by rewrite Ho1, lookup_empty in Ho|]. rewrite Hcl1 in Hc. split; congruence. }
  cbn [mbind outcome_bind]. assert (s2.(heap) !! q = Some m) as Eq2 by (rewrite Es2; unfold opened; fields; rewrite Hh1; by rewrite lookup_insert_ne).
  destruct (close_last s2 q m Hc2 Eq2) as (s3 & -> & Hc3 & Ho3 & Hcl3 & Hr3 & Hrc3 & Hw3 & Hh3); [rewrite Es2; unfold opened; fields; rewrite Hr1, multiplicity_disj_union, multiplicity_singleton_eq, multiplicity_singleton_ne by done; done|rewrite Es2, Hdm; unfold opened; fields; apply lookup_insert_eq|by apply (id_blobs _ Hi q)|].
  cbn [mbind outcome_bind]. rewrite Hdm in *. rewrite Es2 in Ho3, Hcl3, Hr3, Hrc3, Hw3, Hh3. unfold opened in *. fields. rewrite Ho1, Hcl1, Hr1, Hrc1, Hw1, Hh1 in *. rewrite insert_delete_eq, insert_id in Hcl3 by done. rewrite delete_insert_eq, delete_empty in Ho3.
  assert (s3.(refs) = {[+ vn +]}) as Hr3' by (rewrite Hr3; multiset_solver). destruct (discard_last s3 vn n Hc3) as (s4 & -> & Hc4 & Ho4 & Hcl4 & Hr4 & Hrc4 & Hw4 & Hh4);
    [rewrite Hh3, lookup_insert_ne by done; apply lookup_insert_eq|rewrite Hr3'; multiset_solver|by rewrite Ho3, lookup_empty|done|]. cbn [mbind outcome_bind]. exists s4. split; [done|].
  assert (idle s4) as Hi4.
  { split; [done|by rewrite Ho4|rewrite Hr4, Hr3'; multiset_solver|by rewrite Hrc4|]. intros x y Exy. rewrite Hh4, Hh3 in Exy. apply lookup_delete_Some in Exy as [Hx Exy]. destruct (decide (x = q)) as [->|Hxq]; [rewrite lookup_insert_eq in Exy; injection Exy as <-; exact (id_blobs _ Hi q m Em)|].
    rewrite !lookup_insert_ne in Exy by done. by apply (id_blobs _ Hi x). }
  split; [done|]. split; [by rewrite (idle_visible s4 Hi4), (idle_visible s Hi), Hcl4|]. by rewrite Hw4.
Qed.

(** ** The loop *)

(** The blob of an inode. *)
Definition mounted_blob (j : Z) (n : Inode) : Blob X := with_inode (SetState (SetState (NewBlob (get_root n)) kBlobStateReadable) kBlobStateReadable) j n.

Lemma mounted_resting j n : resting (mounted_blob j n).
Proof. split; try done. by split; [repeat constructor|..]. Qed.

Lemma PopulateInode_mounted a j n : 0 ≤ j → a.(node_map_) !! Z.to_nat j = Some n → PopulateInode a (SetState (NewBlob (get_root n)) kBlobStateReadable) j = Returns (mounted_blob j n).
Proof. intros Hj E. unfold PopulateInode. cbn [map_index_ SetState with_flags NewBlob Z.eqb ZX_DEBUG_ASSERT mbind outcome_bind]. by rewrite (GetNode_ok a j n Hj E). Qed.

Lemma same_bitmap a : with_node_bitmap a a.(node_bitmap_) = a.
Proof. by destruct a. Qed.

Lemma initialize_vnode_ok s i n a bs t : idle s → s.(world) = Some (a, bs) → 0 ≤ i < a.(node_bitmap_).(id_count_) → a.(node_map_) !! Z.to_nat i = Some n → ida_ok a.(node_bitmap_) t → (IsAllocated n = true → t.(lb) 0 i = false) →
  ∃ st s' ib t', initialize_vnode s i = Returns (st, s') ∧ idle s' ∧ s'.(world) = Some (with_node_bitmap a ib, bs) ∧ ida_ok ib t' ∧ ib.(id_count_) = a.(node_bitmap_).(id_count_) ∧
    (∀ j, t'.(lb) 0 j = t.(lb) 0 j || ((j =? i) && IsAllocated n)) ∧
    if is_blob n then match visible s !! get_root n with
      | Some _ => st = ZX_ERR_ALREADY_EXISTS
      | None => st = ZX_OK ∧ ∃ p, s.(heap) !! p = None ∧ visible s' = <[get_root n := p]> (visible s) ∧ s'.(heap) = <[p := {| digest_ := get_root n; ref_count_ := 1; derived := mounted_blob i n |}]> s.(heap)
      end
    else st = ZX_OK ∧ s'.(heap) = s.(heap) ∧ visible s' = visible s.
Proof.
  intros Hi Hw Hb En Ht Hfree. unfold initialize_vnode, is_blob. rewrite Hw, (GetNode_ok a i n ltac:(lia) En). cbn [mbind outcome_bind]. destruct (IsAllocated n) eqn:Ha; cbn [negb andb].
  2: { exists ZX_OK, s, a.(node_bitmap_), t. rewrite same_bitmap. split_and!; try done. intros j. by rewrite andb_false_r, orb_false_r. }
  destruct (MarkAllocated_ok a.(node_bitmap_) t i Ht ltac:(lia) (Hfree eq_refl)) as (ib & t' & Em & Ht' & Hc & Hlb). unfold MarkNodeAllocated. rewrite Em. cbn [mbind outcome_bind]. rewrite bool_decide_eq_true_2 by done. cbn [ZX_ASSERT mbind outcome_bind].
  set (a' := with_node_bitmap a ib). assert (idle (with_world s (Some (a', bs)))) as Hi' by (destruct Hi; split; try done; by apply with_world_ok).
  assert (∀ j, t'.(lb) 0 j = t.(lb) 0 j || ((j =? i) && true)) as Hlb' by (intros j; rewrite Hlb; destruct (j =? i); by rewrite ?orb_true_r, ?orb_false_r).
  destruct (IsExtentContainer n); cbn [negb]; [by exists ZX_OK, (with_world s (Some (a', bs))), ib, t'|]. rewrite (PopulateInode_mounted a' i n) by (done || lia). cbn [mbind outcome_bind].
  fold (add_blob (with_world s (Some (a', bs))) (get_root n) (mounted_blob i n)). destruct (visible s !! get_root n) as [q|] eqn:Hv.
  - destruct (add_blob_old _ (get_root n) (mounted_blob i n) q Hi' Hv (mounted_resting i n) eq_refl) as (s' & E' & Hidle & _ & Hw'). by exists ZX_ERR_ALREADY_EXISTS, s', ib, t'.
  - destruct (add_blob_new _ (get_root n) (mounted_blob i n) Hi' Hv (mounted_resting i n) eq_refl) as (s' & E' & Hidle & Hv' & Hw' & Hh & Hfr). exists ZX_OK, s', ib, t'. split_and!; try done. eexists. split_and!; done.
Qed.

(** The blobs of the nodes before [i], and no others. *)
Record mounted_upto (nm : list Inode) (i : Z) s : Prop := {
  mu_has j n : 0 ≤ j < i → nm !! Z.to_nat j = Some n → is_blob n = true → ∃ p nd, visible s !! get_root n = Some p ∧ s.(heap) !! p = Some nd ∧ nd.(derived) = mounted_blob j n;
  mu_only d p : visible s !! d = Some p → ∃ j n, 0 ≤ j < i ∧ nm !! Z.to_nat j = Some n ∧ is_blob n = true ∧ get_root n = d;
}.

Definition distinct (nm : list Inode) : Prop := ∀ i j n m, 0 ≤ i → 0 ≤ j → nm !! Z.to_nat i = Some n → nm !! Z.to_nat j = Some m → is_blob n = true → is_blob m = true → get_root n = get_root m → i = j.

Lemma mounted_distinct nm s : mounted_upto nm (Z.of_nat (length nm)) s → distinct nm.
Proof.
  intros [Hh _] i j n m Hi Hj En Em Hn Hm Hr. pose proof (lookup_lt_Some _ _ _ En). pose proof (lookup_lt_Some _ _ _ Em). destruct (Hh i n ltac:(lia) En Hn) as (p & nd & Hp & Ep & Hd). destruct (Hh j m ltac:(lia) Em Hm) as (q & md & Hq & Eq & Hd').
  rewrite Hr in Hp. simplify_eq. rewrite Hd in Hd'. by apply (f_equal map_index_) in Hd'.
Qed.

Lemma mounted_step nm i n s s' p : 0 ≤ i → nm !! Z.to_nat i = Some n → is_blob n = true → cache_ok s → mounted_upto nm i s → s.(heap) !! p = None → visible s !! get_root n = None → visible s' = <[get_root n := p]> (visible s) →
  s'.(heap) = <[p := {| digest_ := get_root n; ref_count_ := 1; derived := mounted_blob i n |}]> s.(heap) → mounted_upto nm (i + 1) s'.
Proof.
  intros Hi En Hb Hc [Hh Ho] Hp Hn Hv Hheap. split.
  - intros j m Hj Em Hm. destruct (decide (j = i)) as [->|Hne]; [simplify_eq; exists p; eexists; rewrite Hv, Hheap, !lookup_insert_eq; by split_and!|].
    destruct (Hh j m ltac:(lia) Em Hm) as (q & nd & Hq & Eq & Hd). exists q, nd. rewrite Hv, Hheap, !lookup_insert_ne; [done|congruence..].
  - intros d q. rewrite Hv. destruct (decide (d = get_root n)) as [->|Hd]; [intros _; by exists i, n; split_and!; [lia..|done|done|done]|]. rewrite lookup_insert_ne by done. intros (j & m & ? & ?)%Ho. exists j, m. split; [lia|done].
Qed.

Lemma mounted_skip nm i n s s' : 0 ≤ i → nm !! Z.to_nat i = Some n → is_blob n = false → mounted_upto nm i s → s'.(heap) = s.(heap) → visible s' = visible s → mounted_upto nm (i + 1) s'.
Proof.
  intros Hi En Hb [Hh Ho] Hheap Hv. split.
  - intros j m Hj Em Hm. rewrite Hv, Hheap. apply Hh; [|done..]. destruct (decide (j = i)) as [->|]; [|lia]. simplify_eq. congruence.
  - intros d q. rewrite Hv. intros (j & m & ? & ?)%Ho. exists j, m. split; [lia|done].
Qed.

Lemma initialize_loop_ok fuel s i a bs t ib : let nm := a.(node_map_) in let count := Z.of_nat (length nm) in
  count < 2 ^ 32 → 0 ≤ i ≤ count → count - i < Z.of_nat fuel → idle s → mounted_upto nm i s → s.(world) = Some (with_node_bitmap a ib, bs) → ida_ok ib t → ib.(id_count_) = count →
  (∀ j n, i ≤ j → nm !! Z.to_nat j = Some n → IsAllocated n = true → t.(lb) 0 j = false) →
  ∃ st s' ib' t', initialize_loop fuel count s i = Returns (st, s') ∧ idle s' ∧ s'.(world) = Some (with_node_bitmap a ib', bs) ∧ ida_ok ib' t' ∧ ib'.(id_count_) = count ∧
    ((st = ZX_OK ∧ mounted_upto nm count s' ∧ ∀ j n, 0 ≤ j → nm !! Z.to_nat j = Some n → t'.(lb) 0 j = t.(lb) 0 j || (i <=? j) && IsAllocated n) ∨ (st = ZX_ERR_ALREADY_EXISTS ∧ ¬ distinct nm)).
Proof.
  intros nm count Hlim. revert s i t ib. induction fuel as [|fuel IH]; intros s i t ib Hi Hf Hs Hm Hw Ht Hc Hfree; [lia|]. cbn [initialize_loop]. destruct (Z.leb_spec count i).
  { exists ZX_OK, s, ib, t. split_and!; try done. left. assert (i = count) as -> by lia. split_and!; try done. intros j n Hj En. pose proof (lookup_lt_Some _ _ _ En). ztest. by rewrite orb_false_r. }
  assert (∃ n, nm !! Z.to_nat i = Some n) as [n En] by (destruct (nm !! Z.to_nat i) eqn:En; [eauto|]; apply lookup_ge_None in En; lia).
  destruct (initialize_vnode_ok s i n (with_node_bitmap a ib) bs t Hs Hw) as (st & s1 & ib1 & t1 & -> & Hs1 & Hw1 & Ht1 & Hc1 & Hlb & Hr); [cbn [node_bitmap_ with_node_bitmap]; lia|done|done|intros Ha; by apply (Hfree i n)|].
  cbn [mbind outcome_bind]. cbn [node_bitmap_ with_node_bitmap] in *. change (with_node_bitmap (with_node_bitmap a ib) ib1) with (with_node_bitmap a ib1) in Hw1.
  assert (st = ZX_OK → mounted_upto nm (i + 1) s1 → ∃ st' s' ib' t', (if failed st then Returns (st, s1) else initialize_loop fuel count s1 (u32 (i + 1))) = Returns (st', s') ∧ idle s' ∧ s'.(world) = Some (with_node_bitmap a ib', bs) ∧ ida_ok ib' t' ∧ ib'.(id_count_) = count ∧
    ((st' = ZX_OK ∧ mounted_upto nm count s' ∧ ∀ j n, 0 ≤ j → nm !! Z.to_nat j = Some n → t'.(lb) 0 j = t.(lb) 0 j || (i <=? j) && IsAllocated n) ∨ (st' = ZX_ERR_ALREADY_EXISTS ∧ ¬ distinct nm))) as Hgo.
  { intros -> Hm1. rewrite failed_ok. unfold u32. rewrite Z.mod_small by lia. destruct (IH s1 (i + 1) t1 ib1 ltac:(lia) ltac:(lia) Hs1 Hm1 Hw1 Ht1 ltac:(congruence)) as (st' & s' & ib' & t' & E' & ? & ? & ? & ? & Hres).
    { intros j m Hj Em Ha. rewrite Hlb, (Hfree j m ltac:(lia) Em Ha). ztest. done. }
    exists st', s', ib', t'. split_and!; try done. destruct Hres as [(-> & Hmn & Hbits)|?]; [left|by right]. split_and!; try done. intros j m Hj Em. rewrite (Hbits j m Hj Em), Hlb. destruct (Z.eqb_spec j i) as [->|]; [simplify_eq|]; zcases; by rewrite ?orb_false_r. }
  destruct (is_blob n) eqn:Hb; [|destruct Hr as (-> & Hh & Hv); apply Hgo; [done|eapply mounted_skip; [|exact En|exact Hb|exact Hm|exact Hh|exact Hv]; lia]].
  destruct (visible s !! get_root n) as [q|] eqn:Hv; [|destruct Hr as (-> & p & Hp & Hv' & Hh); apply Hgo; [done|eapply mounted_step; try done; [lia|apply Hs]]].
  subst st. exists ZX_ERR_ALREADY_EXISTS, s1, ib1, t1. split_and!; try done; [congruence|]. right. split; [done|]. intros Hd. destruct (mu_only _ _ _ Hm _ _ Hv) as (j & m & Hj & Em & Hbm & Hrm). pose proof (Hd i j n m ltac:(lia) ltac:(lia) En Em Hb Hbm (eq_sym Hrm)). lia.
Qed.

Lemma InitializeVnodes_ok s a bs t : idle s → s.(world) = Some (a, bs) → let nm := a.(node_map_) in let count := Z.of_nat (length nm) in
  bs.(info_).(inode_count) = count → count < 2 ^ 32 → ida_ok a.(node_bitmap_) t → a.(node_bitmap_).(id_count_) = count →
  (∀ j n, 0 ≤ j → nm !! Z.to_nat j = Some n → IsAllocated n = true → t.(lb) 0 j = false) →
  ∃ st s' ib t', InitializeVnodes s = Returns (st, s') ∧ idle s' ∧ s'.(world) = Some (with_node_bitmap a ib, bs) ∧ ida_ok ib t' ∧ ib.(id_count_) = count ∧
    ((st = ZX_OK ∧ mounted_upto nm count s' ∧ ∀ j n, 0 ≤ j → nm !! Z.to_nat j = Some n → t'.(lb) 0 j = t.(lb) 0 j || IsAllocated n) ∨ (st = ZX_ERR_ALREADY_EXISTS ∧ ¬ distinct nm)).
Proof.
  intros Hs Hw nm count Hn Hlim Ht Hc Hfree. unfold InitializeVnodes. destruct (idle_reset s Hs) as (s1 & -> & Hs1 & Hv1 & Hw1 & _). cbn [mbind outcome_bind]. rewrite Hw1, Hw, Hn.
  destruct (initialize_loop_ok (S (Z.to_nat count)) s1 0 a bs t a.(node_bitmap_)) as (st & s' & ib & t' & E & Hs' & Hw' & Ht' & Hc' & Hres); [done|unfold count, nm; lia|unfold count, nm; lia|done|split; [lia|]; intros d p; by rewrite Hv1, lookup_empty|by rewrite same_bitmap, Hw1|done|done|intros j n ? ? ?; by eapply Hfree|].
  exists st, s', ib, t'. split_and!; try done. destruct Hres as [(-> & Hm & Hb)|?]; [left|by right]. split_and!; try done. intros j n Hj En. rewrite (Hb j n Hj En). by ztest.
Qed.

End mount.
