(* ===== verification/MountReload.v ===== *)
(** * Mounting a device

    A file system that is loaded from a device on which the superblock and the maps were written has these maps, and the blobs that
    they say; in particular, blobs survive that the file system is unmounted and mounted again. *)

From stdpp Require Import gmap gmultiset.
From S2P Require Import Prelude Bitmap RawBitmap RleBitmap IdAllocator Digest Format Superblock Reservers MerkleTree MerkleCreate MerkleVerify.
From S2P Require Import Allocator AllocatorBlocks AllocatorNodes Iterators Streaming Populate.
From S2P Require Import Operations RingBuffer RingCopy WriteTxn Writeback Journal JournalReplay JournalRecovery Blobfs Blob BlobWrite BlobMeta BlobCommit NodeWords BlobSync BlobData BlobFinish BlobRead BlobRoundTrip BlobRecord BlobLife BlobExample BlobSpace BlobStates.
From S2P Require Import BlobCache CacheProtocol CacheReset Vnodes VnodeLife Mount MountExact.

(** ** Bytes and words *)

Lemma bytes_word_le w : 0 ≤ w < 2 ^ 64 → bytes_word (le_bytes 8 w) = w.
Proof. intros Hw. cbn. zlia. Qed.

(** Cutting a list into its parts. *)
Lemma cut_parts {A B} (f : A → list B) (c : nat) l : (0 < c)%nat → Forall (λ x, length (f x) = c) l →
  map (λ i, take c (drop (c * i) (flat_map f l))) (seq 0 (length (flat_map f l) / c)) = map f l.
Proof.
  intros Hc Hl. rewrite (length_flat_parts f c l Hl), Nat.mul_comm, Nat.div_mul by lia. apply list_eq. intros i. rewrite !list_lookup_fmap.
  destruct (decide (i < length l)%nat) as [Hi|Hi]; [|rewrite !lookup_ge_None_2; [done|lia|rewrite length_seq; lia]]. rewrite lookup_seq_lt by done. destruct (lookup_lt_is_Some_2 l i Hi) as [x Ex]. rewrite Ex. cbn [fmap option_fmap option_map Nat.add]. f_equal.
  rewrite <- (Nat.mul_1_r c) at 1. rewrite flat_slice by done. rewrite (drop_S _ x) by done. cbn. by rewrite take_0, app_nil_r.
Qed.

Lemma bytes_words_of ws : Forall is_word ws → bytes_words (words_bytes ws) = ws.
Proof.
  intros Hw. unfold bytes_words, words_bytes. rewrite <- (map_map (λ i, take 8 (drop (8 * i) (flat_map (le_bytes 8) ws))) bytes_word), cut_parts by (lia || apply Forall_forall; intros; apply length_le_bytes).
  rewrite map_map. induction Hw as [|w ws Hx _ IH]; [done|]. cbn [map]. by rewrite IH, bytes_word_le.
Qed.

Lemma words_nodes_of (nm : list Inode) : Forall (λ n : Inode, length n = kNodeWords) nm → words_nodes (concat nm) = nm.
Proof. intros Hn. assert (concat nm = flat_map id nm) as -> by (by rewrite flat_map_concat_map, map_id). unfold words_nodes. rewrite (cut_parts id kNodeWords nm); [apply map_id|unfold kNodeWords; lia|done]. Qed.

(** ** The superblock *)

Lemma encode_words info : superblock_ok info → Forall is_word (encode_superblock info).
Proof.
  intros [Hw Hh]. unfold encode_superblock. repeat match goal with H : Forall _ (_ :: _) |- _ => inversion H; clear H; subst end. unfold is_word in *.
  assert (∀ lo hi, 0 ≤ lo < 2 ^ 32 → 0 ≤ hi < 2 ^ 32 → 0 ≤ Z.lor lo (Z.shiftl hi 32) < 2 ^ 64) as Hj by (intros lo hi Hl Hi; apply lor_range; [lia|lia|rewrite Z.shiftl_mul_pow2 by lia; lia]).
  repeat constructor; try done; try (by apply Hj); lia.
Qed.

Lemma decode_block info : superblock_ok info → decode_superblock (bytes_words (vmo_block_at (info_bytes info) 0)) = info.
Proof.
  intros Hok. assert (info_bytes info = words_bytes (overlay (encode_superblock info) (replicate 1024 0))) as ->.
  { unfold info_bytes, overlay. unfold words_bytes. rewrite flat_map_app. f_equal. }
  change 0 with (0 * kBlobfsBlockSize). rewrite vmo_block_words by lia. cbn [Z.mul Z.to_nat drop]. rewrite take_ge by done. rewrite bytes_words_of; [by apply decode_encode|].
  unfold overlay. apply Forall_app. split; [by apply encode_words|]. apply Forall_drop, Forall_replicate. split; lia.
Qed.

(** ** Loading *)

(** The superblock can be loaded, and the maps fill their blocks. *)
Record loadable (info : Superblock) (a : Allocator) : Prop := {
  ld_super : superblock_ok info;
  ld_check : CheckSuperblock info (TotalBlocks info) = ZX_OK;
  ld_blocks : 0 < BlockMapBlocks info ∧ Z.of_nat (length a.(block_map_).(data_)) = 1024 * BlockMapBlocks info;
  ld_nodes : 0 < NodeMapBlocks info ∧ Z.of_nat (length a.(node_map_)) = 128 * NodeMapBlocks info;
}.

(** A file system that was written to the device: its superblock and its maps are there. *)
Record unmounted (bs : Blobfs) (a : Allocator) (disk : list block) : Prop := {
  um_fs : fs_ok bs a disk;
  um_load : loadable bs.(info_) a;
  um_mapping : bs.(info_mapping_) = bs.(info_);
}.

(** An allocator with maps of the sizes that the superblock says, and without reservations. *)
Record sized (info : Superblock) (a : Allocator) (t : tree) : Prop := {
  sz_blocks : a.(block_map_).(size_) = info.(data_block_count) ∧ Z.of_nat (length a.(block_map_).(data_)) = 1024 * BlockMapBlocks info;
  sz_nodes : Z.of_nat (length a.(node_map_)) = info.(inode_count) ∧ Forall (λ n : Inode, length n = kNodeWords) a.(node_map_);
  sz_ids : ida_ok a.(node_bitmap_) t ∧ a.(node_bitmap_).(id_count_) = info.(inode_count);
  sz_reserved : ReservedBlockCount a.(reserved_blocks_) = 0 ∧ ReservedNodeCount a.(reserved_nodes_) = Returns 0;
}.

Lemma zlen_words ws : zlen (words_bytes ws) = 8 * Z.of_nat (length ws).
Proof. unfold zlen, words_bytes. rewrite (length_flat_parts (le_bytes 8) 8); [lia|]. apply Forall_forall. intros. apply length_le_bytes. Qed.

Lemma length_nodes (nm : list Inode) : Forall (λ n : Inode, length n = kNodeWords) nm → Z.of_nat (length (concat nm)) = 8 * Z.of_nat (length nm).
Proof. induction 1 as [|n nm Hn _ IH]; [done|]. cbn [concat length]. rewrite length_app, Hn. unfold kNodeWords. lia. Qed.

Section reload.
Context (k : Z) (Hk : 0 < k ≤ 2 ^ 13) (disk : list block) (bs0 : Blobfs) (a0 : Allocator) (Hum : unmounted bs0 a0 disk).
Let info := bs0.(info_).
Context (Hlimit : (BlockMapBlocks info + NodeMapBlocks info) * k < UINT32_MAX).

Lemma ResetFromStorage_ok a t bs i j : sized info a t → quiet bs → bs.(info_) = info → i ≠ j →
  ∃ bs', ResetFromStorage k disk (Some i, Some j) a bs = Returns (ZX_OK, (Some i, Some j), with_node_map (with_block_map a a0.(block_map_)) a0.(node_map_), bs') ∧ only_calls bs bs'.
Proof.
  intros [[Hsz Hlen] [Hn Hnw] _ [Hrb Hrn]] Hq Hi Hij. destruct Hum as [[[Hb Hs Hic Hix H0 H1 H2 H3] (_ & _ & Hraw) Hnw0 Hsync _ Hw%Forall_concat] [_ _ [Hbm Hlb] [Hnb Hln]] _]. fold info in Hb, Hic, H0, H1, H2, H3, Hbm, Hlb, Hnb, Hln, Hsync.
  unfold UINT32_MAX in Hlimit. assert (BlockMapBlocks info < 2 ^ 31 ∧ NodeMapBlocks info < 2 ^ 31) as [Hb31 Hn31] by (split; [rewrite BlockMapBlocks_eq, Hb by lia; unfold ceil_div; clear -Hs; zlia|lia]).
  unfold ResetFromStorage. rewrite Hrb, Hrn. cbn [Z.eqb ZX_DEBUG_ASSERT mbind outcome_bind attach_once fst snd]. rewrite Hi.
  destruct (EnqueueOperation_ok [] [] i 0 (BlockMapStartBlock info) (BlockMapBlocks info)) as (r1 & -> & Hr1); [split; [constructor|]; intros x; rewrite Exists_nil; split; [done|]; by intros ?%elem_of_nil|lia|by intros ? ? ?%elem_of_nil|lia|lia|lia|lia|].
  cbn [mbind outcome_bind]. destruct (EnqueueOperation_ok r1 _ j 0 (NodeMapStartBlock info) (NodeMapBlocks info) Hr1) as (r2 & -> & Hr2); [lia| |lia|lia|lia|lia|].
  { intros off e. cbn [app]. rewrite in_items. intros (x & _ & [= ? _ _]). congruence. }
  cbn [mbind outcome_bind]. cbn [app] in Hr2.
  destruct (Transact_ok k Hk disk bs r2 _ (BlockMapBlocks info + NodeMapBlocks info) Hq Hr2) as (tm & read & -> & Hread); [done| |].
  { intros id o d. rewrite elem_of_app, !in_items. intros [(x & Hx & [= -> -> ->])|(x & Hx & [= -> -> ->])]; lia. }
  cbn [mbind outcome_bind]. eexists. split; [|apply only_calls_advance]. 
  rewrite (Hread i (words_bytes a.(block_map_).(data_)) (words_bytes a0.(block_map_).(data_)) (BlockMapBlocks info)).
  - cbn [node_map_ with_block_map]. rewrite (Hread j (words_bytes (concat a.(node_map_))) (words_bytes (concat a0.(node_map_))) (NodeMapBlocks info)).
    + rewrite bytes_words_of, bytes_words_of, words_nodes_of by done. rewrite Hsz, Hb. by destruct a0.(block_map_).
    + rewrite zlen_words, length_nodes by done. lia.
    + rewrite zlen_words, length_nodes by done. lia.
    + intros o d. rewrite elem_of_app, !in_items. intros [(x & Hx & [= ? _ _])|(x & Hx & [= -> ->])]; [congruence|]. split; [lia|]. specialize (Hsync node_map_vmo x ltac:(right; right; split; [done|lia])). exact Hsync.
    + intros o Ho. left. exists (NodeMapStartBlock info + o). rewrite elem_of_app, !in_items. right. exists o. by split; [lia|].
  - rewrite zlen_words. lia.
  - rewrite zlen_words. lia.
  - intros o d. rewrite elem_of_app, !in_items. intros [(x & Hx & [= -> ->])|(x & Hx & [= ? _ _])]; [|congruence]. split; [lia|]. specialize (Hsync block_map_vmo x ltac:(right; left; split; [done|lia])). exact Hsync.
  - intros o Ho. left. exists (BlockMapStartBlock info + o). rewrite elem_of_app, !in_items. left. exists o. by split; [lia|].
Qed.

Lemma ResetNodeMapSize_ok bst ist st a t bs : sized info a t → bs.(info_) = info → (∀ l, 0 ≤ l < 11 → ∃ len, Reliable (ist l) len) →
  ∃ ib t', ResetNodeMapSize (H := blobfs_space_manager bst) ist st a bs = Returns (ZX_OK, with_node_bitmap a ib) ∧ sized info (with_node_bitmap a ib) t' ∧ ∀ i, 0 ≤ i < info.(inode_count) → t'.(lb) 0 i = false.
Proof.
  intros Hsz Hi Hrel. pose proof Hsz as [_ [Hn Hnw] [Ht Hc] [_ Hrn]]. pose proof (ld_nodes _ _ (um_load _ _ _ Hum)) as [Hnb Hln]. pose proof (vo_nodes _ _ _ (fs_volume _ _ _ (um_fs _ _ _ Hum))) as Hic. pose proof (vo_index _ _ _ (fs_volume _ _ _ (um_fs _ _ _ Hum))) as Hix. fold info in Hnb, Hln, Hic.
  unfold ResetNodeMapSize. rewrite Hrn. cbn [mbind outcome_bind Z.eqb ZX_DEBUG_ASSERT Info blobfs_space_manager]. rewrite Hi. unfold kBlobfsInodeSize, kBlobfsBlockSize.
  assert (64 ⊠ info.(inode_count) = 8192 * NodeMapBlocks info) as Hm by (unwrap; lia). rewrite Hm. rewrite round_up_small by lia. replace ((8192 * NodeMapBlocks info + 8192 - 1) / 8192 * 8192) with (8192 * NodeMapBlocks info) by zlia. rewrite Z.eqb_refl. cbn [negb].
  replace (8192 * NodeMapBlocks info / 8192) with (NodeMapBlocks info) by zlia. rewrite Z.eqb_refl. cbn [ZX_DEBUG_ASSERT mbind outcome_bind]. replace (64 * Z.of_nat (length a.(node_map_))) with (8192 * NodeMapBlocks info) by lia. rewrite Z.eqb_refl, failed_ok.
  replace (Z.to_nat (8192 * NodeMapBlocks info / 64)) with (length a.(node_map_)) by zlia. rewrite resize_all. replace (with_node_map a a.(node_map_)) with a by by destruct a.
  unfold IdAllocator.Reset, IdAllocator.Grow. unfold kMaxId, SIZE_MAX in *. rewrite Hc. ztest. cbn [mbind outcome_bind]. rewrite failed_ok.
  destruct (reset_levels_ok ist a.(node_bitmap_) t Ht Hrel) as (ib & t' & -> & Ht' & [Hid _] & Hfree). cbn [mbind outcome_bind fst snd]. exists ib, t'. split; [done|]. split; [|by rewrite <- Hc].
  destruct Hsz as [? ? _ ?]. split; try done. cbn [node_bitmap_ with_node_bitmap]. split; [done|congruence].
Qed.

Lemma Reload_ok {X} `{BlobCompressor X} bst ist (s : Vfs X) a t bs i j : idle s → s.(world) = Some (a, bs) → sized info a t → quiet bs → i ≠ j → (∀ l, 0 ≤ l < 11 → ∃ len, Reliable (ist l) len) →
  ∃ r s' a' bs' t', Reload bst ist k disk (Some i, Some j) s = Returns (r, (Some i, Some j), s') ∧ idle s' ∧ s'.(world) = Some (a', bs') ∧ bs'.(info_) = info ∧ quiet bs' ∧
    a'.(block_map_) = a0.(block_map_) ∧ a'.(node_map_) = a0.(node_map_) ∧ ida_ok a'.(node_bitmap_) t' ∧ a'.(node_bitmap_).(id_count_) = info.(inode_count) ∧
    ((r = Status ZX_OK ∧ mounted_upto a0.(node_map_) info.(inode_count) s' ∧ ∀ i n, 0 ≤ i → a0.(node_map_) !! Z.to_nat i = Some n → t'.(lb) 0 i = IsAllocated n) ∨ (r = One ∧ ¬ distinct a0.(node_map_))).
Proof.
  intros Hs Hw Hsz Hq Hij Hrel. pose proof (vo_nodes _ _ _ (fs_volume _ _ _ (um_fs _ _ _ Hum))) as Hic. pose proof (vo_index _ _ _ (fs_volume _ _ _ (um_fs _ _ _ Hum))) as Hix. fold info in Hic. unfold Reload. rewrite Hw. unfold call at 1. rewrite Hq, failed_ok.
  assert (first_block disk = vmo_block_at (info_bytes info) 0) as Hb0. { pose proof (fs_synced _ _ _ (um_fs _ _ _ Hum) info_vmo 0 ltac:(by left)) as Hx. cbn [metadata info_vmo Z.eqb Pos.eqb] in Hx. rewrite (um_mapping _ _ _ Hum) in Hx. exact (f_equal (λ o, match o with Some b => b | None => [] end) Hx). }
  rewrite Hb0. rewrite (decode_block info (ld_super _ _ (um_load _ _ _ Hum))), (ld_check _ _ (um_load _ _ _ Hum) : CheckSuperblock info (TotalBlocks info) = ZX_OK), failed_ok. set (bs1 := with_info _ info).
  assert (quiet bs1) as Hq1 by (intros x; apply Hq). unfold ResetBlockMapSize. rewrite (proj1 (sz_reserved _ _ _ Hsz)). cbn [Z.eqb ZX_DEBUG_ASSERT mbind outcome_bind]. change (Info bs1) with info. rewrite (proj1 (sz_blocks _ _ _ Hsz)), Z.eqb_refl. cbn [negb mbind outcome_bind]. rewrite failed_ok.
  rewrite (proj1 (sz_nodes _ _ _ Hsz)). replace (kBlobfsInodeSize ⊠ info.(inode_count) =? kBlobfsInodeSize * info.(inode_count)) with true by (symmetry; apply Z.eqb_eq; unfold kBlobfsInodeSize; unwrap; lia).
  destruct (ResetNodeMapSize_ok bst ist ZX_OK a t bs1 Hsz eq_refl Hrel) as (ib & t1 & -> & Hsz1 & Hfree). cbn [mbind outcome_bind]. rewrite failed_ok.
  destruct (ResetFromStorage_ok _ t1 bs1 i j Hsz1 Hq1 eq_refl Hij) as (bs2 & -> & Hc). cbn [mbind outcome_bind]. rewrite failed_ok. set (a2 := with_node_map _ _).
  assert (idle (with_world s (Some (a2, bs2)))) as Hs2 by (destruct Hs; split; try done; by apply with_world_ok).
  destruct (InitializeVnodes_ok (with_world s (Some (a2, bs2))) a2 bs2 t1 Hs2 eq_refl) as (st & s' & ib' & t' & -> & Hs' & Hw' & Ht' & Hc' & Hres).
  - rewrite (oc_info _ _ Hc). exact Hic.
  - exact Hix.
  - apply (sz_ids _ _ _ Hsz1).
  - cbn [a2 node_bitmap_ with_node_map with_block_map node_map_]. rewrite <- Hic. apply (sz_ids _ _ _ Hsz1).
  - intros x n Hx En _. pose proof (lookup_lt_Some _ _ _ En). apply Hfree. change (node_map_ a2) with (node_map_ a0) in *. lia.
  - cbn [mbind outcome_bind]. eexists _, s', _, bs2, t'. split; [done|]. split; [done|]. split; [exact Hw'|]. split; [apply (oc_info _ _ Hc)|]. split; [by eapply only_calls_quiet|]. split; [done|]. split; [done|]. split; [done|]. split; [by rewrite Hic|].
    destruct Hres as [(-> & Hm & Hbits)|(-> & Hd)]; [left|by right]. split; [done|]. split; [by rewrite Hic|]. intros x n Hx En. rewrite (Hbits x n Hx En). pose proof (lookup_lt_Some _ _ _ En). rewrite Hfree by lia. done.
Qed.

End reload.
