(* ===== verification/MountTheorems.v ===== *)
(** * What holds of mounting, of listing, and of blobs that are mounted again

    The theorems, with the small file system as the instance of their hypotheses. *)

From stdpp Require Import gmap gmultiset.
From S2P Require Import Prelude Bitmap RawBitmap RleBitmap IdAllocator Digest Format Superblock Reservers MerkleTree MerkleCreate MerkleVerify.
From S2P Require Import Allocator AllocatorBlocks AllocatorNodes Iterators Streaming Populate.
From S2P Require Import Operations RingBuffer RingCopy WriteTxn Writeback Journal JournalReplay JournalRecovery Blobfs Blob BlobWrite BlobMeta BlobCommit NodeWords BlobSync BlobData BlobFinish BlobRead BlobRoundTrip BlobRecord BlobLife BlobExample BlobSpace BlobTheorems BlobStates.
From S2P Require Import BlobCache CacheProtocol CacheReset Vnodes VnodeLife Mount MountExact MountReload.

(** ** Names are bytes *)

Lemma merkle_root_bytes (hash : list Z → list Z) data : (∀ x, Forall is_byte (hash x)) → Forall is_byte (merkle_root hash data).
Proof.
  intros Hh. unfold merkle_root. generalize 9%nat, 0. intros fuel. revert data. induction fuel as [|fuel IH]; intros data lvl; cbn [merkle]; [done|]. destruct (_ <=? _); [apply Hh|].
  specialize (IH (next_level hash lvl data) (lvl + 1)). by destruct (merkle hash fuel _ _).
Qed.

(** ** A blob on the device is that of its node *)

Lemma device_blob_nodes {X} {HX : BlobCompressor X} hash disk a a' base i n data : a'.(node_map_) = a.(node_map_) → device_blob (X := X) hash disk a base i n data → device_blob (X := X) hash disk a' base i n data.
Proof.
  intros E [[Hi Hn] Hs Hb (es & (it & Hit & cur & es' & Hy & Hrs) & H1 & H2 & H3 & H4)]. constructor; [by rewrite E|done|done|]. exists es. split; [|done].
  unfold NewAllocatedExtentIterator in Hit. rewrite (GetNode_ok a i n Hi Hn) in Hit. cbn [mbind outcome_bind] in Hit. injection Hit as <-.
  eexists. unfold NewAllocatedExtentIterator. rewrite (GetNode_ok a' i n) by (done || by rewrite E). split; [done|]. exists cur, es'. split; [|done]. unfold yields, NewBlockIterator in *. cbn in *. unfold allocated_yields in *. cbn in *. by rewrite E.
Qed.

(** ** A file system to which a blob was added *)

Lemma loadable_registered info a a' x y : loadable info a → is_word x → is_word y → length a'.(block_map_).(data_) = length a.(block_map_).(data_) → length a'.(node_map_) = length a.(node_map_) → loadable (with_alloc_counts info x y) a'.
Proof.
  intros [[Hw Hh] Hc Hb Hn] Hx Hy E1 E2. constructor; [|exact Hc|by rewrite E1|by rewrite E2]. split; [|exact Hh]. cbn [with_alloc_counts magic0 magic1 data_block_count journal_block_count inode_count alloc_block_count alloc_inode_count blob_header_next slice_size vslice_count] in *. by decompose_Forall.
Qed.

Lemma registered_unmounted a bs i d a' bs' disk' : loadable bs.(info_) a → fs_ok bs' a' disk' → registered a bs i d a' bs' → unmounted bs' a' disk'.
Proof.
  intros Hl Hfs [(x & y & E & Hx & Hy) Hm [H1 H2] _ _ _]. constructor; [done| |done]. rewrite E. by eapply loadable_registered.
Qed.

(** The names of the blobs of a node map. *)
Definition named (nm : list Inode) (d : list Z) : Prop := ∃ i n, nm !! i = Some n ∧ is_blob n = true ∧ get_root n = d.

Lemma registered_named a bs i d a' bs' e : registered a bs i d a' bs' → named a'.(node_map_) e ↔ e = d ∨ named a.(node_map_) e.
Proof.
  intros [_ _ _ (n & En & Hn & <-) Ho Hf]. split.
  - intros (j & m & Em & Hm & <-). destruct (decide (j = Z.to_nat i)) as [->|Hj]; [left; congruence|]. right. exists j, m. by rewrite <- (Ho j m Hj Hm).
  - intros [->|(j & m & Em & Hm & <-)]; [by exists (Z.to_nat i), n|]. exists j, m. split; [|done]. apply Ho; [|done..]. intros ->. by rewrite (Hf m Em) in Hm.
Qed.

Lemma registered_distinct a bs i d a' bs' : 0 ≤ i → registered a bs i d a' bs' → distinct a.(node_map_) → ¬ named a.(node_map_) d → distinct a'.(node_map_).
Proof.
  intros Hi [_ _ _ (n & En & Hn & <-) Ho _] Hd Hnot j j' m m' Hj Hj' Em Em' Hm Hm' Hr.
  assert (∀ q x, 0 ≤ q → a'.(node_map_) !! Z.to_nat q = Some x → is_blob x = true → get_root x = get_root n → q = i) as Hu.
  { intros q x Hq Ex Hx Hxr. destruct (decide (q = i)) as [|Hne]; [done|]. destruct Hnot. exists (Z.to_nat q), x. split; [|done]. apply Ho; [lia|done|done]. }
  destruct (decide (j = i)) as [->|Hji]; [rewrite En in Em; injection Em as <-; symmetry; by eapply Hu|]. destruct (decide (j' = i)) as [->|Hji']; [rewrite En in Em'; injection Em' as <-; by eapply Hu|].
  apply (Hd j j' m m'); try done; apply Ho; done || lia.
Qed.

(** ** What is mounted *)

Lemma mounted_named {X} nm (s : Vfs X) d : mounted_upto nm (Z.of_nat (length nm)) s → is_Some (visible s !! d) ↔ named nm d.
Proof.
  intros [Hh Ho]. split.
  - intros [p (j & n & _ & En & Hn & Hr)%Ho]. by exists (Z.to_nat j), n.
  - intros (j & n & En & Hn & <-). pose proof (lookup_lt_Some _ _ _ En). destruct (Hh (Z.of_nat j) n) as (p & nd & Hp & _); [lia|by rewrite Nat2Z.id|done|by exists p].
Qed.

(** Storage for the levels of the id allocator does not fail. *)
Definition reliable_levels (ist : Z → Storage) : Prop := ∀ l, 0 ≤ l < 11 → ∃ len, Reliable (ist l) len.

Section theorems.
Context {X : Type} {HX : BlobCompressor X}.
Implicit Types s : Vfs X.


(** C5. Blobs survive a mount.  In the setting of the round trip of blobs, let the superblock be one that can be loaded, the
    names of the blobs distinct, and the name of the new blob another one.  After a blob was written, in any pieces, and
    the works that it handed over are on the device, a file system is loaded from the device.  It has exactly the names that
    there were, and the new one; and the blob that is found under the new name reads every slice of the data. *)
Theorem blob_survives_remount {HL : BlobCompressorLaws X} (hash : list Z → list Z) (Hhash : ∀ x, length (hash x) = 32%nat) (Hbytes : ∀ x, Forall is_byte (hash x)) bst ist
    a bs disk t r es (pieces : list (list Z)) :
  let data := concat pieces in let digest := merkle_root hash data in let info := bs.(info_) in
  has_space a bs disk (zlen data) t r es → can_hold digest (zlen data) →
  queues_ok bs (2 * Z.of_nat (length es) + NodeCountForExtents (Z.of_nat (length es)) + 1) →
  loadable info a → distinct a.(node_map_) → ¬ named a.(node_map_) digest →
  ∃ a' bs' b' new, write_blob hash bst ist a bs digest (zlen data) pieces = Returns (ZX_OK, a', bs', b') ∧ bs'.(accepted) = bs.(accepted) ++ new ∧
    let disk' := disk_after disk new in
    ∀ k s a2 bs2 t2 i j, 0 < k ≤ 2 ^ 13 → (BlockMapBlocks info + NodeMapBlocks info) * k < UINT32_MAX → (merkle_blocks (zlen data) + data_blocks (zlen data)) * k < UINT32_MAX →
      idle s → s.(world) = Some (a2, bs2) → sized info a2 t2 → quiet bs2 → i ≠ j → reliable_levels ist →
      ∃ s' a3 bs3 p nd, Reload bst ist k disk' (Some i, Some j) s = Returns (Status ZX_OK, (Some i, Some j), s') ∧ s'.(world) = Some (a3, bs3) ∧
        (∀ d, is_Some (visible s' !! d) ↔ d = digest ∨ named a.(node_map_) d) ∧ visible s' !! digest = Some p ∧ s'.(heap) !! p = Some nd ∧
        ∀ off len, 0 ≤ off < 2 ^ 64 → 0 ≤ len < 2 ^ 64 →
          ∃ bs4 b4, ReadInternal hash true k disk' a3 bs3 nd.(derived) len off = Returns (ZX_OK, slice data off len, bs4, b4).
Proof.
  intros data digest info Hsp Hch Hqs Hl Hd Hnot. destruct (write_blob_ok hash Hhash bst ist a bs disk t r es pieces Hsp Hch Hqs) as (a' & bs' & b' & q & new & n & E & _ & Hacc & _ & _ & Hfs & Hdb & _ & Hrg).
  specialize (Hrg (merkle_root_bytes hash _ Hbytes)). fold data digest in Hrg. exists a', bs', b', new. split; [done|]. split; [done|]. intros disk' k s a2 bs2 t2 i j Hk Hlimit Hkb Hs Hw Hsz Hq Hij Hrel.
  pose proof (registered_unmounted _ _ _ _ _ _ _ Hl Hfs Hrg) as Hum. destruct (rg_info _ _ _ _ _ _ Hrg) as (x & y & Ei & _). destruct (db_node _ _ _ _ _ _ _ Hdb) as [Hq0 En].
  destruct (Reload_ok k Hk disk' bs' a' Hum ltac:(by rewrite Ei) bst ist s a2 t2 bs2 i j Hs Hw ltac:(rewrite Ei; by destruct Hsz) Hq Hij Hrel) as (rr & s' & a3 & bs3 & t' & Er & Hs' & Hw' & Hi & Hq3 & Hb3 & Hn3 & _ & _ & Hres).
  destruct Hres as [(-> & Hm & _)|[_ Hbad]]; [|destruct Hbad; by eapply registered_distinct]. rewrite (vo_nodes _ _ _ (fs_volume _ _ _ Hfs)) in Hm.
  destruct (rg_new _ _ _ _ _ _ Hrg) as (n' & En' & Hn' & Hr'). rewrite En in En'. injection En' as <-. pose proof (lookup_lt_Some _ _ _ En).
  destruct (mu_has _ _ _ Hm q n) as (p & nd & Hp & Ep & End); [lia|done|done|]. rewrite Hr' in Hp. exists s', a3, bs3, p, nd. split_and!; try done.
  - intros d. rewrite (mounted_named _ _ _ Hm). by eapply registered_named.
  - intros off len Hoff Hlen. pose proof (place_before_data _ _ _ info_vmo 0 (fs_volume _ _ _ Hfs) ltac:(by left)) as Hpl. cbn in Hpl. rewrite <- Hi in Hdb, Hpl.
    pose proof (device_blob_nodes _ _ _ a3 _ _ _ _ Hn3 Hdb) as Hdb3. rewrite End. destruct (ReadInternal_ok hash Hhash k Hk disk' a3 q n data bs3 (mounted_blob q n) Hq3 ltac:(lia) Hdb3 eq_refl eq_refl eq_refl Hr' Hkb len off) as (bs4 & b4 & E4 & _); [by apply mounted_resting|done|done|by exists bs4, b4].
Qed.
End theorems.

(** ** The small file system *)

Lemma small_loadable s : loadable small_info (small_allocator s).
Proof. constructor; [split; repeat constructor; vm_compute; done|by vm_compute|by vm_compute|by vm_compute]. Qed.

Lemma small_sized s t : nodes_ok (small_allocator s) t → sized small_info (small_allocator s) t.
Proof. intros Hno. constructor; [done|split; [done|by apply Forall_replicate]|split; [apply Hno|]|done]. exact (n_count _ _ Hno). Qed.

Lemma small_no_blobs i n : small_nodes !! i = Some n → is_blob n = false.
Proof. by intros [-> _]%lookup_replicate. Qed.

Lemma small_distinct : distinct small_nodes.
Proof. intros i j n m _ _ En _ Hn. by rewrite (small_no_blobs _ _ En) in Hn. Qed.

Definition small_cache (s : IdAllocator) : Vfs (list Z) := NewCache EvictImmediately (Some (small_allocator s, small_fs)).


(** A hash function of bytes. *)
Definition byte_hash (x : list Z) : list Z := map u8 (xor_hash x).

Lemma byte_hash_length x : length (byte_hash x) = 32%nat.
Proof. done. Qed.

Lemma byte_hash_bytes x : Forall is_byte (byte_hash x).
Proof. apply Forall_forall. intros b (y & <- & _)%list_elem_of_In%in_map_iff. apply Z.mod_pos_bound. lia. Qed.

Lemma blob_survives_remount_witness : ∃ s t new, nodes_ok (small_allocator s) t ∧ ∃ s' a3 bs3 p nd bs4 b4,
  Reload (IdAllocator.vmo 0) IdAllocator.vmo 16 (disk_after small_disk new) (Some 1, Some 2) (small_cache s) = Returns (Status ZX_OK, (Some 1, Some 2), s') ∧
  visible s' !! merkle_root byte_hash (concat small_pieces) = Some p ∧ s'.(heap) !! p = Some nd ∧
  ReadInternal byte_hash true 16 (disk_after small_disk new) a3 bs3 nd.(derived) 3 39999 = Returns (ZX_OK, [7; 7; 7], bs4, b4).
Proof.
  destruct small_nodes_ok as (s & t & Hno & Hids). destruct (small_space s t Hno Hids) as (r & es & Hsp & Hes). exists s, t. rewrite <- small_size in Hsp.
  destruct (blob_survives_remount byte_hash byte_hash_length byte_hash_bytes (IdAllocator.vmo 0) IdAllocator.vmo (small_allocator s) small_fs small_disk t r es small_pieces) as (a' & bs' & b' & new & _ & _ & Hall).
  - exact Hsp.
  - rewrite small_size. apply small_hold. apply zlen_merkle_root; [apply byte_hash_length|apply max_levels_enough; rewrite small_size; lia|rewrite small_size; lia].
  - rewrite Hes. by apply small_queues.
  - apply small_loadable.
  - exact small_distinct.
  - intros (i & n & En & Hn & _). by rewrite (small_no_blobs _ _ En) in Hn.
  - exists new. split; [done|]. destruct (Hall 16 (small_cache s) (small_allocator s) small_fs t 1 2) as (s' & a3 & bs3 & p & nd & E & _ & _ & Hp & Ep & Hread);
      [lia|by vm_compute|rewrite small_size; by vm_compute|apply new_idle|done|by apply small_sized|done|done|intros l _; exists 0%nat; apply vmo_reliable|].
    destruct (Hread 39999 3) as (bs4 & b4 & E4); [lia|lia|]. exists s', a3, bs3, p, nd, bs4, b4. split_and!; done.
Defined.
